(* ===== verification/_CoqProject ===== *)
-Q . S2P
Prelude.v
GoText.v
GoHash.v
GoUrl.v
GoJson.v
Errors.v
Canonical.v
TextFacts.v
JsonFacts.v
Identifiers.v
WireConfig.v
GoTime.v
GoStruct.v
Messages.v
RotationMessages.v
Transcripts.v
Frames.v
StructFacts.v
MessageFacts.v
FrameFacts.v
TranscriptFacts.v
RotationFacts.v
Negotiation.v
Registry.v
ServerSession.v
ServerSafety.v
ServerConfigFlow.v
ServerWorld.v
Persistence.v
PersistenceSafety.v
PersistenceWorld.v
PersistenceThreads.v
Rotation.v
RotationMemory.v
RotationEffects.v
RotationInvariant.v
RotationRefinement.v
RotationSafety.v
Transport.v
ClientSession.v
ClientSafety.v
Handshake.v
TransportSafety.v
RotationDispatch.v
RotationDispatchSafety.v
RotationDispatchFacts.v
DrainDispatch.v
GoNet.v
PreviewContract.v
PreviewManager.v
PreviewManagerSafety.v
PreviewWorld.v
PreviewFencing.v
PreviewService.v
PreviewSql.v
PreviewSqlSafety.v
PreviewProduction.v
PrivateContract.v
MintTypes.v
Mint.v
MintFacts.v
MintSafety.v
PrivateGrant.v
PrivateService.v
PrivateSafety.v
PrivateResolver.v
PrivateProduction.v
RelaySelection.v
Naming.v
Scenario.v
ClientWitnesses.v
ServerWitnesses.v
ComponentWitnesses.v
RotationWitnesses.v
PersistenceWitnesses.v
DispatchWitnesses.v
PreviewWitnesses.v
PreviewSqlWitnesses.v
MintWitnesses.v
PrivateWitnesses.v
