(* ===== verification/Prelude.v ===== *)
(** * Paperboat control plane: a verification library

    This library models the core of the Paperboat control-plane server (Go, under
    src/internal) and proves the properties that make it correct.  The core is
    the connector protocol, by which a tunnel connector on a customer host
    authenticates, receives tunnel configurations, reports readiness, renews and
    rotates its credential, and drains.  On it rest preview attachments, which
    bring a preview's route onto an edge, and private access, which lets a machine
    of the account through to a private preview or tunnel for a signed grant.
    Next to them stand the credentials that the server signs, relay selection and
    the generated names of machines and sessions.

    ** The program's parts and where they are modelled

    All paths are under src/internal/connectorprotocol unless they say otherwise.

    Leaf code of protocol.go.
    - [Errors]: wire codes, disconnect reasons, typed errors, [codeError],
      [CodeOf], [ReasonOf].
    - [Identifiers]: identifier patterns, credential references, proofs,
      identity keys, capability lists, [NegotiateVersion] and
      [NegotiateCapabilities].
    - [Canonical]: [rejectDuplicateKeys], [decodeValue], [rejectSecretFields]
      and [canonicalJSON]; [WireConfig]: the tunnel configuration document.
    - [Messages]: every message with its [Validate] methods, [NewSnapshot] and
      [NewDelta]; [RotationMessages]: the rotation plan and messages of
      rotation.go; [Transcripts]: the texts that connectors sign.
    - [Frames]: length-prefixed JSON frames, [NewFrame], [ReadFrame],
      [WriteFrame] and the strict decoding of every payload type.

    State of session.go.
    - [Registry]: [SessionRegistry], the map from connector to current session.
    - [ServerSession]: [Server.Accept] and the methods of [ServerSession];
      [ServerWorld]: all sessions of a server over one registry, as a step
      relation in which methods of different sessions interleave.
    - [ClientSession]: the connector's end, cut where a method gives its lock up
      to call the runtime; [ClientSafety] interleaves the halves.

    Durable state.
    - [Persistence] (persistence.go): the authenticator, the snapshot source,
      [PersistentServer] and [PersistentSession] over the class
      [PersistentControlStore]; [PersistenceWorld]: all durable sessions over
      one store, as a step relation in which a call is one step;
      [PersistenceThreads]: the same server with every call cut where it holds no
      lock, of which the former's runs are runs too.
    - [Rotation] (rotation.go): the credential-rotation coordinator over the
      class [RotationPersistence]; [RotationMemory]: the in-memory store, an
      instance of the class.

    The stream (transport.go).
    - [Transport]: [ControlTransport.Serve] over the bytes of one connector, with
      [handleControlFrame] and the directory [ActiveControlSessions].

    The dispatchers, which hand durable work to live sessions.
    - [RotationDispatch] (rotation_dispatcher.go): registration, sending,
      reconciliation of rotation plans and the connector's frames, over a store
      class; a [Reading] holds what other goroutines did between the critical
      sections of a call.
    - [DrainDispatch] (drain_dispatcher.go): registration and reconciliation of
      drain operations over the durable server's sessions.

    Preview attachments (src/internal/previewattachment).
    - [PreviewContract] (contract.go): requests, resolutions, bindings,
      attachments and admissions with their validation.
    - [PreviewManager] (manager.go): the in-memory manager, as critical sections
      over a heap of records; [PreviewWorld] interleaves them.
    - [PreviewService] (service.go, authority.go, readiness.go): the production
      service over the class [AttachmentRepository], with what other requests do
      between its calls.
    - [PreviewSql] (sql_store.go, outbox.go, and [InTx] of db/db.go): the SQL
      repository and the outbox of commands to edges, each statement a function
      on tables, each transaction with the outcome that the database gives it;
      an instance of the class.  [PreviewProduction] runs the service, the
      repository and the calls of edges together.

    Credentials (src/internal/mint/mint.go).
    - [MintTypes]: the inputs and claims of a credential, the policy of each
      class and the checks of both sides; [Mint]: [Provider] with
      [SignCredential], [VerifyCredential] and the proofs for environments.

    Private access (src/internal/privateaccess).
    - [PrivateContract] (contract.go): identities, requests, bindings, decisions
      and audit records, with the hashes that bind a grant to its request.
    - [PrivateGrant] (grant.go): grants as credentials of a provider.
    - [PrivateService] (service.go): [IssueGrant], [Authorize] and the cache of
      decisions, over the record [Backends] of what the service asks.
    - [PrivateResolver] (resolver.go, sql_resolver.go, auth_adapter.go,
      production.go): the bindings of previews and tunnels and the state of
      machines, read from the tables, and the composition of these parts;
      [PrivateProduction] runs them next to the attachment service.

    Other packages.
    - [RelaySelection]: relayselection/selector.go.
    - [Naming]: machinealias/alias.go and naming/naming.go.

    The Go language and its standard library are defined as far as the code uses
    them: [Prelude] (integers at their width, the error monad, weakest
    preconditions), [GoText] (strings, UTF-8, patterns), [GoHash] (SHA-256, hex,
    base64), [GoUrl] (url.Parse), [GoJson] and [GoStruct] (encoding/json),
    [GoTime] (times in JSON), [GoNet] (suffixes, hexadecimal decoding, parts of a
    URL).

    ** How code becomes definitions

    A method is a computation of the monad [M S E A] over its state: it returns
    a value or a Go error together with the new state, so what a failing method
    has already changed is visible.  A Go string is a string of bytes, a uint64
    a [Z] with its wrap-around written out, a time the nanoseconds of the instant
    in UTC (with its offset where the text of the time matters), a map a [gmap].  Code behind an interface of the program (stores,
    writers) is a class with the interface's methods; the clock, random sources,
    signature verification and the runtime's replies are arguments, and a
    theorem holds for all of them.  A method that holds its object's lock from
    beginning to end is one step.

    ** What the theorems show

    - Sessions ([ServerSafety], [ServerConfigFlow], [ServerWorld],
      [Negotiation], [Handshake]): one session per connector that
      can do anything, fencing of superseded and closed sessions, the session
      invariant, how configurations are offered, staged and promoted, heartbeats
      and drains, what is negotiated, and that a session gets from hello to
      ready with both ends agreeing.
    - The connector ([ClientSafety]): every prepared configuration is activated
      or aborted, configurations move forward only, close releases everything.
    - Rotation ([RotationFacts], [RotationEffects], [RotationInvariant],
      [RotationRefinement], [RotationSafety]): the coordinator refines a machine
      of phases in which a credential is revoked only when every target is
      ready, also across restarts, against a store that keeps a journal; recovery
      restores the coordinator exactly.
    - Durability ([PersistenceSafety], [PersistenceWorld], [PersistenceThreads]):
      what an open session holds rests on confirmed records and those of its calls
      in flight; the runs of the durable server are runs of the in-memory one; a
      connector is admitted only when verified, granted and recorded.
    - The stream ([TransportSafety]): only a hello for the path, proved and
      granted, is admitted; when serving ends nothing of the session is left; the
      directory is fenced by process generation.
    - The dispatchers ([RotationDispatchSafety], [RotationDispatchFacts],
      [DrainDispatch]): a message or a drain reaches only the session it is
      for, a drain is sent only after it was begun, routes are fenced by
      generation, deliveries are not repeated.
    - Previews in memory ([PreviewManagerSafety], [PreviewWorld],
      [PreviewFencing]): an attachment follows the machine [Spec] of phases, is in
      use only when the edge accepted its carrier, stale handles change nothing
      and retries return the answer.
    - Previews in production ([PreviewSqlSafety], [PreviewProduction]): the rows follow the same machine, are well formed and
      unique; a row in use was acknowledged by the edge process that its binding
      names; the readiness gate passes only for such a row; a snapshot is
      complete; an acknowledgement can be repeated.
    - Credentials ([MintFacts], [MintSafety]): what the provider signs it reads
      back, for every class; what verifies was signed by a published key and is
      within the policy of its class; proofs of other types are no credentials.
    - Private access ([PrivateGrant], [PrivateSafety], [PrivateProduction]): a
      grant carries its request and verifies until it expires, if the expiry is in
      whole seconds of UTC; access is allowed
      only for a verified grant, a current machine and a current binding for the
      asking edge, read during the call; refusals name no resource and are
      audited; decisions are bounded, and an idempotency key answers for one
      request; in production an allowed preview is one whose carrier the edge
      acknowledged.
    - Texts ([TextFacts], [JsonFacts], [StructFacts], [MessageFacts],
      [FrameFacts], [TranscriptFacts], [GoTime]): canonical JSON is a fixed point
      and decides equality of values; configurations survive framing, any split
      of the stream and decoding; an interrupted frame is refused; a signed
      transcript determines the request it was made for.
    - [RelaySelection], [Naming]: the stickiness rules of relay choice, and the
      validity and distinctness of generated names.

    The files named Witnesses and [Scenario] evaluate the properties at concrete
    inputs; [ServerWitnesses] and some theorems of [ClientSafety], [Handshake],
    [RotationWitnesses], [PreviewWitnesses], [PreviewSqlWitnesses] and
    [PrivateGrant] record behaviour that departs from what the code means.  [PreviewWitnesses] brings a
    preview from nothing to ready, and [PrivateWitnesses] lets a second machine
    through to it with a grant that [MintWitnesses] signs.

    ** Fuel and bounds

    Recursion over JSON text takes fuel [json_fuel], a little more than twice the
    length of the text; [json_decoding_terminates] shows that it is enough: the
    functions then return what the only finite run over the tokens returns.
    [writeAll_loop] makes a turn per byte at most and is given one more.  The
    [Token] loop of [GoJson] turns at most twice, [month_day] of [GoTime] at most
    eleven times, [in_tx_loop] of [PreviewSql] makes the ten attempts of [InTx],
    and every other recursion is structural.

    ** Not modelled

    HTTP handlers, network connections, telemetry, timers and process wiring are
    input and output around the code above, and so are the SQL stores but for the
    repository of preview attachments and the queries of private access.  Of
    mint.go the tokens for networks and relays, whose claims other packages build,
    and the published key set are left out.  Ed25519 is an argument: the theorems
    about what verifies need nothing of it, those about what is signed need that a
    signature is bytes and verifies under the public half of its key.  SHA-256 is
    defined; where its collision resistance matters, a collision is the
    alternative in the statement.  Methods on nil receivers are left out, the
    texts of errors are kept only where the code looks at them, and contexts carry
    an error or none but no deadline.  A database's constraints and triggers are
    not defined: a transaction that they refuse is an outcome.  [strings.ToLower]
    leaves letters outside ASCII as they are.  The other packages (machines,
    teams, certificates, domains, lazy access, metering, billing) consist for the
    most part of SQL queries and calls to other systems. *)

From stdpp Require Export base gmap sets list strings numbers tactics pretty.
From stdpp Require Import options.
From Stdlib Require Export ZArith Lia Ascii.

#[export] Set Default Proof Using "Type".
#[global] Open Scope Z_scope.

(** ** Scopes, hint databases *)

Declare Scope go_scope.
Delimit Scope go_scope with go.
#[global] Open Scope go_scope.

(** [go] holds the lemmas that close the routine goals of this library:
    inversion of guards and of validator results, and the arithmetic facts of
    the Go integer and time operations. *)
Create HintDb go discriminated.

(** Go's [==] and [!=] on comparable values. *)
Notation "a == b" := (bool_decide (a = b)) (at level 70, no associativity) : go_scope.
Notation "a != b" := (negb (bool_decide (a = b))) (at level 70, no associativity) : go_scope.

(** ** Record update: [r <| f := v |>]

    A record type is made settable by one instance that eta-expands it over
    its projections; [set_field] then replaces one projection. *)
Class Settable (R : Type) := eta_record : R -> R.
Class Setter {R T : Type} (proj : R -> T) := set_field : (T -> T) -> R -> R.
#[global] Hint Mode Setter - - ! : typeclass_instances.

Ltac solve_setter :=
  lazymatch goal with
  | |- @Setter ?R ?T ?proj =>
      let inst := constr:(ltac:(typeclasses eauto) : Settable R) in
      let mk := eval hnf in (@eta_record R inst) in
      let ab := eval pattern proj in mk in
      lazymatch ab with
      | ?f _ => exact (fun g r => f (fun r' => g (proj r')) r)
      end
  end.
#[export] Hint Extern 0 (Setter _) => solve_setter : typeclass_instances.

Notation "r <| f := v |>" := (set_field (proj := f) (fun _ => v) r)
  (at level 1, left associativity, f at level 200, format "r  <| f  :=  v |>") : go_scope.

(** ** Go integers *)
Definition two64 : Z := 2 ^ 64.
Definition two32 : Z := 2 ^ 32.
Definition max_int64 : Z := 2 ^ 63 - 1.
Definition min_int64 : Z := - 2 ^ 63.

(** [uint64] addition and the truncating conversions [uint32(x)] and [int64(x)]. *)
Definition u64_add (a b : Z) : Z := (a + b) mod two64.
Definition to_u32 (a : Z) : Z := a mod two32.
Definition to_i64 (a : Z) : Z := (a + 2 ^ 63) mod two64 - 2 ^ 63.

Definition is_u64 (a : Z) : Prop := 0 <= a < two64.
Definition is_i64 (a : Z) : Prop := min_int64 <= a <= max_int64.

Lemma u64_add_range a b : is_u64 (u64_add a b).
Proof. unfold is_u64, u64_add, two64. apply Z.mod_pos_bound. lia. Qed.

Lemma u64_add_small a b : 0 <= a + b < two64 -> u64_add a b = a + b.
Proof. intros H. unfold u64_add. apply Z.mod_small, H. Qed.

Lemma to_i64_small a : is_i64 a -> to_i64 a = a.
Proof.
  unfold is_i64, to_i64, min_int64, max_int64, two64. intros H.
  rewrite Z.mod_small; lia.
Qed.

Lemma to_i64_range a : is_i64 (to_i64 a).
Proof.
  unfold is_i64, to_i64, min_int64, max_int64, two64.
  pose proof (Z.mod_pos_bound (a + 2 ^ 63) (2 ^ 64)). lia.
Qed.

#[export] Hint Resolve u64_add_range to_i64_range : go.

(** ** Go time

    [time.Time] is an instant: nanoseconds since Go's zero time (January 1 of
    year 1, UTC), so that [IsZero] is [t = 0].  The location and the monotonic
    reading that a [time.Time] also carries are not modelled.  A
    [time.Duration] is an [int64] number of nanoseconds, and [Time.Sub]
    saturates at its bounds, as the library does. *)
Definition time := Z.
Definition duration := Z.

Definition Nanosecond : duration := 1.
Definition Millisecond : duration := 1000000.
Definition Second : duration := 1000000000.
Definition Minute : duration := 60 * Second.
Definition Hour : duration := 60 * Minute.

Definition IsZero (t : time) : bool := t =? 0.
Definition After (t u : time) : bool := u <? t.
Definition Before (t u : time) : bool := t <? u.
Definition Add (t : time) (d : duration) : time := t + d.
Definition Sub (t u : time) : duration := Z.max min_int64 (Z.min max_int64 (t - u)).

(** Comparing a saturated difference with an in-range bound is comparing the
    exact difference. *)
Lemma Sub_gt t u d : is_i64 d -> d < max_int64 -> (d <? Sub t u) = (d <? t - u).
Proof.
  unfold is_i64, Sub, min_int64, max_int64. intros.
  destruct (Z.ltb_spec d (t - u)) as [?|?];
    [apply Z.ltb_lt | apply Z.ltb_ge]; lia.
Qed.

Lemma Sub_ge t u d : is_i64 d -> min_int64 < d -> (d <=? Sub t u) = (d <=? t - u).
Proof.
  unfold is_i64, Sub, min_int64, max_int64. intros.
  destruct (Z.leb_spec d (t - u)) as [?|?];
    [apply Z.leb_le | apply Z.leb_gt]; lia.
Qed.

(** ** Strings as byte strings *)

(** Go's [len] of a string or a byte slice. *)
Definition slen (s : string) : Z := Z.of_nat (String.length s).

(** The value of a byte. *)
Definition code (c : ascii) : Z := Z.of_N (N_of_ascii c).

Lemma slen_nonneg s : 0 <= slen s.
Proof. unfold slen. lia. Qed.
#[export] Hint Resolve slen_nonneg : go.

Lemma sapp_nil_l t : "" +:+ t = t.
Proof. done. Qed.
Lemma sapp_cons c s t : String c s +:+ t = String c (s +:+ t).
Proof. done. Qed.
Lemma sapp_nil_r s : s +:+ "" = s.
Proof. induction s as [|c s IH]; [done|]. by rewrite sapp_cons, IH. Qed.
Lemma sapp_assoc s t u : (s +:+ t) +:+ u = s +:+ (t +:+ u).
Proof. induction s as [|c s IH]; [done|]. by rewrite !sapp_cons, IH. Qed.

Create Rewrite HintDb sapp.
#[export] Hint Rewrite sapp_nil_l sapp_cons sapp_nil_r sapp_assoc : sapp.

Lemma slen_cons c s : slen (String c s) = 1 + slen s.
Proof. unfold slen. simpl. lia. Qed.

Lemma slen_app s t : slen (s +:+ t) = slen s + slen t.
Proof.
  induction s as [|c s IH]; [done|].
  rewrite sapp_cons, !slen_cons. lia.
Qed.

Lemma slen_zero_iff s : slen s = 0 <-> s = "".
Proof. unfold slen. destruct s; simpl; split; intros; try done; lia. Qed.

Lemma code_range c : 0 <= code c < 256.
Proof. unfold code. pose proof (N_ascii_bounded c). lia. Qed.
#[export] Hint Resolve code_range : go.

(** ** Errors and results *)

(** An operation returns a value or an error; [E] is the error type. *)
Inductive result (E A : Type) : Type :=
| Ok (a : A)
| Err (e : E).
Arguments Ok {E A} a.
Arguments Err {E A} e.

#[export] Instance result_eq_dec {E A} `{!EqDecision E, !EqDecision A} :
  EqDecision (result E A).
Proof. solve_decision. Defined.

Definition is_ok {E A} (r : result E A) : bool :=
  match r with Ok _ => true | Err _ => false end.

(** ** A state and error monad

    [M S E A] is a computation over a mutable state [S] that fails with an
    [E].  A failing operation keeps the writes it made before it failed, as a
    Go method that returns an error does. *)
Definition M (S E A : Type) : Type := S -> result E A * S.

Section Monad.
Context {S E : Type}.

Definition ret {A} (a : A) : M S E A := fun s => (Ok a, s).
Definition throw {A} (e : E) : M S E A := fun s => (Err e, s).
Definition bind {A B} (m : M S E A) (k : A -> M S E B) : M S E B :=
  fun s => match m s with
           | (Ok a, s') => k a s'
           | (Err e, s') => (Err e, s')
           end.
Definition get : M S E S := fun s => (Ok s, s).
Definition put (s : S) : M S E unit := fun _ => (Ok tt, s).
Definition modify (f : S -> S) : M S E unit := fun s => (Ok tt, f s).

(** [if cond { return err }] *)
Definition fail_if (b : bool) (e : E) : M S E unit := if b then throw e else ret tt.

(** [if err := v; err != nil { return err }] *)
Definition check (o : option E) : M S E unit :=
  match o with Some e => throw e | None => ret tt end.

Definition lift {A} (r : result E A) : M S E A :=
  match r with Ok a => ret a | Err e => throw e end.

Lemma bind_ok {A B} (m : M S E A) (k : A -> M S E B) s b s' :
  bind m k s = (Ok b, s') -> exists a s1, m s = (Ok a, s1) /\ k a s1 = (Ok b, s').
Proof. unfold bind. destruct (m s) as [[a|e] s1]; [eauto|done]. Qed.

Lemma bind_ret_l {A B} (a : A) (k : A -> M S E B) s : bind (ret a) k s = k a s.
Proof. done. Qed.

Lemma bind_assoc {A B C} (m : M S E A) (f : A -> M S E B) (g : B -> M S E C) s :
  bind (bind m f) g s = bind m (fun a => bind (f a) g) s.
Proof. unfold bind. by destruct (m s) as [[a|e] s1]. Qed.

(** A predicate of the state that a computation never falsifies, whether it
    succeeds or fails. *)
Definition preserves {A} (I : S -> Prop) (m : M S E A) : Prop :=
  forall s, I s -> I (snd (m s)).

Lemma preserves_ret {A} (I : S -> Prop) (a : A) : preserves I (ret a).
Proof. intros s. done. Qed.
Lemma preserves_throw {A} (I : S -> Prop) (e : E) : preserves I (throw (A := A) e).
Proof. intros s. done. Qed.
Lemma preserves_get (I : S -> Prop) : preserves I get.
Proof. intros s. done. Qed.
Lemma preserves_fail_if (I : S -> Prop) b e : preserves I (fail_if b e).
Proof. by destruct b; intros s. Qed.
Lemma preserves_check (I : S -> Prop) o : preserves I (check o).
Proof. by destruct o; intros s. Qed.
Lemma preserves_lift {A} (I : S -> Prop) (r : result E A) : preserves I (lift r).
Proof. by destruct r; intros s. Qed.
Lemma preserves_modify (I : S -> Prop) f :
  (forall s, I s -> I (f s)) -> preserves I (modify f).
Proof. intros H s. apply H. Qed.
Lemma preserves_bind {A B} (I : S -> Prop) (m : M S E A) (k : A -> M S E B) :
  preserves I m -> (forall a, preserves I (k a)) -> preserves I (bind m k).
Proof.
  intros Hm Hk s Hs. unfold bind. specialize (Hm s Hs).
  destruct (m s) as [[a|e] s1]; [by apply Hk|done].
Qed.
End Monad.

#[export] Hint Resolve preserves_ret preserves_throw preserves_get preserves_fail_if
  preserves_check preserves_lift preserves_modify preserves_bind : go.

(** The do-notation of stdpp ([x ← m; k], [m ;; k]) for the monad. *)
#[export] Instance M_ret S E : MRet (M S E) := fun A a => ret a.
#[export] Instance M_bind S E : MBind (M S E) := fun A B k m => bind m k.

Lemma mbind_unfold {S E A B} (m : M S E A) (k : A -> M S E B) s :
  (m ≫= k) s = match m s with (Ok a, s') => k a s' | (Err e, s') => (Err e, s') end.
Proof. done. Qed.

Lemma preserves_mbind {S E A B} (I : S -> Prop) (m : M S E A) (k : A -> M S E B) :
  preserves I m -> (forall a, preserves I (k a)) -> preserves I (m ≫= k).
Proof. apply preserves_bind. Qed.
#[export] Hint Resolve preserves_mbind : go.

(** ** Weakest preconditions

    [wp m Q s]: running [m] from [s] ends in a result and a state that satisfy
    [Q], whether [m] succeeds or fails. *)
Definition wp {S E A} (m : M S E A) (Q : result E A -> S -> Prop) (s : S) : Prop :=
  Q (fst (m s)) (snd (m s)).

Section Wp.
Context {S E : Type}.
Implicit Types (s : S) (e : E).

Lemma wp_ret {A} (a : A) (Q : result E A -> S -> Prop) s : Q (Ok a) s -> wp (ret a) Q s.
Proof. done. Qed.
Lemma wp_throw {A} e (Q : result E A -> S -> Prop) s : Q (Err e) s -> wp (throw e) Q s.
Proof. done. Qed.
Lemma wp_get (Q : result E S -> S -> Prop) s : Q (Ok s) s -> wp get Q s.
Proof. done. Qed.
Lemma wp_put s' (Q : result E unit -> S -> Prop) s : Q (Ok tt) s' -> wp (put s') Q s.
Proof. done. Qed.
Lemma wp_modify f (Q : result E unit -> S -> Prop) s : Q (Ok tt) (f s) -> wp (modify f) Q s.
Proof. done. Qed.
Lemma wp_fail_if b e (Q : result E unit -> S -> Prop) s :
  (b = true -> Q (Err e) s) -> (b = false -> Q (Ok tt) s) -> wp (fail_if b e) Q s.
Proof. destruct b; unfold wp; simpl; auto. Qed.
Lemma wp_check o (Q : result E unit -> S -> Prop) s :
  (forall e, o = Some e -> Q (Err e) s) -> (o = None -> Q (Ok tt) s) -> wp (check o) Q s.
Proof. destruct o; unfold wp; simpl; auto. Qed.
Lemma wp_lift {A} (r : result E A) (Q : result E A -> S -> Prop) s : Q r s -> wp (lift r) Q s.
Proof. by destruct r. Qed.
Lemma wp_bind {A B} (m : M S E A) (k : A -> M S E B) Q s :
  wp m (fun r s' => match r with Ok a => wp (k a) Q s' | Err e => Q (Err e) s' end) s ->
  wp (m ≫= k) Q s.
Proof.
  unfold wp. intros H. rewrite mbind_unfold. by destruct (m s) as [[a|e] s'].
Qed.
Lemma wp_if {A} (b : bool) (m1 m2 : M S E A) Q s :
  (b = true -> wp m1 Q s) -> (b = false -> wp m2 Q s) -> wp (if b then m1 else m2) Q s.
Proof. destruct b; auto. Qed.
Lemma wp_mono {A} (m : M S E A) (Q Q' : result E A -> S -> Prop) s :
  wp m Q s -> (forall r s', Q r s' -> Q' r s') -> wp m Q' s.
Proof. unfold wp. auto. Qed.
Lemma wp_run {A} (m : M S E A) (Q : result E A -> S -> Prop) s r s' :
  m s = (r, s') -> wp m Q s -> Q r s'.
Proof. unfold wp. intros ->. done. Qed.
Lemma wp_ok {A} (m : M S E A) (Q : A -> S -> Prop) s a s' :
  m s = (Ok a, s') -> wp m (fun r s' => match r with Ok a => Q a s' | Err _ => True end) s -> Q a s'.
Proof. unfold wp. intros ->. done. Qed.
End Wp.

(** From a run [H : m s = (r, s')], prove the goal for every way [m] can end. *)
Ltac wp_of H :=
  lazymatch type of H with
  | ?m ?s = (Ok ?a, ?s') => pattern a, s'; apply (wp_ok m _ s a s' H); clear H
  | ?m ?s = (?r, ?s') => pattern r, s'; apply (wp_run m _ s r s' H); clear H
  end.

(** ** Tactics *)

(** Turn boolean conditions in the context into propositions. *)
Ltac bool_prop :=
  repeat match goal with
  | H : (_ && _)%bool = true |- _ => apply andb_true_iff in H; destruct H
  | H : (_ || _)%bool = false |- _ => apply orb_false_iff in H; destruct H
  | H : negb _ = true |- _ => apply negb_true_iff in H
  | H : negb _ = false |- _ => apply negb_false_iff in H
  | H : bool_decide _ = true |- _ => apply bool_decide_eq_true in H
  | H : bool_decide _ = false |- _ => apply bool_decide_eq_false in H
  | H : (_ <? _) = true |- _ => apply Z.ltb_lt in H
  | H : (_ <? _) = false |- _ => apply Z.ltb_ge in H
  | H : (_ <=? _) = true |- _ => apply Z.leb_le in H
  | H : (_ <=? _) = false |- _ => apply Z.leb_gt in H
  | H : (_ =? _) = true |- _ => apply Z.eqb_eq in H
  | H : (_ =? _) = false |- _ => apply Z.eqb_neq in H
  end.

(** Linear arithmetic with division and modulus by constants. *)
Ltac divmod := Z.to_euclidean_division_equations; lia.

(** Case on the condition of the first [if] or [match] of a hypothesis or of
    the goal, keeping the equation. *)
Ltac split_guard H :=
  match type of H with
  | context [if ?b then _ else _] =>
      lazymatch b with context [if _ then _ else _] => fail | _ => destruct b eqn:? end
  | context [match ?b with _ => _ end] =>
      lazymatch b with context [match _ with _ => _ end] => fail | _ => destruct b eqn:? end
  end.

(** Run a computation symbolically: one subgoal per way to leave it, with the
    conditions that lead there as hypotheses. *)
Ltac wp_step :=
  lazymatch goal with
  | |- wp (mbind _ _) _ _ => apply wp_bind
  | |- wp (ret _) _ _ => apply wp_ret
  | |- wp (throw _) _ _ => apply wp_throw
  | |- wp get _ _ => apply wp_get
  | |- wp (put _) _ _ => apply wp_put
  | |- wp (modify _) _ _ => apply wp_modify
  | |- wp (fail_if _ _) _ _ => apply wp_fail_if; intros ?
  | |- wp (check _) _ _ => apply wp_check; [intros ? ?|intros ?]
  | |- wp (lift _) _ _ => apply wp_lift
  | |- wp (if ?x then _ else _) _ _ => first [apply wp_if; intros ? | destruct x eqn:?]
  | |- wp (match ?x with _ => _ end) _ _ => destruct x eqn:?
  | |- match ?x with Ok _ => _ | Err _ => _ end => destruct x eqn:?
  | |- wp (let _ := _ in _) _ _ => cbv zeta
  end.
