(* ===== verification/GoText.v ===== *)
(** * Go's string and text functions

    The parts of Go's [strings], [unicode/utf8], [strconv] and [regexp]
    packages that the modelled code calls, on strings of bytes.  Each function
    keeps the name it has in Go. *)

From S2P Require Import Prelude.

(** ** Byte classes *)

Definition between (lo hi : Z) (c : ascii) : bool := (lo <=? code c) && (code c <=? hi).
Definition is_upper (c : ascii) : bool := between 65 90 c.
Definition is_lower (c : ascii) : bool := between 97 122 c.
Definition is_digit (c : ascii) : bool := between 48 57 c.
Definition is_alnum (c : ascii) : bool := is_upper c || is_lower c || is_digit c.
Definition is_hex_lower (c : ascii) : bool := is_digit c || between 97 102 c.
Definition is_byte (n : Z) (c : ascii) : bool := code c =? n.
Definition byte_of (n : Z) : ascii := ascii_of_N (Z.to_N n).

Fixpoint all_bytes (f : ascii -> bool) (s : string) : bool :=
  match s with
  | String c s' => f c && all_bytes f s'
  | EmptyString => true
  end.

Fixpoint any_byte (f : ascii -> bool) (s : string) : bool :=
  match s with
  | String c s' => f c || any_byte f s'
  | EmptyString => false
  end.

(** ** Package [strings] *)

Fixpoint strip_prefix (p s : string) : option string :=
  match p, s with
  | EmptyString, _ => Some s
  | String a p', String b s' => if a == b then strip_prefix p' s' else None
  | String _ _, EmptyString => None
  end.

Definition HasPrefix (s p : string) : bool :=
  match strip_prefix p s with Some _ => true | None => false end.

Fixpoint Contains (s sub : string) : bool :=
  HasPrefix s sub ||
  match s with
  | String _ s' => Contains s' sub
  | EmptyString => false
  end.

(** [strings.ContainsAny] for a set of ASCII bytes. *)
Definition ContainsAny (s chars : string) : bool :=
  any_byte (fun c => any_byte (fun d => c == d) chars) s.

(** [strings.Split] for a one-byte separator. *)
Fixpoint Split (s : string) (sep : ascii) : list string :=
  match s with
  | EmptyString => [""]
  | String c s' =>
      if c == sep then "" :: Split s' sep
      else match Split s' sep with
           | [] => [String c ""]
           | x :: xs => String c x :: xs
           end
  end.

Fixpoint srev_app (s acc : string) : string :=
  match s with
  | EmptyString => acc
  | String c s' => srev_app s' (String c acc)
  end.
Definition srev (s : string) : string := srev_app s "".

(** The UTF-8 encodings of the runes of [unicode.White_Space]. *)
Definition space_encodings : list string :=
  let enc2 a b := String (byte_of a) (String (byte_of b) "") in
  let enc3 a b c := String (byte_of a) (enc2 b c) in
  ((fun n => String (byte_of n) "") <$> [9; 10; 11; 12; 13; 32]) ++
  [enc2 194 133; enc2 194 160; enc3 225 154 128] ++
  ((fun n => enc3 226 128 n) <$>
     [128; 129; 130; 131; 132; 133; 134; 135; 136; 137; 138; 168; 169; 175]) ++
  [enc3 226 129 159; enc3 227 128 128].

Fixpoint strip_any (ps : list string) (s : string) : option string :=
  match ps with
  | [] => None
  | p :: ps' => match strip_prefix p s with Some r => Some r | None => strip_any ps' s end
  end.

Fixpoint strip_while (fuel : nat) (ps : list string) (s : string) : string :=
  match fuel with
  | O => s
  | S n => match strip_any ps s with Some r => strip_while n ps r | None => s end
  end.

(** [strings.TrimSpace]: a white-space rune ends a string exactly when its
    encoding does. *)
Definition TrimSpace (s : string) : string :=
  let l := strip_while (String.length s) space_encodings s in
  srev (strip_while (String.length l) (srev <$> space_encodings) (srev l)).

(** ** Package [unicode/utf8] *)

Definition RuneError : Z := 65533.

(** [utf8.DecodeRuneInString] on a non-empty string: the rune and its width,
    or [None] for an encoding that is not valid (Go: [RuneError], width 1). *)
Definition decode_rune (s : string) : option (Z * nat) :=
  let cont c := (128 <=? c) && (c <=? 191) in
  match s with
  | EmptyString => None
  | String a s1 =>
      let b0 := code a in
      if b0 <? 128 then Some (b0, 1%nat) else
      match s1 with
      | EmptyString => None
      | String b s2 =>
          let b1 := code b in
          if (194 <=? b0) && (b0 <=? 223) then
            if cont b1 then Some ((b0 - 192) * 64 + (b1 - 128), 2%nat) else None
          else match s2 with
          | EmptyString => None
          | String c s3 =>
              let b2 := code c in
              if (224 <=? b0) && (b0 <=? 239) then
                if cont b1 && cont b2
                   && (negb (b0 =? 224) || (160 <=? b1))
                   && (negb (b0 =? 237) || (b1 <=? 159))
                then Some ((b0 - 224) * 4096 + (b1 - 128) * 64 + (b2 - 128), 3%nat) else None
              else match s3 with
              | EmptyString => None
              | String d _ =>
                  let b3 := code d in
                  if (240 <=? b0) && (b0 <=? 244) && cont b1 && cont b2 && cont b3
                     && (negb (b0 =? 240) || (144 <=? b1))
                     && (negb (b0 =? 244) || (b1 <=? 143))
                  then Some ((b0 - 240) * 262144 + (b1 - 128) * 4096
                             + (b2 - 128) * 64 + (b3 - 128), 4%nat)
                  else None
              end
          end
      end
  end.

(** [utf8.AppendRune]: surrogates and values out of range encode as [RuneError]. *)
Definition encode_rune (r : Z) : string :=
  let bytes (l : list Z) := foldr (fun n acc => String (byte_of n) acc) "" l in
  let enc3 r := bytes [224 + r / 4096; 128 + (r / 64) mod 64; 128 + r mod 64] in
  if (0 <=? r) && (r <? 128) then bytes [r]
  else if (0 <=? r) && (r <? 2048) then bytes [192 + r / 64; 128 + r mod 64]
  else if (r <? 0) || (1114111 <? r) || ((55296 <=? r) && (r <=? 57343)) then enc3 RuneError
  else if r <? 65536 then enc3 r
  else bytes [240 + r / 262144; 128 + (r / 4096) mod 64; 128 + (r / 64) mod 64; 128 + r mod 64].

Fixpoint stake (n : nat) (s : string) : string :=
  match n, s with
  | S n', String c s' => String c (stake n' s')
  | _, _ => ""
  end.
Fixpoint sdrop (n : nat) (s : string) : string :=
  match n, s with
  | S n', String _ s' => sdrop n' s'
  | _, _ => s
  end.

(** [for _, r := range s]: the runes of a string, [RuneError] for each byte
    that starts no valid encoding. *)
Fixpoint runes_go (fuel : nat) (s : string) : list Z :=
  match fuel, s with
  | S n, String _ s' =>
      match decode_rune s with
      | Some (r, w) => r :: runes_go n (sdrop w s)
      | None => RuneError :: runes_go n s'
      end
  | _, _ => []
  end.
Definition runes (s : string) : list Z := runes_go (String.length s) s.

Definition of_runes (l : list Z) : string :=
  foldr (fun r acc => encode_rune r +:+ acc) "" l.

(** [unicode.ToLower] and [unicode.ToUpper] as far as ASCII can observe them:
    besides the ASCII letters, U+212A and U+0130 lower to "k" and "i", and
    U+017F and U+0131 upper to "S" and "I".  Every other rune is left as it is
    (Go maps it to a non-ASCII rune), which no comparison with an ASCII string
    can tell apart. *)
Definition lower_rune (r : Z) : Z :=
  if (65 <=? r) && (r <=? 90) then r + 32
  else if r =? 8490 then 107 else if r =? 304 then 105 else r.
Definition upper_rune (r : Z) : Z :=
  if (97 <=? r) && (r <=? 122) then r - 32
  else if r =? 383 then 83 else if r =? 305 then 73 else r.
Definition ToLower (s : string) : string := of_runes (lower_rune <$> runes s).
Definition ToUpper (s : string) : string := of_runes (upper_rune <$> runes s).

(** ** Package [strconv] *)

Definition digit_val (c : ascii) : Z := code c - 48.

Fixpoint digits_val (s : string) (acc : Z) : Z :=
  match s with
  | String c s' => digits_val s' (acc * 10 + digit_val c)
  | EmptyString => acc
  end.

Definition is_digits (s : string) : bool := (s != "") && all_bytes is_digit s.

(** [strconv.ParseUint(s, 10, 64)]; [strconv.ParseInt(s, 10, bits)], whose
    64-bit case is [strconv.Atoi]. *)
Definition ParseUint64 (s : string) : option Z :=
  if is_digits s && (digits_val s 0 <? two64) then Some (digits_val s 0) else None.

Definition ParseInt (bits : Z) (s : string) : option Z :=
  let body := match s with
              | String c r => if is_byte 43 c || is_byte 45 c then r else s
              | EmptyString => s
              end in
  let neg := match s with String c _ => is_byte 45 c | EmptyString => false end in
  let v := digits_val body 0 in
  if is_digits body && (if neg then v <=? 2 ^ (bits - 1) else v <? 2 ^ (bits - 1))
  then Some (if neg then - v else v) else None.

Definition Atoi (s : string) : option Z := ParseInt 64 s.
Definition Itoa (z : Z) : string := pretty z.

(** ** Lemmas *)

Lemma all_bytes_app f s t : all_bytes f (s +:+ t) = all_bytes f s && all_bytes f t.
Proof.
  induction s as [|c s IH]; [done|].
  rewrite sapp_cons. simpl. by rewrite IH, andb_assoc.
Qed.

Lemma strip_prefix_Some p s r : strip_prefix p s = Some r <-> s = p +:+ r.
Proof.
  revert s. induction p as [|a p IH]; intros s; simpl; autorewrite with sapp.
  { split; congruence. }
  destruct s as [|b s]; [done|].
  case_bool_decide as Heq; [subst|split; congruence].
  rewrite IH. split; congruence.
Qed.

Lemma HasPrefix_spec s p : HasPrefix s p = true <-> exists r, s = p +:+ r.
Proof.
  unfold HasPrefix. destruct (strip_prefix p s) as [r|] eqn:E.
  - apply strip_prefix_Some in E. naive_solver.
  - split; [done|]. intros [r H]. apply strip_prefix_Some in H. congruence.
Qed.

Lemma digits_val_nonneg s acc : all_bytes is_digit s = true -> 0 <= acc -> 0 <= digits_val s acc.
Proof.
  revert acc. induction s as [|c s IH]; intros acc Hd Ha; simpl in *; [done|].
  apply andb_true_iff in Hd as [Hc Hd]. apply IH; [done|].
  unfold is_digit, between, digit_val in *. bool_prop. lia.
Qed.

Lemma ParseUint64_range s n : ParseUint64 s = Some n -> is_u64 n.
Proof.
  unfold ParseUint64, is_u64. intros. case_match; simplify_eq. bool_prop.
  unfold is_digits in *. bool_prop. split; [|done]. apply digits_val_nonneg; [done|lia].
Qed.

(** *** Bytes and lists of bytes *)

Abbreviation bytes_of := String.list_ascii_of_string.
Abbreviation of_bytes := String.string_of_list_ascii.

Lemma code_byte_of n : 0 <= n < 256 -> code (byte_of n) = n.
Proof. intros H. unfold code, byte_of. rewrite N_ascii_embedding by lia. lia. Qed.
Lemma byte_of_code c : byte_of (code c) = c.
Proof. unfold code, byte_of. rewrite N2Z.id. apply ascii_N_embedding. Qed.
Lemma code_inj a b : code a = code b -> a = b.
Proof. intros H. by rewrite <- (byte_of_code a), <- (byte_of_code b), H. Qed.
Lemma is_byte_true n c : is_byte n c = true <-> code c = n.
Proof. apply Z.eqb_eq. Qed.

Lemma length_of_bytes l : String.length (of_bytes l) = length l.
Proof. induction l; simpl; [done|]. by rewrite IHl. Qed.
Lemma bytes_of_of_bytes l : bytes_of (of_bytes l) = l.
Proof. apply String.list_ascii_of_string_of_list_ascii. Qed.
Lemma of_bytes_bytes_of s : of_bytes (bytes_of s) = s.
Proof. apply String.string_of_list_ascii_of_string. Qed.
Lemma of_bytes_app l1 l2 : of_bytes (l1 ++ l2) = of_bytes l1 +:+ of_bytes l2.
Proof. induction l1; simpl; [done|]. by rewrite IHl1. Qed.

(** *** ASCII texts *)

Definition is_ascii (c : ascii) : Prop := code c < 128.

Lemma decode_rune_ascii c s : is_ascii c -> decode_rune (String c s) = Some (code c, 1%nat).
Proof. intros H. simpl. by rewrite (proj2 (Z.ltb_lt _ _)). Qed.

Lemma encode_rune_ascii c : is_ascii c -> encode_rune (code c) = String c "".
Proof.
  intros H. unfold encode_rune, is_ascii in *. pose proof (code_range c).
  rewrite (proj2 (Z.leb_le 0 _)), (proj2 (Z.ltb_lt _ 128)) by lia. simpl. by rewrite byte_of_code.
Qed.

Lemma runes_ascii l : Forall is_ascii l -> runes (of_bytes l) = code <$> l.
Proof.
  intros Hl. unfold runes. rewrite length_of_bytes. induction Hl as [|c l Hc Hl IH]; [done|].
  change (of_bytes (c :: l)) with (String c (of_bytes l)). cbn [length runes_go].
  rewrite decode_rune_ascii by done. simpl. by rewrite IH.
Qed.

Lemma ToLower_ascii l :
  Forall is_ascii l -> Forall (fun c => lower_rune (code c) = code c) l ->
  ToLower (of_bytes l) = of_bytes l.
Proof.
  intros Ha Hl. unfold ToLower. rewrite runes_ascii by done.
  induction Ha as [|c l Hc Ha IH]; [done|]. inversion Hl as [|? ? Hlc Hl']; subst.
  unfold of_runes in *. cbn [fmap list_fmap foldr]. rewrite Hlc, encode_rune_ascii by done.
  autorewrite with sapp. simpl. by rewrite IH.
Qed.
