(* ===== verification/GoHash.v ===== *)
(** * Go's hashing and binary-to-text encodings

    [crypto/sha256] (FIPS 180-4), [encoding/hex] and the unpadded URL alphabet
    of [encoding/base64] with strict decoding, all executable, with the round
    trip of the base64 encoding. *)

From S2P Require Import Prelude GoText.

(** ** SHA-256 *)
Module Sha256.

Definition w32 (x : Z) : Z := x mod two32.
Definition rotr (n x : Z) : Z := Z.lor (Z.shiftr x n) (w32 (Z.shiftl x (32 - n))).
Definition ch (x y z : Z) : Z := Z.lxor (Z.land x y) (Z.land (Z.lxor x (two32 - 1)) z).
Definition maj (x y z : Z) : Z :=
  Z.lxor (Z.lxor (Z.land x y) (Z.land x z)) (Z.land y z).
Definition bsig0 (x : Z) : Z := Z.lxor (Z.lxor (rotr 2 x) (rotr 13 x)) (rotr 22 x).
Definition bsig1 (x : Z) : Z := Z.lxor (Z.lxor (rotr 6 x) (rotr 11 x)) (rotr 25 x).
Definition ssig0 (x : Z) : Z := Z.lxor (Z.lxor (rotr 7 x) (rotr 18 x)) (Z.shiftr x 3).
Definition ssig1 (x : Z) : Z := Z.lxor (Z.lxor (rotr 17 x) (rotr 19 x)) (Z.shiftr x 10).

(** The constants are the first 32 bits of the fractional parts of the cube
    roots (round constants) and of the square roots (initial value) of the first
    primes; they are computed once, from the primes. *)
Definition is_prime (n : Z) : bool :=
  forallb (fun d => negb (n mod d =? 0)) (seqZ 2 (Z.sqrt n - 1)).
Definition primes : list Z := Eval vm_compute in List.filter is_prime (seqZ 2 310).

(** The greatest [r < lo + 2^bits] with [r^3 <= n], when [lo^3 <= n]. *)
Fixpoint cube_root (bits : nat) (lo n : Z) : Z :=
  match bits with
  | O => lo
  | S b =>
      let mid := lo + 2 ^ Z.of_nat b in
      cube_root b (if mid * mid * mid <=? n then mid else lo) n
  end.

Definition K : list Z :=
  Eval vm_compute in (fun p => cube_root 36 0 (p * 2 ^ 96) mod two32) <$> primes.
Definition H0 : list Z :=
  Eval vm_compute in (fun p => Z.sqrt (p * 2 ^ 64) mod two32) <$> take 8 primes.

Fixpoint codes (s : string) : list Z :=
  match s with String c s' => code c :: codes s' | EmptyString => [] end.

Fixpoint be_bytes (n : nat) (v : Z) : list Z :=
  match n with O => [] | S n' => be_bytes n' (v / 256) ++ [v mod 256] end.

(** The message padded with a one bit, zeros and its 64-bit length in bits. *)
Definition pad (m : list Z) : list Z :=
  let n := Z.of_nat (length m) in
  m ++ [128] ++ replicate (Z.to_nat ((55 - n) mod 64)) 0 ++ be_bytes 8 (n * 8).

Fixpoint words (l : list Z) : list Z :=
  match l with
  | a :: b :: c :: d :: l' => (((a * 256 + b) * 256 + c) * 256 + d) :: words l'
  | _ => []
  end.

(** The message schedule, latest word first. *)
Fixpoint extend (n : nat) (w : list Z) : list Z :=
  match n with
  | O => w
  | S n' =>
      let at' i := nth i w 0 in
      extend n' (w32 (ssig1 (at' 1%nat) + at' 6%nat + ssig0 (at' 14%nat) + at' 15%nat) :: w)
  end.

Definition round (st : list Z) (kw : Z * Z) : list Z :=
  match st with
  | [a; b; c; d; e; f; g; h] =>
      let t1 := h + bsig1 e + ch e f g + fst kw + snd kw in
      let t2 := bsig0 a + maj a b c in
      [w32 (t1 + t2); a; b; c; w32 (d + t1); e; f; g]
  | _ => st
  end.

Definition block (h : list Z) (w : list Z) : list Z :=
  zip_with (fun x y => w32 (x + y)) h
    (fold_left round (zip K (rev (extend 48 (rev w)))) h).

Fixpoint blocks (n : nat) (h ws : list Z) : list Z :=
  match n with
  | O => h
  | S n' => blocks n' (block h (take 16 ws)) (drop 16 ws)
  end.

Definition sum (m : string) : list Z :=
  let ws := words (pad (codes m)) in
  mjoin (be_bytes 4 <$> blocks (length ws / 16)%nat H0 ws).

End Sha256.

(** [sha256.Sum256] as the 32 bytes of the digest. *)
Definition Sum256 (m : string) : list Z := Sha256.sum m.

(** ** Hexadecimal *)
Definition hex_digit (n : Z) : ascii := byte_of (if n <? 10 then 48 + n else 87 + n).
Fixpoint hex_EncodeToString (l : list Z) : string :=
  match l with
  | [] => ""
  | b :: l' => String (hex_digit (b / 16)) (String (hex_digit (b mod 16)) (hex_EncodeToString l'))
  end.

Example sha256_abc : hex_EncodeToString (Sum256 "abc") =
  "ba7816bf8f01cfea414140de5dae2223b00361a396177a9cb410ff61f20015ad".
Proof. vm_compute. reflexivity. Qed.

Example sha256_two_blocks :
  hex_EncodeToString (Sum256 "abcdbcdecdefdefgefghfghighijhijkijkljklmklmnlmnomnopnopq") =
  "248d6a61d20638b8e5c026930c3e6039a33ce45964ff2167f6ecedd419db06c1".
Proof. vm_compute. reflexivity. Qed.

(** ** [base64.RawURLEncoding] *)
Definition b64_char (n : Z) : ascii :=
  byte_of (if n <? 26 then 65 + n else if n <? 52 then 71 + n
           else if n <? 62 then n - 4 else if n =? 62 then 45 else 95).

Definition b64_val (c : ascii) : option Z :=
  if is_upper c then Some (code c - 65)
  else if is_lower c then Some (code c - 71)
  else if is_digit c then Some (code c + 4)
  else if is_byte 45 c then Some 62
  else if is_byte 95 c then Some 63 else None.

Fixpoint b64_encode (l : list Z) : string :=
  match l with
  | [] => ""
  | [a] => String (b64_char (a / 4)) (String (b64_char (a mod 4 * 16)) "")
  | [a; b] => String (b64_char (a / 4)) (String (b64_char (a mod 4 * 16 + b / 16))
                (String (b64_char (b mod 16 * 4)) ""))
  | a :: b :: c :: l' =>
      String (b64_char (a / 4)) (String (b64_char (a mod 4 * 16 + b / 16))
        (String (b64_char (b mod 16 * 4 + c / 64)) (String (b64_char (c mod 64)) (b64_encode l'))))
  end.

(** Strict decoding: no padding, no other bytes, and the unused low bits of
    the last character must be zero. *)
Fixpoint b64_decode (s : string) : option (list Z) :=
  match s with
  | EmptyString => Some []
  | String p (String q EmptyString) =>
      x ← b64_val p; y ← b64_val q;
      if y mod 16 =? 0 then Some [x * 4 + y / 16] else None
  | String p (String q (String r EmptyString)) =>
      x ← b64_val p; y ← b64_val q; z ← b64_val r;
      if z mod 4 =? 0 then Some [x * 4 + y / 16; y mod 16 * 16 + z / 4] else None
  | String p (String q (String r (String t s'))) =>
      x ← b64_val p; y ← b64_val q; z ← b64_val r; w ← b64_val t;
      l ← b64_decode s';
      Some (x * 4 + y / 16 :: y mod 16 * 16 + z / 4 :: z mod 4 * 64 + w :: l)
  | String _ EmptyString => None
  end.

Definition is_bytes (l : list Z) : Prop := Forall (fun b => 0 <= b < 256) l.

Lemma b64_val_char n : 0 <= n < 64 -> b64_val (b64_char n) = Some n.
Proof.
  intros Hn. unfold b64_val, b64_char, is_upper, is_lower, is_digit, is_byte, between.
  repeat case_match; bool_prop; rewrite ?code_byte_of in * by lia; try done; bool_prop;
    try (f_equal; lia); exfalso; repeat match goal with
      | H : (_ && _)%bool = false |- _ => apply andb_false_iff in H; destruct H; bool_prop
    end; lia.
Qed.

(** Decoding an encoding gives the bytes back. *)
Lemma b64_decode_encode l : is_bytes l -> b64_decode (b64_encode l) = Some l.
Proof.
  revert l. fix IH 1. intros l Hl.
  destruct l as [|a [|b [|c l']]]; [done| | |].
  all: unfold is_bytes in Hl; repeat rewrite Forall_cons in Hl; destruct_and?.
  all: cbn [b64_encode b64_decode]; rewrite !b64_val_char by divmod; cbn [mbind option_bind].
  - rewrite (proj2 (Z.eqb_eq _ _)) by divmod. repeat f_equal; divmod.
  - rewrite (proj2 (Z.eqb_eq _ _)) by divmod. repeat f_equal; divmod.
  - rewrite IH by done. cbn [mbind option_bind]. repeat f_equal; divmod.
Qed.

(** A digest is 32 bytes. *)
Lemma be_bytes_is_bytes n v : is_bytes (Sha256.be_bytes n v).
Proof.
  revert v. induction n as [|n IH]; intros v; simpl; [constructor|].
  apply Forall_app. split; [apply IH|]. repeat constructor; divmod.
Qed.
Lemma length_be_bytes n v : length (Sha256.be_bytes n v) = n.
Proof. revert v. induction n as [|n IH]; intros v; simpl; [done|]. rewrite length_app, IH. simpl. lia. Qed.

Lemma words_bytes_is_bytes l : is_bytes (mjoin (Sha256.be_bytes 4 <$> l)).
Proof.
  induction l as [|x l IH]; [constructor|].
  change (mjoin (Sha256.be_bytes 4 <$> (x :: l)))
    with (Sha256.be_bytes 4 x ++ mjoin (Sha256.be_bytes 4 <$> l)).
  apply Forall_app_2; [apply be_bytes_is_bytes|done].
Qed.
Lemma length_words_bytes l : length (mjoin (Sha256.be_bytes 4 <$> l)) = (4 * length l)%nat.
Proof.
  induction l as [|x l IH]; [done|].
  change (mjoin (Sha256.be_bytes 4 <$> (x :: l)))
    with (Sha256.be_bytes 4 x ++ mjoin (Sha256.be_bytes 4 <$> l)).
  rewrite length_app, length_be_bytes, IH. cbn [length]. lia.
Qed.

Lemma Sum256_is_bytes m : is_bytes (Sum256 m).
Proof. apply words_bytes_is_bytes. Qed.

Lemma length_round st kw : length (Sha256.round st kw) = length st.
Proof. by destruct st as [|?[|?[|?[|?[|?[|?[|?[|?[|? ?]]]]]]]]]. Qed.
Lemma length_rounds kws st : length (fold_left Sha256.round kws st) = length st.
Proof.
  revert st. induction kws as [|kw kws IH]; intros st; simpl; [done|].
  by rewrite IH, length_round.
Qed.
Lemma length_blocks n h ws : length (Sha256.blocks n h ws) = length h.
Proof.
  revert h ws. induction n as [|n IH]; intros h ws; simpl; [done|].
  rewrite IH. unfold Sha256.block. rewrite length_zip_with, length_rounds. lia.
Qed.

Lemma length_Sum256 m : length (Sum256 m) = 32%nat.
Proof. unfold Sum256, Sha256.sum. by rewrite length_words_bytes, length_blocks. Qed.
