(* ===== verification/GoUrl.v ===== *)
(** * Go's [net/url.Parse]

    The URL parser of Go's standard library (with the strict host rules of Go
    1.26 and later), as far as the modelled code observes it: the scheme, the
    presence of user information, the host, the path, the opaque part, the
    query and the fragment. *)

From S2P Require Import Prelude GoText.

(** ** Helpers of package [strings] on one byte *)

(** [strings.Cut]: the text before and after the first separator. *)
Fixpoint Cut (s : string) (sep : ascii) : string * option string :=
  match s with
  | EmptyString => ("", None)
  | String c s' =>
      if c == sep then ("", Some s')
      else let '(a, b) := Cut s' sep in (String c a, b)
  end.

(** The text before and after the last separator. *)
Definition CutLast (s : string) (sep : ascii) : option (string * string) :=
  match Cut (srev s) sep with
  | (a, Some b) => Some (srev b, srev a)
  | (_, None) => None
  end.

Definition has_byte (n : Z) (s : string) : bool := any_byte (is_byte n) s.
Definition after_sep (o : option string) : string := default "" o.
Definition count_byte (n : Z) (s : string) : nat :=
  length (filter (fun c => is_byte n c = true) (String.list_ascii_of_string s)).

(** ** Percent-encoding *)

Inductive encoding := encodePath | encodeHost | encodeZone | encodeUserPassword
  | encodeQueryComponent | encodeFragment.
#[export] Instance encoding_eq_dec : EqDecision encoding.
Proof. solve_decision. Defined.

Definition unhex (c : ascii) : option Z :=
  if is_digit c then Some (code c - 48)
  else if between 97 102 c then Some (code c - 87)
  else if between 65 70 c then Some (code c - 55) else None.

(** [shouldEscape(c, encodeHost)], which [encodeZone] shares. *)
Definition shouldEscapeHost (c : ascii) : bool :=
  negb (is_alnum c || any_byte (fun d => c == d) "!$&'()*+,;=:[]<>-_.~"
        || is_byte 34 c).

Fixpoint unescape (s : string) (mode : encoding) : option string :=
  match s with
  | EmptyString => Some ""
  | String c s' =>
      if is_byte 37 c then
        match s' with
        | String h (String l s'') =>
            x ← unhex h; y ← unhex l;
            let v := byte_of (x * 16 + y) in
            let is25 := (x =? 2) && (y =? 5) in
            if (mode == encodeHost) && (x <? 8) && negb is25 then None
            else if (mode == encodeZone) && negb is25 && negb (is_byte 32 v) && shouldEscapeHost v
            then None
            else r ← unescape s'' mode; Some (String v r)
        | _ => None
        end
      else if ((mode == encodeHost) || (mode == encodeZone)) && (code c <? 128)
              && shouldEscapeHost c
      then None
      else r ← unescape s' mode;
           Some (String (if (mode == encodeQueryComponent) && is_byte 43 c
                         then byte_of 32 else c) r)
  end.

(** ** [netip.ParseAddr] on the text of an IP literal *)

Definition valid_ipv4_part (s : string) : bool :=
  is_digits s && (slen s <=? 3) && (digits_val s 0 <=? 255)
  && ((slen s =? 1) || negb (HasPrefix s "0")).
Definition valid_ipv4 (s : string) : bool :=
  let ps := Split s "." in (length ps =? 4)%nat && forallb valid_ipv4_part ps.
Definition valid_group (s : string) : bool :=
  (s != "") && (slen s <=? 4) && all_bytes (fun c => match unhex c with Some _ => true | None => false end) s.

(** The number of 16-bit groups of one side of a "::", the last of which may
    be a dotted quad. *)
Fixpoint groups (ps : list string) : option nat :=
  match ps with
  | [] => Some 0%nat
  | [p] => if valid_group p then Some 1%nat else if valid_ipv4 p then Some 2%nat else None
  | p :: ps' => if valid_group p then (n ← groups ps'; Some (S n)) else None
  end.
Definition side (s : string) : option nat := if s == "" then Some 0%nat else groups (Split s ":").

Fixpoint cut_double_colon (s : string) : string * option string :=
  match strip_prefix "::" s with
  | Some r => ("", Some r)
  | None => match s with
            | EmptyString => ("", None)
            | String c s' => let '(a, b) := cut_double_colon s' in (String c a, b)
            end
  end.

Definition valid_ipv6 (s : string) : bool :=
  let '(addr, zone) := Cut s "%" in
  match zone with Some "" => false | _ => true end &&
  match cut_double_colon addr with
  | (l, None) => match side l with Some n => (n =? 8)%nat | None => false end
  | (l, Some r) =>
      negb (has_byte 46 l) &&
      match side l, side r with Some n, Some m => (n + m <? 8)%nat | _, _ => false end
  end.

(** ** The parser *)

Record URL := mkURL {
  Scheme : string;
  Opaque : string;
  User : bool;            (* [parsed.User != nil] *)
  Host : string;
  Path : string;
  RawQuery : string;
  Fragment : string;
}.

Definition validOptionalPort (s : string) : bool :=
  match s with
  | EmptyString => true
  | String c r => is_byte 58 c && all_bytes is_digit r
  end.

(** [getScheme]: [None] is the "missing protocol scheme" error. *)
Fixpoint getScheme_go (first : bool) (acc s whole : string) : option (string * string) :=
  match s with
  | EmptyString => Some ("", whole)
  | String c s' =>
      if is_upper c || is_lower c then getScheme_go false (String c acc) s' whole
      else if is_digit c || any_byte (fun d => c == d) "+-." then
        if first then Some ("", whole) else getScheme_go false (String c acc) s' whole
      else if is_byte 58 c then if first then None else Some (srev acc, s')
      else Some ("", whole)
  end.
Definition getScheme (s : string) : option (string * string) := getScheme_go true "" s s.

Definition parseHost (scheme host : string) : option string :=
  match CutLast host "[" with
  | Some (before, inside) =>
      if before != "" then None else
      '(name, colonPort) ← CutLast inside "]";
      if negb (validOptionalPort colonPort) then None else
      port ← unescape colonPort encodeHost;
      (* %25 starts a zone identifier *)
      let cut25 := fix cut25 (s : string) : string * option string :=
        if HasPrefix s "%25" then ("", Some s)
        else match s with
             | EmptyString => ("", None)
             | String c s' => let '(a, b) := cut25 s' in (String c a, b)
             end in
      let '(addr, zone) := cut25 name in
      addr' ← unescape addr encodeHost;
      zone' ← match zone with Some z => unescape z encodeZone | None => Some "" end;
      if valid_ipv6 (addr' +:+ zone') then Some ("[" +:+ addr' +:+ zone' +:+ "]" +:+ port)
      else None
  | None =>
      let colonPort :=
        if (scheme == "postgresql") || (scheme == "postgres") then
          match CutLast host ":" with Some (_, p) => Some p | None => None end
        else snd (Cut host ":") in
      if match colonPort with Some p => negb (all_bytes is_digit p) | None => false end
      then None else unescape host encodeHost
  end.

Definition validUserinfo (s : string) : bool :=
  all_bytes (fun c => is_alnum c || any_byte (fun d => c == d) "-._:~!$&'()*+,;=%@") s.

(** [parseAuthority]: whether there is user information, and the host. *)
Definition parseAuthority (scheme authority : string) : option (bool * string) :=
  match CutLast authority "@" with
  | None => h ← parseHost scheme authority; Some (false, h)
  | Some (userinfo, host) =>
      h ← parseHost scheme host;
      if negb (validUserinfo userinfo) then None else
      let '(name, password) := Cut userinfo ":" in
      _ ← unescape name encodeUserPassword;
      _ ← unescape (after_sep password) encodeUserPassword;
      Some (true, h)
  end.

Definition parse (rawURL : string) : option URL :=
  if any_byte (fun c => (code c <? 32) || is_byte 127 c) rawURL then None else
  if rawURL == "*" then Some (mkURL "" "" false "" "*" "" "") else
  '(scheme0, rest0) ← getScheme rawURL;
  let scheme := ToLower scheme0 in
  let '(rest, q) := Cut rest0 "?" in
  let query := after_sep q in
  if negb (HasPrefix rest "/") && (scheme != "") then
    Some (mkURL scheme rest false "" "" query "")
  else if negb (HasPrefix rest "/") && has_byte 58 (fst (Cut rest "/")) then None
  else
    '(user, host, path) ←
      (if ((scheme != "") || negb (HasPrefix rest "///")) && HasPrefix rest "//" then
         let '(authority, tl) := Cut (sdrop 2 rest) "/" in
         '(u, h) ← parseAuthority scheme authority;
         Some (u, h, match tl with Some p => "/" +:+ p | None => "" end)
       else Some (false, "", rest));
    path' ← unescape path encodePath;
    Some (mkURL scheme "" user host path' query "").

(** [url.Parse]; [None] is a parse error. *)
Definition url_Parse (rawURL : string) : option URL :=
  let '(u, frag) := Cut rawURL "#" in
  url ← parse u;
  f ← unescape (after_sep frag) encodeFragment;
  Some (mkURL (Scheme url) (Opaque url) (User url) (Host url) (Path url) (RawQuery url) f).

Definition IsAbs (u : URL) : bool := Scheme u != "".

(** [URL.Port] of a host that is not an IP literal. *)
Definition Port (u : URL) : string :=
  match CutLast (Host u) ":" with
  | Some (_, p) => if all_bytes is_digit p then p else ""
  | None => ""
  end.

(** The keys of [URL.Query]; pairs that do not parse are dropped, and a query
    of more than 10000 pairs is not parsed at all. *)
Definition query_pair_key (pair : string) : option string :=
  if has_byte 59 pair || (pair == "") then None else
  let '(k, v) := Cut pair "=" in
  k' ← unescape k encodeQueryComponent;
  _ ← unescape (after_sep v) encodeQueryComponent;
  Some k'.
Definition query_keys (u : URL) : list string :=
  if 10000 <? Z.of_nat (count_byte 38 (RawQuery u)) + 1 then []
  else omap query_pair_key (Split (RawQuery u) "&").

(** ** Examples *)

Example url_https : url_Parse "https://a.example.com" =
  Some (mkURL "https" "" false "a.example.com" "" "" "").
Proof. vm_compute. reflexivity. Qed.
Example url_full : url_Parse "HTTPS://u:p@h:80/a%20b?x=1&y#z" =
  Some (mkURL "https" "" true "h:80" "/a b" "x=1&y" "z").
Proof. vm_compute. reflexivity. Qed.
Example url_colons : url_Parse "http://a:1:2/" = None.
Proof. vm_compute. reflexivity. Qed.
Example url_v6 : Host <$> url_Parse "http://[::1]:8080/" = Some "[::1]:8080".
Proof. vm_compute. reflexivity. Qed.
Example url_keychain : url_Parse "keychain://paperboat/x" =
  Some (mkURL "keychain" "" false "paperboat" "/x" "" "").
Proof. vm_compute. reflexivity. Qed.
