(* ===== verification/GoJson.v ===== *)
(** * Go's [encoding/json]

    The token decoder ([Decoder.Token], [Decoder.More]) with its token-state
    machine, string unquoting, number literals kept as text ([UseNumber]), and
    [json.Marshal] of the dynamic values the decoder produces.  A text is a
    string of bytes, and decoding consumes it from the left. *)

From S2P Require Import Prelude GoText GoHash.

(** ** Dynamic values: Go's [any] as the decoder fills it

    An object is Go's [map[string]any]; it is kept as the list of its members
    in the byte order of the keys, the order in which [json.Marshal] writes
    them.  [map_set] is the assignment [object[key] = child]. *)
Inductive json : Type :=
| JNull
| JBool (b : bool)
| JNumber (lit : string)
| JString (s : string)
| JArray (vs : list json)
| JObject (ms : list (string * json)).

(** Go's [<] on strings: lexicographic in the bytes. *)
Fixpoint str_lt (s t : string) : bool :=
  match s, t with
  | EmptyString, String _ _ => true
  | String a s', String b t' =>
      (code a <? code b) || ((code a =? code b) && str_lt s' t')
  | _, EmptyString => false
  end.

Fixpoint map_set {A} (k : string) (v : A) (m : list (string * A)) : list (string * A) :=
  match m with
  | [] => [(k, v)]
  | (k', v') :: m' =>
      if k == k' then (k, v) :: m'
      else if str_lt k k' then (k, v) :: m
      else (k', v') :: map_set k v m'
  end.

Fixpoint map_get {A} (k : string) (m : list (string * A)) : option A :=
  match m with
  | [] => None
  | (k', v') :: m' => if k == k' then Some v' else map_get k m'
  end.

(** ** Scalars *)

Definition is_ws (c : ascii) : bool :=
  is_byte 32 c || is_byte 9 c || is_byte 10 c || is_byte 13 c.
Fixpoint skip_ws (s : string) : string :=
  match s with
  | String c s' => if is_ws c then skip_ws s' else s
  | EmptyString => ""
  end.

Definition hex_val (c : ascii) : option Z :=
  if is_digit c then Some (code c - 48)
  else if between 97 102 c then Some (code c - 87)
  else if between 65 70 c then Some (code c - 55) else None.

(** [getu4]: four hexadecimal digits. *)
Definition hex4 (s : string) : option (Z * string) :=
  match s with
  | String a (String b (String c (String d r))) =>
      w ← hex_val a; x ← hex_val b; y ← hex_val c; z ← hex_val d;
      Some (((w * 16 + x) * 16 + y) * 16 + z, r)
  | _ => None
  end.

Definition is_surrogate (r : Z) : bool := (55296 <=? r) && (r <=? 57343).
Definition utf16_pair (hi lo : Z) : option Z :=
  if (55296 <=? hi) && (hi <? 56320) && (56320 <=? lo) && (lo <=? 57343)
  then Some ((hi - 55296) * 1024 + (lo - 56320) + 65536) else None.

(** The rune of a "\u" escape whose digits give [r]: a surrogate pair takes a
    second escape, a lone surrogate becomes [RuneError]. *)
Definition unicode_escape (r : Z) (rest : string) : string * string :=
  if is_surrogate r then
    match rest with
    | String b (String u rest') =>
        if is_byte 92 b && is_byte 117 u then
          match hex4 rest' with
          | Some (r2, rest'') =>
              match utf16_pair r r2 with
              | Some p => (encode_rune p, rest'')
              | None => (encode_rune RuneError, rest)
              end
          | None => (encode_rune RuneError, rest)
          end
        else (encode_rune RuneError, rest)
    | _ => (encode_rune RuneError, rest)
    end
  else (encode_rune r, rest).

(** The byte an escape letter stands for. *)
Definition simple_escape (c : ascii) : option ascii :=
  if is_byte 34 c || is_byte 92 c || is_byte 47 c then Some c
  else if is_byte 98 c then Some (byte_of 8)
  else if is_byte 102 c then Some (byte_of 12)
  else if is_byte 110 c then Some (byte_of 10)
  else if is_byte 114 c then Some (byte_of 13)
  else if is_byte 116 c then Some (byte_of 9) else None.

(** The decoded contents of a string literal whose opening quote is consumed,
    and the text after its closing quote.  Bytes that are no valid UTF-8
    become U+FFFD. *)
Fixpoint unquote (fuel : nat) (s : string) : option (string * string) :=
  match fuel, s with
  | S n, String c s' =>
      if is_byte 34 c then Some ("", s')
      else if is_byte 92 c then
        match s' with
        | String e s'' =>
            if is_byte 117 e then
              '(r, rest) ← hex4 s'';
              let '(out, rest') := unicode_escape r rest in
              '(tl, rest'') ← unquote n rest'; Some (out +:+ tl, rest'')
            else b ← simple_escape e;
                 '(tl, rest) ← unquote n s''; Some (String b tl, rest)
        | EmptyString => None
        end
      else if code c <? 32 then None
      else match decode_rune s with
           | Some (_, w) => '(tl, rest) ← unquote n (sdrop w s); Some (stake w s +:+ tl, rest)
           | None => '(tl, rest) ← unquote n s'; Some (encode_rune RuneError +:+ tl, rest)
           end
  | _, _ => None
  end.
Definition read_string (s : string) : option (string * string) := unquote (String.length s) s.

Fixpoint span_digits (s : string) : string * string :=
  match s with
  | String c s' => if is_digit c then let '(a, b) := span_digits s' in (String c a, b) else ("", s)
  | EmptyString => ("", "")
  end.

(** The parts of a number literal: sign, integer part, fraction, exponent. *)
Definition lex_sign (s : string) : string * string :=
  match s with
  | String c s' => if is_byte 45 c then ("-", s') else ("", s)
  | EmptyString => ("", "")
  end.
Definition lex_int (s : string) : option (string * string) :=
  match s with
  | String c s' =>
      if is_byte 48 c then Some ("0", s')
      else if is_digit c then let '(a, b) := span_digits s' in Some (String c a, b)
      else None
  | EmptyString => None
  end.
Definition lex_frac (s : string) : option (string * string) :=
  match s with
  | String c s' =>
      if is_byte 46 c then
        let '(a, b) := span_digits s' in
        if a == "" then None else Some ("." +:+ a, b)
      else Some ("", s)
  | EmptyString => Some ("", "")
  end.
Definition lex_exp (s : string) : option (string * string) :=
  match s with
  | String c s' =>
      if is_byte 101 c || is_byte 69 c then
        let '(sign, s1) := match s' with
          | String d s'' => if is_byte 43 d || is_byte 45 d then (String d "", s'') else ("", s')
          | EmptyString => ("", "")
          end in
        let '(a, b) := span_digits s1 in
        if a == "" then None else Some (String c "" +:+ sign +:+ a, b)
      else Some ("", s)
  | EmptyString => Some ("", "")
  end.
Definition lex_number (s : string) : option (string * string) :=
  let '(sg, s0) := lex_sign s in
  '(i, s1) ← lex_int s0; '(f, s2) ← lex_frac s1; '(e, s3) ← lex_exp s2;
  Some (sg +:+ i +:+ f +:+ e, s3).

(** ** The token decoder *)

Inductive token :=
| TDelim (c : ascii)
| TString (s : string)
| TNumber (lit : string)
| TBool (b : bool)
| TNull.

Inductive tokenState := tokenTopValue | tokenArrayStart | tokenArrayValue | tokenArrayComma
  | tokenObjectStart | tokenObjectKey | tokenObjectColon | tokenObjectValue | tokenObjectComma.
#[export] Instance tokenState_eq_dec : EqDecision tokenState.
Proof. solve_decision. Defined.

Record decoder := mkDecoder { buf : string; tokState : tokenState; tokStack : list tokenState }.
Definition NewDecoder (data : string) : decoder := mkDecoder data tokenTopValue [].

Definition tokenValueAllowed (st : tokenState) : bool :=
  match st with
  | tokenTopValue | tokenArrayStart | tokenArrayValue | tokenObjectValue => true
  | _ => false
  end.
Definition tokenValueEnd (st : tokenState) : tokenState :=
  match st with
  | tokenArrayStart | tokenArrayValue => tokenArrayComma
  | tokenObjectValue => tokenObjectComma
  | _ => st
  end.

(** The result of [Decoder.Token]. *)
Inductive token_result := Tok (t : token) (d : decoder) | TokEOF | TokErr.

(** A scalar at the head of the text. *)
Definition read_scalar (s : string) : option (token * string) :=
  match s with
  | EmptyString => None
  | String c s' =>
      if is_byte 34 c then '(v, r) ← read_string s'; Some (TString v, r)
      else if is_byte 116 c then r ← strip_prefix "true" s; Some (TBool true, r)
      else if is_byte 102 c then r ← strip_prefix "false" s; Some (TBool false, r)
      else if is_byte 110 c then r ← strip_prefix "null" s; Some (TNull, r)
      else '(v, r) ← lex_number s; Some (TNumber v, r)
  end.

(** [Decoder.Token].  A separator is consumed and the loop continues; after
    one separator the state admits no second one, so [fuel] 2 is the whole
    loop. *)
Fixpoint Token_go (fuel : nat) (d : decoder) : token_result :=
  match fuel with
  | O => TokErr
  | S n =>
      let st := tokState d in
      match skip_ws (buf d) with
      | EmptyString => TokEOF
      | String c s =>
          if is_byte 91 c then
            if tokenValueAllowed st
            then Tok (TDelim c) (mkDecoder s tokenArrayStart (st :: tokStack d)) else TokErr
          else if is_byte 93 c then
            if (st == tokenArrayStart) || (st == tokenArrayComma) then
              match tokStack d with
              | top :: stk => Tok (TDelim c) (mkDecoder s (tokenValueEnd top) stk)
              | [] => TokErr
              end
            else TokErr
          else if is_byte 123 c then
            if tokenValueAllowed st
            then Tok (TDelim c) (mkDecoder s tokenObjectStart (st :: tokStack d)) else TokErr
          else if is_byte 125 c then
            if (st == tokenObjectStart) || (st == tokenObjectComma) then
              match tokStack d with
              | top :: stk => Tok (TDelim c) (mkDecoder s (tokenValueEnd top) stk)
              | [] => TokErr
              end
            else TokErr
          else if is_byte 58 c then
            if st == tokenObjectColon
            then Token_go n (mkDecoder s tokenObjectValue (tokStack d)) else TokErr
          else if is_byte 44 c then
            if st == tokenArrayComma then Token_go n (mkDecoder s tokenArrayValue (tokStack d))
            else if st == tokenObjectComma then Token_go n (mkDecoder s tokenObjectKey (tokStack d))
            else TokErr
          else if is_byte 34 c && ((st == tokenObjectStart) || (st == tokenObjectKey)) then
            match read_string s with
            | Some (k, r) => Tok (TString k) (mkDecoder r tokenObjectColon (tokStack d))
            | None => TokErr
            end
          else if tokenValueAllowed st then
            match read_scalar (String c s) with
            | Some (t, r) => Tok t (mkDecoder r (tokenValueEnd st) (tokStack d))
            | None => TokErr
            end
          else TokErr
      end
  end.
Definition Token (d : decoder) : token_result := Token_go 2 d.

(** [Decoder.More]: another element of the current array or object follows. *)
Definition More (d : decoder) : bool :=
  match skip_ws (buf d) with
  | String c _ => negb (is_byte 93 c) && negb (is_byte 125 c)
  | EmptyString => false
  end.

(** ** [json.Marshal] of a dynamic value *)

Definition hex_escape (n : Z) : string :=
  "\u00" +:+ String (hex_digit (n / 16)) (String (hex_digit (n mod 16)) "").

(** [htmlSafeSet]: ASCII bytes that a string literal holds as they are. *)
Definition html_safe (c : ascii) : bool :=
  (32 <=? code c) && (code c <? 128) &&
  negb (is_byte 34 c || is_byte 92 c || is_byte 60 c || is_byte 62 c || is_byte 38 c).

Definition escape_ascii (c : ascii) : string :=
  if is_byte 34 c || is_byte 92 c then String (byte_of 92) (String c "")
  else if is_byte 8 c then "\b" else if is_byte 12 c then "\f"
  else if is_byte 10 c then "\n" else if is_byte 13 c then "\r"
  else if is_byte 9 c then "\t" else hex_escape (code c).

Fixpoint quote_body (fuel : nat) (s : string) : string :=
  match fuel, s with
  | S n, String c s' =>
      if code c <? 128 then
        (if html_safe c then String c "" else escape_ascii c) +:+ quote_body n s'
      else match decode_rune s with
           | None => "\ufffd" +:+ quote_body n s'
           | Some (r, w) =>
               (if r =? 8232 then "\u2028" else if r =? 8233 then "\u2029" else stake w s)
               +:+ quote_body n (sdrop w s)
           end
  | _, _ => ""
  end.
Definition dquote : string := String (byte_of 34) "".
Definition quote (s : string) : string :=
  dquote +:+ quote_body (String.length s) s +:+ dquote.

Fixpoint join_with (sep : string) (l : list string) : string :=
  match l with
  | [] => ""
  | [x] => x
  | x :: l' => x +:+ sep +:+ join_with sep l'
  end.

Fixpoint Marshal (v : json) : string :=
  match v with
  | JNull => "null"
  | JBool true => "true"
  | JBool false => "false"
  | JNumber lit => lit
  | JString s => quote s
  | JArray vs => "[" +:+ join_with "," (map Marshal vs) +:+ "]"
  | JObject ms =>
      "{" +:+ join_with "," (map (fun m => quote (fst m) +:+ ":" +:+ Marshal (snd m)) ms) +:+ "}"
  end.

(** ** [json.Marshal] of structs

    A struct is written member by member in the order of its fields. *)
Definition member (name value : string) : string := quote name +:+ ":" +:+ value.
Definition object_text (members : list string) : string := "{" +:+ join_with "," members +:+ "}".
(** A field with the option [omitempty]. *)
Definition omitempty (empty : bool) (name value : string) : list string :=
  if empty then [] else [member name value].

(** [compact]: a raw message without the white space between its tokens, and
    with the characters that HTML treats specially escaped. *)
Inductive text_state := Outside | Inside | InsideEscape.
Definition text_next (st : text_state) (c : ascii) : text_state :=
  match st with
  | Outside => if is_byte 34 c then Inside else Outside
  | Inside => if is_byte 34 c then Outside else if is_byte 92 c then InsideEscape else Inside
  | InsideEscape => Inside
  end.
Definition html_special (c : ascii) : bool := is_byte 60 c || is_byte 62 c || is_byte 38 c.
Fixpoint compact (st : text_state) (s : string) : string :=
  match s with
  | EmptyString => ""
  | String c s' =>
      let plain :=
        if html_special c then hex_escape (code c) +:+ compact (text_next st c) s'
        else match st with
             | Outside => if is_ws c then compact st s' else String c (compact (text_next st c) s')
             | _ => String c (compact (text_next st c) s')
             end in
      match s' with
      | String d (String e s'') =>
          if is_byte 226 c && is_byte 128 d && (is_byte 168 e || is_byte 169 e)
          then (if is_byte 168 e then "\u2028" else "\u2029") +:+ compact st s''
          else plain
      | _ => plain
      end
  end.
