(* ===== verification/Errors.v ===== *)
(** * Codes, disconnect reasons and typed errors

    The error vocabulary of src/internal/connectorprotocol/protocol.go: stable
    wire codes, finite disconnect reasons, and the typed boundary error. *)

From S2P Require Import Prelude.

(** Codes travel on the wire ([Ack.Code], [Reject.Code]), so a [Code] is any
    string and [validCode] recognises the finite set. *)
Definition Code := string.
Definition CodeInvalidInput : Code := "invalid_input".
Definition CodeMalformedFrame : Code := "malformed_frame".
Definition CodeFrameTooLarge : Code := "frame_too_large".
Definition CodeProtocolIncompatible : Code := "protocol_incompatible".
Definition CodeCapabilityMissing : Code := "capability_missing".
Definition CodeAuthenticationFailed : Code := "authentication_failed".
Definition CodeCredentialExpired : Code := "credential_expired".
Definition CodeIdentityMismatch : Code := "identity_mismatch".
Definition CodeSessionConflict : Code := "session_conflict".
Definition CodeSessionClosed : Code := "session_closed".
Definition CodeLeaseExpired : Code := "lease_expired".
Definition CodeHeartbeatTimeout : Code := "heartbeat_timeout".
Definition CodeSnapshotRequired : Code := "snapshot_required".
Definition CodeGenerationGap : Code := "generation_gap".
Definition CodeStaleGeneration : Code := "stale_generation".
Definition CodeContentHashMismatch : Code := "content_hash_mismatch".
Definition CodeSnapshotRejected : Code := "snapshot_rejected".
Definition CodeDeltaRejected : Code := "delta_rejected".
Definition CodeNotReady : Code := "not_ready".
Definition CodeCanceled : Code := "canceled".
Definition CodeStaleSession : Code := "stale_session".
Definition CodeUnsupportedMessage : Code := "unsupported_message".
Definition CodeDrainRejected : Code := "drain_rejected".
Definition CodeDrainTimeout : Code := "drain_timeout".
Definition CodeCredentialRotationRejected : Code := "credential_rotation_rejected".
Definition CodeCredentialRotationNotReady : Code := "credential_rotation_not_ready".
Definition CodeCredentialRotationFailed : Code := "credential_rotation_failed".

Definition DisconnectReason := string.
Definition ReasonProtocolMismatch : DisconnectReason := "protocol_mismatch".
Definition ReasonCapabilityMissing : DisconnectReason := "capability_missing".
Definition ReasonMalformed : DisconnectReason := "malformed_message".
Definition ReasonAuthentication : DisconnectReason := "authentication_failed".
Definition ReasonCredentialExpired : DisconnectReason := "credential_expired".
Definition ReasonLeaseExpired : DisconnectReason := "lease_expired".
Definition ReasonHeartbeatTimeout : DisconnectReason := "heartbeat_timeout".
Definition ReasonSessionReplaced : DisconnectReason := "session_replaced".
Definition ReasonStaleGeneration : DisconnectReason := "stale_generation".
Definition ReasonSnapshotRejected : DisconnectReason := "snapshot_rejected".
Definition ReasonGenerationGap : DisconnectReason := "generation_gap".
Definition ReasonCredentialRotation : DisconnectReason := "credential_rotation".
Definition ReasonCanceled : DisconnectReason := "canceled".
Definition ReasonServerShutdown : DisconnectReason := "server_shutdown".
Definition ReasonProtocolClosed : DisconnectReason := "protocol_closed".

(** [validCode] and [validDisconnectReason]: membership in the finite sets. *)
Definition allCodes : list Code :=
  [CodeInvalidInput; CodeMalformedFrame; CodeFrameTooLarge; CodeProtocolIncompatible;
   CodeCapabilityMissing; CodeAuthenticationFailed; CodeCredentialExpired; CodeIdentityMismatch;
   CodeSessionConflict; CodeSessionClosed; CodeLeaseExpired; CodeHeartbeatTimeout;
   CodeSnapshotRequired; CodeGenerationGap; CodeStaleGeneration; CodeContentHashMismatch;
   CodeSnapshotRejected; CodeDeltaRejected; CodeNotReady; CodeCanceled;
   CodeStaleSession; CodeUnsupportedMessage; CodeDrainRejected; CodeDrainTimeout;
   CodeCredentialRotationRejected; CodeCredentialRotationNotReady; CodeCredentialRotationFailed].
Definition allReasons : list DisconnectReason :=
  [ReasonProtocolMismatch; ReasonCapabilityMissing; ReasonMalformed; ReasonAuthentication;
   ReasonCredentialExpired; ReasonLeaseExpired; ReasonHeartbeatTimeout; ReasonSessionReplaced;
   ReasonStaleGeneration; ReasonSnapshotRejected; ReasonGenerationGap; ReasonCredentialRotation;
   ReasonCanceled; ReasonServerShutdown; ReasonProtocolClosed].
Definition validCode (code : Code) : bool := bool_decide (code ∈ allCodes).
Definition validDisconnectReason (reason : DisconnectReason) : bool :=
  bool_decide (reason ∈ allReasons).

(** Go's [error]: the package's typed [Error] (its [RetryAfter] is never set
    in the modelled code), an opaque error of another package, an
    [fmt.Errorf] with a wrapped error, or the value of [errors.Join]. *)
Inductive goerror : Type :=
| TypedError (code : Code) (reason : DisconnectReason) (retryable : bool) (cause : option goerror)
| OtherError (msg : string)
| WrapError (msg : string) (inner : goerror)
| JoinError (es : list goerror).

Definition base_error (c : Code) : goerror := TypedError c "" false None.
Definition ErrInvalidInput : goerror := base_error CodeInvalidInput.
Definition ErrMalformedFrame : goerror := base_error CodeMalformedFrame.
Definition ErrFrameTooLarge : goerror := base_error CodeFrameTooLarge.
Definition ErrProtocolIncompatible : goerror := base_error CodeProtocolIncompatible.
Definition ErrCapabilityMissing : goerror := base_error CodeCapabilityMissing.
Definition ErrAuthenticationFailed : goerror := base_error CodeAuthenticationFailed.
Definition ErrCredentialExpired : goerror := base_error CodeCredentialExpired.
Definition ErrIdentityMismatch : goerror := base_error CodeIdentityMismatch.
Definition ErrSessionConflict : goerror := base_error CodeSessionConflict.
Definition ErrSessionClosed : goerror := base_error CodeSessionClosed.
Definition ErrLeaseExpired : goerror := base_error CodeLeaseExpired.
Definition ErrHeartbeatTimeout : goerror := base_error CodeHeartbeatTimeout.
Definition ErrSnapshotRequired : goerror := base_error CodeSnapshotRequired.
Definition ErrGenerationGap : goerror := base_error CodeGenerationGap.
Definition ErrStaleGeneration : goerror := base_error CodeStaleGeneration.
Definition ErrContentHashMismatch : goerror := base_error CodeContentHashMismatch.
Definition ErrSnapshotRejected : goerror := base_error CodeSnapshotRejected.
Definition ErrDeltaRejected : goerror := base_error CodeDeltaRejected.
Definition ErrNotReady : goerror := base_error CodeNotReady.
Definition ErrCanceled : goerror := base_error CodeCanceled.
Definition ErrStaleSession : goerror := base_error CodeStaleSession.
Definition ErrUnsupportedMessage : goerror := base_error CodeUnsupportedMessage.
Definition ErrDrainRejected : goerror := base_error CodeDrainRejected.
Definition ErrDrainTimeout : goerror := base_error CodeDrainTimeout.
Definition ErrCredentialRotationRejected : goerror := base_error CodeCredentialRotationRejected.
Definition ErrCredentialRotationNotReady : goerror := base_error CodeCredentialRotationNotReady.
Definition ErrCredentialRotationFailed : goerror := base_error CodeCredentialRotationFailed.

Definition error_code (e : goerror) : Code :=
  match e with TypedError c _ _ _ => c | _ => "" end.
Definition error_reason (e : goerror) : DisconnectReason :=
  match e with TypedError _ r _ _ => r | _ => "" end.

(** [codeError]: a typed error with the code of [base]. *)
Definition codeError (base : goerror) (reason : DisconnectReason) (retryable : bool)
    (cause : option goerror) : goerror :=
  TypedError (error_code base) reason retryable cause.

(** [CodeOf] and [ReasonOf] through [errors.As]: the first typed error of the
    tree, the error itself before what it wraps. *)
Fixpoint as_typed (e : goerror) : option (Code * DisconnectReason) :=
  match e with
  | TypedError c r _ _ => Some (c, r)
  | OtherError _ => None
  | WrapError _ inner => as_typed inner
  | JoinError es =>
      (fix first (l : list goerror) : option (Code * DisconnectReason) :=
         match l with
         | [] => None
         | x :: l' => match as_typed x with Some p => Some p | None => first l' end
         end) es
  end.
Definition CodeOf (err : option goerror) : Code :=
  match err ≫= as_typed with Some (c, _) => c | None => "" end.
Definition ReasonOf (err : option goerror) : DisconnectReason :=
  match err ≫= as_typed with Some (_, r) => r | None => "" end.

(** A validator returns Go's [error]: [None] is [nil]. *)
Definition ok (e : option goerror) : bool := match e with None => true | Some _ => false end.

Lemma ok_None e : ok e = true <-> e = None.
Proof. by destruct e. Qed.

Notation "'Res' A" := (result goerror A) (at level 10, A at level 9).
