(* ===== verification/Canonical.v ===== *)
(** * Canonical JSON payloads

    [rejectDuplicateKeys], [decodeValue], [rejectSecretFields] and
    [canonicalJSON] of src/internal/connectorprotocol/protocol.go, over the
    token decoder of [GoJson]. *)

From S2P Require Import Prelude GoText GoHash GoUrl GoJson Errors.

Definition MaxJSONDepth : Z := 64.

(** ** [rejectDuplicateKeys]

    [walk] consumes one value; [walk_object] and [walk_array] are its two
    [for decoder.More()] loops with the closing [Token].  [None] is an error.
    [fuel] bounds the recursion; [json_decoding_terminates] shows that [json_fuel]
    is never exhausted. *)
Fixpoint walk (fuel : nat) (depth : Z) (d : decoder) : option decoder :=
  match fuel with
  | O => None
  | S n =>
      if MaxJSONDepth <? depth then None else
      match Token d with
      | Tok (TDelim c) d1 =>
          if is_byte 123 c then walk_object n depth [] d1
          else if is_byte 91 c then walk_array n depth d1
          else None
      | Tok _ d1 => Some d1
      | _ => None
      end
  end
with walk_object (fuel : nat) (depth : Z) (seen : list string) (d : decoder) : option decoder :=
  match fuel with
  | O => None
  | S n =>
      if More d then
        match Token d with
        | Tok (TString key) d1 =>
            if bool_decide (key ∈ seen) then None
            else match walk n (depth + 1) d1 with
                 | Some d2 => walk_object n depth (key :: seen) d2
                 | None => None
                 end
        | _ => None
        end
      else match Token d with Tok _ d1 => Some d1 | _ => None end
  end
with walk_array (fuel : nat) (depth : Z) (d : decoder) : option decoder :=
  match fuel with
  | O => None
  | S n =>
      if More d then
        match walk n (depth + 1) d with
        | Some d1 => walk_array n depth d1
        | None => None
        end
      else match Token d with Tok _ d1 => Some d1 | _ => None end
  end.

Definition json_fuel (data : string) : nat := 2 * String.length data + 2.

(** [true] when the function returns [nil]. *)
Definition rejectDuplicateKeys (data : string) : bool :=
  match walk (json_fuel data) 0 (NewDecoder data) with
  | Some d => match Token d with TokEOF => true | _ => false end
  | None => false
  end.

(** ** [decodeValue] *)
Fixpoint decodeValue (fuel : nat) (depth : Z) (d : decoder) : option (json * decoder) :=
  match fuel with
  | O => None
  | S n =>
      if MaxJSONDepth <? depth then None else
      match Token d with
      | Tok (TDelim c) d1 =>
          if is_byte 123 c then
            match decodeMembers n depth [] d1 with
            | Some (ms, d2) => Some (JObject ms, d2)
            | None => None
            end
          else if is_byte 91 c then
            match decodeElements n depth d1 with
            | Some (vs, d2) => Some (JArray vs, d2)
            | None => None
            end
          else None
      | Tok (TString s) d1 => Some (JString s, d1)
      | Tok (TNumber l) d1 => Some (JNumber l, d1)
      | Tok (TBool b) d1 => Some (JBool b, d1)
      | Tok TNull d1 => Some (JNull, d1)
      | _ => None
      end
  end
with decodeMembers (fuel : nat) (depth : Z) (object : list (string * json)) (d : decoder)
    : option (list (string * json) * decoder) :=
  match fuel with
  | O => None
  | S n =>
      if More d then
        match Token d with
        | Tok (TString key) d1 =>
            match decodeValue n (depth + 1) d1 with
            | Some (child, d2) => decodeMembers n depth (map_set key child object) d2
            | None => None
            end
        | _ => None
        end
      else match Token d with Tok _ d1 => Some (object, d1) | _ => None end
  end
with decodeElements (fuel : nat) (depth : Z) (d : decoder) : option (list json * decoder) :=
  match fuel with
  | O => None
  | S n =>
      if More d then
        match decodeValue n (depth + 1) d with
        | Some (child, d1) =>
            match decodeElements n depth d1 with
            | Some (vs, d2) => Some (child :: vs, d2)
            | None => None
            end
        | None => None
        end
      else match Token d with Tok _ d1 => Some ([], d1) | _ => None end
  end.

(** ** [rejectSecretFields] *)

(** [strings.NewReplacer("_", "", "-", "", " ", "").Replace(strings.ToLower(key))] *)
Fixpoint drop_bytes (f : ascii -> bool) (s : string) : string :=
  match s with
  | EmptyString => ""
  | String c s' => if f c then drop_bytes f s' else String c (drop_bytes f s')
  end.
Definition normalize_key (key : string) : string :=
  drop_bytes (fun c => is_byte 95 c || is_byte 45 c || is_byte 32 c) (ToLower key).

Definition secret_fields : list string :=
  ["accesstoken"; "apikey"; "authorization"; "clientsecret"; "cookie"; "headers"; "password";
   "privatekey"; "refreshtoken"; "requestbody"; "requestheaders"; "responsebody";
   "responseheaders"; "secret"; "sessiontoken"; "setcookie"; "token"].
Definition secret_params : list string :=
  ["accesstoken"; "apikey"; "authorization"; "clientsecret"; "password"; "refreshtoken";
   "secret"; "sessiontoken"; "token"].

Definition secret_key (key : string) : bool := bool_decide (normalize_key key ∈ secret_fields).

(** The [string] case: a bearer token, a private key, or a URL that carries
    credentials. *)
Definition secret_string (value : string) : bool :=
  let upper := ToUpper (TrimSpace value) in
  HasPrefix upper "BEARER " || Contains upper "BEGIN PRIVATE KEY" ||
  match url_Parse value with
  | Some parsed =>
      IsAbs parsed &&
      (User parsed || existsb (fun key => bool_decide (normalize_key key ∈ secret_params)) (query_keys parsed))
  | None => false
  end.

(** [true] when a secret-bearing field or value occurs anywhere. *)
Fixpoint has_secret (value : json) : bool :=
  match value with
  | JObject ms => existsb (fun m => secret_key (fst m) || has_secret (snd m)) ms
  | JArray vs => existsb has_secret vs
  | JString s => secret_string s
  | _ => false
  end.

Definition rejectSecretFields (value : json) : option goerror :=
  if has_secret value then Some ErrInvalidInput else None.

(** ** [canonicalJSON] *)
Definition canonicalJSON (data : string) (limit : Z) : Res string :=
  if (slen data =? 0) || (limit <? slen data) || negb (rejectDuplicateKeys data)
  then Err ErrInvalidInput else
  match decodeValue (json_fuel data) 0 (NewDecoder data) with
  | None => Err ErrInvalidInput
  | Some (value, d) =>
      match Token d with
      | TokEOF =>
          match rejectSecretFields value with
          | Some err => Err err
          | None =>
              let encoded := Marshal value in
              if limit <? slen encoded then Err ErrInvalidInput else Ok encoded
          end
      | _ => Err ErrInvalidInput
      end
  end.
