(* ===== verification/TextFacts.v ===== *)
(** * Text round trips

    Valid UTF-8, and the two directions of JSON string literals and number
    literals: what the decoder reads is what the encoder wrote. *)

From S2P Require Import Prelude GoText GoHash GoJson.

(** ** UTF-8 *)

Inductive valid_utf8 : string -> Prop :=
| valid_nil : valid_utf8 ""
| valid_cons s r w : decode_rune s = Some (r, w) -> valid_utf8 (sdrop w s) -> valid_utf8 s.

(** Case on every condition of [decode_rune]. *)
Ltac rune_cases H :=
  unfold decode_rune in H;
  repeat match type of H with
  | context [match ?x with EmptyString => _ | String _ _ => _ end] => destruct x
  | context [if ?b then _ else _] => destruct b eqn:?
  end; simplify_eq.

Lemma decode_rune_width s r w : decode_rune s = Some (r, w) -> (1 <= w <= String.length s)%nat.
Proof. intros H. rune_cases H; simpl; lia. Qed.

Lemma stake_sdrop n s : stake n s +:+ sdrop n s = s.
Proof.
  revert s. induction n as [|n IH]; intros [|c s]; simpl; autorewrite with sapp; try done.
  by rewrite IH.
Qed.

(** The rune at the head depends on its own bytes only. *)
Lemma decode_rune_stake s r w t :
  decode_rune s = Some (r, w) -> decode_rune (stake w s +:+ t) = Some (r, w).
Proof.
  intros H. rune_cases H; cbn [stake]; autorewrite with sapp; cbn [decode_rune];
    repeat match goal with H : ?b = _ |- context [?b] => rewrite H end; done.
Qed.

Lemma sdrop_stake s n t : (n <= String.length s)%nat -> sdrop n (stake n s +:+ t) = t.
Proof.
  revert s. induction n as [|n IH]; intros s Hn; [done|]. destruct s as [|c s]; simpl in *; [lia|].
  autorewrite with sapp. simpl. apply IH. lia.
Qed.

Lemma stake_stake s n t : (n <= String.length s)%nat -> stake n (stake n s +:+ t) = stake n s.
Proof.
  revert s. induction n as [|n IH]; intros s Hn; [done|]. destruct s as [|c s]; simpl in *; [lia|].
  autorewrite with sapp. simpl. f_equal. apply IH. lia.
Qed.

Lemma valid_prepend s r w t :
  decode_rune s = Some (r, w) -> valid_utf8 t -> valid_utf8 (stake w s +:+ t).
Proof.
  intros H Ht. econstructor; [by apply decode_rune_stake|].
  rewrite sdrop_stake; [done|]. apply decode_rune_width in H. lia.
Qed.

(** Decide the condition of the first [if] of the goal by linear arithmetic. *)
Ltac bool_arith :=
  rewrite ?andb_true_iff, ?orb_true_iff, ?negb_true_iff, ?andb_false_iff, ?orb_false_iff,
    ?negb_false_iff, ?Z.leb_le, ?Z.leb_gt, ?Z.ltb_lt, ?Z.ltb_ge, ?Z.eqb_eq, ?Z.eqb_neq.
Ltac decide_if :=
  match goal with
  | |- context [if ?b then _ else _] =>
      first [replace b with true by (symmetry; bool_arith; divmod)
            |replace b with false by (symmetry; bool_arith; divmod)]
  end.
Ltac arith_hyps :=
  repeat match goal with
  | H : (_ || _)%bool = true |- _ => apply orb_true_iff in H
  | H : (_ && _)%bool = false |- _ => apply andb_false_iff in H
  end;
  repeat match goal with
  | H : context [_ && _ = true] |- _ => rewrite andb_true_iff in H
  | H : context [_ || _ = true] |- _ => rewrite orb_true_iff in H
  | H : context [(_ <=? _) = true] |- _ => rewrite Z.leb_le in H
  | H : context [(_ <=? _) = false] |- _ => rewrite Z.leb_gt in H
  | H : context [(_ <? _) = true] |- _ => rewrite Z.ltb_lt in H
  | H : context [(_ <? _) = false] |- _ => rewrite Z.ltb_ge in H
  | H : context [(_ =? _) = true] |- _ => rewrite Z.eqb_eq in H
  | H : context [(_ =? _) = false] |- _ => rewrite Z.eqb_neq in H
  | H : context [negb _ = true] |- _ => rewrite negb_true_iff in H
  | H : context [negb _ = false] |- _ => rewrite negb_false_iff in H
  end.

(** Every encoded rune decodes, whatever follows it. *)
Lemma decode_encode_rune r t :
  exists r', decode_rune (encode_rune r +:+ t) = Some (r', String.length (encode_rune r)).
Proof.
  unfold encode_rune. repeat case_match; bool_prop; arith_hyps; cbn [foldr]; autorewrite with sapp;
    cbn [decode_rune String.length]; rewrite ?code_byte_of by divmod; repeat decide_if; simpl; eauto.
Qed.

Lemma valid_encode r t : valid_utf8 t -> valid_utf8 (encode_rune r +:+ t).
Proof.
  intros Ht. destruct (decode_encode_rune r t) as [r' H]. econstructor; [done|].
  replace (sdrop (String.length (encode_rune r)) (encode_rune r +:+ t)) with t; [done|].
  generalize (encode_rune r). intros u. induction u as [|c u IH]; [done|].
  autorewrite with sapp. simpl. exact IH.
Qed.

Lemma valid_ascii c t : is_ascii c -> valid_utf8 t -> valid_utf8 (String c t).
Proof. intros Hc Ht. by econstructor; [apply decode_rune_ascii|]. Qed.

Lemma string_byte_cons n c s t : n = code c -> s = t -> String (byte_of n) s = String c t.
Proof. intros -> ->. by rewrite byte_of_code. Qed.

(** A decoded rune encodes back to its bytes. *)
Lemma encode_decode_rune s r w : decode_rune s = Some (r, w) -> encode_rune r = stake w s.
Proof.
  intros H. rune_cases H; bool_prop; arith_hyps; cbn [stake];
    repeat match goal with c : ascii |- _ =>
      lazymatch goal with H : 0 <= code c < 256 |- _ => fail | _ => pose proof (code_range c) end end;
    unfold encode_rune; repeat decide_if; cbn [foldr];
    repeat (apply string_byte_cons; [divmod|]); done.
Qed.

(** ** String literals *)

Lemma unquote_valid n s v r : unquote n s = Some (v, r) -> valid_utf8 v.
Proof.
  revert s v r. induction n as [|n IH]; intros s v r H; [by destruct s|].
  destruct s as [|c s']; [done|]. cbn [unquote] in H.
  repeat match type of H with
  | context [if ?b then _ else _] => destruct b eqn:?; simplify_eq; try constructor
  end.
  - destruct s' as [|e s'']; [done|]. destruct (is_byte 117 e).
    + apply bind_Some in H as ([r0 rest] & _ & H). destruct (unicode_escape r0 rest) as [out rest'] eqn:Hu.
      apply bind_Some in H as ([tl rest''] & Ht & H). simplify_eq.
      assert (exists p, out = encode_rune p) as [p ->].
      { unfold unicode_escape in Hu. repeat case_match; simplify_eq; eauto. }
      apply valid_encode. eauto.
    + apply bind_Some in H as (b & Hb & H). apply bind_Some in H as ([tl rest] & Ht & H). simplify_eq.
      apply valid_ascii; [|eauto]. unfold simple_escape in Hb. unfold is_ascii.
      repeat case_match; simplify_eq; try (vm_compute; done).
      repeat match goal with H : (_ || _)%bool = true |- _ => apply orb_true_iff in H as [H|H] end;
        apply is_byte_true in H; lia.
  - destruct (decode_rune (String c s')) as [[r0 w]|] eqn:Hd.
    + apply bind_Some in H as ([tl rest] & Ht & H). simplify_eq. eapply valid_prepend; eauto.
    + apply bind_Some in H as ([tl rest] & Ht & H). simplify_eq. apply valid_encode. eauto.
Qed.

(** One step of the decoder on what the encoder writes for one rune. *)
Definition prefix_result (u : string) (o : option (string * string)) : option (string * string) :=
  '(tl, rest) ← o; Some (u +:+ tl, rest).

Lemma unquote_safe c n t :
  html_safe c = true -> unquote (S n) (String c t) = prefix_result (String c "") (unquote n t).
Proof.
  unfold html_safe. intros H. bool_prop. cbn [unquote].
  repeat match goal with H : is_byte _ c = false |- _ => rewrite H; clear H end.
  rewrite (proj2 (Z.ltb_ge (code c) 32)) by done. rewrite decode_rune_ascii by done. done.
Qed.

Lemma unquote_escape c n t :
  is_ascii c -> html_safe c = false ->
  unquote (S n) (escape_ascii c +:+ t) = prefix_result (String c "") (unquote n t).
Proof.
  unfold is_ascii. destruct c as [[] [] [] [] [] [] [] []];
    intros Hc Hs; vm_compute in Hc, Hs; try discriminate Hc; try discriminate Hs; reflexivity.
Qed.

Lemma unquote_rune s r w c s' n t :
  s = String c s' -> 128 <= code c -> decode_rune s = Some (r, w) ->
  unquote (S n) (stake w s +:+ t) = prefix_result (stake w s) (unquote n t).
Proof.
  intros -> Hc Hd. pose proof (decode_rune_width _ _ _ Hd) as Hw.
  pose proof (decode_rune_stake _ _ _ t Hd) as Hd'.
  destruct w as [|w]; [lia|]. cbn [stake] in *. autorewrite with sapp in *.
  cbn [unquote]. unfold is_byte.
  rewrite (proj2 (Z.eqb_neq (code c) 34)), (proj2 (Z.eqb_neq (code c) 92)) by lia.
  rewrite (proj2 (Z.ltb_ge (code c) 32)) by lia. rewrite Hd'. cbn [stake sdrop].
  rewrite sdrop_stake, stake_stake by (simpl in *; lia). done.
Qed.

Lemma unquote_line_separator r t n :
  r = 8232 \/ r = 8233 ->
  unquote (S n) ((if r =? 8232 then "\u2028" else "\u2029") +:+ t)
  = prefix_result (encode_rune r) (unquote n t).
Proof. by intros [-> | ->]. Qed.

Lemma unquote_quote_body s :
  valid_utf8 s -> forall k n rest, (String.length s <= k)%nat -> (String.length (quote_body k s) < n)%nat ->
  unquote n (quote_body k s +:+ dquote +:+ rest) = Some (s, rest).
Proof.
  induction 1 as [|s r w Hd Hv IH]; intros k n rest Hk Hn.
  - destruct k; (destruct n; [simpl in *; lia|done]).
  - pose proof (decode_rune_width _ _ _ Hd) as Hw.
    assert (String.length (sdrop w s) <= String.length s - 1)%nat as Hlen.
    { rewrite <- (stake_sdrop w s) at 2. pose proof (slen_app (stake w s) (sdrop w s)) as E.
      unfold slen in E. destruct w as [|w]; [lia|]. destruct s as [|c s]; [simpl in *; lia|].
      simpl in *. lia. }
    destruct s as [|c s']; [done|]. destruct k as [|k]; [simpl in *; lia|].
    destruct n as [|n]; [lia|]. cbn [quote_body] in *.
    (* what is written for the head, and what is left *)
    assert (forall out, (0 < String.length out)%nat ->
      (String.length (out +:+ quote_body k (sdrop w (String c s'))) < S n)%nat ->
      (forall t, unquote (S n) (out +:+ t) = prefix_result (stake w (String c s')) (unquote n t)) ->
      unquote (S n) ((out +:+ quote_body k (sdrop w (String c s'))) +:+ dquote +:+ rest)
      = Some (String c s', rest)) as Hgo.
    { intros out Ho Hl Hu. rewrite sapp_assoc, Hu, IH.
      - unfold prefix_result. simpl. by rewrite stake_sdrop.
      - simpl in *. lia.
      - pose proof (slen_app out (quote_body k (sdrop w (String c s')))) as E. unfold slen in E. lia. }
    destruct (Z.ltb_spec (code c) 128) as [Hc|Hc].
    + rewrite decode_rune_ascii in Hd by done. simplify_eq.
      destruct (html_safe c) eqn:Hs; (apply Hgo; [| |]).
      * simpl. lia.
      * done.
      * intros t. autorewrite with sapp. by apply unquote_safe.
      * unfold escape_ascii. repeat case_match; simpl; lia.
      * done.
      * intros t. by apply unquote_escape.
    + rewrite Hd in *. destruct (Z.eqb_spec r 8232) as [E1|E1]; [|destruct (Z.eqb_spec r 8233) as [E2|E2]].
      * apply Hgo; [simpl; lia|done|]. intros t. rewrite <- (encode_decode_rune _ _ _ Hd), E1.
        by apply (unquote_line_separator 8232); left.
      * apply Hgo; [simpl; lia|done|]. intros t. rewrite <- (encode_decode_rune _ _ _ Hd), E2.
        by apply (unquote_line_separator 8233); right.
      * apply Hgo; [|done|].
        -- destruct w; [lia|]. simpl. lia.
        -- intros t. by eapply unquote_rune.
Qed.

Lemma read_string_quote s rest :
  valid_utf8 s -> read_string (quote_body (String.length s) s +:+ dquote +:+ rest) = Some (s, rest).
Proof.
  intros H. unfold read_string. apply unquote_quote_body; [done|done|].
  pose proof (slen_app (quote_body (String.length s) s) (dquote +:+ rest)) as E. unfold slen in E.
  simpl in E. lia.
Qed.

(** ** Number literals *)

(** The first byte of [t], if there is one, does not satisfy [f]. *)
Definition head_not (f : ascii -> bool) (t : string) : Prop :=
  match t with EmptyString => True | String c _ => f c = false end.

(** What may follow a value in a text that the encoder wrote. *)
Definition delimited (t : string) : Prop :=
  match t with EmptyString => True | String c _ => code c = 44 \/ code c = 93 \/ code c = 125 end.

Lemma span_digits_spec s a b :
  span_digits s = (a, b) -> all_bytes is_digit a = true /\ head_not is_digit b /\ s = a +:+ b.
Proof.
  revert a b. induction s as [|c s IH]; intros a b H; simpl in H; [by simplify_eq|].
  destruct (is_digit c) eqn:Hc; [|by simplify_eq].
  destruct (span_digits s) as [a' b']. simplify_eq. destruct (IH a' b eq_refl) as (Ha & Hb & ->).
  simpl. by rewrite Hc.
Qed.

Lemma span_digits_app a b :
  all_bytes is_digit a = true -> head_not is_digit b -> span_digits (a +:+ b) = (a, b).
Proof.
  induction a as [|c a IH]; intros Ha Hb; autorewrite with sapp; simpl in *.
  - destruct b as [|c b]; [done|]. simpl in *. by rewrite Hb.
  - bool_prop. rewrite H. by rewrite IH.
Qed.

Definition good_int (i : string) : Prop :=
  i = "0" \/ exists c ds, i = String c ds /\ is_digit c = true /\ is_byte 48 c = false
                          /\ all_bytes is_digit ds = true.
Definition good_frac (f : string) : Prop :=
  f = "" \/ exists ds, f = "." +:+ ds /\ ds <> "" /\ all_bytes is_digit ds = true.
Definition good_exp (e : string) : Prop :=
  e = "" \/ exists c sg ds, e = String c "" +:+ sg +:+ ds /\ is_byte 101 c || is_byte 69 c = true
    /\ (sg = "" \/ sg = "+" \/ sg = "-") /\ ds <> "" /\ all_bytes is_digit ds = true.

Lemma lex_int_inv s i t : lex_int s = Some (i, t) -> good_int i.
Proof.
  unfold lex_int. destruct s as [|c s]; [done|]. destruct (is_byte 48 c) eqn:H0; [intros; simplify_eq; by left|].
  destruct (is_digit c) eqn:Hd; [|done]. destruct (span_digits s) as [a b] eqn:Hs. intros; simplify_eq.
  apply span_digits_spec in Hs as (? & _ & _). right. eauto 10.
Qed.

Lemma lex_int_app i t : good_int i -> head_not is_digit t -> lex_int (i +:+ t) = Some (i, t).
Proof.
  intros [->|(c & ds & -> & Hc & H0 & Hds)] Ht; [done|].
  autorewrite with sapp. unfold lex_int. rewrite H0, Hc, span_digits_app; done.
Qed.

Lemma lex_frac_inv s f t : lex_frac s = Some (f, t) -> good_frac f.
Proof.
  unfold lex_frac. destruct s as [|c s]; [intros; simplify_eq; by left|].
  destruct (is_byte 46 c); [|intros; simplify_eq; by left].
  destruct (span_digits s) as [a b] eqn:Hs. apply span_digits_spec in Hs as (? & _ & _).
  case_bool_decide; [done|]. intros; simplify_eq. right. eauto.
Qed.

Lemma lex_frac_app f t :
  good_frac f -> head_not is_digit t -> head_not (is_byte 46) t -> lex_frac (f +:+ t) = Some (f, t).
Proof.
  intros [->|(ds & -> & Hne & Hds)] Ht Hd.
  - autorewrite with sapp. destruct t as [|c t]; [done|]. unfold lex_frac. simpl in Hd. by rewrite Hd.
  - autorewrite with sapp. cbn [lex_frac]. change (is_byte 46 ".") with true. cbv iota.
    rewrite span_digits_app by done. by rewrite bool_decide_eq_false_2.
Qed.

Lemma lex_exp_inv s e t : lex_exp s = Some (e, t) -> good_exp e.
Proof.
  unfold lex_exp. destruct s as [|c s]; [intros; simplify_eq; by left|].
  destruct (is_byte 101 c || is_byte 69 c) eqn:Hc; [|intros; simplify_eq; by left].
  set (p := match s with EmptyString => _ | String d s'' => _ end).
  assert (fst p = "" \/ fst p = "+" \/ fst p = "-") as Hsg.
  { unfold p. destruct s as [|d s'']; [by left|].
    destruct (is_byte 43 d) eqn:E1; [apply is_byte_true in E1|destruct (is_byte 45 d) eqn:E2;
      [apply is_byte_true in E2|by left]]; cbn.
    - right. left. by rewrite <- (byte_of_code d), E1.
    - right. right. by rewrite <- (byte_of_code d), E2. }
  destruct p as [sg s1]. destruct (span_digits s1) as [a b] eqn:Hs.
  apply span_digits_spec in Hs as (? & _ & _). case_bool_decide; [done|]. intros; simplify_eq.
  right. exists c, sg, a. by split_and!.
Qed.

Lemma lex_exp_app e t :
  good_exp e -> head_not is_digit t -> head_not (fun c => is_byte 101 c || is_byte 69 c) t ->
  lex_exp (e +:+ t) = Some (e, t).
Proof.
  intros [->|(c & sg & ds & -> & Hc & Hsg & Hne & Hds)] Ht He.
  - autorewrite with sapp. destruct t as [|c t]; [done|]. unfold lex_exp. simpl in He. by rewrite He.
  - autorewrite with sapp. cbn [lex_exp]. rewrite Hc.
    assert (match sg +:+ ds +:+ t with
      | EmptyString => ("", "")
      | String d s'' => if is_byte 43 d || is_byte 45 d then (String d "", s'') else ("", sg +:+ ds +:+ t)
      end = (sg, ds +:+ t)) as ->.
    { destruct Hsg as [->|[->| ->]]; autorewrite with sapp; [|done|done].
      destruct ds as [|d ds]; [done|]. autorewrite with sapp. simpl in Hds. bool_prop.
      unfold is_digit, between, is_byte in *. bool_prop.
      by rewrite (proj2 (Z.eqb_neq (code d) 43)), (proj2 (Z.eqb_neq (code d) 45)) by lia. }
    rewrite span_digits_app by done. by rewrite bool_decide_eq_false_2.
Qed.

Definition is_number (l : string) : Prop := lex_number l = Some (l, "").

Lemma delimited_head f t :
  (forall c, code c = 44 \/ code c = 93 \/ code c = 125 -> f c = false) -> delimited t -> head_not f t.
Proof. destruct t; simpl; auto. Qed.

Lemma not_digit_byte c n : code c = n -> n < 48 \/ 57 < n -> is_digit c = false.
Proof.
  intros E H. unfold is_digit, between. rewrite E. apply andb_false_iff. rewrite !Z.leb_gt. lia.
Qed.

(** A literal read from some text is read again in front of a delimiter. *)
Lemma lex_number_again s l r t :
  lex_number s = Some (l, r) -> delimited t -> lex_number (l +:+ t) = Some (l, t).
Proof.
  unfold lex_number. destruct (lex_sign s) as [sg s0] eqn:Hsg. intros H Ht.
  apply bind_Some in H as ([i s1] & Hi & H). apply bind_Some in H as ([f s2] & Hf & H).
  apply bind_Some in H as ([e s3] & He & H). simplify_eq.
  apply lex_int_inv in Hi. apply lex_frac_inv in Hf. apply lex_exp_inv in He.
  assert (head_not is_digit t /\ head_not (is_byte 46) t
    /\ head_not (fun c => is_byte 101 c || is_byte 69 c) t) as (T1 & T2 & T3).
  { split_and!; (apply delimited_head; [|done]); intros c Hc; unfold is_byte.
    - eapply not_digit_byte; [done|]. lia.
    - apply Z.eqb_neq. lia.
    - apply orb_false_iff. rewrite !Z.eqb_neq. lia. }
  assert (head_not is_digit (e +:+ t) /\ head_not (is_byte 46) (e +:+ t)) as (E1 & E2).
  { destruct He as [->|(c & sg' & ds & -> & Hc & _)]; autorewrite with sapp; [done|].
    simpl. apply orb_true_iff in Hc as [Hc|Hc]; apply is_byte_true in Hc; unfold is_byte; rewrite ?Hc;
      (split; [eapply not_digit_byte; [done|lia]|done]). }
  assert (head_not is_digit (f +:+ e +:+ t)) as F1.
  { destruct Hf as [->|(ds & -> & _)]; autorewrite with sapp; done. }
  assert (lex_sign (sg +:+ i +:+ f +:+ e +:+ t) = (sg, i +:+ f +:+ e +:+ t)) as Hsign.
  { unfold lex_sign in Hsg. destruct s as [|c s]; [|destruct (is_byte 45 c)]; simplify_eq;
      autorewrite with sapp; try done.
    all: destruct Hi as [->|(d & ds & -> & Hd & _)]; autorewrite with sapp; [done|]; cbn [lex_sign];
      unfold is_digit, between, is_byte in *; bool_prop; by rewrite (proj2 (Z.eqb_neq (code d) 45)) by lia. }
  rewrite !sapp_assoc, Hsign, lex_int_app by done. simpl. rewrite lex_frac_app by done. simpl.
  rewrite lex_exp_app by done. done.
Qed.

Lemma lex_number_is_number s l r : lex_number s = Some (l, r) -> is_number l.
Proof. intros H. unfold is_number. rewrite <- (sapp_nil_r l) at 1. by eapply lex_number_again. Qed.

Lemma is_number_app l t : is_number l -> delimited t -> lex_number (l +:+ t) = Some (l, t).
Proof. apply lex_number_again. Qed.

(** The first byte of a number. *)
Lemma is_number_head l : is_number l -> exists c l', l = String c l' /\ (code c = 45 \/ is_digit c = true).
Proof.
  unfold is_number, lex_number. destruct (lex_sign l) as [sg s0] eqn:Hsg. intros H.
  apply bind_Some in H as ([i s1] & Hi & _). destruct l as [|c l]; [simpl in Hsg; simplify_eq; done|].
  exists c, l. split; [done|]. unfold lex_sign in Hsg. destruct (is_byte 45 c) eqn:Hc.
  - left. by apply is_byte_true.
  - simplify_eq. right. simpl in Hi. destruct (is_byte 48 c) eqn:H0; [|by destruct (is_digit c)].
    apply is_byte_true in H0. unfold is_digit, between. by rewrite H0.
Qed.
