(* ===== verification/JsonFacts.v ===== *)
(** * Canonical JSON: the round trip

    Decoding what [Marshal] writes gives the value back, [rejectDuplicateKeys]
    accepts it, and therefore [canonicalJSON] is idempotent: a canonical
    payload is its own canonical form. *)

From S2P Require Import Prelude GoText GoHash GoUrl GoJson Errors Canonical TextFacts.

(** ** The values of the decoder *)

(** Induction over a value and the values inside it. *)
Section JsonInd.
Context (P : json -> Prop).
Hypothesis Hnull : P JNull.
Hypothesis Hbool : forall b, P (JBool b).
Hypothesis Hnumber : forall l, P (JNumber l).
Hypothesis Hstring : forall s, P (JString s).
Hypothesis Harray : forall vs, Forall P vs -> P (JArray vs).
Hypothesis Hobject : forall ms, Forall (fun m => P (snd m)) ms -> P (JObject ms).
Fixpoint json_nested_ind (v : json) : P v :=
  match v with
  | JNull => Hnull
  | JBool b => Hbool b
  | JNumber l => Hnumber l
  | JString s => Hstring s
  | JArray vs => Harray vs (list_ind (Forall P) (Forall_nil_2 P)
                              (fun x _ IH => Forall_cons_2 P x _ (json_nested_ind x) IH) vs)
  | JObject ms =>
      Hobject ms (list_ind (Forall (fun m => P (snd m))) (Forall_nil_2 _)
                    (fun m _ IH => Forall_cons_2 (fun m => P (snd m)) m _ (json_nested_ind (snd m)) IH) ms)
  end.
End JsonInd.

(** Keys in strictly increasing byte order. *)
Fixpoint sorted_keys {A} (ms : list (string * A)) : Prop :=
  match ms with
  | [] => True
  | (k, _) :: ms' => Forall (fun m => str_lt k (fst m) = true) ms' /\ sorted_keys ms'
  end.

(** A value that the decoder can produce at this nesting depth. *)
Fixpoint decoded (depth : Z) (v : json) : Prop :=
  depth <= MaxJSONDepth
  /\ match v with
     | JNull | JBool _ => True
     | JNumber l => is_number l
     | JString s => valid_utf8 s
     | JArray vs => foldr (fun x acc => decoded (depth + 1) x /\ acc) True vs
     | JObject ms => sorted_keys ms /\ Forall (fun m => valid_utf8 (fst m)) ms
                     /\ foldr (fun m acc => decoded (depth + 1) (snd m) /\ acc) True ms
     end.

Lemma decoded_all {A} (P : A -> Prop) l :
  foldr (fun x acc => P x /\ acc) True l <-> Forall P l.
Proof.
  induction l as [|x l IH]; simpl; [split; constructor|].
  rewrite IH. split; [intros []; by constructor|]. by inversion 1.
Qed.

(** *** The byte order of keys *)

Lemma str_lt_irrefl s : str_lt s s = false.
Proof.
  induction s as [|c s IH]; simpl; [done|]. by rewrite Z.ltb_irrefl, Z.eqb_refl, IH.
Qed.

Lemma str_lt_trans s t u : str_lt s t = true -> str_lt t u = true -> str_lt s u = true.
Proof.
  revert t u. induction s as [|a s IH]; intros [|b t] [|c u]; simpl; try done.
  rewrite !orb_true_iff, !andb_true_iff, !Z.ltb_lt, !Z.eqb_eq. intros [?|[? ?]] [?|[? ?]]; try lia.
  right. split; [lia|eauto].
Qed.

Lemma str_lt_total s t : s <> t -> str_lt s t = false -> str_lt t s = true.
Proof.
  revert t. induction s as [|a s IH]; intros [|b t] Hne; simpl; try done.
  rewrite !orb_true_iff, orb_false_iff, !andb_true_iff, andb_false_iff, !Z.ltb_lt, Z.ltb_ge, !Z.eqb_eq,
    Z.eqb_neq. intros [H1 H2]. destruct (Z.eq_dec (code a) (code b)) as [E|E]; [|left; lia].
  destruct H2 as [?|H2]; [done|]. right. split; [done|]. apply IH; [|done].
  intros ->. apply Hne. f_equal. by apply code_inj.
Qed.

Lemma map_set_keys {A} (P : string -> Prop) k (v : A) ms :
  P k -> Forall (fun m => P (fst m)) ms -> Forall (fun m => P (fst m)) (map_set k v ms).
Proof.
  intros Hk. induction 1 as [|[k' v'] ms H Hms IH]; simpl; [by repeat constructor|].
  repeat case_match; repeat constructor; auto.
Qed.

Lemma map_set_values {A} (P : A -> Prop) k (v : A) ms :
  P v -> Forall (fun m => P (snd m)) ms -> Forall (fun m => P (snd m)) (map_set k v ms).
Proof.
  intros Hk. induction 1 as [|[k' v'] ms H Hms IH]; simpl; [by repeat constructor|].
  repeat case_match; repeat constructor; auto.
Qed.

Lemma map_set_sorted {A} k (v : A) ms : sorted_keys ms -> sorted_keys (map_set k v ms).
Proof.
  induction ms as [|[k' v'] ms IH]; simpl; [by repeat constructor|]. intros [Hf Hs].
  case_bool_decide as E; [subst; done|]. destruct (str_lt k k') eqn:Hlt; simpl.
  - split; [|done]. constructor; [done|]. eapply Forall_impl; [exact Hf|]. intros m Hm.
    by eapply str_lt_trans.
  - split; [|auto]. apply (map_set_keys (fun x => str_lt k' x = true)); [|done].
    by apply str_lt_total.
Qed.

(** Setting the keys of a sorted list in order rebuilds it. *)
Lemma map_set_last {A} k (v : A) ms :
  Forall (fun m => str_lt (fst m) k = true) ms -> map_set k v ms = ms ++ [(k, v)].
Proof.
  induction 1 as [|[k' v'] ms H Hms IH]; simpl; [done|]. simpl in H.
  rewrite bool_decide_eq_false_2; [|by intros ->; rewrite str_lt_irrefl in H].
  destruct (str_lt k k') eqn:E; [|by rewrite IH].
  pose proof (str_lt_trans _ _ _ E H) as Hc. by rewrite str_lt_irrefl in Hc.
Qed.

(** ** Decoded values are well formed *)

Definition token_ok (t : token) : Prop :=
  match t with TString s => valid_utf8 s | TNumber l => is_number l | _ => True end.

Lemma read_scalar_ok s t r : read_scalar s = Some (t, r) -> token_ok t.
Proof.
  unfold read_scalar. destruct s as [|c s]; [done|]. intros H.
  repeat case_match; apply bind_Some in H as (x & Hx & H); try (destruct x); simplify_eq; simpl; try done.
  - by eapply unquote_valid.
  - by eapply lex_number_is_number.
Qed.

Lemma Token_ok d t d' : Token d = Tok t d' -> token_ok t.
Proof.
  unfold Token. generalize 2%nat. intros n. revert d. induction n as [|n IH]; intros d H; [done|].
  cbn [Token_go] in H. repeat case_match; simplify_eq; try done; eauto using read_scalar_ok.
  simpl. by eapply unquote_valid.
Qed.

Lemma decode_decoded n :
  (forall depth d v d', decodeValue n depth d = Some (v, d') -> decoded depth v)
  /\ (forall depth object d ms d', decodeMembers n depth object d = Some (ms, d') ->
        sorted_keys object -> Forall (fun m => valid_utf8 (fst m)) object ->
        Forall (fun m => decoded (depth + 1) (snd m)) object ->
        sorted_keys ms /\ Forall (fun m => valid_utf8 (fst m)) ms
        /\ Forall (fun m => decoded (depth + 1) (snd m)) ms)
  /\ (forall depth d vs d', decodeElements n depth d = Some (vs, d') ->
        Forall (decoded (depth + 1)) vs).
Proof.
  induction n as [|n (IHv & IHm & IHe)]; [done|]. split_and!.
  - intros depth d v d' H. cbn [decodeValue] in H.
    destruct (MaxJSONDepth <? depth) eqn:Hdepth; [done|]. bool_prop.
    destruct (Token d) as [t d1| |] eqn:Ht; [|done|done]. apply Token_ok in Ht.
    destruct t; repeat case_match; simplify_eq; simpl in *; split_and!; try done.
    + destruct (IHm depth [] d1 l d') as (? & ? & ?); [done|done|constructor|constructor|done].
    + destruct (IHm depth [] d1 l d') as (? & ? & ?); [done|done|constructor|constructor|done].
    + destruct (IHm depth [] d1 l d') as (? & ? & ?); [done|done|constructor|constructor|].
      by apply (decoded_all (fun m => decoded (depth + 1) (snd m))).
    + apply decoded_all. eauto.
  - intros depth object d ms d' H Hs Hk Hv. cbn [decodeMembers] in H. destruct (More d).
    + destruct (Token d) as [t d1| |] eqn:Ht; [|done|done]. apply Token_ok in Ht.
      destruct t; try done. destruct (decodeValue n (depth + 1) d1) as [[child d2]|] eqn:Hc; [|done].
      eapply IHm; [exact H| | |].
      * by apply map_set_sorted.
      * by apply (map_set_keys valid_utf8).
      * apply (map_set_values (decoded (depth + 1))); [eauto|done].
    + destruct (Token d); simplify_eq. done.
  - intros depth d vs d' H. cbn [decodeElements] in H. destruct (More d).
    + destruct (decodeValue n (depth + 1) d) as [[child d1]|] eqn:Hc; [|done].
      destruct (decodeElements n depth d1) as [[l d2]|] eqn:He; simplify_eq. constructor; eauto.
    + destruct (Token d); simplify_eq. constructor.
Qed.

(** ** The texts of [Marshal] *)

(** What follows the first element of a list that [close] ends. *)
Definition tail_text (close : string) (l : list string) : string :=
  foldr (fun x acc => "," +:+ x +:+ acc) close l.

Lemma join_with_tail close x l : join_with "," (x :: l) +:+ close = x +:+ tail_text close l.
Proof.
  revert x. induction l as [|y l IH]; intros x; simpl; [done|].
  specialize (IH y). simpl in IH. rewrite !sapp_assoc. by rewrite IH.
Qed.

Lemma tail_text_app close l rest : tail_text close l +:+ rest = tail_text (close +:+ rest) l.
Proof. induction l as [|x l IH]; simpl; [done|]. rewrite !sapp_assoc. by rewrite IH. Qed.

Lemma tail_delimited close l : delimited close -> delimited (tail_text close l).
Proof. destruct l as [|x l]; [done|]. simpl. autorewrite with sapp. simpl. auto. Qed.

(** The bytes a value starts with. *)
Definition value_start (c : ascii) : Prop :=
  is_ws c = false /\ is_byte 93 c = false /\ is_byte 125 c = false /\ is_byte 58 c = false
  /\ is_byte 44 c = false.

Lemma value_start_code c :
  code c <> 32 -> code c <> 9 -> code c <> 10 -> code c <> 13 -> code c <> 93 -> code c <> 125 ->
  code c <> 58 -> code c <> 44 -> value_start c.
Proof.
  intros. unfold value_start, is_ws, is_byte. rewrite !orb_false_iff, !Z.eqb_neq. done.
Qed.

Lemma Marshal_head depth v :
  decoded depth v -> exists c s, Marshal v = String c s /\ value_start c.
Proof.
  intros Hv. destruct v as [|[]|l|s|vs|ms]; destruct Hv as [_ Hv]; simpl;
    try (eexists _, _; split; [done|by apply value_start_code]).
  destruct (is_number_head l Hv) as (c & l' & -> & Hc). exists c, l'. split; [done|].
  assert (code c = 45 \/ 48 <= code c <= 57) as Hr.
  { destruct Hc as [?|Hc]; [by left|]. unfold is_digit, between in Hc. bool_prop. lia. }
  apply value_start_code; lia.
Qed.

(** *** Tokens *)

Lemma skip_ws_start c s : is_ws c = false -> skip_ws (String c s) = String c s.
Proof. intros H. simpl. by rewrite H. Qed.

(** At the start of a value [Token] needs no separator. *)
Lemma Token_go_value n c s st stk :
  value_start c -> Token_go (S n) (mkDecoder (String c s) st stk) = Token_go 1 (mkDecoder (String c s) st stk).
Proof.
  intros (Hw & _ & _ & H58 & H44). cbn [Token_go buf tokState tokStack].
  by rewrite skip_ws_start, H58, H44 by done.
Qed.

Lemma Token_comma n s st st' stk :
  (st = tokenArrayComma /\ st' = tokenArrayValue) \/ (st = tokenObjectComma /\ st' = tokenObjectKey) ->
  Token_go (S n) (mkDecoder ("," +:+ s) st stk) = Token_go n (mkDecoder s st' stk).
Proof. by intros [[-> ->]|[-> ->]]. Qed.

Lemma Token_colon n s stk :
  Token_go (S n) (mkDecoder (":" +:+ s) tokenObjectColon stk) = Token_go n (mkDecoder s tokenObjectValue stk).
Proof. done. Qed.

Lemma Token_scalar n c s st stk :
  value_start c -> is_byte 91 c = false -> is_byte 123 c = false -> tokenValueAllowed st = true ->
  Token_go (S n) (mkDecoder (String c s) st stk) =
  match read_scalar (String c s) with
  | Some (t, r) => Tok t (mkDecoder r (tokenValueEnd st) stk)
  | None => TokErr
  end.
Proof.
  intros (Hw & H93 & H125 & H58 & H44) H91 H123 Hst. cbn [Token_go buf tokState tokStack].
  rewrite skip_ws_start, H91, H93, H123, H125, H58, H44 by done.
  replace (is_byte 34 c && ((st == tokenObjectStart) || (st == tokenObjectKey))) with false.
  - by rewrite Hst.
  - symmetry. rewrite andb_false_iff. right. by destruct st.
Qed.

Lemma Token_key n k s st stk :
  valid_utf8 k -> st = tokenObjectStart \/ st = tokenObjectKey ->
  Token_go (S n) (mkDecoder (quote k +:+ s) st stk) = Tok (TString k) (mkDecoder s tokenObjectColon stk).
Proof.
  intros Hk Hst. unfold quote. rewrite !sapp_assoc. cbn [Token_go buf tokState tokStack].
  change (skip_ws (dquote +:+ quote_body (String.length k) k +:+ dquote +:+ s))
    with (String (byte_of 34) (quote_body (String.length k) k +:+ dquote +:+ s)).
  cbn -[read_string quote_body String.append]. rewrite read_string_quote by done.
  by destruct Hst as [-> | ->].
Qed.

(** ** Decoding what [Marshal] wrote *)

(** The next token of [d] is the first of the text [s] in state [st]. *)
Definition starts_at (d : decoder) (s : string) (st : tokenState) (stk : list tokenState) : Prop :=
  Token d = Token_go 1 (mkDecoder s st stk).

(** [v] is read back and passes the duplicate check. *)
Definition reads_back (v : json) : Prop :=
  forall depth n d st stk rest,
    decoded depth v -> delimited rest -> tokenValueAllowed st = true ->
    (2 * String.length (Marshal v) + 1 <= n)%nat ->
    starts_at d (Marshal v +:+ rest) st stk ->
    decodeValue n depth d = Some (v, mkDecoder rest (tokenValueEnd st) stk)
    /\ walk n depth d = Some (mkDecoder rest (tokenValueEnd st) stk).

(** Both functions on a scalar token. *)
Lemma scalar_reads v t depth n d st stk rest :
  decoded depth v -> (0 < n)%nat -> tokenValueAllowed st = true ->
  starts_at d (Marshal v +:+ rest) st stk ->
  (match v with JArray _ | JObject _ => False | _ => True end) ->
  read_scalar (Marshal v +:+ rest) = Some (t, rest) ->
  match v, t with
  | JNull, TNull => True
  | JBool b, TBool b' => b = b'
  | JNumber l, TNumber l' => l = l'
  | JString s, TString s' => s = s'
  | _, _ => False
  end ->
  decodeValue n depth d = Some (v, mkDecoder rest (tokenValueEnd st) stk)
  /\ walk n depth d = Some (mkDecoder rest (tokenValueEnd st) stk).
Proof.
  intros Hv Hn Hst Hd Hsc Hr Ht. destruct n as [|n]; [lia|].
  assert (depth <= MaxJSONDepth) as Hdepth by (by destruct v; destruct Hv).
  destruct (Marshal_head depth v Hv) as (c & s & E & Hc).
  assert (is_byte 91 c = false /\ is_byte 123 c = false) as [H91 H123].
  { destruct v as [|[]|l|s'| |]; try done; simpl in E;
      try (injection E as <- _; done).
    destruct Hv as [_ Hv]. destruct (is_number_head l Hv) as (c' & l' & -> & Hc'). simplify_eq.
    unfold is_byte. rewrite !Z.eqb_neq. destruct Hc' as [?|Hd']; [lia|].
    unfold is_digit, between in Hd'. bool_prop. lia. }
  unfold starts_at in Hd. rewrite E in *. autorewrite with sapp in *.
  rewrite Token_scalar, Hr in Hd by done.
  cbn [decodeValue walk]. rewrite (proj2 (Z.ltb_ge _ _)) by done. rewrite Hd.
  by destruct v, t; simplify_eq.
Qed.

Lemma reads_null : reads_back JNull.
Proof.
  intros depth n d st stk rest Hv Hr Hst Hn Hd. by eapply (scalar_reads JNull TNull); eauto; lia.
Qed.
Lemma reads_bool b : reads_back (JBool b).
Proof.
  intros depth n d st stk rest Hv Hr Hst Hn Hd.
  eapply (scalar_reads (JBool b) (TBool b)); eauto; [lia|]. by destruct b.
Qed.
Lemma read_scalar_quote x :
  read_scalar (dquote +:+ x) = '(v, r) ← read_string x; Some (TString v, r).
Proof. done. Qed.
Lemma reads_string s : reads_back (JString s).
Proof.
  intros depth n d st stk rest Hv Hr Hst Hn Hd.
  eapply (scalar_reads (JString s) (TString s)); eauto; [lia|].
  cbn [Marshal]. unfold quote. rewrite !sapp_assoc, read_scalar_quote.
  rewrite read_string_quote; [done|]. by destruct Hv.
Qed.
Lemma reads_number l : reads_back (JNumber l).
Proof.
  intros depth n d st stk rest Hv Hr Hst Hn Hd.
  eapply (scalar_reads (JNumber l) (TNumber l)); eauto; [lia|]. destruct Hv as [_ Hv]. simpl.
  pose proof (is_number_app l rest Hv Hr) as Hl.
  destruct (is_number_head l Hv) as (c & l' & -> & Hc). autorewrite with sapp in *. unfold read_scalar.
  assert (code c = 45 \/ 48 <= code c <= 57) as Hcr.
  { destruct Hc as [?|Hc]; [by left|]. unfold is_digit, between in Hc. bool_prop. lia. }
  unfold is_byte. rewrite (proj2 (Z.eqb_neq (code c) 34)), (proj2 (Z.eqb_neq (code c) 116)),
    (proj2 (Z.eqb_neq (code c) 102)), (proj2 (Z.eqb_neq (code c) 110)) by lia.
  by rewrite Hl.
Qed.

(** *** Arrays *)

Lemma length_sapp s t : String.length (s +:+ t) = (String.length s + String.length t)%nat.
Proof. pose proof (slen_app s t) as E. unfold slen in E. lia. Qed.

(** The closing delimiter. *)
Lemma close_array n depth st stk rest s1 :
  s1 = tokenArrayStart \/ s1 = tokenArrayComma ->
  decodeElements (S n) depth (mkDecoder ("]" +:+ rest) s1 (st :: stk))
    = Some ([], mkDecoder rest (tokenValueEnd st) stk)
  /\ walk_array (S n) depth (mkDecoder ("]" +:+ rest) s1 (st :: stk))
    = Some (mkDecoder rest (tokenValueEnd st) stk).
Proof. by intros [-> | ->]. Qed.

Lemma More_start c s st stk : value_start c -> More (mkDecoder (String c s) st stk) = true.
Proof. intros (Hw & H93 & H125 & _). unfold More. cbn [buf]. by rewrite skip_ws_start, H93, H125. Qed.

Lemma array_tail vs n depth st stk rest :
  Forall reads_back vs -> Forall (decoded (depth + 1)) vs ->
  (2 * String.length (tail_text "]" (map Marshal vs)) <= n)%nat ->
  decodeElements n depth (mkDecoder (tail_text ("]" +:+ rest) (map Marshal vs)) tokenArrayComma (st :: stk))
    = Some (vs, mkDecoder rest (tokenValueEnd st) stk)
  /\ walk_array n depth (mkDecoder (tail_text ("]" +:+ rest) (map Marshal vs)) tokenArrayComma (st :: stk))
    = Some (mkDecoder rest (tokenValueEnd st) stk).
Proof.
  intros Hrb. revert n. induction Hrb as [|v vs Hv Hvs IH]; intros n Hd Hn.
  - destruct n; [simpl in Hn; lia|]. apply close_array. by right.
  - inversion Hd as [|? ? Hdv Hdvs]; subst. cbn [map tail_text foldr] in *.
    fold (tail_text "]" (map Marshal vs)) in Hn. fold (tail_text ("]" +:+ rest) (map Marshal vs)).
    rewrite !length_sapp in Hn. simpl in Hn. destruct n as [|n]; [lia|].
    cbn [decodeElements walk_array].
    set (d := mkDecoder ("," +:+ Marshal v +:+ tail_text ("]" +:+ rest) (map Marshal vs)) tokenArrayComma (st :: stk)).
    change (More d) with true. cbv iota.
    destruct (Hv (depth + 1) n d tokenArrayValue (st :: stk) (tail_text ("]" +:+ rest) (map Marshal vs)))
      as [-> ->]; [done| |done|lia| |].
    + apply tail_delimited. simpl. auto.
    + unfold starts_at, Token, d. apply Token_comma. by left.
    + destruct (IH n Hdvs) as [H1 H2]; [lia|]. simpl tokenValueEnd in *. by rewrite H1, H2.
Qed.

Lemma array_reads vs n depth st stk rest :
  Forall reads_back vs -> Forall (decoded (depth + 1)) vs ->
  (2 * String.length (join_with "," (map Marshal vs) +:+ "]") <= n)%nat ->
  decodeElements n depth (mkDecoder (join_with "," (map Marshal vs) +:+ "]" +:+ rest) tokenArrayStart (st :: stk))
    = Some (vs, mkDecoder rest (tokenValueEnd st) stk)
  /\ walk_array n depth (mkDecoder (join_with "," (map Marshal vs) +:+ "]" +:+ rest) tokenArrayStart (st :: stk))
    = Some (mkDecoder rest (tokenValueEnd st) stk).
Proof.
  destruct vs as [|v vs]; intros Hrb Hd Hn.
  - destruct n; [simpl in Hn; lia|]. apply close_array. by left.
  - inversion Hd as [|? ? Hdv Hdvs]; inversion Hrb as [|? ? Hv Hvs]; subst.
    cbn [map] in *. rewrite join_with_tail in *. rewrite length_sapp in Hn.
    assert (0 < String.length (Marshal v))%nat as Hpos
      by (destruct (Marshal_head _ _ Hdv) as (c & s & -> & _); simpl; lia).
    destruct n as [|n]; [lia|].
    assert (0 < String.length (tail_text "]" (map Marshal vs)))%nat as Htail
      by (destruct vs; simpl; rewrite ?length_sapp; simpl; lia).
    cbn [decodeElements walk_array].
    set (d := mkDecoder (Marshal v +:+ tail_text ("]" +:+ rest) (map Marshal vs)) tokenArrayStart (st :: stk)).
    destruct (Marshal_head _ _ Hdv) as (c & s & E & Hc).
    replace (More d) with true.
    2: { unfold d. rewrite E. autorewrite with sapp. by rewrite More_start. }
    destruct (Hv (depth + 1) n d tokenArrayStart (st :: stk) (tail_text ("]" +:+ rest) (map Marshal vs)))
      as [-> ->]; [done| |done|lia| |].
    + apply tail_delimited. simpl. auto.
    + unfold starts_at, Token, d. rewrite E. autorewrite with sapp. by apply Token_go_value.
    + destruct (array_tail vs n depth st stk rest Hvs Hdvs) as [H1 H2]; [lia|].
      simpl tokenValueEnd in *. by rewrite H1, H2.
Qed.

Lemma reads_array vs : Forall reads_back vs -> reads_back (JArray vs).
Proof.
  intros Hrb depth n d st stk rest Hv Hr Hst Hn Hd. destruct Hv as [Hdepth Hv].
  apply decoded_all in Hv. destruct n as [|n]; [lia|].
  cbn [Marshal] in *. rewrite !length_sapp in Hn. simpl String.length in Hn.
  unfold starts_at in Hd. rewrite !sapp_assoc in Hd.
  assert (Token d = Tok (TDelim "[") (mkDecoder (join_with "," (map Marshal vs) +:+ "]" +:+ rest)
    tokenArrayStart (st :: stk))) as Ht.
  { rewrite Hd. cbn [Token_go buf tokState tokStack]. autorewrite with sapp.
    cbn -[join_with Marshal String.append]. by rewrite Hst. }
  cbn [decodeValue walk]. rewrite (proj2 (Z.ltb_ge _ _)) by done. rewrite Ht.
  change (is_byte 123 "[") with false. change (is_byte 91 "[") with true. cbv iota.
  destruct (array_reads vs n depth st stk rest Hrb Hv) as [-> ->]; [|done].
  rewrite length_sapp. simpl. lia.
Qed.

(** *** Objects *)

Definition member_text (m : string * json) : string := quote (fst m) +:+ ":" +:+ Marshal (snd m).

Lemma sorted_app_inv {A} (pre : list (string * A)) k v ms :
  sorted_keys (pre ++ (k, v) :: ms) ->
  Forall (fun m => str_lt (fst m) k = true) pre /\ sorted_keys ((pre ++ [(k, v)]) ++ ms).
Proof.
  intros H. rewrite <- app_assoc. split; [|done]. revert H.
  induction pre as [|[k' v'] pre IH]; simpl; [constructor|]. intros [Hf Hs].
  apply Forall_app in Hf as [_ Hf]. inversion Hf as [|? ? Hk _]; subst. constructor; [done|auto].
Qed.

Lemma fresh_key {A} (pre : list (string * A)) k (seen : list string) :
  Forall (fun m => str_lt (fst m) k = true) pre -> (forall x, x ∈ seen -> x ∈ pre.*1) -> k ∉ seen.
Proof.
  intros Hf Hs Hk. apply Hs, list_elem_of_fmap in Hk as (m & -> & Hm).
  rewrite Forall_forall in Hf. specialize (Hf m Hm). by rewrite str_lt_irrefl in Hf.
Qed.

Lemma close_object n depth pre seen st stk rest s1 :
  s1 = tokenObjectStart \/ s1 = tokenObjectComma ->
  decodeMembers (S n) depth pre (mkDecoder ("}" +:+ rest) s1 (st :: stk))
    = Some (pre, mkDecoder rest (tokenValueEnd st) stk)
  /\ walk_object (S n) depth seen (mkDecoder ("}" +:+ rest) s1 (st :: stk))
    = Some (mkDecoder rest (tokenValueEnd st) stk).
Proof. by intros [-> | ->]. Qed.

(** One member: its key, then its value. *)
Lemma member_reads k v n depth pre seen d st stk rest s1 :
  reads_back v -> valid_utf8 k -> decoded (depth + 1) v -> delimited rest ->
  Forall (fun m => str_lt (fst m) k = true) pre -> (forall x, x ∈ seen -> x ∈ pre.*1) ->
  (2 * String.length (Marshal v) + 1 <= n)%nat ->
  s1 = tokenObjectStart \/ s1 = tokenObjectKey ->
  More d = true -> starts_at d (member_text (k, v) +:+ rest) s1 (st :: stk) ->
  decodeMembers (S n) depth pre d
    = decodeMembers n depth (pre ++ [(k, v)]) (mkDecoder rest tokenObjectComma (st :: stk))
  /\ walk_object (S n) depth seen d
    = walk_object n depth (k :: seen) (mkDecoder rest tokenObjectComma (st :: stk)).
Proof.
  intros Hv Hk Hdv Hr Hpre Hseen Hn Hs1 Hmore Hd. unfold starts_at, member_text in Hd. cbn [fst snd] in Hd.
  rewrite !sapp_assoc, Token_key in Hd by done.
  cbn [decodeMembers walk_object]. rewrite Hmore, Hd.
  rewrite bool_decide_eq_false_2 by (by eapply fresh_key).
  destruct (Hv (depth + 1) n (mkDecoder (":" +:+ Marshal v +:+ rest) tokenObjectColon (st :: stk))
    tokenObjectValue (st :: stk) rest) as [-> ->]; try done.
  simpl tokenValueEnd. by rewrite map_set_last.
Qed.

Lemma object_tail ms n depth pre seen st stk rest :
  Forall (fun m => reads_back (snd m)) ms -> Forall (fun m => valid_utf8 (fst m)) ms ->
  Forall (fun m => decoded (depth + 1) (snd m)) ms -> sorted_keys (pre ++ ms) ->
  (forall x, x ∈ seen -> x ∈ pre.*1) ->
  (2 * String.length (tail_text "}" (map member_text ms)) <= n)%nat ->
  decodeMembers n depth pre (mkDecoder (tail_text ("}" +:+ rest) (map member_text ms)) tokenObjectComma (st :: stk))
    = Some (pre ++ ms, mkDecoder rest (tokenValueEnd st) stk)
  /\ walk_object n depth seen (mkDecoder (tail_text ("}" +:+ rest) (map member_text ms)) tokenObjectComma (st :: stk))
    = Some (mkDecoder rest (tokenValueEnd st) stk).
Proof.
  intros Hrb. revert n pre seen. induction Hrb as [|[k v] ms Hv Hms IH]; intros n pre seen Hk Hd Hs Hseen Hn.
  - destruct n; [simpl in Hn; lia|]. rewrite app_nil_r. apply close_object. by right.
  - inversion Hd as [|? ? Hdv Hdms]; inversion Hk as [|? ? Hkk Hkms]; subst.
    apply sorted_app_inv in Hs as [Hpre Hs]. cbn [map tail_text foldr] in *.
    fold (tail_text "}" (map member_text ms)) in Hn. fold (tail_text ("}" +:+ rest) (map member_text ms)).
    unfold member_text in Hn at 1. rewrite !length_sapp in Hn. simpl String.length in Hn.
    destruct n as [|n]; [lia|]. cbn [fst snd] in *.
    destruct (member_reads k v n depth pre seen
      (mkDecoder ("," +:+ member_text (k, v) +:+ tail_text ("}" +:+ rest) (map member_text ms))
         tokenObjectComma (st :: stk)) st stk (tail_text ("}" +:+ rest) (map member_text ms)) tokenObjectKey)
      as [-> ->]; try done; auto; try lia.
    + apply tail_delimited. simpl. auto.
    + destruct (IH n (pre ++ [(k, v)]) (k :: seen)) as [H1 H2]; try done; try lia.
      * intros x. rewrite fmap_app, elem_of_app, elem_of_cons. simpl. rewrite elem_of_cons. intuition auto.
      * rewrite H1, H2, <- app_assoc. done.
Qed.

Lemma object_reads ms n depth st stk rest :
  Forall (fun m => reads_back (snd m)) ms -> Forall (fun m => valid_utf8 (fst m)) ms ->
  Forall (fun m => decoded (depth + 1) (snd m)) ms -> sorted_keys ms ->
  (2 * String.length (join_with "," (map member_text ms) +:+ "}") <= n)%nat ->
  decodeMembers n depth [] (mkDecoder (join_with "," (map member_text ms) +:+ "}" +:+ rest) tokenObjectStart (st :: stk))
    = Some (ms, mkDecoder rest (tokenValueEnd st) stk)
  /\ walk_object n depth [] (mkDecoder (join_with "," (map member_text ms) +:+ "}" +:+ rest) tokenObjectStart (st :: stk))
    = Some (mkDecoder rest (tokenValueEnd st) stk).
Proof.
  destruct ms as [|[k v] ms]; intros Hrb Hk Hd Hs Hn.
  - destruct n; [simpl in Hn; lia|]. apply close_object. by left.
  - inversion Hd as [|? ? Hdv Hdms]; inversion Hk as [|? ? Hkk Hkms]; inversion Hrb as [|? ? Hv Hvs]; subst.
    cbn [map] in *. rewrite join_with_tail in *. rewrite length_sapp in Hn.
    unfold member_text in Hn at 1. rewrite !length_sapp in Hn. simpl String.length in Hn.
    destruct n as [|n]; [lia|]. cbn [fst snd] in *.
    destruct (member_reads k v n depth [] []
      (mkDecoder (member_text (k, v) +:+ tail_text ("}" +:+ rest) (map member_text ms))
         tokenObjectStart (st :: stk)) st stk (tail_text ("}" +:+ rest) (map member_text ms)) tokenObjectStart)
      as [-> ->]; try done; auto; try lia.
    + apply tail_delimited. simpl. auto.
    + destruct (object_tail ms n depth [(k, v)] [k] st stk rest) as [H1 H2]; try done; try lia.
Qed.

Lemma reads_object ms : Forall (fun m => reads_back (snd m)) ms -> reads_back (JObject ms).
Proof.
  intros Hrb depth n d st stk rest Hv Hr Hst Hn Hd. destruct Hv as (Hdepth & Hs & Hk & Hv).
  apply (decoded_all (fun m => decoded (depth + 1) (snd m))) in Hv. destruct n as [|n]; [lia|].
  cbn [Marshal] in *. fold member_text in *.
  change (map (fun m => quote (fst m) +:+ ":" +:+ Marshal (snd m)) ms) with (map member_text ms) in *.
  rewrite !length_sapp in Hn. simpl String.length in Hn.
  unfold starts_at in Hd. rewrite !sapp_assoc in Hd.
  assert (Token d = Tok (TDelim "{") (mkDecoder (join_with "," (map member_text ms) +:+ "}" +:+ rest)
    tokenObjectStart (st :: stk))) as Ht.
  { rewrite Hd. cbn [Token_go buf tokState tokStack]. autorewrite with sapp.
    cbn -[join_with Marshal member_text String.append]. by rewrite Hst. }
  cbn [decodeValue walk]. rewrite (proj2 (Z.ltb_ge _ _)) by done. rewrite Ht.
  change (is_byte 123 "{") with true. cbv iota.
  destruct (object_reads ms n depth st stk rest Hrb Hk Hv Hs) as [-> ->]; [|done].
  rewrite length_sapp. simpl. lia.
Qed.

Lemma all_read_back v : reads_back v.
Proof.
  induction v using json_nested_ind; auto using reads_null, reads_bool, reads_number, reads_string,
    reads_array, reads_object.
Qed.

(** ** [canonicalJSON] *)

(** The value of a text: what [decodeValue] reads from it, nothing after it. *)
Definition json_value (data : string) : option json :=
  match decodeValue (json_fuel data) 0 (NewDecoder data) with
  | Some (v, d) => match Token d with TokEOF => Some v | _ => None end
  | None => None
  end.

Lemma json_value_decoded data v : json_value data = Some v -> decoded 0 v.
Proof.
  unfold json_value. intros. repeat case_match; simplify_eq.
  by apply (proj1 (decode_decoded (json_fuel data)) 0 (NewDecoder data) v d).
Qed.

Lemma Marshal_value v :
  decoded 0 v -> json_value (Marshal v) = Some v /\ rejectDuplicateKeys (Marshal v) = true.
Proof.
  intros Hv. unfold json_value, rejectDuplicateKeys, json_fuel.
  destruct (Marshal_head 0 v Hv) as (c & s & E & Hc).
  destruct (all_read_back v 0 (2 * String.length (Marshal v) + 2)%nat (NewDecoder (Marshal v))
    tokenTopValue [] "") as [-> ->]; try done; [lia|].
  unfold starts_at, Token, NewDecoder. rewrite sapp_nil_r, E. by apply Token_go_value.
Qed.

Lemma canonicalJSON_ok data limit out :
  canonicalJSON data limit = Ok out <->
  0 < slen data <= limit /\ slen out <= limit /\ rejectDuplicateKeys data = true
  /\ exists v, json_value data = Some v /\ has_secret v = false /\ out = Marshal v.
Proof.
  unfold canonicalJSON, json_value, rejectSecretFields. pose proof (slen_nonneg data) as Hpos. split.
  - intros H'. repeat case_match; simplify_eq; bool_prop; try done.
    split_and!; try lia; try done. eauto.
  - intros ([Hl1 Hl2] & Hout & Hd & v & Hv & Hs & ->).
    rewrite (proj2 (Z.eqb_neq (slen data) 0)), (proj2 (Z.ltb_ge limit (slen data))), Hd by lia.
    cbn [orb negb].
    destruct (decodeValue _ _ _) as [[v' d]|]; [|done]. destruct (Token d); simplify_eq.
    rewrite Hs, (proj2 (Z.ltb_ge _ _)) by done. done.
Qed.

Lemma Marshal_nonempty v : decoded 0 v -> 0 < slen (Marshal v).
Proof.
  intros Hv. destruct (Marshal_head 0 v Hv) as (c & s & -> & _). rewrite slen_cons.
  pose proof (slen_nonneg s). lia.
Qed.

Lemma canonicalJSON_canonical data limit out :
  canonicalJSON data limit = Ok out -> canonicalJSON out limit = Ok out.
Proof.
  rewrite !canonicalJSON_ok. intros (_ & Hl & _ & v & Hv & Hs & ->).
  apply json_value_decoded in Hv. destruct (Marshal_value v Hv). pose proof (Marshal_nonempty v Hv).
  split_and!; try done; eauto.
Qed.

Lemma canonicalJSON_same_value data1 data2 limit out1 out2 :
  canonicalJSON data1 limit = Ok out1 -> canonicalJSON data2 limit = Ok out2 ->
  json_value data1 = json_value data2 <-> out1 = out2.
Proof.
  rewrite !canonicalJSON_ok. intros (_ & _ & _ & v1 & H1 & _ & ->) (_ & _ & _ & v2 & H2 & _ & ->).
  split; [congruence|]. intros E. rewrite H1, H2. f_equal.
  apply json_value_decoded, Marshal_value in H1 as [H1 _]. apply json_value_decoded, Marshal_value in H2 as [H2 _].
  congruence.
Qed.

(** C36. canonicalJSON accepts its own output, returns it unchanged, and the output decodes to
    the same value as the input; two accepted payloads have the same canonical form exactly when
    they decode to the same JSON value, so the content hash does not depend on spacing, escapes
    or key order. *)
Theorem canonicalJSON_idempotent data limit out :
  canonicalJSON data limit = Ok out ->
  canonicalJSON out limit = Ok out /\ json_value out = json_value data
  /\ forall data' out', canonicalJSON data' limit = Ok out' ->
       (json_value data = json_value data' <-> out = out').
Proof.
  intros H. split_and!; [by eapply canonicalJSON_canonical| |by intros *; apply canonicalJSON_same_value].
  apply canonicalJSON_ok in H as (_ & _ & _ & v & Hv & _ & ->). rewrite Hv.
  apply json_value_decoded in Hv. by apply Marshal_value.
Qed.

(** ** The fuel is never exhausted *)

Abbreviation blen d := (String.length (buf d)).

Lemma skip_ws_length s : (String.length (skip_ws s) <= String.length s)%nat.
Proof. induction s as [|c s IH]; simpl; [done|]. case_match; simpl; lia. Qed.

Lemma sdrop_length n s : (String.length (sdrop n s) <= String.length s)%nat.
Proof. revert s. induction n as [|n IH]; intros [|c s]; simpl; try lia. specialize (IH s). lia. Qed.

Lemma hex4_length s v r : hex4 s = Some (v, r) -> (String.length r < String.length s)%nat.
Proof.
  unfold hex4. do 4 (destruct s as [|? s]; [done|]). intros H.
  repeat (apply bind_Some in H as (? & _ & H)). simplify_eq. simpl. lia.
Qed.

Lemma unquote_length n s v r : unquote n s = Some (v, r) -> (String.length r < String.length s)%nat.
Proof.
  revert s v r. induction n as [|n IH]; intros s v r H; [by destruct s|].
  destruct s as [|c s']; [done|]. cbn [unquote] in H.
  repeat match type of H with
  | context [if ?b then _ else _] => destruct b eqn:?; simplify_eq; simpl; try lia
  end.
  - destruct s' as [|e s'']; [done|]. destruct (is_byte 117 e).
    + apply bind_Some in H as ([r0 rest] & H4 & H). destruct (unicode_escape r0 rest) as [out rest'] eqn:Hu.
      apply bind_Some in H as ([tl rest''] & Ht & H). simplify_eq. apply IH in Ht. apply hex4_length in H4.
      assert (String.length rest' <= String.length rest)%nat.
      { unfold unicode_escape in Hu. repeat case_match; simplify_eq; simpl; try lia.
        match goal with H : hex4 _ = Some _ |- _ => apply hex4_length in H end. lia. }
      simpl. lia.
    + apply bind_Some in H as (b & Hb & H). apply bind_Some in H as ([tl rest] & Ht & H). simplify_eq.
      apply IH in Ht. simpl. lia.
  - destruct (decode_rune (String c s')) as [[r0 w]|] eqn:Hd.
    + apply bind_Some in H as ([tl rest] & Ht & H). simplify_eq. apply IH in Ht.
      pose proof (sdrop_length w (String c s')). simpl in *. lia.
    + apply bind_Some in H as ([tl rest] & Ht & H). simplify_eq. apply IH in Ht. lia.
Qed.

Lemma strip_prefix_length p s r :
  strip_prefix p s = Some r -> String.length s = (String.length p + String.length r)%nat.
Proof. rewrite strip_prefix_Some. intros ->. apply length_sapp. Qed.

Lemma span_digits_length s a b : span_digits s = (a, b) -> (String.length b <= String.length s)%nat.
Proof. intros (_ & _ & ->)%span_digits_spec. rewrite length_sapp. lia. Qed.

Lemma lex_number_length s l r : lex_number s = Some (l, r) -> (String.length r < String.length s)%nat.
Proof.
  unfold lex_number. destruct (lex_sign s) as [sg s0] eqn:Hs. intros H.
  apply bind_Some in H as ([i s1] & Hi & H). apply bind_Some in H as ([f s2] & Hf & H).
  apply bind_Some in H as ([e s3] & He & H). simplify_eq.
  assert (String.length s0 <= String.length s)%nat by
    (unfold lex_sign in Hs; repeat case_match; simplify_eq; simpl; lia).
  assert (String.length s1 < String.length s0)%nat.
  { unfold lex_int in Hi. repeat case_match; simplify_eq; simpl; try lia.
    match goal with H : span_digits _ = _ |- _ => apply span_digits_length in H end. lia. }
  assert (String.length s2 <= String.length s1)%nat.
  { unfold lex_frac in Hf. repeat case_match; simplify_eq; simpl; try lia.
    match goal with H : span_digits _ = _ |- _ => apply span_digits_length in H end. lia. }
  assert (String.length r <= String.length s2)%nat; [|lia].
  unfold lex_exp in He. destruct s2 as [|c s2]; [by simplify_eq|].
  destruct (is_byte 101 c || is_byte 69 c); [|by simplify_eq].
  set (p := match s2 with EmptyString => _ | String d s'' => _ end) in He.
  assert (String.length (snd p) <= String.length s2)%nat
    by (clear He; unfold p; destruct s2; [done|]; case_match; simpl; lia).
  destruct p as [sg' s4]. destruct (span_digits s4) as [a b] eqn:Hsp. apply span_digits_length in Hsp.
  case_bool_decide; [done|]. simplify_eq. simpl in *. lia.
Qed.

Lemma read_scalar_length s t r : read_scalar s = Some (t, r) -> (String.length r < String.length s)%nat.
Proof.
  unfold read_scalar. destruct s as [|c s]; [done|]. intros H.
  repeat match type of H with context [if ?b then _ else _] => destruct b end;
    apply bind_Some in H as (x & Hx & H); try destruct x; simplify_eq.
  all: try (apply strip_prefix_length in Hx; simpl in *; lia).
  - apply unquote_length in Hx. simpl. lia.
  - by apply lex_number_length in Hx.
Qed.

(** Every token takes at least one byte. *)
Lemma Token_length d t d' : Token d = Tok t d' -> (blen d' < blen d)%nat.
Proof.
  unfold Token. generalize 2%nat. intros n. revert d. induction n as [|n IH]; intros d H; [done|].
  cbn [Token_go] in H. pose proof (skip_ws_length (buf d)) as Hw.
  destruct (skip_ws (buf d)) as [|c s] eqn:Hs; [done|]. simpl in Hw.
  repeat match type of H with context [if ?b then _ else _] => destruct b end;
    repeat case_match; simplify_eq; simpl; try lia.
  all: try (match goal with H : Token_go _ _ = _ |- _ => apply IH in H; simpl in H; lia end).
  - match goal with H : read_string _ = _ |- _ => apply unquote_length in H end. lia.
  - match goal with H : read_scalar _ = _ |- _ => apply read_scalar_length in H end. simpl in *. lia.
Qed.

Lemma walk_length n :
  (forall depth d d', walk n depth d = Some d' -> (blen d' < blen d)%nat)
  /\ (forall depth seen d d', walk_object n depth seen d = Some d' -> (blen d' < blen d)%nat)
  /\ (forall depth d d', walk_array n depth d = Some d' -> (blen d' < blen d)%nat).
Proof.
  induction n as [|n (IHv & IHo & IHa)]; [done|]. split_and!.
  - intros depth d d' H. cbn [walk] in H. repeat case_match; simplify_eq;
      match goal with H : Token _ = _ |- _ => apply Token_length in H end; try done;
      try (apply IHo in H; lia); try (apply IHa in H; lia).
  - intros depth seen d d' H. cbn [walk_object] in H. repeat case_match; simplify_eq;
      match goal with H : Token _ = _ |- _ => apply Token_length in H end; try done.
    match goal with H : walk _ _ _ = _ |- _ => apply IHv in H end. apply IHo in H. lia.
  - intros depth d d' H. cbn [walk_array] in H. repeat case_match; simplify_eq.
    + match goal with H : walk _ _ _ = _ |- _ => apply IHv in H end. apply IHa in H. lia.
    + by match goal with H : Token _ = _ |- _ => apply Token_length in H end.
Qed.

(** ** Termination

    The runs of the two recursions without fuel, errors included: a result is
    derivable exactly when the recursion ends with it.  A loop that makes no
    progress has no finite derivation. *)

Definition no_token (d : decoder) : Prop := forall t d1, Token d <> Tok t d1.
Definition no_key (d : decoder) : Prop := forall key d1, Token d <> Tok (TString key) d1.
Definition closing (d : decoder) : option decoder :=
  match Token d with Tok _ d1 => Some d1 | _ => None end.

Inductive walks : Z -> decoder -> option decoder -> Prop :=
| walks_deep depth d : (MaxJSONDepth <? depth) = true -> walks depth d None
| walks_error depth d : (MaxJSONDepth <? depth) = false -> no_token d -> walks depth d None
| walks_object depth d c d1 r :
    (MaxJSONDepth <? depth) = false -> Token d = Tok (TDelim c) d1 -> is_byte 123 c = true ->
    walks_members depth [] d1 r -> walks depth d r
| walks_array depth d c d1 r :
    (MaxJSONDepth <? depth) = false -> Token d = Tok (TDelim c) d1 -> is_byte 123 c = false ->
    is_byte 91 c = true -> walks_elements depth d1 r -> walks depth d r
| walks_delim depth d c d1 :
    (MaxJSONDepth <? depth) = false -> Token d = Tok (TDelim c) d1 -> is_byte 123 c = false ->
    is_byte 91 c = false -> walks depth d None
| walks_scalar depth d t d1 :
    (MaxJSONDepth <? depth) = false -> Token d = Tok t d1 -> (forall c, t <> TDelim c) ->
    walks depth d (Some d1)
with walks_members : Z -> list string -> decoder -> option decoder -> Prop :=
| members_end depth seen d : More d = false -> walks_members depth seen d (closing d)
| members_no_key depth seen d : More d = true -> no_key d -> walks_members depth seen d None
| members_duplicate depth seen d key d1 :
    More d = true -> Token d = Tok (TString key) d1 -> key ∈ seen -> walks_members depth seen d None
| members_error depth seen d key d1 :
    More d = true -> Token d = Tok (TString key) d1 -> key ∉ seen -> walks (depth + 1) d1 None ->
    walks_members depth seen d None
| members_next depth seen d key d1 d2 r :
    More d = true -> Token d = Tok (TString key) d1 -> key ∉ seen -> walks (depth + 1) d1 (Some d2) ->
    walks_members depth (key :: seen) d2 r -> walks_members depth seen d r
with walks_elements : Z -> decoder -> option decoder -> Prop :=
| elements_end depth d : More d = false -> walks_elements depth d (closing d)
| elements_error depth d : More d = true -> walks (depth + 1) d None -> walks_elements depth d None
| elements_next depth d d1 r :
    More d = true -> walks (depth + 1) d (Some d1) -> walks_elements depth d1 r ->
    walks_elements depth d r.

Scheme walks_mind := Minimality for walks Sort Prop
with walks_members_mind := Minimality for walks_members Sort Prop
with walks_elements_mind := Minimality for walks_elements Sort Prop.
Combined Scheme walks_all_ind from walks_mind, walks_members_mind, walks_elements_mind.

Definition scalar_token (t : token) : option json :=
  match t with
  | TString s => Some (JString s)
  | TNumber l => Some (JNumber l)
  | TBool b => Some (JBool b)
  | TNull => Some JNull
  | TDelim _ => None
  end.
Definition over_value {A B} (f : A -> B) (r : option (A * decoder)) : option (B * decoder) :=
  match r with Some (x, d) => Some (f x, d) | None => None end.

Inductive decodes : Z -> decoder -> option (json * decoder) -> Prop :=
| decodes_deep depth d : (MaxJSONDepth <? depth) = true -> decodes depth d None
| decodes_error depth d : (MaxJSONDepth <? depth) = false -> no_token d -> decodes depth d None
| decodes_object depth d c d1 r :
    (MaxJSONDepth <? depth) = false -> Token d = Tok (TDelim c) d1 -> is_byte 123 c = true ->
    decodes_members depth [] d1 r -> decodes depth d (over_value JObject r)
| decodes_array depth d c d1 r :
    (MaxJSONDepth <? depth) = false -> Token d = Tok (TDelim c) d1 -> is_byte 123 c = false ->
    is_byte 91 c = true -> decodes_elements depth d1 r -> decodes depth d (over_value JArray r)
| decodes_delim depth d c d1 :
    (MaxJSONDepth <? depth) = false -> Token d = Tok (TDelim c) d1 -> is_byte 123 c = false ->
    is_byte 91 c = false -> decodes depth d None
| decodes_scalar depth d t d1 v :
    (MaxJSONDepth <? depth) = false -> Token d = Tok t d1 -> scalar_token t = Some v ->
    decodes depth d (Some (v, d1))
with decodes_members : Z -> list (string * json) -> decoder
    -> option (list (string * json) * decoder) -> Prop :=
| decodes_members_end depth o d :
    More d = false -> decodes_members depth o d (option_map (pair o) (closing d))
| decodes_members_no_key depth o d : More d = true -> no_key d -> decodes_members depth o d None
| decodes_members_error depth o d key d1 :
    More d = true -> Token d = Tok (TString key) d1 -> decodes (depth + 1) d1 None ->
    decodes_members depth o d None
| decodes_members_next depth o d key d1 v d2 r :
    More d = true -> Token d = Tok (TString key) d1 -> decodes (depth + 1) d1 (Some (v, d2)) ->
    decodes_members depth (map_set key v o) d2 r -> decodes_members depth o d r
with decodes_elements : Z -> decoder -> option (list json * decoder) -> Prop :=
| decodes_elements_end depth d :
    More d = false -> decodes_elements depth d (option_map (pair []) (closing d))
| decodes_elements_error depth d :
    More d = true -> decodes (depth + 1) d None -> decodes_elements depth d None
| decodes_elements_next depth d v d1 r :
    More d = true -> decodes (depth + 1) d (Some (v, d1)) -> decodes_elements depth d1 r ->
    decodes_elements depth d (over_value (cons v) r).

Scheme decodes_mind := Minimality for decodes Sort Prop
with decodes_members_mind := Minimality for decodes_members Sort Prop
with decodes_elements_mind := Minimality for decodes_elements Sort Prop.
Combined Scheme decodes_all_ind from decodes_mind, decodes_members_mind, decodes_elements_mind.

(** With more fuel than twice the bytes that are left, the function's result is
    a run. *)
Lemma walk_runs n :
  (forall depth d, (2 * blen d + 1 <= n)%nat -> walks depth d (walk n depth d))
  /\ (forall depth seen d, (2 * blen d + 1 <= n)%nat ->
        walks_members depth seen d (walk_object n depth seen d))
  /\ (forall depth d, (2 * blen d + 2 <= n)%nat -> walks_elements depth d (walk_array n depth d)).
Proof.
  induction n as [|n (IHv & IHo & IHa)]; [split_and!; lia|]. split_and!.
  - intros depth d Hn. cbn [walk]. destruct (MaxJSONDepth <? depth) eqn:Hd; [by apply walks_deep|].
    destruct (Token d) as [t d1| |] eqn:Ht; [|apply walks_error; [done|intros ? ?; congruence]..].
    pose proof (Token_length _ _ _ Ht).
    destruct t; try (by eapply walks_scalar). destruct (is_byte 123 _) eqn:H1.
    { eapply walks_object; [done..|]. apply IHo. lia. }
    destruct (is_byte 91 _) eqn:H2; [|by eapply walks_delim].
    eapply walks_array; [done..|]. apply IHa. lia.
  - intros depth seen d Hn. cbn [walk_object].
    destruct (More d) eqn:Hm; [|by apply (members_end depth seen d)].
    destruct (Token d) as [t d1| |] eqn:Ht; [|apply members_no_key; [done|intros ? ?; congruence]..].
    pose proof (Token_length _ _ _ Ht).
    destruct t; try (apply members_no_key; [done|intros ? ?; congruence]).
    case_bool_decide; [by eapply members_duplicate|].
    pose proof (IHv (depth + 1) d1 ltac:(lia)) as Hv.
    destruct (walk n (depth + 1) d1) as [d2|] eqn:Hw; [|by eapply members_error].
    apply (proj1 (walk_length n)) in Hw. eapply members_next; [done..|]. apply IHo. lia.
  - intros depth d Hn. cbn [walk_array].
    destruct (More d) eqn:Hm; [|by apply (elements_end depth d)].
    pose proof (IHv (depth + 1) d ltac:(lia)) as Hv.
    destruct (walk n (depth + 1) d) as [d2|] eqn:Hw; [|by apply elements_error].
    apply (proj1 (walk_length n)) in Hw. eapply elements_next; [done..|]. apply IHa. lia.
Qed.

(** Every run is the function's result from some fuel on, so a run has one
    result. *)
Definition from_fuel {A} (f : nat -> A) (r : A) : Prop := exists n, forall m, (n <= m)%nat -> f m = r.

Lemma from_fuel_unique {A} (f : nat -> A) r r' : from_fuel f r -> from_fuel f r' -> r = r'.
Proof. intros [n Hn] [n' Hn']. rewrite <- (Hn (max n n')), <- (Hn' (max n n')) by lia. done. Qed.

Lemma from_fuel_now {A} (f : nat -> A) r : (forall m, f (S m) = r) -> from_fuel f r.
Proof. intros H. exists 1%nat. intros [|m] Hm; [lia|apply H]. Qed.
Lemma from_fuel_next {A B} (f : nat -> A) (g : nat -> B) r x :
  from_fuel g x -> (forall m, g m = x -> f (S m) = r) -> from_fuel f r.
Proof. intros [n Hn] H. exists (S n). intros [|m] Hm; [lia|]. apply H, Hn. lia. Qed.
Lemma from_fuel_both {A B} (f : nat -> A) (g : nat -> B) r x :
  from_fuel f r -> from_fuel g x -> from_fuel (fun m => (f m, g m)) (r, x).
Proof. intros [n Hn] [n' Hn']. exists (max n n'). intros m Hm. by rewrite Hn, Hn' by lia. Qed.

Ltac runs_step :=
  repeat match goal with
  | H : (MaxJSONDepth <? _) = _ |- _ => rewrite H
  | H : More _ = _ |- _ => rewrite H
  | H : Token ?d = Tok _ _ |- context [Token ?d] => rewrite H
  | H : is_byte _ _ = _ |- _ => rewrite H
  end.

Lemma no_token_cases d {A} (f : token -> decoder -> A) (x : A) :
  no_token d -> match Token d with Tok t d1 => f t d1 | _ => x end = x.
Proof. intros H. destruct (Token d) as [t d1| |] eqn:E; [|done..]. by destruct (H t d1). Qed.

Lemma walks_walk :
  (forall depth d r, walks depth d r -> from_fuel (fun n => walk n depth d) r)
  /\ (forall depth seen d r, walks_members depth seen d r -> from_fuel (fun n => walk_object n depth seen d) r)
  /\ (forall depth d r, walks_elements depth d r -> from_fuel (fun n => walk_array n depth d) r).
Proof.
  apply walks_all_ind; intros.
  - apply from_fuel_now. intros m. cbn [walk]. by runs_step.
  - apply from_fuel_now. intros m. cbn [walk]. runs_step. by apply (no_token_cases d (fun t d1 => _)).
  - eapply from_fuel_next; [done|]. intros m Hm. cbn [walk]. by runs_step.
  - eapply from_fuel_next; [done|]. intros m Hm. cbn [walk]. by runs_step.
  - apply from_fuel_now. intros m. cbn [walk]. by runs_step.
  - apply from_fuel_now. intros m. cbn [walk]. runs_step. destruct t; try done. by edestruct H1.
  - apply from_fuel_now. intros m. cbn [walk_object]. by runs_step.
  - apply from_fuel_now. intros m. cbn [walk_object]. runs_step.
    destruct (Token d) as [t d1| |] eqn:E; [|done..]. destruct t; try done. by edestruct H0.
  - apply from_fuel_now. intros m. cbn [walk_object]. runs_step. by rewrite bool_decide_true.
  - eapply from_fuel_next; [done|]. intros m Hm. cbn [walk_object]. runs_step.
    by rewrite bool_decide_false, Hm.
  - eapply from_fuel_next; [eapply from_fuel_both; [exact H3|exact H5]|]. intros m [= Hm Hm'].
    cbn [walk_object]. runs_step. by rewrite bool_decide_false, Hm.
  - apply from_fuel_now. intros m. cbn [walk_array]. by runs_step.
  - eapply from_fuel_next; [done|]. intros m Hm. cbn [walk_array]. runs_step. by rewrite Hm.
  - eapply from_fuel_next; [eapply from_fuel_both; [exact H1|exact H3]|]. intros m [= Hm Hm'].
    cbn [walk_array]. runs_step. by rewrite Hm.
Qed.

Lemma decode_length n :
  (forall depth d v d', decodeValue n depth d = Some (v, d') -> (blen d' < blen d)%nat)
  /\ (forall depth o d v d', decodeMembers n depth o d = Some (v, d') -> (blen d' < blen d)%nat)
  /\ (forall depth d v d', decodeElements n depth d = Some (v, d') -> (blen d' < blen d)%nat).
Proof.
  induction n as [|n (IHv & IHo & IHa)]; [done|]. split_and!.
  - intros depth d v d' H. cbn [decodeValue] in H. repeat case_match; simplify_eq;
      match goal with H : Token _ = _ |- _ => apply Token_length in H end; try done;
      match goal with
      | H : decodeMembers _ _ _ _ = _ |- _ => apply IHo in H
      | H : decodeElements _ _ _ = _ |- _ => apply IHa in H end; lia.
  - intros depth o d v d' H. cbn [decodeMembers] in H. repeat case_match; simplify_eq;
      match goal with H : Token _ = _ |- _ => apply Token_length in H end; try done.
    match goal with H : decodeValue _ _ _ = _ |- _ => apply IHv in H end. apply IHo in H. lia.
  - intros depth d v d' H. cbn [decodeElements] in H. repeat case_match; simplify_eq.
    + match goal with H : decodeValue _ _ _ = _ |- _ => apply IHv in H end.
      match goal with H : decodeElements _ _ _ = _ |- _ => apply IHa in H end. lia.
    + by match goal with H : Token _ = _ |- _ => apply Token_length in H end.
Qed.

Lemma decode_runs n :
  (forall depth d, (2 * blen d + 1 <= n)%nat -> decodes depth d (decodeValue n depth d))
  /\ (forall depth o d, (2 * blen d + 1 <= n)%nat ->
        decodes_members depth o d (decodeMembers n depth o d))
  /\ (forall depth d, (2 * blen d + 2 <= n)%nat -> decodes_elements depth d (decodeElements n depth d)).
Proof.
  induction n as [|n (IHv & IHo & IHa)]; [split_and!; lia|]. split_and!.
  - intros depth d Hn. cbn [decodeValue]. destruct (MaxJSONDepth <? depth) eqn:Hd; [by apply decodes_deep|].
    destruct (Token d) as [t d1| |] eqn:Ht; [|apply decodes_error; [done|intros ? ?; congruence]..].
    pose proof (Token_length _ _ _ Ht).
    destruct t; try (by eapply decodes_scalar). destruct (is_byte 123 _) eqn:H1.
    { eapply decodes_object; [done..|]. apply IHo. lia. }
    destruct (is_byte 91 _) eqn:H2; [|by eapply decodes_delim].
    eapply decodes_array; [done..|]. apply IHa. lia.
  - intros depth o d Hn. cbn [decodeMembers]. destruct (More d) eqn:Hm.
    2: { pose proof (decodes_members_end depth o d Hm) as H. unfold closing in H. by destruct (Token d). }
    destruct (Token d) as [t d1| |] eqn:Ht; [|apply decodes_members_no_key; [done|intros ? ?; congruence]..].
    pose proof (Token_length _ _ _ Ht).
    destruct t; try (apply decodes_members_no_key; [done|intros ? ?; congruence]).
    pose proof (IHv (depth + 1) d1 ltac:(lia)) as Hv.
    destruct (decodeValue n (depth + 1) d1) as [[v d2]|] eqn:Hw; [|by eapply decodes_members_error].
    apply (proj1 (decode_length n)) in Hw. eapply decodes_members_next; [done..|]. apply IHo. lia.
  - intros depth d Hn. cbn [decodeElements]. destruct (More d) eqn:Hm.
    2: { pose proof (decodes_elements_end depth d Hm) as H. unfold closing in H. by destruct (Token d). }
    pose proof (IHv (depth + 1) d ltac:(lia)) as Hv.
    destruct (decodeValue n (depth + 1) d) as [[v d2]|] eqn:Hw; [|by apply decodes_elements_error].
    apply (proj1 (decode_length n)) in Hw. eapply decodes_elements_next; [done..|]. apply IHa. lia.
Qed.

Lemma decodes_decode :
  (forall depth d r, decodes depth d r -> from_fuel (fun n => decodeValue n depth d) r)
  /\ (forall depth o d r, decodes_members depth o d r -> from_fuel (fun n => decodeMembers n depth o d) r)
  /\ (forall depth d r, decodes_elements depth d r -> from_fuel (fun n => decodeElements n depth d) r).
Proof.
  apply decodes_all_ind; intros.
  - apply from_fuel_now. intros m. cbn [decodeValue]. by runs_step.
  - apply from_fuel_now. intros m. cbn [decodeValue]. runs_step. by apply (no_token_cases d (fun t d1 => _)).
  - eapply from_fuel_next; [done|]. intros m Hm. cbn [decodeValue]. runs_step. by rewrite Hm.
  - eapply from_fuel_next; [done|]. intros m Hm. cbn [decodeValue]. runs_step. by rewrite Hm.
  - apply from_fuel_now. intros m. cbn [decodeValue]. by runs_step.
  - apply from_fuel_now. intros m. cbn [decodeValue]. runs_step. by destruct t; simplify_eq/=.
  - apply from_fuel_now. intros m. cbn [decodeMembers]. runs_step. unfold closing. by destruct (Token d).
  - apply from_fuel_now. intros m. cbn [decodeMembers]. runs_step.
    destruct (Token d) as [t d1| |] eqn:E; [|done..]. destruct t; try done. by edestruct H0.
  - eapply from_fuel_next; [done|]. intros m Hm. cbn [decodeMembers]. runs_step. by rewrite Hm.
  - eapply from_fuel_next; [eapply from_fuel_both; [exact H2|exact H4]|]. intros m [= Hm Hm'].
    cbn [decodeMembers]. runs_step. by rewrite Hm.
  - apply from_fuel_now. intros m. cbn [decodeElements]. runs_step. unfold closing. by destruct (Token d).
  - eapply from_fuel_next; [done|]. intros m Hm. cbn [decodeElements]. runs_step. by rewrite Hm.
  - eapply from_fuel_next; [eapply from_fuel_both; [exact H1|exact H3]|]. intros m [= Hm Hm'].
    cbn [decodeElements]. runs_step. by rewrite Hm, Hm'.
Qed.

(** The recursion [f] ends with the one result [r] that [runs] derives, and fuel
    [enough] computes it. *)
Definition ends_with {A} (runs : A -> Prop) (f : nat -> A) (enough : nat) (r : A) : Prop :=
  runs r /\ (forall r', runs r' -> r' = r) /\ forall fuel, (enough <= fuel)%nat -> f fuel = r.

Lemma ends_with_intro {A} (runs : A -> Prop) f enough :
  (forall r, runs r -> from_fuel f r) -> (forall fuel, (enough <= fuel)%nat -> runs (f fuel)) ->
  ends_with runs f enough (f enough).
Proof.
  intros Hdet Hrun. pose proof (Hrun enough (le_n _)) as H0. split; [done|]. split.
  - intros r' Hr. exact (from_fuel_unique f _ _ (Hdet _ Hr) (Hdet _ H0)).
  - intros fuel Hf. exact (from_fuel_unique f _ _ (Hdet _ (Hrun fuel Hf)) (Hdet _ H0)).
Qed.

(** C37. The duplicate-key walk and decodeValue end on every text: described without fuel, as
    finite runs over the decoder's tokens, each has exactly one run on every text, an error or a
    value, and with the fuel that the definitions use, or any more, the functions return the
    result of that run. *)
Theorem json_decoding_terminates data :
  let d := NewDecoder data in
  ends_with (walks 0 d) (fun n => walk n 0 d) (json_fuel data) (walk (json_fuel data) 0 d)
  /\ ends_with (decodes 0 d) (fun n => decodeValue n 0 d) (json_fuel data) (decodeValue (json_fuel data) 0 d).
Proof.
  intros d. unfold json_fuel. split;
    [apply (ends_with_intro (walks 0 d) (fun n => walk n 0 d))
    |apply (ends_with_intro (decodes 0 d) (fun n => decodeValue n 0 d))].
  - apply (proj1 walks_walk).
  - intros fuel Hf. apply (proj1 (walk_runs fuel)). simpl. lia.
  - apply (proj1 decodes_decode).
  - intros fuel Hf. apply (proj1 (decode_runs fuel)). simpl. lia.
Qed.
