(* ===== verification/Identifiers.v ===== *)
(** * Identifiers, credentials references, proofs and negotiation

    The leaf validators of src/internal/connectorprotocol/protocol.go: the
    identifier patterns, credential references, signed proofs, identity keys,
    capabilities and protocol versions. *)

From S2P Require Import Prelude GoText GoHash GoUrl Errors.

Definition ProtocolName : string := "paperboat.connector".
Definition ProtocolVersion : string := "1.0".

Definition MaxSnapshotBytes : Z := Z.shiftl 4 20.
Definition MaxFrameBytes : Z := MaxSnapshotBytes + Z.shiftl 64 10.
Definition MaxDeltaBytes : Z := Z.shiftl 1 20.
Definition MaxCapabilities : Z := 64.
Definition MaxCapabilityBytes : Z := 128.
Definition MaxIdentifierBytes : Z := 128.
Definition MaxCredentialRef : Z := 512.
Definition MaxProofBytes : Z := Z.shiftl 16 10.
Definition MaxNonceBytes : Z := 128.
Definition MaxReasonMessage : Z := 512.
Definition MaxClockSkew : duration := 2 * Minute.
Definition DefaultLease : duration := 45 * Second.
Definition DefaultHeartbeat : duration := 5 * Second.
Definition DefaultApplyTimeout : duration := 15 * Second.
Definition DefaultAbortTimeout : duration := 5 * Second.
Definition MaxLease : duration := 24 * Hour.
Definition MaxActiveStreams : Z := Z.shiftl 1 20.

(** ** Patterns

    The regular expressions are anchored and their classes are ASCII, so they
    are predicates on the bytes. *)
Definition one_of (set : string) (c : ascii) : bool := any_byte (fun d => c == d) set.

(** [^[A-Za-z0-9][A-Za-z0-9._:-]{0,127}$] *)
Definition identifierPattern (s : string) : bool :=
  match s with
  | String c r => is_alnum c && (slen r <=? 127)
                  && all_bytes (fun d => is_alnum d || one_of "._:-" d) r
  | EmptyString => false
  end.

(** [^[a-z][a-z0-9_.-]{1,127}$] *)
Definition capabilityPattern (s : string) : bool :=
  match s with
  | String c r => is_lower c && (1 <=? slen r) && (slen r <=? 127)
                  && all_bytes (fun d => is_lower d || is_digit d || one_of "_.-" d) r
  | EmptyString => false
  end.

(** [^[0-9]+\.[0-9]+$] *)
Definition versionPattern (s : string) : bool :=
  match Split s "." with [a; b] => is_digits a && is_digits b | _ => false end.

(** [^sha256:[0-9a-f]{64}$] *)
Definition hashPattern (s : string) : bool :=
  match strip_prefix "sha256:" s with
  | Some h => (slen h =? 64) && all_bytes is_hex_lower h
  | None => false
  end.

(** [^[A-Za-z0-9_-]{43}$] and [^ed25519:[A-Za-z0-9_-]{43}$] *)
Definition identityThumbprintPattern (s : string) : bool :=
  (slen s =? 43) && all_bytes (fun d => is_alnum d || one_of "_-" d) s.
Definition identityKeyIDPattern (s : string) : bool :=
  match strip_prefix "ed25519:" s with
  | Some t => identityThumbprintPattern t
  | None => false
  end.

(** ** Validators *)

Definition crlf : string := String (byte_of 13) (String (byte_of 10) "").

Definition ValidateIdentifier (value : string) : option goerror :=
  if negb (identifierPattern value) || (MaxIdentifierBytes <? slen value)
  then Some ErrInvalidInput else None.

Definition credential_schemes : list string :=
  ["keychain"; "credential-manager"; "secret-service"; "protected-file"; "tpm"].

Definition ValidateCredentialReference (value : string) : option goerror :=
  if (slen value =? 0) || (MaxCredentialRef <? slen value) || (TrimSpace value != value)
     || ContainsAny value crlf
  then Some ErrInvalidInput else
  match url_Parse value with
  | None => Some ErrInvalidInput
  | Some parsed =>
      if (Scheme parsed == "") || (Host parsed != "paperboat") || User parsed
         || (Opaque parsed != "") || (RawQuery parsed != "") || (Fragment parsed != "")
         || (Path parsed == "")
      then Some ErrInvalidInput
      else if bool_decide (Scheme parsed ∈ credential_schemes) then None
      else Some ErrInvalidInput
  end.

Definition ValidateProof (value : string) : option goerror :=
  if (slen value <? 32) || (MaxProofBytes <? slen value) || (TrimSpace value != value)
     || ContainsAny value crlf
  then Some ErrInvalidInput else None.

(** ** Detached proofs

    The signer and the verifier are the caller's: [sign] maps a payload to the
    bytes of a signature, [verify] judges a payload and a signature. *)
Definition SignProofPayload (payload : string) (sign : string -> list Z) : Res string :=
  if (slen payload =? 0) || (MaxProofBytes <? slen payload) then Err ErrInvalidInput else
  let signature := sign payload in
  if (Z.of_nat (length signature) =? 0) || (MaxProofBytes <? Z.of_nat (length signature))
  then Err ErrInvalidInput else Ok (b64_encode signature).

Definition DecodeProof (signedProof : string) : Res (list Z) :=
  if negb (ok (ValidateProof signedProof)) then Err ErrAuthenticationFailed else
  match b64_decode signedProof with
  | None => Err ErrAuthenticationFailed
  | Some signature =>
      if (Z.of_nat (length signature) =? 0) || (MaxProofBytes <? Z.of_nat (length signature))
      then Err ErrAuthenticationFailed else Ok signature
  end.

Definition VerifyProofPayload (payload signedProof : string)
    (verify : string -> list Z -> bool) : option goerror :=
  if slen payload =? 0 then Some ErrAuthenticationFailed else
  match DecodeProof signedProof with
  | Err _ => Some ErrAuthenticationFailed
  | Ok signature => if verify payload signature then None else Some ErrAuthenticationFailed
  end.

(** ** Identity keys *)
Definition ValidateIdentityKey (keyID thumbprint : string) : option goerror :=
  if negb (identityKeyIDPattern keyID) || negb (identityThumbprintPattern thumbprint)
     || (sdrop 8 keyID != thumbprint)
  then Some ErrInvalidInput else None.

(** The RFC 7638 thumbprint of a 32-byte Ed25519 public key. *)
Definition canonical_jwk (publicKey : list Z) : string :=
  let q := String (byte_of 34) "" in
  "{" +:+ q +:+ "crv" +:+ q +:+ ":" +:+ q +:+ "Ed25519" +:+ q +:+ "," +:+ q +:+ "kty" +:+ q +:+ ":"
  +:+ q +:+ "OKP" +:+ q +:+ "," +:+ q +:+ "x" +:+ q +:+ ":" +:+ q +:+ b64_encode publicKey
  +:+ q +:+ "}".
Definition IdentityThumbprint (publicKey : list Z) : Res string :=
  if negb (Z.of_nat (length publicKey) =? 32) then Err ErrInvalidInput
  else Ok (b64_encode (Sum256 (canonical_jwk publicKey))).
Definition IdentityKeyID (publicKey : list Z) : Res string :=
  match IdentityThumbprint publicKey with
  | Err e => Err e
  | Ok thumbprint => Ok ("ed25519:" +:+ thumbprint)
  end.

(** ** Capabilities *)
Definition CapabilitySnapshot : string := "config.snapshot.v1".
Definition CapabilityDelta : string := "config.delta.v1".
Definition CapabilityAck : string := "config.ack.v1".
Definition CapabilityHeartbeat : string := "session.heartbeat.v1".
Definition CapabilityRenewal : string := "auth.renew.v1".
Definition CapabilityDrain : string := "connector.drain.v1".
Definition CapabilityCredentialRotation : string := "credential.rotate.v1".

Definition requiredCapabilities : list string :=
  [CapabilitySnapshot; CapabilityDelta; CapabilityAck; CapabilityHeartbeat; CapabilityRenewal].
Definition ProductionCapabilities : list string :=
  requiredCapabilities ++ [CapabilityDrain; CapabilityCredentialRotation].

(** The loop that fills [seen]; [None] when a value is malformed or repeated. *)
Fixpoint collect_capabilities (seen : list string) (values : list string) : option (list string) :=
  match values with
  | [] => Some seen
  | value :: values' =>
      if (MaxCapabilityBytes <? slen value) || negb (capabilityPattern value) then None
      else if bool_decide (value ∈ seen) then None
      else collect_capabilities (value :: seen) values'
  end.

(** Go ranges over the required set in an unspecified order; every missing
    name gives the same code, and the error names the first missing one in the
    order of [requiredCapabilities]. *)
Definition ValidateCapabilities (values : list string) : option goerror :=
  if (Z.of_nat (length values) =? 0) || (MaxCapabilities <? Z.of_nat (length values))
  then Some ErrCapabilityMissing else
  match collect_capabilities [] values with
  | None => Some ErrInvalidInput
  | Some seen =>
      match List.find (fun required => negb (bool_decide (required ∈ seen))) requiredCapabilities with
      | Some required =>
          Some (codeError ErrCapabilityMissing ReasonCapabilityMissing false
                  (Some (OtherError ("missing capability " +:+ required))))
      | None => None
      end
  end.

Definition NegotiateCapabilities (offered supported : list string) : Res (list string) :=
  match ValidateCapabilities offered with
  | Some err => Err err
  | None =>
      match ValidateCapabilities supported with
      | Some err => Err err
      | None =>
          let selected := List.filter (fun value => bool_decide (value ∈ supported)) offered in
          match ValidateCapabilities selected with
          | Some err => Err (codeError ErrCapabilityMissing ReasonCapabilityMissing false (Some err))
          | None => Ok selected
          end
      end
  end.

Definition hasCapability (values : list string) (capability : string) : bool :=
  existsb (fun value => value == capability) values.

(** ** Versions *)
Definition parseVersion (value : string) : option (Z * Z) :=
  match Split value "." with
  | [p0; p1] =>
      if (p0 == "") || (p1 == "") then None else
      match Atoi p0, Atoi p1 with
      | Some major, Some minor =>
          if (major <? 0) || (minor <? 0) || (Itoa major != p0) || (Itoa minor != p1)
          then None else Some (major, minor)
      | _, _ => None
      end
  | _ => None
  end.

Definition incompatible (why : string) : goerror :=
  codeError ErrProtocolIncompatible ReasonProtocolMismatch false (Some (OtherError why)).

Definition NegotiateVersion (minVersion maxVersion : string) : Res string :=
  if negb (versionPattern minVersion) || negb (versionPattern maxVersion)
  then Err (incompatible "invalid version range") else
  match parseVersion maxVersion, parseVersion ProtocolVersion, parseVersion minVersion with
  | Some (maxMajor, maxMinor), Some (selectedMajor, selectedMinor), Some (minMajor, minMinor) =>
      if (maxMajor <? minMajor) || (selectedMajor <? minMajor) || (maxMajor <? selectedMajor)
         || (minMajor =? selectedMajor) && (selectedMinor <? minMinor)
         || (maxMajor =? selectedMajor) && (maxMinor <? selectedMinor)
      then Err (incompatible "no compatible protocol version")
      else Ok ProtocolVersion
  | _, _, _ => Err (incompatible "invalid protocol version")
  end.
