(* ===== verification/WireConfig.v ===== *)
(** * The tunnel configuration carried by snapshots and deltas

    [wireConfigSnapshot], [wireConfigRoute] and their validation
    ([validateConfigSnapshotPayload], [validateWireConfigRoute],
    [validWireStableEndpoint], [wireHostnamePattern]) of
    src/internal/connectorprotocol/protocol.go, with the way [encoding/json]
    fills Go structs: keys match field names without regard to case, [null]
    leaves a field as it is (and clears a pointer or a slice), an unknown key
    or a value of another type is an error. *)

From S2P Require Import Prelude GoText GoHash GoUrl GoJson Errors Canonical Identifiers.

(** ** Decoding into struct fields *)

(** [foldName]: simple case folding of a key, as ASCII field names see it. *)
Definition fold_rune (r : Z) : Z :=
  if (97 <=? r) && (r <=? 122) then r - 32
  else if r =? 8490 then 75 else if r =? 383 then 83 else r.
Definition foldName (key : string) : list Z := fold_rune <$> runes key.
Definition is_field (key name : string) : bool := foldName key == foldName name.

Definition set_string (old : string) (v : json) : option string :=
  match v with JString s => Some s | JNull => Some old | _ => None end.
Definition set_bool (old : bool) (v : json) : option bool :=
  match v with JBool b => Some b | JNull => Some old | _ => None end.
Definition set_u64 (old : Z) (v : json) : option Z :=
  match v with JNumber l => ParseUint64 l | JNull => Some old | _ => None end.
Definition set_i32 (old : Z) (v : json) : option Z :=
  match v with JNumber l => ParseInt 32 l | JNull => Some old | _ => None end.
Definition set_string_ptr (v : json) : option (option string) :=
  match v with JString s => Some (Some s) | JNull => Some None | _ => None end.

(** *** [time.Time.UnmarshalJSON]: the instant of an RFC 3339 text as
    [time.Parse] accepts it (one or two hour digits, a fraction after a period
    or a comma of which nine digits count, zone offsets up to 24:60). *)
Definition two_digits (s : string) : option (Z * string) :=
  match s with
  | String a (String b r) =>
      if is_digit a && is_digit b then Some (digit_val a * 10 + digit_val b, r) else None
  | _ => None
  end.
Definition hour_digits (s : string) : option (Z * string) :=
  match s with
  | String a r =>
      if negb (is_digit a) then None else
      match r with
      | String b r' => if is_digit b then Some (digit_val a * 10 + digit_val b, r')
                       else Some (digit_val a, r)
      | EmptyString => Some (digit_val a, r)
      end
  | EmptyString => None
  end.
Definition is_leap (y : Z) : bool :=
  (y mod 4 =? 0) && (negb (y mod 100 =? 0) || (y mod 400 =? 0)).
Definition days_in (m y : Z) : Z :=
  if m =? 2 then (if is_leap y then 29 else 28)
  else if (m =? 4) || (m =? 6) || (m =? 9) || (m =? 11) then 30 else 31.
(** Days from January 1 of year 1 to the given date. *)
Definition days_before (y mo dd : Z) : Z :=
  365 * (y - 1) + (y - 1) / 4 - (y - 1) / 100 + (y - 1) / 400
  + foldr Z.add 0 ((fun m => days_in m y) <$> seqZ 1 (mo - 1)) + (dd - 1).
(** The offset in seconds of a zone at the end of the text. *)
Definition rfc3339_zone (s : string) : option Z :=
  match s with
  | String z EmptyString => if is_byte 90 z then Some 0 else None
  | String sg r =>
      if negb (is_byte 43 sg || is_byte 45 sg) then None else
      '(hh, r) ← two_digits r; r ← strip_prefix ":" r; '(mm, r) ← two_digits r;
      if (r == "") && (hh <=? 24) && (mm <=? 60)
      then Some ((if is_byte 45 sg then -1 else 1) * (hh * 60 + mm) * 60) else None
  | EmptyString => None
  end.
(** The nanoseconds of a fraction, which may be absent, and the text after it. *)
Definition rfc3339_fraction (s : string) : Z * string :=
  match s with
  | String c (String d r) =>
      if (is_byte 46 c || is_byte 44 c) && is_digit d then
        let '(ds, rest) := span_digits (String d r) in
        let nine := stake 9 ds in
        (digits_val nine 0 * 10 ^ (9 - slen nine), rest)
      else (0, s)
  | _ => (0, s)
  end.
(** The instant of a text, and the offset of the zone it is written in. *)
Definition parse_zoned (s : string) : option (time * Z) :=
  '(y1, s) ← two_digits s; '(y2, s) ← two_digits s; s ← strip_prefix "-" s;
  '(mo, s) ← two_digits s; s ← strip_prefix "-" s;
  '(dd, s) ← two_digits s; s ← strip_prefix "T" s;
  '(hh, s) ← hour_digits s; s ← strip_prefix ":" s;
  '(mi, s) ← two_digits s; s ← strip_prefix ":" s;
  '(ss, s) ← two_digits s;
  let y := y1 * 100 + y2 in
  let '(nsec, s) := rfc3339_fraction s in
  offset ← rfc3339_zone s;
  if (1 <=? mo) && (mo <=? 12) && (1 <=? dd) && (dd <=? days_in mo y)
     && (hh <? 24) && (mi <? 60) && (ss <? 60)
  then Some ((days_before y mo dd * 86400 + hh * 3600 + mi * 60 + ss - offset) * Second + nsec, offset)
  else None.
Definition parse_rfc3339 (s : string) : option time := option_map fst (parse_zoned s).
Definition rfc3339 (s : string) : bool :=
  match parse_rfc3339 s with Some _ => true | None => false end.

Definition set_time_ptr (v : json) : option (option string) :=
  match v with
  | JNull => Some None
  | JString s => if rfc3339 s then Some (Some s) else None
  | _ => None
  end.

(** ** Routes *)
Record wireConfigRoute := mkRoute {
  ID : string;
  Name : string;
  Protocol : string;
  MatchType : string;
  MatchHostname : string;
  WildcardSuffix : string;
  PathPrefix : option string;
  OriginScheme : string;
  OriginAddress : string;
  PreserveHost : bool;
  HostOverride : option string;
  TLSVerification : string;
  TLSServerName : option string;
  CAReference : option string;
  MTLSCredentialReference : option string;
  ConnectTimeoutMs : Z;
  IdleTimeoutMs : Z;
  MaxConcurrentStreams : Z;
  DesiredState : string;
}.
#[export] Instance route_settable : Settable wireConfigRoute := fun r =>
  mkRoute (ID r) (Name r) (Protocol r) (MatchType r) (MatchHostname r) (WildcardSuffix r)
    (PathPrefix r) (OriginScheme r) (OriginAddress r) (PreserveHost r) (HostOverride r)
    (TLSVerification r) (TLSServerName r) (CAReference r) (MTLSCredentialReference r)
    (ConnectTimeoutMs r) (IdleTimeoutMs r) (MaxConcurrentStreams r) (DesiredState r).
Definition zeroRoute : wireConfigRoute :=
  mkRoute "" "" "" "" "" "" None "" "" false None "" None None None 0 0 0 "".

(** One member of a route object. *)
Definition set_route_member (r : wireConfigRoute) (m : string * json) : option wireConfigRoute :=
  let '(key, v) := m in
  if is_field key "id" then x ← set_string (ID r) v; Some (r <| ID := x |>)
  else if is_field key "name" then x ← set_string (Name r) v; Some (r <| Name := x |>)
  else if is_field key "protocol" then x ← set_string (Protocol r) v; Some (r <| Protocol := x |>)
  else if is_field key "match_type" then x ← set_string (MatchType r) v; Some (r <| MatchType := x |>)
  else if is_field key "match_hostname" then
    x ← set_string (MatchHostname r) v; Some (r <| MatchHostname := x |>)
  else if is_field key "wildcard_suffix" then
    x ← set_string (WildcardSuffix r) v; Some (r <| WildcardSuffix := x |>)
  else if is_field key "path_prefix" then x ← set_string_ptr v; Some (r <| PathPrefix := x |>)
  else if is_field key "origin_scheme" then
    x ← set_string (OriginScheme r) v; Some (r <| OriginScheme := x |>)
  else if is_field key "origin_address" then
    x ← set_string (OriginAddress r) v; Some (r <| OriginAddress := x |>)
  else if is_field key "preserve_host" then
    x ← set_bool (PreserveHost r) v; Some (r <| PreserveHost := x |>)
  else if is_field key "host_override" then x ← set_string_ptr v; Some (r <| HostOverride := x |>)
  else if is_field key "tls_verification" then
    x ← set_string (TLSVerification r) v; Some (r <| TLSVerification := x |>)
  else if is_field key "tls_server_name" then
    x ← set_string_ptr v; Some (r <| TLSServerName := x |>)
  else if is_field key "ca_reference" then x ← set_string_ptr v; Some (r <| CAReference := x |>)
  else if is_field key "mtls_credential_reference" then
    x ← set_string_ptr v; Some (r <| MTLSCredentialReference := x |>)
  else if is_field key "connect_timeout_ms" then
    x ← set_i32 (ConnectTimeoutMs r) v; Some (r <| ConnectTimeoutMs := x |>)
  else if is_field key "idle_timeout_ms" then
    x ← set_i32 (IdleTimeoutMs r) v; Some (r <| IdleTimeoutMs := x |>)
  else if is_field key "max_concurrent_streams" then
    x ← set_i32 (MaxConcurrentStreams r) v; Some (r <| MaxConcurrentStreams := x |>)
  else if is_field key "desired_state" then
    x ← set_string (DesiredState r) v; Some (r <| DesiredState := x |>)
  else None.

Definition fold_members {A} (set : A -> string * json -> option A) (a : A)
    (ms : list (string * json)) : option A :=
  fold_left (fun acc m => a ← acc; set a m) ms (Some a).

Definition set_route (r : wireConfigRoute) (v : json) : option wireConfigRoute :=
  match v with
  | JNull => Some r
  | JObject ms => fold_members set_route_member r ms
  | _ => None
  end.

(** A JSON array into a slice: an element that the slice already has is
    decoded over. *)
Fixpoint set_routes (old : list wireConfigRoute) (vs : list json) : option (list wireConfigRoute) :=
  match vs with
  | [] => Some []
  | v :: vs' =>
      r ← set_route (match old with r :: _ => r | [] => zeroRoute end) v;
      rs ← set_routes (tail old) vs'; Some (r :: rs)
  end.

(** ** The snapshot document *)
Record wireConfigSnapshot := mkConfig {
  Schema : string;
  Kind : string;
  ConfigTunnelID : string;
  ConfigGeneration : Z;
  ConfigName : string;
  ConfigDesiredState : string;
  AccessMode : string;
  StableEndpoint : string;
  ExpiresAtText : option string;
  Routes : option (list wireConfigRoute);     (* [None] is the nil slice *)
}.
#[export] Instance config_settable : Settable wireConfigSnapshot := fun c =>
  mkConfig (Schema c) (Kind c) (ConfigTunnelID c) (ConfigGeneration c) (ConfigName c)
    (ConfigDesiredState c) (AccessMode c) (StableEndpoint c) (ExpiresAtText c) (Routes c).
Definition zeroConfig : wireConfigSnapshot := mkConfig "" "" "" 0 "" "" "" "" None None.

Definition set_config_member (c : wireConfigSnapshot) (m : string * json) : option wireConfigSnapshot :=
  let '(key, v) := m in
  if is_field key "schema" then x ← set_string (Schema c) v; Some (c <| Schema := x |>)
  else if is_field key "kind" then x ← set_string (Kind c) v; Some (c <| Kind := x |>)
  else if is_field key "tunnel_id" then
    x ← set_string (ConfigTunnelID c) v; Some (c <| ConfigTunnelID := x |>)
  else if is_field key "generation" then
    x ← set_u64 (ConfigGeneration c) v; Some (c <| ConfigGeneration := x |>)
  else if is_field key "name" then x ← set_string (ConfigName c) v; Some (c <| ConfigName := x |>)
  else if is_field key "desired_state" then
    x ← set_string (ConfigDesiredState c) v; Some (c <| ConfigDesiredState := x |>)
  else if is_field key "access_mode" then
    x ← set_string (AccessMode c) v; Some (c <| AccessMode := x |>)
  else if is_field key "stable_endpoint" then
    x ← set_string (StableEndpoint c) v; Some (c <| StableEndpoint := x |>)
  else if is_field key "expires_at" then
    x ← set_time_ptr v; Some (c <| ExpiresAtText := x |>)
  else if is_field key "routes" then
    match v with
    | JNull => Some (c <| Routes := None |>)
    | JArray vs => rs ← set_routes (default [] (Routes c)) vs; Some (c <| Routes := Some rs |>)
    | _ => None
    end
  else None.

(** ** Host names and endpoints *)
Definition wireHostnamePattern (value : string) : bool :=
  negb ((slen value =? 0) || (253 <? slen value)) &&
  all_bytes (fun c => is_lower c || is_digit c || one_of ".-" c) value &&
  negb (HasPrefix value "-") && negb (HasPrefix (srev value) "-").

Definition validWireStableEndpoint (value : string) : bool :=
  if (slen value <? 9) || (264 <? slen value) || (TrimSpace value != value) then false else
  match url_Parse value with
  | None => false
  | Some parsed =>
      (Scheme parsed == "https") && negb (User parsed) && (Opaque parsed == "")
      && (Path parsed == "") && (RawQuery parsed == "") && (Fragment parsed == "")
      && (Port parsed == "") && (Host parsed != "") && (Host parsed == ToLower (Host parsed))
      && wireHostnamePattern (Host parsed)
  end.

(** ** [validateWireConfigRoute] *)

Definition text_ok (max : Z) (s : string) : bool :=
  (TrimSpace s == s) && negb (slen s =? 0) && (slen s <=? max).

Definition route_protocol_ok (r : wireConfigRoute) : bool :=
  if Protocol r == "http" then OriginScheme r != "tcp"
  else if Protocol r == "tcp_private" then OriginScheme r == "tcp"
  else false.
Definition route_match_ok (r : wireConfigRoute) : bool :=
  if (MatchType r == "managed_exact") || (MatchType r == "exact") then
    (MatchHostname r != "") && (WildcardSuffix r == "") && wireHostnamePattern (MatchHostname r)
  else if MatchType r == "one_label_wildcard" then
    (MatchHostname r == "") && (WildcardSuffix r != "") && wireHostnamePattern (WildcardSuffix r)
  else if MatchType r == "catch_all" then (MatchHostname r == "") && (WildcardSuffix r == "")
  else false.
Definition opt_ok {A} (f : A -> bool) (o : option A) : bool :=
  match o with Some a => f a | None => true end.

Definition validateWireConfigRoute (r : wireConfigRoute) : option goerror :=
  if negb (ok (ValidateIdentifier (ID r))) || negb (text_ok 80 (Name r))
     || negb (text_ok 512 (OriginAddress r)) || ContainsAny (OriginAddress r) (crlf +:+ "@")
  then Some ErrInvalidInput
  else if negb (route_protocol_ok r) then Some ErrInvalidInput
  else if negb (route_match_ok r) then Some ErrInvalidInput
  else if negb (bool_decide (OriginScheme r ∈ ["http"; "https"; "h2c"; "unix"; "tcp"]))
  then Some ErrInvalidInput
  else if negb (bool_decide (TLSVerification r ∈
             ["not_applicable"; "system"; "custom_ca"; "mutual_tls"; "insecure_development"]))
  then Some ErrInvalidInput
  else if (OriginScheme r != "https") && (TLSVerification r != "not_applicable")
  then Some ErrInvalidInput
  else if negb (opt_ok (fun p => negb (slen p =? 0) && (slen p <=? 512) && HasPrefix p "/"
                                 && negb (ContainsAny p crlf)) (PathPrefix r))
  then Some ErrInvalidInput
  else if negb (opt_ok (text_ok 253) (HostOverride r)) then Some ErrInvalidInput
  else if negb (opt_ok (fun s => text_ok 253 s && negb (ContainsAny s crlf)) (TLSServerName r))
  then Some ErrInvalidInput
  else if negb (forallb (opt_ok (fun s => ok (ValidateCredentialReference s)))
                  [CAReference r; MTLSCredentialReference r])
  then Some ErrInvalidInput
  else if (ConnectTimeoutMs r <? 100) || (120000 <? ConnectTimeoutMs r)
     || (IdleTimeoutMs r <? 1000) || (3600000 <? IdleTimeoutMs r)
     || (MaxConcurrentStreams r <? 1) || (100000 <? MaxConcurrentStreams r)
     || (DesiredState r != "active") && (DesiredState r != "disabled") && (DesiredState r != "deleted")
  then Some ErrInvalidInput
  else None.

(** ** [validateConfigSnapshotPayload]

    The payload is a canonical text (both callers pass the value of
    [canonicalJSON]), so its members are in key order and have distinct keys.
    The texts of the wrapped errors are shortened to their fixed part. *)
Definition config_fields : list string :=
  ["schema"; "kind"; "tunnel_id"; "generation"; "name"; "desired_state"; "access_mode";
   "stable_endpoint"; "expires_at"; "routes"].
Definition route_fields : list string :=
  ["id"; "name"; "protocol"; "match_type"; "path_prefix"; "origin_scheme"; "origin_address";
   "preserve_host"; "host_override"; "tls_verification"; "tls_server_name"; "ca_reference";
   "mtls_credential_reference"; "connect_timeout_ms"; "idle_timeout_ms"; "max_concurrent_streams";
   "desired_state"].

Definition has_key (ms : list (string * json)) (k : string) : bool :=
  match map_get k ms with Some _ => true | None => false end.

(** The loop over the routes: presence of the required members in the raw
    object, then the route's own validation. *)
Fixpoint validate_routes (raw : list json) (routes : list wireConfigRoute) : option goerror :=
  match raw, routes with
  | JObject ms :: raw', r :: routes' =>
      match List.find (fun f => negb (has_key ms f)) route_fields with
      | Some f => Some (WrapError ("route field required: " +:+ f) ErrSnapshotRejected)
      | None =>
          match validateWireConfigRoute r with
          | Some _ => Some (WrapError "route" ErrSnapshotRejected)
          | None => validate_routes raw' routes'
          end
      end
  | [], [] => None
  | _, _ => Some ErrSnapshotRejected
  end.

Definition parse_json (payload : string) : option json :=
  match decodeValue (json_fuel payload) 0 (NewDecoder payload) with
  | Some (v, d) => match Token d with TokEOF => Some v | _ => None end
  | None => None
  end.

Definition config_ok (c : wireConfigSnapshot) (tunnelID : string) (generation : Z) : bool :=
  (Schema c == "paperboat.preview-tunnel/v1") && (Kind c == "tunnel_config_snapshot")
  && (ConfigTunnelID c == tunnelID) && (ConfigGeneration c =? generation)
  && text_ok 80 (ConfigName c)
  && bool_decide (ConfigDesiredState c ∈ ["active"; "paused"; "deleted"])
  && bool_decide (AccessMode c ∈ ["public"; "private"; "team"])
  && match Routes c with Some _ => true | None => false end
  && validWireStableEndpoint (StableEndpoint c).

Definition validateConfigSnapshotPayload (payload tunnelID : string) (generation : Z)
    : option goerror :=
  match parse_json payload with
  | Some (JObject fields) =>
      match List.find (fun f => negb (has_key fields f)) config_fields with
      | Some f => Some (WrapError ("snapshot field required: " +:+ f) ErrSnapshotRejected)
      | None =>
          match fold_members set_config_member zeroConfig fields with
          | None => Some (WrapError "snapshot shape" ErrSnapshotRejected)
          | Some snapshot =>
              if negb (config_ok snapshot tunnelID generation) then Some ErrSnapshotRejected else
              match map_get "routes" fields with
              | Some (JArray rawRoutes) =>
                  if negb (length rawRoutes =? length (default [] (Routes snapshot)))%nat
                  then Some ErrSnapshotRejected
                  else validate_routes rawRoutes (default [] (Routes snapshot))
              | Some JNull =>
                  if negb (length (default [] (Routes snapshot)) =? 0)%nat
                  then Some ErrSnapshotRejected
                  else None
              | _ => Some ErrSnapshotRejected
              end
          end
      end
  | _ => Some ErrSnapshotRejected
  end.
