(* ===== verification/GoTime.v ===== *)
(** * Times in JSON

    [time.Time.MarshalJSON], the layout [RFC3339Nano], and the proof that
    [time.Time.UnmarshalJSON] reads the same instant back.  Of the location of a
    [time.Time] its offset at that instant matters; [rfc3339_text] is the text of
    an instant in UTC. *)
From S2P Require Import Prelude GoText GoHash GoUrl GoJson Errors Canonical TextFacts Identifiers WireConfig.

(** ** The civil date of a day

    Days are counted from January 1 of year 1, by the cycles of 400, 100, 4 and
    1 years. *)
Definition year_day (d : Z) : Z * Z :=
  let n400 := d / 146097 in let d1 := d mod 146097 in
  let n100 := Z.min 3 (d1 / 36524) in let d2 := d1 - 36524 * n100 in
  let n4 := d2 / 1461 in let d3 := d2 mod 1461 in
  let n1 := Z.min 3 (d3 / 365) in
  (400 * n400 + 100 * n100 + 4 * n4 + n1 + 1, d3 - 365 * n1).

(** The month and day of the month of a day of the year. *)
Fixpoint month_day (months : nat) (m y doy : Z) : Z * Z :=
  match months with
  | O => (m, doy + 1)
  | S n => if doy <? days_in m y then (m, doy + 1) else month_day n (m + 1) y (doy - days_in m y)
  end.

Definition civil (d : Z) : Z * Z * Z :=
  let '(y, doy) := year_day d in
  let '(m, day) := month_day 11 1 y doy in (y, m, day).

(** ** The text *)
Definition digit_char (n : Z) : ascii := byte_of (48 + n).
Definition pad2 (n : Z) : string := String (digit_char (n / 10)) (String (digit_char (n mod 10)) "").
Definition pad4 (n : Z) : string := pad2 (n / 100) +:+ pad2 (n mod 100).

(** [k] digits of a fraction, without trailing zeros. *)
Fixpoint fraction_digits (k : nat) (n : Z) : string :=
  match k with
  | O => ""
  | S k' => if n =? 0 then ""
            else String (digit_char (n / 10 ^ Z.of_nat k')) (fraction_digits k' (n mod 10 ^ Z.of_nat k'))
  end.
Definition fraction_text (nsec : Z) : string :=
  if nsec =? 0 then "" else "." +:+ fraction_digits 9 nsec.

(** The local clock [t] and the text of the zone. *)
Definition clock_text (t : time) (zone : string) : string :=
  let nsec := t mod Second in let secs := t / Second in
  let '(y, m, d) := civil (secs / 86400) in let sod := secs mod 86400 in
  pad4 y +:+ "-" +:+ pad2 m +:+ "-" +:+ pad2 d +:+ "T" +:+ pad2 (sod / 3600) +:+ ":"
  +:+ pad2 (sod mod 3600 / 60) +:+ ":" +:+ pad2 (sod mod 60) +:+ fraction_text nsec +:+ zone.
Definition rfc3339_text (t : time) : string := clock_text t "Z".

(** The zone of an offset in seconds, in minutes that are rounded towards zero. *)
Definition zone_text (offset : Z) : string :=
  if offset =? 0 then "Z" else
  let zone := offset `quot` 60 in
  (if zone <? 0 then "-" else "+") +:+ pad2 (Z.abs zone / 60) +:+ ":" +:+ pad2 (Z.abs zone mod 60).
Definition zoned_text (t : time) (offset : Z) : string :=
  clock_text (t + offset * Second) (zone_text offset).

(** The year must have four digits. *)
Definition year_of (t : time) : Z := fst (fst (civil (t / Second / 86400))).
Definition time_year_ok (t : time) : bool := (0 <=? year_of t) && (year_of t <=? 9999).
Definition Time_MarshalJSON (t : time) : option string :=
  if time_year_ok t then Some (quote (rfc3339_text t)) else None.
(** Of a time in a location with that offset: the local year must have four digits,
    and the hours of the zone must be below 24. *)
Definition zone_ok (t : time) (offset : Z) : bool :=
  time_year_ok (t + offset * Second) && (Z.abs (offset `quot` 60) / 60 <? 24).
Definition Time_MarshalJSON_in (t : time) (offset : Z) : option string :=
  if zone_ok t offset then Some (quote (zoned_text t offset)) else None.

Example text_noon : rfc3339_text (63900000000 * Second + 120) = "2025-11-29T08:00:00.00000012Z".
Proof. by vm_compute. Qed.
Example text_offset : zoned_text (63900000000 * Second) 7200 = "2025-11-29T10:00:00+02:00"
  /\ zoned_text (63900000000 * Second) (-12600) = "2025-11-29T04:30:00-03:30".
Proof. by vm_compute. Qed.
Example text_zero : rfc3339_text 0 = "0001-01-01T00:00:00Z".
Proof. by vm_compute. Qed.

(** ** Dates read back *)

Definition leap_days (y : Z) : Z := (y - 1) / 4 - (y - 1) / 100 + (y - 1) / 400.
Lemma year_day_spec d :
  let '(y, doy) := year_day d in
  d = 365 * (y - 1) + leap_days y + doy /\ 0 <= doy < (if is_leap y then 366 else 365).
Proof.
  unfold year_day, leap_days.
  set (a := d / 146097). set (d1 := d mod 146097). set (b := Z.min 3 (d1 / 36524)).
  set (d2 := d1 - 36524 * b). set (c := d2 / 1461). set (d3 := d2 mod 1461). set (e := Z.min 3 (d3 / 365)).
  assert (d = 146097 * a + d1 /\ 0 <= d1 < 146097) as [Hd Hd1] by (unfold a, d1; divmod).
  assert (d1 = 36524 * b + d2) as Hd12 by (unfold d2; lia).
  assert (0 <= b <= 3 /\ 0 <= d2 /\ (d2 < 36524 \/ b = 3 /\ d2 < 36525)) as (Hb & Hd2 & Hd2') by (unfold d2, b; divmod).
  assert (d2 = 1461 * c + d3 /\ 0 <= d3 < 1461 /\ 0 <= c <= 24) as (Hc & Hd3 & Hc') by (unfold c, d3; divmod).
  assert (0 <= e <= 3 /\ 0 <= d3 - 365 * e /\ (d3 - 365 * e < 365 \/ e = 3 /\ d3 - 365 * e < 366)) as (He & Hx & Hx')
    by (unfold e; divmod).
  clearbody a d1 b d2 c d3 e.
  replace (400 * a + 100 * b + 4 * c + e + 1 - 1) with (400 * a + 100 * b + 4 * c + e) by lia.
  assert ((400 * a + 100 * b + 4 * c + e) / 4 = 100 * a + 25 * b + c) as -> by divmod.
  assert ((400 * a + 100 * b + 4 * c + e) / 100 = 4 * a + b) as -> by divmod.
  assert ((400 * a + 100 * b + 4 * c + e) / 400 = a) as -> by divmod.
  split; [lia|]. split; [lia|].
  destruct (is_leap _) eqn:Hl; [lia|]. destruct Hx' as [?|[-> ?]]; [lia|].
  unfold is_leap in Hl. apply andb_false_iff in Hl as [Hl|Hl].
  - apply Z.eqb_neq in Hl. exfalso. apply Hl. divmod.
  - apply orb_false_iff in Hl as [H1 H2]. apply negb_false_iff, Z.eqb_eq in H1. apply Z.eqb_neq in H2.
    assert (c = 24) by divmod. assert (b <> 3) by (intros ->; apply H2; divmod). lia.
Qed.

(** Months depend on the year only through its being a leap year. *)
Definition month_start (m y : Z) : Z := foldr Z.add 0 ((fun k => days_in k y) <$> seqZ 1 (m - 1)).
Lemma days_in_leap m y y' : is_leap y = is_leap y' -> days_in m y = days_in m y'.
Proof. unfold days_in. by intros ->. Qed.
Lemma month_day_leap n m y y' doy : is_leap y = is_leap y' -> month_day n m y doy = month_day n m y' doy.
Proof.
  intros H. revert m doy. induction n as [|n IH]; intros m doy; [done|]. cbn [month_day].
  by rewrite (days_in_leap m y y'), IH.
Qed.
Lemma month_start_leap m y y' : is_leap y = is_leap y' -> month_start m y = month_start m y'.
Proof. intros H. unfold month_start. f_equal. apply list_fmap_ext. intros. by apply days_in_leap. Qed.

Definition month_ok (y doy : Z) : bool :=
  let '(m, d) := month_day 11 1 y doy in
  (1 <=? m) && (m <=? 12) && (1 <=? d) && (d <=? days_in m y) && (month_start m y + (d - 1) =? doy).
Lemma month_ok_all :
  forallb (month_ok 1) (seqZ 0 365) && forallb (month_ok 4) (seqZ 0 366) = true.
Proof. by vm_compute. Qed.
Lemma month_day_spec y doy :
  0 <= doy < (if is_leap y then 366 else 365) -> month_ok y doy = true.
Proof.
  intros H. pose proof month_ok_all as Hall. apply andb_true_iff in Hall as [H1 H4].
  rewrite forallb_forall in H1, H4.
  assert (exists y', is_leap y = is_leap y' /\ month_ok y' doy = true) as (y' & E & Hok).
  { destruct (is_leap y); [exists 4|exists 1]; (split; [done|]); [apply H4|apply H1];
      apply list_elem_of_In, elem_of_seqZ; lia. }
  revert Hok. unfold month_ok. rewrite (month_day_leap 11 1 y y' doy E). destruct (month_day 11 1 y' doy) as [m d].
  by rewrite (days_in_leap m y y' E), (month_start_leap m y y' E).
Qed.

Lemma civil_spec d :
  let '(y, m, dd) := civil d in
  days_before y m dd = d /\ 1 <= m <= 12 /\ 1 <= dd <= days_in m y.
Proof.
  unfold civil. pose proof (year_day_spec d) as H. destruct (year_day d) as [y doy]. destruct H as [Hd Hr].
  apply month_day_spec in Hr. unfold month_ok in Hr. destruct (month_day 11 1 y doy) as [m dd]. bool_prop.
  unfold days_before. fold (month_start m y). unfold leap_days in Hd. split; lia.
Qed.

(** ** Digits read back *)
Lemma digit_char_code n : 0 <= n <= 9 -> is_digit (digit_char n) = true /\ digit_val (digit_char n) = n.
Proof.
  intros H. unfold is_digit, between, digit_val, digit_char. rewrite code_byte_of by lia.
  rewrite andb_true_iff, !Z.leb_le. lia.
Qed.
Lemma two_digits_pad n s : 0 <= n < 100 -> two_digits (pad2 n +:+ s) = Some (n, s).
Proof.
  intros H. unfold two_digits, pad2. autorewrite with sapp.
  destruct (digit_char_code (n / 10)) as [-> ->]; [divmod|]. destruct (digit_char_code (n mod 10)) as [-> ->]; [divmod|].
  simpl. do 2 f_equal. divmod.
Qed.
Lemma hour_digits_pad n s : 0 <= n < 100 -> hour_digits (pad2 n +:+ s) = Some (n, s).
Proof.
  intros H. unfold hour_digits, pad2. autorewrite with sapp.
  destruct (digit_char_code (n / 10)) as [-> ->]; [divmod|]. destruct (digit_char_code (n mod 10)) as [-> ->]; [divmod|].
  simpl. do 2 f_equal. divmod.
Qed.
Lemma strip_prefix_app p s : strip_prefix p (p +:+ s) = Some s.
Proof. by apply strip_prefix_Some. Qed.
Lemma fraction_digits_spec k n acc :
  0 <= n < 10 ^ Z.of_nat k ->
  let ds := fraction_digits k n in
  all_bytes is_digit ds = true /\ slen ds <= Z.of_nat k
  /\ digits_val ds acc * 10 ^ (Z.of_nat k - slen ds) = acc * 10 ^ Z.of_nat k + n.
Proof.
  revert n acc. induction k as [|k IH]; intros n acc Hn; cbn [fraction_digits].
  { change (Z.of_nat 0) with 0 in *. rewrite Z.pow_0_r in Hn. split_and!; [done|by vm_compute|]. change (0 - slen "") with 0. rewrite Z.pow_0_r. cbn [digits_val]. lia. }
  destruct (Z.eqb_spec n 0) as [->|Hne].
  { split_and!; [done|change (slen "") with 0; lia|]. change (slen "") with 0. simpl digits_val.
    rewrite Z.sub_0_r. lia. }
  rewrite Nat2Z.inj_succ, Z.pow_succ_r in Hn by lia. set (p := 10 ^ Z.of_nat k) in *.
  assert (0 < p) as Hp by (apply Z.pow_pos_nonneg; lia).
  assert (0 <= n / p <= 9) as Hq by (split; [apply Z.div_pos; lia|]; apply Z.lt_succ_r, Z.div_lt_upper_bound; lia).
  destruct (digit_char_code (n / p) Hq) as [Hd Hv].
  destruct (IH (n mod p) (acc * 10 + n / p)) as (IH1 & IH2 & IH3); [by apply Z.mod_pos_bound|].
  cbn [all_bytes digits_val]. rewrite slen_cons, Hd, Hv. split_and!; [done|lia|].
  replace (Z.of_nat (S k) - (1 + slen (fraction_digits k (n mod p)))) with
    (Z.of_nat k - slen (fraction_digits k (n mod p))) by lia.
  rewrite IH3, Nat2Z.inj_succ, Z.pow_succ_r by lia. fold p.
  pose proof (Z.div_mod n p). lia.
Qed.

Lemma fraction_digits_head n :
  0 < n < 10 ^ 9 -> exists c r, fraction_digits 9 n = String c r /\ is_digit c = true.
Proof.
  intros H. destruct (fraction_digits_spec 9 n 0) as (Hd & _); [change (Z.of_nat 9) with 9; lia|].
  destruct (fraction_digits 9 n) as [|c r] eqn:E; [|simpl in Hd; bool_prop; eauto].
  cbn [fraction_digits] in E. by rewrite (proj2 (Z.eqb_neq _ _)) in E by lia.
Qed.
Lemma stake_all n s : (String.length s <= n)%nat -> stake n s = s.
Proof.
  revert s. induction n as [|n IH]; intros [|c s] H; simpl in *; try done; [lia|]. rewrite IH by lia. done.
Qed.
(** What can follow the seconds of a text. *)
Definition zone_like (zone : string) : Prop :=
  match zone with
  | String c _ => is_digit c = false /\ is_byte 46 c = false /\ is_byte 44 c = false
  | EmptyString => False
  end.
Lemma fraction_read nsec zone :
  0 <= nsec < Second -> zone_like zone -> rfc3339_fraction (fraction_text nsec +:+ zone) = (nsec, zone).
Proof.
  intros H Hz. destruct zone as [|z0 zone]; [done|]. destruct Hz as (Hz1 & Hz2 & Hz3).
  unfold fraction_text. destruct (Z.eqb_spec nsec 0) as [->|Hne].
  { change ("" +:+ String z0 zone) with (String z0 zone). unfold rfc3339_fraction. rewrite Hz2, Hz3. by destruct zone. }
  change Second with (10 ^ 9) in H. destruct (fraction_digits_spec 9 nsec 0) as (Hd & Hl & Hv); [done|].
  destruct (fraction_digits_head nsec) as (c & r & E & Hc); [lia|]. rewrite E in *.
  autorewrite with sapp. unfold rfc3339_fraction. change (is_byte 46 ".") with true. rewrite Hc.
  simpl orb. simpl andb. cbv iota.
  change (String c (r +:+ String z0 zone)) with (String c r +:+ String z0 zone).
  rewrite span_digits_app by done.
  rewrite stake_all by (unfold slen in Hl; lia). f_equal. change (Z.of_nat 9) with 9 in Hv. lia.
Qed.

(** A clock whose year has four digits is read back from its text, with the
    offset of the zone. *)
Lemma clock_text_read t zone offset :
  time_year_ok t = true -> zone_like zone -> rfc3339_zone zone = Some offset ->
  parse_zoned (clock_text t zone) = Some (t - offset * Second, offset).
Proof.
  intros Hy Hz Ho. unfold time_year_ok, year_of in Hy. unfold parse_zoned, clock_text.
  pose proof (civil_spec (t / Second / 86400)) as Hc. destruct (civil _) as [[y m] d]. cbn [fst] in Hy. bool_prop.
  destruct Hc as (Hdays & Hm & Hd).
  assert (0 <= t / Second mod 86400 < 86400) as Hs by (by apply Z.mod_pos_bound).
  assert (0 <= t mod Second < Second) as Hn by (by apply Z.mod_pos_bound).
  assert (days_in m y <= 31) by (unfold days_in; repeat case_match; lia).
  unfold pad4. rewrite !sapp_assoc. rewrite two_digits_pad by divmod. cbn [mbind option_bind].
  repeat (rewrite ?two_digits_pad, ?hour_digits_pad, ?strip_prefix_app by divmod; cbn [mbind option_bind]).
  rewrite fraction_read by done. rewrite Ho. cbn [mbind option_bind].
  replace (y / 100 * 100 + y mod 100) with y by divmod.
  assert (forall z, 0 <= z < 86400 -> z / 3600 < 24 /\ z mod 3600 / 60 < 60 /\ z mod 60 < 60) as Hb by (intros; divmod).
  destruct (Hb _ Hs) as (B1 & B2 & B3).
  rewrite !(proj2 (Z.leb_le _ _)), !(proj2 (Z.ltb_lt _ _)) by lia. cbn [andb].
  do 2 f_equal. rewrite Hdays.
  assert (forall q, q / 86400 * 86400 + q mod 86400 / 3600 * 3600 + q mod 86400 mod 3600 / 60 * 60
    + q mod 86400 mod 60 - offset = q - offset) as Hq by (intros; divmod).
  rewrite Hq. pose proof (Z.div_mod t Second). lia.
Qed.

(** The zone of an offset in whole minutes, below a day, is read back. *)
Lemma zone_text_read offset :
  offset mod 60 = 0 -> Z.abs (offset `quot` 60) / 60 < 24 ->
  zone_like (zone_text offset) /\ rfc3339_zone (zone_text offset) = Some offset.
Proof.
  intros Hm Hh. unfold zone_text. destruct (Z.eqb_spec offset 0) as [->|Hne]; [done|]. cbv zeta.
  assert (offset = 60 * (offset `quot` 60)) as E.
  { apply Z.mod_divide in Hm as [k ->]; [|done]. rewrite Z.quot_mul by done. lia. }
  set (zone := offset `quot` 60) in *. clearbody zone.
  assert (0 <= Z.abs zone / 60 < 100 /\ 0 <= Z.abs zone mod 60 < 60) as [H1 H2] by divmod.
  assert (Z.abs zone / 60 * 60 + Z.abs zone mod 60 = Z.abs zone) as H3 by divmod.
  split; [by destruct (zone <? 0)|].
  assert (forall sg, is_byte 43 sg || is_byte 45 sg = true ->
    rfc3339_zone (String sg (pad2 (Z.abs zone / 60) +:+ ":" +:+ pad2 (Z.abs zone mod 60)))
    = Some ((if is_byte 45 sg then -1 else 1) * Z.abs zone * 60)) as Hr.
  { intros sg Hsg. rewrite <- (sapp_nil_r (pad2 (Z.abs zone mod 60))).
    set (rest := pad2 (Z.abs zone / 60) +:+ _).
    assert (exists c r, rest = String c r) as (c & r & Er) by (unfold rest, pad2; eauto).
    unfold rfc3339_zone. rewrite Er, <- Er, Hsg. cbn [negb]. unfold rest.
    rewrite two_digits_pad by lia. cbn [mbind option_bind]. rewrite strip_prefix_app. cbn [mbind option_bind].
    rewrite two_digits_pad by lia. cbn [mbind option_bind]. rewrite bool_decide_eq_true_2 by done.
    rewrite !(proj2 (Z.leb_le _ _)) by lia. cbn [andb]. by rewrite H3. }
  destruct (Z.ltb_spec zone 0); autorewrite with sapp; rewrite Hr by done; f_equal.
  - change (is_byte 45 "-") with true. cbv iota. lia.
  - change (is_byte 45 "+") with false. cbv iota. lia.
Qed.

(** An instant whose local year has four digits is read back from its text. *)
Theorem zoned_text_roundtrip t offset :
  offset mod 60 = 0 -> zone_ok t offset = true -> parse_zoned (zoned_text t offset) = Some (t, offset).
Proof.
  intros Hm [Hy Hh%Z.ltb_lt]%andb_true_iff. destruct (zone_text_read offset Hm Hh) as [Hl Hr].
  unfold zoned_text. rewrite (clock_text_read _ _ offset) by done. do 2 f_equal. lia.
Qed.

Theorem time_text_roundtrip t : time_year_ok t = true -> parse_rfc3339 (rfc3339_text t) = Some t.
Proof.
  intros Hy. unfold parse_rfc3339, rfc3339_text. rewrite (clock_text_read t "Z" 0) by done. cbn.
  f_equal. lia.
Qed.
