(* ===== verification/GoStruct.v ===== *)
(** * Go structs and [encoding/json]

    How [encoding/json] decodes a text into a struct: the members of the object
    in the order of the text, each with the raw text of its value, and one
    setter per field.  Also [json.Valid] and [json.RawMessage]. *)
From S2P Require Import Prelude GoText GoHash GoUrl GoJson Errors Canonical Identifiers WireConfig.

(** ** [json.Valid]

    The same grammar as the token decoder, with the nesting limit of the
    scanner instead of [MaxJSONDepth]. *)
Definition maxNestingDepth : Z := 10000.

Fixpoint scan (fuel : nat) (depth : Z) (d : decoder) : option decoder :=
  match fuel with
  | O => None
  | S n =>
      match Token d with
      | Tok (TDelim c) d1 =>
          if maxNestingDepth <=? depth then None
          else if is_byte 123 c then scan_object n depth d1
          else if is_byte 91 c then scan_array n depth d1
          else None
      | Tok _ d1 => Some d1
      | _ => None
      end
  end
with scan_object (fuel : nat) (depth : Z) (d : decoder) : option decoder :=
  match fuel with
  | O => None
  | S n =>
      if More d then
        match Token d with
        | Tok (TString _) d1 =>
            match scan n (depth + 1) d1 with Some d2 => scan_object n depth d2 | None => None end
        | _ => None
        end
      else match Token d with Tok _ d1 => Some d1 | _ => None end
  end
with scan_array (fuel : nat) (depth : Z) (d : decoder) : option decoder :=
  match fuel with
  | O => None
  | S n =>
      if More d then
        match scan n (depth + 1) d with Some d1 => scan_array n depth d1 | None => None end
      else match Token d with Tok _ d1 => Some d1 | _ => None end
  end.

Definition json_Valid (data : string) : bool :=
  match scan (json_fuel data) 0 (NewDecoder data) with
  | Some d => match Token d with TokEOF => true | _ => false end
  | None => false
  end.

(** ** Raw members

    The text of a value after a key: from its first byte to the byte before
    what the decoder has left. *)
Definition value_start_text (d : decoder) : option string :=
  match skip_ws (buf d) with
  | String c s => if is_byte 58 c then Some (skip_ws s) else None
  | EmptyString => None
  end.
Definition consumed (s rest : string) : string := stake (String.length s - String.length rest) s.

Fixpoint raw_loop (fuel : nat) (d : decoder) : option (list (string * string)) :=
  match fuel with
  | O => None
  | S n =>
      if More d then
        match Token d with
        | Tok (TString key) d1 =>
            s ← value_start_text d1;
            '(_, d2) ← decodeValue n 1 d1;
            rest ← raw_loop n d2;
            Some ((key, consumed s (buf d2)) :: rest)
        | _ => None
        end
      else match Token d with
           | Tok _ d1 => match Token d1 with TokEOF => Some [] | _ => None end
           | _ => None
           end
  end.
Definition raw_members (data : string) : option (list (string * string)) :=
  match Token (NewDecoder data) with
  | Tok (TDelim c) d => if is_byte 123 c then raw_loop (json_fuel data) d else None
  | _ => None
  end.

(** ** Decoding into a struct

    A field is its JSON name and the effect of a raw value on the struct.  An
    unknown member is an error ([DisallowUnknownFields]); [null] leaves the
    struct as it is.  The callers have checked the text with
    [rejectDuplicateKeys], so it nests at most [MaxJSONDepth] deep. *)
Definition field (A : Type) : Type := string * (A -> string -> option A).

Definition set_member {A} (fields : list (field A)) (a : A) (m : string * string) : option A :=
  match List.find (fun f => is_field (fst m) (fst f)) fields with
  | Some f => snd f a (snd m)
  | None => None
  end.
Fixpoint set_members {A} (fields : list (field A)) (a : A) (ms : list (string * string)) : option A :=
  match ms with
  | [] => Some a
  | m :: ms' => a' ← set_member fields a m; set_members fields a' ms'
  end.
Definition decode_struct {A} (fields : list (field A)) (a : A) (data : string) : option A :=
  match parse_json data with
  | Some JNull => Some a
  | Some (JObject _) => ms ← raw_members data; set_members fields a ms
  | _ => None
  end.

(** Setters of the field types. *)
Definition raw_string (old raw : string) : option string := v ← parse_json raw; set_string old v.
Definition raw_bool (old : bool) (raw : string) : option bool := v ← parse_json raw; set_bool old v.
Definition raw_u64 (old : Z) (raw : string) : option Z := v ← parse_json raw; set_u64 old v.
Definition raw_u32 (old : Z) (raw : string) : option Z :=
  n ← raw_u64 old raw; if n <? two32 then Some n else None.
Definition raw_message (old raw : string) : option string := Some raw.

(** [Time.UnmarshalJSON] sees the raw text, quotes included. *)
Definition unquoted (raw : string) : option string :=
  match raw with
  | String a r =>
      match srev r with
      | String b r' => if is_byte 34 a && is_byte 34 b then Some (srev r') else None
      | EmptyString => None
      end
  | EmptyString => None
  end.
Definition raw_time (old : time) (raw : string) : option time :=
  if raw == "null" then Some old else s ← unquoted raw; parse_rfc3339 s.
(** A time with the offset of its location. *)
Definition raw_zoned_time (old : time * Z) (raw : string) : option (time * Z) :=
  if raw == "null" then Some old else s ← unquoted raw; parse_zoned s.

Fixpoint set_strings (old : list string) (vs : list json) : option (list string) :=
  match vs with
  | [] => Some []
  | v :: vs' => s ← set_string (hd "" old) v; ss ← set_strings (tail old) vs'; Some (s :: ss)
  end.
Definition raw_strings (old : list string) (raw : string) : option (list string) :=
  v ← parse_json raw;
  match v with JNull => Some [] | JArray vs => set_strings old vs | _ => None end.
Definition raw_struct {A} (fields : list (field A)) (old : A) (raw : string) : option A :=
  decode_struct fields old raw.

Notation "'fld' name set proj" :=
  ((name, fun m raw => x ← set (proj m) raw; Some (m <| proj := x |>)) : field _)
  (at level 10, name at level 9, set at level 9, proj at level 9) : go_scope.

(** ** [json.RawMessage] in a struct that is written *)
Definition Marshal_raw (raw : string) : option string :=
  if raw == "" then Some "null" else if json_Valid raw then Some (compact Outside raw) else None.
