(* ===== verification/Messages.v ===== *)
(** * Connector messages and their validation

    The message types of src/internal/connectorprotocol/protocol.go and the
    [Validate] methods that every handler calls before it looks at its state.
    A message is a record in a module of its own name; its [X_Validate] is the
    method, which returns Go's [error]. *)

From S2P Require Import Prelude GoText GoHash Errors Canonical Identifiers WireConfig.

Definition AckKind := string.
Definition AckSnapshot : AckKind := "snapshot".
Definition AckDelta : AckKind := "delta".
Definition AckReady : AckKind := "ready".
Definition AckRenewal : AckKind := "auth_renew".

Definition AckStatus := string.
Definition AckApplied : AckStatus := "applied".
Definition AckDuplicate : AckStatus := "duplicate".
Definition AckRejected : AckStatus := "rejected".
Definition AckSnapshotRequired : AckStatus := "snapshot_required".

Definition DrainStatus := string.
Definition DrainAccepted : DrainStatus := "accepted".
Definition DrainProgress : DrainStatus := "progress".
Definition DrainCompleted : DrainStatus := "completed".
Definition DrainForced : DrainStatus := "forced_close".
Definition DrainRejected : DrainStatus := "rejected".

(** [ValidateIdentifier(x) != nil] for every listed value. *)
Definition ids_ok (ids : list string) : bool := forallb (fun i => ok (ValidateIdentifier i)) ids.

(** ** Authentication requests *)

Module AuthRequest.
Record AuthRequest := mk {
  AccountID : string;
  TunnelID : string;
  ConnectorID : string;
  HostID : string;
  IdentityKeyID : string;
  IdentityKeyThumbprint : string;
  ProcessGeneration : Z;
  CredentialGeneration : Z;
  Nonce : string;
  SignedProof : string;
  IssuedAt : time;
  ExpiresAt : time;
}.
#[export] Instance settable : Settable AuthRequest := fun r =>
  mk (AccountID r) (TunnelID r) (ConnectorID r) (HostID r) (IdentityKeyID r)
    (IdentityKeyThumbprint r) (ProcessGeneration r) (CredentialGeneration r) (Nonce r)
    (SignedProof r) (IssuedAt r) (ExpiresAt r).
#[export] Instance eq_dec : EqDecision AuthRequest.
Proof. solve_decision. Defined.
Definition zero : AuthRequest := mk "" "" "" "" "" "" 0 0 "" "" 0 0.
End AuthRequest.
Export (hints) AuthRequest.
Abbreviation AuthRequest := AuthRequest.AuthRequest.

Section AuthRequestValidate.
Import AuthRequest.

Definition nonce_ok (nonce : string) : bool :=
  negb ((slen nonce <? 16) || (MaxNonceBytes <? slen nonce) || (TrimSpace nonce != nonce)
        || ContainsAny nonce crlf).

Definition AuthRequest_validate (a : AuthRequest) (now : time) (requireProof : bool)
    : option goerror :=
  if negb (ids_ok [AccountID a; TunnelID a; ConnectorID a; HostID a])
     || negb (ok (ValidateIdentityKey (IdentityKeyID a) (IdentityKeyThumbprint a)))
  then Some ErrInvalidInput
  else if negb (nonce_ok (Nonce a)) || (ProcessGeneration a =? 0) || (CredentialGeneration a =? 0)
     || IsZero (IssuedAt a) || IsZero (ExpiresAt a) || negb (After (ExpiresAt a) (IssuedAt a))
     || (15 * Minute <? Sub (ExpiresAt a) (IssuedAt a))
     || requireProof && negb (ok (ValidateProof (SignedProof a)))
  then Some ErrInvalidInput
  else if negb (IsZero now) && (After (IssuedAt a) (Add now MaxClockSkew)
     || (MaxClockSkew <? Sub now (IssuedAt a)) || negb (After (ExpiresAt a) now))
  then Some (codeError ErrCredentialExpired ReasonCredentialExpired true None)
  else None.
Definition AuthRequest_Validate (a : AuthRequest) (now : time) : option goerror :=
  AuthRequest_validate a now true.
End AuthRequestValidate.

(** ** Authentication results *)

Module AuthResult.
Record AuthResult := mk {
  AccountID : string;
  TunnelID : string;
  ConnectorID : string;
  SessionID : string;
  HostID : string;
  IdentityKeyID : string;
  IdentityKeyThumbprint : string;
  ProcessGeneration : Z;
  CredentialGeneration : Z;
  CredentialExpiresAt : time;
  LeaseExpiresAt : time;
}.
#[export] Instance settable : Settable AuthResult := fun r =>
  mk (AccountID r) (TunnelID r) (ConnectorID r) (SessionID r) (HostID r) (IdentityKeyID r)
    (IdentityKeyThumbprint r) (ProcessGeneration r) (CredentialGeneration r)
    (CredentialExpiresAt r) (LeaseExpiresAt r).
#[export] Instance eq_dec : EqDecision AuthResult.
Proof. solve_decision. Defined.
Definition zero : AuthResult := mk "" "" "" "" "" "" "" 0 0 0 0.
End AuthResult.
Export (hints) AuthResult.
Abbreviation AuthResult := AuthResult.AuthResult.

Section AuthResultValidate.
Import AuthResult.

Definition AuthResult_Validate (a : AuthResult) (now : time) : option goerror :=
  if negb (ids_ok [AccountID a; TunnelID a; ConnectorID a; HostID a])
  then Some ErrAuthenticationFailed
  else if (SessionID a != "") && negb (ok (ValidateIdentifier (SessionID a)))
  then Some ErrAuthenticationFailed
  else if negb (ok (ValidateIdentityKey (IdentityKeyID a) (IdentityKeyThumbprint a)))
     || (ProcessGeneration a =? 0) || (CredentialGeneration a =? 0)
     || IsZero (CredentialExpiresAt a) || IsZero (LeaseExpiresAt a)
     || After (LeaseExpiresAt a) (CredentialExpiresAt a)
  then Some ErrAuthenticationFailed
  else if negb (IsZero now) && (negb (After (CredentialExpiresAt a) now)
     || negb (After (LeaseExpiresAt a) now) || (MaxLease <? Sub (LeaseExpiresAt a) now))
  then Some ErrAuthenticationFailed
  else None.

Definition AuthResult_ValidateBound (a : AuthResult) : option goerror :=
  if negb (ok (AuthResult_Validate a 0)) || negb (ok (ValidateIdentifier (SessionID a)))
  then Some ErrAuthenticationFailed else None.
End AuthResultValidate.

(** ** Renewals *)

Module RenewalRequest.
Record RenewalRequest := mk {
  SessionID : string;
  AccountID : string;
  TunnelID : string;
  ConnectorID : string;
  HostID : string;
  IdentityKeyID : string;
  IdentityKeyThumbprint : string;
  ProcessGeneration : Z;
  CredentialGeneration : Z;
  Nonce : string;
  SignedProof : string;
  RequestedAt : time;
}.
#[export] Instance settable : Settable RenewalRequest := fun r =>
  mk (SessionID r) (AccountID r) (TunnelID r) (ConnectorID r) (HostID r) (IdentityKeyID r)
    (IdentityKeyThumbprint r) (ProcessGeneration r) (CredentialGeneration r) (Nonce r)
    (SignedProof r) (RequestedAt r).
#[export] Instance eq_dec : EqDecision RenewalRequest.
Proof. solve_decision. Defined.
Definition zero : RenewalRequest := mk "" "" "" "" "" "" "" 0 0 "" "" 0.
End RenewalRequest.
Export (hints) RenewalRequest.
Abbreviation RenewalRequest := RenewalRequest.RenewalRequest.

Section RenewalRequestValidate.
Import RenewalRequest.

Definition RenewalRequest_validate (r : RenewalRequest) (requireProof : bool) : option goerror :=
  if negb (ids_ok [SessionID r; AccountID r; TunnelID r; ConnectorID r; HostID r])
     || negb (ok (ValidateIdentityKey (IdentityKeyID r) (IdentityKeyThumbprint r)))
     || (ProcessGeneration r =? 0) || (CredentialGeneration r =? 0)
     || negb (nonce_ok (Nonce r)) || IsZero (RequestedAt r)
     || requireProof && negb (ok (ValidateProof (SignedProof r)))
  then Some ErrInvalidInput else None.
Definition RenewalRequest_Validate (r : RenewalRequest) : option goerror :=
  RenewalRequest_validate r true.

Definition RenewalRequest_ValidateAt (r : RenewalRequest) (now : time) : option goerror :=
  match RenewalRequest_validate r true with
  | Some err => Some err
  | None =>
      if negb (IsZero now) && (After (RequestedAt r) (Add now MaxClockSkew)
         || (MaxClockSkew <? Sub now (RequestedAt r)))
      then Some (codeError ErrAuthenticationFailed ReasonAuthentication false
                   (Some (OtherError "renewal request is outside clock skew")))
      else None
  end.
End RenewalRequestValidate.

(** ** Leases *)

Module Lease.
Record Lease := mk {
  SessionID : string;
  ExpiresAt : time;
  HeartbeatIntervalMS : Z;
}.
#[export] Instance settable : Settable Lease := fun r =>
  mk (SessionID r) (ExpiresAt r) (HeartbeatIntervalMS r).
#[export] Instance eq_dec : EqDecision Lease.
Proof. solve_decision. Defined.
Definition zero : Lease := mk "" 0 0.
End Lease.
Export (hints) Lease.
Abbreviation Lease := Lease.Lease.

Section LeaseValidate.
Import Lease.

Definition heartbeat_duration (l : Lease) : duration := HeartbeatIntervalMS l * Millisecond.

Definition Lease_Validate (l : Lease) (now : time) : option goerror :=
  if negb (ok (ValidateIdentifier (SessionID l))) || IsZero (ExpiresAt l)
     || (HeartbeatIntervalMS l =? 0)
  then Some ErrInvalidInput
  else if negb (IsZero now) && (negb (After (ExpiresAt l) now)
     || (MaxLease <? Sub (ExpiresAt l) now)
     || (Sub (ExpiresAt l) now <=? heartbeat_duration l))
  then Some ErrInvalidInput
  else None.
End LeaseValidate.

(** ** Hello and welcome *)

Module Hello.
Record Hello := mk {
  Protocol : string;
  MinVersion : string;
  MaxVersion : string;
  AccountID : string;
  TunnelID : string;
  ConnectorID : string;
  HostID : string;
  ProcessGeneration : Z;
  Capabilities : list string;
  Auth : AuthRequest.AuthRequest;
}.
#[export] Instance settable : Settable Hello := fun r =>
  mk (Protocol r) (MinVersion r) (MaxVersion r) (AccountID r) (TunnelID r) (ConnectorID r)
    (HostID r) (ProcessGeneration r) (Capabilities r) (Auth r).
#[export] Instance eq_dec : EqDecision Hello.
Proof. solve_decision. Defined.
Definition zero : Hello := mk "" "" "" "" "" "" "" 0 [] AuthRequest.zero.
End Hello.
Export (hints) Hello.
Abbreviation Hello := Hello.Hello.

Section HelloValidate.
Import Hello.

Definition Hello_Validate (h : Hello) (now : time) : option goerror :=
  if (Protocol h != ProtocolName) || (MinVersion h == "") || (MaxVersion h == "")
     || negb (ids_ok [AccountID h; TunnelID h; ConnectorID h; HostID h])
     || (ProcessGeneration h =? 0)
  then Some ErrInvalidInput else
  match NegotiateVersion (MinVersion h) (MaxVersion h) with
  | Err err => Some err
  | Ok _ =>
      match ValidateCapabilities (Capabilities h) with
      | Some err => Some err
      | None =>
          if (AuthRequest.AccountID (Auth h) != AccountID h)
             || (AuthRequest.TunnelID (Auth h) != TunnelID h)
             || (AuthRequest.ConnectorID (Auth h) != ConnectorID h)
             || (AuthRequest.HostID (Auth h) != HostID h)
             || negb (AuthRequest.ProcessGeneration (Auth h) =? ProcessGeneration h)
          then Some (codeError ErrIdentityMismatch ReasonAuthentication false None)
          else AuthRequest_Validate (Auth h) now
      end
  end.
End HelloValidate.

Module Welcome.
Record Welcome := mk {
  Protocol : string;
  Version : string;
  SessionID : string;
  Capabilities : list string;
  Lease : Lease.Lease;
  RequiresSnapshot : bool;
  ServerTime : time;
}.
#[export] Instance settable : Settable Welcome := fun r =>
  mk (Protocol r) (Version r) (SessionID r) (Capabilities r) (Lease r) (RequiresSnapshot r)
    (ServerTime r).
#[export] Instance eq_dec : EqDecision Welcome.
Proof. solve_decision. Defined.
Definition zero : Welcome := mk "" "" "" [] Lease.zero false 0.
End Welcome.
Export (hints) Welcome.
Abbreviation Welcome := Welcome.Welcome.

Section WelcomeValidate.
Import Welcome.

Definition Welcome_Validate (w : Welcome) (now : time) : option goerror :=
  if (Protocol w != ProtocolName) || (Version w != ProtocolVersion)
     || negb (ok (ValidateIdentifier (SessionID w))) || negb (RequiresSnapshot w)
     || negb (ok (ValidateCapabilities (Capabilities w))) || IsZero (ServerTime w)
     || (Lease.SessionID (Welcome.Lease w) != SessionID w)
  then Some ErrInvalidInput
  else Lease_Validate (Welcome.Lease w) now.
End WelcomeValidate.

(** ** Snapshots *)

Module Snapshot.
Record Snapshot := mk {
  AccountID : string;
  TunnelID : string;
  ConnectorID : string;
  SessionID : string;
  ProcessGeneration : Z;
  Generation : Z;
  ContentHash : string;
  Payload : string;
}.
#[export] Instance settable : Settable Snapshot := fun r =>
  mk (AccountID r) (TunnelID r) (ConnectorID r) (SessionID r) (ProcessGeneration r)
    (Generation r) (ContentHash r) (Payload r).
#[export] Instance eq_dec : EqDecision Snapshot.
Proof. solve_decision. Defined.
Definition zero : Snapshot := mk "" "" "" "" 0 0 "" "".
End Snapshot.
Export (hints) Snapshot.
Abbreviation Snapshot := Snapshot.Snapshot.

Section SnapshotValidate.
Import Snapshot.

Definition content_hash (canonical : string) : string :=
  "sha256:" +:+ hex_EncodeToString (Sum256 canonical).

Definition NewSnapshot (tunnelID : string) (generation : Z) (payload : string) : Res Snapshot :=
  if negb (ok (ValidateIdentifier tunnelID)) || (generation =? 0) || (slen payload =? 0)
     || (MaxSnapshotBytes <? slen payload)
  then Err ErrInvalidInput else
  match canonicalJSON payload MaxSnapshotBytes with
  | Err err => Err err
  | Ok canonical =>
      match validateConfigSnapshotPayload canonical tunnelID generation with
      | Some err => Err err
      | None => Ok (Snapshot.mk "" tunnelID "" "" 0 generation (content_hash canonical) canonical)
      end
  end.

Definition Snapshot_Validate (s : Snapshot) : option goerror :=
  if negb (ok (ValidateIdentifier (TunnelID s)))
     || (AccountID s != "") && negb (ok (ValidateIdentifier (AccountID s)))
     || (SessionID s != "") && negb (ok (ValidateIdentifier (SessionID s)))
     || (Generation s =? 0) || negb (hashPattern (ContentHash s))
     || (slen (Payload s) =? 0) || (MaxSnapshotBytes <? slen (Payload s))
  then Some ErrInvalidInput else
  match canonicalJSON (Payload s) MaxSnapshotBytes with
  | Err err => Some (codeError ErrContentHashMismatch ReasonSnapshotRejected false (Some err))
  | Ok canonical =>
      if canonical != Payload s
      then Some (codeError ErrContentHashMismatch ReasonSnapshotRejected false None)
      else if ContentHash s != content_hash canonical
      then Some (codeError ErrContentHashMismatch ReasonSnapshotRejected false None)
      else match validateConfigSnapshotPayload canonical (TunnelID s) (Generation s) with
           | Some err => Some (codeError ErrSnapshotRejected ReasonSnapshotRejected false (Some err))
           | None => None
           end
  end.

Definition Snapshot_ValidateBound (s : Snapshot) : option goerror :=
  if negb (ids_ok [AccountID s; ConnectorID s; SessionID s]) || (ProcessGeneration s =? 0)
  then Some ErrInvalidInput else Snapshot_Validate s.
End SnapshotValidate.

(** ** Deltas *)

Module Delta.
Record Delta := mk {
  AccountID : string;
  TunnelID : string;
  ConnectorID : string;
  SessionID : string;
  ProcessGeneration : Z;
  PreviousGeneration : Z;
  Generation : Z;
  PreviousContentHash : string;
  ContentHash : string;
  Payload : string;
}.
#[export] Instance settable : Settable Delta := fun r =>
  mk (AccountID r) (TunnelID r) (ConnectorID r) (SessionID r) (ProcessGeneration r)
    (PreviousGeneration r) (Generation r) (PreviousContentHash r) (ContentHash r) (Payload r).
#[export] Instance eq_dec : EqDecision Delta.
Proof. solve_decision. Defined.
Definition zero : Delta := mk "" "" "" "" 0 0 0 "" "" "".
End Delta.
Export (hints) Delta.
Abbreviation Delta := Delta.Delta.

Section DeltaValidate.
Import Delta.

Definition NewDelta (tunnelID : string) (previous : Snapshot) (generation : Z) (payload : string)
    : Res Delta :=
  match Snapshot_Validate previous with
  | Some err => Err (codeError ErrGenerationGap ReasonGenerationGap false (Some err))
  | None =>
      if negb (generation =? u64_add (Snapshot.Generation previous) 1)
      then Err (codeError ErrGenerationGap ReasonGenerationGap false None) else
      match NewSnapshot tunnelID generation payload with
      | Err err => Err err
      | Ok snapshot =>
          Ok (Delta.mk "" tunnelID "" "" 0 (Snapshot.Generation previous) generation
                (Snapshot.ContentHash previous) (Snapshot.ContentHash snapshot)
                (Snapshot.Payload snapshot))
      end
  end.

Definition Delta_Validate (d : Delta) : option goerror :=
  if negb (ok (ValidateIdentifier (TunnelID d)))
     || (AccountID d != "") && negb (ok (ValidateIdentifier (AccountID d)))
     || (SessionID d != "") && negb (ok (ValidateIdentifier (SessionID d)))
     || negb (hashPattern (PreviousContentHash d)) || negb (hashPattern (ContentHash d))
     || (slen (Payload d) =? 0) || (MaxDeltaBytes <? slen (Payload d))
  then Some ErrInvalidInput
  else if (PreviousGeneration d =? 0)
     || negb (Generation d =? u64_add (PreviousGeneration d) 1)
  then Some (codeError ErrGenerationGap ReasonGenerationGap true None) else
  match canonicalJSON (Payload d) MaxDeltaBytes with
  | Err err => Some (codeError ErrContentHashMismatch ReasonGenerationGap false (Some err))
  | Ok canonical =>
      if canonical != Payload d
      then Some (codeError ErrContentHashMismatch ReasonGenerationGap false None)
      else if ContentHash d != content_hash canonical
      then Some (codeError ErrContentHashMismatch ReasonGenerationGap false None)
      else match validateConfigSnapshotPayload canonical (TunnelID d) (Generation d) with
           | Some err => Some (codeError ErrDeltaRejected ReasonGenerationGap false (Some err))
           | None => None
           end
  end.

Definition Delta_ValidateBound (d : Delta) : option goerror :=
  if negb (ids_ok [AccountID d; ConnectorID d; SessionID d]) || (ProcessGeneration d =? 0)
  then Some ErrInvalidInput else Delta_Validate d.
End DeltaValidate.

(** ** Acknowledgements, readiness and heartbeats *)

Module Ack.
Record Ack := mk {
  AccountID : string;
  TunnelID : string;
  ConnectorID : string;
  SessionID : string;
  ProcessGeneration : Z;
  Kind : AckKind;
  Status : AckStatus;
  Generation : Z;
  ContentHash : string;
  Code : Code;
}.
#[export] Instance settable : Settable Ack := fun r =>
  mk (AccountID r) (TunnelID r) (ConnectorID r) (SessionID r) (ProcessGeneration r) (Kind r)
    (Status r) (Generation r) (ContentHash r) (Code r).
#[export] Instance eq_dec : EqDecision Ack.
Proof. solve_decision. Defined.
Definition zero : Ack := mk "" "" "" "" 0 "" "" 0 "" "".
End Ack.
Export (hints) Ack.
Abbreviation Ack := Ack.Ack.

Section AckValidate.
Import Ack.

Definition Ack_Validate (a : Ack) : option goerror :=
  if negb (ids_ok [AccountID a; TunnelID a; ConnectorID a; SessionID a])
     || (ProcessGeneration a =? 0)
     || negb (bool_decide (Kind a ∈ [AckSnapshot; AckDelta; AckReady; AckRenewal]))
     || negb (bool_decide (Status a ∈ [AckApplied; AckDuplicate; AckRejected; AckSnapshotRequired]))
     || (Generation a =? 0) || negb (hashPattern (ContentHash a))
  then Some ErrInvalidInput
  else if (Status a == AckRejected) && ((Ack.Code a == "") || negb (validCode (Ack.Code a)))
     || (Status a != AckRejected) && (Ack.Code a != "")
  then Some ErrInvalidInput
  else None.
End AckValidate.

Module Readiness.
Record Readiness := mk {
  AccountID : string;
  SessionID : string;
  TunnelID : string;
  ConnectorID : string;
  ProcessGeneration : Z;
  Generation : Z;
  ContentHash : string;
  EdgeReady : bool;
  RouteReady : bool;
  OriginReady : bool;
}.
#[export] Instance settable : Settable Readiness := fun r =>
  mk (AccountID r) (SessionID r) (TunnelID r) (ConnectorID r) (ProcessGeneration r)
    (Generation r) (ContentHash r) (EdgeReady r) (RouteReady r) (OriginReady r).
#[export] Instance eq_dec : EqDecision Readiness.
Proof. solve_decision. Defined.
Definition zero : Readiness := mk "" "" "" "" 0 0 "" false false false.
End Readiness.
Export (hints) Readiness.
Abbreviation Readiness := Readiness.Readiness.

Section ReadinessValidate.
Import Readiness.

Definition Readiness_Validate (r : Readiness) : option goerror :=
  if negb (ids_ok [AccountID r; SessionID r; TunnelID r; ConnectorID r])
     || (ProcessGeneration r =? 0) || (Generation r =? 0) || negb (hashPattern (ContentHash r))
  then Some ErrInvalidInput else None.
End ReadinessValidate.

Module Heartbeat.
Record Heartbeat := mk {
  AccountID : string;
  SessionID : string;
  TunnelID : string;
  ConnectorID : string;
  ProcessGeneration : Z;
  LastAppliedGeneration : Z;
  LastAppliedHash : string;
  SentAt : time;
}.
#[export] Instance settable : Settable Heartbeat := fun r =>
  mk (AccountID r) (SessionID r) (TunnelID r) (ConnectorID r) (ProcessGeneration r)
    (LastAppliedGeneration r) (LastAppliedHash r) (SentAt r).
#[export] Instance eq_dec : EqDecision Heartbeat.
Proof. solve_decision. Defined.
Definition zero : Heartbeat := mk "" "" "" "" 0 0 "" 0.
End Heartbeat.
Export (hints) Heartbeat.
Abbreviation Heartbeat := Heartbeat.Heartbeat.

Section HeartbeatValidate.
Import Heartbeat.

Definition Heartbeat_Validate (h : Heartbeat) : option goerror :=
  if negb (ids_ok [AccountID h; SessionID h; TunnelID h; ConnectorID h])
     || (ProcessGeneration h =? 0) || (LastAppliedGeneration h =? 0)
     || negb (hashPattern (LastAppliedHash h)) || IsZero (SentAt h)
  then Some ErrInvalidInput else None.
End HeartbeatValidate.

Module HeartbeatAck.
Record HeartbeatAck := mk {
  AccountID : string;
  TunnelID : string;
  ConnectorID : string;
  SessionID : string;
  ProcessGeneration : Z;
  LeaseExpiresAt : time;
  ServerTime : time;
}.
#[export] Instance settable : Settable HeartbeatAck := fun r =>
  mk (AccountID r) (TunnelID r) (ConnectorID r) (SessionID r) (ProcessGeneration r)
    (LeaseExpiresAt r) (ServerTime r).
#[export] Instance eq_dec : EqDecision HeartbeatAck.
Proof. solve_decision. Defined.
Definition zero : HeartbeatAck := mk "" "" "" "" 0 0 0.
End HeartbeatAck.
Export (hints) HeartbeatAck.
Abbreviation HeartbeatAck := HeartbeatAck.HeartbeatAck.

Section HeartbeatAckValidate.
Import HeartbeatAck.

Definition HeartbeatAck_Validate (h : HeartbeatAck) (now : time) : option goerror :=
  if negb (ids_ok [AccountID h; TunnelID h; ConnectorID h; SessionID h])
     || (ProcessGeneration h =? 0) || IsZero (LeaseExpiresAt h)
     || negb (After (LeaseExpiresAt h) now) || IsZero (ServerTime h)
  then Some ErrInvalidInput else None.
End HeartbeatAckValidate.

(** ** Draining *)

Module Drain.
Record Drain := mk {
  AccountID : string;
  TunnelID : string;
  ConnectorID : string;
  SessionID : string;
  ProcessGeneration : Z;
  DrainID : string;
  Generation : Z;
  ContentHash : string;
  Deadline : time;
  StopNewStreams : bool;
  ForceAfterDeadline : bool;
}.
#[export] Instance settable : Settable Drain := fun r =>
  mk (AccountID r) (TunnelID r) (ConnectorID r) (SessionID r) (ProcessGeneration r) (DrainID r)
    (Generation r) (ContentHash r) (Deadline r) (StopNewStreams r) (ForceAfterDeadline r).
#[export] Instance eq_dec : EqDecision Drain.
Proof. solve_decision. Defined.
Definition zero : Drain := mk "" "" "" "" 0 "" 0 "" 0 false false.
End Drain.
Export (hints) Drain.
Abbreviation Drain := Drain.Drain.

Section DrainValidate.
Import Drain.

Definition Drain_Validate (d : Drain) (now : time) : option goerror :=
  if negb (ids_ok [AccountID d; TunnelID d; ConnectorID d; SessionID d; DrainID d])
     || (ProcessGeneration d =? 0) || (Generation d =? 0) || negb (hashPattern (ContentHash d))
     || IsZero (Deadline d) || negb (StopNewStreams d)
  then Some ErrInvalidInput
  else if negb (IsZero now) && (negb (After (Deadline d) now) || (MaxLease <? Sub (Deadline d) now))
  then Some ErrInvalidInput
  else None.
End DrainValidate.

Module DrainAck.
Record DrainAck := mk {
  AccountID : string;
  TunnelID : string;
  ConnectorID : string;
  SessionID : string;
  ProcessGeneration : Z;
  DrainID : string;
  Generation : Z;
  ContentHash : string;
  Status : DrainStatus;
  ActiveStreams : Z;
  ForcedClose : bool;
  Code : Code;
}.
#[export] Instance settable : Settable DrainAck := fun r =>
  mk (AccountID r) (TunnelID r) (ConnectorID r) (SessionID r) (ProcessGeneration r) (DrainID r)
    (Generation r) (ContentHash r) (Status r) (ActiveStreams r) (ForcedClose r) (Code r).
#[export] Instance eq_dec : EqDecision DrainAck.
Proof. solve_decision. Defined.
Definition zero : DrainAck := mk "" "" "" "" 0 "" 0 "" "" 0 false "".
End DrainAck.
Export (hints) DrainAck.
Abbreviation DrainAck := DrainAck.DrainAck.

Section DrainAckValidate.
Import DrainAck.

(** The status switch: which fields each status admits. *)
Definition drain_status_ok (a : DrainAck) : bool :=
  if (Status a == DrainAccepted) || (Status a == DrainProgress) then
    negb (ForcedClose a || (DrainAck.Code a != ""))
  else if Status a == DrainCompleted then
    negb (negb (ActiveStreams a =? 0) || ForcedClose a || (DrainAck.Code a != ""))
  else if Status a == DrainForced then
    negb (negb (ForcedClose a) || (DrainAck.Code a != CodeDrainTimeout) || negb (ActiveStreams a =? 0))
  else if Status a == DrainRejected then
    negb (ForcedClose a || (DrainAck.Code a != CodeDrainRejected))
  else false.

Definition DrainAck_Validate (a : DrainAck) : option goerror :=
  if negb (ids_ok [AccountID a; TunnelID a; ConnectorID a; SessionID a; DrainID a])
     || (ProcessGeneration a =? 0) || (Generation a =? 0) || negb (hashPattern (ContentHash a))
     || (MaxActiveStreams <? ActiveStreams a)
  then Some ErrInvalidInput
  else if negb (drain_status_ok a) then Some ErrInvalidInput
  else if (DrainAck.Code a != "") && negb (validCode (DrainAck.Code a)) then Some ErrInvalidInput
  else None.
End DrainAckValidate.

(** ** Disconnects and rejections *)

Module Disconnect.
Record Disconnect := mk {
  AccountID : string;
  TunnelID : string;
  ConnectorID : string;
  SessionID : string;
  ProcessGeneration : Z;
  Reason : DisconnectReason;
  Retryable : bool;
  Message : string;
}.
#[export] Instance settable : Settable Disconnect := fun r =>
  mk (AccountID r) (TunnelID r) (ConnectorID r) (SessionID r) (ProcessGeneration r) (Reason r)
    (Retryable r) (Message r).
#[export] Instance eq_dec : EqDecision Disconnect.
Proof. solve_decision. Defined.
Definition zero : Disconnect := mk "" "" "" "" 0 "" false "".
End Disconnect.
Export (hints) Disconnect.
Abbreviation Disconnect := Disconnect.Disconnect.

Section DisconnectValidate.
Import Disconnect.

Definition Disconnect_Validate (d : Disconnect) : option goerror :=
  if negb (ids_ok [AccountID d; TunnelID d; ConnectorID d; SessionID d])
     || (ProcessGeneration d =? 0) || negb (validDisconnectReason (Reason d))
     || (MaxReasonMessage <? slen (Message d))
  then Some ErrInvalidInput else None.
End DisconnectValidate.

Module Reject.
Record Reject := mk {
  AccountID : string;
  TunnelID : string;
  ConnectorID : string;
  SessionID : string;
  ProcessGeneration : Z;
  Code : Code;
  Reason : DisconnectReason;
  Retryable : bool;
  Message : string;
}.
#[export] Instance settable : Settable Reject := fun r =>
  mk (AccountID r) (TunnelID r) (ConnectorID r) (SessionID r) (ProcessGeneration r) (Code r)
    (Reason r) (Retryable r) (Message r).
#[export] Instance eq_dec : EqDecision Reject.
Proof. solve_decision. Defined.
Definition zero : Reject := mk "" "" "" "" 0 "" "" false "".
End Reject.
Export (hints) Reject.
Abbreviation Reject := Reject.Reject.

Section RejectValidate.
Import Reject.

Definition Reject_Validate (r : Reject) : option goerror :=
  if negb (ids_ok [AccountID r; TunnelID r; ConnectorID r; SessionID r])
     || (ProcessGeneration r =? 0) || negb (validCode (Reject.Code r))
     || negb (validDisconnectReason (Reason r)) || (MaxReasonMessage <? slen (Message r))
  then Some ErrInvalidInput else None.
End RejectValidate.
