(* ===== verification/RotationMessages.v ===== *)
(** * Credential-rotation messages

    The rotation plan and the six messages of a credential rotation, with their
    validation, from src/internal/connectorprotocol/rotation.go: the old
    credential generation signs for its successor, the new key is bound to its
    thumbprint, and every message names the operation's target set by its hash. *)
From S2P Require Import Prelude GoText GoHash GoJson Errors Canonical Identifiers WireConfig Messages.

Definition MaxRotationTargets : Z := 256.
Definition MaxRotationMessage : Z := 512.
Definition MaxRotationCredentialLifetime : duration := 5 * 365 * 24 * Hour.

Definition RotationAckStatus := string.
Definition RotationAckProofAccepted : RotationAckStatus := "proof_accepted".
Definition RotationAckInstalled : RotationAckStatus := "installed".
Definition RotationAckReady : RotationAckStatus := "ready".
Definition RotationAckRevoked : RotationAckStatus := "revoked".
Definition RotationAckRejected : RotationAckStatus := "rejected".
Definition RotationAckFailed : RotationAckStatus := "failed".

Definition validRotationNonce (value : string) : bool :=
  (16 <=? slen value) && (slen value <=? MaxNonceBytes) && (TrimSpace value == value)
  && negb (ContainsAny value crlf).

Definition decodeRotationPublicKey (value : string) : Res (list Z) :=
  match b64_decode value with
  | None => Err ErrInvalidInput
  | Some decoded =>
      if negb (Z.of_nat (length decoded) =? 32) || (b64_encode decoded != value)
      then Err ErrInvalidInput else Ok decoded
  end.

(** [thumbprint, err := IdentityThumbprint(publicKey)] gives [expected]. *)
Definition thumbprint_is (publicKey : list Z) (expected : string) : bool :=
  match IdentityThumbprint publicKey with Ok thumbprint => thumbprint == expected | Err _ => false end.

(** The generation after [old], as the code computes it in 64 bits. *)
Definition next_generation (old new : Z) : bool := negb (old =? 0) && (new =? u64_add old 1).

(** ** Targets and plans *)

Module RotationTarget.
Record RotationTarget := mk {
  ConnectorID : string;
  HostID : string;
  OldCredentialGeneration : Z;
  NewCredentialGeneration : Z;
}.
#[export] Instance settable : Settable RotationTarget := fun r =>
  mk (ConnectorID r) (HostID r) (OldCredentialGeneration r) (NewCredentialGeneration r).
#[export] Instance eq_dec : EqDecision RotationTarget.
Proof. solve_decision. Defined.
Definition zero : RotationTarget := mk "" "" 0 0.
End RotationTarget.
Export (hints) RotationTarget.
Abbreviation RotationTarget := RotationTarget.RotationTarget.

Section RotationTargetValidate.
Import RotationTarget.
Definition RotationTarget_Validate (t : RotationTarget) : option goerror :=
  if negb (ids_ok [ConnectorID t; HostID t])
     || negb (next_generation (OldCredentialGeneration t) (NewCredentialGeneration t))
  then Some ErrInvalidInput else None.
End RotationTargetValidate.

Module RotationPlan.
Record RotationPlan := mk {
  AccountID : string;
  TunnelID : string;
  OperationID : string;
  TargetSetHash : string;
  Targets : list RotationTarget.RotationTarget;
}.
#[export] Instance settable : Settable RotationPlan := fun r =>
  mk (AccountID r) (TunnelID r) (OperationID r) (TargetSetHash r) (Targets r).
#[export] Instance eq_dec : EqDecision RotationPlan.
Proof. solve_decision. Defined.
Definition zero : RotationPlan := mk "" "" "" "" [].
End RotationPlan.
Export (hints) RotationPlan.
Abbreviation RotationPlan := RotationPlan.RotationPlan.

Section RotationPlanValidate.
Import RotationPlan.
(** The loop over the targets: [seen] holds the connectors of the earlier ones,
    the last of them first. *)
Fixpoint validate_targets (seen : list string) (targets : list RotationTarget) : option goerror :=
  match targets with
  | [] => None
  | target :: rest =>
      match RotationTarget_Validate target with
      | Some err => Some err
      | None =>
          if match seen with
             | previous :: _ => negb (str_lt previous (RotationTarget.ConnectorID target))
             | [] => false
             end
          then Some ErrInvalidInput
          else if bool_decide (RotationTarget.ConnectorID target ∈ seen) then Some ErrInvalidInput
          else validate_targets (RotationTarget.ConnectorID target :: seen) rest
      end
  end.

Definition validateRotationPlanFields (p : RotationPlan) : option goerror :=
  let n := Z.of_nat (length (Targets p)) in
  if negb (ids_ok [AccountID p; TunnelID p; OperationID p])
     || negb (hashPattern (TargetSetHash p)) && (TargetSetHash p != "")
     || (n =? 0) || (MaxRotationTargets <? n)
  then Some ErrInvalidInput
  else validate_targets [] (Targets p).

(** [json.Marshal] of a target and of [rotationPlanDocument]. *)
Definition target_text (t : RotationTarget) : string :=
  object_text [member "connector_id" (quote (RotationTarget.ConnectorID t));
               member "host_id" (quote (RotationTarget.HostID t));
               member "old_credential_generation" (Itoa (RotationTarget.OldCredentialGeneration t));
               member "new_credential_generation" (Itoa (RotationTarget.NewCredentialGeneration t))].
Definition rotationPlanDocument (p : RotationPlan) : string :=
  object_text [member "protocol" (quote ProtocolName); member "version" (quote ProtocolVersion);
               member "account_id" (quote (AccountID p)); member "tunnel_id" (quote (TunnelID p));
               member "operation_id" (quote (OperationID p));
               member "targets" ("[" +:+ join_with "," (map target_text (Targets p)) +:+ "]")].
Definition rotationPlanHash (p : RotationPlan) : string := content_hash (rotationPlanDocument p).

(** [sort.Slice] by connector.  Go's sort is not stable; targets with equal
    connectors are refused by the validation that follows, so the order among
    them is immaterial. *)
Fixpoint insert_target (t : RotationTarget) (l : list RotationTarget) : list RotationTarget :=
  match l with
  | [] => [t]
  | x :: l' => if str_lt (RotationTarget.ConnectorID x) (RotationTarget.ConnectorID t)
               then x :: insert_target t l' else t :: l
  end.
Definition sort_targets (l : list RotationTarget) : list RotationTarget := foldr insert_target [] l.

Definition NewRotationPlan (accountID tunnelID operationID : string) (targets : list RotationTarget)
    : Res RotationPlan :=
  let plan := RotationPlan.mk accountID tunnelID operationID "" (sort_targets targets) in
  match validateRotationPlanFields plan with
  | Some err => Err err
  | None => Ok (plan <| TargetSetHash := rotationPlanHash plan |>)
  end.

Definition RotationPlan_Validate (p : RotationPlan) : option goerror :=
  match validateRotationPlanFields p with
  | Some err => Some err
  | None =>
      if TargetSetHash p != rotationPlanHash p
      then Some (codeError ErrContentHashMismatch ReasonSnapshotRejected false
                   (Some (OtherError "rotation target set hash mismatch")))
      else None
  end.

Definition RotationPlan_Target (p : RotationPlan) (connectorID : string) : option RotationTarget :=
  List.find (fun t => RotationTarget.ConnectorID t == connectorID) (Targets p).
End RotationPlanValidate.

(** ** Messages *)

Module CredentialRotationChallenge.
Record CredentialRotationChallenge := mk {
  AccountID : string;
  TunnelID : string;
  OperationID : string;
  ConnectorID : string;
  HostID : string;
  SessionID : string;
  ProcessGeneration : Z;
  TargetSetHash : string;
  Target : RotationTarget.RotationTarget;
  OldCredentialGeneration : Z;
  NewCredentialGeneration : Z;
  OldIdentityKeyID : string;
  OldIdentityKeyThumbprint : string;
  ChallengeNonce : string;
  IssuedAt : time;
  ExpiresAt : time;
  OverlapUntil : time;
  NewCredentialValidUntil : time;
}.
#[export] Instance settable : Settable CredentialRotationChallenge := fun r =>
  mk (AccountID r) (TunnelID r) (OperationID r) (ConnectorID r) (HostID r) (SessionID r)
    (ProcessGeneration r) (TargetSetHash r) (Target r) (OldCredentialGeneration r)
    (NewCredentialGeneration r) (OldIdentityKeyID r) (OldIdentityKeyThumbprint r)
    (ChallengeNonce r) (IssuedAt r) (ExpiresAt r) (OverlapUntil r) (NewCredentialValidUntil r).
#[export] Instance eq_dec : EqDecision CredentialRotationChallenge.
Proof. solve_decision. Defined.
Definition zero : CredentialRotationChallenge := mk "" "" "" "" "" "" 0 "" RotationTarget.zero 0 0 "" "" "" 0 0 0 0.
End CredentialRotationChallenge.
Export (hints) CredentialRotationChallenge.
Abbreviation CredentialRotationChallenge := CredentialRotationChallenge.CredentialRotationChallenge.

Section CredentialRotationChallengeValidate.
Import CredentialRotationChallenge.
Definition CredentialRotationChallenge_Validate (c : CredentialRotationChallenge) (now : time)
    : option goerror :=
  if negb (ids_ok [AccountID c; TunnelID c; OperationID c; ConnectorID c; HostID c; SessionID c])
     || (ProcessGeneration c =? 0) || negb (hashPattern (TargetSetHash c))
     || negb (next_generation (OldCredentialGeneration c) (NewCredentialGeneration c))
     || negb (ok (ValidateIdentityKey (OldIdentityKeyID c) (OldIdentityKeyThumbprint c)))
     || negb (validRotationNonce (ChallengeNonce c)) || IsZero (IssuedAt c) || IsZero (ExpiresAt c)
     || IsZero (OverlapUntil c) || IsZero (NewCredentialValidUntil c)
     || negb (After (ExpiresAt c) (IssuedAt c)) || negb (After (OverlapUntil c) (ExpiresAt c))
     || negb (After (NewCredentialValidUntil c) (OverlapUntil c))
     || (15 * Minute <? Sub (ExpiresAt c) (IssuedAt c)) || (MaxLease <? Sub (OverlapUntil c) (IssuedAt c))
     || (MaxRotationCredentialLifetime <? Sub (NewCredentialValidUntil c) (IssuedAt c))
  then Some ErrInvalidInput
  else if negb (ok (RotationTarget_Validate (Target c)))
     || (RotationTarget.ConnectorID (Target c) != ConnectorID c)
     || (RotationTarget.HostID (Target c) != HostID c)
     || negb (RotationTarget.OldCredentialGeneration (Target c) =? OldCredentialGeneration c)
     || negb (RotationTarget.NewCredentialGeneration (Target c) =? NewCredentialGeneration c)
  then Some (codeError ErrIdentityMismatch ReasonAuthentication false
               (Some (OtherError "rotation challenge target mismatch")))
  else if negb (IsZero now) && (After (IssuedAt c) (Add now MaxClockSkew)
     || (MaxClockSkew <? Sub now (IssuedAt c)) || negb (After (ExpiresAt c) now)
     || negb (After (OverlapUntil c) now))
  then Some (codeError ErrCredentialExpired ReasonCredentialExpired true None)
  else None.
End CredentialRotationChallengeValidate.

Module CredentialRotationProof.
Record CredentialRotationProof := mk {
  AccountID : string;
  TunnelID : string;
  OperationID : string;
  ConnectorID : string;
  HostID : string;
  SessionID : string;
  ProcessGeneration : Z;
  TargetSetHash : string;
  OldCredentialGeneration : Z;
  NewCredentialGeneration : Z;
  OldIdentityKeyID : string;
  OldIdentityKeyThumbprint : string;
  NewIdentityKeyID : string;
  NewIdentityKeyThumbprint : string;
  NewPublicKey : string;
  NewCredentialReference : string;
  ChallengeNonce : string;
  IssuedAt : time;
  NewCredentialValidUntil : time;
  OldSignedProof : string;
  NewSignedProof : string;
}.
#[export] Instance settable : Settable CredentialRotationProof := fun r =>
  mk (AccountID r) (TunnelID r) (OperationID r) (ConnectorID r) (HostID r) (SessionID r)
    (ProcessGeneration r) (TargetSetHash r) (OldCredentialGeneration r)
    (NewCredentialGeneration r) (OldIdentityKeyID r) (OldIdentityKeyThumbprint r)
    (NewIdentityKeyID r) (NewIdentityKeyThumbprint r) (NewPublicKey r)
    (NewCredentialReference r) (ChallengeNonce r) (IssuedAt r) (NewCredentialValidUntil r)
    (OldSignedProof r) (NewSignedProof r).
#[export] Instance eq_dec : EqDecision CredentialRotationProof.
Proof. solve_decision. Defined.
Definition zero : CredentialRotationProof := mk "" "" "" "" "" "" 0 "" 0 0 "" "" "" "" "" "" "" 0 0 "" "".
End CredentialRotationProof.
Export (hints) CredentialRotationProof.
Abbreviation CredentialRotationProof := CredentialRotationProof.CredentialRotationProof.

Section CredentialRotationProofValidate.
Import CredentialRotationProof.
Definition CredentialRotationProof_validate (p : CredentialRotationProof) : option goerror :=
  if negb (ids_ok [AccountID p; TunnelID p; OperationID p; ConnectorID p; HostID p; SessionID p])
     || (ProcessGeneration p =? 0) || negb (hashPattern (TargetSetHash p))
     || negb (next_generation (OldCredentialGeneration p) (NewCredentialGeneration p))
     || negb (ok (ValidateIdentityKey (OldIdentityKeyID p) (OldIdentityKeyThumbprint p)))
     || negb (ok (ValidateIdentityKey (NewIdentityKeyID p) (NewIdentityKeyThumbprint p)))
     || (OldIdentityKeyID p == NewIdentityKeyID p) || negb (validRotationNonce (ChallengeNonce p))
     || IsZero (IssuedAt p) || IsZero (NewCredentialValidUntil p)
     || negb (ok (ValidateCredentialReference (NewCredentialReference p)))
     || negb (After (NewCredentialValidUntil p) (IssuedAt p))
     || (MaxRotationCredentialLifetime <? Sub (NewCredentialValidUntil p) (IssuedAt p))
  then Some ErrInvalidInput else
  match decodeRotationPublicKey (NewPublicKey p) with
  | Err err => Some err
  | Ok publicKey =>
      if negb (thumbprint_is publicKey (NewIdentityKeyThumbprint p))
      then Some (codeError ErrIdentityMismatch ReasonAuthentication false
                   (Some (OtherError "new rotation key thumbprint mismatch")))
      else None
  end.

Definition CredentialRotationProof_Validate (p : CredentialRotationProof) (now : time) : option goerror :=
  match CredentialRotationProof_validate p with
  | Some err => Some err
  | None =>
      if negb (ok (ValidateProof (OldSignedProof p))) || negb (ok (ValidateProof (NewSignedProof p)))
      then Some ErrInvalidInput
      else if negb (IsZero now) && (After (IssuedAt p) (Add now MaxClockSkew)
         || (MaxClockSkew <? Sub now (IssuedAt p)))
      then Some (codeError ErrAuthenticationFailed ReasonAuthentication false
                   (Some (OtherError "rotation proof is outside clock skew")))
      else None
  end.
End CredentialRotationProofValidate.

Module CredentialRotationInstall.
Record CredentialRotationInstall := mk {
  AccountID : string;
  TunnelID : string;
  OperationID : string;
  ConnectorID : string;
  HostID : string;
  SessionID : string;
  ProcessGeneration : Z;
  TargetSetHash : string;
  OldCredentialGeneration : Z;
  NewCredentialGeneration : Z;
  NewIdentityKeyID : string;
  NewIdentityKeyThumbprint : string;
  NewPublicKey : string;
  NewCredentialReference : string;
  ChallengeNonce : string;
  OverlapUntil : time;
  NewCredentialValidUntil : time;
  ReplacementProcessGeneration : Z;
}.
#[export] Instance settable : Settable CredentialRotationInstall := fun r =>
  mk (AccountID r) (TunnelID r) (OperationID r) (ConnectorID r) (HostID r) (SessionID r)
    (ProcessGeneration r) (TargetSetHash r) (OldCredentialGeneration r)
    (NewCredentialGeneration r) (NewIdentityKeyID r) (NewIdentityKeyThumbprint r)
    (NewPublicKey r) (NewCredentialReference r) (ChallengeNonce r) (OverlapUntil r)
    (NewCredentialValidUntil r) (ReplacementProcessGeneration r).
#[export] Instance eq_dec : EqDecision CredentialRotationInstall.
Proof. solve_decision. Defined.
Definition zero : CredentialRotationInstall := mk "" "" "" "" "" "" 0 "" 0 0 "" "" "" "" "" 0 0 0.
End CredentialRotationInstall.
Export (hints) CredentialRotationInstall.
Abbreviation CredentialRotationInstall := CredentialRotationInstall.CredentialRotationInstall.

Section CredentialRotationInstallValidate.
Import CredentialRotationInstall.
Definition CredentialRotationInstall_Validate (i : CredentialRotationInstall) (now : time)
    : option goerror :=
  if negb (ids_ok [AccountID i; TunnelID i; OperationID i; ConnectorID i; HostID i; SessionID i])
     || (ProcessGeneration i =? 0) || (ReplacementProcessGeneration i <=? ProcessGeneration i)
     || negb (hashPattern (TargetSetHash i))
     || negb (next_generation (OldCredentialGeneration i) (NewCredentialGeneration i))
     || negb (ok (ValidateIdentityKey (NewIdentityKeyID i) (NewIdentityKeyThumbprint i)))
     || negb (ok (ValidateCredentialReference (NewCredentialReference i)))
     || negb (validRotationNonce (ChallengeNonce i)) || IsZero (OverlapUntil i)
     || IsZero (NewCredentialValidUntil i) || negb (After (NewCredentialValidUntil i) (OverlapUntil i))
     || (MaxRotationCredentialLifetime <? Sub (NewCredentialValidUntil i) (OverlapUntil i))
  then Some ErrInvalidInput else
  match decodeRotationPublicKey (NewPublicKey i) with
  | Err err => Some err
  | Ok publicKey =>
      if negb (thumbprint_is publicKey (NewIdentityKeyThumbprint i)) then Some ErrIdentityMismatch
      else if negb (IsZero now) && negb (After (OverlapUntil i) now)
      then Some (codeError ErrCredentialExpired ReasonCredentialExpired true None)
      else None
  end.
End CredentialRotationInstallValidate.

Module CredentialRotationReady.
Record CredentialRotationReady := mk {
  AccountID : string;
  TunnelID : string;
  OperationID : string;
  ConnectorID : string;
  HostID : string;
  SessionID : string;
  PreviousSessionID : string;
  ProcessGeneration : Z;
  TargetSetHash : string;
  OldCredentialGeneration : Z;
  NewCredentialGeneration : Z;
  NewIdentityKeyID : string;
  NewIdentityKeyThumbprint : string;
  NewPublicKey : string;
  NewCredentialReference : string;
  NewCredentialValidUntil : time;
  ConfigGeneration : Z;
  ConfigContentHash : string;
  EdgeReady : bool;
  RouteReady : bool;
  OriginReady : bool;
  ReadyAt : time;
}.
#[export] Instance settable : Settable CredentialRotationReady := fun r =>
  mk (AccountID r) (TunnelID r) (OperationID r) (ConnectorID r) (HostID r) (SessionID r)
    (PreviousSessionID r) (ProcessGeneration r) (TargetSetHash r) (OldCredentialGeneration r)
    (NewCredentialGeneration r) (NewIdentityKeyID r) (NewIdentityKeyThumbprint r)
    (NewPublicKey r) (NewCredentialReference r) (NewCredentialValidUntil r)
    (ConfigGeneration r) (ConfigContentHash r) (EdgeReady r) (RouteReady r) (OriginReady r)
    (ReadyAt r).
#[export] Instance eq_dec : EqDecision CredentialRotationReady.
Proof. solve_decision. Defined.
Definition zero : CredentialRotationReady := mk "" "" "" "" "" "" "" 0 "" 0 0 "" "" "" "" 0 0 "" false false false 0.
End CredentialRotationReady.
Export (hints) CredentialRotationReady.
Abbreviation CredentialRotationReady := CredentialRotationReady.CredentialRotationReady.

Section CredentialRotationReadyValidate.
Import CredentialRotationReady.
Definition CredentialRotationReady_Validate (r : CredentialRotationReady) (now : time) : option goerror :=
  if negb (ids_ok [AccountID r; TunnelID r; OperationID r; ConnectorID r; HostID r; SessionID r;
                   PreviousSessionID r])
     || (ProcessGeneration r =? 0) || negb (hashPattern (TargetSetHash r))
     || negb (next_generation (OldCredentialGeneration r) (NewCredentialGeneration r))
     || negb (ok (ValidateIdentityKey (NewIdentityKeyID r) (NewIdentityKeyThumbprint r)))
     || negb (ok (ValidateCredentialReference (NewCredentialReference r)))
     || IsZero (NewCredentialValidUntil r) || (ConfigGeneration r =? 0)
     || negb (hashPattern (ConfigContentHash r)) || IsZero (ReadyAt r)
  then Some ErrInvalidInput else
  match decodeRotationPublicKey (NewPublicKey r) with
  | Err err => Some err
  | Ok publicKey =>
      if negb (thumbprint_is publicKey (NewIdentityKeyThumbprint r)) then Some ErrIdentityMismatch
      else if negb (EdgeReady r) || negb (RouteReady r) || negb (OriginReady r)
      then Some (codeError ErrCredentialRotationNotReady ReasonSnapshotRejected true None)
      else if negb (IsZero now) && (negb (After (NewCredentialValidUntil r) now)
         || Before (ReadyAt r) (Add now (- MaxClockSkew)) || After (ReadyAt r) (Add now MaxClockSkew))
      then if negb (After (NewCredentialValidUntil r) now)
           then Some (codeError ErrCredentialExpired ReasonCredentialExpired true None)
           else Some ErrInvalidInput
      else None
  end.
End CredentialRotationReadyValidate.

Module CredentialRotationRevoke.
Record CredentialRotationRevoke := mk {
  AccountID : string;
  TunnelID : string;
  OperationID : string;
  ConnectorID : string;
  HostID : string;
  SessionID : string;
  ProcessGeneration : Z;
  TargetSetHash : string;
  OldCredentialGeneration : Z;
  NewCredentialGeneration : Z;
  RevokeNonce : string;
  IssuedAt : time;
  Deadline : time;
}.
#[export] Instance settable : Settable CredentialRotationRevoke := fun r =>
  mk (AccountID r) (TunnelID r) (OperationID r) (ConnectorID r) (HostID r) (SessionID r)
    (ProcessGeneration r) (TargetSetHash r) (OldCredentialGeneration r)
    (NewCredentialGeneration r) (RevokeNonce r) (IssuedAt r) (Deadline r).
#[export] Instance eq_dec : EqDecision CredentialRotationRevoke.
Proof. solve_decision. Defined.
Definition zero : CredentialRotationRevoke := mk "" "" "" "" "" "" 0 "" 0 0 "" 0 0.
End CredentialRotationRevoke.
Export (hints) CredentialRotationRevoke.
Abbreviation CredentialRotationRevoke := CredentialRotationRevoke.CredentialRotationRevoke.

Section CredentialRotationRevokeValidate.
Import CredentialRotationRevoke.
Definition CredentialRotationRevoke_Validate (r : CredentialRotationRevoke) (now : time) : option goerror :=
  if negb (ids_ok [AccountID r; TunnelID r; OperationID r; ConnectorID r; HostID r; SessionID r])
     || (ProcessGeneration r =? 0) || negb (hashPattern (TargetSetHash r))
     || negb (next_generation (OldCredentialGeneration r) (NewCredentialGeneration r))
     || negb (validRotationNonce (RevokeNonce r)) || IsZero (IssuedAt r) || IsZero (Deadline r)
     || negb (After (Deadline r) (IssuedAt r)) || (DefaultAbortTimeout * 2 <? Sub (Deadline r) (IssuedAt r))
  then Some ErrInvalidInput
  else if negb (IsZero now) && (After (IssuedAt r) (Add now MaxClockSkew) || negb (After (Deadline r) now))
  then Some (codeError ErrCredentialExpired ReasonCredentialExpired true None)
  else None.
End CredentialRotationRevokeValidate.

Module CredentialRotationAck.
Record CredentialRotationAck := mk {
  AccountID : string;
  TunnelID : string;
  OperationID : string;
  ConnectorID : string;
  HostID : string;
  SessionID : string;
  ProcessGeneration : Z;
  TargetSetHash : string;
  OldCredentialGeneration : Z;
  NewCredentialGeneration : Z;
  Status : RotationAckStatus;
  Code : Code;
  Message : string;
}.
#[export] Instance settable : Settable CredentialRotationAck := fun r =>
  mk (AccountID r) (TunnelID r) (OperationID r) (ConnectorID r) (HostID r) (SessionID r)
    (ProcessGeneration r) (TargetSetHash r) (OldCredentialGeneration r)
    (NewCredentialGeneration r) (Status r) (Code r) (Message r).
#[export] Instance eq_dec : EqDecision CredentialRotationAck.
Proof. solve_decision. Defined.
Definition zero : CredentialRotationAck := mk "" "" "" "" "" "" 0 "" 0 0 "" "" "".
End CredentialRotationAck.
Export (hints) CredentialRotationAck.
Abbreviation CredentialRotationAck := CredentialRotationAck.CredentialRotationAck.

Section CredentialRotationAckValidate.
Import CredentialRotationAck.
Definition rotation_status_ok (a : CredentialRotationAck) : bool :=
  if bool_decide (Status a ∈ [RotationAckProofAccepted; RotationAckInstalled; RotationAckReady;
                              RotationAckRevoked])
  then CredentialRotationAck.Code a == ""
  else if (Status a == RotationAckRejected) || (Status a == RotationAckFailed)
  then (CredentialRotationAck.Code a != "") && validCode (CredentialRotationAck.Code a)
  else false.

Definition CredentialRotationAck_Validate (a : CredentialRotationAck) : option goerror :=
  if negb (ids_ok [AccountID a; TunnelID a; OperationID a; ConnectorID a; HostID a; SessionID a])
     || (ProcessGeneration a =? 0) || negb (hashPattern (TargetSetHash a))
     || negb (next_generation (OldCredentialGeneration a) (NewCredentialGeneration a))
     || (MaxRotationMessage <? slen (Message a))
  then Some ErrInvalidInput
  else if negb (rotation_status_ok a) then Some ErrInvalidInput
  else None.
End CredentialRotationAckValidate.

