(* ===== verification/Transcripts.v ===== *)
(** * Signed transcripts

    The texts that connectors sign: the authentication and renewal proofs of
    src/internal/connectorprotocol/protocol.go and the credential-rotation proof
    of rotation.go, with the functions that sign and verify them.  Signing keys
    and the lookup of the old key are the caller's and are parameters. *)
From S2P Require Import Prelude GoText GoHash GoUrl GoJson Errors Canonical Identifiers WireConfig GoTime.
From S2P Require Import Messages RotationMessages.

(** A struct member that holds a time; the whole text is an error when the time
    has no JSON form. *)
Definition time_member (name : string) (t : time) : option string :=
  text ← Time_MarshalJSON t; Some (member name text).
(** Of a time whose location has that offset. *)
Definition zoned_member (name : string) (t : time) (offset : Z) : option string :=
  text ← Time_MarshalJSON_in t offset; Some (member name text).

(** ** Authentication and renewal *)

(** [omitempty] never omits a [time.Time], which is a struct. *)
Record authProofTranscript := mkTranscript {
  Domain : string;
  t_AccountID : string;
  t_TunnelID : string;
  t_ConnectorID : string;
  t_HostID : string;
  t_IdentityKeyID : string;
  t_IdentityKeyThumbprint : string;
  t_ProcessGeneration : Z;
  t_CredentialGeneration : Z;
  t_SessionID : string;
  t_Nonce : string;
  t_IssuedAt : time;
  t_ExpiresAt : time;
  t_RequestedAt : time;
}.

Definition transcript_text (t : authProofTranscript) : option string :=
  issued ← time_member "issued_at" (t_IssuedAt t);
  expires ← time_member "expires_at" (t_ExpiresAt t);
  requested ← time_member "requested_at" (t_RequestedAt t);
  Some (object_text
    ([member "domain" (quote (Domain t)); member "protocol" (quote ProtocolName);
      member "version" (quote ProtocolVersion); member "account_id" (quote (t_AccountID t));
      member "tunnel_id" (quote (t_TunnelID t)); member "connector_id" (quote (t_ConnectorID t));
      member "host_id" (quote (t_HostID t)); member "identity_key_id" (quote (t_IdentityKeyID t));
      member "identity_key_thumbprint" (quote (t_IdentityKeyThumbprint t));
      member "process_generation" (Itoa (t_ProcessGeneration t));
      member "credential_generation" (Itoa (t_CredentialGeneration t))]
     ++ omitempty (t_SessionID t == "") "session_id" (quote (t_SessionID t))
     ++ [member "nonce" (quote (t_Nonce t)); issued; expires; requested])).

Definition json_error : goerror := OtherError "json".
Definition marshalled (o : option string) : Res string :=
  match o with Some text => Ok text | None => Err json_error end.

Section Auth.
Import AuthRequest.
Definition AuthProofPayload (request : AuthRequest) : Res string :=
  match AuthRequest_validate request 0 false with
  | Some err => Err err
  | None =>
      marshalled (transcript_text
        (mkTranscript "paperboat.connector.auth.v1" (AccountID request) (TunnelID request)
           (ConnectorID request) (HostID request) (IdentityKeyID request)
           (IdentityKeyThumbprint request) (ProcessGeneration request)
           (CredentialGeneration request) "" (Nonce request) (IssuedAt request)
           (ExpiresAt request) 0))
  end.

Definition VerifyAuthProof (request : AuthRequest) (verify : string -> list Z -> bool)
    : option goerror :=
  match AuthProofPayload request with
  | Err err => Some err
  | Ok payload => VerifyProofPayload payload (SignedProof request) verify
  end.

(** The signed request and the error that is returned beside it. *)
Definition SignAuthProof (request : AuthRequest) (sign : string -> list Z)
    : AuthRequest * option goerror :=
  match AuthProofPayload request with
  | Err err => (AuthRequest.zero, Some err)
  | Ok payload =>
      match SignProofPayload payload sign with
      | Err err => (AuthRequest.zero, Some err)
      | Ok proof =>
          let request := request <| SignedProof := proof |> in
          (request, AuthRequest_Validate request 0)
      end
  end.
End Auth.

Section Renewal.
Import RenewalRequest.
Definition RenewalProofPayload (request : RenewalRequest) : Res string :=
  match RenewalRequest_validate request false with
  | Some err => Err err
  | None =>
      marshalled (transcript_text
        (mkTranscript "paperboat.connector.auth.renew.v1" (AccountID request) (TunnelID request)
           (ConnectorID request) (HostID request) (IdentityKeyID request)
           (IdentityKeyThumbprint request) (ProcessGeneration request)
           (CredentialGeneration request) (SessionID request) (Nonce request) 0 0
           (RequestedAt request)))
  end.

Definition VerifyRenewalProof (request : RenewalRequest) (verify : string -> list Z -> bool)
    : option goerror :=
  match RenewalProofPayload request with
  | Err err => Some err
  | Ok payload => VerifyProofPayload payload (SignedProof request) verify
  end.

Definition SignRenewalProof (request : RenewalRequest) (sign : string -> list Z)
    : RenewalRequest * option goerror :=
  match RenewalProofPayload request with
  | Err err => (RenewalRequest.zero, Some err)
  | Ok payload =>
      match SignProofPayload payload sign with
      | Err err => (RenewalRequest.zero, Some err)
      | Ok proof =>
          let request := request <| SignedProof := proof |> in
          (request, RenewalRequest_Validate request)
      end
  end.
End Renewal.

(** ** Credential rotation *)

Section Rotation.
Import CredentialRotationProof.

Definition rotation_domain : string := "paperboat.connector.credential-rotation.v1".
Definition rotationProofTranscript (p : CredentialRotationProof) : option string :=
  issued ← time_member "issued_at" (IssuedAt p);
  until ← time_member "new_credential_valid_until" (NewCredentialValidUntil p);
  Some (object_text
    [member "domain" (quote rotation_domain); member "protocol" (quote ProtocolName);
     member "version" (quote ProtocolVersion); member "account_id" (quote (AccountID p));
     member "tunnel_id" (quote (TunnelID p)); member "operation_id" (quote (OperationID p));
     member "connector_id" (quote (ConnectorID p)); member "host_id" (quote (HostID p));
     member "session_id" (quote (SessionID p));
     member "process_generation" (Itoa (ProcessGeneration p));
     member "target_set_hash" (quote (TargetSetHash p));
     member "old_credential_generation" (Itoa (OldCredentialGeneration p));
     member "new_credential_generation" (Itoa (NewCredentialGeneration p));
     member "old_identity_key_id" (quote (OldIdentityKeyID p));
     member "old_identity_key_thumbprint" (quote (OldIdentityKeyThumbprint p));
     member "new_identity_key_id" (quote (NewIdentityKeyID p));
     member "new_identity_key_thumbprint" (quote (NewIdentityKeyThumbprint p));
     member "new_public_key" (quote (NewPublicKey p));
     member "new_credential_reference" (quote (NewCredentialReference p));
     member "challenge_nonce" (quote (ChallengeNonce p)); issued; until]).

(** [validate] does not use its argument, so [validate(false)] is the same. *)
Definition CredentialRotationProofPayload (proof : CredentialRotationProof) : Res string :=
  match CredentialRotationProof_validate proof with
  | Some err => Err err
  | None => marshalled (rotationProofTranscript proof)
  end.

Definition SignCredentialRotationProof (proof : CredentialRotationProof)
    (oldSign newSign : string -> list Z) : CredentialRotationProof * option goerror :=
  match CredentialRotationProofPayload proof with
  | Err err => (zero, Some err)
  | Ok payload =>
      match SignProofPayload payload oldSign with
      | Err err => (zero, Some err)
      | Ok oldProof =>
          match SignProofPayload payload newSign with
          | Err err => (zero, Some err)
          | Ok newProof =>
              let proof := proof <| OldSignedProof := oldProof |> <| NewSignedProof := newProof |> in
              (proof, CredentialRotationProof_Validate proof 0)
          end
      end
  end.

(** The old key is looked up and checked by the callback [verifyOld]; the new
    key signs for itself, checked with [ed25519.Verify]. *)
Definition VerifyCredentialRotationProofAt
    (ed25519_Verify : list Z -> string -> list Z -> bool)
    (verifyOld : CredentialRotationProof -> string -> list Z -> option goerror)
    (proof : CredentialRotationProof) (now : time) : option goerror :=
  match CredentialRotationProof_Validate proof now with
  | Some err => Some err
  | None =>
  match CredentialRotationProofPayload proof with
  | Err err => Some err
  | Ok payload =>
  match DecodeProof (OldSignedProof proof) with
  | Err err => Some err
  | Ok oldSignature =>
  match verifyOld proof payload oldSignature with
  | Some err => Some (codeError ErrAuthenticationFailed ReasonAuthentication false (Some err))
  | None =>
  match DecodeProof (NewSignedProof proof) with
  | Err err => Some err
  | Ok newSignature =>
      let failed := Some (codeError ErrAuthenticationFailed ReasonAuthentication false
                            (Some (OtherError "new rotation key proof failed"))) in
      match decodeRotationPublicKey (NewPublicKey proof) with
      | Err _ => failed
      | Ok publicKey => if ed25519_Verify publicKey payload newSignature then None else failed
      end
  end end end end end.
End Rotation.
