(* ===== verification/Frames.v ===== *)
(** * Frames

    The length-prefixed JSON frames of the connector protocol, from
    src/internal/connectorprotocol/protocol.go: message types, the payload
    bounds, strict decoding of every payload into its message with the
    message's own validation, and [NewFrame], [WriteFrame], [ReadFrame] and
    [DecodePayload].  A reader is the text it still has to deliver; a writer is
    any implementation of the class [Writer]. *)
From S2P Require Import Prelude GoText GoHash GoUrl GoJson Errors Canonical Identifiers WireConfig GoStruct.
From S2P Require Import Messages RotationMessages.

(** ** Message types *)
Definition MessageType := string.
Definition MessageHello : MessageType := "hello".
Definition MessageWelcome : MessageType := "welcome".
Definition MessageSnapshot : MessageType := "snapshot".
Definition MessageDelta : MessageType := "delta".
Definition MessageAck : MessageType := "ack".
Definition MessageReady : MessageType := "ready".
Definition MessageHeartbeat : MessageType := "heartbeat".
Definition MessageHeartbeatAck : MessageType := "heartbeat_ack".
Definition MessageAuthRenew : MessageType := "auth_renew".
Definition MessageAuthRenewed : MessageType := "auth_renewed".
Definition MessageDrain : MessageType := "drain".
Definition MessageDrainAck : MessageType := "drain_ack".
Definition MessageCredentialRotationChallenge : MessageType := "credential_rotation_challenge".
Definition MessageCredentialRotationProof : MessageType := "credential_rotation_proof".
Definition MessageCredentialRotationInstall : MessageType := "credential_rotation_install".
Definition MessageCredentialRotationReady : MessageType := "credential_rotation_ready".
Definition MessageCredentialRotationRevoke : MessageType := "credential_rotation_revoke".
Definition MessageCredentialRotationAck : MessageType := "credential_rotation_ack".
Definition MessageDisconnect : MessageType := "disconnect".
Definition MessageReject : MessageType := "reject".

Definition allowedMessageTypes : list MessageType :=
  [MessageHello; MessageWelcome; MessageSnapshot; MessageDelta; MessageAck; MessageReady;
   MessageHeartbeat; MessageHeartbeatAck; MessageAuthRenew; MessageAuthRenewed;
   MessageDrain; MessageDrainAck; MessageCredentialRotationChallenge;
   MessageCredentialRotationProof; MessageCredentialRotationInstall;
   MessageCredentialRotationReady; MessageCredentialRotationRevoke;
   MessageCredentialRotationAck; MessageDisconnect; MessageReject].
Definition allowed (messageType : MessageType) : bool := bool_decide (messageType ∈ allowedMessageTypes).

Definition maxPayloadBytes (messageType : MessageType) : Z :=
  if messageType == MessageSnapshot then MaxSnapshotBytes + Z.shiftl 16 10
  else if messageType == MessageDelta then MaxDeltaBytes + Z.shiftl 16 10
  else Z.shiftl 64 10.

Definition validRequestID (value : string) : bool :=
  (1 <=? slen value) && (slen value <=? MaxIdentifierBytes) && identifierPattern value.

(** ** The JSON names of the message fields *)

Section AuthRequestFields.
Import AuthRequest.
Definition AuthRequest_fields : list (field AuthRequest) :=
  [fld "account_id" raw_string AccountID; fld "tunnel_id" raw_string TunnelID;
   fld "connector_id" raw_string ConnectorID; fld "host_id" raw_string HostID;
   fld "identity_key_id" raw_string IdentityKeyID;
   fld "identity_key_thumbprint" raw_string IdentityKeyThumbprint;
   fld "process_generation" raw_u64 ProcessGeneration;
   fld "credential_generation" raw_u64 CredentialGeneration; fld "nonce" raw_string Nonce;
   fld "signed_proof" raw_string SignedProof; fld "issued_at" raw_time IssuedAt;
   fld "expires_at" raw_time ExpiresAt].
End AuthRequestFields.

Section AuthResultFields.
Import AuthResult.
Definition AuthResult_fields : list (field AuthResult) :=
  [fld "account_id" raw_string AccountID; fld "tunnel_id" raw_string TunnelID;
   fld "connector_id" raw_string ConnectorID; fld "session_id" raw_string SessionID;
   fld "host_id" raw_string HostID; fld "identity_key_id" raw_string IdentityKeyID;
   fld "identity_key_thumbprint" raw_string IdentityKeyThumbprint;
   fld "process_generation" raw_u64 ProcessGeneration;
   fld "credential_generation" raw_u64 CredentialGeneration;
   fld "credential_expires_at" raw_time CredentialExpiresAt;
   fld "lease_expires_at" raw_time LeaseExpiresAt].
End AuthResultFields.

Section RenewalRequestFields.
Import RenewalRequest.
Definition RenewalRequest_fields : list (field RenewalRequest) :=
  [fld "session_id" raw_string SessionID; fld "account_id" raw_string AccountID;
   fld "tunnel_id" raw_string TunnelID; fld "connector_id" raw_string ConnectorID;
   fld "host_id" raw_string HostID; fld "identity_key_id" raw_string IdentityKeyID;
   fld "identity_key_thumbprint" raw_string IdentityKeyThumbprint;
   fld "process_generation" raw_u64 ProcessGeneration;
   fld "credential_generation" raw_u64 CredentialGeneration; fld "nonce" raw_string Nonce;
   fld "signed_proof" raw_string SignedProof; fld "requested_at" raw_time RequestedAt].
End RenewalRequestFields.

Section LeaseFields.
Import Lease.
Definition Lease_fields : list (field Lease) :=
  [fld "session_id" raw_string SessionID; fld "expires_at" raw_time ExpiresAt;
   fld "heartbeat_interval_ms" raw_u32 HeartbeatIntervalMS].
End LeaseFields.

Section HelloFields.
Import Hello.
Definition Hello_fields : list (field Hello) :=
  [fld "protocol" raw_string Protocol; fld "min_version" raw_string MinVersion;
   fld "max_version" raw_string MaxVersion; fld "account_id" raw_string AccountID;
   fld "tunnel_id" raw_string TunnelID; fld "connector_id" raw_string ConnectorID;
   fld "host_id" raw_string HostID; fld "process_generation" raw_u64 ProcessGeneration;
   fld "capabilities" raw_strings Capabilities;
   fld "auth" (raw_struct AuthRequest_fields) Auth].
End HelloFields.

Section WelcomeFields.
Import Welcome.
Definition Welcome_fields : list (field Welcome) :=
  [fld "protocol" raw_string Protocol; fld "version" raw_string Version;
   fld "session_id" raw_string SessionID; fld "capabilities" raw_strings Capabilities;
   fld "lease" (raw_struct Lease_fields) Welcome.Lease;
   fld "requires_snapshot" raw_bool RequiresSnapshot; fld "server_time" raw_time ServerTime].
End WelcomeFields.

Section SnapshotFields.
Import Snapshot.
Definition Snapshot_fields : list (field Snapshot) :=
  [fld "account_id" raw_string AccountID; fld "tunnel_id" raw_string TunnelID;
   fld "connector_id" raw_string ConnectorID; fld "session_id" raw_string SessionID;
   fld "process_generation" raw_u64 ProcessGeneration; fld "generation" raw_u64 Generation;
   fld "content_hash" raw_string ContentHash; fld "payload" raw_message Payload].
End SnapshotFields.

Section DeltaFields.
Import Delta.
Definition Delta_fields : list (field Delta) :=
  [fld "account_id" raw_string AccountID; fld "tunnel_id" raw_string TunnelID;
   fld "connector_id" raw_string ConnectorID; fld "session_id" raw_string SessionID;
   fld "process_generation" raw_u64 ProcessGeneration;
   fld "previous_generation" raw_u64 PreviousGeneration; fld "generation" raw_u64 Generation;
   fld "previous_content_hash" raw_string PreviousContentHash;
   fld "content_hash" raw_string ContentHash; fld "payload" raw_message Payload].
End DeltaFields.

Section AckFields.
Import Ack.
Definition Ack_fields : list (field Ack) :=
  [fld "account_id" raw_string AccountID; fld "tunnel_id" raw_string TunnelID;
   fld "connector_id" raw_string ConnectorID; fld "session_id" raw_string SessionID;
   fld "process_generation" raw_u64 ProcessGeneration; fld "kind" raw_string Kind;
   fld "status" raw_string Status; fld "generation" raw_u64 Generation;
   fld "content_hash" raw_string ContentHash; fld "code" raw_string Ack.Code].
End AckFields.

Section ReadinessFields.
Import Readiness.
Definition Readiness_fields : list (field Readiness) :=
  [fld "account_id" raw_string AccountID; fld "session_id" raw_string SessionID;
   fld "tunnel_id" raw_string TunnelID; fld "connector_id" raw_string ConnectorID;
   fld "process_generation" raw_u64 ProcessGeneration; fld "generation" raw_u64 Generation;
   fld "content_hash" raw_string ContentHash; fld "edge_ready" raw_bool EdgeReady;
   fld "route_ready" raw_bool RouteReady; fld "origin_ready" raw_bool OriginReady].
End ReadinessFields.

Section HeartbeatFields.
Import Heartbeat.
Definition Heartbeat_fields : list (field Heartbeat) :=
  [fld "account_id" raw_string AccountID; fld "session_id" raw_string SessionID;
   fld "tunnel_id" raw_string TunnelID; fld "connector_id" raw_string ConnectorID;
   fld "process_generation" raw_u64 ProcessGeneration;
   fld "last_applied_generation" raw_u64 LastAppliedGeneration;
   fld "last_applied_content_hash" raw_string LastAppliedHash; fld "sent_at" raw_time SentAt].
End HeartbeatFields.

Section HeartbeatAckFields.
Import HeartbeatAck.
Definition HeartbeatAck_fields : list (field HeartbeatAck) :=
  [fld "account_id" raw_string AccountID; fld "tunnel_id" raw_string TunnelID;
   fld "connector_id" raw_string ConnectorID; fld "session_id" raw_string SessionID;
   fld "process_generation" raw_u64 ProcessGeneration;
   fld "lease_expires_at" raw_time LeaseExpiresAt; fld "server_time" raw_time ServerTime].
End HeartbeatAckFields.

Section DrainFields.
Import Drain.
Definition Drain_fields : list (field Drain) :=
  [fld "account_id" raw_string AccountID; fld "tunnel_id" raw_string TunnelID;
   fld "connector_id" raw_string ConnectorID; fld "session_id" raw_string SessionID;
   fld "process_generation" raw_u64 ProcessGeneration; fld "drain_id" raw_string DrainID;
   fld "generation" raw_u64 Generation; fld "content_hash" raw_string ContentHash;
   fld "deadline" raw_time Deadline; fld "stop_new_streams" raw_bool StopNewStreams;
   fld "force_after_deadline" raw_bool ForceAfterDeadline].
End DrainFields.

Section DrainAckFields.
Import DrainAck.
Definition DrainAck_fields : list (field DrainAck) :=
  [fld "account_id" raw_string AccountID; fld "tunnel_id" raw_string TunnelID;
   fld "connector_id" raw_string ConnectorID; fld "session_id" raw_string SessionID;
   fld "process_generation" raw_u64 ProcessGeneration; fld "drain_id" raw_string DrainID;
   fld "generation" raw_u64 Generation; fld "content_hash" raw_string ContentHash;
   fld "status" raw_string Status; fld "active_streams" raw_u32 ActiveStreams;
   fld "forced_close" raw_bool ForcedClose; fld "code" raw_string DrainAck.Code].
End DrainAckFields.

Section RotationTargetFields.
Import RotationTarget.
Definition RotationTarget_fields : list (field RotationTarget) :=
  [fld "connector_id" raw_string ConnectorID; fld "host_id" raw_string HostID;
   fld "old_credential_generation" raw_u64 OldCredentialGeneration;
   fld "new_credential_generation" raw_u64 NewCredentialGeneration].
End RotationTargetFields.

Section CredentialRotationChallengeFields.
Import CredentialRotationChallenge.
Definition CredentialRotationChallenge_fields : list (field CredentialRotationChallenge) :=
  [fld "account_id" raw_string AccountID; fld "tunnel_id" raw_string TunnelID;
   fld "operation_id" raw_string OperationID; fld "connector_id" raw_string ConnectorID;
   fld "host_id" raw_string HostID; fld "session_id" raw_string SessionID;
   fld "process_generation" raw_u64 ProcessGeneration;
   fld "target_set_hash" raw_string TargetSetHash;
   fld "target" (raw_struct RotationTarget_fields) Target;
   fld "old_credential_generation" raw_u64 OldCredentialGeneration;
   fld "new_credential_generation" raw_u64 NewCredentialGeneration;
   fld "old_identity_key_id" raw_string OldIdentityKeyID;
   fld "old_identity_key_thumbprint" raw_string OldIdentityKeyThumbprint;
   fld "challenge_nonce" raw_string ChallengeNonce; fld "issued_at" raw_time IssuedAt;
   fld "expires_at" raw_time ExpiresAt; fld "overlap_until" raw_time OverlapUntil;
   fld "new_credential_valid_until" raw_time NewCredentialValidUntil].
End CredentialRotationChallengeFields.

Section CredentialRotationProofFields.
Import CredentialRotationProof.
Definition CredentialRotationProof_fields : list (field CredentialRotationProof) :=
  [fld "account_id" raw_string AccountID; fld "tunnel_id" raw_string TunnelID;
   fld "operation_id" raw_string OperationID; fld "connector_id" raw_string ConnectorID;
   fld "host_id" raw_string HostID; fld "session_id" raw_string SessionID;
   fld "process_generation" raw_u64 ProcessGeneration;
   fld "target_set_hash" raw_string TargetSetHash;
   fld "old_credential_generation" raw_u64 OldCredentialGeneration;
   fld "new_credential_generation" raw_u64 NewCredentialGeneration;
   fld "old_identity_key_id" raw_string OldIdentityKeyID;
   fld "old_identity_key_thumbprint" raw_string OldIdentityKeyThumbprint;
   fld "new_identity_key_id" raw_string NewIdentityKeyID;
   fld "new_identity_key_thumbprint" raw_string NewIdentityKeyThumbprint;
   fld "new_public_key" raw_string NewPublicKey;
   fld "new_credential_reference" raw_string NewCredentialReference;
   fld "challenge_nonce" raw_string ChallengeNonce; fld "issued_at" raw_time IssuedAt;
   fld "new_credential_valid_until" raw_time NewCredentialValidUntil;
   fld "old_signed_proof" raw_string OldSignedProof;
   fld "new_signed_proof" raw_string NewSignedProof].
End CredentialRotationProofFields.

Section CredentialRotationInstallFields.
Import CredentialRotationInstall.
Definition CredentialRotationInstall_fields : list (field CredentialRotationInstall) :=
  [fld "account_id" raw_string AccountID; fld "tunnel_id" raw_string TunnelID;
   fld "operation_id" raw_string OperationID; fld "connector_id" raw_string ConnectorID;
   fld "host_id" raw_string HostID; fld "session_id" raw_string SessionID;
   fld "process_generation" raw_u64 ProcessGeneration;
   fld "target_set_hash" raw_string TargetSetHash;
   fld "old_credential_generation" raw_u64 OldCredentialGeneration;
   fld "new_credential_generation" raw_u64 NewCredentialGeneration;
   fld "new_identity_key_id" raw_string NewIdentityKeyID;
   fld "new_identity_key_thumbprint" raw_string NewIdentityKeyThumbprint;
   fld "new_public_key" raw_string NewPublicKey;
   fld "new_credential_reference" raw_string NewCredentialReference;
   fld "challenge_nonce" raw_string ChallengeNonce;
   fld "overlap_until" raw_time OverlapUntil;
   fld "new_credential_valid_until" raw_time NewCredentialValidUntil;
   fld "replacement_process_generation" raw_u64 ReplacementProcessGeneration].
End CredentialRotationInstallFields.

Section CredentialRotationReadyFields.
Import CredentialRotationReady.
Definition CredentialRotationReady_fields : list (field CredentialRotationReady) :=
  [fld "account_id" raw_string AccountID; fld "tunnel_id" raw_string TunnelID;
   fld "operation_id" raw_string OperationID; fld "connector_id" raw_string ConnectorID;
   fld "host_id" raw_string HostID; fld "session_id" raw_string SessionID;
   fld "previous_session_id" raw_string PreviousSessionID;
   fld "process_generation" raw_u64 ProcessGeneration;
   fld "target_set_hash" raw_string TargetSetHash;
   fld "old_credential_generation" raw_u64 OldCredentialGeneration;
   fld "new_credential_generation" raw_u64 NewCredentialGeneration;
   fld "new_identity_key_id" raw_string NewIdentityKeyID;
   fld "new_identity_key_thumbprint" raw_string NewIdentityKeyThumbprint;
   fld "new_public_key" raw_string NewPublicKey;
   fld "new_credential_reference" raw_string NewCredentialReference;
   fld "new_credential_valid_until" raw_time NewCredentialValidUntil;
   fld "config_generation" raw_u64 ConfigGeneration;
   fld "config_content_hash" raw_string ConfigContentHash;
   fld "edge_ready" raw_bool EdgeReady; fld "route_ready" raw_bool RouteReady;
   fld "origin_ready" raw_bool OriginReady; fld "ready_at" raw_time ReadyAt].
End CredentialRotationReadyFields.

Section CredentialRotationRevokeFields.
Import CredentialRotationRevoke.
Definition CredentialRotationRevoke_fields : list (field CredentialRotationRevoke) :=
  [fld "account_id" raw_string AccountID; fld "tunnel_id" raw_string TunnelID;
   fld "operation_id" raw_string OperationID; fld "connector_id" raw_string ConnectorID;
   fld "host_id" raw_string HostID; fld "session_id" raw_string SessionID;
   fld "process_generation" raw_u64 ProcessGeneration;
   fld "target_set_hash" raw_string TargetSetHash;
   fld "old_credential_generation" raw_u64 OldCredentialGeneration;
   fld "new_credential_generation" raw_u64 NewCredentialGeneration;
   fld "revoke_nonce" raw_string RevokeNonce; fld "issued_at" raw_time IssuedAt;
   fld "deadline" raw_time Deadline].
End CredentialRotationRevokeFields.

Section CredentialRotationAckFields.
Import CredentialRotationAck.
Definition CredentialRotationAck_fields : list (field CredentialRotationAck) :=
  [fld "account_id" raw_string AccountID; fld "tunnel_id" raw_string TunnelID;
   fld "operation_id" raw_string OperationID; fld "connector_id" raw_string ConnectorID;
   fld "host_id" raw_string HostID; fld "session_id" raw_string SessionID;
   fld "process_generation" raw_u64 ProcessGeneration;
   fld "target_set_hash" raw_string TargetSetHash;
   fld "old_credential_generation" raw_u64 OldCredentialGeneration;
   fld "new_credential_generation" raw_u64 NewCredentialGeneration;
   fld "status" raw_string Status; fld "code" raw_string CredentialRotationAck.Code;
   fld "message" raw_string Message].
End CredentialRotationAckFields.

Section DisconnectFields.
Import Disconnect.
Definition Disconnect_fields : list (field Disconnect) :=
  [fld "account_id" raw_string AccountID; fld "tunnel_id" raw_string TunnelID;
   fld "connector_id" raw_string ConnectorID; fld "session_id" raw_string SessionID;
   fld "process_generation" raw_u64 ProcessGeneration; fld "reason" raw_string Reason;
   fld "retryable" raw_bool Retryable; fld "message" raw_string Message].
End DisconnectFields.

Section RejectFields.
Import Reject.
Definition Reject_fields : list (field Reject) :=
  [fld "account_id" raw_string AccountID; fld "tunnel_id" raw_string TunnelID;
   fld "connector_id" raw_string ConnectorID; fld "session_id" raw_string SessionID;
   fld "process_generation" raw_u64 ProcessGeneration; fld "code" raw_string Reject.Code;
   fld "reason" raw_string Reason; fld "retryable" raw_bool Retryable;
   fld "message" raw_string Message].
End RejectFields.

(** ** Strict decoding *)

(** The second [Decode] finds the end of the text: [rejectDuplicateKeys] has
    refused a text with anything after its first value. *)
Definition decodeStrict {A} (fields : list (field A)) (target : A) (data : string) : Res A :=
  if (slen data =? 0) || (MaxFrameBytes <? slen data) || negb (rejectDuplicateKeys data)
  then Err ErrMalformedFrame else
  match decode_struct fields target data with
  | Some a => Ok a
  | None => Err (OtherError "json")
  end.

Definition validatePayloadJSON (data : string) : option goerror :=
  if (slen data =? 0) || (MaxFrameBytes <? slen data) || negb (json_Valid data)
  then Some ErrMalformedFrame
  else if negb (rejectDuplicateKeys data) then Some ErrMalformedFrame
  else None.

(** One case of [validateMessagePayload]. *)
Definition payload_check {A} (fields : list (field A)) (zero : A) (validate : A -> option goerror)
    (payload : string) : option goerror :=
  match decodeStrict fields zero payload with
  | Ok message => validate message
  | Err _ => Some ErrMalformedFrame
  end.

Definition validateMessagePayload (messageType : MessageType) (payload : string) : option goerror :=
  if messageType == MessageHello then
    payload_check Hello_fields Hello.zero (fun m => Hello_Validate m 0) payload
  else if messageType == MessageWelcome then
    payload_check Welcome_fields Welcome.zero (fun m => Welcome_Validate m 0) payload
  else if messageType == MessageSnapshot then
    payload_check Snapshot_fields Snapshot.zero Snapshot_ValidateBound payload
  else if messageType == MessageDelta then
    payload_check Delta_fields Delta.zero Delta_ValidateBound payload
  else if messageType == MessageAck then payload_check Ack_fields Ack.zero Ack_Validate payload
  else if messageType == MessageReady then
    payload_check Readiness_fields Readiness.zero Readiness_Validate payload
  else if messageType == MessageHeartbeat then
    payload_check Heartbeat_fields Heartbeat.zero Heartbeat_Validate payload
  else if messageType == MessageHeartbeatAck then
    payload_check HeartbeatAck_fields HeartbeatAck.zero (fun m => HeartbeatAck_Validate m 0) payload
  else if messageType == MessageAuthRenew then
    payload_check RenewalRequest_fields RenewalRequest.zero RenewalRequest_Validate payload
  else if messageType == MessageAuthRenewed then
    payload_check AuthResult_fields AuthResult.zero AuthResult_ValidateBound payload
  else if messageType == MessageDrain then
    payload_check Drain_fields Drain.zero (fun m => Drain_Validate m 0) payload
  else if messageType == MessageDrainAck then
    payload_check DrainAck_fields DrainAck.zero DrainAck_Validate payload
  else if messageType == MessageCredentialRotationChallenge then
    payload_check CredentialRotationChallenge_fields CredentialRotationChallenge.zero (fun m => CredentialRotationChallenge_Validate m 0) payload
  else if messageType == MessageCredentialRotationProof then
    payload_check CredentialRotationProof_fields CredentialRotationProof.zero (fun m => CredentialRotationProof_Validate m 0) payload
  else if messageType == MessageCredentialRotationInstall then
    payload_check CredentialRotationInstall_fields CredentialRotationInstall.zero (fun m => CredentialRotationInstall_Validate m 0) payload
  else if messageType == MessageCredentialRotationReady then
    payload_check CredentialRotationReady_fields CredentialRotationReady.zero (fun m => CredentialRotationReady_Validate m 0) payload
  else if messageType == MessageCredentialRotationRevoke then
    payload_check CredentialRotationRevoke_fields CredentialRotationRevoke.zero (fun m => CredentialRotationRevoke_Validate m 0) payload
  else if messageType == MessageCredentialRotationAck then
    payload_check CredentialRotationAck_fields CredentialRotationAck.zero CredentialRotationAck_Validate payload
  else if messageType == MessageDisconnect then
    payload_check Disconnect_fields Disconnect.zero Disconnect_Validate payload
  else if messageType == MessageReject then
    payload_check Reject_fields Reject.zero Reject_Validate payload
  else Some ErrUnsupportedMessage.

(** ** Frames *)

Module Frame.
Record Frame := mk {
  Type_ : MessageType;
  Version : string;
  RequestID : string;
  Payload : string;
}.
#[export] Instance settable : Settable Frame := fun r =>
  mk (Type_ r) (Version r) (RequestID r) (Payload r).
#[export] Instance eq_dec : EqDecision Frame.
Proof. solve_decision. Defined.
Definition zero : Frame := mk "" "" "" "".
End Frame.
Export (hints) Frame.
Abbreviation Frame := Frame.Frame.

Section FrameFields.
Import Frame.
Definition Frame_fields : list (field Frame) :=
  [fld "type" raw_string Type_; fld "version" raw_string Version;
   fld "request_id" raw_string RequestID; fld "payload" raw_message Payload].

(** [json.Marshal] of a frame; [None] when the raw payload is no JSON text. *)
Definition Frame_text (f : Frame) : option string :=
  raw ← Marshal_raw (Payload f);
  Some (object_text [member "type" (quote (Type_ f)); member "version" (quote (Version f));
                     member "request_id" (quote (RequestID f)); member "payload" raw]).

Definition Frame_Validate (f : Frame) : option goerror :=
  if negb (allowed (Type_ f))
  then Some (codeError ErrUnsupportedMessage ReasonMalformed false None)
  else if (Version f != ProtocolVersion) || negb (validRequestID (RequestID f))
     || (slen (Payload f) =? 0) || (maxPayloadBytes (Type_ f) <? slen (Payload f))
  then Some ErrMalformedFrame
  else match validatePayloadJSON (Payload f) with
       | Some err => Some err
       | None => validateMessagePayload (Type_ f) (Payload f)
       end.

Definition DecodePayload {A} (fields : list (field A)) (target : A) (f : Frame) : Res A :=
  match Frame_Validate f with
  | Some err => Err err
  | None => decodeStrict fields target (Payload f)
  end.
End FrameFields.

(** ** Payloads that are written

    [json.Marshal] of the two messages that carry a raw configuration. *)
Section Texts.
Definition Snapshot_text (s : Snapshot) : option string :=
  raw ← Marshal_raw (Snapshot.Payload s);
  Some (object_text
    (omitempty (Snapshot.AccountID s == "") "account_id" (quote (Snapshot.AccountID s))
     ++ [member "tunnel_id" (quote (Snapshot.TunnelID s))]
     ++ omitempty (Snapshot.ConnectorID s == "") "connector_id" (quote (Snapshot.ConnectorID s))
     ++ omitempty (Snapshot.SessionID s == "") "session_id" (quote (Snapshot.SessionID s))
     ++ omitempty (Snapshot.ProcessGeneration s =? 0) "process_generation"
          (Itoa (Snapshot.ProcessGeneration s))
     ++ [member "generation" (Itoa (Snapshot.Generation s));
         member "content_hash" (quote (Snapshot.ContentHash s)); member "payload" raw])).

Definition Delta_text (d : Delta) : option string :=
  raw ← Marshal_raw (Delta.Payload d);
  Some (object_text
    (omitempty (Delta.AccountID d == "") "account_id" (quote (Delta.AccountID d))
     ++ [member "tunnel_id" (quote (Delta.TunnelID d))]
     ++ omitempty (Delta.ConnectorID d == "") "connector_id" (quote (Delta.ConnectorID d))
     ++ omitempty (Delta.SessionID d == "") "session_id" (quote (Delta.SessionID d))
     ++ omitempty (Delta.ProcessGeneration d =? 0) "process_generation"
          (Itoa (Delta.ProcessGeneration d))
     ++ [member "previous_generation" (Itoa (Delta.PreviousGeneration d));
         member "generation" (Itoa (Delta.Generation d));
         member "previous_content_hash" (quote (Delta.PreviousContentHash d));
         member "content_hash" (quote (Delta.ContentHash d)); member "payload" raw])).
End Texts.

(** The dynamic payload of [NewFrame]: the two types the code tests for, and
    any other value, which the code uses only through [json.Marshal]. *)
Inductive PayloadValue :=
| SnapshotValue (s : Snapshot)
| DeltaValue (d : Delta)
| OtherValue (encoded : Res string).

Definition payload_Marshal (payload : PayloadValue) : Res string :=
  match payload with
  | SnapshotValue s => match Snapshot_text s with Some t => Ok t | None => Err (OtherError "json") end
  | DeltaValue d => match Delta_text d with Some t => Ok t | None => Err (OtherError "json") end
  | OtherValue encoded => encoded
  end.

Definition payloadTooLarge (messageType : MessageType) (payload : PayloadValue) : bool :=
  if messageType == MessageSnapshot then
    match payload with
    | SnapshotValue value => MaxSnapshotBytes <? slen (Snapshot.Payload value)
    | _ => false
    end
  else if messageType == MessageDelta then
    match payload with
    | DeltaValue value => MaxDeltaBytes <? slen (Delta.Payload value)
    | _ => false
    end
  else false.

Definition NewFrame (messageType : MessageType) (requestID : string) (payload : PayloadValue)
    : Res Frame :=
  if negb (allowed messageType) || negb (validRequestID requestID) then Err ErrInvalidInput else
  match payload_Marshal payload with
  | Err err => Err (codeError ErrInvalidInput ReasonMalformed false (Some err))
  | Ok encoded =>
      if payloadTooLarge messageType payload then Err ErrFrameTooLarge
      else if maxPayloadBytes messageType <? slen encoded then Err ErrFrameTooLarge
      else match validatePayloadJSON encoded with
           | Some err => Err err
           | None =>
               match validateMessagePayload messageType encoded with
               | Some err => Err err
               | None => Ok (Frame.mk messageType ProtocolVersion requestID encoded)
               end
           end
  end.

(** ** Reading *)

(** [io.ReadFull] of [n] bytes: the bytes and what the reader still has. *)
Definition ReadFull (n : nat) (reader : string) : Res string * string :=
  if (n <=? String.length reader)%nat then (Ok (stake n reader), sdrop n reader)
  else (Err (OtherError (if reader == "" then "EOF" else "unexpected EOF")), "").

(** [binary.BigEndian.Uint32] and [PutUint32]. *)
Definition Uint32 (s : string) : Z := fold_left (fun acc b => acc * 256 + b) (code <$> bytes_of s) 0.
Definition PutUint32 (n : Z) : string :=
  of_bytes (byte_of <$> [n / 2 ^ 24; n / 2 ^ 16 mod 256; n / 2 ^ 8 mod 256; n mod 256]).

(** [None] is the nil reader. *)
Definition ReadFrame (reader : option string) : Res Frame * option string :=
  match reader with
  | None => (Err ErrInvalidInput, None)
  | Some r =>
      match ReadFull 4 r with
      | (Err err, r1) => (Err (codeError ErrMalformedFrame ReasonMalformed false (Some err)), Some r1)
      | (Ok prefix, r1) =>
          let length := Uint32 prefix in
          if length =? 0 then (Err ErrMalformedFrame, Some r1)
          else if MaxFrameBytes <? length then (Err ErrFrameTooLarge, Some r1)
          else match ReadFull (Z.to_nat length) r1 with
          | (Err err, r2) => (Err (codeError ErrMalformedFrame ReasonMalformed false (Some err)), Some r2)
          | (Ok body, r2) =>
              if negb (json_Valid body) || negb (rejectDuplicateKeys body)
              then (Err ErrMalformedFrame, Some r2) else
              match decodeStrict Frame_fields Frame.zero body with
              | Err err => (Err (codeError ErrMalformedFrame ReasonMalformed false (Some err)), Some r2)
              | Ok frame =>
                  match Frame_Validate frame with
                  | Some err => (Err err, Some r2)
                  | None => (Ok frame, Some r2)
                  end
              end
          end
      end
  end.

(** ** Writing *)

(** [io.Writer]: the new state, the number of bytes taken and the error. *)
Class Writer (W : Type) := Write : W -> string -> W * (Z * option goerror).

Section Write.
Context {W : Type} `{!Writer W}.

Definition ErrShortWrite : goerror := OtherError "short write".

(** The loop of [writeAll]; each turn takes at least one byte, so the length
    of the data bounds the number of turns. *)
Fixpoint writeAll_loop (fuel : nat) (w : W) (data : string) : W * option goerror :=
  match fuel with
  | O => (w, None)
  | S fuel' =>
      if slen data =? 0 then (w, None) else
      let '(w', (n, err)) := Write w data in
      match err with
      | Some e => (w', Some e)
      | None =>
          if (n <=? 0) || (slen data <? n) then (w', Some ErrShortWrite)
          else writeAll_loop fuel' w' (sdrop (Z.to_nat n) data)
      end
  end.
Definition writeAll (w : W) (data : string) : W * option goerror :=
  writeAll_loop (S (String.length data)) w data.

(** [None] is the nil writer. *)
Definition WriteFrame (writer : option W) (frame : Frame) : option W * option goerror :=
  match writer with
  | None => (None, Some ErrInvalidInput)
  | Some w =>
      match Frame_Validate frame with
      | Some err => (Some w, Some err)
      | None =>
          match Frame_text frame with
          | None => (Some w, Some (codeError ErrMalformedFrame ReasonMalformed false
                                     (Some (OtherError "json"))))
          | Some body =>
              if MaxFrameBytes <? slen body then (Some w, Some ErrFrameTooLarge) else
              match writeAll w (PutUint32 (to_u32 (slen body))) with
              | (w1, Some err) => (Some w1, Some err)
              | (w1, None) => let '(w2, err) := writeAll w1 body in (Some w2, err)
              end
          end
      end
  end.
End Write.
