(* ===== verification/StructFacts.v ===== *)
(** * Reading what [json.Marshal] wrote for a struct

    A text reads as a value when the decoder and the duplicate check consume
    exactly that text wherever a value may stand.  The text of an object whose
    members read is read member by member, so that [decode_struct] sees every
    field with the text that was written for it; [compact] leaves such texts as
    they are. *)
From S2P Require Import Prelude GoText GoHash GoUrl GoJson Errors Canonical TextFacts JsonFacts.
From S2P Require Import Identifiers WireConfig GoStruct.

(** ** Texts that read as a value

    [h] bounds the nesting of the text. *)
Definition reads (h : Z) (t : string) (v : json) : Prop :=
  (exists c s, t = String c s /\ value_start c)
  /\ forall depth n d st stk rest,
       depth + h <= MaxJSONDepth -> delimited rest -> tokenValueAllowed st = true ->
       (2 * String.length t + 1 <= n)%nat -> starts_at d (t +:+ rest) st stk ->
       decodeValue n depth d = Some (v, mkDecoder rest (tokenValueEnd st) stk)
       /\ walk n depth d = Some (mkDecoder rest (tokenValueEnd st) stk).

Lemma decoded_mono v d d' : d' <= d -> decoded d v -> decoded d' v.
Proof.
  revert d d'. induction v as [| | | |vs IH|ms IH] using json_nested_ind; intros d d' Hle [H1 H2];
    split; try lia; try done.
  - apply decoded_all. apply decoded_all in H2. rewrite Forall_forall in *. intros x Hx.
    apply (IH x Hx (d + 1)); [lia|auto].
  - destruct H2 as (? & ? & H2). split_and!; try done.
    apply (decoded_all (fun m => decoded (d' + 1) (snd m))).
    apply (decoded_all (fun m => decoded (d + 1) (snd m))) in H2. rewrite Forall_forall in *. intros m Hm.
    apply (IH m Hm (d + 1)); [lia|auto].
Qed.

Lemma reads_Marshal h v : decoded (MaxJSONDepth - h) v -> reads h (Marshal v) v.
Proof.
  intros Hv. split; [by eapply Marshal_head|]. intros. apply all_read_back; try done.
  eapply decoded_mono; [|done]. lia.
Qed.

Lemma reads_quote s : valid_utf8 s -> reads 0 (quote s) (JString s).
Proof. intros. by apply (reads_Marshal 0 (JString s)). Qed.
Lemma reads_num l : is_number l -> reads 0 l (JNumber l).
Proof. intros. by apply (reads_Marshal 0 (JNumber l)). Qed.

Lemma reads_mono h h' t v : h <= h' -> reads h t v -> reads h' t v.
Proof. intros Hle [? H]. split; [done|]. intros. apply H; try done. lia. Qed.

(** A text that reads is a whole document. *)
Lemma reads_document h t v :
  h <= MaxJSONDepth -> reads h t v -> parse_json t = Some v /\ rejectDuplicateKeys t = true.
Proof.
  intros Hh [(c & s & E & Hc) H]. unfold parse_json, rejectDuplicateKeys, json_fuel.
  destruct (H 0 (2 * String.length t + 2)%nat (NewDecoder t) tokenTopValue [] "") as [-> ->]; try done; [lia|].
  unfold starts_at, Token, NewDecoder. rewrite E. autorewrite with sapp. by apply Token_go_value.
Qed.

(** ** Objects *)

(** A written member: key, text of the value, value. *)
Record written := mkWritten { w_key : string; w_text : string; w_value : json }.
Definition w_member (m : written) : string := member (w_key m) (w_text m).
Definition w_raw (m : written) : string * string := (w_key m, w_text m).
Definition good_member (h : Z) (m : written) : Prop :=
  valid_utf8 (w_key m) /\ reads h (w_text m) (w_value m).
Definition w_object (pre : list (string * json)) (ms : list written) : list (string * json) :=
  fold_left (fun o m => map_set (w_key m) (w_value m) o) ms pre.

(** The three loops over the members of an object end at [rest]. *)
Definition members_read (n : nat) (depth : Z) (pre : list (string * json)) (seen : list string)
    (d : decoder) (ms : list written) (d' : decoder) : Prop :=
  decodeMembers n depth pre d = Some (w_object pre ms, d') /\ walk_object n depth seen d = Some d'.

Lemma written_member_reads h m n depth pre seen d st stk rest s1 :
  good_member h m -> depth + 1 + h <= MaxJSONDepth -> delimited rest -> w_key m ∉ seen ->
  (2 * String.length (w_text m) + 1 <= n)%nat -> s1 = tokenObjectStart \/ s1 = tokenObjectKey ->
  More d = true -> starts_at d (w_member m +:+ rest) s1 (st :: stk) ->
  decodeMembers (S n) depth pre d
    = decodeMembers n depth (map_set (w_key m) (w_value m) pre) (mkDecoder rest tokenObjectComma (st :: stk))
  /\ walk_object (S n) depth seen d
    = walk_object n depth (w_key m :: seen) (mkDecoder rest tokenObjectComma (st :: stk)).
Proof.
  intros [Hk [_ Hv]] Hh Hr Hseen Hn Hs1 Hmore Hd. unfold starts_at, w_member, member in Hd.
  rewrite !sapp_assoc, Token_key in Hd by done.
  cbn [decodeMembers walk_object]. rewrite Hmore, Hd, bool_decide_eq_false_2 by done.
  destruct (Hv (depth + 1) n (mkDecoder (":" +:+ w_text m +:+ rest) tokenObjectColon (st :: stk))
    tokenObjectValue (st :: stk) rest) as [-> ->]; done.
Qed.

Lemma written_tail h ms n depth pre seen st stk rest :
  Forall (good_member h) ms -> depth + 1 + h <= MaxJSONDepth ->
  NoDup (w_key <$> ms) -> (forall k, k ∈ w_key <$> ms -> k ∉ seen) ->
  (2 * String.length (tail_text "}" (map w_member ms)) <= n)%nat ->
  members_read n depth pre seen
    (mkDecoder (tail_text ("}" +:+ rest) (map w_member ms)) tokenObjectComma (st :: stk)) ms
    (mkDecoder rest (tokenValueEnd st) stk).
Proof.
  intros Hg Hh. revert n pre seen. induction Hg as [|m ms Hm Hms IH]; intros n pre seen Hnd Hs Hn.
  - destruct n; [simpl in Hn; lia|]. apply close_object. by right.
  - rewrite fmap_cons in Hnd, Hs. apply NoDup_cons in Hnd as [Hk Hnd]. cbn [map tail_text foldr] in *.
    fold (tail_text "}" (map w_member ms)) in Hn. fold (tail_text ("}" +:+ rest) (map w_member ms)).
    unfold w_member at 1, member in Hn. rewrite !length_sapp in Hn. simpl String.length in Hn.
    destruct n as [|n]; [lia|]. unfold members_read.
    destruct (written_member_reads h m n depth pre seen
      (mkDecoder ("," +:+ w_member m +:+ tail_text ("}" +:+ rest) (map w_member ms))
         tokenObjectComma (st :: stk)) st stk (tail_text ("}" +:+ rest) (map w_member ms)) tokenObjectKey)
      as [-> ->]; try done; auto; try lia.
    + apply tail_delimited. simpl. auto.
    + apply Hs. set_solver.
    + apply (IH n (map_set (w_key m) (w_value m) pre) (w_key m :: seen)); [done| |lia].
      intros k Hin. apply not_elem_of_cons. split; [set_solver|apply Hs; set_solver].
Qed.

Lemma written_reads h ms n depth st stk rest :
  Forall (good_member h) ms -> depth + 1 + h <= MaxJSONDepth -> NoDup (w_key <$> ms) ->
  (2 * String.length (join_with "," (map w_member ms) +:+ "}") <= n)%nat ->
  members_read n depth [] []
    (mkDecoder (join_with "," (map w_member ms) +:+ "}" +:+ rest) tokenObjectStart (st :: stk)) ms
    (mkDecoder rest (tokenValueEnd st) stk).
Proof.
  destruct ms as [|m ms]; intros Hg Hh Hnd Hn.
  - destruct n; [simpl in Hn; lia|]. apply close_object. by left.
  - apply Forall_cons in Hg as [Hm Hms]. rewrite fmap_cons in Hnd. apply NoDup_cons in Hnd as [Hk Hnd].
    cbn [map] in *. rewrite join_with_tail in *. rewrite length_sapp in Hn.
    unfold w_member at 1, member in Hn. rewrite !length_sapp in Hn. simpl String.length in Hn.
    destruct n as [|n]; [lia|]. unfold members_read.
    destruct (written_member_reads h m n depth [] []
      (mkDecoder (w_member m +:+ tail_text ("}" +:+ rest) (map w_member ms)) tokenObjectStart (st :: stk))
      st stk (tail_text ("}" +:+ rest) (map w_member ms)) tokenObjectStart) as [-> ->]; try done; auto; try lia.
    + apply tail_delimited. simpl. auto.
    + set_solver.
    + apply (written_tail h ms n depth (map_set (w_key m) (w_value m) []) [w_key m]); try done; try lia.
      intros k Hin. set_solver.
Qed.

Definition w_text_of (ms : list written) : string := object_text (map w_member ms).

Lemma open_object d s st stk :
  tokenValueAllowed st = true -> starts_at d ("{" +:+ s) st stk ->
  Token d = Tok (TDelim "{") (mkDecoder s tokenObjectStart (st :: stk)).
Proof.
  intros Hst Hd. rewrite Hd. cbn [Token_go buf tokState tokStack]. autorewrite with sapp.
  cbn -[String.append]. by rewrite Hst.
Qed.

Lemma reads_object_text h ms :
  0 <= h -> Forall (good_member h) ms -> NoDup (w_key <$> ms) ->
  reads (h + 1) (w_text_of ms) (JObject (w_object [] ms)).
Proof.
  intros Hh0 Hg Hnd. split; [eexists _, _; split; [done|by apply value_start_code]|].
  intros depth n d st stk rest Hh Hr Hst Hn Hd. destruct n as [|n]; [lia|].
  unfold w_text_of, object_text in *. rewrite !length_sapp in Hn. simpl String.length in Hn.
  rewrite !sapp_assoc in Hd. apply open_object in Hd; [|done].
  cbn [decodeValue walk]. rewrite (proj2 (Z.ltb_ge _ _)), Hd by lia.
  change (is_byte 123 "{") with true. cbv iota.
  destruct (written_reads h ms n depth st stk rest) as [-> ->]; try done; [lia|].
  rewrite length_sapp. simpl. lia.
Qed.

(** ** Raw members *)

Lemma stake_app s t : stake (String.length s) (s +:+ t) = s.
Proof. induction s as [|c s IH]; [done|]. rewrite sapp_cons. simpl. by rewrite IH. Qed.

Lemma consumed_app s t : consumed (s +:+ t) t = s.
Proof.
  unfold consumed. rewrite length_sapp.
  replace (String.length s + String.length t - String.length t)%nat with (String.length s) by lia.
  apply stake_app.
Qed.

Lemma value_start_text_colon h t v rest st stk :
  reads h t v -> value_start_text (mkDecoder (":" +:+ t +:+ rest) st stk) = Some (t +:+ rest).
Proof.
  intros [(c & s & -> & Hc) _]. unfold value_start_text. cbn [buf].
  destruct Hc as [Hw _]. autorewrite with sapp. cbn -[skip_ws String.append].
  rewrite skip_ws_start by done. cbn -[skip_ws String.append]. by rewrite skip_ws_start.
Qed.

Lemma raw_member_reads h m n d st stk rest s1 :
  good_member h m -> 1 + h <= MaxJSONDepth -> delimited rest ->
  (2 * String.length (w_text m) + 1 <= n)%nat -> s1 = tokenObjectStart \/ s1 = tokenObjectKey ->
  More d = true -> starts_at d (w_member m +:+ rest) s1 (st :: stk) ->
  raw_loop (S n) d
    = (ms ← raw_loop n (mkDecoder rest tokenObjectComma (st :: stk)); Some (w_raw m :: ms)).
Proof.
  intros [Hk Hv] Hh Hr Hn Hs1 Hmore Hd. unfold starts_at, w_member, member in Hd.
  rewrite !sapp_assoc, Token_key in Hd by done.
  cbn [raw_loop]. rewrite Hmore, Hd, (value_start_text_colon h _ (w_value m)) by done. cbn [mbind option_bind].
  destruct (proj2 Hv 1 n (mkDecoder (":" +:+ w_text m +:+ rest) tokenObjectColon (st :: stk))
    tokenObjectValue (st :: stk) rest) as [-> _]; try done.
  cbn [mbind option_bind buf]. by rewrite consumed_app.
Qed.

Lemma raw_tail h ms n st :
  Forall (good_member h) ms -> 1 + h <= MaxJSONDepth -> tokenValueEnd st = tokenTopValue ->
  (2 * String.length (tail_text "}" (map w_member ms)) <= n)%nat ->
  raw_loop n (mkDecoder (tail_text "}" (map w_member ms)) tokenObjectComma [st]) = Some (map w_raw ms).
Proof.
  intros Hg Hh Hst. revert n. induction Hg as [|m ms Hm Hms IH]; intros n Hn.
  - destruct n; [simpl in Hn; lia|]. cbn. by rewrite Hst.
  - cbn [map tail_text foldr] in *. fold (tail_text "}" (map w_member ms)) in *.
    unfold w_member at 1, member in Hn. rewrite !length_sapp in Hn. simpl String.length in Hn.
    destruct n as [|n]; [lia|].
    rewrite (raw_member_reads h m n _ st [] (tail_text "}" (map w_member ms)) tokenObjectKey);
      try done; auto; try lia.
    + rewrite IH by lia. done.
    + apply tail_delimited. simpl. auto.
Qed.

(** [decode_struct] sees the members of a written object one by one. *)
Lemma raw_members_written h ms :
  Forall (good_member h) ms -> 1 + h <= MaxJSONDepth -> raw_members (w_text_of ms) = Some (map w_raw ms).
Proof.
  intros Hg Hh. unfold raw_members, w_text_of, object_text.
  rewrite (open_object _ (join_with "," (map w_member ms) +:+ "}") tokenTopValue []) by done.
  change (is_byte 123 "{") with true. cbv iota. unfold json_fuel. rewrite !length_sapp. change (String.length "}") with 1%nat.
  destruct ms as [|m ms].
  { done. }
  apply Forall_cons in Hg as [Hm Hms]. cbn [map]. rewrite join_with_tail.
  assert (String.length (w_text m) + 1 <= String.length (w_member m))%nat as Hw
    by (unfold w_member, member; rewrite !length_sapp; simpl; lia).
  pose proof (f_equal String.length (join_with_tail "}" (w_member m) (map w_member ms))) as El.
  rewrite !length_sapp in El. change (String.length "}") with 1%nat in El.
  set (N := (2 * _ + 2)%nat). assert (exists n, N = S n /\ 2 * String.length (w_text m) + 1 <= n
    /\ 2 * String.length (tail_text "}" (map w_member ms)) <= n)%nat as (n & -> & Hn1 & Hn2)
    by (exists (pred N); unfold N; lia).
  rewrite (raw_member_reads h m n _ tokenTopValue [] (tail_text "}" (map w_member ms)) tokenObjectStart);
    try done; auto.
  - by rewrite (raw_tail h).
  - apply tail_delimited. simpl. auto.
Qed.

Lemma decode_struct_written {A} h (fields : list (field A)) a ms :
  0 <= h -> 1 + h <= MaxJSONDepth -> Forall (good_member h) ms -> NoDup (w_key <$> ms) ->
  decode_struct fields a (w_text_of ms) = set_members fields a (map w_raw ms).
Proof.
  intros Hh0 Hh Hg Hnd. unfold decode_struct.
  destruct (reads_document (h + 1) (w_text_of ms) (JObject (w_object [] ms))) as [-> _]; [lia| |].
  - by apply reads_object_text.
  - by rewrite (raw_members_written h).
Qed.

(** ** The scanner accepts what the duplicate check accepts *)

Lemma walk_scan n :
  (forall depth d d', walk n depth d = Some d' -> scan n depth d = Some d')
  /\ (forall depth seen d d', walk_object n depth seen d = Some d' -> depth <= MaxJSONDepth ->
        scan_object n depth d = Some d')
  /\ (forall depth d d', walk_array n depth d = Some d' -> depth <= MaxJSONDepth ->
        scan_array n depth d = Some d').
Proof.
  induction n as [|n (IHv & IHo & IHa)]; [done|]. split_and!.
  - intros depth d d' H. cbn [walk scan] in *. destruct (MaxJSONDepth <? depth) eqn:Hd; [done|]. bool_prop.
    destruct (Token d) as [[c| | | |] d1| |]; try done.
    rewrite (proj2 (Z.leb_gt _ _)) by (unfold MaxJSONDepth, maxNestingDepth in *; lia).
    repeat case_match; eauto.
  - intros depth seen d d' H Hd. cbn [walk_object scan_object] in *. repeat case_match; simplify_eq; eauto.
    all: match goal with H : walk _ _ _ = Some _ |- _ => apply IHv in H end; simplify_eq; eauto.
  - intros depth d d' H Hd. cbn [walk_array scan_array] in *. repeat case_match; simplify_eq; eauto.
    all: match goal with H : walk _ _ _ = Some _ |- _ => apply IHv in H end; simplify_eq; eauto.
Qed.

Lemma json_Valid_unique data : rejectDuplicateKeys data = true -> json_Valid data = true.
Proof.
  unfold rejectDuplicateKeys, json_Valid. destruct (walk _ _ _) as [d|] eqn:H; [|done].
  by rewrite (proj1 (walk_scan _) _ _ _ H).
Qed.

(** ** Texts that [compact] keeps

    [kept st s st']: read in state [st], the text [s] is kept as it is and
    leaves the state [st'], whatever follows. *)
Definition kept (st : text_state) (s : string) (st' : text_state) : Prop :=
  forall t, compact st (s +:+ t) = s +:+ compact st' t.

Lemma kept_nil st : kept st "" st.
Proof. done. Qed.
Lemma kept_app st1 st2 st3 s t : kept st1 s st2 -> kept st2 t st3 -> kept st1 (s +:+ t) st3.
Proof. intros H1 H2 u. by rewrite !sapp_assoc, H1, H2. Qed.

(** One byte that is not special and does not start a line separator. *)
Lemma kept_byte st c :
  html_special c = false -> is_byte 226 c = false ->
  (match st with Outside => is_ws c = false | _ => True end) -> kept st (String c "") (text_next st c).
Proof.
  intros H1 H2 H3 t. autorewrite with sapp. cbn [compact]. rewrite H1, H2.
  destruct t as [|d [|e t]]; simpl andb; cbv iota; destruct st; by rewrite ?H3.
Qed.

(** The state after a text of such bytes. *)
Fixpoint keeps (st : text_state) (s : string) : option text_state :=
  match s with
  | EmptyString => Some st
  | String c s' =>
      if html_special c || is_byte 226 c || (match st with Outside => is_ws c | _ => false end)
      then None else keeps (text_next st c) s'
  end.
Lemma keeps_kept st s st' : keeps st s = Some st' -> kept st s st'.
Proof.
  revert st. induction s as [|c s IH]; intros st H; simpl in H; [simplify_eq; apply kept_nil|].
  destruct (_ || _) eqn:E in H; [done|]. bool_prop. change (String c s) with (String c "" +:+ s).
  eapply kept_app; [apply kept_byte; [done..|by destruct st]|auto].
Qed.

(** Bytes outside string literals. *)
Definition literal_byte (c : ascii) : bool :=
  negb (html_special c) && negb (is_byte 226 c) && negb (is_ws c) && negb (is_byte 34 c).
Lemma kept_literal s : all_bytes literal_byte s = true -> kept Outside s Outside.
Proof.
  intros H. apply keeps_kept. induction s as [|c s IH]; [done|]. simpl in H. bool_prop.
  unfold literal_byte in *. bool_prop. simpl.
  repeat match goal with H : _ = false |- _ => rewrite H end. auto.
Qed.

(** *** String literals *)

Lemma escape_keeps c : is_ascii c -> html_safe c = false -> keeps Inside (escape_ascii c) = Some Inside.
Proof.
  unfold is_ascii. destruct c as [[] [] [] [] [] [] [] []]; intros H1 H2;
    first [vm_compute in H1; discriminate | vm_compute in H2; discriminate | vm_compute; reflexivity].
Qed.

Lemma safe_keeps c : html_safe c = true -> keeps Inside (String c "") = Some Inside.
Proof.
  destruct c as [[] [] [] [] [] [] [] []]; intros H;
    first [vm_compute in H; discriminate | vm_compute; reflexivity].
Qed.

Lemma high_byte c : 128 <= code c -> html_special c = false /\ text_next Inside c = Inside.
Proof.
  intros H. unfold html_special, text_next, is_byte.
  rewrite !(proj2 (Z.eqb_neq (code c) _)) by lia. done.
Qed.
Lemma kept_high c s :
  128 <= code c -> code c <> 226 -> kept Inside s Inside -> kept Inside (String c s) Inside.
Proof.
  intros H1 H2 H3. change (String c s) with (String c "" +:+ s).
  destruct (high_byte c H1) as [Hs Hn]. eapply kept_app; [|done]. rewrite <- Hn at 2.
  apply kept_byte; [done| |done]. by apply Z.eqb_neq.
Qed.
Lemma kept_three a b c :
  128 <= code a -> 128 <= code b <= 191 -> 128 <= code c <= 191 ->
  ~ (code a = 226 /\ code b = 128 /\ (code c = 168 \/ code c = 169)) ->
  kept Inside (String a (String b (String c ""))) Inside.
Proof.
  intros Ha Hb Hc Hsep t. destruct (high_byte a Ha) as [Hs Hn].
  assert (is_byte 226 a && is_byte 128 b && (is_byte 168 c || is_byte 169 c) = false) as E.
  { apply not_true_iff_false. rewrite !andb_true_iff, orb_true_iff, !is_byte_true. intuition. }
  autorewrite with sapp. cbn [compact]. rewrite E, Hs, Hn. f_equal.
  apply (kept_high b (String c "")); [lia..|]. apply kept_high; [lia..|]. apply kept_nil.
Qed.

(** A rune outside ASCII, other than the two line separators. *)
Lemma kept_rune c s r w :
  128 <= code c -> decode_rune (String c s) = Some (r, w) -> r <> 8232 -> r <> 8233 ->
  kept Inside (stake w (String c s)) Inside.
Proof.
  intros Hc H H1 H2. rune_cases H; cbn [stake]; bool_prop; try lia.
  all: first [by repeat (apply kept_high; [lia..|]); apply kept_nil | apply kept_three; lia].
Qed.

Lemma kept_quote_body s : valid_utf8 s -> forall k, kept Inside (quote_body k s) Inside.
Proof.
  induction 1 as [|s r w Hd Hv IH]; intros k; [destruct k; apply kept_nil|].
  destruct k as [|k]; [apply kept_nil|]. destruct s as [|c s']; [done|]. cbn [quote_body].
  destruct (code c <? 128) eqn:Hc; bool_prop.
  - rewrite decode_rune_ascii in Hd by done. injection Hd as <- <-. simpl in IH.
    eapply kept_app; [|apply IH]. apply keeps_kept. destruct (html_safe c) eqn:Hs; auto using escape_keeps, safe_keeps.
  - rewrite Hd. eapply kept_app; [|apply IH].
    destruct (r =? 8232) eqn:H1; [by apply keeps_kept|]. destruct (r =? 8233) eqn:H2; [by apply keeps_kept|].
    bool_prop. by eapply kept_rune.
Qed.

Lemma kept_quote s : valid_utf8 s -> kept Outside (quote s) Outside.
Proof.
  intros H. unfold quote. eapply kept_app; [by apply (keeps_kept Outside dquote)|].
  eapply kept_app; [by apply kept_quote_body|]. by apply keeps_kept.
Qed.

(** *** Values and objects *)

Lemma kept_join l : Forall (fun x => kept Outside x Outside) l -> kept Outside (join_with "," l) Outside.
Proof.
  induction 1 as [|x l Hx Hl IH]; [apply kept_nil|]. destruct l as [|y l]; [done|].
  change (join_with "," (x :: y :: l)) with (x +:+ "," +:+ join_with "," (y :: l)).
  eapply kept_app; [done|]. eapply kept_app; [by apply (keeps_kept Outside ",")|]. done.
Qed.
Lemma kept_member k t : valid_utf8 k -> kept Outside t Outside -> kept Outside (member k t) Outside.
Proof.
  intros Hk Ht. eapply kept_app; [by apply kept_quote|]. eapply kept_app; [|done]. by apply keeps_kept.
Qed.
Lemma kept_object ms :
  Forall (fun m => kept Outside m Outside) ms -> kept Outside (object_text ms) Outside.
Proof.
  intros H. eapply kept_app; [by apply (keeps_kept Outside "{")|].
  eapply kept_app; [by apply kept_join|]. by apply keeps_kept.
Qed.

(** Numbers consist of such bytes. *)
Lemma digit_literal c : is_digit c = true -> literal_byte c = true.
Proof.
  destruct c as [[] [] [] [] [] [] [] []]; intros H;
    first [vm_compute in H; discriminate | vm_compute; reflexivity].
Qed.
Lemma all_bytes_mono f g s :
  (forall c, f c = true -> g c = true) -> all_bytes f s = true -> all_bytes g s = true.
Proof. intros H. induction s as [|c s IH]; [done|]. simpl. rewrite !andb_true_iff. intuition. Qed.
Lemma digits_literal s : all_bytes is_digit s = true -> all_bytes literal_byte s = true.
Proof. apply all_bytes_mono, digit_literal. Qed.

Lemma is_number_bytes l : is_number l -> all_bytes literal_byte l = true.
Proof.
  unfold is_number, lex_number. destruct (lex_sign l) as [sg s0] eqn:Hsg. intros H.
  apply bind_Some in H as ([i s1] & Hi & H). apply bind_Some in H as ([f s2] & Hf & H).
  apply bind_Some in H as ([e s3] & He & H). injection H as <- _.
  apply lex_int_inv in Hi. apply lex_frac_inv in Hf. apply lex_exp_inv in He.
  rewrite !all_bytes_app, !andb_true_iff. split_and!.
  - unfold lex_sign in Hsg. repeat case_match; by simplify_eq.
  - destruct Hi as [->|(c & ds & -> & Hc & _ & Hd)]; [done|]. simpl. by rewrite digit_literal, digits_literal.
  - destruct Hf as [->|(ds & -> & _ & Hd)]; [done|]. simpl. by rewrite digits_literal.
  - destruct He as [->|(c & sg' & ds & -> & Hc & Hs & _ & Hd)]; [done|].
    rewrite !all_bytes_app, (digits_literal ds), andb_true_r by done. apply andb_true_iff. split.
    + apply orb_true_iff in Hc as [Hc|Hc]; apply is_byte_true in Hc; simpl; rewrite andb_true_r;
        unfold literal_byte, html_special, is_ws, is_byte; by rewrite Hc.
    + by destruct Hs as [-> | [-> | ->]].
Qed.

Lemma kept_Marshal v depth : decoded depth v -> kept Outside (Marshal v) Outside.
Proof.
  revert depth. induction v as [|[]|l|s|vs IH|ms IH] using json_nested_ind; intros depth [_ H];
    try (by apply (keeps_kept Outside)).
  - by apply kept_literal, is_number_bytes.
  - by apply kept_quote.
  - apply decoded_all in H. cbn [Marshal]. eapply kept_app; [by apply (keeps_kept Outside "[")|].
    apply (kept_app _ Outside); [|by apply keeps_kept]. apply kept_join, Forall_map.
    rewrite Forall_forall in *. intros x Hx. eapply IH; [done|by apply H].
  - destruct H as (_ & Hk & H). apply (decoded_all (fun m => decoded (depth + 1) (snd m))) in H.
    apply (kept_object (map (fun m => member (fst m) (Marshal (snd m))) ms)), Forall_map.
    rewrite Forall_forall in *. intros m Hm. apply kept_member; [by apply Hk|]. eapply IH; [done|by apply H].
Qed.

Lemma compact_kept s : kept Outside s Outside -> compact Outside s = s.
Proof. intros H. specialize (H ""). by rewrite !sapp_nil_r in H. Qed.

(** ** Written scalars *)

Lemma pretty_N_digits x s :
  all_bytes is_digit s = true -> all_bytes is_digit (pretty_N_go x s) = true.
Proof.
  revert s. induction (N.lt_wf_0 x) as [x _ IH]. intros s Hs.
  destruct (decide (x = 0)%N) as [->|Hx]; [by rewrite pretty_N_go_0|].
  rewrite pretty_N_go_step by lia. apply IH; [apply N.div_lt; lia|]. simpl. rewrite Hs, andb_true_r.
  unfold pretty_N_char. by repeat case_match.
Qed.
Lemma digit_val_char x : (x < 10)%N -> digit_val (pretty_N_char x) = Z.of_N x.
Proof.
  intros H. assert (x = 0 \/ x = 1 \/ x = 2 \/ x = 3 \/ x = 4 \/ x = 5 \/ x = 6 \/ x = 7 \/ x = 8 \/ x = 9)%N
    as Hx by lia. by repeat destruct Hx as [->|Hx]; [..|subst].
Qed.
Lemma digits_val_pretty x s : digits_val (pretty_N_go x s) 0 = digits_val s (Z.of_N x).
Proof.
  revert s. induction (N.lt_wf_0 x) as [x _ IH]. intros s.
  destruct (decide (x = 0)%N) as [->|Hx]; [by rewrite pretty_N_go_0|].
  rewrite pretty_N_go_step, IH by (try apply N.div_lt; lia). cbn [digits_val].
  rewrite digit_val_char by (apply N.mod_lt; lia). f_equal. rewrite N2Z.inj_div, N2Z.inj_mod. divmod.
Qed.
Lemma pretty_N_go_head x s :
  (0 < x)%N -> exists c t, pretty_N_go x s = String c t /\ is_digit c = true /\ is_byte 48 c = false.
Proof.
  revert s. induction (N.lt_wf_0 x) as [x _ IH]. intros s Hx. rewrite pretty_N_go_step by done.
  destruct (decide (x / 10 = 0)%N) as [E|E].
  - rewrite E, pretty_N_go_0. eexists _, _. split; [done|].
    assert (x < 10)%N as Hlt by (by apply N.div_small_iff in E). rewrite N.mod_small by done.
    pose proof (digit_val_char x Hlt) as Hv. unfold digit_val in Hv.
    unfold is_digit, between, is_byte. rewrite andb_true_iff, !Z.leb_le, Z.eqb_neq. lia.
  - apply IH; [apply N.div_lt; lia|]. by apply N.neq_0_lt_0.
Qed.
Lemma pretty_N_go_length k x s :
  (x < 10 ^ N.of_nat k)%N -> (String.length (pretty_N_go x s) <= k + String.length s)%nat.
Proof.
  revert x s. induction k as [|k IH]; intros x s Hx.
  { simpl in Hx. replace x with 0%N by lia. by rewrite pretty_N_go_0. }
  destruct (decide (x = 0)%N) as [->|Hx0]; [rewrite pretty_N_go_0; lia|].
  rewrite pretty_N_go_step by lia. etrans; [apply IH|simpl; lia].
  rewrite Nat2N.inj_succ, N.pow_succ_r' in Hx. by apply N.Div0.div_lt_upper_bound.
Qed.

Lemma good_int_number i : good_int i -> is_number i.
Proof.
  intros H. assert (lex_sign i = ("", i)) as Hs.
  { destruct H as [->|(c & ds & -> & Hc & _)]; [done|]. unfold lex_sign.
    replace (is_byte 45 c) with false; [done|]. symmetry. apply Z.eqb_neq.
    unfold is_digit, between in Hc. bool_prop. lia. }
  unfold is_number, lex_number. rewrite Hs, <- (sapp_nil_r i), lex_int_app by done.
  cbn. by rewrite !sapp_nil_r.
Qed.

(** The decimal text of an unsigned 64-bit number. *)
Lemma Itoa_u64 n :
  is_u64 n -> is_number (Itoa n) /\ ParseUint64 (Itoa n) = Some n /\ slen (Itoa n) <= 20.
Proof.
  intros Hn. unfold is_u64, two64 in Hn. destruct n as [|p|p]; [done| |lia].
  change (Itoa (Z.pos p)) with (pretty_N_go (N.pos p) "").
  destruct (pretty_N_go_head (N.pos p) "") as (c & t & E & Hc & H0); [lia|].
  pose proof (pretty_N_digits (N.pos p) "" eq_refl) as Hd. split_and!.
  - apply good_int_number. right. rewrite E in Hd |- *. simpl in Hd. bool_prop. eauto 10.
  - unfold ParseUint64, is_digits. rewrite digits_val_pretty, Hd. cbn [digits_val].
    rewrite (proj2 (Z.ltb_lt _ _)) by (unfold two64; lia). by rewrite E.
  - pose proof (pretty_N_go_length 20 (N.pos p) "") as Hl. simpl (String.length "") in Hl. unfold slen.
    assert (N.pos p < 10 ^ N.of_nat 20)%N as Hp by (change (10 ^ N.of_nat 20)%N with 100000000000000000000%N; lia).
    specialize (Hl Hp). lia.
Qed.

(** Setters on what was written. *)
Lemma raw_string_quote old s : valid_utf8 s -> raw_string old (quote s) = Some s.
Proof.
  intros H. unfold raw_string.
  by destruct (reads_document 0 (quote s) (JString s)) as [-> _]; [|apply reads_quote|].
Qed.
Lemma raw_u64_Itoa old n : is_u64 n -> raw_u64 old (Itoa n) = Some n.
Proof.
  intros H. destruct (Itoa_u64 n H) as (H1 & H2 & _). unfold raw_u64.
  by destruct (reads_document 0 (Itoa n) (JNumber (Itoa n))) as [-> _]; [|apply reads_num|].
Qed.

(** *** Strings of plain bytes *)
Lemma html_safe_ascii c : html_safe c = true -> is_ascii c.
Proof. unfold html_safe, is_ascii. intros. bool_prop. done. Qed.
Lemma safe_valid s : all_bytes html_safe s = true -> valid_utf8 s.
Proof.
  induction s as [|c s IH]; intros H; [constructor|]. simpl in H. bool_prop.
  apply valid_ascii; auto using html_safe_ascii.
Qed.
Lemma safe_quote_body n s :
  all_bytes html_safe s = true -> (String.length s <= n)%nat -> quote_body n s = s.
Proof.
  revert n. induction s as [|c s IH]; intros n H Hn; [by destruct n|]. destruct n as [|n]; [simpl in Hn; lia|].
  simpl in H, Hn. bool_prop. cbn [quote_body].
  rewrite (proj2 (Z.ltb_lt _ _)) by (by apply html_safe_ascii).
  match goal with H : html_safe c = true |- _ => rewrite H end. autorewrite with sapp. rewrite IH by (done || lia). done.
Qed.
Lemma slen_quote s : all_bytes html_safe s = true -> slen (quote s) = slen s + 2.
Proof. intros H. unfold quote. rewrite safe_quote_body by done. rewrite !slen_app. change (slen dquote) with 1. lia. Qed.
