(* ===== verification/MessageFacts.v ===== *)
(** * Messages that the constructors build

    A snapshot or delta made by its constructor passes its own validation, a
    signed proof is read back, the negotiated version and capabilities satisfy
    both sides. *)

From S2P Require Import Prelude GoText GoHash GoUrl GoJson Errors Canonical TextFacts JsonFacts.
From S2P Require Import Identifiers WireConfig Messages.

(** ** Content hashes *)

Lemma hex_digit_lower n : 0 <= n < 16 -> is_hex_lower (hex_digit n) = true.
Proof.
  intros H. unfold is_hex_lower, hex_digit, is_digit, between. case_match; bool_prop;
    rewrite code_byte_of by lia; rewrite orb_true_iff, !andb_true_iff, !Z.leb_le; lia.
Qed.

Lemma hex_encode_ok l :
  is_bytes l ->
  slen (hex_EncodeToString l) = 2 * Z.of_nat (length l)
  /\ all_bytes is_hex_lower (hex_EncodeToString l) = true.
Proof.
  induction 1 as [|b l Hb Hl [IH1 IH2]]; [done|]. cbn [hex_EncodeToString length].
  rewrite !slen_cons, IH1. split; [lia|]. simpl.
  rewrite !hex_digit_lower by divmod. done.
Qed.

Lemma hashPattern_content_hash s : hashPattern (content_hash s) = true.
Proof.
  unfold hashPattern, content_hash. rewrite (proj2 (strip_prefix_Some _ _ _) eq_refl).
  destruct (hex_encode_ok _ (Sum256_is_bytes s)) as [H1 H2]. rewrite H1, H2, length_Sum256. done.
Qed.

(** ** Constructors *)

Lemma NewSnapshot_inv t g p s :
  NewSnapshot t g p = Ok s ->
  ValidateIdentifier t = None /\ g <> 0
  /\ canonicalJSON p MaxSnapshotBytes = Ok (Snapshot.Payload s)
  /\ validateConfigSnapshotPayload (Snapshot.Payload s) t g = None
  /\ s = Snapshot.mk "" t "" "" 0 g (content_hash (Snapshot.Payload s)) (Snapshot.Payload s).
Proof.
  unfold NewSnapshot. intros. repeat case_match; simplify_eq; bool_prop. cbn.
  split_and!; try done. by apply ok_None.
Qed.

Lemma canonical_size data limit out : canonicalJSON data limit = Ok out -> 0 < slen out <= limit.
Proof. intros H. apply canonicalJSON_canonical in H. apply canonicalJSON_ok in H. by destruct_and!. Qed.

Lemma NewSnapshot_Validate t g p s : NewSnapshot t g p = Ok s -> Snapshot_Validate s = None.
Proof.
  intros H. apply NewSnapshot_inv in H as (Ht & Hg & Hc & Hv & E).
  pose proof (canonical_size _ _ _ Hc) as [? ?]. apply canonicalJSON_canonical in Hc.
  rewrite E. unfold Snapshot_Validate. cbn. rewrite Ht, Hc, Hv, hashPattern_content_hash.
  cbn [ok negb andb orb].
  rewrite (proj2 (Z.eqb_neq _ _)), (proj2 (Z.eqb_neq (slen _) 0)), (proj2 (Z.ltb_ge _ _)) by (done || lia).
  by rewrite !bool_decide_eq_true_2.
Qed.

(** A snapshot that NewSnapshot builds passes Snapshot.Validate, carries the same JSON
    value as the given payload, and is rebuilt unchanged from its own payload. *)
Theorem NewSnapshot_valid tunnelID generation payload s :
  NewSnapshot tunnelID generation payload = Ok s ->
  Snapshot_Validate s = None
  /\ json_value (Snapshot.Payload s) = json_value payload
  /\ NewSnapshot tunnelID generation (Snapshot.Payload s) = Ok s.
Proof.
  intros H. split; [by eapply NewSnapshot_Validate|].
  apply NewSnapshot_inv in H as (Ht & Hg & Hc & Hv & E). split.
  - apply canonicalJSON_ok in Hc as (_ & _ & _ & v & Hp & _ & ->). rewrite Hp.
    apply json_value_decoded in Hp. by apply Marshal_value.
  - pose proof (canonical_size _ _ _ Hc) as [? ?]. apply canonicalJSON_canonical in Hc.
    unfold NewSnapshot. rewrite Ht, Hc, Hv, (proj2 (Z.eqb_neq generation 0)) by done. simpl.
    rewrite (proj2 (Z.eqb_neq (slen _) 0)), (proj2 (Z.ltb_ge _ _)) by lia. simpl. by rewrite <- E.
Qed.

(** A delta that NewDelta builds passes Delta.Validate exactly when its canonical payload
    is at most MaxDeltaBytes; NewDelta itself accepts up to MaxSnapshotBytes, so larger deltas
    are built and then refused everywhere. *)
Theorem NewDelta_valid_iff tunnelID previous generation payload d :
  NewDelta tunnelID previous generation payload = Ok d ->
  Delta_Validate d = None <-> slen (Delta.Payload d) <= MaxDeltaBytes.
Proof.
  unfold NewDelta. destruct (Snapshot_Validate previous) eqn:Hprev; [done|]. case_match eqn:Hg; [done|].
  bool_prop. destruct (NewSnapshot tunnelID generation payload) as [s|] eqn:Hs; [|done]. intros; simplify_eq.
  apply NewSnapshot_inv in Hs as (Ht & Hg0 & Hc & Hv & E). cbn.
  pose proof (canonical_size _ _ _ Hc) as [? ?]. apply canonicalJSON_canonical in Hc.
  assert (Snapshot.ContentHash s = content_hash (Snapshot.Payload s)) as Hh by (rewrite E; done).
  assert (hashPattern (Snapshot.ContentHash previous) = true /\ Snapshot.Generation previous <> 0) as [Hph Hpg].
  { unfold Snapshot_Validate in Hprev. case_match; [done|]. bool_prop. done. }
  unfold Delta_Validate. cbn. rewrite Ht, Hph, Hh, hashPattern_content_hash, (proj2 (Z.eqb_neq (slen _) 0)) by lia.
  cbn [ok negb andb orb]. rewrite (proj2 (Z.eqb_neq _ _) Hpg), Z.eqb_refl. cbn [negb orb]. split.
  - intros H'. case_match eqn:Hlen; [done|]. by bool_prop.
  - intros Hle. rewrite (proj2 (Z.ltb_ge _ _)) by done.
    assert (canonicalJSON (Snapshot.Payload s) MaxDeltaBytes = Ok (Snapshot.Payload s)) as ->.
    { apply canonicalJSON_ok in Hc as (? & ? & ? & v & ? & ? & ?). apply canonicalJSON_ok. split_and!; eauto. }
    by rewrite !bool_decide_eq_true_2, Hv.
Qed.

(** ** Detached proofs *)

(** The bytes of [base64.RawURLEncoding]. *)
Definition b64_byte (c : ascii) : bool := is_alnum c || is_byte 45 c || is_byte 95 c.

Lemma b64_char_byte n : 0 <= n < 64 -> b64_byte (b64_char n) = true.
Proof.
  intros Hn. unfold b64_byte, is_alnum, is_upper, is_lower, is_digit, between, is_byte, b64_char.
  repeat case_match; bool_prop; rewrite code_byte_of by lia;
    rewrite !orb_true_iff, !andb_true_iff, !Z.leb_le, !Z.eqb_eq; lia.
Qed.

Lemma b64_encode_bytes l : is_bytes l -> all_bytes b64_byte (b64_encode l) = true.
Proof.
  revert l. fix IH 1. intros l Hl. destruct l as [|a [|b [|c l']]]; [done| | |].
  all: unfold is_bytes in Hl; repeat rewrite Forall_cons in Hl; destruct_and?.
  all: cbn [b64_encode all_bytes]; rewrite !b64_char_byte by divmod; cbn [andb]; try done.
  by apply IH.
Qed.

Lemma b64_encode_length l : slen (b64_encode l) = (4 * Z.of_nat (length l) + 2) / 3.
Proof.
  revert l. fix IH 1. intros l. destruct l as [|a [|b [|c l']]]; [done|done|done|].
  cbn [b64_encode]. rewrite !slen_cons, IH. cbn [length].
  rewrite !Nat2Z.inj_succ. divmod.
Qed.

(** No byte of the text starts one of the prefixes. *)
Definition foreign_start (f : ascii -> bool) (p : string) : bool :=
  match p with String c _ => negb (f c) | EmptyString => false end.

Lemma strip_any_None f ps s :
  forallb (foreign_start f) ps = true -> all_bytes f s = true -> strip_any ps s = None.
Proof.
  intros Hps Hs. induction ps as [|p ps IH]; [done|]. destruct p as [|c p]; [done|].
  cbn [strip_any forallb foreign_start] in *. apply andb_true_iff in Hps as [Hc%negb_true_iff Hps].
  assert (strip_prefix (String c p) s = None) as ->; [|by apply IH].
  destruct s as [|d s]; [done|]. simpl in *. bool_prop. rewrite bool_decide_eq_false_2; [done|]. intros ->. congruence.
Qed.

Lemma strip_while_same n ps s : strip_any ps s = None -> strip_while n ps s = s.
Proof. destruct n; [done|]. simpl. by intros ->. Qed.

Lemma srev_app_bytes f s acc : all_bytes f (srev_app s acc) = all_bytes f s && all_bytes f acc.
Proof.
  revert acc. induction s as [|c s IH]; intros acc; simpl; [done|]. rewrite IH. simpl.
  by destruct (f c), (all_bytes f s).
Qed.

Lemma srev_app_involutive s acc : srev_app (srev_app s acc) "" = srev_app acc s.
Proof. revert acc. induction s as [|c s IH]; intros acc; simpl; [done|]. apply (IH (String c acc)). Qed.

Lemma srev_involutive s : srev (srev s) = s.
Proof. apply (srev_app_involutive s ""). Qed.

(** A text of bytes that neither start nor end a white-space rune. *)
Definition spaceless (f : ascii -> bool) : bool :=
  forallb (foreign_start f) space_encodings && forallb (foreign_start f) (srev <$> space_encodings).
Lemma TrimSpace_bytes f s : spaceless f = true -> all_bytes f s = true -> TrimSpace s = s.
Proof.
  unfold spaceless. intros [H1 H2]%andb_true_iff Hs. unfold TrimSpace. rewrite (strip_while_same _ space_encodings).
  - rewrite strip_while_same; [apply srev_involutive|]. apply (strip_any_None f); [done|].
    unfold srev. by rewrite srev_app_bytes, Hs.
  - by apply (strip_any_None f).
Qed.
Lemma TrimSpace_b64 s : all_bytes b64_byte s = true -> TrimSpace s = s.
Proof. by apply TrimSpace_bytes. Qed.

Lemma ContainsAny_b64 s : all_bytes b64_byte s = true -> ContainsAny s crlf = false.
Proof.
  unfold ContainsAny. induction s as [|c s IH]; intros Hs; [done|]. simpl in *. bool_prop.
  rewrite IH by done. rewrite !orb_false_r, orb_false_iff, !bool_decide_eq_false.
  split; intros ->; done.
Qed.

Lemma ValidateProof_b64 signature :
  is_bytes signature ->
  ok (ValidateProof (b64_encode signature)) = bool_decide (24 <= Z.of_nat (length signature) <= 12288).
Proof.
  intros Hb. pose proof (b64_encode_bytes _ Hb) as Hs. unfold ValidateProof.
  rewrite TrimSpace_b64, ContainsAny_b64, b64_encode_length, bool_decide_eq_true_2 by done.
  change MaxProofBytes with 16384. cbn [negb]. rewrite !orb_false_r.
  destruct (_ || _) eqn:H; cbn [ok]; symmetry;
    [apply bool_decide_eq_false_2; apply orb_true_iff in H as [?%Z.ltb_lt|?%Z.ltb_lt]; divmod
    |apply bool_decide_eq_true_2; apply orb_false_iff in H as [?%Z.ltb_ge ?%Z.ltb_ge]; divmod].
Qed.

(** A proof that SignProofPayload encodes decodes to the signature and verifies exactly
    when the verifier accepts the signature, provided the signature has 24 to 12288 bytes;
    outside that range, which SignProofPayload does not check, the proof it returns is refused. *)
Theorem proof_roundtrip payload sign verify proof :
  (forall p, is_bytes (sign p)) ->
  SignProofPayload payload sign = Ok proof ->
  if bool_decide (24 <= Z.of_nat (length (sign payload)) <= 12288)
  then DecodeProof proof = Ok (sign payload) /\
       (VerifyProofPayload payload proof verify = None <-> verify payload (sign payload) = true)
  else DecodeProof proof = Err ErrAuthenticationFailed /\
       VerifyProofPayload payload proof verify = Some ErrAuthenticationFailed.
Proof.
  intros Hsign. unfold SignProofPayload. case_match eqn:Hp; [done|]. case_match eqn:Hl; [done|].
  intros [= <-]. bool_prop. unfold VerifyProofPayload, DecodeProof.
  rewrite (proj2 (Z.eqb_neq (slen payload) 0)), ValidateProof_b64 by done.
  case_bool_decide; cbn [negb]; [|done].
  rewrite b64_decode_encode by done. change MaxProofBytes with 16384.
  rewrite (proj2 (Z.eqb_neq _ 0)), (proj2 (Z.ltb_ge _ _)) by lia. cbn [orb].
  split; [done|]. by destruct (verify payload (sign payload)).
Qed.
