(* ===== verification/FrameFacts.v ===== *)
(** * Frames arrive as they were sent

    A snapshot or delta that is bound to a session is framed, written through
    any honest writer, read back from the stream and decoded to the same
    message, and the stream is left at the next frame. *)
From S2P Require Import Prelude GoText GoHash GoUrl GoJson Errors Canonical TextFacts JsonFacts.
From S2P Require Import Identifiers WireConfig GoStruct Messages RotationMessages MessageFacts.
From S2P Require Import Frames StructFacts.

(** ** Plain texts *)

Ltac byte_cases := let x := fresh in intros x; destruct x as [[] [] [] [] [] [] [] []]; vm_compute; congruence.

Lemma identifier_safe s : identifierPattern s = true -> all_bytes html_safe s = true.
Proof.
  destruct s as [|c r]; [done|]. unfold identifierPattern. intros H. bool_prop. simpl. apply andb_true_iff.
  assert (forall c, is_alnum c || one_of "._:-" c = true -> html_safe c = true) as Hb by byte_cases.
  split; [|by apply (all_bytes_mono _ _ r Hb)]. apply Hb, orb_true_iff. by left.
Qed.

Lemma ValidateIdentifier_inv s :
  ValidateIdentifier s = None -> all_bytes html_safe s = true /\ 0 < slen s <= 128.
Proof.
  unfold ValidateIdentifier, MaxIdentifierBytes. intros H. case_match; [done|]. bool_prop.
  split; [by apply identifier_safe|]. split; [|done]. destruct s; [done|]. rewrite slen_cons.
  pose proof (slen_nonneg s). lia.
Qed.

Lemma hash_safe s : hashPattern s = true -> all_bytes html_safe s = true /\ slen s = 71.
Proof.
  unfold hashPattern. destruct (strip_prefix "sha256:" s) as [h|] eqn:E; [|done]. intros H. bool_prop.
  apply strip_prefix_Some in E as ->. rewrite all_bytes_app, slen_app. split.
  - apply andb_true_iff. split; [done|]. eapply all_bytes_mono; [|done]. byte_cases.
  - change (slen "sha256:") with 7. lia.
Qed.

Lemma ids_ok_inv l : ids_ok l = true -> Forall (fun s => ValidateIdentifier s = None) l.
Proof.
  intros H. apply Forall_forall. intros s Hs. unfold ids_ok in H. rewrite forallb_forall in H.
  apply ok_None, H. by apply list_elem_of_In.
Qed.

Lemma request_safe s : validRequestID s = true -> all_bytes html_safe s = true /\ slen s <= 128.
Proof. unfold validRequestID, MaxIdentifierBytes. intros H. bool_prop. split; [by apply identifier_safe|done]. Qed.

Lemma allowed_safe t : allowed t = true -> all_bytes html_safe t = true /\ slen t <= 30.
Proof.
  unfold allowed. intros H. bool_prop.
  assert (Forall (fun t => all_bytes html_safe t && (slen t <=? 30) = true) allowedMessageTypes) as F
    by (by apply (bool_decide_unpack _)).
  rewrite Forall_forall in F. specialize (F t H). by bool_prop.
Qed.

(** ** A configuration document does not nest deeply *)

Definition scalar (v : json) : Prop := match v with JArray _ | JObject _ => False | _ => True end.
Lemma scalar_decoded v d d' : scalar v -> decoded d v -> d' <= MaxJSONDepth -> decoded d' v.
Proof. destruct v; simpl; intuition. Qed.

(** The values that the setters accept. *)
Definition route_shape (v : json) : Prop :=
  v = JNull \/ exists ms, v = JObject ms /\ Forall (fun m => scalar (snd m)) ms.
Definition member_shape (v : json) : Prop :=
  scalar v \/ exists vs, v = JArray vs /\ Forall route_shape vs.

Lemma fold_members_None {A} (set : A -> string * json -> option A) ms :
  fold_left (fun acc m => a ← acc; set a m) ms None = None.
Proof. by induction ms. Qed.
Lemma fold_members_Forall {A} (set : A -> string * json -> option A) (P : json -> Prop) a ms a' :
  (forall a m a', set a m = Some a' -> P (snd m)) ->
  fold_members set a ms = Some a' -> Forall (fun m => P (snd m)) ms.
Proof.
  intros Hset. unfold fold_members. revert a. induction ms as [|m ms IH]; intros a H; [constructor|].
  cbn [fold_left mbind option_bind] in H. destruct (set a m) as [a1|] eqn:E;
    [|by rewrite fold_members_None in H]. constructor; eauto.
Qed.

Lemma route_member_scalar r m r' : set_route_member r m = Some r' -> scalar (snd m).
Proof.
  destruct m as [k v]. unfold set_route_member. destruct v; try done; intros H; exfalso.
  all: by repeat match type of H with context [if ?b then _ else _] => destruct b end.
Qed.
Lemma set_routes_shape vs old rs : set_routes old vs = Some rs -> Forall route_shape vs.
Proof.
  revert old rs. induction vs as [|v vs IH]; intros old rs H; [constructor|]. cbn [set_routes] in H.
  apply bind_Some in H as (r & Hr & H). apply bind_Some in H as (rs' & Hrs & _). constructor; [|eauto].
  destruct v; try done; [by left|right]. eexists. split; [done|]. cbn [set_route] in Hr.
  eapply (fold_members_Forall _ scalar); [|done]. apply route_member_scalar.
Qed.
Lemma config_member_shape c m c' : set_config_member c m = Some c' -> member_shape (snd m).
Proof.
  destruct m as [k v]. unfold set_config_member. destruct v; try (by left); intros H.
  - repeat match type of H with context [if ?b then _ else _] => destruct b; [done|] end.
    destruct (is_field k "routes"); [|done]. apply bind_Some in H as (rs & Hrs & _). right.
    eauto using set_routes_shape.
  - by repeat match type of H with context [if ?b then _ else _] => destruct b end.
Qed.

Lemma member_shape_decoded v d d' : member_shape v -> decoded d v -> d' + 2 <= MaxJSONDepth -> decoded d' v.
Proof.
  intros [Hs|(vs & -> & Hvs)] Hd Hle; [eapply scalar_decoded; [done..|lia]|].
  destruct Hd as [_ Hd]. apply decoded_all in Hd. split; [lia|]. apply decoded_all.
  rewrite Forall_forall in *. intros v Hv. specialize (Hd v Hv).
  destruct (Hvs v Hv) as [->|(ms & -> & Hms)]; [split; [lia|done]|].
  destruct Hd as (_ & Hsort & Hkeys & Hd). split; [lia|]. split_and!; [done..|].
  apply (decoded_all (fun m => decoded (d + 1 + 1) (snd m))) in Hd.
  apply (decoded_all (fun m => decoded (d' + 1 + 1) (snd m))). rewrite Forall_forall in *.
  intros m Hm. eapply scalar_decoded; [by apply Hms|by apply Hd|lia].
Qed.

(** An accepted configuration payload can stand three levels below the
    nesting limit. *)
Lemma config_payload payload limit t g :
  canonicalJSON payload limit = Ok payload -> validateConfigSnapshotPayload payload t g = None ->
  exists v, payload = Marshal v /\ decoded (MaxJSONDepth - 3) v.
Proof.
  intros Hc Hv. apply canonicalJSON_ok in Hc as (_ & _ & _ & v & Hp & _ & E). exists v. split; [done|].
  pose proof (json_value_decoded _ _ Hp) as Hd. unfold validateConfigSnapshotPayload in Hv.
  change (parse_json payload) with (json_value payload) in Hv. rewrite Hp in Hv.
  destruct v as [| | | | |fields]; try done. case_match; [done|].
  destruct (fold_members set_config_member zeroConfig fields) as [c|] eqn:Hf; [|done].
  apply (fold_members_Forall _ member_shape) in Hf; [|apply config_member_shape].
  destruct Hd as (_ & Hsort & Hkeys & Hd). split; [lia|]. split_and!; [done..|].
  apply (decoded_all (fun m => decoded (0 + 1) (snd m))) in Hd.
  apply (decoded_all (fun m => decoded (MaxJSONDepth - 3 + 1) (snd m))). rewrite Forall_forall in *.
  intros m Hm. eapply member_shape_decoded; [by apply Hf|by apply Hd|lia].
Qed.

(** ** Struct fields by position *)

Fixpoint field_pos (names : list string) (key : string) : option nat :=
  match names with
  | [] => None
  | n :: ns => if is_field key n then Some O else S <$> field_pos ns key
  end.
Lemma set_member_pos {A} (fields : list (field A)) a key raw i f :
  field_pos fields.*1 key = Some i -> fields !! i = Some f -> set_member fields a (key, raw) = snd f a raw.
Proof.
  unfold set_member. cbn [fst snd]. revert i. induction fields as [|g fields IH]; intros i Hp Hi; [done|].
  rewrite fmap_cons in Hp. cbn [field_pos] in Hp. cbn [List.find].
  destruct (is_field key g.1); [simplify_eq/=; done|].
  destruct (field_pos fields.*1 key) as [j|] eqn:E; [|done]. simplify_eq/=. by apply (IH j).
Qed.

(** Run the setter of the next member. *)
Ltac set_next :=
  unfold w_raw; cbn [set_members map w_key w_text];
  lazymatch goal with
  | |- context [set_member ?F ?a (?k, ?raw)] =>
      let i := eval vm_compute in (field_pos F.*1 k) in
      lazymatch i with
      | Some ?n =>
          let H := fresh in
          assert (field_pos F.*1 k = Some n) as H by (vm_cast_no_check (eq_refl (Some n)));
          erewrite (set_member_pos F a k raw n _ H) by reflexivity; clear H
      end
  end; cbn [snd];
  first [rewrite raw_string_quote by (by apply safe_valid) | rewrite raw_u64_Itoa by done
        | unfold raw_message];
  cbn [mbind option_bind].

(** ** Lengths of written objects *)
Definition total (l : list string) : Z := foldr (fun x acc => slen x + 1 + acc) 0 l.
Lemma slen_join l : slen (join_with "," l) <= total l.
Proof.
  induction l as [|x l IH]; [done|]. destruct l as [|y l]; [simpl; lia|].
  change (join_with "," (x :: y :: l)) with (x +:+ "," +:+ join_with "," (y :: l)).
  rewrite !slen_app. change (slen ",") with 1.
  change (total (x :: y :: l)) with (slen x + 1 + total (y :: l)). lia.
Qed.
Lemma slen_object l : slen (object_text l) <= total l + 2.
Proof.
  unfold object_text. rewrite !slen_app. pose proof (slen_join l).
  change (slen "{") with 1. change (slen "}") with 1. lia.
Qed.
Lemma slen_member k t : slen (member k t) = slen (quote k) + 1 + slen t.
Proof. unfold member. rewrite !slen_app. change (slen ":") with 1. lia. Qed.

(** ** Payloads *)

Lemma payload_text payload limit t g :
  canonicalJSON payload limit = Ok payload -> validateConfigSnapshotPayload payload t g = None ->
  exists v, reads 3 payload v /\ kept Outside payload Outside /\ Marshal_raw payload = Some payload.
Proof.
  intros Hc Hv. pose proof (canonical_size _ _ _ Hc) as [Hpos _].
  destruct (config_payload _ _ _ _ Hc Hv) as (v & E & Hd). exists v.
  pose proof (reads_Marshal 3 v Hd) as Hr. pose proof (kept_Marshal v _ Hd) as Hk. rewrite <- E in Hr, Hk.
  split_and!; [done..|]. unfold Marshal_raw. rewrite compact_kept by done.
  rewrite bool_decide_eq_false_2 by (intros ->; done). rewrite json_Valid_unique; [done|].
  by eapply (reads_document 3); [|done].
Qed.

Definition text_member (k s : string) : written := mkWritten k (quote s) (JString s).
Definition number_member (k : string) (n : Z) : written := mkWritten k (Itoa n) (JNumber (Itoa n)).

Lemma good_text h k s : 0 <= h -> valid_utf8 k -> all_bytes html_safe s = true -> good_member h (text_member k s).
Proof. intros. split; [done|]. eapply reads_mono; [done|]. apply reads_quote. by apply safe_valid. Qed.
Lemma good_number h k n : 0 <= h -> valid_utf8 k -> is_u64 n -> good_member h (number_member k n).
Proof. intros ? ? Hn. split; [done|]. eapply reads_mono; [done|]. by apply reads_num, Itoa_u64. Qed.
Lemma kept_text k s : valid_utf8 k -> all_bytes html_safe s = true ->
  kept Outside (w_member (text_member k s)) Outside.
Proof. intros. apply kept_member; [done|]. by apply kept_quote, safe_valid. Qed.
Lemma kept_number k n : valid_utf8 k -> is_u64 n -> kept Outside (w_member (number_member k n)) Outside.
Proof. intros. apply kept_member; [done|]. by apply kept_literal, is_number_bytes, Itoa_u64. Qed.
Lemma literal_key k : all_bytes html_safe k = true -> valid_utf8 k.
Proof. apply safe_valid. Qed.

(** ** Writers

    [io.Writer] as its documentation has it: the count is at most the length of
    the data and says how much of it was taken. *)
Class HonestWriter (W : Type) `{!Writer W} := {
  sent : W -> string;
  write_takes w data w' n err :
    Write w data = (w', (n, err)) -> n <= slen data /\ sent w' = sent w +:+ stake (Z.to_nat n) data;
}.
(** A writer that takes at least one byte at a time and reports no error. *)
Class ReliableWriter (W : Type) `{!Writer W, !HonestWriter W} :=
  write_progress w data w' n err :
    data <> "" -> Write w data = (w', (n, err)) -> err = None /\ 0 < n.

Section Writing.
Context {W : Type} `{!Writer W, !HonestWriter W}.

Lemma writeAll_loop_sent fuel (w : W) data w' err :
  (String.length data < fuel)%nat -> writeAll_loop fuel w data = (w', err) ->
  exists taken rest, data = taken +:+ rest /\ sent w' = sent w +:+ taken /\ (err = None -> rest = "").
Proof.
  revert w data. induction fuel as [|fuel IH]; intros w data Hf H; [lia|]. cbn [writeAll_loop] in H.
  destruct (slen data =? 0) eqn:H0; bool_prop.
  { apply slen_zero_iff in H0 as ->. simplify_eq. exists "", "". split_and!; [done|by rewrite sapp_nil_r|done]. }
  destruct (Write w data) as [w1 [n e]] eqn:Hw. apply write_takes in Hw as [Hn Hs].
  destruct e as [e|].
  { simplify_eq. exists (stake (Z.to_nat n) data), (sdrop (Z.to_nat n) data).
    split_and!; [by rewrite stake_sdrop|done|done]. }
  destruct ((n <=? 0) || (slen data <? n)) eqn:Hc.
  { simplify_eq. exists (stake (Z.to_nat n) data), (sdrop (Z.to_nat n) data).
    split_and!; [by rewrite stake_sdrop|done|done]. }
  bool_prop. apply IH in H as (taken & rest & E & Hs' & Hr).
  - exists (stake (Z.to_nat n) data +:+ taken), rest. rewrite sapp_assoc, <- E, stake_sdrop, Hs', Hs.
    split_and!; [done|by rewrite sapp_assoc|done].
  - pose proof (f_equal String.length (stake_sdrop (Z.to_nat n) data)) as El. rewrite length_sapp in El.
    assert (0 < String.length (stake (Z.to_nat n) data))%nat; [|lia].
    destruct data; [done|]. destruct (Z.to_nat n) eqn:En; [lia|]. simpl. lia.
Qed.

Lemma writeAll_sent (w : W) data w' err :
  writeAll w data = (w', err) ->
  exists taken rest, data = taken +:+ rest /\ sent w' = sent w +:+ taken /\ (err = None -> rest = "").
Proof. apply writeAll_loop_sent. lia. Qed.

Lemma writeAll_loop_reliable `{!ReliableWriter W} fuel (w : W) data :
  exists w', writeAll_loop fuel w data = (w', None).
Proof.
  revert w data. induction fuel as [|fuel IH]; intros w data; [by eexists|]. cbn [writeAll_loop].
  destruct (slen data =? 0) eqn:H0; [by eexists|]. bool_prop.
  destruct (Write w data) as [w1 [n e]] eqn:Hw. pose proof Hw as Hw'. apply write_takes in Hw' as [Hn _].
  apply write_progress in Hw as [-> Hpos]; [|by intros ->].
  rewrite (proj2 (Z.leb_gt _ _)), (proj2 (Z.ltb_ge _ _)) by lia. apply IH.
Qed.

Lemma writeAll_reliable `{!ReliableWriter W} (w : W) data :
  exists w', writeAll w data = (w', None) /\ sent w' = sent w +:+ data.
Proof.
  destruct (writeAll_loop_reliable (S (String.length data)) w data) as [w' H]. exists w'. split; [done|].
  apply writeAll_sent in H as (taken & rest & -> & -> & Hr). rewrite Hr by done. by rewrite sapp_nil_r.
Qed.
End Writing.

(** ** The length prefix *)

Lemma Uint32_PutUint32 n : 0 <= n < two32 -> Uint32 (PutUint32 n) = n.
Proof.
  unfold two32. intros Hn. unfold Uint32, PutUint32. rewrite bytes_of_of_bytes. cbn [fmap list_fmap fold_left].
  change (2 ^ 24) with 16777216. change (2 ^ 16) with 65536. change (2 ^ 8) with 256.
  change (2 ^ 32) with 4294967296 in Hn. rewrite !code_byte_of by divmod. divmod.
Qed.
Lemma PutUint32_length n : String.length (PutUint32 n) = 4%nat.
Proof. done. Qed.

Lemma ReadFull_app s rest : ReadFull (String.length s) (s +:+ rest) = (Ok s, rest).
Proof.
  unfold ReadFull. rewrite length_sapp, (proj2 (Nat.leb_le _ _)), stake_app by lia. f_equal.
  induction s as [|c s IH]; [done|]. apply IH.
Qed.

(** ** Frames *)

Lemma validatePayloadJSON_reads h t v :
  h <= MaxJSONDepth -> reads h t v -> slen t <= MaxFrameBytes -> validatePayloadJSON t = None.
Proof.
  intros Hh Hr Hl. destruct (reads_document _ _ _ Hh Hr) as [_ Hu]. unfold validatePayloadJSON.
  destruct Hr as [(c & s & E & _) _]. rewrite (proj2 (Z.eqb_neq _ _)), (proj2 (Z.ltb_ge _ _)), json_Valid_unique, Hu; try done.
  intros H0%slen_zero_iff. by subst.
Qed.

Lemma maxPayload_fits ty : maxPayloadBytes ty + 300 <= MaxFrameBytes.
Proof. unfold maxPayloadBytes. by repeat case_match. Qed.

(** Strict decoding of a written object. *)
Lemma decodeStrict_written {A} h (fields : list (field A)) a ms :
  0 <= h -> 1 + h <= MaxJSONDepth -> Forall (good_member h) ms -> NoDup (w_key <$> ms) ->
  slen (w_text_of ms) <= MaxFrameBytes ->
  decodeStrict fields a (w_text_of ms)
  = match set_members fields a (map w_raw ms) with Some x => Ok x | None => Err (OtherError "json") end.
Proof.
  intros Hh0 Hh Hg Hnd Hl. unfold decodeStrict.
  destruct (reads_document (h + 1) (w_text_of ms) (JObject (w_object [] ms))) as [_ ->]; [lia| |].
  { by apply reads_object_text. }
  rewrite (decode_struct_written h), (proj2 (Z.eqb_neq _ _)), (proj2 (Z.ltb_ge _ _)) by done. done.
Qed.

(** A payload text that nests at most four deep and is its message. *)
Record good_payload (ty : MessageType) (t : string) : Prop := {
  gp_reads : exists v, reads 4 t v;
  gp_kept : kept Outside t Outside;
  gp_size : slen t <= maxPayloadBytes ty;
  gp_valid : validateMessagePayload ty t = None;
}.

Section FrameRoundTrip.
Context (ty : MessageType) (req t : string).
Hypotheses (Hty : allowed ty = true) (Hreq : validRequestID req = true) (Ht : good_payload ty t).
Let f := Frame.mk ty ProtocolVersion req t.

Lemma payload_nonempty : slen t <> 0.
Proof using Ht. clear f. destruct Ht as [(v & (c & s & E & _) & _) _ _ _]. intros H0%slen_zero_iff. congruence. Qed.

Lemma payload_json : validatePayloadJSON t = None.
Proof using Ht.
  destruct Ht as [(v & Hv) _ Hs _]. pose proof (maxPayload_fits ty).
  eapply (validatePayloadJSON_reads 4); [done..|lia].
Qed.

Lemma frame_valid : Frame_Validate f = None.
Proof using Hty Hreq Ht.
  unfold Frame_Validate, f. cbn. rewrite Hty, Hreq, payload_json, (proj2 (Z.eqb_neq _ _) payload_nonempty).
  cbn [negb orb]. rewrite (proj2 (Z.ltb_ge _ _)) by apply Ht. apply Ht.
Qed.

Definition frame_members (v : json) : list written :=
  [text_member "type" ty; text_member "version" ProtocolVersion; text_member "request_id" req;
   mkWritten "payload" t v].

Lemma frame_members_good v : reads 4 t v -> Forall (good_member 4) (frame_members v).
Proof using Hty Hreq.
  intros Hv. apply allowed_safe in Hty as [? _]. apply request_safe in Hreq as [? _].
  unfold frame_members. repeat (apply Forall_cons; split); [..|by apply Forall_nil].
  1-3: by apply good_text; [|apply literal_key|]. by split; [apply literal_key|].
Qed.

Lemma frame_text_written v : reads 4 t v -> Frame_text f = Some (w_text_of (frame_members v)).
Proof using Ht.
  intros Hv. unfold Frame_text, Marshal_raw, f. cbn [Frame.Payload].
  rewrite bool_decide_eq_false_2 by (intros E; by apply payload_nonempty, slen_zero_iff).
  rewrite json_Valid_unique by (by eapply (reads_document 4)). rewrite compact_kept by apply Ht. done.
Qed.

Lemma frame_size v : slen (w_text_of (frame_members v)) <= MaxFrameBytes.
Proof using Hty Hreq Ht.
  apply allowed_safe in Hty as [Hs1 ?]. apply request_safe in Hreq as [Hs2 ?].
  pose proof (gp_size _ _ Ht). pose proof (maxPayload_fits ty).
  unfold w_text_of. etrans; [apply slen_object|].
  unfold frame_members, text_member, w_member, total. cbn [map foldr w_key w_text].
  rewrite !slen_member, !(slen_quote ty), !(slen_quote req) by done.
  change (slen (quote ProtocolVersion)) with 5. change (slen (quote "type")) with 6.
  change (slen (quote "version")) with 9. change (slen (quote "request_id")) with 12.
  change (slen (quote "payload")) with 9. lia.
Qed.

Lemma frame_read v rest :
  reads 4 t v ->
  ReadFrame (Some (PutUint32 (to_u32 (slen (w_text_of (frame_members v))))
                   +:+ w_text_of (frame_members v) +:+ rest)) = (Ok f, Some rest).
Proof using Hty Hreq Ht.
  intros Hv. pose proof (frame_members_good v Hv) as Hg. pose proof (frame_size v) as Hsz.
  set (body := w_text_of (frame_members v)) in *.
  assert (NoDup (w_key <$> frame_members v)) as Hnd by (apply (bool_decide_unpack _); by vm_compute).
  destruct (reads_document 5 body (JObject (w_object [] (frame_members v)))) as [Hp Hu]; [done| |].
  { by apply (reads_object_text 4). }
  assert (0 < slen body <= MaxFrameBytes) as Hlen by (split; [by unfold body, w_text_of, slen|done]).
  assert (to_u32 (slen body) = slen body) as Hto.
  { apply Z.mod_small. unfold MaxFrameBytes, MaxSnapshotBytes in Hlen. change (Z.shiftl 4 20 + Z.shiftl 64 10) with 4259840 in Hlen.
    unfold two32. lia. }
  unfold ReadFrame. rewrite Hto.
  pose proof (ReadFull_app (PutUint32 (slen body)) (body +:+ rest)) as R1. rewrite PutUint32_length in R1.
  rewrite R1, Uint32_PutUint32 by (rewrite <- Hto; apply Z.mod_pos_bound; done).
  rewrite (proj2 (Z.eqb_neq _ _)), (proj2 (Z.ltb_ge _ _)) by lia.
  unfold slen. rewrite Nat2Z.id, ReadFull_app, json_Valid_unique, Hu by done. cbn [negb orb].
  assert (decodeStrict Frame_fields Frame.zero body = Ok f) as ->.
  - unfold body. rewrite (decodeStrict_written 4) by done. unfold frame_members, text_member.
    apply allowed_safe in Hty as [? _]. apply request_safe in Hreq as [? _].
    do 4 set_next. done.
  - by rewrite frame_valid.
Qed.

(** A valid frame goes through a reliable writer and is read back. *)
Lemma frame_sent {W} `{!Writer W, !HonestWriter W, !ReliableWriter W} (w : W) :
  exists w' bytes, WriteFrame (Some w) f = (Some w', None) /\ sent w' = sent w +:+ bytes
    /\ forall rest, ReadFrame (Some (bytes +:+ rest)) = (Ok f, Some rest).
Proof using Hty Hreq Ht.
  destruct (gp_reads _ _ Ht) as [v Hv]. set (body := w_text_of (frame_members v)).
  destruct (writeAll_reliable w (PutUint32 (to_u32 (slen body)))) as (w1 & H1 & S1).
  destruct (writeAll_reliable w1 body) as (w2 & H2 & S2).
  exists w2, (PutUint32 (to_u32 (slen body)) +:+ body). split_and!.
  - unfold WriteFrame. rewrite frame_valid, (frame_text_written v) by done. fold body.
    rewrite (proj2 (Z.ltb_ge _ _)) by apply frame_size. by rewrite H1, H2.
  - by rewrite S2, S1, sapp_assoc.
  - intros rest. rewrite sapp_assoc. by apply frame_read.
Qed.
End FrameRoundTrip.

(** What [NewFrame] returns on a good payload. *)
Lemma NewFrame_good ty req payload t :
  allowed ty = true -> validRequestID req = true -> good_payload ty t ->
  payload_Marshal payload = Ok t -> payloadTooLarge ty payload = false ->
  NewFrame ty req payload = Ok (Frame.mk ty ProtocolVersion req t).
Proof.
  intros Hty Hreq Ht Hm Hl. unfold NewFrame. rewrite Hty, Hreq, Hm, Hl. cbn [negb orb].
  rewrite (proj2 (Z.ltb_ge _ _)), (payload_json ty t Ht), (gp_valid _ _ Ht) by apply Ht. done.
Qed.

Lemma identifier_nonempty i : ValidateIdentifier i = None -> (i == "") = false.
Proof. intros H%ValidateIdentifier_inv. apply bool_decide_eq_false_2. intros ->. destruct H as [_ [H _]]. by vm_compute in H. Qed.

(** Turn the checks of a message into facts on its texts. *)
Ltac identifier_facts :=
  repeat match goal with
  | H : Forall _ (_ :: _) |- _ => rewrite !Forall_cons in H; destruct_and! H
  | H : ValidateIdentifier ?i = None |- _ =>
      pose proof (identifier_nonempty i H); apply ValidateIdentifier_inv in H as [? ?]
  | H : hashPattern _ = true |- _ => apply hash_safe in H as [? ?]
  end.
(** Members of a written message, one after the other. *)
Ltac each_member tac := repeat (apply Forall_cons; split); [tac..|by apply Forall_nil].

Ltac good_members := each_member ltac:(
  first [by apply good_text; [|apply literal_key|] | by apply good_number; [|apply literal_key|]
        | by split; [apply literal_key|]]).
Ltac kept_members := each_member ltac:(
  first [by apply kept_text; [apply literal_key|] | by apply kept_number; [apply literal_key|]
        | by apply kept_member; [apply literal_key|]]).
(** The lengths of the quoted texts: of safe strings, and of literal keys. *)
Ltac quoted_keys :=
  repeat match goal with
  | H : all_bytes html_safe ?x = true |- context [slen (quote ?x)] => rewrite (slen_quote x H)
  end;
  repeat match goal with |- context [slen (quote ?k)] =>
    let n := eval vm_compute in (slen (quote k)) in change (slen (quote k)) with n end.

(** *** Snapshots *)
Section SnapshotFrames.
Import Snapshot.
Context (s : Snapshot).
Hypotheses (Hs : Snapshot_ValidateBound s = None) (Hp : is_u64 (ProcessGeneration s))
  (Hg : is_u64 (Generation s)).

Definition snapshot_members (v : json) : list written :=
  [text_member "account_id" (AccountID s); text_member "tunnel_id" (TunnelID s);
   text_member "connector_id" (ConnectorID s); text_member "session_id" (SessionID s);
   number_member "process_generation" (ProcessGeneration s); number_member "generation" (Generation s);
   text_member "content_hash" (ContentHash s); mkWritten "payload" (Payload s) v].

Lemma snapshot_facts :
  Forall (fun i => ValidateIdentifier i = None) [AccountID s; TunnelID s; ConnectorID s; SessionID s]
  /\ ProcessGeneration s <> 0 /\ hashPattern (ContentHash s) = true /\ 0 < slen (Payload s) <= MaxSnapshotBytes
  /\ exists v, reads 3 (Payload s) v /\ kept Outside (Payload s) Outside
       /\ Marshal_raw (Payload s) = Some (Payload s).
Proof using Hs.
  unfold Snapshot_ValidateBound, Snapshot_Validate in Hs.
  destruct (ids_ok _) eqn:Hids in Hs; [|done]. apply ids_ok_inv in Hids.
  rewrite !Forall_cons in Hids. destruct Hids as (? & ? & ? & _).
  repeat case_match; try done; bool_prop; subst.
  match goal with H : ok _ = true |- _ => apply ok_None in H end. split_and!; try done.
  - by repeat constructor.
  - match goal with H : slen _ <> 0 |- _ => pose proof (slen_nonneg (Payload s)); lia end.
  - by eapply payload_text.
Qed.

Lemma snapshot_text v :
  Marshal_raw (Payload s) = Some (Payload s) -> Snapshot_text s = Some (w_text_of (snapshot_members v)).
Proof using Hs.
  intros Hraw. destruct snapshot_facts as (Hids & Hpg & _). identifier_facts.
  unfold Snapshot_text. rewrite Hraw. cbn [mbind option_bind].
  repeat match goal with H : (_ == "") = false |- _ => rewrite H end.
  rewrite (proj2 (Z.eqb_neq _ _) Hpg). done.
Qed.

Lemma snapshot_members_good v :
  reads 3 (Payload s) v ->
  Forall (good_member 3) (snapshot_members v) /\ NoDup (w_key <$> snapshot_members v).
Proof using Hs Hp Hg.
  intros Hv. destruct snapshot_facts as (Hids & _ & Hh & _). identifier_facts. split.
  - good_members.
  - apply (bool_decide_unpack _). by vm_compute.
Qed.

Lemma snapshot_size v : slen (w_text_of (snapshot_members v)) <= maxPayloadBytes MessageSnapshot.
Proof using Hs Hp Hg.
  destruct snapshot_facts as (Hids & _ & Hh & [_ Hl] & _). identifier_facts.
  destruct (Itoa_u64 _ Hp) as (_ & _ & ?). destruct (Itoa_u64 _ Hg) as (_ & _ & ?).
  unfold w_text_of. etrans; [apply slen_object|].
  unfold snapshot_members, text_member, number_member, w_member, total. cbn [map foldr w_key w_text].
  rewrite !slen_member. quoted_keys.
  change (maxPayloadBytes MessageSnapshot) with (MaxSnapshotBytes + 16384). lia.
Qed.

Lemma snapshot_decoded v :
  reads 3 (Payload s) v ->
  decodeStrict Snapshot_fields Snapshot.zero (w_text_of (snapshot_members v)) = Ok s.
Proof using Hs Hp Hg.
  intros Hv. destruct (snapshot_members_good v Hv) as [Hgood Hnd].
  pose proof (snapshot_size v). pose proof (maxPayload_fits MessageSnapshot).
  rewrite (decodeStrict_written 3) by (done || lia).
  destruct snapshot_facts as (Hids & _ & Hh & _). identifier_facts.
  unfold snapshot_members, text_member, number_member. do 8 set_next. by destruct s.
Qed.

Lemma snapshot_payload_good :
  exists t, Snapshot_text s = Some t /\ good_payload MessageSnapshot t
    /\ decodeStrict Snapshot_fields Snapshot.zero t = Ok s.
Proof using Hs Hp Hg.
  destruct snapshot_facts as (Hids & _ & Hh & Hl & v & Hv & Hk & Hraw).
  destruct (snapshot_members_good v Hv) as [Hgood Hnd]. exists (w_text_of (snapshot_members v)).
  pose proof (snapshot_decoded v Hv) as Hdec. split_and!; [by apply snapshot_text| |done]. split.
  - eexists. by apply (reads_object_text 3).
  - apply kept_object, Forall_map. clear Hl Hgood Hnd Hdec. identifier_facts.
    kept_members.
  - apply snapshot_size.
  - change (validateMessagePayload MessageSnapshot) with
      (payload_check Snapshot_fields Snapshot.zero Snapshot_ValidateBound).
    unfold payload_check. by rewrite Hdec.
Qed.
End SnapshotFrames.

Lemma snapshot_frame_sent {W} `{!Writer W, !HonestWriter W, !ReliableWriter W} (w : W) s req :
  Snapshot_ValidateBound s = None -> is_u64 (Snapshot.ProcessGeneration s) -> is_u64 (Snapshot.Generation s) ->
  validRequestID req = true ->
  exists f w' bytes,
    NewFrame MessageSnapshot req (SnapshotValue s) = Ok f
    /\ WriteFrame (Some w) f = (Some w', None) /\ sent w' = sent w +:+ bytes
    /\ (forall rest, ReadFrame (Some (bytes +:+ rest)) = (Ok f, Some rest))
    /\ DecodePayload Snapshot_fields Snapshot.zero f = Ok s.
Proof.
  intros Hs Hp Hg Hreq. destruct (snapshot_payload_good s Hs Hp Hg) as (t & Htext & Ht & Hdec).
  destruct (frame_sent MessageSnapshot req t eq_refl Hreq Ht w) as (w' & bytes & H1 & H2 & H3).
  exists (Frame.mk MessageSnapshot ProtocolVersion req t), w', bytes. split_and!; try done.
  - apply NewFrame_good; try done; [by cbn; rewrite Htext|].
    destruct (snapshot_facts s Hs) as (_ & _ & _ & [_ Hl] & _). cbn. by apply Z.ltb_ge.
  - unfold DecodePayload. by rewrite frame_valid.
Qed.

(** *** Deltas *)
Section DeltaFrames.
Import Delta.
Context (d : Delta).
Hypotheses (Hs : Delta_ValidateBound d = None) (Hp : is_u64 (ProcessGeneration d))
  (Hb : is_u64 (PreviousGeneration d)) (Hg : is_u64 (Generation d)).

Definition delta_members (v : json) : list written :=
  [text_member "account_id" (AccountID d); text_member "tunnel_id" (TunnelID d);
   text_member "connector_id" (ConnectorID d); text_member "session_id" (SessionID d);
   number_member "process_generation" (ProcessGeneration d);
   number_member "previous_generation" (PreviousGeneration d); number_member "generation" (Generation d);
   text_member "previous_content_hash" (PreviousContentHash d); text_member "content_hash" (ContentHash d);
   mkWritten "payload" (Payload d) v].

Lemma delta_facts :
  Forall (fun i => ValidateIdentifier i = None) [AccountID d; TunnelID d; ConnectorID d; SessionID d]
  /\ ProcessGeneration d <> 0
  /\ (hashPattern (PreviousContentHash d) = true /\ hashPattern (ContentHash d) = true)
  /\ 0 < slen (Payload d) <= MaxDeltaBytes
  /\ exists v, reads 3 (Payload d) v /\ kept Outside (Payload d) Outside
       /\ Marshal_raw (Payload d) = Some (Payload d).
Proof using Hs.
  unfold Delta_ValidateBound, Delta_Validate in Hs.
  destruct (ids_ok _) eqn:Hids in Hs; [|done]. apply ids_ok_inv in Hids.
  rewrite !Forall_cons in Hids. destruct Hids as (? & ? & ? & _).
  repeat case_match; try done; bool_prop; subst.
  match goal with H : ok _ = true |- _ => apply ok_None in H end. split_and!; try done.
  - by repeat constructor.
  - match goal with H : slen _ <> 0 |- _ => pose proof (slen_nonneg (Payload d)); lia end.
  - by eapply payload_text.
Qed.

Lemma delta_text v :
  Marshal_raw (Payload d) = Some (Payload d) -> Delta_text d = Some (w_text_of (delta_members v)).
Proof using Hs.
  intros Hraw. destruct delta_facts as (Hids & Hpg & _). identifier_facts.
  unfold Delta_text. rewrite Hraw. cbn [mbind option_bind].
  repeat match goal with H : (_ == "") = false |- _ => rewrite H end.
  rewrite (proj2 (Z.eqb_neq _ _) Hpg). done.
Qed.

Lemma delta_members_good v :
  reads 3 (Payload d) v ->
  Forall (good_member 3) (delta_members v) /\ NoDup (w_key <$> delta_members v).
Proof using Hs Hp Hb Hg.
  intros Hv. destruct delta_facts as (Hids & _ & [] & _). identifier_facts. split.
  - good_members.
  - apply (bool_decide_unpack _). by vm_compute.
Qed.

Lemma delta_size v : slen (w_text_of (delta_members v)) <= maxPayloadBytes MessageDelta.
Proof using Hs Hp Hb Hg.
  destruct delta_facts as (Hids & _ & [] & [_ Hl] & _). identifier_facts.
  destruct (Itoa_u64 _ Hp) as (_ & _ & ?). destruct (Itoa_u64 _ Hb) as (_ & _ & ?).
  destruct (Itoa_u64 _ Hg) as (_ & _ & ?).
  unfold w_text_of. etrans; [apply slen_object|].
  unfold delta_members, text_member, number_member, w_member, total. cbn [map foldr w_key w_text].
  rewrite !slen_member. quoted_keys.
  change (maxPayloadBytes MessageDelta) with (MaxDeltaBytes + 16384). lia.
Qed.

Lemma delta_decoded v :
  reads 3 (Payload d) v ->
  decodeStrict Delta_fields Delta.zero (w_text_of (delta_members v)) = Ok d.
Proof using Hs Hp Hb Hg.
  intros Hv. destruct (delta_members_good v Hv) as [Hgood Hnd].
  pose proof (delta_size v). pose proof (maxPayload_fits MessageDelta).
  rewrite (decodeStrict_written 3) by (done || lia).
  destruct delta_facts as (Hids & _ & [] & _). identifier_facts.
  unfold delta_members, text_member, number_member. do 10 set_next. by destruct d.
Qed.

Lemma delta_payload_good :
  exists t, Delta_text d = Some t /\ good_payload MessageDelta t
    /\ decodeStrict Delta_fields Delta.zero t = Ok d.
Proof using Hs Hp Hb Hg.
  destruct delta_facts as (Hids & _ & [] & Hl & v & Hv & Hk & Hraw).
  destruct (delta_members_good v Hv) as [Hgood Hnd]. exists (w_text_of (delta_members v)).
  pose proof (delta_decoded v Hv) as Hdec. split_and!; [by apply delta_text| |done]. split.
  - eexists. by apply (reads_object_text 3).
  - apply kept_object, Forall_map. clear Hl Hgood Hnd Hdec. identifier_facts.
    kept_members.
  - apply delta_size.
  - change (validateMessagePayload MessageDelta) with
      (payload_check Delta_fields Delta.zero Delta_ValidateBound).
    unfold payload_check. by rewrite Hdec.
Qed.
End DeltaFrames.

Lemma delta_frame_sent {W} `{!Writer W, !HonestWriter W, !ReliableWriter W} (w : W) d req :
  Delta_ValidateBound d = None -> is_u64 (Delta.ProcessGeneration d) ->
  is_u64 (Delta.PreviousGeneration d) -> is_u64 (Delta.Generation d) ->
  validRequestID req = true ->
  exists f w' bytes,
    NewFrame MessageDelta req (DeltaValue d) = Ok f
    /\ WriteFrame (Some w) f = (Some w', None) /\ sent w' = sent w +:+ bytes
    /\ (forall rest, ReadFrame (Some (bytes +:+ rest)) = (Ok f, Some rest))
    /\ DecodePayload Delta_fields Delta.zero f = Ok d.
Proof.
  intros Hs Hp Hb Hg Hreq. destruct (delta_payload_good d Hs Hp Hb Hg) as (t & Htext & Ht & Hdec).
  destruct (frame_sent MessageDelta req t eq_refl Hreq Ht w) as (w' & bytes & H1 & H2 & H3).
  exists (Frame.mk MessageDelta ProtocolVersion req t), w', bytes. split_and!; try done.
  - apply NewFrame_good; try done; [by cbn; rewrite Htext|].
    destruct (delta_facts d Hs) as (_ & _ & _ & [_ Hl] & _). cbn. by apply Z.ltb_ge.
  - unfold DecodePayload. by rewrite frame_valid.
Qed.

(** C38. A snapshot or a delta that is bound to a session reaches the other side unchanged:
    NewFrame accepts it for every valid request id, WriteFrame delivers it through any writer
    that keeps taking bytes, ReadFrame returns the same frame from a stream that starts with
    those bytes and leaves the stream at what follows, and DecodePayload returns the same
    message; no size or nesting limit on the way is ever exceeded. *)
Theorem config_frame_roundtrip {W} `{!Writer W, !HonestWriter W, !ReliableWriter W} (w : W) req :
  validRequestID req = true ->
  (forall s, Snapshot_ValidateBound s = None ->
     is_u64 (Snapshot.ProcessGeneration s) -> is_u64 (Snapshot.Generation s) ->
     exists f w' bytes,
       NewFrame MessageSnapshot req (SnapshotValue s) = Ok f
       /\ WriteFrame (Some w) f = (Some w', None) /\ sent w' = sent w +:+ bytes
       /\ (forall rest, ReadFrame (Some (bytes +:+ rest)) = (Ok f, Some rest))
       /\ DecodePayload Snapshot_fields Snapshot.zero f = Ok s)
  /\ (forall d, Delta_ValidateBound d = None -> is_u64 (Delta.ProcessGeneration d) ->
     is_u64 (Delta.PreviousGeneration d) -> is_u64 (Delta.Generation d) ->
     exists f w' bytes,
       NewFrame MessageDelta req (DeltaValue d) = Ok f
       /\ WriteFrame (Some w) f = (Some w', None) /\ sent w' = sent w +:+ bytes
       /\ (forall rest, ReadFrame (Some (bytes +:+ rest)) = (Ok f, Some rest))
       /\ DecodePayload Delta_fields Delta.zero f = Ok d).
Proof.
  intros Hreq. split; intros; [by apply snapshot_frame_sent|by apply delta_frame_sent].
Qed.

(** ** Interrupted writes *)

Lemma ReadFull_short n s : (String.length s < n)%nat -> exists err, ReadFull n s = (Err err, "").
Proof. intros H. unfold ReadFull. rewrite (proj2 (Nat.leb_gt _ _)) by lia. eauto. Qed.

Lemma prefix_read body p q :
  slen body <= MaxFrameBytes -> PutUint32 (to_u32 (slen body)) +:+ body = p +:+ q -> q <> "" ->
  is_ok (fst (ReadFrame (Some p))) = false.
Proof.
  intros Hl E Hq. set (pre := PutUint32 (to_u32 (slen body))) in *. unfold ReadFrame.
  pose proof (f_equal String.length E) as El. rewrite !length_sapp in El. change (String.length pre) with 4%nat in El.
  assert (0 < String.length q)%nat by (destruct q; [done|simpl; lia]).
  destruct (decide (String.length p < 4)%nat) as [Hs|Hs].
  { by destruct (ReadFull_short 4 p Hs) as [err ->]. }
  assert (exists r, p = pre +:+ r) as [r ->].
  { exists (sdrop 4 p). rewrite <- (stake_sdrop 4 p) at 1. f_equal.
    pose proof (f_equal (stake 4) E) as E4. change (stake 4 (pre +:+ body)) with pre in E4. rewrite E4.
    do 4 (destruct p as [|? p]; [simpl in Hs; lia|]). done. }
  rewrite length_sapp in El. change (String.length pre) with 4%nat in El.
  pose proof (ReadFull_app pre r) as R. change (String.length pre) with 4%nat in R. rewrite R.
  assert (0 <= slen body < two32) as Hr.
  { pose proof (slen_nonneg body). unfold two32. change MaxFrameBytes with 4259840 in Hl. lia. }
  unfold pre, to_u32. rewrite Z.mod_small, Uint32_PutUint32 by done.
  destruct (slen body =? 0); [done|]. destruct (MaxFrameBytes <? slen body); [done|].
  unfold slen. rewrite Nat2Z.id. destruct (ReadFull_short (String.length body) r) as [err ->]; [lia|done].
Qed.

(** Whatever a writer does, as long as it reports truthfully how many bytes it took, what
    WriteFrame delivered is read as a frame only if it is the complete length prefix and text of
    that frame; a write that ended early is never read as another frame, and WriteFrame returns
    nil only after delivering all of it. *)
Theorem interrupted_frame_is_refused {W} `{!Writer W, !HonestWriter W} (w w' : W) f err :
  WriteFrame (Some w) f = (Some w', err) ->
  exists delivered, sent w' = sent w +:+ delivered
    /\ (err = None \/ is_ok (fst (ReadFrame (Some delivered))) = true ->
        exists body, Frame_text f = Some body /\ delivered = PutUint32 (slen body) +:+ body).
Proof.
  assert (sent w = sent w +:+ "") as Hnil by (by rewrite sapp_nil_r).
  unfold WriteFrame. destruct (Frame_Validate f); [intros; simplify_eq; exists ""; split; [done|intros []; done]|].
  destruct (Frame_text f) as [body|] eqn:Hb; [|intros; simplify_eq; exists ""; split; [done|intros []; done]].
  destruct (MaxFrameBytes <? slen body) eqn:Hl;
    [intros; simplify_eq; exists ""; split; [done|intros []; done]|]. bool_prop.
  assert (to_u32 (slen body) = slen body) as Hto.
  { apply Z.mod_small. pose proof (slen_nonneg body). unfold two32. change MaxFrameBytes with 4259840 in Hl. lia. }
  destruct (writeAll w _) as [w1 e1] eqn:H1. apply writeAll_sent in H1 as (t1 & r1 & E1 & S1 & R1).
  assert (forall p q, PutUint32 (to_u32 (slen body)) +:+ body = p +:+ q ->
    q = "" \/ is_ok (fst (ReadFrame (Some p))) = false) as Hpre.
  { intros p q E. destruct (decide (q = "")) as [->|Hq]; [by left|right]. by eapply prefix_read. }
  destruct e1 as [e1|].
  - intros; simplify_eq. exists t1. split; [done|]. intros [?|Hok]; [done|].
    destruct (Hpre t1 (r1 +:+ body)) as [E|E]; [by rewrite E1, sapp_assoc| |congruence].
    exists body. split; [done|]. rewrite <- Hto, E1. by rewrite sapp_assoc, E, sapp_nil_r.
  - destruct (writeAll w1 body) as [w2 e2] eqn:H2. apply writeAll_sent in H2 as (t2 & r2 & E2 & S2 & R2).
    intros [= <- <-]. rewrite R1, sapp_nil_r in E1 by done. subst t1.
    exists (PutUint32 (to_u32 (slen body)) +:+ t2). split; [by rewrite S2, S1, sapp_assoc|].
    intros Hok. exists body. split; [done|]. rewrite Hto. f_equal.
    destruct (Hpre (PutUint32 (to_u32 (slen body)) +:+ t2) r2) as [-> |E]; [by rewrite sapp_assoc, <- E2| |].
    + by rewrite E2, sapp_nil_r.
    + destruct Hok as [->|Hok]; [|congruence]. by rewrite E2, R2, sapp_nil_r.
Qed.
