(* ===== verification/TranscriptFacts.v ===== *)
(** * A signed transcript determines what was signed

    Two requests of any kind whose transcripts are equal are the same request
    up to the signatures themselves, so a signature can be used neither for
    another request nor for another kind of proof. *)
From S2P Require Import Prelude GoText GoHash GoUrl GoJson Errors Canonical TextFacts JsonFacts.
From S2P Require Import Identifiers WireConfig GoTime GoStruct Messages RotationMessages Transcripts.
From S2P Require Import StructFacts Frames MessageFacts FrameFacts.

(** ** Texts of the members *)

Lemma quote_inj a b : valid_utf8 a -> valid_utf8 b -> quote a = quote b -> a = b.
Proof.
  intros Ha Hb E. apply (raw_string_quote "") in Ha, Hb. rewrite E in Ha. congruence.
Qed.
Lemma Itoa_u64_inj a b : is_u64 a -> is_u64 b -> Itoa a = Itoa b -> a = b.
Proof. intros Ha Hb E. apply (raw_u64_Itoa 0) in Ha, Hb. rewrite E in Ha. congruence. Qed.

Lemma digit_char_safe n : 0 <= n <= 9 -> html_safe (digit_char n) = true.
Proof.
  intros H. destruct (digit_char_code n H) as [Hd _]. revert Hd. generalize (digit_char n). byte_cases.
Qed.
Lemma pad2_safe n : 0 <= n < 100 -> all_bytes html_safe (pad2 n) = true.
Proof. intros H. unfold pad2. cbn [all_bytes]. rewrite !digit_char_safe by divmod. done. Qed.
Lemma fraction_safe nsec : 0 <= nsec < Second -> all_bytes html_safe (fraction_text nsec) = true.
Proof.
  intros H. unfold fraction_text. case_match; [done|]. change Second with (10 ^ 9) in H.
  rewrite all_bytes_app. apply andb_true_iff. split; [done|].
  destruct (fraction_digits_spec 9 nsec 0 H) as [Hd _]. eapply all_bytes_mono; [|exact Hd]. byte_cases.
Qed.
Lemma clock_safe t zone : time_year_ok t = true -> all_bytes html_safe zone = true ->
  all_bytes html_safe (clock_text t zone) = true.
Proof.
  intros Hy Hz. unfold time_year_ok, year_of in Hy. unfold clock_text.
  pose proof (civil_spec (t / Second / 86400)) as Hc. destruct (civil _) as [[y m] d]. cbn [fst] in Hy. bool_prop.
  destruct Hc as (_ & Hm & Hd).
  assert (0 <= t / Second mod 86400 < 86400) as Hs by (by apply Z.mod_pos_bound).
  assert (0 <= t mod Second < Second) as Hn by (by apply Z.mod_pos_bound).
  assert (days_in m y <= 31) by (unfold days_in; repeat case_match; lia).
  assert (forall z, 0 <= z < 86400 -> 0 <= z / 3600 < 100 /\ 0 <= z mod 3600 / 60 < 100 /\ 0 <= z mod 60 < 100)
    as Hb by (intros; divmod). destruct (Hb _ Hs) as (B1 & B2 & B3).
  unfold pad4. rewrite !all_bytes_app, fraction_safe, !pad2_safe, Hz by (done || lia || divmod). done.
Qed.
Lemma rfc3339_safe t : time_year_ok t = true -> all_bytes html_safe (rfc3339_text t) = true.
Proof. intros Hy. by apply clock_safe. Qed.
Lemma zoned_safe t offset : zone_ok t offset = true -> all_bytes html_safe (zoned_text t offset) = true.
Proof.
  intros [Hy Hh%Z.ltb_lt]%andb_true_iff. apply clock_safe; [done|]. unfold zone_text. case_match; [done|].
  rewrite !all_bytes_app, !pad2_safe by divmod. by destruct (_ <? 0).
Qed.

(** A time member that could be written. *)
Definition stamp_member (k : string) (t : time) : written := text_member k (rfc3339_text t).
Lemma time_member_Some k t m :
  time_member k t = Some m -> m = w_member (stamp_member k t) /\ time_year_ok t = true.
Proof.
  unfold time_member, Time_MarshalJSON. destruct (time_year_ok t); [|done]. cbn. intros; simplify_eq. done.
Qed.
Definition zoned_stamp (k : string) (t : time) (offset : Z) : written := text_member k (zoned_text t offset).
Lemma zoned_member_Some k t offset m :
  zoned_member k t offset = Some m -> m = w_member (zoned_stamp k t offset) /\ zone_ok t offset = true.
Proof.
  unfold zoned_member, Time_MarshalJSON_in. destruct (zone_ok t offset); [|done]. cbn. intros; simplify_eq. done.
Qed.
Lemma rfc3339_inj a b :
  time_year_ok a = true -> time_year_ok b = true -> quote (rfc3339_text a) = quote (rfc3339_text b) -> a = b.
Proof.
  intros Ha Hb E. apply quote_inj in E; [|by apply safe_valid, rfc3339_safe..].
  apply time_text_roundtrip in Ha, Hb. rewrite E in Ha. congruence.
Qed.

Lemma w_text_inj ms1 ms2 :
  Forall (good_member 0) ms1 -> Forall (good_member 0) ms2 -> w_text_of ms1 = w_text_of ms2 ->
  map w_raw ms1 = map w_raw ms2.
Proof.
  intros H1 H2 E. pose proof (raw_members_written 0 ms1 H1) as R1. pose proof (raw_members_written 0 ms2 H2) as R2.
  rewrite E in R1. rewrite R2 in R1 by done. by injection R1.
Qed.

Lemma good_utf8 k s : valid_utf8 k -> valid_utf8 s -> good_member 0 (text_member k s).
Proof. intros. split; [done|]. by apply reads_quote. Qed.
Lemma good_u64 k n : valid_utf8 k -> is_u64 n -> good_member 0 (number_member k n).
Proof. intros. by apply good_number. Qed.

(** ** The three kinds of signed requests *)

Inductive SignedRequest :=
| SignedAuth (r : AuthRequest)
| SignedRenewal (r : RenewalRequest)
| SignedRotation (p : CredentialRotationProof).

Definition signed_payload (x : SignedRequest) : Res string :=
  match x with
  | SignedAuth r => AuthProofPayload r
  | SignedRenewal r => RenewalProofPayload r
  | SignedRotation p => CredentialRotationProofPayload p
  end.

(** What the signatures are about. *)
Definition unsigned (x : SignedRequest) : SignedRequest :=
  match x with
  | SignedAuth r => SignedAuth (r <| AuthRequest.SignedProof := "" |>)
  | SignedRenewal r => SignedRenewal (r <| RenewalRequest.SignedProof := "" |>)
  | SignedRotation p =>
      SignedRotation (p <| CredentialRotationProof.OldSignedProof := "" |>
                        <| CredentialRotationProof.NewSignedProof := "" |>)
  end.

(** The Go types of the fields, and valid UTF-8 in the two fields that the
    validators do not restrict to ASCII: what a decoded frame always has. *)
Definition wire_ok (x : SignedRequest) : Prop :=
  match x with
  | SignedAuth r => is_u64 (AuthRequest.ProcessGeneration r) /\ is_u64 (AuthRequest.CredentialGeneration r)
                    /\ valid_utf8 (AuthRequest.Nonce r)
  | SignedRenewal r => is_u64 (RenewalRequest.ProcessGeneration r)
                       /\ is_u64 (RenewalRequest.CredentialGeneration r) /\ valid_utf8 (RenewalRequest.Nonce r)
  | SignedRotation p => is_u64 (CredentialRotationProof.ProcessGeneration p)
                        /\ is_u64 (CredentialRotationProof.OldCredentialGeneration p)
                        /\ is_u64 (CredentialRotationProof.NewCredentialGeneration p)
                        /\ valid_utf8 (CredentialRotationProof.ChallengeNonce p)
                        /\ valid_utf8 (CredentialRotationProof.NewCredentialReference p)
  end.

(** ** Authentication and renewal transcripts *)

Definition session_member (s : string) : list written :=
  if s == "" then [] else [text_member "session_id" s].
Definition transcript_members (t : authProofTranscript) : list written :=
  [text_member "domain" (Domain t); text_member "protocol" ProtocolName; text_member "version" ProtocolVersion;
   text_member "account_id" (t_AccountID t); text_member "tunnel_id" (t_TunnelID t);
   text_member "connector_id" (t_ConnectorID t); text_member "host_id" (t_HostID t);
   text_member "identity_key_id" (t_IdentityKeyID t);
   text_member "identity_key_thumbprint" (t_IdentityKeyThumbprint t);
   number_member "process_generation" (t_ProcessGeneration t);
   number_member "credential_generation" (t_CredentialGeneration t)]
  ++ session_member (t_SessionID t)
  ++ [text_member "nonce" (t_Nonce t); stamp_member "issued_at" (t_IssuedAt t);
      stamp_member "expires_at" (t_ExpiresAt t); stamp_member "requested_at" (t_RequestedAt t)].

Record transcript_ok (t : authProofTranscript) : Prop := {
  tk_texts : Forall valid_utf8 [Domain t; t_AccountID t; t_TunnelID t; t_ConnectorID t; t_HostID t;
    t_IdentityKeyID t; t_IdentityKeyThumbprint t; t_SessionID t; t_Nonce t];
  tk_numbers : Forall is_u64 [t_ProcessGeneration t; t_CredentialGeneration t];
  tk_times : Forall (fun x => time_year_ok x = true) [t_IssuedAt t; t_ExpiresAt t; t_RequestedAt t];
}.

Lemma transcript_written t text :
  transcript_text t = Some text ->
  text = w_text_of (transcript_members t)
  /\ Forall (fun x => time_year_ok x = true) [t_IssuedAt t; t_ExpiresAt t; t_RequestedAt t].
Proof.
  unfold transcript_text. intros H.
  apply bind_Some in H as (m1 & [-> Y1]%time_member_Some & H).
  apply bind_Some in H as (m2 & [-> Y2]%time_member_Some & H).
  apply bind_Some in H as (m3 & [-> Y3]%time_member_Some & H). injection H as <-.
  split; [|by repeat constructor]. unfold transcript_members, session_member, omitempty, w_text_of.
  by case_match.
Qed.

Ltac good_texts :=
  repeat (apply Forall_cons; split);
  [first [ by apply good_utf8; [apply literal_key|] | by apply good_u64; [apply literal_key|]
         | by apply good_utf8; [apply literal_key|apply safe_valid, rfc3339_safe]
         | by apply good_utf8; [apply literal_key|apply safe_valid, zoned_safe]
         | by apply good_utf8; [apply literal_key|apply safe_valid; vm_compute] ]..|try by apply Forall_nil].
Ltac split_lists :=
  repeat match goal with H : Forall _ (_ :: _) |- _ => let X := fresh "X" in apply Forall_cons in H; destruct H as [X H] end.

Lemma transcript_good t : transcript_ok t -> Forall (good_member 0) (transcript_members t).
Proof.
  intros []. split_lists. unfold transcript_members, session_member.
  apply Forall_app; split; [good_texts|]. apply Forall_app; split; [|good_texts].
  case_match; [by apply Forall_nil|good_texts].
Qed.

Lemma raw_cons_inj (k k' a b : string) l l' : (k, a) :: l = (k', b) :: l' -> a = b /\ l = l'.
Proof. by intros [= _ -> ->]. Qed.
(** Equal member texts hold equal values. *)
Ltac member_eqs :=
  repeat match goal with
  | H : (_, _) :: _ = (_, _) :: _ |- _ =>
      let X := fresh "X" in apply raw_cons_inj in H; destruct H as [X H]
  end;
  repeat match goal with
  | H : quote (rfc3339_text _) = _ |- _ => apply rfc3339_inj in H; [|done..]
  | H : quote _ = quote _ |- _ => apply quote_inj in H; [|done..]
  | H : Itoa _ = Itoa _ |- _ => apply Itoa_u64_inj in H; [|done..]
  end.

Lemma transcript_inj t1 t2 :
  transcript_ok t1 -> transcript_ok t2 ->
  w_text_of (transcript_members t1) = w_text_of (transcript_members t2) -> t1 = t2.
Proof.
  intros H1 H2 E. apply w_text_inj in E; [|by apply transcript_good..]. destruct H1, H2. split_lists.
  unfold transcript_members, session_member, stamp_member, text_member, number_member, w_raw in E.
  destruct (bool_decide (t_SessionID t1 = "")) eqn:S1; destruct (bool_decide (t_SessionID t2 = "")) eqn:S2;
    bool_prop; cbn [app map w_key w_text] in E; try discriminate E.
  all: member_eqs; destruct t1, t2; cbn in *; by subst.
Qed.

(** ** What the validators say about the texts *)

Lemma ids_utf8 l : ids_ok l = true -> Forall valid_utf8 l.
Proof.
  intros H%ids_ok_inv. eapply Forall_impl; [exact H|]. intros s Hs. by apply safe_valid, ValidateIdentifier_inv.
Qed.
Lemma thumbprint_utf8 s : identityThumbprintPattern s = true -> all_bytes html_safe s = true.
Proof.
  unfold identityThumbprintPattern. intros H. bool_prop. eapply all_bytes_mono; [|done]. byte_cases.
Qed.
Lemma identity_key_utf8 i t : ValidateIdentityKey i t = None -> valid_utf8 i /\ valid_utf8 t.
Proof.
  unfold ValidateIdentityKey, identityKeyIDPattern. destruct (strip_prefix "ed25519:" i) as [r|] eqn:E; [|done].
  apply strip_prefix_Some in E as ->. intros H. case_match; [done|]. bool_prop.
  split; apply safe_valid; [|by apply thumbprint_utf8].
  rewrite all_bytes_app, (thumbprint_utf8 r) by done. done.
Qed.

Lemma b64_val_safe c x : b64_val c = Some x -> html_safe c = true.
Proof. revert x. revert c. intros c x H. assert (b64_val c <> None) as Hn by congruence. revert Hn. clear. revert c. byte_cases. Qed.
Lemma b64_decode_safe s l : b64_decode s = Some l -> all_bytes html_safe s = true.
Proof.
  revert s l. fix IH 1. intros s l H. destruct s as [|a [|b [|c [|d s]]]]; [done|done|..]; cbn [b64_decode] in H.
  all: repeat match type of H with (b64_val ?c ≫= _) = Some _ =>
    let x := fresh "x" in let E := fresh "E" in apply bind_Some in H as (x & E%b64_val_safe & H) end.
  1,2: by cbn; rewrite ?E, ?E0, ?E1.
  apply bind_Some in H as (l' & Hl & _). apply IH in Hl. cbn [all_bytes]. by rewrite E, E0, E1, E2, Hl.
Qed.
Lemma public_key_utf8 s k : decodeRotationPublicKey s = Ok k -> valid_utf8 s.
Proof.
  unfold decodeRotationPublicKey. destruct (b64_decode s) as [l|] eqn:E; [|done]. intros _.
  by eapply safe_valid, b64_decode_safe.
Qed.

Lemma AuthProofPayload_ok r p :
  wire_ok (SignedAuth r) -> AuthProofPayload r = Ok p ->
  exists t, transcript_ok t /\ p = w_text_of (transcript_members t)
    /\ t = mkTranscript "paperboat.connector.auth.v1" (AuthRequest.AccountID r) (AuthRequest.TunnelID r)
           (AuthRequest.ConnectorID r) (AuthRequest.HostID r) (AuthRequest.IdentityKeyID r)
           (AuthRequest.IdentityKeyThumbprint r) (AuthRequest.ProcessGeneration r)
           (AuthRequest.CredentialGeneration r) "" (AuthRequest.Nonce r) (AuthRequest.IssuedAt r)
           (AuthRequest.ExpiresAt r) 0.
Proof.
  intros (Hp & Hc & Hn) H. unfold AuthProofPayload in H. destruct (AuthRequest_validate _ _ _) eqn:Hv; [done|].
  unfold marshalled in H. case_match eqn:Ht; [|done]. injection H as ->. apply transcript_written in Ht as [-> Ht].
  eexists. split; [|by split]. unfold AuthRequest_validate in Hv. case_match eqn:H1; [done|].
  apply orb_false_iff in H1 as [H1%negb_false_iff%ids_utf8 H2%negb_false_iff%ok_None%identity_key_utf8].
  split_lists. destruct H2. split; repeat (apply Forall_cons; split); try done; by apply literal_key.
Qed.

Lemma RenewalProofPayload_ok r p :
  wire_ok (SignedRenewal r) -> RenewalProofPayload r = Ok p ->
  exists t, transcript_ok t /\ p = w_text_of (transcript_members t)
    /\ t = mkTranscript "paperboat.connector.auth.renew.v1" (RenewalRequest.AccountID r)
           (RenewalRequest.TunnelID r) (RenewalRequest.ConnectorID r) (RenewalRequest.HostID r)
           (RenewalRequest.IdentityKeyID r) (RenewalRequest.IdentityKeyThumbprint r)
           (RenewalRequest.ProcessGeneration r) (RenewalRequest.CredentialGeneration r)
           (RenewalRequest.SessionID r) (RenewalRequest.Nonce r) 0 0 (RenewalRequest.RequestedAt r).
Proof.
  intros (Hp & Hc & Hn) H. unfold RenewalProofPayload in H. destruct (RenewalRequest_validate _ _) eqn:Hv; [done|].
  unfold marshalled in H. case_match eqn:Ht; [|done]. injection H as ->. apply transcript_written in Ht as [-> Ht].
  eexists. split; [|by split]. unfold RenewalRequest_validate in Hv. case_match eqn:H1; [done|].
  rewrite !orb_false_iff in H1.
  destruct H1 as ((((((H1%negb_false_iff%ids_utf8 & H2%negb_false_iff%ok_None%identity_key_utf8) & _) & _) & _) & _) & _).
  split_lists. destruct H2. split; repeat (apply Forall_cons; split); try done; by apply literal_key.
Qed.

(** ** Rotation transcripts *)
Section RotationTranscript.
Import CredentialRotationProof.
Definition rotation_members (p : CredentialRotationProof) : list written :=
  [text_member "domain" rotation_domain; text_member "protocol" ProtocolName;
   text_member "version" ProtocolVersion; text_member "account_id" (AccountID p);
   text_member "tunnel_id" (TunnelID p); text_member "operation_id" (OperationID p);
   text_member "connector_id" (ConnectorID p); text_member "host_id" (HostID p);
   text_member "session_id" (SessionID p); number_member "process_generation" (ProcessGeneration p);
   text_member "target_set_hash" (TargetSetHash p);
   number_member "old_credential_generation" (OldCredentialGeneration p);
   number_member "new_credential_generation" (NewCredentialGeneration p);
   text_member "old_identity_key_id" (OldIdentityKeyID p);
   text_member "old_identity_key_thumbprint" (OldIdentityKeyThumbprint p);
   text_member "new_identity_key_id" (NewIdentityKeyID p);
   text_member "new_identity_key_thumbprint" (NewIdentityKeyThumbprint p);
   text_member "new_public_key" (NewPublicKey p);
   text_member "new_credential_reference" (NewCredentialReference p);
   text_member "challenge_nonce" (ChallengeNonce p); stamp_member "issued_at" (IssuedAt p);
   stamp_member "new_credential_valid_until" (NewCredentialValidUntil p)].

Record rotation_ok (p : CredentialRotationProof) : Prop := {
  rk_texts : Forall valid_utf8 [AccountID p; TunnelID p; OperationID p; ConnectorID p; HostID p; SessionID p;
    TargetSetHash p; OldIdentityKeyID p; OldIdentityKeyThumbprint p; NewIdentityKeyID p;
    NewIdentityKeyThumbprint p; NewPublicKey p; NewCredentialReference p; ChallengeNonce p];
  rk_numbers : Forall is_u64 [ProcessGeneration p; OldCredentialGeneration p; NewCredentialGeneration p];
  rk_times : Forall (fun x => time_year_ok x = true) [IssuedAt p; NewCredentialValidUntil p];
}.

Lemma rotation_good p : rotation_ok p -> Forall (good_member 0) (rotation_members p).
Proof. intros []. split_lists. unfold rotation_members. good_texts. Qed.

Lemma rotation_payload_ok p text :
  wire_ok (SignedRotation p) -> CredentialRotationProofPayload p = Ok text ->
  rotation_ok p /\ text = w_text_of (rotation_members p).
Proof.
  intros (Hp & Ho & Hn & Hc & Hr) H. unfold CredentialRotationProofPayload in H.
  destruct (CredentialRotationProof_validate p) eqn:Hv; [done|]. unfold marshalled, rotationProofTranscript in H.
  case_match eqn:Ht; [|done]. injection H as ->.
  apply bind_Some in Ht as (m1 & [-> Y1]%time_member_Some & Ht).
  apply bind_Some in Ht as (m2 & [-> Y2]%time_member_Some & Ht). injection Ht as <-. split; [|done].
  unfold CredentialRotationProof_validate in Hv. case_match eqn:H1; [done|]. rewrite !orb_false_iff in H1.
  destruct H1 as ((((((((((((H1%negb_false_iff%ids_utf8 & _) & H2%negb_false_iff%hash_safe) & _)
    & H3%negb_false_iff%ok_None%identity_key_utf8) & H4%negb_false_iff%ok_None%identity_key_utf8) & _) & _) & _) & _)
    & _) & _) & _).
  destruct (decodeRotationPublicKey _) eqn:Hk; [|done]. apply public_key_utf8 in Hk.
  split_lists. destruct H2 as [H2%safe_valid _], H3, H4. split; repeat (apply Forall_cons; split); done.
Qed.

Lemma rotation_inj p1 p2 :
  rotation_ok p1 -> rotation_ok p2 -> w_text_of (rotation_members p1) = w_text_of (rotation_members p2) ->
  unsigned (SignedRotation p1) = unsigned (SignedRotation p2).
Proof.
  intros H1 H2 E. apply w_text_inj in E; [|by apply rotation_good..]. destruct H1, H2. split_lists.
  unfold rotation_members, stamp_member, text_member, number_member, w_raw in E. cbn [map w_key w_text] in E.
  member_eqs. destruct p1, p2. cbn in *. by subst.
Qed.
End RotationTranscript.

(** Transcripts of different kinds differ in their first member. *)
Lemma rotation_differs p t d :
  rotation_ok p -> transcript_ok t -> Domain t = d -> quote rotation_domain <> quote d ->
  w_text_of (rotation_members p) <> w_text_of (transcript_members t).
Proof.
  intros Hp Ht Hd Hne E. apply w_text_inj in E; [|by apply rotation_good|by apply transcript_good].
  unfold rotation_members, transcript_members, text_member, w_raw in E. cbn [map app w_key w_text] in E.
  apply raw_cons_inj in E as [E _]. by rewrite Hd in E.
Qed.

(** What a transcript is: of an authentication or renewal, or of a rotation. *)
Lemma signed_payload_text x payload :
  wire_ok x -> signed_payload x = Ok payload ->
  match x with
  | SignedRotation p => rotation_ok p /\ payload = w_text_of (rotation_members p)
  | _ => exists t, transcript_ok t /\ payload = w_text_of (transcript_members t)
           /\ quote rotation_domain <> quote (Domain t)
  end.
Proof.
  destruct x as [r|r|p]; intros Hx H.
  - apply AuthProofPayload_ok in H as (t & Ht & -> & E); [|done]. exists t. split_and!; [done..|]. by rewrite E.
  - apply RenewalProofPayload_ok in H as (t & Ht & -> & E); [|done]. exists t. split_and!; [done..|]. by rewrite E.
  - by apply rotation_payload_ok.
Qed.

Lemma auth_payload_inj r1 r2 payload :
  wire_ok (SignedAuth r1) -> wire_ok (SignedAuth r2) ->
  AuthProofPayload r1 = Ok payload -> AuthProofPayload r2 = Ok payload ->
  unsigned (SignedAuth r1) = unsigned (SignedAuth r2).
Proof.
  intros W1 W2 H1 H2. apply AuthProofPayload_ok in H1 as (t1 & K1 & E1 & F1); [|done].
  apply AuthProofPayload_ok in H2 as (t2 & K2 & E2 & F2); [|done]. rewrite E1 in E2.
  apply transcript_inj in E2; [|done..]. rewrite F1, F2 in E2. clear -E2. destruct r1, r2. cbn in *.
  injection E2. intros. by subst.
Qed.
Lemma renewal_payload_inj r1 r2 payload :
  wire_ok (SignedRenewal r1) -> wire_ok (SignedRenewal r2) ->
  RenewalProofPayload r1 = Ok payload -> RenewalProofPayload r2 = Ok payload ->
  unsigned (SignedRenewal r1) = unsigned (SignedRenewal r2).
Proof.
  intros W1 W2 H1 H2. apply RenewalProofPayload_ok in H1 as (t1 & K1 & E1 & F1); [|done].
  apply RenewalProofPayload_ok in H2 as (t2 & K2 & E2 & F2); [|done]. rewrite E1 in E2.
  apply transcript_inj in E2; [|done..]. rewrite F1, F2 in E2. clear -E2. destruct r1, r2. cbn in *.
  injection E2. intros. by subst.
Qed.
Lemma auth_renewal_differ r1 r2 payload :
  wire_ok (SignedAuth r1) -> wire_ok (SignedRenewal r2) ->
  AuthProofPayload r1 = Ok payload -> RenewalProofPayload r2 <> Ok payload.
Proof.
  intros W1 W2 H1 H2. apply AuthProofPayload_ok in H1 as (t1 & K1 & E1 & F1); [|done].
  apply RenewalProofPayload_ok in H2 as (t2 & K2 & E2 & F2); [|done]. rewrite E1 in E2.
  apply transcript_inj in E2; [|done..]. rewrite F1, F2 in E2. discriminate (f_equal Domain E2).
Qed.
Lemma rotation_alone x p payload :
  wire_ok x -> wire_ok (SignedRotation p) -> match x with SignedRotation _ => False | _ => True end ->
  signed_payload x = Ok payload -> CredentialRotationProofPayload p <> Ok payload.
Proof.
  intros Wx Wp Hk Hx Hp. apply rotation_payload_ok in Hp as [Kp ->]; [|done].
  apply signed_payload_text in Hx; [|done].
  destruct x; [..|done]; destruct Hx as (t & Kt & E & Hd); revert E; by eapply rotation_differs.
Qed.

(** C39. A signed text stands for one request: when two authentication, renewal or rotation
    requests have the same transcript they are the same kind of request and agree in every field
    but the signatures, so a signature for one cannot be used for another, provided generations
    are 64-bit values and the free-text fields are UTF-8. *)
Theorem transcript_determines_request x y payload :
  wire_ok x -> wire_ok y -> signed_payload x = Ok payload -> signed_payload y = Ok payload ->
  unsigned x = unsigned y.
Proof.
  intros Hx Hy H1 H2. destruct x as [r1|r1|p1], y as [r2|r2|p2].
  - by eapply auth_payload_inj.
  - by destruct (auth_renewal_differ r1 r2 payload).
  - by destruct (rotation_alone (SignedAuth r1) p2 payload).
  - by destruct (auth_renewal_differ r2 r1 payload).
  - by eapply renewal_payload_inj.
  - by destruct (rotation_alone (SignedRenewal r1) p2 payload).
  - by destruct (rotation_alone (SignedAuth r2) p1 payload).
  - by destruct (rotation_alone (SignedRenewal r2) p1 payload).
  - apply rotation_payload_ok in H1 as [K1 ->]; [|done]. apply rotation_payload_ok in H2 as [K2 E]; [|done].
    by apply rotation_inj.
Qed.
