(* ===== verification/RotationFacts.v ===== *)
(** * Rotation plans

    The plan of a credential rotation depends on the set of its targets only:
    the constructor sorts them, refuses duplicates, and binds them by a hash
    that the plan's own validation recomputes. *)
From S2P Require Import Prelude GoText GoHash GoUrl GoJson Errors Canonical TextFacts JsonFacts.
From S2P Require Import Identifiers WireConfig Messages MessageFacts RotationMessages.
From stdpp Require Import sorting.
Import RotationPlan.

(** Weakly ordered by connector. *)
Definition target_le (x y : RotationTarget) : Prop :=
  str_lt (RotationTarget.ConnectorID y) (RotationTarget.ConnectorID x) = false.
(** Strictly ordered by connector. *)
Definition target_lt (x y : RotationTarget) : Prop :=
  str_lt (RotationTarget.ConnectorID x) (RotationTarget.ConnectorID y) = true.

Lemma str_lt_asym s t : str_lt s t = true -> str_lt t s = false.
Proof.
  intros H. apply not_true_iff_false. intros H'. pose proof (str_lt_trans _ _ _ H H') as Hc.
  by rewrite str_lt_irrefl in Hc.
Qed.
Lemma str_le_trans s t u : str_lt t s = false -> str_lt u t = false -> str_lt u s = false.
Proof.
  intros H1 H2. apply not_true_iff_false. intros H. destruct (decide (u = t)) as [->|Hne]; [congruence|].
  pose proof (str_lt_total _ _ Hne H2). rewrite (str_lt_trans t u s) in H1; done.
Qed.
#[local] Instance target_le_trans : Transitive target_le.
Proof. intros x y z Hxy Hyz. by eapply str_le_trans. Qed.

Lemma insert_target_perm t l : insert_target t l ≡ₚ t :: l.
Proof. induction l as [|x l IH]; simpl; [done|]. case_match; [|done]. rewrite IH. apply Permutation_swap. Qed.
Lemma sort_targets_perm l : sort_targets l ≡ₚ l.
Proof. induction l as [|x l IH]; simpl; [done|]. by rewrite insert_target_perm, IH. Qed.

Lemma insert_target_sorted t l : StronglySorted target_le l -> StronglySorted target_le (insert_target t l).
Proof.
  induction 1 as [|x l Hl IH Hx]; simpl; [repeat constructor|]. case_match eqn:E.
  - constructor; [done|]. rewrite insert_target_perm. constructor; [by apply str_lt_asym|done].
  - constructor; [by constructor|]. constructor; [done|]. eapply Forall_impl; [exact Hx|]. intros y Hy.
    by transitivity x.
Qed.
Lemma sort_targets_sorted l : StronglySorted target_le (sort_targets l).
Proof. induction l as [|x l IH]; [constructor|]. by apply insert_target_sorted. Qed.

Lemma strictly_sorted l :
  StronglySorted target_le l -> NoDup (RotationTarget.ConnectorID <$> l) -> StronglySorted target_lt l.
Proof.
  induction 1 as [|x l Hl IH Hx]; intros Hnd; [constructor|].
  rewrite fmap_cons, NoDup_cons in Hnd. destruct Hnd as [Hn Hnd]. constructor; [auto|].
  rewrite Forall_forall in *. intros y Hy. apply str_lt_total; [|by apply Hx].
  intros E. apply Hn. rewrite <- E. by apply list_elem_of_fmap_2.
Qed.

(** ** What the validation of the targets establishes *)
Lemma validate_targets_ok seen l :
  validate_targets seen l = None ->
  Forall (fun t => RotationTarget_Validate t = None) l
  /\ NoDup (RotationTarget.ConnectorID <$> l)
  /\ forall t, t ∈ l -> RotationTarget.ConnectorID t ∉ seen.
Proof.
  revert seen. induction l as [|t l IH]; intros seen H; [split_and!; [constructor..|by intros ? ?%elem_of_nil]|].
  cbn [validate_targets] in H. destruct (RotationTarget_Validate t) eqn:Ht; [done|]. case_match; [done|].
  destruct (bool_decide _) eqn:Hs in H; [done|]. bool_prop. apply IH in H as (H1 & H2 & H3). split_and!.
  - by constructor.
  - rewrite fmap_cons. apply NoDup_cons. split; [|done]. intros (x & E & Hx)%list_elem_of_fmap.
    apply H3 in Hx. apply Hx. rewrite <- E. apply elem_of_cons. by left.
  - intros x [->|Hx]%elem_of_cons; [done|]. apply H3 in Hx. set_solver.
Qed.

Lemma NoDup_fmap_inj {A B} (f : A -> B) l x y :
  NoDup (f <$> l) -> x ∈ l -> y ∈ l -> f x = f y -> x = y.
Proof.
  induction l as [|z l IH]; [by intros _ ?%elem_of_nil|]. rewrite fmap_cons, NoDup_cons. intros [Hz Hl] Hx Hy E.
  apply elem_of_cons in Hx as [->|Hx]; apply elem_of_cons in Hy as [->|Hy]; auto.
  - destruct Hz. rewrite E. by apply list_elem_of_fmap_2.
  - destruct Hz. rewrite <- E. by apply list_elem_of_fmap_2.
Qed.

(** Sorting gives one list for all orders of the targets. *)
Lemma sort_targets_unique l l' :
  NoDup (RotationTarget.ConnectorID <$> l) -> l' ≡ₚ l -> sort_targets l' = sort_targets l.
Proof.
  intros Hnd Hp. apply (StronglySorted_unique_strong target_le); try apply sort_targets_sorted.
  - intros x y Hx Hy H1 H2. rewrite sort_targets_perm in Hx, Hy. rewrite Hp in Hx.
    apply (NoDup_fmap_inj RotationTarget.ConnectorID l); [done..|].
    apply dec_stable. intros Hne. pose proof (str_lt_total _ _ Hne H2). unfold target_le in H1. congruence.
  - by rewrite !sort_targets_perm.
Qed.

Lemma find_target l t :
  NoDup (RotationTarget.ConnectorID <$> l) -> t ∈ l ->
  List.find (fun x => RotationTarget.ConnectorID x == RotationTarget.ConnectorID t) l = Some t.
Proof.
  intros Hnd Ht. destruct (List.find _ l) as [x|] eqn:E.
  - apply find_some in E as [Hx Hb]. bool_prop. f_equal.
    apply (NoDup_fmap_inj RotationTarget.ConnectorID l); [done|by apply list_elem_of_In|done..].
  - apply list_elem_of_In in Ht. pose proof (find_none _ _ E t Ht) as Hb. cbv beta in Hb. by bool_prop.
Qed.

Lemma NewRotationPlan_inv a t o targets plan :
  NewRotationPlan a t o targets = Ok plan ->
  let p := RotationPlan.mk a t o "" (sort_targets targets) in
  validateRotationPlanFields p = None /\ plan = RotationPlan.mk a t o (rotationPlanHash p) (sort_targets targets)
  /\ NoDup (RotationTarget.ConnectorID <$> targets).
Proof.
  unfold NewRotationPlan. cbv zeta. case_match eqn:Hv; [done|]. intros [= <-]. split_and!; [done..|].
  unfold validateRotationPlanFields in Hv. case_match; [done|].
  apply validate_targets_ok in Hv as (_ & Hnd & _). cbn [Targets] in Hnd. by rewrite sort_targets_perm in Hnd.
Qed.

(** A rotation plan depends only on the set of its targets: the plan NewRotationPlan builds
    passes its own validation, lists exactly the given targets in strictly increasing connector
    order, finds each of them by its connector, and any reordering of the targets gives the same
    plan. *)
Theorem NewRotationPlan_canonical accountID tunnelID operationID targets plan :
  NewRotationPlan accountID tunnelID operationID targets = Ok plan ->
  RotationPlan_Validate plan = None
  /\ Targets plan ≡ₚ targets /\ StronglySorted target_lt (Targets plan)
  /\ (forall t, t ∈ targets -> RotationPlan_Target plan (RotationTarget.ConnectorID t) = Some t)
  /\ (forall targets', targets' ≡ₚ targets ->
        NewRotationPlan accountID tunnelID operationID targets' = Ok plan).
Proof.
  intros H. pose proof H as (Hv & -> & Hnd)%NewRotationPlan_inv. split_and!.
  - unfold RotationPlan_Validate, validateRotationPlanFields in *. cbn in Hv |- *.
    unfold rotationPlanHash at 1. rewrite hashPattern_content_hash.
    cbn [negb andb orb] in Hv |- *. rewrite orb_false_r in Hv |- *.
    destruct (_ || _) eqn:E in Hv; [done|]. rewrite E, Hv. by rewrite bool_decide_eq_true_2.
  - apply sort_targets_perm.
  - apply strictly_sorted; [apply sort_targets_sorted|]. cbn [Targets]. by rewrite sort_targets_perm.
  - intros t Ht. apply find_target; cbn [Targets]; by rewrite sort_targets_perm.
  - intros targets' Hp. rewrite <- H. unfold NewRotationPlan. by rewrite (sort_targets_unique targets targets').
Qed.
