(* ===== verification/Negotiation.v ===== *)
(** * Version and capability negotiation

    What the hello/welcome exchange agrees on ([NegotiateVersion],
    [NegotiateCapabilities], [ValidateCapabilities] of
    connectorprotocol/protocol.go): the selected version lies in the offered
    range, and the selected capabilities are the common ones, whichever side
    computes them. *)
From S2P Require Import Prelude GoText GoHash GoUrl GoJson Errors Canonical Identifiers.

(** ** Capabilities *)

Definition well_formed_capability (value : string) : Prop :=
  slen value <= MaxCapabilityBytes /\ capabilityPattern value = true.

Lemma collect_capabilities_spec seen values r :
  NoDup seen ->
  collect_capabilities seen values = Some r <->
  r = reverse values ++ seen /\ NoDup r /\ Forall well_formed_capability values.
Proof.
  revert seen. induction values as [|v values IH]; intros seen Hnd; cbn [collect_capabilities].
  - split; [intros [= <-]; split_and!; auto|]. by intros (-> & _).
  - rewrite Forall_cons. unfold well_formed_capability at 1.
    destruct (MaxCapabilityBytes <? slen v) eqn:Hl; cbn [orb].
    { apply Z.ltb_lt in Hl. split; [done|]. intros (_ & _ & (? & _) & _). lia. }
    destruct (capabilityPattern v) eqn:Hp; cbn [negb]; [|split; [done|by intros (_ & _ & (_ & ?) & _)]].
    apply Z.ltb_ge in Hl. rewrite reverse_cons, <- (assoc_L (++)). cbn [app].
    case_bool_decide as Hin.
    + split; [done|]. intros (-> & Hnd' & _). apply NoDup_app in Hnd' as (_ & _ & Hnd').
      by apply NoDup_cons in Hnd' as [? _].
    + rewrite IH by by apply NoDup_cons. split; intros (?&?&?); split_and!; auto. by destruct H1.
Qed.

Lemma find_None_iff {A} (f : A -> bool) l : List.find f l = None <-> Forall (fun x => f x = false) l.
Proof.
  induction l as [|x l IH]; cbn [List.find]; [done|]. rewrite Forall_cons, <- IH.
  destruct (f x); split; try done. by intros [? _]. by intros [_ ?].
Qed.

(** A capability list is accepted exactly when it is non-empty and bounded,
    repeats nothing, contains only well-formed names, and has every required one. *)
Lemma ValidateCapabilities_None values :
  ValidateCapabilities values = None <->
  0 < Z.of_nat (length values) <= MaxCapabilities /\ NoDup values /\
  Forall well_formed_capability values /\ (forall c, c ∈ requiredCapabilities -> c ∈ values).
Proof.
  unfold ValidateCapabilities. destruct (_ || _) eqn:Hlen.
  { split; [done|]. intros (? & _). apply orb_true_iff in Hlen as [?%Z.eqb_eq|?%Z.ltb_lt]; lia. }
  apply orb_false_iff in Hlen as [?%Z.eqb_neq ?%Z.ltb_ge].
  pose proof (collect_capabilities_spec [] values) as Hspec.
  destruct (collect_capabilities [] values) as [seen|].
  - destruct (proj1 (Hspec seen (NoDup_nil_2)) eq_refl) as (-> & Hnd & Hwf).
    rewrite app_nil_r in *. rewrite reverse_Permutation in Hnd.
    destruct (List.find _ _) eqn:Hf.
    + split; [done|]. intros (_ & _ & _ & Hreq). apply List.find_some in Hf as [Hin Hn].
      apply negb_true_iff, bool_decide_eq_false in Hn. destruct Hn.
      rewrite elem_of_reverse. by apply Hreq, list_elem_of_In.
    + apply find_None_iff in Hf. split; [|done]. intros _. split_and!; try done; try lia.
      intros c Hc. rewrite Forall_forall in Hf. specialize (Hf c Hc).
      apply negb_false_iff, bool_decide_eq_true in Hf. by rewrite elem_of_reverse in Hf.
  - split; [done|]. intros (_ & Hnd & Hwf & _).
    assert (None = Some (reverse values ++ [])); [|done].
    apply Hspec; [apply NoDup_nil_2|]. rewrite app_nil_r. split_and!; [done| |done]. by rewrite reverse_Permutation.
Qed.

(** Selecting the common names of two accepted lists gives an accepted list. *)
Lemma selected_valid offered supported :
  ValidateCapabilities offered = None -> ValidateCapabilities supported = None ->
  ValidateCapabilities (List.filter (fun value => bool_decide (value ∈ supported)) offered) = None.
Proof.
  rewrite !ValidateCapabilities_None. intros (Hlen & Hnd & Hwf & Hreq) (_ & _ & _ & Hreq').
  assert (forall c, c ∈ List.filter (fun value => bool_decide (value ∈ supported)) offered
                    <-> c ∈ offered /\ c ∈ supported) as Hin.
  { intros c. rewrite !list_elem_of_In, List.filter_In, bool_decide_eq_true, list_elem_of_In. done. }
  split_and!.
  - destruct (List.filter _ _) as [|x l] eqn:E; cbn [length]; [|lia].
    assert (CapabilitySnapshot ∈ requiredCapabilities) as H by (by vm_compute; left).
    assert (CapabilitySnapshot ∈ @nil string) as []%elem_of_nil. apply Hin; auto.
  - etrans; [|apply Hlen]. apply inj_le, List.filter_length_le.
  - apply NoDup_ListNoDup in Hnd. by apply NoDup_ListNoDup, List.NoDup_filter.
  - rewrite Forall_forall in *. intros c [? _]%Hin. auto.
  - intros c Hc. apply Hin. auto.
Qed.

Lemma NegotiateCapabilities_ok offered supported selected :
  NegotiateCapabilities offered supported = Ok selected <->
  ValidateCapabilities offered = None /\ ValidateCapabilities supported = None /\
  selected = List.filter (fun value => bool_decide (value ∈ supported)) offered.
Proof.
  unfold NegotiateCapabilities. destruct (ValidateCapabilities offered) eqn:Ho; [split; [done|by intros (?&_)]|].
  destruct (ValidateCapabilities supported) eqn:Hs; [split; [done|by intros (_&?&_)]|].
  rewrite selected_valid by done. split; [by intros [= <-]|by intros (_ & _ & ->)].
Qed.

(** Negotiating again against the selection changes nothing. *)
Lemma negotiated_renegotiates offered supported selected :
  NegotiateCapabilities offered supported = Ok selected ->
  NegotiateCapabilities offered selected = Ok selected.
Proof.
  rewrite !NegotiateCapabilities_ok. intros (Ho & Hs & E).
  pose proof (selected_valid _ _ Ho Hs) as Hv. rewrite <- E in Hv. split_and!; [done..|].
  rewrite E at 1. apply List.filter_ext_in. intros c Hc%list_elem_of_In. apply bool_decide_ext.
  rewrite E, (list_elem_of_In (List.filter _ _)), List.filter_In, bool_decide_eq_true, <- list_elem_of_In. tauto.
Qed.

Lemma negotiated_capabilities offered supported selected :
  NegotiateCapabilities offered supported = Ok selected ->
  (forall c, c ∈ selected <-> c ∈ offered /\ c ∈ supported) /\
  (forall c, c ∈ requiredCapabilities -> c ∈ selected) /\
  ValidateCapabilities selected = None /\
  NegotiateCapabilities offered selected = Ok selected /\
  exists mirrored, NegotiateCapabilities supported offered = Ok mirrored /\ mirrored ≡ₚ selected.
Proof.
  rewrite NegotiateCapabilities_ok. intros (Ho & Hs & E).
  pose proof (selected_valid _ _ Ho Hs) as Hv. rewrite <- E in Hv.
  assert (forall c, c ∈ selected <-> c ∈ offered /\ c ∈ supported) as Hin.
  { intros c. rewrite E, !list_elem_of_In, List.filter_In, bool_decide_eq_true, list_elem_of_In. done. }
  split_and!; [done|by apply ValidateCapabilities_None in Hv as (_&_&_&?)|done| |].
  - apply (negotiated_renegotiates _ supported). by apply NegotiateCapabilities_ok.
  - eexists. split; [by apply NegotiateCapabilities_ok|].
    pose proof (selected_valid _ _ Hs Ho) as Hv'.
    apply ValidateCapabilities_None in Hv as (_&Hnd&_), Hv' as (_&Hnd'&_).
    apply NoDup_Permutation; [done..|]. intros c.
    rewrite Hin, !list_elem_of_In, List.filter_In, bool_decide_eq_true, list_elem_of_In. tauto.
Qed.

(** ** Versions *)

(** The order of version numbers: major first. *)
Definition version_le (a b : Z * Z) : Prop := a.1 < b.1 \/ a.1 = b.1 /\ a.2 <= b.2.

Lemma negotiated_version minVersion maxVersion version :
  NegotiateVersion minVersion maxVersion = Ok version <->
  version = ProtocolVersion /\ versionPattern minVersion = true /\ versionPattern maxVersion = true /\
  exists lo hi, parseVersion minVersion = Some lo /\ parseVersion maxVersion = Some hi /\
    version_le lo (1, 0) /\ version_le (1, 0) hi.
Proof.
  unfold NegotiateVersion.
  destruct (versionPattern minVersion), (versionPattern maxVersion); cbn [negb orb];
    try (split; [done | by intros (_ & ? & ? & _)]).
  change (parseVersion ProtocolVersion) with (Some (1, 0)).
  destruct (parseVersion maxVersion) as [[c d]|]; [|split; [done|by intros (_&_&_&?&?&_&?&_)]].
  destruct (parseVersion minVersion) as [[a b]|]; [|split; [done|by intros (_&_&_&?&?&?&_)]].
  unfold version_le. split.
  - case_match eqn:Hg; [done|]. intros [= <-]. bool_prop. split_and!; try done.
    exists (a, b), (c, d). cbn. split_and!; try done; lia.
  - intros (-> & _ & _ & lo & hi & [= <-] & [= <-] & Hlo & Hhi). cbn in *.
    case_match eqn:Hg; [|done]. exfalso. lia.
Qed.

(** A successful capability negotiation selects exactly the capabilities both sides listed,
    including every required one; the selection is itself valid, the client's own renegotiation
    against it returns it unchanged, and negotiating with the sides exchanged selects the same
    set. Version negotiation succeeds exactly when both bounds are well-formed versions with
    minimum at most 1.0 and maximum at least 1.0 in the order of version numbers, and then
    selects 1.0. *)
Theorem negotiation_is_exact :
  (forall offered supported selected, NegotiateCapabilities offered supported = Ok selected ->
    (forall c, c ∈ selected <-> c ∈ offered /\ c ∈ supported) /\
    (forall c, c ∈ requiredCapabilities -> c ∈ selected) /\
    ValidateCapabilities selected = None /\
    NegotiateCapabilities offered selected = Ok selected /\
    exists mirrored, NegotiateCapabilities supported offered = Ok mirrored /\ mirrored ≡ₚ selected) /\
  (forall minVersion maxVersion version, NegotiateVersion minVersion maxVersion = Ok version <->
    version = ProtocolVersion /\ versionPattern minVersion = true /\ versionPattern maxVersion = true /\
    exists lo hi, parseVersion minVersion = Some lo /\ parseVersion maxVersion = Some hi /\
      version_le lo (1, 0) /\ version_le (1, 0) hi).
Proof. split; [exact negotiated_capabilities|exact negotiated_version]. Qed.

(** The one version this protocol selects. *)
Lemma negotiated_selects minVersion maxVersion version :
  NegotiateVersion minVersion maxVersion = Ok version -> version = ProtocolVersion.
Proof. unfold NegotiateVersion. repeat case_match; congruence. Qed.
