(* ===== verification/Registry.v ===== *)
(** * The session registry

    [SessionRef] and [SessionRegistry] of
    src/internal/connectorprotocol/session.go: the map from connector to the
    one live session reference of its current process generation.  Every
    method runs under the registry's lock, so a method is one atomic function
    on the map. *)

From S2P Require Import Prelude GoText Errors Identifiers Messages.

Module SessionRef.
Record SessionRef := mk {
  TunnelID : string;
  ConnectorID : string;
  SessionID : string;
  ProcessGeneration : Z;
}.
#[export] Instance settable : Settable SessionRef := fun r =>
  mk (TunnelID r) (ConnectorID r) (SessionID r) (ProcessGeneration r).
#[export] Instance eq_dec : EqDecision SessionRef.
Proof. solve_decision. Defined.
Definition zero : SessionRef := mk "" "" "" 0.
End SessionRef.
Export (hints) SessionRef.
Abbreviation SessionRef := SessionRef.SessionRef.

Section SessionRefValidate.
Import SessionRef.
Definition SessionRef_Validate (r : SessionRef) : option goerror :=
  if negb (ids_ok [TunnelID r; ConnectorID r; SessionID r]) || (ProcessGeneration r =? 0)
  then Some ErrInvalidInput else None.
End SessionRefValidate.

Abbreviation SessionRegistry := (gmap string SessionRef).
Definition NewSessionRegistry : SessionRegistry := ∅.

Record AttachResult := mkAttachResult { Current : SessionRef; Replaced : option SessionRef }.

Definition Attach (r : SessionRegistry) (ref : SessionRef) : Res AttachResult * SessionRegistry :=
  if negb (ok (SessionRef_Validate ref)) then (Err ErrInvalidInput, r) else
  match r !! SessionRef.ConnectorID ref with
  | Some previous =>
      if SessionRef.TunnelID previous != SessionRef.TunnelID ref
      then (Err (codeError ErrIdentityMismatch ReasonAuthentication false None), r)
      else if SessionRef.ProcessGeneration ref <=? SessionRef.ProcessGeneration previous
      then (Err (codeError ErrSessionConflict ReasonStaleGeneration false None), r)
      else (Ok (mkAttachResult ref (Some previous)), <[SessionRef.ConnectorID ref := ref]> r)
  | None => (Ok (mkAttachResult ref None), <[SessionRef.ConnectorID ref := ref]> r)
  end.

(** [Disconnect]: the error and the registry after it. *)
Definition Registry_Disconnect (r : SessionRegistry) (ref : SessionRef) (reason : DisconnectReason)
    : option goerror * SessionRegistry :=
  if negb (ok (SessionRef_Validate ref)) || negb (validDisconnectReason reason)
  then (Some ErrInvalidInput, r) else
  match r !! SessionRef.ConnectorID ref with
  | None => (None, r)
  | Some current =>
      if current != ref then (Some (codeError ErrStaleSession ReasonStaleGeneration false None), r)
      else (None, delete (SessionRef.ConnectorID ref) r)
  end.

Definition Active (r : SessionRegistry) (connectorID : string) : option SessionRef :=
  if negb (ok (ValidateIdentifier connectorID)) then None else r !! connectorID.

Definition Count (r : SessionRegistry) : Z := Z.of_nat (size r).

(** ** Well-formedness *)

(** Every entry is a valid reference stored under its own connector. *)
Definition registry_wf (r : SessionRegistry) : Prop :=
  forall c ref, r !! c = Some ref -> SessionRef.ConnectorID ref = c /\ SessionRef_Validate ref = None.

Lemma registry_wf_empty : registry_wf NewSessionRegistry.
Proof. intros c ref H. unfold NewSessionRegistry in H. by rewrite lookup_empty in H. Qed.

Lemma Attach_ok_inv r ref res r' :
  Attach r ref = (Ok res, r') ->
  SessionRef_Validate ref = None /\ r' = <[SessionRef.ConnectorID ref := ref]> r
  /\ Current res = ref /\ Replaced res = r !! SessionRef.ConnectorID ref
  /\ (forall prev, r !! SessionRef.ConnectorID ref = Some prev ->
        SessionRef.TunnelID prev = SessionRef.TunnelID ref
        /\ SessionRef.ProcessGeneration prev < SessionRef.ProcessGeneration ref).
Proof.
  unfold Attach. destruct (SessionRef_Validate ref) eqn:Hv; simpl; [done|].
  destruct (r !! SessionRef.ConnectorID ref) as [prev|] eqn:Hl;
    repeat case_match; intros; simplify_eq/=; bool_prop; repeat split; naive_solver.
Qed.

Lemma Attach_err_inv r ref e r' : Attach r ref = (Err e, r') -> r' = r.
Proof. unfold Attach. repeat case_match; intros; by simplify_eq. Qed.

Lemma Attach_wf r ref : registry_wf r -> registry_wf (snd (Attach r ref)).
Proof.
  intros Hwf. destruct (Attach r ref) as [[res|e] r'] eqn:Ha; simpl.
  - apply Attach_ok_inv in Ha as (Hv & -> & _). intros c ref' Hl.
    apply lookup_insert_Some in Hl as [[? ?]|[_ Hl]]; [by subst|by apply Hwf].
  - by apply Attach_err_inv in Ha as ->.
Qed.

Lemma Disconnect_cases r ref reason :
  snd (Registry_Disconnect r ref reason) = r
  \/ (r !! SessionRef.ConnectorID ref = Some ref
      /\ snd (Registry_Disconnect r ref reason) = delete (SessionRef.ConnectorID ref) r).
Proof.
  unfold Registry_Disconnect. repeat case_match; simpl; try (by left).
  right. bool_prop. by subst.
Qed.

Lemma Disconnect_wf r ref reason :
  registry_wf r -> registry_wf (snd (Registry_Disconnect r ref reason)).
Proof.
  intros Hwf. destruct (Disconnect_cases r ref reason) as [->|[_ ->]]; [done|].
  intros c ref' Hl. apply lookup_delete_Some in Hl as [_ Hl]. by apply Hwf.
Qed.

(** A disconnect changes at most the entry that is exactly [ref]. *)
Lemma Disconnect_lookup r ref reason c x :
  r !! c = Some x -> x <> ref -> registry_wf r ->
  snd (Registry_Disconnect r ref reason) !! c = Some x.
Proof.
  intros Hl Hne Hwf. destruct (Disconnect_cases r ref reason) as [->|[Hr ->]]; [done|].
  rewrite lookup_delete_ne; [done|]. intros Heq. congruence.
Qed.

#[export] Hint Resolve registry_wf_empty Attach_wf Disconnect_wf : go.

(** ** The registry as a sequence of operations *)

Inductive registry_op :=
| OpAttach (ref : SessionRef)
| OpDisconnect (ref : SessionRef) (reason : DisconnectReason).

Definition registry_step (r : SessionRegistry) (op : registry_op) : SessionRegistry :=
  match op with
  | OpAttach ref => snd (Attach r ref)
  | OpDisconnect ref reason => snd (Registry_Disconnect r ref reason)
  end.
Definition registry_run (r : SessionRegistry) (ops : list registry_op) : SessionRegistry :=
  fold_left registry_step ops r.

Lemma registry_step_wf r op : registry_wf r -> registry_wf (registry_step r op).
Proof. destruct op; simpl; auto with go. Qed.

(** One operation that does not disconnect the current reference itself can
    only keep the entry or replace it by a newer process of the same tunnel. *)
Lemma registry_step_monotone r op c x :
  registry_wf r -> r !! c = Some x ->
  (forall reason, op <> OpDisconnect x reason) ->
  exists y, registry_step r op !! c = Some y
    /\ SessionRef.TunnelID y = SessionRef.TunnelID x
    /\ (y = x \/ SessionRef.ProcessGeneration x < SessionRef.ProcessGeneration y).
Proof.
  intros Hwf Hl Hop. destruct op as [ref|ref reason]; simpl.
  - destruct (Attach r ref) as [[res|e] r'] eqn:Ha; simpl.
    + apply Attach_ok_inv in Ha as (_ & -> & _ & _ & Hprev).
      destruct (decide (SessionRef.ConnectorID ref = c)) as [<-|Hne].
      * destruct (Hprev x Hl) as [Ht Hg]. exists ref.
        rewrite lookup_insert_eq. auto.
      * exists x. rewrite lookup_insert_ne by done. auto.
    + apply Attach_err_inv in Ha as ->. eauto.
  - exists x. split; [|auto]. apply Disconnect_lookup; [done| |done].
    intros ->. by eapply Hop.
Qed.

(** Over any sequence of registry operations that does not disconnect the current reference
    of a connector or a newer one, the connector keeps an entry of the same tunnel that is the
    same reference or one of a higher process generation. *)
Theorem registry_current_monotone r ops c x :
  registry_wf r -> r !! c = Some x ->
  (forall y reason, SessionRef.ProcessGeneration x <= SessionRef.ProcessGeneration y ->
     OpDisconnect y reason ∉ ops) ->
  exists y, registry_run r ops !! c = Some y
    /\ SessionRef.TunnelID y = SessionRef.TunnelID x
    /\ (y = x \/ SessionRef.ProcessGeneration x < SessionRef.ProcessGeneration y).
Proof.
  revert r x. induction ops as [|op ops IH]; intros r x Hwf Hl Hops; simpl; [eauto|].
  destruct (registry_step_monotone r op c x Hwf Hl) as (y & Hy & Ht & Hg).
  { intros reason ->. apply (Hops x reason); [lia|left]. }
  assert (SessionRef.ProcessGeneration x <= SessionRef.ProcessGeneration y) as Hle
    by (destruct Hg as [->|?]; lia).
  destruct (IH (registry_step r op) y) as (z & Hz & Ht' & Hg'); [by apply registry_step_wf|done| |].
  { intros w reason Hw Hin. apply (Hops w reason); [lia|by right]. }
  exists z. split; [done|]. split; [congruence|].
  destruct Hg as [->|Hg], Hg' as [->|Hg']; auto; right; lia.
Qed.
