(* ===== verification/ServerSession.v ===== *)
(** * The server side of a connector session

    [Server] and [ServerSession] of
    src/internal/connectorprotocol/session.go.  A method holds the session's
    lock while it runs, so it is one computation over the session and the
    registry it shares with the other sessions; the one method that gives the
    lock up in the middle, [Renew], is two computations with the call to the
    authenticator between them.  A method's error is the monad's error and
    keeps the writes made before it.  The readings of the clock, the context
    and the replies of the authenticator, of the snapshot source and of the
    session-id source are arguments. *)

From S2P Require Import Prelude GoText GoHash Errors Canonical Identifiers WireConfig Messages.
From S2P Require Import Registry.

(** [context.Context]: nil, or live with the current value of [ctx.Err()]. *)
Inductive Context := NilContext | LiveContext (ctxErr : option goerror).
Definition ctx_nil (ctx : Context) : bool :=
  match ctx with NilContext => true | LiveContext _ => false end.
Definition ctx_Err (ctx : Context) : option goerror :=
  match ctx with NilContext => None | LiveContext e => e end.

Inductive SessionState := SessionNew | SessionAwaitingSnapshot | SessionAwaitingReady
  | SessionReady | SessionDraining | SessionClosed.
#[export] Instance SessionState_eq_dec : EqDecision SessionState.
Proof. solve_decision. Defined.

(** ** Server configuration *)
Record ServerConfig := mkServerConfig {
  Capabilities : list string;
  LeaseDuration : duration;
  HeartbeatInterval : duration;
}.

(** [NewServer].  The two flags say whether an authenticator and a snapshot
    source are configured; the defaults for the clock, the id source and the
    registry change no field that is modelled.  [HeartbeatInterval*2] is an
    [int64] product. *)
Definition NewServer (hasAuthenticator hasSnapshots : bool) (config : ServerConfig)
    : Res ServerConfig :=
  if negb hasAuthenticator || negb hasSnapshots then Err ErrInvalidInput else
  let lease := if LeaseDuration config =? 0 then DefaultLease else LeaseDuration config in
  let hb := if HeartbeatInterval config =? 0 then DefaultHeartbeat else HeartbeatInterval config in
  if (lease <=? 0) || (MaxLease <? lease) || (hb <=? 0) || (lease <=? to_i64 (hb * 2))
     || negb (ok (ValidateCapabilities (Capabilities config)))
  then Err ErrInvalidInput
  else Ok (mkServerConfig (Capabilities config) lease hb).

(** ** The session *)
Module ServerSession.
Record ServerSession := mk {
  server : ServerConfig;
  ref : SessionRef;
  auth : AuthResult;
  lease : Lease;
  welcome : Welcome;
  pendingSnapshot : option Snapshot;
  pendingDelta : option Delta;
  active : Snapshot;
  hasActive : bool;
  candidate : Snapshot;
  hasCandidate : bool;
  readyGeneration : Z;
  needsSnapshot : bool;
  state : SessionState;
  lastHeartbeat : time;
  lastHeartbeatSentAt : time;
  drain : option Drain;
  drainStatus : DrainStatus;
  drainCode : Code;
  drainCompleted : bool;
  disconnectReason : DisconnectReason;
}.
#[export] Instance settable : Settable ServerSession := fun s =>
  mk (server s) (ref s) (auth s) (lease s) (welcome s) (pendingSnapshot s) (pendingDelta s)
    (active s) (hasActive s) (candidate s) (hasCandidate s) (readyGeneration s) (needsSnapshot s)
    (state s) (lastHeartbeat s) (lastHeartbeatSentAt s) (drain s) (drainStatus s) (drainCode s)
    (drainCompleted s) (disconnectReason s).
End ServerSession.
Export (hints) ServerSession.
Abbreviation ServerSession := ServerSession.ServerSession.
Import ServerSession.

(** The registry and one session, the state of the methods below. *)
Record SrvState := mkSrv { registry : SessionRegistry; sess : ServerSession }.
#[export] Instance SrvState_settable : Settable SrvState := fun s => mkSrv (registry s) (sess s).

Abbreviation Srv A := (M SrvState goerror A).

Definition get_sess : Srv ServerSession := s ← get; ret (sess s).
Definition upd_sess (f : ServerSession -> ServerSession) : Srv unit :=
  modify (fun s => s <| sess := f (sess s) |>).

Definition bindSnapshot (snapshot : Snapshot) (accountID connectorID sessionID : string)
    (processGeneration : Z) : Snapshot :=
  snapshot <| Snapshot.AccountID := accountID |>
           <| Snapshot.ConnectorID := connectorID |>
           <| Snapshot.SessionID := sessionID |>
           <| Snapshot.ProcessGeneration := processGeneration |>.

(** Payloads are values here, so the defensive copy is the value itself. *)
Definition cloneSnapshot (snapshot : Snapshot) : Snapshot := snapshot.

(** ** [Accept]

    [authenticate], [snapshots] and [sessionIDs] are the replies of the three
    interfaces the server is configured with. *)
Section Accept.
Context (authenticate : AuthRequest -> Res AuthResult).
Context (snapshots : string -> Res Snapshot).
Context (sessionIDs : Res string).

Definition auth_matches_hello (auth : AuthResult) (hello : Hello) : bool :=
  (AuthResult.AccountID auth == Hello.AccountID hello)
  && (AuthResult.TunnelID auth == Hello.TunnelID hello)
  && (AuthResult.ConnectorID auth == Hello.ConnectorID hello)
  && (AuthResult.HostID auth == Hello.HostID hello)
  && (AuthResult.IdentityKeyID auth == AuthRequest.IdentityKeyID (Hello.Auth hello))
  && (AuthResult.IdentityKeyThumbprint auth == AuthRequest.IdentityKeyThumbprint (Hello.Auth hello))
  && (AuthResult.ProcessGeneration auth =? Hello.ProcessGeneration hello).

Definition failure {A} (e : goerror) (cause : option goerror) (reason : DisconnectReason)
    (retryable : bool) : M SessionRegistry goerror A := throw (codeError e reason retryable cause).

Definition Accept (s : ServerConfig) (ctx : Context) (now : time) (hello : Hello)
    : M SessionRegistry goerror (ServerSession * Welcome * Snapshot) :=
  fail_if (ctx_nil ctx) ErrInvalidInput ;;
  check (Hello_Validate hello now) ;;
  version ← lift (NegotiateVersion (Hello.MinVersion hello) (Hello.MaxVersion hello));
  capabilities ← lift (NegotiateCapabilities (Hello.Capabilities hello) (Capabilities s));
  auth ← match authenticate (Hello.Auth hello) with
         | Err err => failure ErrAuthenticationFailed (Some err) ReasonAuthentication false
         | Ok auth => ret auth
         end;
  match AuthResult_Validate auth now with
  | Some err => failure ErrAuthenticationFailed (Some err) ReasonAuthentication false
  | None => fail_if (negb (auth_matches_hello auth hello))
              (codeError ErrAuthenticationFailed ReasonAuthentication false None)
  end ;;
  snapshot ← match snapshots (Hello.TunnelID hello) with
             | Err err => failure ErrSnapshotRejected (Some err) ReasonSnapshotRejected true
             | Ok snapshot => ret snapshot
             end;
  match Snapshot_Validate snapshot with
  | Some err => failure ErrSnapshotRejected (Some err) ReasonSnapshotRejected false
  | None => fail_if (Snapshot.TunnelID snapshot != Hello.TunnelID hello)
              (codeError ErrSnapshotRejected ReasonSnapshotRejected false None)
  end ;;
  sessionID ← match sessionIDs with
              | Err err => failure ErrSessionConflict (Some err) ReasonAuthentication true
              | Ok sessionID =>
                  if negb (ok (ValidateIdentifier sessionID))
                  then failure ErrSessionConflict None ReasonAuthentication true
                  else ret sessionID
              end;
  let configuredExpiry := Add now (LeaseDuration s) in
  let leaseExpiry := if Before configuredExpiry (AuthResult.LeaseExpiresAt auth)
                     then configuredExpiry else AuthResult.LeaseExpiresAt auth in
  let lease := Lease.mk sessionID leaseExpiry
                 (to_u32 (Z.quot (HeartbeatInterval s) Millisecond)) in
  match Lease_Validate lease now with
  | Some err => failure ErrAuthenticationFailed (Some err) ReasonAuthentication false
  | None => ret tt
  end ;;
  let ref := SessionRef.mk (Hello.TunnelID hello) (Hello.ConnectorID hello) sessionID
               (Hello.ProcessGeneration hello) in
  r ← get;
  match Attach r ref with
  | (Err err, r') => put r' ;; throw err
  | (Ok _, r') =>
      put r' ;;
      let welcome := Welcome.mk ProtocolName version sessionID capabilities lease true now in
      let bound := bindSnapshot snapshot (Hello.AccountID hello) (Hello.ConnectorID hello)
                     sessionID (Hello.ProcessGeneration hello) in
      ret (ServerSession.mk s ref auth lease welcome (Some bound) None Snapshot.zero false
             Snapshot.zero false 0 false SessionAwaitingSnapshot now 0 None "" "" false "",
           welcome, bound)
  end.
End Accept.

(** ** Helpers under the lock *)

Definition matchesIdentity (s : ServerSession) (accountID tunnelID connectorID sessionID : string)
    (processGeneration : Z) : bool :=
  (accountID == AuthResult.AccountID (auth s)) && (tunnelID == SessionRef.TunnelID (ref s))
  && (connectorID == SessionRef.ConnectorID (ref s)) && (sessionID == SessionRef.SessionID (ref s))
  && (processGeneration =? SessionRef.ProcessGeneration (ref s)).

Definition restoreStateLocked (s : ServerSession) : ServerSession :=
  if hasActive s && (readyGeneration s =? Snapshot.Generation (active s)) && negb (needsSnapshot s)
  then s <| state := SessionReady |>
  else s <| state := SessionAwaitingSnapshot |>.

Definition makeAckLocked (s : ServerSession) (kind : AckKind) (status : AckStatus)
    (generation : Z) (contentHash : string) : Ack :=
  Ack.mk (AuthResult.AccountID (auth s)) (SessionRef.TunnelID (ref s)) (SessionRef.ConnectorID (ref s))
    (SessionRef.SessionID (ref s)) (SessionRef.ProcessGeneration (ref s)) kind status generation
    contentHash "".

Definition closeLocked (reason : DisconnectReason) : Srv unit :=
  s ← get;
  if state (sess s) == SessionClosed then ret tt else
  put (mkSrv (snd (Registry_Disconnect (registry s) (ref (sess s)) reason))
         ((sess s) <| state := SessionClosed |> <| disconnectReason := reason |>)).

Definition heartbeat_timed_out (s : ServerSession) (now : time) : bool :=
  negb (IsZero (lastHeartbeat s))
  && (2 * heartbeat_duration (lease s) <? Sub now (lastHeartbeat s)).

Definition ensureActiveLocked (now : time) : Srv unit :=
  st ← get;
  let s := sess st in
  fail_if (state s == SessionClosed) (codeError ErrSessionClosed (disconnectReason s) false None) ;;
  if Active (registry st) (SessionRef.ConnectorID (ref s)) != Some (ref s) then
    closeLocked ReasonSessionReplaced ;;
    throw (codeError ErrStaleSession ReasonSessionReplaced false None)
  else if negb (After (AuthResult.CredentialExpiresAt (auth s)) now) then
    closeLocked ReasonCredentialExpired ;;
    throw (codeError ErrCredentialExpired ReasonCredentialExpired true None)
  else if negb (After (Lease.ExpiresAt (lease s)) now) then
    closeLocked ReasonLeaseExpired ;;
    throw (codeError ErrLeaseExpired ReasonLeaseExpired true None)
  else if heartbeat_timed_out s now then
    closeLocked ReasonHeartbeatTimeout ;;
    throw (codeError ErrHeartbeatTimeout ReasonHeartbeatTimeout true None)
  else ret tt.

Definition identity_mismatch : goerror := codeError ErrIdentityMismatch ReasonAuthentication false None.

(** ** Acknowledgements *)

Definition HandleAck (ctx : Context) (now : time) (ack : Ack) : Srv unit :=
  fail_if (ctx_nil ctx) ErrInvalidInput ;;
  check (Ack_Validate ack) ;;
  ensureActiveLocked now ;;
  s ← get_sess;
  fail_if (negb (matchesIdentity s (Ack.AccountID ack) (Ack.TunnelID ack) (Ack.ConnectorID ack)
                   (Ack.SessionID ack) (Ack.ProcessGeneration ack))) identity_mismatch ;;
  match pendingSnapshot s, pendingDelta s with
  | Some pending, _ =>
      fail_if ((Ack.Kind ack != AckSnapshot) || negb (Ack.Generation ack =? Snapshot.Generation pending)
               || (Ack.ContentHash ack != Snapshot.ContentHash pending))
        (codeError ErrSnapshotRejected ReasonSnapshotRejected false None) ;;
      if (Ack.Status ack == AckSnapshotRequired) || (Ack.Status ack == AckRejected) then
        upd_sess (fun s => restoreStateLocked
                             (s <| pendingSnapshot := None |> <| needsSnapshot := true |>)) ;;
        if Ack.Status ack == AckSnapshotRequired
        then throw (codeError ErrSnapshotRequired ReasonGenerationGap true None)
        else throw (codeError ErrSnapshotRejected ReasonSnapshotRejected false None)
      else
        upd_sess (fun s =>
          let s := s <| candidate := cloneSnapshot pending |> <| hasCandidate := true |>
                     <| pendingSnapshot := None |> <| needsSnapshot := false |> in
          if hasActive s && (readyGeneration s =? Snapshot.Generation (active s)) then s
          else s <| state := SessionAwaitingReady |>)
  | None, Some pending =>
      fail_if ((Ack.Kind ack != AckDelta) || negb (Ack.Generation ack =? Delta.Generation pending)
               || (Ack.ContentHash ack != Delta.ContentHash pending))
        (codeError ErrDeltaRejected ReasonGenerationGap false None) ;;
      upd_sess (fun s => s <| pendingDelta := None |>) ;;
      if Ack.Status ack == AckSnapshotRequired then
        upd_sess (fun s => restoreStateLocked (s <| needsSnapshot := true |>)) ;;
        throw (codeError ErrSnapshotRequired ReasonGenerationGap true None)
      else if Ack.Status ack == AckRejected then
        upd_sess (fun s => restoreStateLocked (s <| needsSnapshot := true |>)) ;;
        throw (codeError ErrDeltaRejected ReasonSnapshotRejected false None)
      else
        fail_if (hasActive s &&
                 (negb (Delta.PreviousGeneration pending =? Snapshot.Generation (active s))
                  || (Delta.PreviousContentHash pending != Snapshot.ContentHash (active s))))
          (codeError ErrGenerationGap ReasonGenerationGap true None) ;;
        upd_sess (fun s =>
          let s := s <| candidate := Snapshot.mk (AuthResult.AccountID (auth s)) (Delta.TunnelID pending)
                           (SessionRef.ConnectorID (ref s)) (SessionRef.SessionID (ref s))
                           (SessionRef.ProcessGeneration (ref s)) (Delta.Generation pending)
                           (Delta.ContentHash pending) (Delta.Payload pending) |>
                     <| hasCandidate := true |> in
          if hasActive s && (readyGeneration s =? Snapshot.Generation (active s)) then s
          else s <| state := SessionAwaitingReady |>)
  | None, None =>
      if Ack.Status ack == AckDuplicate then
        fail_if (negb (hasCandidate s) && negb (hasActive s))
          (codeError ErrStaleGeneration ReasonStaleGeneration false None) ;;
        let current := if hasCandidate s then candidate s else active s in
        fail_if (negb (Ack.Generation ack =? Snapshot.Generation current)
                 || (Ack.ContentHash ack != Snapshot.ContentHash current))
          (codeError ErrStaleGeneration ReasonStaleGeneration false None)
      else throw (codeError ErrInvalidInput ReasonMalformed false None)
  end.

Definition CanPersistNegativeAck (s : ServerSession) (ack : Ack) : bool :=
  ((Ack.Status ack == AckRejected) || (Ack.Status ack == AckSnapshotRequired))
  && ok (Ack_Validate ack)
  && matchesIdentity s (Ack.AccountID ack) (Ack.TunnelID ack) (Ack.ConnectorID ack)
       (Ack.SessionID ack) (Ack.ProcessGeneration ack)
  && match pendingSnapshot s, pendingDelta s with
     | Some p, _ => (Ack.Kind ack == AckSnapshot) && (Ack.Generation ack =? Snapshot.Generation p)
                    && (Ack.ContentHash ack == Snapshot.ContentHash p)
     | None, Some p => (Ack.Kind ack == AckDelta) && (Ack.Generation ack =? Delta.Generation p)
                       && (Ack.ContentHash ack == Delta.ContentHash p)
     | None, None => false
     end.

(** ** Readiness *)

Definition HandleReadiness (ctx : Context) (now : time) (readiness : Readiness) : Srv Ack :=
  fail_if (ctx_nil ctx) ErrInvalidInput ;;
  check (Readiness_Validate readiness) ;;
  ensureActiveLocked now ;;
  s ← get_sess;
  fail_if (negb (matchesIdentity s (Readiness.AccountID readiness) (Readiness.TunnelID readiness)
                   (Readiness.ConnectorID readiness) (Readiness.SessionID readiness)
                   (Readiness.ProcessGeneration readiness))) identity_mismatch ;;
  let differs (x : Snapshot) :=
    negb (Readiness.Generation readiness =? Snapshot.Generation x)
    || (Readiness.ContentHash readiness != Snapshot.ContentHash x) in
  fail_if (if hasCandidate s then differs (candidate s)
           else negb (hasActive s) || differs (active s))
    (codeError ErrStaleGeneration ReasonStaleGeneration false None) ;;
  fail_if (negb (Readiness.EdgeReady readiness) || negb (Readiness.RouteReady readiness)
           || negb (Readiness.OriginReady readiness))
    (codeError ErrNotReady ReasonSnapshotRejected true None) ;;
  upd_sess (fun s =>
    let s := if hasCandidate s
             then s <| active := cloneSnapshot (candidate s) |> <| hasActive := true |>
                    <| candidate := Snapshot.zero |> <| hasCandidate := false |>
             else s in
    s <| needsSnapshot := false |> <| readyGeneration := Readiness.Generation readiness |>
      <| state := SessionReady |>) ;;
  s ← get_sess;
  ret (makeAckLocked s AckReady AckApplied (Readiness.Generation readiness)
         (Readiness.ContentHash readiness)).

(** ** Offers *)

(** The identity fields of an offer are either unset or those of the session. *)
Definition offer_mismatch (s : ServerSession) (accountID connectorID sessionID : string)
    (processGeneration : Z) : bool :=
  (accountID != "") && (accountID != AuthResult.AccountID (auth s))
  || (connectorID != "") && (connectorID != SessionRef.ConnectorID (ref s))
  || (sessionID != "") && (sessionID != SessionRef.SessionID (ref s))
  || negb (processGeneration =? 0) && negb (processGeneration =? SessionRef.ProcessGeneration (ref s)).

Definition content_mismatch : goerror :=
  codeError ErrContentHashMismatch ReasonSnapshotRejected false None.

Definition OfferSnapshot (ctx : Context) (now : time) (snapshot : Snapshot) : Srv unit :=
  fail_if (ctx_nil ctx) ErrInvalidInput ;;
  match Snapshot_Validate snapshot with
  | Some err => throw (codeError ErrSnapshotRejected ReasonSnapshotRejected false (Some err))
  | None => ret tt
  end ;;
  ensureActiveLocked now ;;
  s ← get_sess;
  fail_if (Snapshot.TunnelID snapshot != SessionRef.TunnelID (ref s)) identity_mismatch ;;
  fail_if (offer_mismatch s (Snapshot.AccountID snapshot) (Snapshot.ConnectorID snapshot)
             (Snapshot.SessionID snapshot) (Snapshot.ProcessGeneration snapshot)) identity_mismatch ;;
  fail_if (hasActive s && (Snapshot.Generation snapshot <? Snapshot.Generation (active s)))
    (codeError ErrStaleGeneration ReasonStaleGeneration false None) ;;
  let same (x : Snapshot) := Snapshot.Generation snapshot =? Snapshot.Generation x in
  let differs (x : Snapshot) := Snapshot.ContentHash snapshot != Snapshot.ContentHash x in
  if hasCandidate s && same (candidate s) then fail_if (differs (candidate s)) content_mismatch
  else if hasActive s && same (active s) then fail_if (differs (active s)) content_mismatch
  else if match pendingSnapshot s with Some p => same p | None => false end
  then fail_if (match pendingSnapshot s with Some p => differs p | None => false end) content_mismatch
  else
    upd_sess (fun s =>
      let bound := bindSnapshot snapshot (AuthResult.AccountID (auth s)) (SessionRef.ConnectorID (ref s))
                     (SessionRef.SessionID (ref s)) (SessionRef.ProcessGeneration (ref s)) in
      let s := s <| pendingDelta := None |> <| pendingSnapshot := Some bound |> in
      if hasActive s then s else s <| state := SessionAwaitingSnapshot |>).

(** The four assignments to [bound]. *)
Definition bindDelta (delta : Delta) (accountID connectorID sessionID : string)
    (processGeneration : Z) : Delta :=
  delta <| Delta.AccountID := accountID |>
        <| Delta.ConnectorID := connectorID |>
        <| Delta.SessionID := sessionID |>
        <| Delta.ProcessGeneration := processGeneration |>.

Definition OfferDelta (ctx : Context) (now : time) (delta : Delta) : Srv unit :=
  fail_if (ctx_nil ctx) ErrInvalidInput ;;
  match Delta_Validate delta with
  | Some err => throw (codeError ErrDeltaRejected ReasonGenerationGap false (Some err))
  | None => ret tt
  end ;;
  ensureActiveLocked now ;;
  s ← get_sess;
  fail_if (negb (hasActive s) || negb (readyGeneration s =? Snapshot.Generation (active s))
           || needsSnapshot s) (codeError ErrNotReady ReasonSnapshotRejected true None) ;;
  fail_if (match pendingSnapshot s with Some _ => true | None => false end
           || match pendingDelta s with Some _ => true | None => false end || hasCandidate s)
    (codeError ErrGenerationGap ReasonGenerationGap true None) ;;
  fail_if ((Delta.TunnelID delta != SessionRef.TunnelID (ref s))
           || offer_mismatch s (Delta.AccountID delta) (Delta.ConnectorID delta)
                (Delta.SessionID delta) (Delta.ProcessGeneration delta)
           || negb (Delta.PreviousGeneration delta =? Snapshot.Generation (active s))
           || (Delta.PreviousContentHash delta != Snapshot.ContentHash (active s)))
    (codeError ErrGenerationGap ReasonGenerationGap true None) ;;
  upd_sess (fun s =>
    let bound := bindDelta delta (AuthResult.AccountID (auth s)) (SessionRef.ConnectorID (ref s))
                   (SessionRef.SessionID (ref s)) (SessionRef.ProcessGeneration (ref s)) in
    s <| pendingDelta := Some bound |>).

(** ** Heartbeats *)

(** The generation a heartbeat must report. *)
Definition expected_snapshot (s : ServerSession) : option Snapshot :=
  if hasActive s then Some (active s)
  else if hasCandidate s then Some (candidate s)
  else pendingSnapshot s.

Definition snapshot_required : goerror := codeError ErrSnapshotRequired ReasonGenerationGap true None.

Definition HandleHeartbeat (ctx : Context) (now : time) (heartbeat : Heartbeat) : Srv HeartbeatAck :=
  fail_if (ctx_nil ctx) ErrInvalidInput ;;
  check (Heartbeat_Validate heartbeat) ;;
  ensureActiveLocked now ;;
  s ← get_sess;
  fail_if (negb (matchesIdentity s (Heartbeat.AccountID heartbeat) (Heartbeat.TunnelID heartbeat)
                   (Heartbeat.ConnectorID heartbeat) (Heartbeat.SessionID heartbeat)
                   (Heartbeat.ProcessGeneration heartbeat))) identity_mismatch ;;
  fail_if (After (Heartbeat.SentAt heartbeat) (Add now MaxClockSkew))
    (codeError ErrInvalidInput ReasonMalformed false None) ;;
  fail_if (Before (Heartbeat.SentAt heartbeat) (Add now (- MaxClockSkew)))
    (codeError ErrHeartbeatTimeout ReasonHeartbeatTimeout true None) ;;
  fail_if (negb (IsZero (lastHeartbeatSentAt s))
           && negb (After (Heartbeat.SentAt heartbeat) (lastHeartbeatSentAt s)))
    (codeError ErrStaleSession ReasonStaleGeneration false None) ;;
  match expected_snapshot s with
  | None => throw snapshot_required
  | Some expected =>
      if negb (Heartbeat.LastAppliedGeneration heartbeat =? Snapshot.Generation expected)
         || (Heartbeat.LastAppliedHash heartbeat != Snapshot.ContentHash expected)
      then
        upd_sess (fun s => if hasActive s
                           then s <| needsSnapshot := true |> <| readyGeneration := 0 |>
                                  <| state := SessionAwaitingSnapshot |>
                           else s) ;;
        throw snapshot_required
      else
        let configured := Add now (LeaseDuration (server s)) in
        let leaseExpiry := if Before (AuthResult.CredentialExpiresAt (auth s)) configured
                           then AuthResult.CredentialExpiresAt (auth s) else configured in
        upd_sess (fun s => s <| lastHeartbeatSentAt := Heartbeat.SentAt heartbeat |>
                             <| lastHeartbeat := now |>
                             <| lease := (lease s) <| Lease.ExpiresAt := leaseExpiry |> |>) ;;
        ret (HeartbeatAck.mk (AuthResult.AccountID (auth s)) (SessionRef.TunnelID (ref s))
               (SessionRef.ConnectorID (ref s)) (SessionRef.SessionID (ref s))
               (SessionRef.ProcessGeneration (ref s)) leaseExpiry now)
  end.

(** ** Draining *)

(** [now2] is the second reading of the clock, at the validation of the request. *)
Definition BeginDrain (ctx : Context) (now now2 : time) (drainID : string) (deadline : time)
    (forceAfterDeadline : bool) : Srv Drain :=
  fail_if (ctx_nil ctx) ErrInvalidInput ;;
  match ctx_Err ctx with
  | Some err => throw (codeError ErrCanceled ReasonCanceled true (Some err))
  | None => ret tt
  end ;;
  ensureActiveLocked now ;;
  s ← get_sess;
  fail_if (negb (hasCapability (Welcome.Capabilities (welcome s)) CapabilityDrain))
    (codeError ErrCapabilityMissing ReasonCapabilityMissing false None) ;;
  match drain s with
  | Some d =>
      if Drain.DrainID d == drainID then ret d
      else throw (codeError ErrSessionConflict ReasonStaleGeneration true None)
  | None =>
      fail_if (negb (hasActive s) || needsSnapshot s
               || negb (readyGeneration s =? Snapshot.Generation (active s))
               || (state s != SessionReady)) (codeError ErrNotReady ReasonSnapshotRejected true None) ;;
      let request := Drain.mk (AuthResult.AccountID (auth s)) (SessionRef.TunnelID (ref s))
                       (SessionRef.ConnectorID (ref s)) (SessionRef.SessionID (ref s))
                       (SessionRef.ProcessGeneration (ref s)) drainID (Snapshot.Generation (active s))
                       (Snapshot.ContentHash (active s)) deadline true forceAfterDeadline in
      check (Drain_Validate request now2) ;;
      upd_sess (fun s => s <| drain := Some request |> <| drainStatus := DrainAccepted |>
                           <| drainCode := "" |> <| drainCompleted := false |>
                           <| state := SessionDraining |>) ;;
      ret request
  end.

Definition HandleDrainAck (ctx : Context) (now : time) (ack : DrainAck) : Srv unit :=
  fail_if (ctx_nil ctx) ErrInvalidInput ;;
  match ctx_Err ctx with
  | Some err => throw (codeError ErrCanceled ReasonCanceled true (Some err))
  | None => ret tt
  end ;;
  check (DrainAck_Validate ack) ;;
  ensureActiveLocked now ;;
  s ← get_sess;
  fail_if (negb (matchesIdentity s (DrainAck.AccountID ack) (DrainAck.TunnelID ack)
                   (DrainAck.ConnectorID ack) (DrainAck.SessionID ack)
                   (DrainAck.ProcessGeneration ack))) identity_mismatch ;;
  match drain s with
  | None => throw (codeError ErrStaleSession ReasonStaleGeneration false None)
  | Some d =>
      fail_if (DrainAck.DrainID ack != Drain.DrainID d)
        (codeError ErrStaleSession ReasonStaleGeneration false None) ;;
      fail_if (negb (DrainAck.Generation ack =? Drain.Generation d)
               || (DrainAck.ContentHash ack != Drain.ContentHash d)) content_mismatch ;;
      if drainCompleted s then
        fail_if (negb ((DrainAck.Status ack == drainStatus s) && (DrainAck.Code ack == drainCode s)))
          (codeError ErrStaleGeneration ReasonStaleGeneration false None)
      else
        upd_sess (fun s => s <| drainStatus := DrainAck.Status ack |>
                             <| drainCode := DrainAck.Code ack |>) ;;
        if (DrainAck.Status ack == DrainAccepted) || (DrainAck.Status ack == DrainProgress) then ret tt
        else if (DrainAck.Status ack == DrainCompleted) || (DrainAck.Status ack == DrainForced) then
          upd_sess (fun s => s <| drainCompleted := true |>)
        else if DrainAck.Status ack == DrainRejected then
          upd_sess (fun s => restoreStateLocked (s <| drainCompleted := true |>)) ;;
          throw (codeError ErrDrainRejected ReasonSnapshotRejected false None)
        else throw ErrInvalidInput
  end.

Definition CanPersistNegativeDrainAck (s : ServerSession) (ack : DrainAck) : bool :=
  (DrainAck.Status ack == DrainRejected) && ok (DrainAck_Validate ack)
  && match drain s with
     | None => false
     | Some d =>
         matchesIdentity s (DrainAck.AccountID ack) (DrainAck.TunnelID ack) (DrainAck.ConnectorID ack)
           (DrainAck.SessionID ack) (DrainAck.ProcessGeneration ack)
         && (DrainAck.DrainID ack == Drain.DrainID d)
         && (DrainAck.Generation ack =? Drain.Generation d)
         && (DrainAck.ContentHash ack == Drain.ContentHash d)
     end.

(** ** Renewal

    [RenewBegin] is [Renew] up to the call of the authenticator, where the
    lock is released; [RenewFinish] is the rest.  Other methods may run in
    between. *)
Definition RenewBegin (ctx : Context) (now : time) (request : RenewalRequest)
    : Srv (AuthResult * SessionRef) :=
  fail_if (ctx_nil ctx) ErrInvalidInput ;;
  check (RenewalRequest_ValidateAt request now) ;;
  ensureActiveLocked now ;;
  s ← get_sess;
  let expected := auth s in
  let ref := ref s in
  fail_if ((RenewalRequest.SessionID request != SessionRef.SessionID ref)
           || (RenewalRequest.AccountID request != AuthResult.AccountID expected)
           || (RenewalRequest.TunnelID request != SessionRef.TunnelID ref)
           || (RenewalRequest.ConnectorID request != SessionRef.ConnectorID ref)
           || (RenewalRequest.HostID request != AuthResult.HostID expected)
           || (RenewalRequest.IdentityKeyID request != AuthResult.IdentityKeyID expected)
           || (RenewalRequest.IdentityKeyThumbprint request != AuthResult.IdentityKeyThumbprint expected)
           || negb (RenewalRequest.ProcessGeneration request =? SessionRef.ProcessGeneration ref)
           || negb (RenewalRequest.CredentialGeneration request =? AuthResult.CredentialGeneration expected))
    identity_mismatch ;;
  ret (expected, ref).

Definition renewal_matches (result expected : AuthResult) (ref : SessionRef) : bool :=
  (AuthResult.AccountID result == AuthResult.AccountID expected)
  && (AuthResult.TunnelID result == SessionRef.TunnelID ref)
  && (AuthResult.ConnectorID result == SessionRef.ConnectorID ref)
  && ((AuthResult.SessionID result == "") || (AuthResult.SessionID result == SessionRef.SessionID ref))
  && (AuthResult.HostID result == AuthResult.HostID expected)
  && (AuthResult.IdentityKeyID result == AuthResult.IdentityKeyID expected)
  && (AuthResult.IdentityKeyThumbprint result == AuthResult.IdentityKeyThumbprint expected)
  && (AuthResult.ProcessGeneration result =? SessionRef.ProcessGeneration ref)
  && (AuthResult.CredentialGeneration expected <=? AuthResult.CredentialGeneration result).

(** [now] is the reading at the start of [Renew], [now2] the one after the
    lock is taken again; [reply] is what the authenticator returned. *)
Definition RenewFinish (now now2 : time) (expected : AuthResult) (ref0 : SessionRef)
    (reply : Res AuthResult) : Srv AuthResult :=
  result ← match reply with
           | Err err => throw (codeError ErrCredentialExpired ReasonCredentialExpired true (Some err))
           | Ok result => ret result
           end;
  match AuthResult_Validate result now with
  | Some err => throw (codeError ErrAuthenticationFailed ReasonAuthentication false (Some err))
  | None => fail_if (negb (renewal_matches result expected ref0))
              (codeError ErrAuthenticationFailed ReasonAuthentication false (Some ErrIdentityMismatch))
  end ;;
  ensureActiveLocked now2 ;;
  s ← get_sess;
  fail_if ((auth s != expected) || (ref s != ref0))
    (codeError ErrSessionConflict ReasonStaleGeneration true None) ;;
  let result := result <| AuthResult.SessionID := SessionRef.SessionID ref0 |> in
  let configuredExpiry := Add now (LeaseDuration (server s)) in
  let leaseExpiry := if Before configuredExpiry (AuthResult.LeaseExpiresAt result)
                     then configuredExpiry else AuthResult.LeaseExpiresAt result in
  upd_sess (fun s => s <| auth := result |>
                       <| lease := (lease s) <| Lease.ExpiresAt := leaseExpiry |> |>
                       <| lastHeartbeat := now |>) ;;
  ret result.

(** [Renew] with nothing interleaved. *)
Definition Renew (renew : RenewalRequest -> Res AuthResult) (ctx : Context) (now now2 : time)
    (request : RenewalRequest) : Srv AuthResult :=
  '(expected, ref0) ← RenewBegin ctx now request;
  RenewFinish now now2 expected ref0 (renew request).

(** ** Closing and observing *)

Definition Close (reason : DisconnectReason) : Srv unit :=
  fail_if (negb (validDisconnectReason reason)) ErrInvalidInput ;;
  closeLocked reason.

Definition CheckLease (now : time) : Srv unit := ensureActiveLocked now.

Definition retryable_reason (reason : DisconnectReason) : bool :=
  (reason == ReasonLeaseExpired) || (reason == ReasonHeartbeatTimeout)
  || (reason == ReasonCredentialExpired) || (reason == ReasonSessionReplaced).

Definition Session_Disconnect (s : ServerSession) : Disconnect :=
  let reason := if disconnectReason s == "" then ReasonProtocolClosed else disconnectReason s in
  Disconnect.mk (AuthResult.AccountID (auth s)) (SessionRef.TunnelID (ref s))
    (SessionRef.ConnectorID (ref s)) (SessionRef.SessionID (ref s))
    (SessionRef.ProcessGeneration (ref s)) reason (retryable_reason reason) "".

(** [Current]: the active snapshot, whether it is ready, the ready generation. *)
Definition ServerSession_Current (s : ServerSession) : option (Snapshot * bool * Z) :=
  if negb (hasActive s) then None else
  Some (active s, (state s == SessionReady) && negb (needsSnapshot s)
                  && (readyGeneration s =? Snapshot.Generation (active s)), readyGeneration s).
