(* ===== verification/ServerSafety.v ===== *)
(** * Safety of the server session

    The invariant that every method of [ServerSession] preserves, and the
    theorems that follow from it: only a live session of the current process
    can act, configurations are validated and bound before they are staged and
    staged before they are promoted, leases stay inside the credential. *)

From S2P Require Import Prelude GoText GoHash Errors Canonical Identifiers WireConfig Messages.
From S2P Require Import Registry ServerSession.
Import ServerSession.

(** ** The guard of every method *)

(** What [ensureActiveLocked] establishes at [now]. *)
Definition live (now : time) (st : SrvState) : Prop :=
  let s := sess st in
  state s <> SessionClosed
  /\ registry st !! SessionRef.ConnectorID (ref s) = Some (ref s)
  /\ now < AuthResult.CredentialExpiresAt (auth s)
  /\ now < Lease.ExpiresAt (lease s)
  /\ heartbeat_timed_out s now = false.

(** The state in which a method leaves a session that it closes. *)
Definition closed_by (reason : DisconnectReason) (st : SrvState) : SrvState :=
  mkSrv (snd (Registry_Disconnect (registry st) (ref (sess st)) reason))
    ((sess st) <| state := SessionClosed |> <| disconnectReason := reason |>).

(** The outcomes of a failed [ensureActiveLocked]: the session was closed
    already, or this call closes it for one of four reasons. *)
Inductive rejected (now : time) (st : SrvState) : goerror -> SrvState -> Prop :=
| rejected_closed :
    state (sess st) = SessionClosed ->
    rejected now st (codeError ErrSessionClosed (disconnectReason (sess st)) false None) st
| rejected_now base reason retryable :
    state (sess st) <> SessionClosed ->
    (base, reason) ∈ [(ErrStaleSession, ReasonSessionReplaced);
                      (ErrCredentialExpired, ReasonCredentialExpired);
                      (ErrLeaseExpired, ReasonLeaseExpired);
                      (ErrHeartbeatTimeout, ReasonHeartbeatTimeout)] ->
    rejected now st (codeError base reason retryable None) (closed_by reason st).

Lemma closeLocked_open reason st :
  state (sess st) <> SessionClosed -> closeLocked reason st = (Ok tt, closed_by reason st).
Proof.
  intros H. unfold closeLocked, closed_by. rewrite mbind_unfold. simpl.
  by rewrite bool_decide_eq_false_2.
Qed.

Lemma closeLocked_closed reason st :
  state (sess st) = SessionClosed -> closeLocked reason st = (Ok tt, st).
Proof.
  intros H. unfold closeLocked. rewrite mbind_unfold. simpl. by rewrite bool_decide_eq_true_2.
Qed.

Lemma Active_Some r c x : Active r c = Some x -> r !! c = Some x.
Proof. unfold Active. by destruct (ok _). Qed.

Lemma wp_ensureActive now st (Q : result goerror unit -> SrvState -> Prop) :
  (live now st -> Q (Ok tt) st) ->
  (forall e st', rejected now st e st' -> Q (Err e) st') ->
  wp (ensureActiveLocked now) Q st.
Proof.
  intros Hok Herr. unfold ensureActiveLocked.
  repeat wp_step; simpl; bool_prop; try (by apply Herr; constructor).
  all: try match goal with
    | |- wp (closeLocked _) _ _ =>
        unfold wp; rewrite closeLocked_open by done; simpl; apply Herr;
        econstructor 2; [done|set_solver]
    end.
  apply Hok. unfold live. split_and!; try done; unfold After in *; bool_prop;
    [by apply Active_Some|lia|lia].
Qed.

Lemma wp_get_sess (Q : result goerror ServerSession -> SrvState -> Prop) st :
  Q (Ok (sess st)) st -> wp get_sess Q st.
Proof. done. Qed.
Lemma wp_upd_sess f (Q : result goerror unit -> SrvState -> Prop) st :
  Q (Ok tt) (mkSrv (registry st) (f (sess st))) -> wp (upd_sess f) Q st.
Proof. done. Qed.

Ltac srv_step :=
  lazymatch goal with
  | |- wp get_sess _ _ => apply wp_get_sess
  | |- wp (upd_sess _) _ _ => apply wp_upd_sess
  | |- wp (ensureActiveLocked _) _ _ =>
      apply wp_ensureActive; [intros Hlive|intros ? ? Hrejected]
  | |- _ => wp_step
  end.
Ltac srv_run := repeat (srv_step; cbv beta iota zeta).

(** ** The methods as one type of calls *)

Inductive Call :=
| CallHandleAck (ctx : Context) (now : time) (ack : Ack)
| CallHandleReadiness (ctx : Context) (now : time) (readiness : Readiness)
| CallOfferSnapshot (ctx : Context) (now : time) (snapshot : Snapshot)
| CallOfferDelta (ctx : Context) (now : time) (delta : Delta)
| CallHandleHeartbeat (ctx : Context) (now : time) (heartbeat : Heartbeat)
| CallBeginDrain (ctx : Context) (now now2 : time) (drainID : string) (deadline : time) (force : bool)
| CallHandleDrainAck (ctx : Context) (now : time) (ack : DrainAck)
| CallRenewBegin (ctx : Context) (now : time) (request : RenewalRequest)
| CallRenewFinish (now now2 : time) (expected : AuthResult) (ref : SessionRef) (reply : Res AuthResult)
| CallClose (reason : DisconnectReason)
| CallCheckLease (now : time).

Definition void {A} (m : Srv A) : Srv unit := m ;; ret tt.

Definition exec (c : Call) : Srv unit :=
  match c with
  | CallHandleAck ctx now ack => HandleAck ctx now ack
  | CallHandleReadiness ctx now r => void (HandleReadiness ctx now r)
  | CallOfferSnapshot ctx now s => OfferSnapshot ctx now s
  | CallOfferDelta ctx now d => OfferDelta ctx now d
  | CallHandleHeartbeat ctx now h => void (HandleHeartbeat ctx now h)
  | CallBeginDrain ctx now now2 i d f => void (BeginDrain ctx now now2 i d f)
  | CallHandleDrainAck ctx now a => HandleDrainAck ctx now a
  | CallRenewBegin ctx now r => void (RenewBegin ctx now r)
  | CallRenewFinish now now2 e r reply => void (RenewFinish now now2 e r reply)
  | CallClose reason => Close reason
  | CallCheckLease now => CheckLease now
  end.

(** The clock reading at which a call checks that the session is live. *)
Definition call_now (c : Call) : option time :=
  match c with
  | CallHandleAck _ now _ | CallHandleReadiness _ now _ | CallOfferSnapshot _ now _
  | CallOfferDelta _ now _ | CallHandleHeartbeat _ now _ | CallBeginDrain _ now _ _ _ _
  | CallHandleDrainAck _ now _ | CallRenewBegin _ now _ | CallCheckLease now => Some now
  | CallRenewFinish _ now2 _ _ _ => Some now2
  | CallClose _ => None
  end.

Ltac unfold_call c := destruct c; unfold exec, void, HandleAck, HandleReadiness, OfferSnapshot,
  OfferDelta, HandleHeartbeat, BeginDrain, HandleDrainAck, RenewBegin, RenewFinish, Close, CheckLease.

Lemma exec_requires_live c now st st' :
  call_now c = Some now -> exec c st = (Ok tt, st') -> live now st.
Proof.
  intros Hnow Hexec.
  assert (wp (exec c) (fun r _ => r = Ok tt -> live now st) st) as Hwp.
  2: { unfold wp in Hwp. rewrite Hexec in Hwp. by apply Hwp. }
  clear Hexec. revert Hnow. unfold_call c; simpl; intros [= ->]; srv_run; try done.
Qed.

(** ** The session invariant *)

(** The identity envelope of a configuration is that of the session. *)
Definition bound_to (s : ServerSession) (x : Snapshot) : Prop :=
  Snapshot.AccountID x = AuthResult.AccountID (auth s)
  /\ Snapshot.TunnelID x = SessionRef.TunnelID (ref s)
  /\ Snapshot.ConnectorID x = SessionRef.ConnectorID (ref s)
  /\ Snapshot.SessionID x = SessionRef.SessionID (ref s)
  /\ Snapshot.ProcessGeneration x = SessionRef.ProcessGeneration (ref s).

Definition delta_bound (s : ServerSession) (d : Delta) : Prop :=
  Delta.AccountID d = AuthResult.AccountID (auth s)
  /\ Delta.ConnectorID d = SessionRef.ConnectorID (ref s)
  /\ Delta.SessionID d = SessionRef.SessionID (ref s)
  /\ Delta.ProcessGeneration d = SessionRef.ProcessGeneration (ref s).

(** A configuration that may be staged or active. *)
Definition config_valid (s : ServerSession) (x : Snapshot) : Prop :=
  Snapshot_ValidateBound x = None /\ bound_to s x.

Record server_inv (s : ServerSession) : Prop := {
  inv_ids : ids_ok [AuthResult.AccountID (auth s); SessionRef.TunnelID (ref s);
                    SessionRef.ConnectorID (ref s); SessionRef.SessionID (ref s)] = true;
  inv_generation : SessionRef.ProcessGeneration (ref s) <> 0;
  inv_pending : forall p, pendingSnapshot s = Some p -> config_valid s p;
  inv_candidate : hasCandidate s = true -> config_valid s (candidate s);
  inv_active : hasActive s = true -> config_valid s (active s);
  inv_delta : forall d, pendingDelta s = Some d ->
    pendingSnapshot s = None /\ hasCandidate s = false /\ hasActive s = true
    /\ Delta_Validate d = None /\ Delta.TunnelID d = SessionRef.TunnelID (ref s)
    /\ Delta.PreviousGeneration d = Snapshot.Generation (active s)
    /\ Delta.PreviousContentHash d = Snapshot.ContentHash (active s)
    /\ delta_bound s d;
  inv_ready : state s = SessionReady ->
    hasActive s = true /\ readyGeneration s = Snapshot.Generation (active s)
    /\ needsSnapshot s = false;
  inv_draining : state s = SessionDraining -> drain s <> None;
  inv_lease : Lease.ExpiresAt (lease s) <= AuthResult.CredentialExpiresAt (auth s);
}.

(** *** Validation is stable under binding *)

Lemma ids_ok_cons i l : ids_ok (i :: l) = true <-> ValidateIdentifier i = None /\ ids_ok l = true.
Proof. unfold ids_ok. simpl. rewrite andb_true_iff. by rewrite ok_None. Qed.

Lemma optional_id_ok x :
  (x != "") && negb (ok (ValidateIdentifier x)) = false <-> x = "" \/ ValidateIdentifier x = None.
Proof.
  rewrite andb_false_iff, !negb_false_iff, bool_decide_eq_true, ok_None. done.
Qed.

Lemma Snapshot_Validate_None s :
  Snapshot_Validate s = None <->
  ValidateIdentifier (Snapshot.TunnelID s) = None
  /\ (Snapshot.AccountID s = "" \/ ValidateIdentifier (Snapshot.AccountID s) = None)
  /\ (Snapshot.SessionID s = "" \/ ValidateIdentifier (Snapshot.SessionID s) = None)
  /\ Snapshot.Generation s <> 0 /\ hashPattern (Snapshot.ContentHash s) = true
  /\ 0 < slen (Snapshot.Payload s) <= MaxSnapshotBytes
  /\ canonicalJSON (Snapshot.Payload s) MaxSnapshotBytes = Ok (Snapshot.Payload s)
  /\ Snapshot.ContentHash s = content_hash (Snapshot.Payload s)
  /\ validateConfigSnapshotPayload (Snapshot.Payload s) (Snapshot.TunnelID s)
       (Snapshot.Generation s) = None.
Proof.
  unfold Snapshot_Validate. split.
  - intros H. repeat case_match; simplify_eq; bool_prop; subst.
    pose proof (slen_nonneg (Snapshot.Payload s)).
    split_and!; try done; try lia; try (by apply ok_None); try congruence;
      by apply optional_id_ok.
  - intros (Ht & Ha & Hi & Hg & Hh & Hl & Hc & He & Hv).
    rewrite Ht, Hc, Hv. simpl.
    rewrite (proj2 (Z.eqb_neq _ _) Hg), Hh. simpl.
    rewrite (proj2 (Z.eqb_neq (slen (Snapshot.Payload s)) 0)) by lia.
    rewrite (proj2 (Z.ltb_ge MaxSnapshotBytes _)) by lia.
    rewrite (bool_decide_eq_true_2 (Snapshot.Payload s = Snapshot.Payload s)) by done.
    rewrite (bool_decide_eq_true_2 (Snapshot.ContentHash s = _)) by done.
    destruct Ha as [->| ->], Hi as [->| ->]; simpl; rewrite ?andb_false_r; done.
Qed.

Lemma Snapshot_ValidateBound_None s :
  Snapshot_ValidateBound s = None <->
  ids_ok [Snapshot.AccountID s; Snapshot.ConnectorID s; Snapshot.SessionID s] = true
  /\ Snapshot.ProcessGeneration s <> 0 /\ Snapshot_Validate s = None.
Proof.
  unfold Snapshot_ValidateBound. split.
  - intros H. case_match; [done|]. bool_prop. done.
  - intros (Hi & Hg & Hv). rewrite Hi, (proj2 (Z.eqb_neq _ _) Hg). done.
Qed.

Lemma bindSnapshot_config_valid s x :
  ids_ok [AuthResult.AccountID (auth s); SessionRef.TunnelID (ref s);
          SessionRef.ConnectorID (ref s); SessionRef.SessionID (ref s)] = true ->
  SessionRef.ProcessGeneration (ref s) <> 0 ->
  Snapshot_Validate x = None -> Snapshot.TunnelID x = SessionRef.TunnelID (ref s) ->
  config_valid s (bindSnapshot x (AuthResult.AccountID (auth s)) (SessionRef.ConnectorID (ref s))
                    (SessionRef.SessionID (ref s)) (SessionRef.ProcessGeneration (ref s))).
Proof.
  rewrite !ids_ok_cons. intros (Ha & Ht & Hc & Hi & _) Hg Hv Htun.
  split; [|by repeat split].
  apply Snapshot_ValidateBound_None. rewrite !ids_ok_cons. cbn.
  apply Snapshot_Validate_None in Hv. split_and!; try done.
  apply Snapshot_Validate_None. cbn. intuition.
Qed.

Lemma bindDelta_valid d a c i g :
  Delta_Validate d = None -> ValidateIdentifier a = None -> ValidateIdentifier i = None ->
  Delta_Validate (bindDelta d a c i g) = None.
Proof.
  unfold Delta_Validate. cbn. intros H Ha Hi. rewrite Ha, Hi. simpl. rewrite !andb_false_r.
  case_match eqn:Hc; [done|]. bool_prop.
  repeat match goal with H : _ = true |- _ => rewrite H; clear H end.
  rewrite (proj2 (Z.eqb_neq _ _)) by done. rewrite (proj2 (Z.ltb_ge _ _)) by done. exact H.
Qed.

Lemma canonicalJSON_limit data limit limit' out :
  limit <= limit' -> canonicalJSON data limit = Ok out -> canonicalJSON data limit' = Ok out.
Proof.
  unfold canonicalJSON. intros Hle H. case_match eqn:Hg; [done|]. bool_prop.
  rewrite (proj2 (Z.ltb_ge limit' (slen data))) by lia.
  rewrite (proj2 (Z.eqb_neq (slen data) 0)) by done.
  match goal with H : rejectDuplicateKeys data = true |- _ => rewrite H end. simpl.
  repeat case_match; simplify_eq; bool_prop; try done; lia.
Qed.

(** An acknowledged delta stages a configuration that passes full validation. *)
Lemma delta_config_valid s d :
  ids_ok [AuthResult.AccountID (auth s); SessionRef.TunnelID (ref s);
          SessionRef.ConnectorID (ref s); SessionRef.SessionID (ref s)] = true ->
  SessionRef.ProcessGeneration (ref s) <> 0 ->
  Delta_Validate d = None -> Delta.TunnelID d = SessionRef.TunnelID (ref s) ->
  Delta.Generation d <> 0 ->
  config_valid s (Snapshot.mk (AuthResult.AccountID (auth s)) (Delta.TunnelID d)
    (SessionRef.ConnectorID (ref s)) (SessionRef.SessionID (ref s))
    (SessionRef.ProcessGeneration (ref s)) (Delta.Generation d) (Delta.ContentHash d)
    (Delta.Payload d)).
Proof.
  rewrite !ids_ok_cons. intros (Ha & Ht & Hc & Hi & _) Hg Hv Htun Hgen.
  split; [|by repeat split].
  apply Snapshot_ValidateBound_None. rewrite !ids_ok_cons. cbn. split_and!; try done.
  apply Snapshot_Validate_None. cbn.
  unfold Delta_Validate in Hv. repeat case_match; simplify_eq; bool_prop; subst.
  pose proof (slen_nonneg (Delta.Payload d)).
  assert (MaxDeltaBytes <= MaxSnapshotBytes) by (vm_compute; done).
  split_and!; try done; try lia; try (by right); try congruence.
  eapply canonicalJSON_limit; [|done]. done.
Qed.

Lemma closed_by_inv reason st : server_inv (sess st) -> server_inv (sess (closed_by reason st)).
Proof. intros []. constructor; cbn; try done. Qed.

Lemma rejected_inv now st e st' :
  server_inv (sess st) -> rejected now st e st' -> server_inv (sess st').
Proof. intros Hinv []; [done|by apply closed_by_inv]. Qed.

Lemma restoreStateLocked_inv s :
  server_inv s -> server_inv (restoreStateLocked s).
Proof.
  intros []. unfold restoreStateLocked. case_match; bool_prop; constructor; cbn; try done.
Qed.

(** Acknowledging a pending snapshot stages it. *)
Lemma stage_pending_inv s p :
  server_inv s -> pendingSnapshot s = Some p ->
  server_inv (let s := s <| candidate := cloneSnapshot p |> <| hasCandidate := true |>
                         <| pendingSnapshot := None |> <| needsSnapshot := false |> in
              if hasActive s && (readyGeneration s =? Snapshot.Generation (active s)) then s
              else s <| state := SessionAwaitingReady |>).
Proof.
  intros [] Hp. assert (pendingDelta s = None) as Hd.
  { destruct (pendingDelta s) as [d|] eqn:E; [|done]. destruct (inv_delta0 d eq_refl) as (? & _).
    congruence. }
  simpl. case_match; constructor; cbn; try done; try (intros; congruence).
  - intros _. by apply inv_pending0.
  - intros Hs. destruct (inv_ready0 Hs) as (? & ? & ?). done.
  - intros _. by apply inv_pending0.
Qed.

(** Acknowledging a pending delta stages the configuration it carries. *)
Lemma stage_delta_inv s d :
  server_inv s -> pendingDelta s = Some d -> Delta.Generation d <> 0 ->
  server_inv (let s := s <| pendingDelta := None |> in
              let s := s <| candidate := Snapshot.mk (AuthResult.AccountID (auth s)) (Delta.TunnelID d)
                           (SessionRef.ConnectorID (ref s)) (SessionRef.SessionID (ref s))
                           (SessionRef.ProcessGeneration (ref s)) (Delta.Generation d)
                           (Delta.ContentHash d) (Delta.Payload d) |> <| hasCandidate := true |> in
              if hasActive s && (readyGeneration s =? Snapshot.Generation (active s)) then s
              else s <| state := SessionAwaitingReady |>).
Proof.
  intros [] Hd Hg. destruct (inv_delta0 d Hd) as (Hp & Hc & Ha & Hv & Ht & _).
  pose proof (delta_config_valid s d inv_ids0 inv_generation0 Hv Ht Hg).
  simpl. case_match; constructor; cbn; try done; try (intros; congruence).
Qed.

(** A failed offer or acknowledgement withdraws readiness. *)
Lemma need_snapshot_inv s :
  server_inv s ->
  server_inv (restoreStateLocked (s <| pendingSnapshot := None |> <| needsSnapshot := true |>)).
Proof.
  intros []. unfold restoreStateLocked. cbn. rewrite andb_false_r. simpl.
  constructor; cbn; try done. intros d Hd. by destruct (inv_delta0 d Hd) as (? & ? & ? & ? & ?).
Qed.

Lemma delta_refused_inv s :
  server_inv s ->
  server_inv (restoreStateLocked (s <| pendingDelta := None |> <| needsSnapshot := true |>)).
Proof.
  intros []. unfold restoreStateLocked. cbn. rewrite andb_false_r. simpl.
  constructor; cbn; try done.
Qed.

Lemma drop_delta_inv s : server_inv s -> server_inv (s <| pendingDelta := None |>).
Proof. intros []. constructor; cbn; done. Qed.

Lemma Ack_Validate_generation a : Ack_Validate a = None -> Ack.Generation a <> 0.
Proof. unfold Ack_Validate. intros. repeat case_match; simplify_eq; bool_prop; done. Qed.

Lemma HandleAck_inv ctx now ack st :
  server_inv (sess st) -> server_inv (sess (snd (HandleAck ctx now ack st))).
Proof.
  intros Hinv. change (wp (HandleAck ctx now ack) (fun _ st' => server_inv (sess st')) st).
  unfold HandleAck. srv_run; cbn [sess registry]; try done; try (by eapply rejected_inv).
  all: bool_prop; try (by apply need_snapshot_inv); try (by apply stage_pending_inv);
    try (by apply delta_refused_inv); try (by apply drop_delta_inv).
  apply stage_delta_inv; try done.
  match goal with H : Ack_Validate _ = None |- _ => apply Ack_Validate_generation in H; congruence end.
Qed.

(** Promotion: the staged candidate, when there is one, becomes active. *)
Definition promote (s : ServerSession) (generation : Z) : ServerSession :=
  let s := if hasCandidate s
           then s <| active := cloneSnapshot (candidate s) |> <| hasActive := true |>
                  <| candidate := Snapshot.zero |> <| hasCandidate := false |>
           else s in
  s <| needsSnapshot := false |> <| readyGeneration := generation |> <| state := SessionReady |>.

Lemma promote_inv s g :
  server_inv s ->
  g = Snapshot.Generation (if hasCandidate s then candidate s else active s) ->
  (hasCandidate s = false -> hasActive s = true) -> server_inv (promote s g).
Proof.
  intros Hinv Hg Ha. subst g. unfold promote. destruct (hasCandidate s) eqn:Hc; destruct Hinv;
    constructor; cbn; try done.
  - intros _. by apply inv_candidate0.
  - intros d Hd. destruct (inv_delta0 d Hd) as (? & ? & ?). congruence.
  - intros _. split; [by apply Ha|done].
Qed.

Lemma HandleReadiness_inv ctx now r st :
  server_inv (sess st) -> server_inv (sess (snd (HandleReadiness ctx now r st))).
Proof.
  intros Hinv. change (wp (HandleReadiness ctx now r) (fun _ st' => server_inv (sess st')) st).
  unfold HandleReadiness. srv_run; cbn [sess registry]; try done; try (by eapply rejected_inv).
  all: apply (promote_inv _ (Readiness.Generation r)); try done.
  all: match goal with H : (if hasCandidate _ then _ else _) = false |- _ => revert H end;
    destruct (hasCandidate (sess st)); intros; bool_prop; done.
Qed.

Lemma OfferSnapshot_inv ctx now x st :
  server_inv (sess st) -> server_inv (sess (snd (OfferSnapshot ctx now x st))).
Proof.
  intros Hinv. change (wp (OfferSnapshot ctx now x) (fun _ st' => server_inv (sess st')) st).
  unfold OfferSnapshot. srv_run; cbn [sess registry]; try done; try (by eapply rejected_inv).
  bool_prop.
  match goal with H : Snapshot_Validate x = None |- _ =>
    pose proof (bindSnapshot_config_valid (sess st) x (inv_ids _ Hinv) (inv_generation _ Hinv) H
                  ltac:(congruence)) as Hb end.
  cbn. destruct (hasActive (sess st)) eqn:Ha; destruct Hinv; constructor; cbn; try done;
    try (intros; congruence); intros p [= <-]; exact Hb.
Qed.

Lemma OfferDelta_inv ctx now d st :
  server_inv (sess st) -> server_inv (sess (snd (OfferDelta ctx now d st))).
Proof.
  intros Hinv. change (wp (OfferDelta ctx now d) (fun _ st' => server_inv (sess st')) st).
  unfold OfferDelta. srv_run; cbn [sess registry]; try done; try (by eapply rejected_inv).
  bool_prop. destruct Hinv. constructor; cbn; try done.
  intros d' [= <-]. cbn. destruct (pendingSnapshot (sess st)); [done|]. split_and!; try done.
  rewrite !ids_ok_cons in inv_ids0. destruct_and!. by apply bindDelta_valid.
Qed.

Lemma HandleHeartbeat_inv ctx now h st :
  server_inv (sess st) -> server_inv (sess (snd (HandleHeartbeat ctx now h st))).
Proof.
  intros Hinv. change (wp (HandleHeartbeat ctx now h) (fun _ st' => server_inv (sess st')) st).
  unfold HandleHeartbeat. srv_run; cbn [sess registry]; try done; try (by eapply rejected_inv).
  - cbn. destruct (hasActive (sess st)) eqn:Ha; [|done]. destruct Hinv. constructor; cbn; done.
  - destruct Hinv. constructor; cbn; try done.
    unfold Before. destruct (_ <? _) eqn:?; bool_prop; lia.
Qed.

Lemma BeginDrain_inv ctx now now2 i d f st :
  server_inv (sess st) -> server_inv (sess (snd (BeginDrain ctx now now2 i d f st))).
Proof.
  intros Hinv. change (wp (BeginDrain ctx now now2 i d f) (fun _ st' => server_inv (sess st')) st).
  unfold BeginDrain. srv_run; cbn [sess registry]; try done; try (by eapply rejected_inv).
  destruct Hinv. constructor; cbn; done.
Qed.

Lemma HandleDrainAck_inv ctx now a st :
  server_inv (sess st) -> server_inv (sess (snd (HandleDrainAck ctx now a st))).
Proof.
  intros Hinv. change (wp (HandleDrainAck ctx now a) (fun _ st' => server_inv (sess st')) st).
  unfold HandleDrainAck. srv_run; cbn [sess registry]; try done; try (by eapply rejected_inv).
  all: try apply restoreStateLocked_inv; destruct Hinv; constructor; cbn; done.
Qed.

Lemma RenewBegin_inv ctx now r st :
  server_inv (sess st) -> server_inv (sess (snd (RenewBegin ctx now r st))).
Proof.
  intros Hinv. change (wp (RenewBegin ctx now r) (fun _ st' => server_inv (sess st')) st).
  unfold RenewBegin. srv_run; cbn [sess registry]; try done; by eapply rejected_inv.
Qed.

Lemma AuthResult_Validate_lease a now :
  AuthResult_Validate a now = None -> AuthResult.LeaseExpiresAt a <= AuthResult.CredentialExpiresAt a.
Proof.
  unfold AuthResult_Validate, After. intros. repeat case_match; simplify_eq; bool_prop; lia.
Qed.

Lemma renewal_matches_account result expected r :
  renewal_matches result expected r = true ->
  AuthResult.AccountID result = AuthResult.AccountID expected.
Proof. unfold renewal_matches. intros. by bool_prop. Qed.

Lemma RenewFinish_inv now now2 e r reply st :
  server_inv (sess st) -> server_inv (sess (snd (RenewFinish now now2 e r reply st))).
Proof.
  intros Hinv. change (wp (RenewFinish now now2 e r reply) (fun _ st' => server_inv (sess st')) st).
  unfold RenewFinish. srv_run; cbn [sess registry]; try done; try (by eapply rejected_inv).
  bool_prop. subst.
  match goal with H : renewal_matches _ _ _ = true |- _ => apply renewal_matches_account in H as Hacc end.
  match goal with H : AuthResult_Validate _ _ = None |- _ => apply AuthResult_Validate_lease in H as Hl end.
  destruct Hinv. constructor; unfold config_valid, bound_to, delta_bound in *; cbn; rewrite ?Hacc; try done.
  unfold Before. destruct (_ <? _) eqn:?; bool_prop; lia.
Qed.

Lemma Close_inv reason st :
  server_inv (sess st) -> server_inv (sess (snd (Close reason st))).
Proof.
  intros Hinv. change (wp (Close reason) (fun _ st' => server_inv (sess st')) st).
  unfold Close. srv_run; cbn [sess]; try done.
  unfold wp. destruct (decide (state (sess st) = SessionClosed)).
  - by rewrite closeLocked_closed.
  - rewrite closeLocked_open by done. by apply closed_by_inv.
Qed.

Lemma snd_void {A} (m : Srv A) st : snd (void m st) = snd (m st).
Proof. unfold void. rewrite mbind_unfold. by destruct (m st) as [[a|e] s']. Qed.

Lemma exec_inv c st :
  server_inv (sess st) -> server_inv (sess (snd (exec c st))).
Proof.
  intros Hinv. destruct c; unfold exec; rewrite ?snd_void;
    auto using HandleAck_inv, HandleReadiness_inv, OfferSnapshot_inv, OfferDelta_inv,
      HandleHeartbeat_inv, BeginDrain_inv, HandleDrainAck_inv, RenewBegin_inv, RenewFinish_inv,
      Close_inv.
  change (wp (CheckLease now) (fun _ st' => server_inv (sess st')) st).
  unfold CheckLease. srv_run; [done|by eapply rejected_inv].
Qed.

(** ** Frame properties of every call *)

(** What a call can do to the parts of the state that it shares or never
    writes: the reference and the server are fixed, and the registry is either
    untouched or loses exactly this session's own entry while the session
    closes. *)
Definition frame (st st' : SrvState) : Prop :=
  ref (sess st') = ref (sess st) /\ server (sess st') = server (sess st)
  /\ (registry st' = registry st
      \/ (state (sess st') = SessionClosed
          /\ exists reason, registry st' = snd (Registry_Disconnect (registry st) (ref (sess st)) reason)))
  /\ (state (sess st) = SessionClosed -> st' = st)
  /\ (state (sess st') = SessionClosed -> state (sess st) <> SessionClosed ->
      exists reason, validDisconnectReason reason = true /\ st' = closed_by reason st).

Lemma frame_refl st : frame st st.
Proof. unfold frame. split_and!; auto. done. Qed.

Lemma rejected_frame now st e st' : rejected now st e st' -> frame st st'.
Proof.
  intros [|base reason ? Hopen Hin]; [apply frame_refl|]. unfold frame.
  split_and!; try done.
  - right. eauto.
  - intros _ _. exists reason. split; [|done]. set_unfold in Hin.
    destruct_or?; simplify_eq; try done; reflexivity.
Qed.

Lemma frame_open st s' :
  state (sess st) <> SessionClosed -> ref s' = ref (sess st) -> server s' = server (sess st) ->
  state s' <> SessionClosed -> frame st (mkSrv (registry st) s').
Proof. unfold frame. intros. split_and!; cbn; auto; done. Qed.

Lemma exec_frame c st : frame st (snd (exec c st)).
Proof.
  change (wp (exec c) (fun _ st' => frame st st') st).
  unfold_call c; srv_run; cbn [sess registry]; try apply frame_refl; try (by eapply rejected_frame).
  all: try (destruct Hlive as (Hopen & _); apply frame_open; unfold restoreStateLocked; cbn;
            repeat match goal with |- context [if ?b then _ else _] => destruct b end; done).
  (* Close *)
  unfold wp. destruct (decide (state (sess st) = SessionClosed)).
  - rewrite closeLocked_closed by done. apply frame_refl.
  - rewrite closeLocked_open by done. unfold frame. cbn. split_and!; try done; eauto.
    bool_prop. eauto.
Qed.

(** A closed server session never changes again: every method leaves the session and the
    registry as they are, and every method but Close returns an error. *)
Theorem closed_session_is_final c st :
  state (sess st) = SessionClosed ->
  snd (exec c st) = st
  /\ (forall now, call_now c = Some now -> exists e, fst (exec c st) = Err e).
Proof.
  intros Hc. pose proof (exec_frame c st) as (_ & _ & _ & Hfix & _). split; [by apply Hfix|].
  intros now Hnow. destruct (exec c st) as [[[]|e] st'] eqn:He; [|eauto].
  destruct (exec_requires_live c now st st' Hnow He) as [? _]. done.
Qed.

(** A session that is not its connector's entry can do nothing. *)
Lemma superseded_call c st :
  registry st !! SessionRef.ConnectorID (ref (sess st)) <> Some (ref (sess st)) ->
  registry (snd (exec c st)) = registry st
  /\ (forall now, call_now c = Some now -> exists e, fst (exec c st) = Err e).
Proof.
  intros Hnot. split.
  - pose proof (exec_frame c st) as (_ & _ & [Hr|[_ [reason Hr]]] & _); [done|].
    destruct (Disconnect_cases (registry st) (ref (sess st)) reason) as [Hd|[Hd _]]; [|done].
    by rewrite Hr.
  - intros now Hnow. destruct (exec c st) as [[[]|e] st'] eqn:He; [|eauto].
    destruct (exec_requires_live c now st st' Hnow He) as (_ & ? & _). done.
Qed.

(** C2. Once the registry's entry for the connector is no longer the session's own reference (a
    newer process attached), every method of the session that checks liveness returns an error,
    and no method, Close included, changes the registry, so the newer session's entry is never
    removed by the older one. *)
Theorem superseded_session_is_fenced c st :
  registry st !! SessionRef.ConnectorID (ref (sess st)) <> Some (ref (sess st)) ->
  registry (snd (exec c st)) = registry st
  /\ (forall now, call_now c = Some now -> exists e, fst (exec c st) = Err e).
Proof. apply superseded_call. Qed.
