(* ===== verification/ServerConfigFlow.v ===== *)
(** * How configurations move through a server session

    Offered, acknowledged, staged, promoted: which call may change the staged
    and the active configuration, and why the active generation never goes
    back. *)

From S2P Require Import Prelude GoText GoHash GoJson Errors Canonical Identifiers WireConfig.
From S2P Require Import Messages Registry ServerSession ServerSafety.
Import ServerSession.

(** ** Who may change the active configuration *)

Definition same_active (s s' : ServerSession) : Prop :=
  active s' = active s /\ hasActive s' = hasActive s.

Lemma rejected_sess now st e st' :
  rejected now st e st' ->
  sess st' = sess st
  \/ exists reason, sess st' = (sess st) <| state := SessionClosed |> <| disconnectReason := reason |>.
Proof. intros []; [by left|right; eauto]. Qed.

Lemma rejected_same_active now st e st' : rejected now st e st' -> same_active (sess st) (sess st').
Proof. intros H. by destruct (rejected_sess _ _ _ _ H) as [->|[? ->]]. Qed.

Definition is_readiness (c : Call) : bool :=
  match c with CallHandleReadiness _ _ _ => true | _ => false end.

Lemma closeLocked_sess reason st :
  sess (snd (closeLocked reason st)) = sess st
  \/ sess (snd (closeLocked reason st))
     = (sess st) <| state := SessionClosed |> <| disconnectReason := reason |>.
Proof.
  destruct (decide (state (sess st) = SessionClosed)).
  - rewrite closeLocked_closed by done. by left.
  - rewrite closeLocked_open by done. by right.
Qed.

(** Run a call on every path and reduce each final session to an update of the
    initial one: a rejected call and [closeLocked] leave it as it was or
    closed, and the conditional updates are split. *)
Ltac session_cases :=
  srv_run; cbn [sess registry];
  try match goal with H : rejected _ _ _ _ |- _ =>
        let E := fresh in
        pose proof (rejected_sess _ _ _ _ H) as [E|[? E]]; rewrite E; clear E end;
  try match goal with |- wp (closeLocked ?reason) _ ?st =>
        unfold wp; let E := fresh in
        pose proof (closeLocked_sess reason st) as [E|E]; rewrite E; clear E end;
  unfold restoreStateLocked; cbn;
  repeat match goal with |- context [if ?b then _ else _] => destruct b eqn:? end; cbn.

Lemma other_calls_keep_active c st :
  is_readiness c = false -> same_active (sess st) (sess (snd (exec c st))).
Proof.
  intros Hc. change (wp (exec c) (fun _ st' => same_active (sess st) (sess st')) st).
  revert Hc. unfold_call c; intros Hc; try done; session_cases; split; cbn; congruence.
Qed.

(** The effect of a readiness report on the session, on every branch. *)
Lemma HandleReadiness_cases ctx now r st :
  let s := sess st in
  let '(res, st') := HandleReadiness ctx now r st in
  match res with
  | Err _ => same_active s (sess st')
  | Ok _ =>
      let target := if hasCandidate s then candidate s else active s in
      Readiness.EdgeReady r = true /\ Readiness.RouteReady r = true /\ Readiness.OriginReady r = true
      /\ (hasCandidate s = true \/ hasActive s = true)
      /\ Readiness.Generation r = Snapshot.Generation target
      /\ Readiness.ContentHash r = Snapshot.ContentHash target
      /\ sess st' = promote s (Readiness.Generation r)
  end.
Proof.
  simpl. destruct (HandleReadiness ctx now r st) as [res st'] eqn:He.
  assert (wp (HandleReadiness ctx now r) (fun res st' => match res with
    | Err _ => same_active (sess st) (sess st')
    | Ok _ => let target := if hasCandidate (sess st) then candidate (sess st) else active (sess st) in
      Readiness.EdgeReady r = true /\ Readiness.RouteReady r = true /\ Readiness.OriginReady r = true
      /\ (hasCandidate (sess st) = true \/ hasActive (sess st) = true)
      /\ Readiness.Generation r = Snapshot.Generation target
      /\ Readiness.ContentHash r = Snapshot.ContentHash target
      /\ sess st' = promote (sess st) (Readiness.Generation r) end) st) as Hwp.
  2: { unfold wp in Hwp. by rewrite He in Hwp. }
  clear He. unfold HandleReadiness. srv_run; cbn [sess registry]; try done;
    try (by eapply rejected_same_active).
  bool_prop. revert H1. destruct (hasCandidate (sess st)) eqn:Hc; intros; bool_prop; split_and!; auto;
    unfold promote; by rewrite Hc.
Qed.

(** C3. The only call that can change the server's active configuration is HandleReadiness with
    edge, route and origin ready, for the generation and content hash of the candidate that is
    staged; the candidate then becomes active and the session is ready. *)
Theorem active_changes_only_by_promotion c st :
  ~ same_active (sess st) (sess (snd (exec c st))) ->
  exists ctx now r,
    c = CallHandleReadiness ctx now r
    /\ Readiness.EdgeReady r = true /\ Readiness.RouteReady r = true /\ Readiness.OriginReady r = true
    /\ hasCandidate (sess st) = true
    /\ Readiness.Generation r = Snapshot.Generation (candidate (sess st))
    /\ Readiness.ContentHash r = Snapshot.ContentHash (candidate (sess st))
    /\ active (sess (snd (exec c st))) = candidate (sess st)
    /\ state (sess (snd (exec c st))) = SessionReady.
Proof.
  intros Hne. destruct (is_readiness c) eqn:Hc; [|by apply other_calls_keep_active with (st := st) in Hc].
  destruct c; try done. exists ctx, now, readiness. unfold exec in *. rewrite snd_void in *.
  pose proof (HandleReadiness_cases ctx now readiness st) as Hcases. simpl in Hcases.
  destruct (HandleReadiness ctx now readiness st) as [[ack|e] st'] eqn:He; simpl in *; [|done].
  destruct Hcases as (? & ? & ? & Hor & Hg & Hh & Hs). unfold same_active, promote in *. rewrite Hs in Hne |- *.
  destruct (hasCandidate (sess st)) eqn:Hcand; [split_and!; done|].
  exfalso. apply Hne. by cbn.
Qed.

(** ** Generations are 64-bit *)

Lemma set_config_member_u64 c m c' :
  set_config_member c m = Some c' -> is_u64 (ConfigGeneration c) -> is_u64 (ConfigGeneration c').
Proof.
  unfold set_config_member. intros H Hu. destruct m as [key v].
  repeat case_match; simplify_eq; try done;
    try (apply bind_Some in H as (x & Hx & H); simplify_eq; try done).
  unfold set_u64 in Hx. destruct v; simplify_eq; cbn; try done. by eapply ParseUint64_range.
Qed.

Lemma fold_members_u64 ms c c' :
  fold_members set_config_member c ms = Some c' -> is_u64 (ConfigGeneration c) ->
  is_u64 (ConfigGeneration c').
Proof.
  unfold fold_members.
  assert (forall ms o, fold_left (fun acc m => a ← acc; set_config_member a m) ms o = Some c' ->
    (forall c, o = Some c -> is_u64 (ConfigGeneration c)) -> is_u64 (ConfigGeneration c')) as Hgen.
  2: { intros H Hu. eapply Hgen; [exact H|]. by intros ? [= <-]. }
  clear ms. induction ms as [|m ms IH]; intros o H Hu; simpl in *; [by apply Hu|].
  eapply IH; [exact H|]. intros c1 Hc1. apply bind_Some in Hc1 as (c0 & Hc0 & Hm).
  eapply set_config_member_u64; [done|by apply Hu].
Qed.

Lemma payload_generation_u64 p t g : validateConfigSnapshotPayload p t g = None -> is_u64 g.
Proof.
  unfold validateConfigSnapshotPayload. intros H.
  destruct (parse_json p) as [[]|]; try done.
  destruct (List.find _ _); [done|].
  destruct (fold_members set_config_member zeroConfig ms) as [c|] eqn:Hf; [|done].
  destruct (config_ok c t g) eqn:Hok; [|done]. unfold config_ok in Hok. bool_prop. subst.
  eapply fold_members_u64; [done|]. unfold is_u64, two64. cbn. lia.
Qed.

Lemma config_generation_u64 s x : config_valid s x -> is_u64 (Snapshot.Generation x).
Proof.
  intros [Hv _]. apply Snapshot_ValidateBound_None in Hv as (_ & _ & Hv).
  apply Snapshot_Validate_None in Hv as (_ & _ & _ & _ & _ & _ & _ & _ & Hp).
  by eapply payload_generation_u64.
Qed.

(** ** Generations never go back *)

(** Active, staged and offered configurations are in increasing order. *)
Record gens_ordered (s : ServerSession) : Prop := {
  gens_ac : hasActive s = true -> hasCandidate s = true ->
    Snapshot.Generation (active s) < Snapshot.Generation (candidate s);
  gens_ap : forall p, hasActive s = true -> pendingSnapshot s = Some p ->
    Snapshot.Generation (active s) < Snapshot.Generation p;
  gens_cp : forall p, hasCandidate s = true -> pendingSnapshot s = Some p ->
    Snapshot.Generation (candidate s) < Snapshot.Generation p;
}.

(** The caller never offers a snapshot older than the one that is staged. *)
Definition offer_monotone (c : Call) (s : ServerSession) : Prop :=
  match c with
  | CallOfferSnapshot _ _ x =>
      hasCandidate s = true -> Snapshot.Generation (candidate s) <= Snapshot.Generation x
  | _ => True
  end.

Lemma rejected_gens now st e st' :
  gens_ordered (sess st) -> rejected now st e st' -> gens_ordered (sess st').
Proof.
  intros [] H. destruct (rejected_sess _ _ _ _ H) as [->|[reason ->]]; constructor; cbn; auto.
Qed.

Ltac solve_gens :=
  unfold restoreStateLocked; cbn;
  repeat match goal with |- context [if ?b then _ else _] => destruct b eqn:? end;
  constructor; cbn; intros; simplify_eq; auto; try congruence.

Lemma HandleAck_gens ctx now ack st :
  server_inv (sess st) -> gens_ordered (sess st) ->
  gens_ordered (sess (snd (HandleAck ctx now ack st))).
Proof.
  intros Hinv Hg. change (wp (HandleAck ctx now ack) (fun _ st' => gens_ordered (sess st')) st).
  unfold HandleAck. srv_run; cbn [sess registry]; try done; try (by eapply rejected_gens).
  all: destruct Hg; bool_prop; try (by solve_gens).
  (* a delta is staged: its generation follows the active one *)
  match goal with H : pendingDelta _ = Some ?d |- _ =>
    destruct (inv_delta _ Hinv d H) as (Hp & Hc & Ha & Hv & Ht & Hprev & _) end.
  match goal with H : Ack_Validate _ = None |- _ => apply Ack_Validate_generation in H as Hnz end.
  assert (Snapshot.Generation (active (sess st)) < Delta.Generation d) as Hlt.
  { pose proof (config_generation_u64 _ _ (inv_active _ Hinv Ha)) as [? ?].
    unfold Delta_Validate in Hv. case_match; [done|].
    destruct (_ || _) eqn:Hgap in Hv; [done|]. bool_prop.
    unfold u64_add in *. rewrite Hprev in *.
    destruct (decide (Snapshot.Generation (active (sess st)) + 1 = two64)) as [E|E].
    - rewrite E in *. rewrite Z.mod_same in * by done. congruence.
    - rewrite Z.mod_small in * by lia. lia. }
  solve_gens.
Qed.

Lemma promote_gens s g : gens_ordered s -> gens_ordered (promote s g).
Proof.
  intros []. unfold promote, cloneSnapshot.
  destruct (hasCandidate s) eqn:Hc; constructor; cbn; intros; try done; eauto.
Qed.

Lemma HandleReadiness_gens ctx now r st :
  gens_ordered (sess st) -> gens_ordered (sess (snd (HandleReadiness ctx now r st))).
Proof.
  intros Hg. change (wp (HandleReadiness ctx now r) (fun _ st' => gens_ordered (sess st')) st).
  unfold HandleReadiness. srv_run; cbn [sess registry]; try done; try (by eapply rejected_gens).
  by apply (promote_gens _ (Readiness.Generation r)).
Qed.

Lemma OfferSnapshot_gens ctx now x st :
  gens_ordered (sess st) -> offer_monotone (CallOfferSnapshot ctx now x) (sess st) ->
  gens_ordered (sess (snd (OfferSnapshot ctx now x st))).
Proof.
  intros Hg Hm. change (wp (OfferSnapshot ctx now x) (fun _ st' => gens_ordered (sess st')) st).
  unfold OfferSnapshot. srv_run; cbn [sess registry]; try done; try (by eapply rejected_gens).
  simpl in Hm. cbn. destruct Hg.
  destruct (hasActive (sess st)) eqn:Ha, (hasCandidate (sess st)) eqn:Hc; simpl in *; bool_prop;
    constructor; cbn; intros; simplify_eq; cbn; auto; try congruence;
    try specialize (Hm eq_refl); lia.
Qed.

Lemma exec_gens c st :
  server_inv (sess st) -> gens_ordered (sess st) -> offer_monotone c (sess st) ->
  gens_ordered (sess (snd (exec c st))).
Proof.
  intros Hinv Hg Hm. destruct c; unfold exec; rewrite ?snd_void;
    auto using HandleAck_gens, HandleReadiness_gens, OfferSnapshot_gens.
  all: match goal with |- gens_ordered (sess (snd (?m ?st0))) =>
    change (wp m (fun _ st' => gens_ordered (sess st')) st0) end.
  all: unfold OfferDelta, HandleHeartbeat, BeginDrain, HandleDrainAck, RenewBegin, RenewFinish, Close,
    CheckLease; srv_run; cbn [sess registry]; try done; try (by eapply rejected_gens).
  all: destruct Hg; try (by solve_gens).
  match goal with |- wp (closeLocked ?reason) _ _ =>
    unfold wp; destruct (closeLocked_sess reason st) as [->| ->]; constructor; cbn; auto end.
Qed.

(** ** Histories of one session

    A history interleaves calls on the session with changes that other
    sessions make to the shared registry, which are arbitrary here. *)
Inductive session_step (allowed : Call -> ServerSession -> Prop) (st : SrvState) : SrvState -> Prop :=
| step_call c : allowed c (sess st) -> session_step allowed st (snd (exec c st))
| step_others r : session_step allowed st (mkSrv r (sess st)).

Definition history (allowed : Call -> ServerSession -> Prop) : SrvState -> SrvState -> Prop :=
  rtc (session_step allowed).
Definition any_call (c : Call) (s : ServerSession) : Prop := True.

(** A property of the session that every call keeps holds along a history. *)
Lemma history_ind (I : ServerSession -> Prop) allowed st st' :
  (forall c st, allowed c (sess st) -> I (sess st) -> I (sess (snd (exec c st)))) ->
  history allowed st st' -> I (sess st) -> I (sess st').
Proof.
  intros Hstep Hh. induction Hh as [|x y z Hs Hh IH]; intros HI; [done|].
  apply IH. destruct Hs; cbn; [by apply Hstep|done].
Qed.

(** The active configuration is at generation [g] or later. *)
Definition active_from (g : Z) (s : ServerSession) : Prop :=
  hasActive s = true /\ g <= Snapshot.Generation (active s).

Lemma exec_active_from c st g :
  gens_ordered (sess st) -> active_from g (sess st) -> active_from g (sess (snd (exec c st))).
Proof.
  intros Hg [Ha Hle]. destruct (is_readiness c) eqn:Hc.
  - destruct c; try done. unfold exec. rewrite snd_void.
    pose proof (HandleReadiness_cases ctx now readiness st) as Hcases. simpl in Hcases.
    destruct (HandleReadiness ctx now readiness st) as [[ack|e] st'] eqn:He; simpl in *.
    + destruct Hcases as (_ & _ & _ & _ & _ & _ & ->). unfold active_from, promote, cloneSnapshot.
      destruct (hasCandidate (sess st)) eqn:Hcand; cbn; [|done].
      split; [done|]. pose proof (gens_ac _ Hg Ha Hcand). lia.
    + destruct Hcases as [Hx Hy]. unfold active_from. by rewrite Hx, Hy.
  - destruct (other_calls_keep_active c st Hc) as [Hx Hy]. unfold active_from. by rewrite Hx, Hy.
Qed.

(** C4. Along every history of a session in which no snapshot older than the staged candidate is
    offered, an active configuration stays present and its generation never decreases, whatever
    other sessions do to the registry. *)
Theorem active_generation_never_regresses st st' :
  server_inv (sess st) -> gens_ordered (sess st) ->
  history offer_monotone st st' -> hasActive (sess st) = true ->
  hasActive (sess st') = true
  /\ Snapshot.Generation (active (sess st)) <= Snapshot.Generation (active (sess st')).
Proof.
  intros Hinv Hg Hh Ha.
  assert (server_inv (sess st') /\ gens_ordered (sess st')
    /\ active_from (Snapshot.Generation (active (sess st))) (sess st')) as (_ & _ & ?); [|done].
  eapply (history_ind (fun s => server_inv s /\ gens_ordered s
    /\ active_from (Snapshot.Generation (active (sess st))) s)); [|done|].
  - simpl. intros c s Hm (? & ? & ?). split_and!; eauto using exec_inv, exec_gens, exec_active_from.
  - split_and!; try done; lia.
Qed.

(** ** Staging *)

(** The offer that an acknowledgement confirms. *)
Definition confirms (ack : Ack) (s : ServerSession) : Prop :=
  (exists p, pendingSnapshot s = Some p /\ Ack.Kind ack = AckSnapshot
     /\ Ack.Generation ack = Snapshot.Generation p /\ Ack.ContentHash ack = Snapshot.ContentHash p)
  \/ (exists d, pendingSnapshot s = None /\ pendingDelta s = Some d /\ Ack.Kind ack = AckDelta
     /\ Ack.Generation ack = Delta.Generation d /\ Ack.ContentHash ack = Delta.ContentHash d).

Definition same_candidate (s s' : ServerSession) : Prop :=
  candidate s' = candidate s /\ hasCandidate s' = hasCandidate s.

Lemma rejected_same_candidate now st e st' :
  rejected now st e st' -> same_candidate (sess st) (sess st').
Proof. intros H. by destruct (rejected_sess _ _ _ _ H) as [->|[? ->]]. Qed.

Lemma HandleAck_stages ctx now ack st :
  let st' := snd (HandleAck ctx now ack st) in
  same_candidate (sess st) (sess st')
  \/ fst (HandleAck ctx now ack st) = Ok tt
     /\ confirms ack (sess st)
     /\ Ack.Status ack <> AckRejected /\ Ack.Status ack <> AckSnapshotRequired
     /\ hasCandidate (sess st') = true
     /\ Snapshot.Generation (candidate (sess st')) = Ack.Generation ack
     /\ Snapshot.ContentHash (candidate (sess st')) = Ack.ContentHash ack.
Proof.
  simpl. change (wp (HandleAck ctx now ack) (fun r st' => same_candidate (sess st) (sess st')
    \/ r = Ok tt /\ confirms ack (sess st)
     /\ Ack.Status ack <> AckRejected /\ Ack.Status ack <> AckSnapshotRequired
     /\ hasCandidate (sess st') = true
     /\ Snapshot.Generation (candidate (sess st')) = Ack.Generation ack
     /\ Snapshot.ContentHash (candidate (sess st')) = Ack.ContentHash ack) st).
  unfold HandleAck. srv_run; cbn [sess registry]; try (by left);
    try (by left; eapply rejected_same_candidate).
  all: try (by left; unfold restoreStateLocked; cbn; case_match).
  all: right; bool_prop; unfold confirms; split_and!; try done; try (cbn; by case_match).
  - left. eauto 8.
  - right. eauto 8.
Qed.

Definition is_ack (c : Call) : bool :=
  match c with CallHandleAck _ _ _ => true | _ => false end.

(** Every other call keeps the staged configuration or consumes it. *)
Lemma other_calls_stage_nothing c st :
  is_ack c = false ->
  same_candidate (sess st) (sess (snd (exec c st))) \/ hasCandidate (sess (snd (exec c st))) = false.
Proof.
  intros Hc. change (wp (exec c) (fun _ st' => same_candidate (sess st) (sess st')
    \/ hasCandidate (sess st') = false) st).
  revert Hc. unfold_call c; intros Hc; try done; session_cases;
    try (by left); try (by right); left; split; cbn; congruence.
Qed.

(** A configuration becomes the server's candidate only in a successful HandleAck whose
    acknowledgement names the generation and content hash of the offered snapshot or delta and
    is neither a rejection nor a snapshot request; the candidate has exactly the acknowledged
    generation and hash. *)
Theorem candidate_staged_only_by_confirmation c st :
  let st' := snd (exec c st) in
  hasCandidate (sess st') = true -> ~ same_candidate (sess st) (sess st') ->
  exists ctx now ack,
    c = CallHandleAck ctx now ack
    /\ fst (exec c st) = Ok tt
    /\ confirms ack (sess st)
    /\ Ack.Status ack <> AckRejected /\ Ack.Status ack <> AckSnapshotRequired
    /\ Snapshot.Generation (candidate (sess st')) = Ack.Generation ack
    /\ Snapshot.ContentHash (candidate (sess st')) = Ack.ContentHash ack.
Proof.
  simpl. intros Hc Hne. destruct (is_ack c) eqn:Hack.
  - destruct c; try done. exists ctx, now, ack. unfold exec in *.
    destruct (HandleAck_stages ctx now ack st) as [?|(? & ? & ? & ? & ? & ? & ?)]; [done|].
    by split_and!.
  - destruct (other_calls_stage_nothing c st Hack); [done|congruence].
Qed.
