(* ===== verification/ServerWorld.v ===== *)
(** * The sessions of a server

    First heartbeats, leases and drains of one session: what an accepted heartbeat proves and grants, why it cannot be replayed,
    and the life of a drain request. *)
From S2P Require Import Prelude GoText GoHash GoJson Errors Canonical Identifiers WireConfig Messages Registry.
From S2P Require Import ServerSession ServerSafety ServerConfigFlow.
Import ServerSession.

(** ** Heartbeats *)

(** Everything an accepted heartbeat establishes, and the lease it grants. *)
Lemma HandleHeartbeat_ok ctx now h st ack st' :
  HandleHeartbeat ctx now h st = (Ok ack, st') ->
  let s := sess st in
  live now st
  /\ now - MaxClockSkew <= Heartbeat.SentAt h <= now + MaxClockSkew
  /\ Heartbeat.SentAt h <> 0
  /\ (lastHeartbeatSentAt s = 0 \/ lastHeartbeatSentAt s < Heartbeat.SentAt h)
  /\ (exists x, expected_snapshot s = Some x
        /\ Heartbeat.LastAppliedGeneration h = Snapshot.Generation x
        /\ Heartbeat.LastAppliedHash h = Snapshot.ContentHash x)
  /\ HeartbeatAck.LeaseExpiresAt ack
     = Z.min (now + LeaseDuration (server s)) (AuthResult.CredentialExpiresAt (auth s))
  /\ st' = mkSrv (registry st)
       (s <| lastHeartbeatSentAt := Heartbeat.SentAt h |> <| lastHeartbeat := now |>
          <| lease := (lease s) <| Lease.ExpiresAt := HeartbeatAck.LeaseExpiresAt ack |> |>).
Proof.
  simpl. intros He. wp_of He. unfold HandleHeartbeat. srv_run; cbn [sess registry]; try done.
  cbn. unfold After, Before, Add in *. bool_prop.
  match goal with H : Heartbeat_Validate _ = None |- _ =>
    unfold Heartbeat_Validate in H; case_match; [done|]; clear H end. bool_prop.
  split_and!; try done; try lia.
  - match goal with H : IsZero (Heartbeat.SentAt h) = false |- _ => unfold IsZero in H end. by bool_prop.
  - match goal with H : (_ && _)%bool = false |- _ => apply andb_false_iff in H as [H|H] end;
      unfold IsZero in *; bool_prop; auto.
  - eauto.
  - cbn. case_match; bool_prop; lia.
Qed.

(** An accepted heartbeat leaves the replay fence at [t] or later. *)
Definition fence_from (t : time) (s : ServerSession) : Prop :=
  lastHeartbeatSentAt s <> 0 /\ t <= lastHeartbeatSentAt s.

Lemma exec_fence c st t :
  fence_from t (sess st) -> fence_from t (sess (snd (exec c st))).
Proof.
  intros [Hz Ht]. destruct (decide (lastHeartbeatSentAt (sess (snd (exec c st)))
                                    = lastHeartbeatSentAt (sess st))) as [E|Hne].
  { unfold fence_from. by rewrite E. }
  revert Hne. destruct c as [| | | |ctx now h| | | | | |].
  5: { unfold exec. rewrite snd_void. intros _.
       destruct (HandleHeartbeat ctx now h st) as [[ack|e] st'] eqn:He; simpl.
       - apply HandleHeartbeat_ok in He as (_ & _ & Hn & Hlt & _ & _ & ->). cbn.
         split; cbn; [done|]. lia.
       - assert (lastHeartbeatSentAt (sess st') = lastHeartbeatSentAt (sess st)) as E.
         { remember (Err e : Res HeartbeatAck) as r eqn:Hr. revert Hr. wp_of He.
           unfold HandleHeartbeat. by session_cases. }
         unfold fence_from. by rewrite E. }
  all: intros Hne; exfalso; apply Hne; clear Hne;
    match goal with |- _ (sess (snd (exec ?c ?s))) = _ =>
      change (wp (exec c) (fun _ s' => lastHeartbeatSentAt (sess s') = lastHeartbeatSentAt (sess s)) s) end;
    unfold exec, void, HandleAck, HandleReadiness, OfferSnapshot, OfferDelta, BeginDrain,
      HandleDrainAck, RenewBegin, RenewFinish, Close, CheckLease; by session_cases.
Qed.

(** After an accepted heartbeat, and whatever calls and registry changes follow, a
    heartbeat that was sent no later is refused. *)
Theorem heartbeat_cannot_be_replayed ctx now h ctx' now' h' st ack st1 st2 :
  HandleHeartbeat ctx now h st = (Ok ack, st1) ->
  history any_call st1 st2 ->
  Heartbeat.SentAt h' <= Heartbeat.SentAt h ->
  exists e, fst (HandleHeartbeat ctx' now' h' st2) = Err e.
Proof.
  intros Hok Hh Hle. apply HandleHeartbeat_ok in Hok as (_ & _ & Hn & _ & _ & _ & ->).
  assert (fence_from (Heartbeat.SentAt h) (sess st2)) as [Hz Hf].
  { eapply (history_ind (fence_from (Heartbeat.SentAt h))); [|exact Hh|split; cbn; (done || lia)].
    intros; by apply exec_fence. }
  destruct (HandleHeartbeat ctx' now' h' st2) as [[ack'|e] st3] eqn:He; [|eauto].
  apply HandleHeartbeat_ok in He as (_ & _ & _ & Hlt & _). lia.
Qed.

(** ** Drains *)

(** The drain request is fixed once it is made, and its outcome once it is
    terminal. *)
Definition drain_fixed (s s' : ServerSession) : Prop :=
  forall d, drain s = Some d ->
    drain s' = Some d
    /\ (drainCompleted s = true ->
        drainCompleted s' = true /\ drainStatus s' = drainStatus s /\ drainCode s' = drainCode s).

Lemma exec_drain_fixed c st : drain_fixed (sess st) (sess (snd (exec c st))).
Proof.
  change (wp (exec c) (fun _ st' => drain_fixed (sess st) (sess st')) st).
  unfold_call c; session_cases; intros ? ?; cbn; split_and?; try done; intros; split_and?; congruence.
Qed.

Lemma history_drain_fixed allowed st st' : history allowed st st' -> drain_fixed (sess st) (sess st').
Proof.
  intros Hh. apply (history_ind (drain_fixed (sess st)) allowed st st'); [|done|].
  - intros c s _ H d Hd. destruct (H d Hd) as [H1 H2].
    destruct (exec_drain_fixed c s d H1) as [H3 H4]. split; [done|]. intros Hc.
    destruct (H2 Hc) as (Hc1 & Hst & Hco). rewrite <- Hst, <- Hco. by apply H4.
  - intros d Hd. done.
Qed.

Lemma BeginDrain_ok ctx now now2 id deadline force st d st' :
  BeginDrain ctx now now2 id deadline force st = (Ok d, st') ->
  Drain.DrainID d = id
  /\ drain (sess st') = Some d
  /\ (drain (sess st) = Some d /\ st' = st
      \/ drain (sess st) = None /\ state (sess st) = SessionReady
         /\ Drain.Generation d = Snapshot.Generation (active (sess st))
         /\ Drain.ContentHash d = Snapshot.ContentHash (active (sess st))
         /\ Drain_Validate d now2 = None
         /\ state (sess st') = SessionDraining /\ drainCompleted (sess st') = false).
Proof.
  intros He. wp_of He. unfold BeginDrain. srv_run; cbn [sess registry]; try done;
    bool_prop; split_and!; cbn; auto.
  right. by split_and!.
Qed.

(** What an accepted drain acknowledgement says and does. *)
Lemma drain_ack_outcome ctx now ack st st' :
  HandleDrainAck ctx now ack st = (Ok tt, st') ->
  live now st /\ exists d, drain (sess st) = Some d
  /\ DrainAck.DrainID ack = Drain.DrainID d /\ DrainAck.Generation ack = Drain.Generation d
  /\ DrainAck.ContentHash ack = Drain.ContentHash d
  /\ if drainCompleted (sess st)
     then DrainAck.Status ack = drainStatus (sess st) /\ DrainAck.Code ack = drainCode (sess st)
          /\ st' = st
     else drainStatus (sess st') = DrainAck.Status ack
          /\ DrainAck.Status ack <> DrainRejected
          /\ drainCompleted (sess st') =
               ((DrainAck.Status ack == DrainCompleted) || (DrainAck.Status ack == DrainForced)).
Proof.
  intros He. remember (Ok tt : Res unit) as r eqn:Hr. revert Hr. wp_of He.
  unfold HandleDrainAck. srv_run; cbn [sess registry]; try done; intros _; bool_prop; split_and!; try done.
  all: eexists; split_and!; try done.
  all: match goal with H : drainCompleted _ = _ |- _ => rewrite H end; cbn; split_and!; try done.
  all: match goal with H : (_ || _)%bool = true |- _ =>
    apply orb_true_iff in H as [H|H]; apply bool_decide_eq_true in H; rewrite H end; try done.
Qed.

(** C32. Once a drain has begun, its request never changes, whatever calls and registry changes
    follow: every later successful BeginDrain has the same drain id, returns the same request
    and changes nothing, and a completed drain keeps its outcome. An acknowledgement is accepted
    only from a live session for that drain's id, generation and content hash; if the drain is
    complete it must repeat the recorded status and code and changes nothing, otherwise its
    status is recorded, is not a rejection, and completes the drain exactly for the completed
    and forced statuses. *)
Theorem drain_is_fixed_once_begun ctx now now2 id deadline force st d st1 st2 :
  BeginDrain ctx now now2 id deadline force st = (Ok d, st1) ->
  history any_call st1 st2 ->
  drain (sess st2) = Some d
  /\ (drainCompleted (sess st1) = true ->
      drainCompleted (sess st2) = true /\ drainStatus (sess st2) = drainStatus (sess st1))
  /\ (forall ctx' n n2 id' deadline' force' d' st3,
        BeginDrain ctx' n n2 id' deadline' force' st2 = (Ok d', st3) ->
        id' = id /\ d' = d /\ st3 = st2)
  /\ (forall ctx' n ack st3, HandleDrainAck ctx' n ack st2 = (Ok tt, st3) ->
        live n st2 /\ DrainAck.DrainID ack = id /\ DrainAck.Generation ack = Drain.Generation d
        /\ DrainAck.ContentHash ack = Drain.ContentHash d
        /\ if drainCompleted (sess st2)
           then DrainAck.Status ack = drainStatus (sess st2) /\ DrainAck.Code ack = drainCode (sess st2)
                /\ st3 = st2
           else drainStatus (sess st3) = DrainAck.Status ack /\ DrainAck.Status ack <> DrainRejected
                /\ drainCompleted (sess st3) =
                     ((DrainAck.Status ack == DrainCompleted) || (DrainAck.Status ack == DrainForced))).
Proof.
  intros Hb Hh. apply BeginDrain_ok in Hb as (<- & Hd & _).
  destruct (history_drain_fixed _ _ _ Hh d Hd) as [Hd2 Hf]. split_and!; [done| | |].
  - intros Hc. by destruct (Hf Hc) as (? & ? & _).
  - intros * Hb'. apply BeginDrain_ok in Hb' as (<- & _ & [[H ->]|[H _]]);
      rewrite H in Hd2; by simplify_eq.
  - intros * Ha. apply drain_ack_outcome in Ha as (Hl & d' & Hd' & Hid & Hg & Hh' & Ho).
    rewrite Hd2 in Hd'. simplify_eq. by split_and!.
Qed.

(** * The server with all its sessions

    [Server.Accept] creates sessions that share one registry; a method of any
    session may run between two methods of another.  The state of the whole
    server is the registry and every session it ever accepted; a step accepts a
    hello or runs one method of one session.  The invariant of the reachable
    states gives exclusivity: at any moment at most one session of a connector
    can act. *)

(** ** What [Accept] returns *)

(** A session with nothing but its first offer satisfies the invariant. *)
Lemma fresh_session_inv cfg ref auth lease welcome x now :
  ids_ok [AuthResult.AccountID auth; SessionRef.TunnelID ref; SessionRef.ConnectorID ref;
          SessionRef.SessionID ref] = true ->
  SessionRef.ProcessGeneration ref <> 0 ->
  Lease.ExpiresAt lease <= AuthResult.CredentialExpiresAt auth ->
  Snapshot_Validate x = None -> Snapshot.TunnelID x = SessionRef.TunnelID ref ->
  server_inv (ServerSession.mk cfg ref auth lease welcome
    (Some (bindSnapshot x (AuthResult.AccountID auth) (SessionRef.ConnectorID ref)
             (SessionRef.SessionID ref) (SessionRef.ProcessGeneration ref)))
    None Snapshot.zero false Snapshot.zero false 0 false SessionAwaitingSnapshot now 0 None
    "" "" false "").
Proof.
  intros Hids Hg Hl Hv Ht. constructor; cbn; try done.
  intros p [= <-].
  exact (bindSnapshot_config_valid (ServerSession.mk cfg ref auth lease welcome None None
    Snapshot.zero false Snapshot.zero false 0 false SessionAwaitingSnapshot now 0 None "" "" false "")
    x Hids Hg Hv Ht).
Qed.

Lemma Hello_Validate_ids h now :
  Hello_Validate h now = None ->
  ids_ok [Hello.AccountID h; Hello.TunnelID h; Hello.ConnectorID h] = true
  /\ Hello.ProcessGeneration h <> 0.
Proof.
  unfold Hello_Validate. intros. case_match eqn:Hg; [done|]. bool_prop.
  match goal with H : ids_ok _ = true |- _ => revert H end. rewrite !ids_ok_cons.
  by intros (? & ? & ? & _).
Qed.

(** What the server knows of a session it has just accepted. *)
Definition accepted (authenticate : AuthRequest -> Res AuthResult) (sessionIDs : Res string)
    (cfg : ServerConfig) (now : time) (hello : Hello) (r r' : SessionRegistry)
    (s : ServerSession) (w : Welcome) (b : Snapshot) : Prop :=
  server_inv s
  /\ (exists res, Attach r (ref s) = (Ok res, r'))
  /\ state s = SessionAwaitingSnapshot /\ hasActive s = false /\ hasCandidate s = false
  /\ pendingDelta s = None /\ drain s = None
  /\ pendingSnapshot s = Some b /\ welcome s = w /\ lastHeartbeat s = now
  /\ sessionIDs = Ok (SessionRef.SessionID (ref s))
  /\ authenticate (Hello.Auth hello) = Ok (auth s)
  /\ SessionRef.ConnectorID (ref s) = Hello.ConnectorID hello
  /\ SessionRef.TunnelID (ref s) = Hello.TunnelID hello
  /\ SessionRef.ProcessGeneration (ref s) = Hello.ProcessGeneration hello
  /\ Lease.ExpiresAt (lease s)
     = Z.min (now + LeaseDuration cfg) (AuthResult.LeaseExpiresAt (auth s)).

Lemma Accept_accepted authenticate snapshots sessionIDs cfg ctx now hello r x r' :
  Accept authenticate snapshots sessionIDs cfg ctx now hello r = (Ok x, r') ->
  accepted authenticate sessionIDs cfg now hello r r' (fst (fst x)) (snd (fst x)) (snd x).
Proof.
  intros He. wp_of He. unfold Accept, failure. repeat (wp_step; cbv beta iota zeta); try done.
  unfold auth_matches_hello in *. bool_prop. cbn [fst snd].
  match goal with H : Hello_Validate _ _ = None |- _ => apply Hello_Validate_ids in H as [Hids Hgen] end.
  match goal with H : AuthResult_Validate _ _ = None |- _ => apply AuthResult_Validate_lease in H as Hl end.
  match goal with H : ok (ValidateIdentifier _) = true |- _ => apply ok_None in H as Hid end.
  rewrite !ids_ok_cons in Hids. destruct_and!. unfold accepted. cbn.
  match goal with H : AuthResult.AccountID ?a = Hello.AccountID hello |- _ => rewrite <- H in * end.
  subst. unfold Before, Add in *. split_and!; try done; eauto; try (case_match; bool_prop; lia).
  apply fresh_session_inv; [by rewrite !ids_ok_cons|done| |done|done].
  cbn. case_match; bool_prop; lia.
Qed.

(** A refused hello leaves no trace in the registry. *)
Lemma Accept_error authenticate snapshots sessionIDs cfg ctx now hello r e r' :
  Accept authenticate snapshots sessionIDs cfg ctx now hello r = (Err e, r') -> r' = r.
Proof.
  intros He. remember (Err e : Res (ServerSession * Welcome * Snapshot)) as res eqn:Hr.
  revert Hr. wp_of He. unfold Accept, failure. repeat (wp_step; cbv beta iota zeta); try done.
  all: simplify_eq.
  match goal with H : Attach _ _ = _ |- _ => by apply Attach_err_inv in H end.
Qed.

(** ** The state of the server *)

(** Sessions are kept under the handles that their callers hold. *)
Record World := mkWorld { w_registry : SessionRegistry; w_sessions : gmap nat ServerSession }.
Definition world_init : World := mkWorld NewSessionRegistry ∅.

(** No session of the world carries this id. *)
Definition fresh_id (w : World) (id : string) : Prop :=
  forall h s, w_sessions w !! h = Some s -> SessionRef.SessionID (ref s) <> id.

(** [wstep_accept] asks the session-id source for an id that was not issued
    before, which is what a random 128-bit id provides. *)
Inductive wstep (w : World) : World -> Prop :=
| wstep_accept authenticate snapshots sessionIDs cfg ctx now hello s wel b r' h :
    Accept authenticate snapshots sessionIDs cfg ctx now hello (w_registry w) = (Ok (s, wel, b), r') ->
    fresh_id w (SessionRef.SessionID (ref s)) ->
    w_sessions w !! h = None ->
    wstep w (mkWorld r' (<[h := s]> (w_sessions w)))
| wstep_refuse authenticate snapshots sessionIDs cfg ctx now hello e r' :
    Accept authenticate snapshots sessionIDs cfg ctx now hello (w_registry w) = (Err e, r') ->
    wstep w (mkWorld r' (w_sessions w))
| wstep_exec h s c st' :
    w_sessions w !! h = Some s ->
    snd (exec c (mkSrv (w_registry w) s)) = st' ->
    wstep w (mkWorld (registry st') (<[h := sess st']> (w_sessions w))).

Definition reachable : World -> Prop := rtc wstep world_init.

(** ** The invariant of the reachable states *)
Record world_inv (w : World) : Prop := {
  world_wf : registry_wf (w_registry w);
  world_sessions : forall h s, w_sessions w !! h = Some s -> server_inv s;
  world_ids : forall h1 h2 s1 s2, w_sessions w !! h1 = Some s1 -> w_sessions w !! h2 = Some s2 ->
    SessionRef.SessionID (ref s1) = SessionRef.SessionID (ref s2) -> h1 = h2;
  world_owned : forall c x, w_registry w !! c = Some x ->
    exists h s, w_sessions w !! h = Some s /\ ref s = x /\ state s <> SessionClosed;
}.

Lemma world_inv_init : world_inv world_init.
Proof.
  split; cbn; try apply registry_wf_empty; intros *; unfold NewSessionRegistry;
    rewrite ?lookup_empty; done.
Qed.

Lemma world_inv_accept w authenticate sessionIDs cfg now hello r' s wel b h :
  world_inv w ->
  accepted authenticate sessionIDs cfg now hello (w_registry w) r' s wel b ->
  fresh_id w (SessionRef.SessionID (ref s)) -> w_sessions w !! h = None ->
  world_inv (mkWorld r' (<[h := s]> (w_sessions w))).
Proof.
  intros [] (Hinv & (res & Hat) & Hst & _) Hfresh Hh.
  pose proof (Attach_wf (w_registry w) (ref s) world_wf0) as Hwf. rewrite Hat in Hwf.
  apply Attach_ok_inv in Hat as (_ & -> & _). split; cbn; [done| | |].
  - intros h' s' [[_ <-]|[_ Hl]]%lookup_insert_Some; [done|eauto].
  - intros h1 h2 s1 s2 [[<- <-]|[? H1]]%lookup_insert_Some [[<- <-]|[? H2]]%lookup_insert_Some Heq;
      try done; [|  |by eauto]; exfalso; by eapply Hfresh; eauto.
  - intros c x [[_ <-]|[_ Hl]]%lookup_insert_Some.
    + exists h, s. rewrite lookup_insert_eq. rewrite Hst. done.
    + destruct (world_owned0 c x Hl) as (h' & s' & Hs' & ? & ?). exists h', s'.
      rewrite lookup_insert_ne; [done|]. congruence.
Qed.

(** Closing a session that holds its connector's entry drops that entry. *)
Lemma Disconnect_self r x reason :
  registry_wf r -> r !! SessionRef.ConnectorID x = Some x -> validDisconnectReason reason = true ->
  snd (Registry_Disconnect r x reason) = delete (SessionRef.ConnectorID x) r.
Proof.
  intros Hwf Hl Hr. destruct (Hwf _ _ Hl) as [_ Hv]. unfold Registry_Disconnect.
  rewrite Hv, Hr, Hl. simpl. by rewrite bool_decide_eq_true_2.
Qed.

(** A method adds nothing to the registry, and an entry that is left for its
    own session means that the session is still open. *)
Lemma exec_registry c st x y :
  registry_wf (registry st) -> registry (snd (exec c st)) !! x = Some y ->
  registry st !! x = Some y
  /\ (y = ref (sess st) -> state (sess st) <> SessionClosed ->
      state (sess (snd (exec c st))) <> SessionClosed).
Proof.
  pose proof (exec_frame c st) as (_ & _ & Hreg & _ & Hclose). intros Hwf Hl.
  assert (registry st !! x = Some y) as Hold.
  { destruct Hreg as [<-|[_ [reason Hr]]]; [done|]. rewrite Hr in Hl.
    destruct (Disconnect_cases (registry st) (ref (sess st)) reason) as [Hd|[_ Hd]];
      rewrite Hd in Hl; [done|]. by apply lookup_delete_Some in Hl as [_ ?]. }
  split; [done|]. intros -> Hopen Hcl. destruct (Hclose Hcl Hopen) as (reason & Hv & E).
  destruct (Hwf _ _ Hold) as [<- _].
  rewrite E in Hl. cbn in Hl. rewrite Disconnect_self in Hl by done.
  by rewrite lookup_delete_eq in Hl.
Qed.

Lemma exec_registry_wf c st : registry_wf (registry st) -> registry_wf (registry (snd (exec c st))).
Proof.
  pose proof (exec_frame c st) as (_ & _ & [->|[_ [reason ->]]] & _); [done|]. apply Disconnect_wf.
Qed.

Lemma world_inv_exec w h s c :
  world_inv w -> w_sessions w !! h = Some s ->
  let st' := snd (exec c (mkSrv (w_registry w) s)) in
  world_inv (mkWorld (registry st') (<[h := sess st']> (w_sessions w))).
Proof.
  intros [] Hs st'.
  assert (ref (sess st') = ref s) as Href
    by apply (exec_frame c (mkSrv (w_registry w) s)).
  split; cbn.
  - by apply exec_registry_wf.
  - intros h' s' [[_ <-]|[_ Hl]]%lookup_insert_Some; [|eauto]. apply exec_inv. cbn. eauto.
  - intros h1 h2 s1 s2 [[<- <-]|[? H1]]%lookup_insert_Some [[<- <-]|[? H2]]%lookup_insert_Some;
      rewrite ?Href; eauto.
  - intros x y Hl. destruct (exec_registry c (mkSrv (w_registry w) s) x y world_wf0 Hl) as [Hold Hopen].
    cbn in *. destruct (world_owned0 x y Hold) as (h' & s' & Hs' & Hr & Hst).
    destruct (decide (h' = h)) as [->|Hne].
    + simplify_eq. exists h, (sess st'). rewrite lookup_insert_eq. auto.
    + exists h', s'. by rewrite lookup_insert_ne.
Qed.

Lemma wstep_inv w w' : world_inv w -> wstep w w' -> world_inv w'.
Proof.
  intros Hinv []; subst.
  - match goal with H : Accept _ _ _ _ _ _ _ _ = _ |- _ => apply Accept_accepted in H end.
    eapply world_inv_accept; eauto.
  - match goal with H : Accept _ _ _ _ _ _ _ _ = _ |- _ => apply Accept_error in H as -> end.
    by destruct w.
  - by apply world_inv_exec.
Qed.

Lemma reachable_inv w : reachable w -> world_inv w.
Proof. apply rtc_ind_r; [apply world_inv_init|eauto using wstep_inv]. Qed.

(** C5. Every session of a reachable server satisfies the session invariant: its configurations
    (offered snapshot or delta, staged, active) are valid and bound to the session's account,
    connector, session and process generation, a ready session has an active configuration of
    the ready generation, and the lease never outlives the credential. Each registry entry is
    the reference of exactly one session, stored under that session's connector, and that
    session is open. *)
Theorem server_invariant_holds w :
  reachable w ->
  (forall h s, w_sessions w !! h = Some s -> server_inv s)
  /\ (forall c x, w_registry w !! c = Some x ->
       exists h s, w_sessions w !! h = Some s /\ ref s = x /\ state s <> SessionClosed
         /\ SessionRef.ConnectorID x = c
         /\ forall h' s', w_sessions w !! h' = Some s' -> ref s' = x -> h' = h).
Proof.
  intros Hr. apply reachable_inv in Hr as []. split; [eauto|]. intros c x Hl.
  destruct (world_owned0 c x Hl) as (h & s & Hs & Href & Hopen). exists h, s.
  split_and!; try done; [by apply (world_wf0 c x)|]. intros h' s' Hs' <-.
  eapply world_ids0; eauto. by rewrite Href.
Qed.

(** ** Exclusivity *)

(** A session that lost its connector's entry, or never was its connector's
    entry, can do nothing: it changes no entry and every call that checks
    liveness fails. *)
Definition powerless (r : SessionRegistry) (s : ServerSession) : Prop :=
  forall c, let out := exec c (mkSrv r s) in
    registry (snd out) = r /\ (forall now, call_now c = Some now -> exists e, fst out = Err e).

(** What one step of the server does to a connector's entry: nothing, or the
    session that owns the entry gives it up and is closed, or a session accepted
    in this step takes it, over an entry of the same tunnel and of a lower
    process generation only. *)
Inductive entry_step (w w' : World) (conn : string) : Prop :=
| entry_kept : w_registry w' !! conn = w_registry w !! conn -> entry_step w w' conn
| entry_released h s s' :
    w_sessions w !! h = Some s -> w_registry w !! conn = Some (ref s) ->
    w_registry w' !! conn = None -> w_sessions w' !! h = Some s' -> state s' = SessionClosed ->
    entry_step w w' conn
| entry_taken h s :
    w_sessions w !! h = None -> w_sessions w' !! h = Some s ->
    w_registry w' !! conn = Some (ref s) -> SessionRef.ConnectorID (ref s) = conn ->
    (forall old, w_registry w !! conn = Some old ->
       SessionRef.TunnelID old = SessionRef.TunnelID (ref s)
       /\ SessionRef.ProcessGeneration old < SessionRef.ProcessGeneration (ref s)) ->
    entry_step w w' conn.

Lemma exec_entry_step w h s c conn :
  w_sessions w !! h = Some s ->
  let st' := snd (exec c (mkSrv (w_registry w) s)) in
  entry_step w (mkWorld (registry st') (<[h := sess st']> (w_sessions w))) conn.
Proof.
  intros Hs st'. pose proof (exec_frame c (mkSrv (w_registry w) s)) as (_ & _ & Hreg & _).
  fold st' in Hreg. cbn in Hreg. destruct Hreg as [Hr|(Hcl & reason & Hr)].
  { apply entry_kept. cbn. by rewrite Hr. }
  destruct (Disconnect_cases (w_registry w) (ref s) reason) as [Hd|[Hown Hd]]; rewrite Hd in Hr.
  { apply entry_kept. cbn. by rewrite Hr. }
  destruct (decide (SessionRef.ConnectorID (ref s) = conn)) as [<-|Hne].
  - apply (entry_released _ _ _ h s (sess st')); cbn; try done; [|by rewrite lookup_insert_eq].
    by rewrite Hr, lookup_delete_eq.
  - apply entry_kept. cbn. by rewrite Hr, lookup_delete_ne.
Qed.

Lemma wstep_entry w w' conn : wstep w w' -> entry_step w w' conn.
Proof.
  intros [authenticate snapshots sessionIDs cfg ctx now hello s wel b r' h Ha _ Hh
    |authenticate snapshots sessionIDs cfg ctx now hello e r' Ha|h s c st' Hs <-].
  - apply Accept_accepted in Ha as (_ & (res & Hat) & _). cbn in Hat.
    apply Attach_ok_inv in Hat as (_ & -> & _ & _ & Hprev).
    destruct (decide (SessionRef.ConnectorID (ref s) = conn)) as [<-|Hne].
    + apply (entry_taken _ _ _ h s); cbn; try done; by rewrite lookup_insert_eq.
    + apply entry_kept. cbn. by rewrite lookup_insert_ne.
  - apply Accept_error in Ha as ->. by apply entry_kept.
  - by apply exec_entry_step.
Qed.

(** The reference of a session never changes, and a session that is not its
    connector's entry never becomes it again. *)
Lemma wstep_ref w w' h s :
  wstep w w' -> w_sessions w !! h = Some s ->
  exists s', w_sessions w' !! h = Some s' /\ ref s' = ref s.
Proof.
  intros [authenticate snapshots sessionIDs cfg ctx now hello s0 wel b r' h0 _ _ Hh
    |authenticate snapshots sessionIDs cfg ctx now hello e r' _|h0 s0 c st' Hs0 <-] Hs; cbn.
  - exists s. rewrite lookup_insert_ne by congruence. done.
  - eauto.
  - destruct (decide (h0 = h)) as [->|Hne].
    + eexists. split; [apply lookup_insert_eq|]. rewrite Hs in Hs0. injection Hs0 as <-.
      apply (exec_frame c (mkSrv (w_registry w) s)).
    + exists s. by rewrite lookup_insert_ne.
Qed.

Definition superseded (w : World) (h : nat) : Prop :=
  exists s, w_sessions w !! h = Some s
    /\ w_registry w !! SessionRef.ConnectorID (ref s) <> Some (ref s).

Lemma superseded_step w w' h : world_inv w -> wstep w w' -> superseded w h -> superseded w' h.
Proof.
  intros Hinv Hw (s & Hs & Hne). pose proof (wstep_inv w w' Hinv Hw) as Hinv'.
  destruct (wstep_ref w w' h s Hw Hs) as (s' & Hs' & Href). exists s'. split; [done|]. rewrite Href.
  destruct (wstep_entry w w' (SessionRef.ConnectorID (ref s)) Hw) as [E|h2 s2 s3 _ _ E _ _|h2 s2 Hn H2 E _ _];
    rewrite E; [done|done|]. intros [= Heq].
  assert (h = h2) as <-; [|congruence]. apply (world_ids _ Hinv' _ _ _ _ Hs' H2). congruence.
Qed.

Lemma superseded_forever w w' h s' :
  reachable w -> rtc wstep w w' -> superseded w h -> w_sessions w' !! h = Some s' ->
  powerless (w_registry w') s'.
Proof.
  intros Hr Hw Hsup Hs'. assert (superseded w' h) as (s & Hs & Hne).
  { apply reachable_inv in Hr. clear Hs'. revert Hr Hsup. induction Hw as [|w1 w2 w3 H1 _ IH]; [done|].
    intros Hinv Hsup. apply IH; [by eapply wstep_inv|by eapply superseded_step]. }
  simplify_eq. intros c. by apply superseded_call.
Qed.

Lemma owner_excludes w h s h2 s2 :
  reachable w -> w_sessions w !! h = Some s -> w_sessions w !! h2 = Some s2 -> h2 <> h ->
  SessionRef.ConnectorID (ref s2) = SessionRef.ConnectorID (ref s) ->
  w_registry w !! SessionRef.ConnectorID (ref s) = Some (ref s) -> superseded w h2.
Proof.
  intros Hr%reachable_inv Hs Hs2 Hne Hc Hown. exists s2. split; [done|]. rewrite Hc, Hown.
  intros [= E]. apply Hne. apply (world_ids _ Hr _ _ _ _ Hs2 Hs). by rewrite E.
Qed.

(** C1. One connector, one session: in every state that the server reaches by accepting hellos
    under fresh session identifiers and running session methods in any interleaving, when a
    method that checks liveness succeeds its session is live, and every other session that was
    ever accepted for the connector is without power from then on, in every later state: each of
    its methods that checks liveness fails and none changes the registry. A step of the server
    changes the entry of a connector only in two ways: its owner gives it up and is closed, or a
    session that is accepted in this step takes it, over an entry of the same tunnel and a lower
    process generation only. *)
Theorem sessions_are_exclusive w h s :
  reachable w -> w_sessions w !! h = Some s ->
  (forall c now st', call_now c = Some now -> exec c (mkSrv (w_registry w) s) = (Ok tt, st') ->
     live now (mkSrv (w_registry w) s)
     /\ forall h2 s2 w' s2', w_sessions w !! h2 = Some s2 -> h2 <> h ->
        SessionRef.ConnectorID (ref s2) = SessionRef.ConnectorID (ref s) ->
        rtc wstep w w' -> w_sessions w' !! h2 = Some s2' -> powerless (w_registry w') s2')
  /\ (forall w' conn, wstep w w' -> entry_step w w' conn).
Proof.
  intros Hr Hs. split; [|intros w' conn; apply wstep_entry]. intros c now st' Hnow He.
  pose proof (exec_requires_live c now _ st' Hnow He) as Hlive. split; [done|].
  intros h2 s2 w' s2' Hs2 Hne Hc Hw Hs2'. destruct Hlive as (_ & Hown & _).
  apply (superseded_forever w w' h2 s2' Hr Hw); [|done]. by apply (owner_excludes w h s h2 s2).
Qed.
