(* ===== verification/Persistence.v ===== *)
(** * The durable server

    [PersistentAuthenticator], [PersistentSnapshotSource], [PersistentServer]
    and [PersistentSession] of src/internal/connectorprotocol/persistence.go:
    the in-memory session with every transition recorded in a durable store, and
    closed when the store does not confirm it.  The store is an interface of the
    program, the class [PersistentControlStore]; the verifier of signatures, the
    clock and the session-id source are arguments.

    A method calls the session (which locks itself) and then the store; the
    methods of one persistent session are modelled as run one after the other.
    Telemetry is not modelled: it observes and changes nothing. *)
From S2P Require Import Prelude GoText GoHash GoJson Errors Canonical Identifiers WireConfig Messages.
From S2P Require Import Transcripts Registry ServerSession.
Import ServerSession.

(** [PersistentControlStore] with the two interfaces that [NewPersistentServer]
    requires of it ([PersistentDrainStore], [PersistentSessionMetadataStore]);
    [LoadSnapshot] is its method [Snapshot].  The older [CreateConnectorSession]
    is not called by the server. *)
Class PersistentControlStore (S : Type) := {
  AuthenticateConnector : AuthRequest -> S -> Res AuthResult * S;
  RenewConnector : RenewalRequest -> S -> Res AuthResult * S;
  LoadSnapshot : string -> S -> Res Snapshot * S;
  CreateConnectorSessionV1 : SessionRef -> Welcome -> Z -> S -> option goerror * S;
  RecordApplied : SessionRef -> Ack -> S -> option goerror * S;
  RecordReady : SessionRef -> Readiness -> S -> option goerror * S;
  RecordHeartbeat : SessionRef -> Heartbeat -> HeartbeatAck -> S -> option goerror * S;
  RecordRenewal : SessionRef -> AuthResult -> S -> option goerror * S;
  RecordDisconnected : SessionRef -> Disconnect -> S -> option goerror * S;
  RecordDrain : SessionRef -> Drain -> DrainStatus -> Z -> Code -> S -> option goerror * S;
}.

(** [errors.Join] leaves nil errors out. *)
Definition errors_Join (es : list (option goerror)) : goerror := JoinError (omap id es).

Section Persistence.
Context {S : Type} `{!PersistentControlStore S}.
(** [IdentityProofVerifier]. *)
Context (VerifyAuth : AuthRequest -> string -> list Z -> option goerror).
Context (VerifyRenewal : RenewalRequest -> string -> list Z -> option goerror).

(** ** The authenticator *)

Definition auth_failed (cause : goerror) : goerror :=
  codeError ErrAuthenticationFailed ReasonAuthentication false (Some cause).

Definition sameAuthIdentity (request : AuthRequest) (result : AuthResult) : bool :=
  (AuthRequest.AccountID request == AuthResult.AccountID result)
  && (AuthRequest.TunnelID request == AuthResult.TunnelID result)
  && (AuthRequest.ConnectorID request == AuthResult.ConnectorID result)
  && (AuthRequest.HostID request == AuthResult.HostID result)
  && (AuthRequest.IdentityKeyID request == AuthResult.IdentityKeyID result)
  && (AuthRequest.IdentityKeyThumbprint request == AuthResult.IdentityKeyThumbprint result)
  && (AuthRequest.ProcessGeneration request =? AuthResult.ProcessGeneration result)
  && (AuthRequest.CredentialGeneration request <=? AuthResult.CredentialGeneration result).

(** The part of [Authenticate] before the store is asked: the transcript and the
    signature of the request, checked. *)
Definition verified_auth (now : time) (request : AuthRequest) : Res (string * list Z) :=
  match AuthRequest_Validate request now with
  | Some err => Err (auth_failed err)
  | None =>
  match AuthProofPayload request with
  | Err err => Err (auth_failed err)
  | Ok payload =>
  match DecodeProof (AuthRequest.SignedProof request) with
  | Err err => Err (auth_failed err)
  | Ok signature =>
  match VerifyAuth request payload signature with
  | Some err => Err (auth_failed err)
  | None => Ok (payload, signature)
  end end end end.

(** [now] is the authenticator's reading of the clock. *)
Definition Authenticate (ctx : Context) (now : time) (request : AuthRequest) (s : S)
    : Res AuthResult * S :=
  if ctx_nil ctx then (Err (auth_failed (OtherError "persistent authenticator is incomplete")), s) else
  match verified_auth now request with
  | Err err => (Err err, s)
  | Ok _ =>
      let (reply, s') := AuthenticateConnector request s in
      (match reply with
       | Err err => Err (auth_failed err)
       | Ok result =>
           match AuthResult_Validate result now with
           | Some err => Err (auth_failed err)
           | None => if negb (sameAuthIdentity request result)
                     then Err (auth_failed ErrIdentityMismatch) else Ok result
           end
       end, s')
  end.

Definition same_renewal_identity (request : RenewalRequest) (result : AuthResult) : bool :=
  (AuthResult.AccountID result == RenewalRequest.AccountID request)
  && (AuthResult.TunnelID result == RenewalRequest.TunnelID request)
  && (AuthResult.ConnectorID result == RenewalRequest.ConnectorID request)
  && (AuthResult.HostID result == RenewalRequest.HostID request)
  && (AuthResult.IdentityKeyID result == RenewalRequest.IdentityKeyID request)
  && (AuthResult.IdentityKeyThumbprint result == RenewalRequest.IdentityKeyThumbprint request)
  && (AuthResult.ProcessGeneration result =? RenewalRequest.ProcessGeneration request)
  && negb (AuthResult.CredentialGeneration result <? RenewalRequest.CredentialGeneration request).

Definition verified_renewal (now : time) (request : RenewalRequest) : Res (string * list Z) :=
  match RenewalRequest_ValidateAt request now with
  | Some err => Err (auth_failed err)
  | None =>
  match RenewalProofPayload request with
  | Err err => Err (auth_failed err)
  | Ok payload =>
  match DecodeProof (RenewalRequest.SignedProof request) with
  | Err err => Err (auth_failed err)
  | Ok signature =>
  match VerifyRenewal request payload signature with
  | Some err => Err (auth_failed err)
  | None => Ok (payload, signature)
  end end end end.

Definition renewal_expired (cause : goerror) : goerror :=
  codeError ErrCredentialExpired ReasonCredentialExpired true (Some cause).

Definition Authenticator_Renew (ctx : Context) (now : time) (request : RenewalRequest) (s : S)
    : Res AuthResult * S :=
  if ctx_nil ctx then (Err (renewal_expired (OtherError "persistent authenticator is incomplete")), s) else
  match verified_renewal now request with
  | Err err => (Err err, s)
  | Ok _ =>
      let (reply, s') := RenewConnector request s in
      (match reply with
       | Err err => Err (renewal_expired err)
       | Ok result =>
           match AuthResult_Validate result now with
           | Some err => Err (auth_failed err)
           | None => if negb (same_renewal_identity request result)
                     then Err (auth_failed ErrIdentityMismatch) else Ok result
           end
       end, s')
  end.

(** ** The snapshot source *)
Definition SnapshotSource (ctx : Context) (tunnelID : string) (s : S) : Res Snapshot * S :=
  if ctx_nil ctx
  then (Err (codeError ErrSnapshotRejected ReasonSnapshotRejected true
               (Some (OtherError "persistent snapshot store is not configured"))), s)
  else
  let (reply, s') := LoadSnapshot tunnelID s in
  (match reply with
   | Err err => Err err
   | Ok snapshot =>
       match Snapshot_Validate snapshot with
       | Some err => Err (codeError ErrSnapshotRejected ReasonSnapshotRejected false (Some err))
       | None => if Snapshot.TunnelID snapshot != tunnelID
                 then Err (codeError ErrSnapshotRejected ReasonSnapshotRejected false (Some ErrIdentityMismatch))
                 else Ok snapshot
       end
   end, s').

(** ** [NewPersistentServer]

    The booleans say whether the arguments are given and whether the store
    implements the two further interfaces. *)
Definition NewPersistentServer (hasStore hasVerifier recordsDrains recordsMetadata : bool)
    (config : ServerConfig) : Res ServerConfig :=
  if negb hasStore || negb hasVerifier then Err ErrInvalidInput else
  if negb recordsDrains then Err ErrInvalidInput else
  if negb recordsMetadata then Err ErrInvalidInput else
  NewServer true true config.

(** ** [PersistentServer.Accept]

    [Server.Accept] asks the authenticator once the hello is valid and version and
    capabilities are negotiated, and the snapshot source once the authentication
    is valid and names the hello's own identity. *)
Definition reaches_authenticator (cfg : ServerConfig) (ctx : Context) (now : time) (hello : Hello) : bool :=
  negb (ctx_nil ctx) && ok (Hello_Validate hello now)
  && is_ok (NegotiateVersion (Hello.MinVersion hello) (Hello.MaxVersion hello))
  && is_ok (NegotiateCapabilities (Hello.Capabilities hello) (Capabilities cfg)).
Definition reaches_snapshots (now : time) (hello : Hello) (reply : Res AuthResult) : bool :=
  match reply with
  | Ok auth => ok (AuthResult_Validate auth now) && auth_matches_hello auth hello
  | Err _ => false
  end.
Definition not_asked {A} : Res A := Err (OtherError "not asked").

(** [now] is the reading of the clock in [Server.Accept], [authNow] the one of
    the authenticator. *)
Definition PersistentServer_Accept (cfg : ServerConfig) (ctx : Context) (now authNow : time)
    (sessionIDs : Res string) (hello : Hello)
    : M (SessionRegistry * S) goerror (ServerSession * Welcome * Snapshot) := fun st =>
  if ctx_nil ctx then (Err ErrInvalidInput, st) else
  let (r, s) := st in
  let asks := reaches_authenticator cfg ctx now hello in
  let (auth, s1) := if asks then Authenticate ctx authNow (Hello.Auth hello) s else (not_asked, s) in
  let (snapshot, s2) := if asks && reaches_snapshots now hello auth
                        then SnapshotSource ctx (Hello.TunnelID hello) s1 else (not_asked, s1) in
  match Accept (fun _ => auth) (fun _ => snapshot) sessionIDs cfg ctx now hello r with
  | (Err err, r') => (Err err, (r', s2))
  | (Ok (session, welcome, first), r') =>
      let (persistErr, s3) := CreateConnectorSessionV1 (ref session) welcome
                                (AuthResult.CredentialGeneration (ServerSession.auth session)) s2 in
      match persistErr with
      | None => (Ok (session, welcome, first), (r', s3))
      | Some err =>
          let (closed, st') := Close ReasonProtocolClosed (mkSrv r' session) in
          (Err (WrapError "create connector session"
                  (errors_Join [Some err; match closed with Err e => Some e | Ok _ => None end])),
           (registry st', s3))
      end
  end.

(** ** [PersistentSession] *)

Record PersistentState := mkPersistent { mem : SrvState; durable : S }.
Definition Per (A : Type) := M PersistentState goerror A.

(** A call of the in-memory session, its result as a value. *)
Definition session {A} (m : Srv A) : Per (Res A) :=
  fun p => let (r, st) := m (mem p) in (Ok r, mkPersistent st (durable p)).
Definition in_store {A} (f : S -> A * S) : Per A :=
  fun p => let (r, s) := f (durable p) in (Ok r, mkPersistent (mem p) s).
Definition current : Per ServerSession := fun p => (Ok (sess (mem p)), p).

Definition recordDisconnectedBounded : Per (option goerror) :=
  s ← current;
  in_store (RecordDisconnected (ref s) (Session_Disconnect s)).

Definition failClosed {A} (primary : goerror) : Per A :=
  closed ← session (Close ReasonProtocolClosed);
  disconnectErr ← recordDisconnectedBounded;
  throw (codeError ErrSessionConflict ReasonProtocolClosed false
           (Some (errors_Join [Some primary; match closed with Err e => Some e | Ok _ => None end;
                               disconnectErr]))).

(** [if err := store...; err != nil { return failClosed(ctx, err) }] *)
Definition or_fail_closed (reply : option goerror) : Per unit :=
  match reply with Some err => failClosed err | None => ret tt end.

Definition Persistent_HandleAck (ctx : Context) (now : time) (ack : Ack) : Per unit :=
  fail_if (ctx_nil ctx) ErrInvalidInput ;;
  s ← current;
  let persistNegative := CanPersistNegativeAck s ack in
  r ← session (HandleAck ctx now ack);
  s ← current;
  match r with
  | Err err =>
      if persistNegative then
        reply ← in_store (RecordApplied (ref s) ack);
        match reply with
        | Some persistErr => failClosed (errors_Join [Some err; Some persistErr])
        | None => throw err
        end
      else throw err
  | Ok _ =>
      reply ← in_store (RecordApplied (ref s) ack);
      or_fail_closed reply
  end.

Definition Persistent_OfferSnapshot (ctx : Context) (now : time) (snapshot : Snapshot) : Per unit :=
  fail_if (ctx_nil ctx) ErrInvalidInput ;;
  r ← session (OfferSnapshot ctx now snapshot);
  lift r.

Definition Persistent_OfferDelta (ctx : Context) (now : time) (delta : Delta) : Per unit :=
  fail_if (ctx_nil ctx) ErrInvalidInput ;;
  r ← session (OfferDelta ctx now delta);
  lift r.

Definition Persistent_HandleReadiness (ctx : Context) (now : time) (readiness : Readiness) : Per Ack :=
  fail_if (ctx_nil ctx) ErrInvalidInput ;;
  r ← session (HandleReadiness ctx now readiness);
  ack ← lift r;
  s ← current;
  reply ← in_store (RecordReady (ref s) readiness);
  or_fail_closed reply ;;
  ret ack.

Definition Persistent_HandleHeartbeat (ctx : Context) (now : time) (heartbeat : Heartbeat)
    : Per HeartbeatAck :=
  fail_if (ctx_nil ctx) ErrInvalidInput ;;
  r ← session (HandleHeartbeat ctx now heartbeat);
  ack ← lift r;
  s ← current;
  reply ← in_store (RecordHeartbeat (ref s) heartbeat ack);
  or_fail_closed reply ;;
  ret ack.

(** [ServerSession.Renew] calls the authenticator between its two halves. *)
Definition Persistent_Renew (ctx : Context) (now authNow now2 : time) (request : RenewalRequest)
    : Per AuthResult :=
  fail_if (ctx_nil ctx) ErrInvalidInput ;;
  begun ← session (RenewBegin ctx now request);
  '(expected, ref0) ← lift begun;
  granted ← in_store (Authenticator_Renew ctx authNow request);
  r ← session (RenewFinish now now2 expected ref0 granted);
  result ← lift r;
  s ← current;
  reply ← in_store (RecordRenewal (ref s) result);
  or_fail_closed reply ;;
  ret result.

Definition Persistent_BeginDrain (ctx : Context) (now now2 : time) (drainID : string)
    (deadline : time) (forceAfterDeadline : bool) : Per Drain :=
  fail_if (ctx_nil ctx) ErrInvalidInput ;;
  r ← session (BeginDrain ctx now now2 drainID deadline forceAfterDeadline);
  drain ← lift r;
  s ← current;
  reply ← in_store (RecordDrain (ref s) drain DrainAccepted 0 "");
  or_fail_closed reply ;;
  ret drain.

(** The request that [Drain()] returns, the zero value when there is none. *)
Definition drain_request (s : ServerSession) : Drain := default Drain.zero (drain s).

Definition Persistent_HandleDrainAck (ctx : Context) (now : time) (ack : DrainAck) : Per unit :=
  fail_if (ctx_nil ctx) ErrInvalidInput ;;
  s ← current;
  let persistNegative := CanPersistNegativeDrainAck s ack in
  r ← session (HandleDrainAck ctx now ack);
  s ← current;
  let record := RecordDrain (ref s) (drain_request s) (DrainAck.Status ack) (DrainAck.ActiveStreams ack)
                  (DrainAck.Code ack) in
  match r with
  | Err err =>
      if persistNegative then
        reply ← in_store record;
        match reply with
        | Some persistErr => failClosed (errors_Join [Some err; Some persistErr])
        | None => throw err
        end
      else throw err
  | Ok _ => reply ← in_store record; or_fail_closed reply
  end.

Definition Persistent_Close (ctx : Context) (reason : DisconnectReason) : Per unit :=
  fail_if (ctx_nil ctx) ErrInvalidInput ;;
  r ← session (Close reason);
  lift r ;;
  reply ← recordDisconnectedBounded;
  match reply with
  | Some err => throw (codeError ErrSessionConflict ReasonProtocolClosed false (Some err))
  | None => ret tt
  end.

Definition Persistent_CheckLease (ctx : Context) (now : time) : Per unit :=
  fail_if (ctx_nil ctx) ErrInvalidInput ;;
  r ← session (CheckLease now);
  match r with
  | Ok _ => ret tt
  | Err err =>
      s ← current;
      if state s == SessionClosed then
        recordErr ← recordDisconnectedBounded;
        match recordErr with
        | Some e => throw (errors_Join [Some err; Some e])
        | None => throw err
        end
      else throw err
  end.
End Persistence.
