(* ===== verification/PersistenceSafety.v ===== *)
(** * Memory and store

    The records of the durable store, what it promises to keep, and which record
    accounts for which change of a session: the staged and the active
    configuration, the drain, the credential and the lease each rest on a record
    ([durable_inv]).  Proved against any store that keeps what it confirmed. *)
From S2P Require Import Prelude GoText GoHash GoJson Errors Canonical Identifiers WireConfig Messages.
From S2P Require Import Transcripts Registry ServerSession ServerSafety ServerWorld Persistence.
Import ServerSession.

(** ** Records *)
Inductive ControlRecord :=
| Created (ref : SessionRef) (welcome : Welcome) (credentialGeneration : Z)
| Applied (ref : SessionRef) (ack : Ack)
| Readied (ref : SessionRef) (readiness : Readiness)
| Beaten (ref : SessionRef) (heartbeat : Heartbeat) (ack : HeartbeatAck)
| Renewed (ref : SessionRef) (result : AuthResult)
| Drained (ref : SessionRef) (drain : Drain) (status : DrainStatus) (streams : Z) (code : Code)
| Disconnected (ref : SessionRef) (d : Disconnect).

Section Journal.
Context {S : Type} `{!PersistentControlStore S}.
Definition control_write (x : ControlRecord) : S -> option goerror * S :=
  match x with
  | Created r w g => CreateConnectorSessionV1 r w g
  | Applied r a => RecordApplied r a
  | Readied r d => RecordReady r d
  | Beaten r h a => RecordHeartbeat r h a
  | Renewed r a => RecordRenewal r a
  | Drained r d st n c => RecordDrain r d st n c
  | Disconnected r d => RecordDisconnected r d
  end.
End Journal.

(** The promise of a durable store: what it confirmed stays. *)
Class ControlJournal (S : Type) `{!PersistentControlStore S} := {
  holds : S -> ControlRecord -> Prop;
  control_keeps x s reply s' y : control_write x s = (reply, s') -> holds s y -> holds s' y;
  control_confirms x s s' : control_write x s = (None, s') -> holds s' x;
  authenticate_keeps q s reply s' y : AuthenticateConnector q s = (reply, s') -> holds s y -> holds s' y;
  renew_keeps q s reply s' y : RenewConnector q s = (reply, s') -> holds s y -> holds s' y;
  snapshot_keeps t s reply s' y : LoadSnapshot t s = (reply, s') -> holds s y -> holds s' y;
}.

(** ** What a record accounts for *)

Definition staged_by (ack : Ack) (x : Snapshot) : Prop :=
  Ack.Generation ack = Snapshot.Generation x /\ Ack.ContentHash ack = Snapshot.ContentHash x
  /\ Ack.Status ack <> AckRejected /\ Ack.Status ack <> AckSnapshotRequired.
Definition promoted_by (d : Readiness) (x : Snapshot) : Prop :=
  Readiness.Generation d = Snapshot.Generation x /\ Readiness.ContentHash d = Snapshot.ContentHash x
  /\ Readiness.EdgeReady d = true /\ Readiness.RouteReady d = true /\ Readiness.OriginReady d = true.

(** From [s] to [s'], every change of what the session holds is accounted for by
    the record [w]. *)
Record moves (w : option ControlRecord) (s s' : ServerSession) : Prop := {
  mv_ref : ref s' = ref s;
  mv_candidate : hasCandidate s' = true ->
    hasCandidate s = true /\ candidate s' = candidate s
    \/ exists ack, w = Some (Applied (ref s) ack) /\ staged_by ack (candidate s');
  mv_active : hasActive s' = true ->
    hasActive s = true /\ active s' = active s
    \/ exists d, w = Some (Readied (ref s) d) /\ promoted_by d (active s');
  mv_drain : forall d, drain s' = Some d ->
    drain s = Some d \/ w = Some (Drained (ref s) d DrainAccepted 0 "");
  mv_auth : auth s' = auth s \/ w = Some (Renewed (ref s) (auth s'));
  mv_lease : Lease.ExpiresAt (lease s') = Lease.ExpiresAt (lease s)
    \/ (exists h a, w = Some (Beaten (ref s) h a) /\ Lease.ExpiresAt (lease s') <= HeartbeatAck.LeaseExpiresAt a)
    \/ (exists a, w = Some (Renewed (ref s) a) /\ Lease.ExpiresAt (lease s') <= AuthResult.LeaseExpiresAt a);
}.

Lemma moves_refl w s : moves w s s.
Proof. split; auto. Qed.
Lemma moves_weaken w s s' : moves None s s' -> moves w s s'.
Proof.
  intros [? H1 H2 H3 H4 H5]. split; [done|..].
  - intros H. destruct (H1 H) as [?|(? & ? & _)]; [by left|done].
  - intros H. destruct (H2 H) as [?|(? & ? & _)]; [by left|done].
  - intros d H. destruct (H3 d H); [by left|done].
  - destruct H4; [by left|done].
  - destruct H5 as [?|[(? & ? & ? & _)|(? & ? & _)]]; [by left|done..].
Qed.

(** A closed session does not change; any other changes as accounted for. *)
Definition accounts {A} (w : A -> option ControlRecord) (st : SrvState) (r : Res A) (st' : SrvState) : Prop :=
  (state (sess st) = SessionClosed -> state (sess st') = SessionClosed)
  /\ moves (match r with Ok a => w a | Err _ => None end) (sess st) (sess st').

Lemma accounts_refl {A} (w : A -> option ControlRecord) st r : accounts w st r st.
Proof. split; [done|apply moves_refl]. Qed.
Lemma rejected_accounts {A} (w : A -> option ControlRecord) now st e st' :
  rejected now st e st' -> accounts w st (Err e) st'.
Proof. intros []; [apply accounts_refl|]. split; [done|]. split; cbn; auto. Qed.

(** ** The methods of the session *)

Lemma live_open now st : live now st -> state (sess st) <> SessionClosed.
Proof. by intros (? & _). Qed.

(** Run a method; what is left are the ends at which a live session changed. *)
Ltac account :=
  srv_run; try apply accounts_refl; try (by eapply rejected_accounts);
  try match goal with H : live _ ?st |- accounts _ ?st _ _ =>
    split; [intros E; by apply live_open in H|cbn [sess]] end.

Lemma restore_moves w s s' : moves w s s' -> moves w s (restoreStateLocked s').
Proof. intros []. unfold restoreStateLocked. case_match; by split. Qed.

(** Nothing that a record accounts for changed. *)
Ltac unchanged :=
  try apply restore_moves;
  repeat match goal with |- moves _ _ (if ?b then _ else _) => destruct b end; split; cbn; by auto.

Lemma OfferSnapshot_accounts ctx now x st :
  wp (OfferSnapshot ctx now x) (accounts (fun _ => None) st) st.
Proof. unfold OfferSnapshot. account. unchanged. Qed.

Lemma OfferDelta_accounts ctx now d st : wp (OfferDelta ctx now d) (accounts (fun _ => None) st) st.
Proof. unfold OfferDelta. account. unchanged. Qed.

Lemma HandleAck_accounts ctx now a st :
  wp (HandleAck ctx now a) (accounts (fun _ => Some (Applied (ref (sess st)) a)) st) st.
Proof.
  unfold HandleAck. account; try unchanged; bool_prop;
    (repeat match goal with |- moves _ _ (if ?b then _ else _) => destruct b end); split; cbn; auto;
    intros _; right; exists a; by repeat split.
Qed.

Lemma HandleReadiness_accounts ctx now d st :
  wp (HandleReadiness ctx now d) (accounts (fun _ => Some (Readied (ref (sess st)) d)) st) st.
Proof.
  unfold HandleReadiness. account. bool_prop.
  destruct (hasCandidate (sess st)) eqn:Hc; bool_prop; split; cbn; auto; try done.
  intros _. right. exists d. by repeat split.
Qed.

Lemma HandleHeartbeat_accounts ctx now h st :
  wp (HandleHeartbeat ctx now h) (accounts (fun a => Some (Beaten (ref (sess st)) h a)) st) st.
Proof.
  unfold HandleHeartbeat. account; try unchanged. split; cbn; auto. right. left. eexists _, _. split; [done|]. cbn. lia.
Qed.

Lemma BeginDrain_accounts ctx now now2 i dl f st :
  wp (BeginDrain ctx now now2 i dl f)
    (accounts (fun d => Some (Drained (ref (sess st)) d DrainAccepted 0 "")) st) st.
Proof. unfold BeginDrain. account. split; cbn; auto. intros d [= <-]. by right. Qed.

Lemma HandleDrainAck_accounts ctx now a st :
  wp (HandleDrainAck ctx now a) (accounts (fun _ => None) st) st.
Proof. unfold HandleDrainAck. account; unchanged. Qed.

Lemma RenewBegin_accounts ctx now q st :
  wp (RenewBegin ctx now q) (accounts (fun _ => None) st) st.
Proof. unfold RenewBegin. account. Qed.

Lemma RenewFinish_accounts now now2 e r0 reply st :
  wp (RenewFinish now now2 e r0 reply) (accounts (fun a => Some (Renewed (ref (sess st)) a)) st) st.
Proof.
  unfold RenewFinish. account. split; cbn; auto. right. right. eexists. split; [done|]. cbn.
  unfold Before. case_match; bool_prop; lia.
Qed.

Lemma CheckLease_accounts now st : wp (CheckLease now) (accounts (fun _ => None) st) st.
Proof. unfold CheckLease. account. Qed.

Lemma Close_closes reason st :
  validDisconnectReason reason = true ->
  exists st', Close reason st = (Ok tt, st') /\ state (sess st') = SessionClosed.
Proof.
  intros Hv. unfold Close. rewrite Hv. destruct (decide (state (sess st) = SessionClosed)) as [E|E].
  - exists st. split; [|done]. by apply (closeLocked_closed reason).
  - exists (closed_by reason st). split; [by apply (closeLocked_open reason)|done].
Qed.
Lemma Close_accounts reason st : wp (Close reason) (accounts (fun _ => None) st) st.
Proof.
  unfold wp. destruct (validDisconnectReason reason) eqn:Hv.
  - unfold Close. rewrite Hv. destruct (decide (state (sess st) = SessionClosed)) as [E|E].
    + change ((fail_if (negb true) ErrInvalidInput ;; closeLocked reason) st) with (closeLocked reason st).
      rewrite closeLocked_closed by done. apply accounts_refl.
    + change ((fail_if (negb true) ErrInvalidInput ;; closeLocked reason) st) with (closeLocked reason st).
      rewrite closeLocked_open by done. split; [done|]. cbn. unchanged.
  - unfold Close. rewrite Hv. apply accounts_refl.
Qed.

(** ** The authenticator asks the store at most once *)
Section Authenticator.
Context {S : Type} `{!PersistentControlStore S}.
Lemma Authenticator_Renew_asks VerifyRenewal ctx now q (s : S) reply s' :
  Authenticator_Renew VerifyRenewal ctx now q s = (reply, s') ->
  s' = s \/ exists r, RenewConnector q s = (r, s').
Proof.
  unfold Authenticator_Renew. destruct (ctx_nil ctx); [intros [= _ <-]; by left|].
  destruct verified_renewal; [|intros [= _ <-]; by left].
  destruct (RenewConnector q s) eqn:E. intros [= _ <-]. eauto.
Qed.
Lemma Authenticate_asks VerifyAuth ctx now q (s : S) reply s' :
  Authenticate VerifyAuth ctx now q s = (reply, s') ->
  s' = s \/ exists r, AuthenticateConnector q s = (r, s').
Proof.
  unfold Authenticate. destruct (ctx_nil ctx); [intros [= _ <-]; by left|].
  destruct verified_auth; [|intros [= _ <-]; by left].
  destruct (AuthenticateConnector q s) eqn:E. intros [= _ <-]. eauto.
Qed.
Lemma SnapshotSource_asks ctx t (s : S) reply s' :
  SnapshotSource ctx t s = (reply, s') -> s' = s \/ exists r, LoadSnapshot t s = (r, s').
Proof.
  unfold SnapshotSource. destruct (ctx_nil ctx); [intros [= _ <-]; by left|].
  destruct (LoadSnapshot t s) eqn:E. intros [= _ <-]. eauto.
Qed.
End Authenticator.

(** ** What an open session rests on *)
Section Durable.
Context {S : Type} `{!PersistentControlStore S, !ControlJournal S}.
Context (VerifyAuth : AuthRequest -> string -> list Z -> option goerror).
Context (VerifyRenewal : RenewalRequest -> string -> list Z -> option goerror).

Record durable_inv (h : ControlRecord -> Prop) (s : ServerSession) : Prop := {
  du_candidate : hasCandidate s = true ->
    exists ack, h (Applied (ref s) ack) /\ staged_by ack (candidate s);
  du_active : hasActive s = true -> exists d, h (Readied (ref s) d) /\ promoted_by d (active s);
  du_drain : forall d, drain s = Some d -> exists status n code, h (Drained (ref s) d status n code);
  du_credential : (exists w, h (Created (ref s) w (AuthResult.CredentialGeneration (auth s))))
    \/ h (Renewed (ref s) (auth s));
  du_lease : (exists w g, h (Created (ref s) w g) /\ Lease.ExpiresAt (lease s) <= Lease.ExpiresAt (Welcome.Lease w))
    \/ (exists b a, h (Beaten (ref s) b a) /\ Lease.ExpiresAt (lease s) <= HeartbeatAck.LeaseExpiresAt a)
    \/ (exists a, h (Renewed (ref s) a) /\ Lease.ExpiresAt (lease s) <= AuthResult.LeaseExpiresAt a);
}.

Lemma moves_durable (h h' : ControlRecord -> Prop) w s s' :
  durable_inv h s -> moves w s s' -> (forall x, h x -> h' x) -> (forall x, w = Some x -> h' x) ->
  durable_inv h' s'.
Proof.
  intros [D1 D2 D3 D4 D5] [M0 M1 M2 M3 M4 M5] Hh Hw. split; rewrite ?M0.
  - intros H. destruct (M1 H) as [[Hc ->]|(ack & -> & Hs)]; [|eauto].
    destruct (D1 Hc) as (ack & ? & ?). eauto.
  - intros H. destruct (M2 H) as [[Hc ->]|(d & -> & Hs)]; [|eauto].
    destruct (D2 Hc) as (d & ? & ?). eauto.
  - intros d H. destruct (M3 d H) as [Hd| ->]; [|eauto]. destruct (D3 d Hd) as (x & n & c & ?). eauto.
  - destruct M4 as [->| ->]; [|eauto]. destruct D4 as [[x ?]|?]; eauto.
  - destruct M5 as [->|[(b & a & -> & ?)|(a & -> & ?)]]; [|eauto 10..].
    destruct D5 as [(x & g & ? & ?)|[(b & a & ? & ?)|(a & ? & ?)]]; eauto 10.
Qed.

Implicit Type p : PersistentState (S := S).
Definition closed p : Prop := state (sess (mem p)) = SessionClosed.
(** ** Symbolic execution *)

Lemma wp_in_store {A} (f : S -> A * S) (Q : result goerror A -> PersistentState -> Prop) p :
  (forall r s', f (durable p) = (r, s') -> Q (Ok r) (mkPersistent (mem p) s')) -> wp (in_store f) Q p.
Proof. unfold wp, in_store. intros H. destruct (f (durable p)) eqn:E. by apply H. Qed.
Lemma wp_current (Q : result goerror ServerSession -> PersistentState -> Prop) p :
  Q (Ok (sess (mem p))) p -> wp current Q p.
Proof. done. Qed.

(** Failing closed always leaves the session closed. *)
Lemma wp_failClosed {A} e (Q : result goerror A -> PersistentState -> Prop) p :
  (forall e' p', closed p' -> Q (Err e') p') -> wp (failClosed e) Q p.
Proof.
  intros Hq. unfold failClosed, recordDisconnectedBounded. apply wp_bind.
  destruct (Close_closes ReasonProtocolClosed (mem p) eq_refl) as (st' & Hc & Hcl).
  unfold wp at 1, session. rewrite Hc. cbn. apply wp_bind, wp_bind. cbn.
  apply wp_in_store. intros. wp_step. by apply Hq.
Qed.

Lemma Authenticator_Renew_keeps ctx now q (s : S) reply s' y :
  Authenticator_Renew VerifyRenewal ctx now q s = (reply, s') -> holds s y -> holds s' y.
Proof. intros [->|[? ?]]%Authenticator_Renew_asks; [done|]. by eapply renew_keeps. Qed.

End Durable.
