(* ===== verification/PersistenceWorld.v ===== *)
(** * The durable server with all its sessions

    The registry, every persistent session and the store they share.  A step
    accepts a hello, runs one method of one session, or is a change of the store
    by another part of the program.  Here a method is one step; its calls in
    flight are the subject of [PersistenceThreads].  The runs are runs of the
    in-memory server (Section [Refinement]), so its theorems hold here too. *)
From S2P Require Import Prelude GoText GoHash GoJson Errors Canonical Identifiers WireConfig Messages.
From S2P Require Import Transcripts Registry ServerSession ServerSafety ServerWorld Persistence.
From S2P Require Import PersistenceSafety.
Import ServerSession.

(** ** The methods as one type of calls *)

Inductive PCall :=
| PHandleAck (ctx : Context) (now : time) (ack : Ack)
| PHandleReadiness (ctx : Context) (now : time) (readiness : Readiness)
| POfferSnapshot (ctx : Context) (now : time) (snapshot : Snapshot)
| POfferDelta (ctx : Context) (now : time) (delta : Delta)
| PHandleHeartbeat (ctx : Context) (now : time) (heartbeat : Heartbeat)
| PBeginDrain (ctx : Context) (now now2 : time) (drainID : string) (deadline : time) (force : bool)
| PHandleDrainAck (ctx : Context) (now : time) (ack : DrainAck)
| PRenew (ctx : Context) (now authNow now2 : time) (request : RenewalRequest)
| PClose (ctx : Context) (reason : DisconnectReason)
| PCheckLease (ctx : Context) (now : time).

Section World.
Context {S : Type} `{!PersistentControlStore S, !ControlJournal S}.
Context (VerifyAuth : AuthRequest -> string -> list Z -> option goerror).
Context (VerifyRenewal : RenewalRequest -> string -> list Z -> option goerror).
Implicit Type p : PersistentState (S := S).

Definition pexec (c : PCall) : Per (S := S) unit :=
  match c with
  | PHandleAck ctx now a => Persistent_HandleAck ctx now a
  | PHandleReadiness ctx now d => Persistent_HandleReadiness ctx now d ;; ret tt
  | POfferSnapshot ctx now x => Persistent_OfferSnapshot ctx now x
  | POfferDelta ctx now d => Persistent_OfferDelta ctx now d
  | PHandleHeartbeat ctx now h => Persistent_HandleHeartbeat ctx now h ;; ret tt
  | PBeginDrain ctx now now2 i dl f => Persistent_BeginDrain ctx now now2 i dl f ;; ret tt
  | PHandleDrainAck ctx now a => Persistent_HandleDrainAck ctx now a
  | PRenew ctx now authNow now2 q => Persistent_Renew VerifyRenewal ctx now authNow now2 q ;; ret tt
  | PClose ctx reason => Persistent_Close ctx reason
  | PCheckLease ctx now => Persistent_CheckLease ctx now
  end.

(** ** A method is a few methods of the in-memory session *)

Definition session_step (st st' : SrvState) : Prop := exists c, st' = snd (exec c st).

(** A predicate of the store that no operation of the store falsifies. *)
Record stable (I : S -> Prop) : Prop := {
  stable_write x s reply s' : control_write x s = (reply, s') -> I s -> I s';
  stable_authenticate q s reply s' : AuthenticateConnector q s = (reply, s') -> I s -> I s';
  stable_renew q s reply s' : RenewConnector q s = (reply, s') -> I s -> I s';
  stable_snapshot t s reply s' : LoadSnapshot t s = (reply, s') -> I s -> I s';
}.
Lemma stable_true : stable (fun _ => True).
Proof. by split. Qed.
Lemma stable_holds x : stable (fun s => holds s x).
Proof using ControlJournal0.
  split; intros *; eauto using control_keeps, authenticate_keeps, renew_keeps, snapshot_keeps.
Qed.

(** From [st], methods of the in-memory session were run, and the store kept [I]. *)
Definition kept (st : SrvState) (I : S -> Prop) p : Prop :=
  rtc session_step st (mem p) /\ (stable I -> I (durable p)).

Lemma kept_session {A} st I (m : Srv A) :
  (forall st0, session_step st0 (snd (m st0))) -> preserves (kept st I) (session m).
Proof.
  intros Hm p [Hr Hh]. unfold session. specialize (Hm (mem p)). destruct (m (mem p)) as [r st'].
  split; [|done]. by eapply rtc_r.
Qed.
Lemma kept_in_store {A} st I (f : S -> A * S) :
  (forall s0 r s1, f s0 = (r, s1) -> stable I -> I s0 -> I s1) -> preserves (kept st I) (in_store f).
Proof.
  intros Hf p [Hr Hh]. unfold in_store. destruct (f (durable p)) eqn:E. split; [done|]. eauto.
Qed.
Lemma kept_write st I x : preserves (kept st I) (in_store (control_write x)).
Proof. apply kept_in_store. intros s0 r s1 Hw HI. by apply (stable_write I HI x s0 r). Qed.
Lemma kept_current st I : preserves (kept st I) current.
Proof. by intros p. Qed.
Lemma kept_renew st I ctx now q :
  preserves (kept st I) (in_store (Authenticator_Renew VerifyRenewal ctx now q)).
Proof.
  apply kept_in_store. intros s0 r s1 [->|[? ?]]%Authenticator_Renew_asks HI; [done|].
  by eapply (stable_renew I HI).
Qed.

Lemma step_of c st : session_step st (snd (exec c st)).
Proof. by exists c. Qed.
Lemma step_of_void {A} c (m : Srv A) st : exec c = void m -> session_step st (snd (m st)).
Proof.
  exists c. rewrite H. unfold void. rewrite mbind_unfold. by destruct (m st) as [[?|?] ?].
Qed.

Lemma kept_failClosed {A} st I e : preserves (kept st I) (failClosed (A := A) e).
Proof.
  unfold failClosed, recordDisconnectedBounded.
  apply preserves_mbind; [apply kept_session; intros; apply (step_of (CallClose _))|intros].
  apply preserves_mbind; [|intros; apply preserves_throw].
  apply preserves_mbind; [apply kept_current|intros; apply (kept_write _ _ (Disconnected _ _))].
Qed.

Ltac kept_step :=
  match goal with
  | |- preserves _ (_ ≫= _) => apply preserves_mbind; [|intros]
  | |- preserves _ (fail_if _ _) => apply preserves_fail_if
  | |- preserves _ (throw _) => apply preserves_throw
  | |- preserves _ (lift _) => apply preserves_lift
  | |- preserves _ (ret _) => apply preserves_ret
  | |- preserves _ current => apply kept_current
  | |- preserves _ (failClosed _) => apply kept_failClosed
  | |- preserves _ (or_fail_closed ?r) => destruct r; cbn [or_fail_closed]
  | |- preserves _ recordDisconnectedBounded => unfold recordDisconnectedBounded
  | |- preserves _ (in_store (RecordApplied ?a ?b)) => apply (kept_write _ _ (Applied a b))
  | |- preserves _ (in_store (RecordReady ?a ?b)) => apply (kept_write _ _ (Readied a b))
  | |- preserves _ (in_store (RecordHeartbeat ?a ?b ?c)) => apply (kept_write _ _ (Beaten a b c))
  | |- preserves _ (in_store (RecordRenewal ?a ?b)) => apply (kept_write _ _ (Renewed a b))
  | |- preserves _ (in_store (RecordDrain ?a ?b ?c ?d ?e)) => apply (kept_write _ _ (Drained a b c d e))
  | |- preserves _ (in_store (RecordDisconnected ?a ?b)) => apply (kept_write _ _ (Disconnected a b))
  | |- preserves _ (in_store (Authenticator_Renew _ _ _ _)) => apply kept_renew
  | |- preserves _ (match ?x with _ => _ end) => destruct x
  end.

Lemma pexec_kept c st I : preserves (kept st I) (pexec c).
Proof.
  destruct c; cbn [pexec];
    unfold Persistent_HandleAck, Persistent_HandleReadiness, Persistent_OfferSnapshot,
      Persistent_OfferDelta, Persistent_HandleHeartbeat, Persistent_BeginDrain,
      Persistent_HandleDrainAck, Persistent_Renew, Persistent_Close, Persistent_CheckLease;
    repeat kept_step; apply kept_session; intros.
  - apply (step_of (CallHandleAck _ _ _)).
  - by apply (step_of_void (CallHandleReadiness ctx now readiness)).
  - apply (step_of (CallOfferSnapshot _ _ _)).
  - apply (step_of (CallOfferDelta _ _ _)).
  - by apply (step_of_void (CallHandleHeartbeat ctx now heartbeat)).
  - by apply (step_of_void (CallBeginDrain ctx now now2 drainID deadline force)).
  - apply (step_of (CallHandleDrainAck _ _ _)).
  - by apply (step_of_void (CallRenewBegin ctx now request)).
  - match goal with |- session_step _ (snd (RenewFinish ?a ?b ?c ?d ?e _)) =>
      by apply (step_of_void (CallRenewFinish a b c d e)) end.
  - apply (step_of (CallClose _)).
  - apply (step_of (CallCheckLease _)).
Qed.

Lemma pexec_runs c p : rtc session_step (mem p) (mem (snd (pexec c p))).
Proof. by apply (pexec_kept c (mem p) (fun _ => True) p). Qed.
Lemma pexec_stable c I p : stable I -> I (durable p) -> I (durable (snd (pexec c p))).
Proof. intros HI Hp. by apply (pexec_kept c (mem p) I p). Qed.
Lemma session_step_ref st st' : rtc session_step st st' -> ref (sess st') = ref (sess st).
Proof.
  induction 1 as [|? ? ? [c ->] _ ->]; [done|]. apply (exec_frame c).
Qed.

(** ** What [Accept] returns *)

Lemma Accept_grants authenticate snapshots sessionIDs cfg ctx now hello r x r' :
  Accept authenticate snapshots sessionIDs cfg ctx now hello r = (Ok x, r') ->
  Welcome.Lease (snd (fst x)) = lease (fst (fst x))
  /\ (exists a, authenticate (Hello.Auth hello) = Ok a)
  /\ (exists b, snapshots (Hello.TunnelID hello) = Ok b).
Proof.
  intros He. wp_of He. unfold Accept, failure. repeat (wp_step; cbv beta iota zeta); eauto.
Qed.

Lemma fresh_durable h s w :
  hasCandidate s = false -> hasActive s = false -> drain s = None -> Welcome.Lease w = lease s ->
  h (Created (ref s) w (AuthResult.CredentialGeneration (auth s))) -> durable_inv h s.
Proof.
  intros H1 H2 H3 H4 Hh. split; rewrite ?H1, ?H2, ?H3; try done; [eauto|].
  left. eexists _, _. split; [done|]. by rewrite H4.
Qed.

(** Every way [PersistentServer.Accept] can end. *)
Section Outcome.
Context (cfg : ServerConfig) (ctx : Context) (now authNow : time) (ids : Res string) (hello : Hello).
Inductive accept_outcome (r : SessionRegistry) (s : S)
    : Res (ServerSession * Welcome * Snapshot) -> SessionRegistry * S -> Prop :=
| outcome_created a b s1 s2 session wel first r' s3 :
    Authenticate VerifyAuth ctx authNow (Hello.Auth hello) s = (Ok a, s1) ->
    SnapshotSource ctx (Hello.TunnelID hello) s1 = (Ok b, s2) ->
    Accept (fun _ => Ok a) (fun _ => Ok b) ids cfg ctx now hello r = (Ok (session, wel, first), r') ->
    control_write (Created (ref session) wel (AuthResult.CredentialGeneration (auth session))) s2
      = (None, s3) ->
    accept_outcome r s (Ok (session, wel, first)) (r', s3)
| outcome_uncreated a b s1 s2 session wel first r' e s3 e' :
    Authenticate VerifyAuth ctx authNow (Hello.Auth hello) s = (Ok a, s1) ->
    SnapshotSource ctx (Hello.TunnelID hello) s1 = (Ok b, s2) ->
    Accept (fun _ => Ok a) (fun _ => Ok b) ids cfg ctx now hello r = (Ok (session, wel, first), r') ->
    control_write (Created (ref session) wel (AuthResult.CredentialGeneration (auth session))) s2
      = (Some e, s3) ->
    accept_outcome r s (Err e')
      (registry (snd (exec (CallClose ReasonProtocolClosed) (mkSrv r' session))), s3)
| outcome_refused e s' :
    (forall I, stable I -> I s -> I s') -> accept_outcome r s (Err e) (r, s').

Lemma Persistent_Accept_outcome r s :
  let run := PersistentServer_Accept VerifyAuth cfg ctx now authNow ids hello (r, s) in
  accept_outcome r s (fst run) (snd run).
Proof.
  intros run. unfold PersistentServer_Accept in run. subst run.
  destruct (ctx_nil ctx) eqn:Hctx; [by constructor|].
  destruct (reaches_authenticator cfg ctx now hello) eqn:Hra; cbn [andb].
  2:{ destruct (Accept _ _ _ _ _ _ _ r) as [[[[? ?] ?]|?] r'] eqn:E.
      - apply Accept_grants in E as (_ & [? ?] & _). done.
      - apply Accept_error in E as ->. by constructor. }
  destruct (Authenticate _ _ _ _ s) as [auth s1] eqn:Ha.
  assert (forall I, stable I -> I s -> I s1) as H1.
  { intros I HI. apply Authenticate_asks in Ha as [->|[? ?]]; [done|]. by eapply (stable_authenticate I HI). }
  destruct (reaches_snapshots now hello auth) eqn:Hrs.
  2:{ destruct (Accept _ _ _ _ _ _ _ r) as [[[[? ?] ?]|?] r'] eqn:E.
      - apply Accept_grants in E as (_ & _ & [? ?]). done.
      - apply Accept_error in E as ->. by apply outcome_refused. }
  destruct (SnapshotSource _ _ s1) as [snapshot s2] eqn:Hs.
  destruct (Accept _ _ _ _ _ _ _ r) as [[[[session wel] first]|e] r'] eqn:E.
  2:{ apply Accept_error in E as ->. apply outcome_refused. intros I HI H.
      apply SnapshotSource_asks in Hs as [->|[? Hl]]; [by apply (H1 I)|].
      apply (stable_snapshot I HI _ _ _ _ Hl). by apply (H1 I). }
  apply Accept_grants in E as Hg. destruct Hg as (_ & [a ->] & [b ->]).
  destruct (CreateConnectorSessionV1 _ _ _ s2) as [[e|] s3] eqn:Hw; [|by eapply outcome_created].
  pose proof (outcome_uncreated r s a b s1 s2 session wel first r' e s3) as Ho. cbn [exec] in Ho.
  destruct (Close ReasonProtocolClosed _) as [cl st']. by apply Ho.
Qed.

Lemma Authenticate_ok q (s : S) a s' :
  Authenticate VerifyAuth ctx authNow q s = (Ok a, s') ->
  (exists proof, verified_auth VerifyAuth authNow q = Ok proof)
  /\ AuthenticateConnector q s = (Ok a, s') /\ sameAuthIdentity q a = true.
Proof.
  unfold Authenticate. destruct (ctx_nil ctx); [done|]. destruct verified_auth; [|done].
  destruct (AuthenticateConnector q s) as [[result|e] s1]; [|done].
  destruct AuthResult_Validate; [done|]. destruct (sameAuthIdentity q result) eqn:Hi; [|done].
  cbn. intros [= <- <-]. eauto.
Qed.
Lemma unverified_reaches_nothing r s e :
  verified_auth VerifyAuth authNow (Hello.Auth hello) = Err e ->
  exists e', PersistentServer_Accept VerifyAuth cfg ctx now authNow ids hello (r, s) = (Err e', (r, s)).
Proof.
  intros Hv. unfold PersistentServer_Accept, Authenticate. rewrite Hv.
  destruct (ctx_nil ctx) eqn:Hctx; [eauto|].
  destruct (reaches_authenticator _ _ _ _); cbn;
    (destruct (Accept _ _ _ _ _ _ _ r) as [[[[? ?] ?]|?] r'] eqn:E;
     [apply Accept_grants in E as (_ & [? ?] & _); done|apply Accept_error in E as ->; eauto]).
Qed.

(** A session whose row could not be created does not stay in the registry. *)
Lemma uncreated_leaves_registry authenticate snapshots r session wel first r' :
  Accept authenticate snapshots ids cfg ctx now hello r = (Ok (session, wel, first), r') ->
  registry (snd (exec (CallClose ReasonProtocolClosed) (mkSrv r' session)))
    = delete (Hello.ConnectorID hello) r.
Proof.
  intros HA. apply Accept_accepted in HA as (_ & [res Hat] & Hst & _ & _ & _ & _ & _ & _ & _ & _ & _ & Hc & _).
  cbn [fst snd] in *. apply Attach_ok_inv in Hat as (Hv & -> & _). rewrite <- Hc. cbn [exec]. unfold Close.
  change (validDisconnectReason ReasonProtocolClosed) with true.
  change ((fail_if (negb true) ErrInvalidInput ;; closeLocked ReasonProtocolClosed) ?st)
    with (closeLocked ReasonProtocolClosed st).
  rewrite closeLocked_open by (cbn; by rewrite Hst). cbn.
  unfold Registry_Disconnect. rewrite Hv. cbn. rewrite lookup_insert_eq, bool_decide_eq_true_2 by done.
  cbn. by rewrite delete_insert_eq.
Qed.

(** PersistentServer.Accept admits a connector only after its proof verified and the store
    granted exactly its identity, and returns a session only when its row is in the store; a
    hello whose proof does not verify reaches neither the store nor the registry, and when the
    row cannot be written the session does not stay in the registry. *)
Theorem persistent_accept_is_recorded r s :
  let run := PersistentServer_Accept VerifyAuth cfg ctx now authNow ids hello (r, s) in
  (forall e, verified_auth VerifyAuth authNow (Hello.Auth hello) = Err e -> exists e', run = (Err e', (r, s)))
  /\ match run with
     | (Ok (session, wel, _), (r', s')) =>
         (exists s1, AuthenticateConnector (Hello.Auth hello) s = (Ok (auth session), s1))
         /\ sameAuthIdentity (Hello.Auth hello) (auth session) = true
         /\ r' = <[Hello.ConnectorID hello := ref session]> r
         /\ holds s' (Created (ref session) wel (AuthResult.CredentialGeneration (auth session)))
     | (Err _, (r', _)) => r' = r \/ r' = delete (Hello.ConnectorID hello) r
     end.
Proof.
  intros run. split; [intros e; by apply unverified_reaches_nothing|].
  pose proof (Persistent_Accept_outcome r s) as Ho. fold run in Ho. cbn zeta in Ho.
  inversion Ho as [a b s1 s2 session wel first r' s3 Ha Hs HA Hw Hf Hr
                  |a b s1 s2 session wel first r' e s3 e' Ha Hs HA Hw Hf Hr|e s' Hk Hf Hr];
    destruct run as [res [r0 s0]]; cbn [fst snd] in *; subst; simplify_eq.
  - apply Authenticate_ok in Ha as (_ & Ha & Hi).
    apply Accept_accepted in HA as (_ & [res Hat] & _ & _ & _ & _ & _ & _ & _ & _ & _ & Hg & Hc & _).
    cbn [fst snd] in *. apply Attach_ok_inv in Hat as (_ & -> & _). simplify_eq. rewrite <- Hc.
    split_and!; eauto using control_confirms.
  - right. by eapply uncreated_leaves_registry.
  - by left.
Qed.
End Outcome.

(** ** The state of the durable server

    Sessions are kept under the handles that their callers hold; [pw_handles]
    and [pw_issued] are the handles and session ids used so far. *)
Record PWorld := mkPWorld {
  pw_registry : SessionRegistry; pw_sessions : gmap nat ServerSession; pw_store : S;
  pw_handles : gset nat; pw_issued : gset string }.
Definition pw_init (s : S) : PWorld := mkPWorld NewSessionRegistry ∅ s ∅ ∅.
Definition issue (ids : Res string) (used : gset string) : gset string :=
  match ids with Ok id => {[id]} ∪ used | Err _ => used end.

(** ** Refinement of the in-memory server *)

Record refines (w : PWorld) (u : World) : Prop := {
  rf_registry : w_registry u = pw_registry w;
  rf_sessions : pw_sessions w ⊆ w_sessions u;
  rf_handles : forall h s, w_sessions u !! h = Some s -> h ∈ pw_handles w;
  rf_issued : forall h s, w_sessions u !! h = Some s -> SessionRef.SessionID (ref s) ∈ pw_issued w;
}.

Lemma wstep_runs u h st st' :
  rtc session_step st st' -> w_registry u = registry st -> w_sessions u !! h = Some (sess st) ->
  rtc wstep u (mkWorld (registry st') (<[h := sess st']> (w_sessions u))).
Proof.
  intros Hr. revert u. induction Hr as [st|st _ st' [c ->] _ IH]; intros u Hreg Hs.
  - rewrite insert_id by done. rewrite <- Hreg. by destruct u.
  - eapply rtc_l; [apply (wstep_exec u h (sess st) c); [done|reflexivity]|].
    rewrite Hreg. destruct st as [r0 s0]. cbn [registry sess].
    specialize (IH (mkWorld (registry (snd (exec c (mkSrv r0 s0))))
      (<[h := sess (snd (exec c (mkSrv r0 s0)))]> (w_sessions u))) eq_refl).
    cbn [w_sessions] in IH. rewrite insert_insert_eq in IH. apply IH. by rewrite lookup_insert_eq.
Qed.

(** The in-memory server runs along. *)
Lemma accept_simulated w u a b ids cfg ctx now hello session wel first r' h :
  refines w u ->
  Accept (fun _ => Ok a) (fun _ => Ok b) ids cfg ctx now hello (pw_registry w)
    = (Ok (session, wel, first), r') ->
  (forall id, ids = Ok id -> id ∉ pw_issued w) -> h ∉ pw_handles w ->
  ids = Ok (SessionRef.SessionID (ref session)) /\ w_sessions u !! h = None
  /\ wstep u (mkWorld r' (<[h := session]> (w_sessions u))).
Proof.
  intros [R1 R2 R3 R4] HA Hid Hh. apply Accept_accepted in HA as Hacc.
  destruct Hacc as (_ & _ & _ & _ & _ & _ & _ & _ & _ & _ & Hids & _). cbn [fst snd] in Hids.
  assert (w_sessions u !! h = None) as Hn.
  { destruct (w_sessions u !! h) eqn:E; [|done]. by apply R3 in E. }
  split_and!; [done|done|]. rewrite <- R1 in HA. eapply wstep_accept; [done| |done].
  intros h' s' Hl He. apply R4 in Hl. rewrite He in Hl. by apply (Hid _ Hids).
Qed.

Lemma refines_insert w u h session r' r0 s' ids :
  refines w u -> h ∉ pw_handles w -> ids = Ok (SessionRef.SessionID (ref session)) ->
  refines (mkPWorld r' (<[h := session]> (pw_sessions w)) s' ({[h]} ∪ pw_handles w) (issue ids (pw_issued w)))
    (mkWorld r' (<[h := session]> (w_sessions u)))
  /\ refines (mkPWorld r0 (pw_sessions w) s' ({[h]} ∪ pw_handles w) (issue ids (pw_issued w)))
    (mkWorld r0 (<[h := session]> (w_sessions u))).
Proof.
  intros [R1 R2 R3 R4] Hh ->. split; split; cbn; try done; try by apply insert_mono.
  1-2, 4-5: intros h' s0 [[<- <-]|[_ Hl]]%lookup_insert_Some; [set_solver|];
    apply elem_of_union_r; eauto.
  apply insert_subseteq_r; [|done]. destruct (pw_sessions w !! h) as [s0|] eqn:E; [|done].
  by apply (lookup_weaken _ _ _ _ E), R3 in R2.
Qed.
Lemma refines_accepted w u r s' h ids :
  refines w u -> w_registry u = r ->
  refines (mkPWorld r (pw_sessions w) s' ({[h]} ∪ pw_handles w) (issue ids (pw_issued w))) u.
Proof.
  intros [R1 R2 R3 R4] Hr. split; cbn; try done; intros h' s0 Hl.
  - apply elem_of_union_r. eauto.
  - apply R4 in Hl. destruct ids; cbn; [|done]. by apply elem_of_union_r.
Qed.

(** ** The steps *)

(** What the rest of the program does to the store. *)
Context (others : S -> S -> Prop).
Inductive pwstep (w : PWorld) : PWorld -> Prop :=
| pwstep_accept cfg ctx now authNow ids hello res r' s' h :
    PersistentServer_Accept VerifyAuth cfg ctx now authNow ids hello (pw_registry w, pw_store w)
      = (res, (r', s')) ->
    (forall id, ids = Ok id -> id ∉ pw_issued w) -> h ∉ pw_handles w ->
    pwstep w (mkPWorld r'
      (match res with Ok (session, _, _) => <[h := session]> (pw_sessions w) | Err _ => pw_sessions w end)
      s' ({[h]} ∪ pw_handles w) (issue ids (pw_issued w)))
| pwstep_call h session c p' :
    pw_sessions w !! h = Some session ->
    snd (pexec c (mkPersistent (mkSrv (pw_registry w) session) (pw_store w))) = p' ->
    pwstep w (mkPWorld (registry (mem p')) (<[h := sess (mem p')]> (pw_sessions w)) (durable p')
                (pw_handles w) (pw_issued w))
| pwstep_others s' :
    others (pw_store w) s' ->
    pwstep w (mkPWorld (pw_registry w) (pw_sessions w) s' (pw_handles w) (pw_issued w)).

Lemma pwstep_simulated w w' u : refines w u -> pwstep w w' -> exists u', rtc wstep u u' /\ refines w' u'.
Proof.
  intros Hr Hstep. pose proof Hr as [R1 R2 R3 R4]. destruct Hstep as
    [cfg ctx now authNow ids hello res r' s' h Hrun Hid Hh|h session c p' Hs <-|s' _].
  - pose proof (Persistent_Accept_outcome cfg ctx now authNow ids hello (pw_registry w) (pw_store w)) as Ho.
    cbn zeta in Ho. rewrite Hrun in Ho. cbn [fst snd] in Ho. inversion Ho; subst.
    + destruct (accept_simulated w u a b ids cfg ctx now hello session wel first r' h) as (Hi & _ & Hw); try done.
      eexists. split; [by apply rtc_once|]. by apply refines_insert.
    + destruct (accept_simulated w u a b ids cfg ctx now hello session wel first r'0 h) as (Hi & Hn & Hw); try done.
      eexists. split; [eapply rtc_l; [exact Hw|apply rtc_once, (wstep_exec _ h session (CallClose ReasonProtocolClosed));
        [apply lookup_insert_eq|reflexivity]]|].
      cbn [w_registry w_sessions]. rewrite insert_insert_eq.
      pose proof (exec_frame (CallClose ReasonProtocolClosed) (mkSrv r'0 session)) as (Href & _). cbn in Href.
      refine (proj2 (refines_insert w u h _ r'0 _ _ _ Hr Hh _)).
      by rewrite Hi, <- Href.
    + exists u. split; [done|]. by apply refines_accepted.
  - exists (mkWorld (registry (mem (snd (pexec c (mkPersistent (mkSrv (pw_registry w) session) (pw_store w))))))
      (<[h := sess (mem (snd (pexec c (mkPersistent (mkSrv (pw_registry w) session) (pw_store w)))))]> (w_sessions u))).
    pose proof (pexec_runs c (mkPersistent (mkSrv (pw_registry w) session) (pw_store w))) as Hsteps.
    assert (w_sessions u !! h = Some session) as Hu by by eapply lookup_weaken.
    split; [by eapply wstep_runs|].
    apply session_step_ref in Hsteps as Href. cbn [mem sess] in Href.
    split; cbn; [done|by apply insert_mono|..];
      intros h' s0 [[<- <-]|[_ Hl]]%lookup_insert_Some; eauto. rewrite Href. eauto.
  - exists u. split; [done|]. by split.
Qed.

(** Every run of the durable server, over all sessions and with any store, is matched by a run
    of Accept and session methods that ends with the same registry and with the sessions of the
    durable server among its own; the others are those that were closed because their row could
    not be written. *)
Theorem persistent_server_refines_server s w :
  rtc pwstep (pw_init s) w -> exists u, reachable u /\ refines w u.
Proof.
  intros H. remember (pw_init s) as w0 eqn:E.
  assert (exists u, reachable u /\ refines w0 u) as Hu.
  { exists world_init. subst. split; [constructor|]. by split. }
  clear E. induction H as [|w0 w1 w Hs _ IH]; [done|]. apply IH. destruct Hu as (u & Hu & Hr).
  destruct (pwstep_simulated w0 w1 u Hr Hs) as (u' & Hu' & Hr'). exists u'. split; [|done].
  unfold reachable in *. by transitivity u.
Qed.

Lemma durable_inv_mono (h h' : ControlRecord -> Prop) s :
  durable_inv h s -> (forall x, h x -> h' x) -> durable_inv h' s.
Proof. intros Hd Hh. by eapply (moves_durable h h' None); [|apply moves_refl|..]. Qed.
End World.
