(* ===== verification/PersistenceThreads.v ===== *)
(** * Calls of the durable server in flight

    A method of a persistent session takes several steps: the in-memory session
    locks itself for each of its methods, and the store is written later, with no
    lock over both.  A thread is what a call still has to do; the threads of all
    sessions and of all hellos take their steps in any order.  A call that runs
    alone is the method of [Persistence] (Section [Alone]).  In every state of the
    interleaved server, what an open session holds rests on confirmed records or
    on the record of a call still in flight (Section [Threads]). *)
From S2P Require Import Prelude GoText GoHash GoJson Errors Canonical Identifiers WireConfig Messages.
From S2P Require Import Transcripts Registry ServerSession ServerSafety ServerWorld Persistence.
From S2P Require Import PersistenceSafety PersistenceWorld.
Import ServerSession.

(** ** Threads *)

(** What a call of a persistent session still has to do.  The booleans [ok] say
    whether the call returns without an error once its write is confirmed. *)
Inductive Thread :=
| T_ack (persistNegative : bool) (ctx : Context) (now : time) (ack : Ack)
| T_drain_ack (persistNegative : bool) (ctx : Context) (now : time) (ack : DrainAck)
| T_drain_read (ack : DrainAck) (ok : bool)
| T_ask (ctx : Context) (now authNow now2 : time) (request : RenewalRequest)
    (expected : AuthResult) (ref0 : SessionRef)
| T_renew (now now2 : time) (expected : AuthResult) (ref0 : SessionRef) (granted : Res AuthResult)
| T_write (x : ControlRecord) (ok : bool)
| T_close (x : ControlRecord)
| T_lease
| T_disconnect (ok : bool)
| T_disconnected (x : ControlRecord) (ok : bool)
| T_create (x : ControlRecord)
| T_uncreated (x : ControlRecord).

(** The record of a transition that the session has made and the store has not
    confirmed yet. *)
Definition in_flight (t : Thread) : option ControlRecord :=
  match t with T_write x _ | T_close x | T_create x | T_uncreated x => Some x | _ => None end.

Section ThreadSteps.
Context {S : Type} `{!PersistentControlStore S}.
Context (VerifyAuth : AuthRequest -> string -> list Z -> option goerror).
Context (VerifyRenewal : RenewalRequest -> string -> list Z -> option goerror).
Implicit Type p : PersistentState (S := S).

(** A step gives the state and the rest of the call, or how it returned. *)
Abbreviation outcome := (PersistentState (S := S) * (Thread + bool))%type.

Definition on_mem {A} (m : Srv A) p (k : SrvState -> Res A -> Thread + bool) : outcome :=
  let (r, st) := m (mem p) in (mkPersistent st (durable p), k st r).
Definition on_store {A} (f : S -> A * S) p (k : A -> Thread + bool) : outcome :=
  let (r, s) := f (durable p) in (mkPersistent (mem p) s, k r).

(** Where the in-memory method succeeded, the record is next. *)
Definition then_write {A} (x : SessionRef -> A -> ControlRecord) (st : SrvState) (r : Res A) : Thread + bool :=
  match r with Ok a => inl (T_write (x (ref (sess st)) a) true) | Err _ => inr false end.
Definition returns {A} (st : SrvState) (r : Res A) : Thread + bool := inr (is_ok r).

(** The first step of a call. *)
Definition call_begin (c : PCall) p : outcome :=
  match c with
  | PHandleAck ctx now ack =>
      if ctx_nil ctx then (p, inr false)
      else (p, inl (T_ack (CanPersistNegativeAck (sess (mem p)) ack) ctx now ack))
  | PHandleReadiness ctx now d =>
      if ctx_nil ctx then (p, inr false)
      else on_mem (HandleReadiness ctx now d) p (then_write (fun r _ => Readied r d))
  | POfferSnapshot ctx now x =>
      if ctx_nil ctx then (p, inr false) else on_mem (OfferSnapshot ctx now x) p returns
  | POfferDelta ctx now d =>
      if ctx_nil ctx then (p, inr false) else on_mem (OfferDelta ctx now d) p returns
  | PHandleHeartbeat ctx now h =>
      if ctx_nil ctx then (p, inr false)
      else on_mem (HandleHeartbeat ctx now h) p (then_write (fun r a => Beaten r h a))
  | PBeginDrain ctx now now2 id deadline force =>
      if ctx_nil ctx then (p, inr false)
      else on_mem (BeginDrain ctx now now2 id deadline force) p
             (then_write (fun r d => Drained r d DrainAccepted 0 ""))
  | PHandleDrainAck ctx now ack =>
      if ctx_nil ctx then (p, inr false)
      else (p, inl (T_drain_ack (CanPersistNegativeDrainAck (sess (mem p)) ack) ctx now ack))
  | PRenew ctx now authNow now2 request =>
      if ctx_nil ctx then (p, inr false)
      else on_mem (RenewBegin ctx now request) p (fun _ r =>
             match r with
             | Ok (expected, ref0) => inl (T_ask ctx now authNow now2 request expected ref0)
             | Err _ => inr false
             end)
  | PClose ctx reason =>
      if ctx_nil ctx then (p, inr false)
      else on_mem (Close reason) p (fun _ r => match r with Ok _ => inl (T_disconnect true) | Err _ => inr false end)
  | PCheckLease ctx now =>
      if ctx_nil ctx then (p, inr false)
      else on_mem (CheckLease now) p (fun _ r => match r with Ok _ => inr true | Err _ => inl T_lease end)
  end.

Definition thread_step (t : Thread) p : outcome :=
  match t with
  | T_ack negative ctx now ack =>
      on_mem (HandleAck ctx now ack) p (fun st r =>
        match r with
        | Ok _ => inl (T_write (Applied (ref (sess st)) ack) true)
        | Err _ => if negative then inl (T_write (Applied (ref (sess st)) ack) false) else inr false
        end)
  | T_drain_ack negative ctx now ack =>
      on_mem (HandleDrainAck ctx now ack) p (fun _ r =>
        match r with
        | Ok _ => inl (T_drain_read ack true)
        | Err _ => if negative then inl (T_drain_read ack false) else inr false
        end)
  | T_drain_read ack ok =>
      let s := sess (mem p) in
      (p, inl (T_write (Drained (ref s) (drain_request s) (DrainAck.Status ack) (DrainAck.ActiveStreams ack)
                          (DrainAck.Code ack)) ok))
  | T_ask ctx now authNow now2 request expected ref0 =>
      on_store (Authenticator_Renew VerifyRenewal ctx authNow request) p (fun granted =>
        inl (T_renew now now2 expected ref0 granted))
  | T_renew now now2 expected ref0 granted =>
      on_mem (RenewFinish now now2 expected ref0 granted) p (then_write (fun r a => Renewed r a))
  | T_write x ok =>
      on_store (control_write x) p (fun reply => match reply with None => inr ok | Some _ => inl (T_close x) end)
  | T_close x => on_mem (Close ReasonProtocolClosed) p (fun _ _ => inl (T_disconnect false))
  | T_lease => (p, if state (sess (mem p)) == SessionClosed then inl (T_disconnect false) else inr false)
  | T_disconnect ok =>
      let s := sess (mem p) in (p, inl (T_disconnected (Disconnected (ref s) (Session_Disconnect s)) ok))
  | T_disconnected x ok =>
      on_store (control_write x) p (fun reply => match reply with None => inr ok | Some _ => inr false end)
  | T_create x =>
      on_store (control_write x) p (fun reply => match reply with None => inr true | Some _ => inl (T_uncreated x) end)
  | T_uncreated x => on_mem (Close ReasonProtocolClosed) p (fun _ _ => inr false)
  end.

(** ** A call alone *)

(** The call runs to its end without other steps. *)
Inductive alone : PersistentState (S := S) -> Thread + bool -> PersistentState (S := S) -> bool -> Prop :=
| alone_end p ok : alone p (inr ok) p ok
| alone_step p t p' ok :
    alone (fst (thread_step t p)) (snd (thread_step t p)) p' ok -> alone p (inl t) p' ok.

(** A method of [Persistence] is its call run alone. *)
Definition runs_alone (o : outcome) (r : result goerror unit * PersistentState (S := S)) : Prop :=
  alone (fst o) (snd o) (snd r) (is_ok (fst r)).

Lemma wp_session {A} (m : Srv A) (Q : result goerror (Res A) -> PersistentState -> Prop) p :
  (forall r st, m (mem p) = (r, st) -> Q (Ok r) (mkPersistent st (durable p))) -> wp (session m) Q p.
Proof. unfold wp, session. intros H. destruct (m (mem p)) eqn:E. by apply H. Qed.

Ltac method_step :=
  lazymatch goal with
  | |- wp (session _) _ _ => apply wp_session; intros ? ? ?
  | |- wp (in_store _) _ _ => apply wp_in_store; intros ? ? ?
  | |- wp current _ _ => apply wp_current
  | |- wp (failClosed _) _ _ => unfold failClosed
  | |- wp (or_fail_closed ?r) _ _ => destruct r; cbn [or_fail_closed]
  | |- wp recordDisconnectedBounded _ _ => unfold recordDisconnectedBounded
  | |- wp (match ?r with Some _ => _ | None => _ end) _ _ => destruct r
  | |- wp (match ?r with Ok _ => _ | Err _ => _ end) _ _ => destruct r
  | |- wp (let '(_, _) := ?x in _) _ _ => destruct x
  | |- wp (if ?b then _ else _) _ _ => destruct b eqn:?
  | |- wp (lift ?r) _ _ => destruct r; cbn [lift]
  | |- _ => wp_step
  end.
Ltac follow :=
  cbn [fst snd mem durable control_write] in *;
  repeat match goal with H : ?x = (_, _) |- context [?x] => rewrite H; cbn [fst snd mem durable] end;
  repeat match goal with H : ?b = true |- context [if ?b then _ else _] => rewrite H; cbn [fst snd] end;
  repeat match goal with H : ?b = false |- context [if ?b then _ else _] => rewrite H; cbn [fst snd] end.
Ltac alone_run :=
  unfold on_mem, then_write, returns; follow;
  repeat (apply alone_step; unfold thread_step, on_mem, on_store, then_write; follow);
  first [apply alone_end|match goal with |- alone _ (match ?r with _ => _ end) _ _ => destruct r; apply alone_end end].

Lemma call_alone c p : runs_alone (call_begin c p) (pexec VerifyRenewal c p).
Proof.
  change (wp (pexec VerifyRenewal c)
    (fun r p' => alone (fst (call_begin c p)) (snd (call_begin c p)) p' (is_ok r)) p).
  destruct c; unfold call_begin, pexec, Persistent_HandleAck, Persistent_HandleReadiness, Persistent_OfferSnapshot,
      Persistent_OfferDelta, Persistent_HandleHeartbeat, Persistent_BeginDrain,
      Persistent_HandleDrainAck, Persistent_Renew, Persistent_Close, Persistent_CheckLease.
  all: destruct (ctx_nil ctx) eqn:Hctx; [repeat method_step; cbn; apply alone_end || done|].
  all: repeat method_step; try done; alone_run.
Qed.

(** ** Hellos *)

Record AcceptCall := mkAcceptCall {
  ac_cfg : ServerConfig; ac_ctx : Context; ac_now : time; ac_authNow : time; ac_ids : Res string;
  ac_hello : Hello }.

(** How far an [Accept] is: what the authenticator and the snapshot source
    answered. *)
Inductive Stage :=
| A_begin
| A_authenticated (auth : Res AuthResult)
| A_loaded (auth : Res AuthResult) (snapshot : Res Snapshot).

Definition asks_store (a : AcceptCall) : bool :=
  reaches_authenticator (ac_cfg a) (ac_ctx a) (ac_now a) (ac_hello a).
Definition ask_authenticator (a : AcceptCall) (s : S) : Res AuthResult * S :=
  if asks_store a then Authenticate VerifyAuth (ac_ctx a) (ac_authNow a) (Hello.Auth (ac_hello a)) s
  else (not_asked, s).
Definition ask_snapshots (a : AcceptCall) (auth : Res AuthResult) (s : S) : Res Snapshot * S :=
  if asks_store a && reaches_snapshots (ac_now a) (ac_hello a) auth
  then SnapshotSource (ac_ctx a) (Hello.TunnelID (ac_hello a)) s else (not_asked, s).
Definition accept_in_memory (a : AcceptCall) (auth : Res AuthResult) (snapshot : Res Snapshot) (r : SessionRegistry)
    : Res (ServerSession * Welcome * Snapshot) * SessionRegistry :=
  Accept (fun _ => auth) (fun _ => snapshot) (ac_ids a) (ac_cfg a) (ac_ctx a) (ac_now a) (ac_hello a) r.
Definition created (s : ServerSession) (w : Welcome) : ControlRecord :=
  Created (ref s) w (AuthResult.CredentialGeneration (auth s)).

(** ** The server with its calls in flight *)

Record TWorld := mkTWorld {
  tw_registry : SessionRegistry; tw_sessions : gmap nat ServerSession; tw_store : S;
  tw_threads : list (nat * Thread); tw_hellos : list (AcceptCall * Stage); tw_handles : gset nat }.
Definition tw_init (s : S) : TWorld := mkTWorld NewSessionRegistry ∅ s [] [] ∅.

(** The session of a handle as a thread sees it, and the world after its step. *)
Definition seen (w : TWorld) (s : ServerSession) : PersistentState (S := S) :=
  mkPersistent (mkSrv (tw_registry w) s) (tw_store w).
Definition rest (h : nat) (k : Thread + bool) : list (nat * Thread) :=
  match k with inl t => [(h, t)] | inr _ => [] end.
Definition after_step (w : TWorld) (h : nat) (o : outcome) (threads : list (nat * Thread)) : TWorld :=
  mkTWorld (registry (mem (fst o))) (<[h := sess (mem (fst o))]> (tw_sessions w)) (durable (fst o))
    (rest h (snd o) ++ threads) (tw_hellos w) (tw_handles w).

(** [others] is what the rest of the program does to the store. *)
Context (others : S -> S -> Prop).
Inductive twstep (w : TWorld) : TWorld -> Prop :=
| tw_call h s c :
    tw_sessions w !! h = Some s -> twstep w (after_step w h (call_begin c (seen w s)) (tw_threads w))
| tw_thread h s t before after :
    tw_sessions w !! h = Some s -> tw_threads w = before ++ (h, t) :: after ->
    twstep w (after_step w h (thread_step t (seen w s)) (before ++ after))
| tw_hello a :
    ctx_nil (ac_ctx a) = false ->
    twstep w (mkTWorld (tw_registry w) (tw_sessions w) (tw_store w) (tw_threads w)
                ((a, A_begin) :: tw_hellos w) (tw_handles w))
| tw_authenticate a before after auth s' :
    tw_hellos w = before ++ (a, A_begin) :: after -> ask_authenticator a (tw_store w) = (auth, s') ->
    twstep w (mkTWorld (tw_registry w) (tw_sessions w) s' (tw_threads w)
                (before ++ (a, A_authenticated auth) :: after) (tw_handles w))
| tw_snapshot a before after auth snapshot s' :
    tw_hellos w = before ++ (a, A_authenticated auth) :: after ->
    ask_snapshots a auth (tw_store w) = (snapshot, s') ->
    twstep w (mkTWorld (tw_registry w) (tw_sessions w) s' (tw_threads w)
                (before ++ (a, A_loaded auth snapshot) :: after) (tw_handles w))
| tw_refused a before after auth snapshot e r' :
    tw_hellos w = before ++ (a, A_loaded auth snapshot) :: after ->
    accept_in_memory a auth snapshot (tw_registry w) = (Err e, r') ->
    twstep w (mkTWorld r' (tw_sessions w) (tw_store w) (tw_threads w) (before ++ after) (tw_handles w))
| tw_accepted a before after auth snapshot session welcome first r' h :
    tw_hellos w = before ++ (a, A_loaded auth snapshot) :: after ->
    accept_in_memory a auth snapshot (tw_registry w) = (Ok (session, welcome, first), r') ->
    h ∉ tw_handles w -> tw_sessions w !! h = None ->
    twstep w (mkTWorld r' (<[h := session]> (tw_sessions w)) (tw_store w)
                ((h, T_create (created session welcome)) :: tw_threads w) (before ++ after)
                ({[h]} ∪ tw_handles w))
| tw_others s' :
    others (tw_store w) s' ->
    twstep w (mkTWorld (tw_registry w) (tw_sessions w) s' (tw_threads w) (tw_hellos w) (tw_handles w)).

(** ** Calls one after the other

    The runs of [PersistenceWorld], in which a call is one step, are runs of the
    interleaved server. *)
Record alike (v : PWorld (S := S)) (w : TWorld) : Prop := {
  al_registry : tw_registry w = pw_registry v;
  al_store : tw_store w = pw_store v;
  al_sessions : pw_sessions v ⊆ tw_sessions w;
  al_handles : tw_handles w ⊆ pw_handles v;
  al_known : forall h s, tw_sessions w !! h = Some s -> h ∈ tw_handles w;
  al_threads : tw_threads w = [];
  al_hellos : tw_hellos w = [];
}.

Lemma alone_runs p k p' ok h :
  alone p k p' ok -> forall sessions hellos handles, sessions !! h = Some (sess (mem p)) ->
  rtc twstep (mkTWorld (registry (mem p)) sessions (durable p) (rest h k) hellos handles)
    (mkTWorld (registry (mem p')) (<[h := sess (mem p')]> sessions) (durable p') [] hellos handles).
Proof.
  induction 1 as [p ok|p t p' ok _ IH]; intros sessions hellos handles Hs; cbn [rest].
  - rewrite insert_id by done. apply rtc_refl.
  - eapply rtc_l; [apply (tw_thread _ h (sess (mem p)) t [] []); [done|reflexivity]|].
    unfold after_step, seen. cbn. rewrite app_nil_r. destruct p as [[r s] d]. cbn in *.
    specialize (IH (<[h := sess (mem (fst (thread_step t (mkPersistent (mkSrv r s) d))))]> sessions) hellos handles).
    rewrite insert_insert_eq in IH. apply IH. apply lookup_insert_eq.
Qed.

Lemma call_interleaved v w h session c :
  alike v w -> pw_sessions v !! h = Some session ->
  let p' := snd (pexec VerifyRenewal c (mkPersistent (mkSrv (pw_registry v) session) (pw_store v))) in
  exists w', rtc twstep w w'
    /\ alike (mkPWorld (registry (mem p')) (<[h := sess (mem p')]> (pw_sessions v)) (durable p')
                (pw_handles v) (pw_issued v)) w'.
Proof.
  intros [A1 A2 A3 A4 A5 A6 A7] Hs p'. assert (tw_sessions w !! h = Some session) as Hs' by by eapply lookup_weaken.
  pose proof (call_alone c (seen w session)) as Ha. unfold seen in Ha. rewrite A1, A2 in Ha. fold p' in Ha.
  eexists. split.
  - eapply rtc_l; [apply (tw_call w h session c Hs')|]. unfold after_step, seen. rewrite A1, A2, A6, app_nil_r.
    refine (alone_runs _ _ _ _ h Ha _ _ _ _). apply lookup_insert_eq.
  - rewrite insert_insert_eq. split; cbn; try done; [by apply insert_mono|].
    intros h' s' [[<- _]|[_ Hl]]%lookup_insert_Some; eauto.
Qed.

(** A hello that is answered before anything else happens. *)
Lemma hello_stages w a auth snapshot s1 s2 :
  ctx_nil (ac_ctx a) = false -> ask_authenticator a (tw_store w) = (auth, s1) ->
  ask_snapshots a auth s1 = (snapshot, s2) ->
  rtc twstep w (mkTWorld (tw_registry w) (tw_sessions w) s2 (tw_threads w)
                  ((a, A_loaded auth snapshot) :: tw_hellos w) (tw_handles w)).
Proof.
  intros Hc Ha Hs. eapply rtc_l; [by apply (tw_hello w a)|].
  eapply rtc_l; [by apply (tw_authenticate _ a [] (tw_hellos w) auth s1)|].
  eapply rtc_l; [by apply (tw_snapshot _ a [] (tw_hellos w) auth snapshot s2)|]. apply rtc_refl.
Qed.

Lemma accept_interleaved v w cfg ctx now authNow ids hello res r' s' h :
  alike v w -> h ∉ pw_handles v ->
  PersistentServer_Accept VerifyAuth cfg ctx now authNow ids hello (pw_registry v, pw_store v) = (res, (r', s')) ->
  exists w', rtc twstep w w'
    /\ alike (mkPWorld r'
         (match res with Ok (session, _, _) => <[h := session]> (pw_sessions v) | Err _ => pw_sessions v end)
         s' ({[h]} ∪ pw_handles v) (issue ids (pw_issued v))) w'.
Proof.
  intros [A1 A2 A3 A4 A5 A6 A7] Hh. rewrite <-A1, <-A2. unfold PersistentServer_Accept.
  assert (h ∉ tw_handles w) as Hh' by set_solver.
  assert (tw_sessions w !! h = None) as Hn by (destruct (tw_sessions w !! h) eqn:E; [by apply A5 in E|done]).
  assert (pw_sessions v !! h = None) as Hv by by eapply lookup_weaken_None.
  destruct (ctx_nil ctx) eqn:Hctx.
  { intros [= <- <- <-]. exists w. split; [apply rtc_refl|]. split; try done. cbn. set_solver. }
  set (a := mkAcceptCall cfg ctx now authNow ids hello).
  change (if reaches_authenticator cfg ctx now hello then _ else _) with (ask_authenticator a (tw_store w)).
  destruct (ask_authenticator a (tw_store w)) as [auth s1] eqn:Ha.
  change (if _ && _ then _ else _) with (ask_snapshots a auth s1).
  destruct (ask_snapshots a auth s1) as [snapshot s2] eqn:Hs. pose proof (hello_stages w a _ _ _ _ Hctx Ha Hs) as Hr.
  change (Accept _ _ _ _ _ _ _ _) with (accept_in_memory a auth snapshot (tw_registry w)).
  destruct (accept_in_memory a auth snapshot (tw_registry w)) as [[[[session wel] first]|e] r1] eqn:Hacc.
  2:{ intros [= <- <- <-]. eexists. split.
      - eapply rtc_r; [exact Hr|]. by apply (tw_refused _ a [] (tw_hellos w) auth snapshot e r1).
      - split; cbn; try done. set_solver. }
  eassert (rtc twstep w _) as Hr1.
  { eapply rtc_r; [exact Hr|]. by apply (tw_accepted _ a [] (tw_hellos w) auth snapshot session wel first r1 h). }
  cbn in Hr1. rewrite A6, A7 in Hr1. set (w1 := mkTWorld _ _ _ _ _ _) in Hr1.
  assert (tw_sessions w1 !! h = Some session) as Hs1 by apply lookup_insert_eq.
  pose proof (tw_thread w1 h session (T_create (created session wel)) [] [] Hs1 eq_refl) as Hstep.
  pose proof (insert_mono _ _ h session A3) as Hi.
  assert (forall s0, pw_sessions v ⊆ <[h := s0]> (tw_sessions w)) as Hi'.
  { intros s0. etrans; [exact A3|]. by apply insert_subseteq. }
  assert (forall s0 h' s'', <[h := s0]> (tw_sessions w) !! h' = Some s'' -> h' ∈ {[h]} ∪ tw_handles w) as Hk.
  { intros s0 h' s'' [[<- _]|[_ E]]%lookup_insert_Some; [set_solver|]. apply A5 in E. set_solver. }
  cbn [thread_step on_store control_write created] in Hstep. unfold on_store in Hstep.
  cbn [seen durable tw_store w1] in Hstep.
  destruct (CreateConnectorSessionV1 _ _ _ s2) as [[e|] s3].
  - destruct (Close ReasonProtocolClosed (mkSrv r1 session)) as [cl st'] eqn:Hcl. intros [= <- <- <-].
    unfold after_step in Hstep. cbn in Hstep. rewrite insert_insert_eq in Hstep.
    set (w2 := mkTWorld _ _ _ _ _ _) in Hstep.
    assert (tw_sessions w2 !! h = Some session) as Hs2 by apply lookup_insert_eq.
    pose proof (tw_thread w2 h session (T_uncreated (created session wel)) [] [] Hs2 eq_refl) as Hstep2.
    cbn [thread_step] in Hstep2. unfold on_mem, seen in Hstep2. cbn in Hstep2. rewrite Hcl in Hstep2.
    unfold after_step in Hstep2. cbn in Hstep2. rewrite insert_insert_eq in Hstep2.
    eexists. split; [eapply rtc_r; [eapply rtc_r; [exact Hr1|exact Hstep]|exact Hstep2]|].
    split; cbn; first [done|apply Hi'|apply Hk|set_solver].
  - intros [= <- <- <-]. unfold after_step in Hstep. cbn in Hstep. rewrite insert_insert_eq in Hstep.
    eexists. split; [eapply rtc_r; [exact Hr1|exact Hstep]|].
    split; cbn; first [done|apply Hk|set_solver].
Qed.

Lemma pwstep_interleaved v v' w :
  alike v w -> pwstep VerifyAuth VerifyRenewal others v v' -> exists w', rtc twstep w w' /\ alike v' w'.
Proof.
  intros Ha [cfg ctx now authNow ids hello res r' s' h Hrun _ Hh|h session c p' Hs <-|s' Ho].
  - by eapply accept_interleaved.
  - by apply call_interleaved.
  - destruct Ha as [A1 A2 A3 A4 A5 A6 A7]. eexists. split; [apply rtc_once, tw_others; rewrite A2; exact Ho|]. by split.
Qed.
Lemma one_after_the_other s v :
  rtc (pwstep VerifyAuth VerifyRenewal others) (pw_init s) v -> exists w, rtc twstep (tw_init s) w /\ alike v w.
Proof.
  revert v. apply rtc_ind_r; [exists (tw_init s); split; [apply rtc_refl|by split]|].
  intros v v' _ Hstep (w & Hr & Ha). destruct (pwstep_interleaved v v' w Ha Hstep) as (w' & Hr' & Ha').
  exists w'. split; [by etrans|done].
Qed.

(** ** Durability *)
Context `{!ControlJournal S}.

(** A record that a call of the session has still to write. *)
Definition pending (w : TWorld) (h : nat) (x : ControlRecord) : Prop :=
  exists t, (h, t) ∈ tw_threads w /\ in_flight t = Some x.
Definition carries (k : Thread + bool) (x : ControlRecord) : Prop :=
  match k with inl t => in_flight t = Some x | inr _ => False end.

(** What one step of a call does: the session moves by what the call carries from
    then on, confirmed records stay, and a record that the call carried is
    confirmed or carried on, or the session is closed. *)
Record step_ok p (old : ControlRecord -> Prop) (o : outcome) : Prop := {
  so_closed : closed p -> closed (fst o);
  so_moves : exists x, moves x (sess (mem p)) (sess (mem (fst o))) /\ forall y, x = Some y -> carries (snd o) y;
  so_holds : forall x, holds (durable p) x -> holds (durable (fst o)) x;
  so_carried : forall x, old x -> holds (durable (fst o)) x \/ carries (snd o) x \/ closed (fst o);
}.

Lemma step_stays p old k : (forall x, old x -> carries k x) -> step_ok p old (p, k).
Proof. intros H. split; cbn; [done|exists None; split; [apply moves_refl|done]|done|eauto]. Qed.
Lemma step_mem {A} (m : Srv A) (w : A -> option ControlRecord) p old k :
  wp m (accounts w (mem p)) (mem p) ->
  (forall a st y, m (mem p) = (Ok a, st) -> w a = Some y -> ref (sess st) = ref (sess (mem p)) ->
     carries (k st (Ok a)) y) ->
  (forall x r st, old x -> m (mem p) = (r, st) -> carries (k st r) x \/ state (sess st) = SessionClosed) ->
  step_ok p old (on_mem m p k).
Proof.
  unfold wp, on_mem. intros Ha Hk Ho. destruct (m (mem p)) as [r st] eqn:E. cbn in Ha. destruct Ha as [Hc Hm].
  split; cbn; [done| |done|].
  - exists (match r with Ok a => w a | Err _ => None end). split; [done|]. intros y Hy.
    destruct r as [a|e]; [|done]. eapply Hk; [done|done|]. apply (mv_ref _ _ _ Hm).
  - intros x Hx. right. by eapply Ho.
Qed.
Lemma step_store {A} (f : S -> A * S) p old k :
  (forall r s' x, f (durable p) = (r, s') -> holds (durable p) x -> holds s' x) ->
  (forall r s' x, f (durable p) = (r, s') -> old x -> holds s' x \/ carries (k r) x) ->
  step_ok p old (on_store f p k).
Proof.
  unfold on_store. intros Hk Ho. destruct (f (durable p)) as [r s'] eqn:E. split; cbn; [done| |eauto|].
  - exists None. split; [apply moves_refl|done].
  - intros x Hx. destruct (Ho r s' x eq_refl Hx); auto.
Qed.

Lemma call_begin_ok c p : step_ok p (fun _ => False) (call_begin c p).
Proof.
  destruct c; cbn [call_begin]; (destruct (ctx_nil ctx); [by apply step_stays|]); try by apply step_stays.
  - eapply step_mem; [apply HandleReadiness_accounts| |done]. intros a st y _ [= <-] E. cbn. by rewrite E.
  - eapply step_mem; [apply OfferSnapshot_accounts|done|done].
  - eapply step_mem; [apply OfferDelta_accounts|done|done].
  - eapply step_mem; [apply HandleHeartbeat_accounts| |done]. intros a st y _ [= <-] E. cbn. by rewrite E.
  - eapply step_mem; [apply BeginDrain_accounts| |done]. intros a st y _ [= <-] E. cbn. by rewrite E.
  - eapply step_mem; [apply RenewBegin_accounts|done|done].
  - eapply step_mem; [apply Close_accounts|done|done].
  - eapply step_mem; [apply CheckLease_accounts|done|done].
Qed.

Lemma close_step p old k : step_ok p old (on_mem (Close ReasonProtocolClosed) p k).
Proof.
  eapply step_mem; [apply Close_accounts|done|]. intros x r st _ E. right.
  destruct (Close_closes ReasonProtocolClosed (mem p) eq_refl) as (st' & E' & Hcl).
  rewrite E in E'. by injection E' as -> ->.
Qed.
Lemma write_step x p k :
  (forall e, carries (k (Some e)) x) -> step_ok p (fun y => y = x) (on_store (control_write x) p k).
Proof.
  intros Hk. apply step_store; [intros r s' y; apply control_keeps|].
  intros [e|] s' y E ->; [by right|left; by eapply control_confirms].
Qed.

Lemma thread_step_ok t p : step_ok p (fun x => in_flight t = Some x) (thread_step t p).
Proof.
  destruct t; cbn [thread_step in_flight].
  - eapply step_mem; [apply HandleAck_accounts| |done]. intros a st y _ [= <-] E. cbn. by rewrite E.
  - eapply step_mem; [apply HandleDrainAck_accounts|done|done].
  - by apply step_stays.
  - apply step_store; [|done]. intros r s' x E. by eapply Authenticator_Renew_keeps.
  - eapply step_mem; [apply RenewFinish_accounts| |done]. intros a st y _ [= <-] E. cbn. by rewrite E.
  - destruct (write_step x p (fun reply => match reply with None => inr ok | Some _ => inl (T_close x) end))
      as [? ? ? H]; [done|]. split; try done. intros y [= <-]. by apply H.
  - destruct (close_step p (fun y => Some x = Some y) (fun _ _ => inl (T_disconnect false))). by split.
  - apply step_stays. done.
  - by apply step_stays.
  - apply step_store; [intros r s' y; apply control_keeps|done].
  - destruct (write_step x p (fun reply => match reply with None => inr true | Some _ => inl (T_uncreated x) end))
      as [? ? ? H]; [done|]. split; try done. intros y [= <-]. by apply H.
  - destruct (close_step p (fun y => Some x = Some y) (fun _ _ => inr false)). by split.
Qed.

Definition resting (w : TWorld) (h : nat) (x : ControlRecord) : Prop := holds (tw_store w) x \/ pending w h x.
Definition tw_durable (w : TWorld) : Prop :=
  forall h s, tw_sessions w !! h = Some s -> state s <> SessionClosed -> durable_inv (resting w h) s.

Lemma pending_rest h k x ths a b c d e :
  carries k x -> pending (mkTWorld a b c (rest h k ++ ths) d e) h x.
Proof. destruct k as [t|]; [|done]. intros Hx. exists t. split; [by left|done]. Qed.

(** A step of one session's call keeps what every open session rests on. *)
Lemma after_step_durable w h s old ths (o : outcome) :
  tw_durable w -> tw_sessions w !! h = Some s -> step_ok (seen w s) old o ->
  (forall h' x, pending w h' x -> (exists t, (h', t) ∈ ths /\ in_flight t = Some x) \/ h' = h /\ old x) ->
  tw_durable (after_step w h o ths).
Proof.
  intros Hd Hs [Oc (x & Om & Ox) Oh Oo] Hp h' s' Hs' Hopen. cbn in Hs'.
  assert (forall y t, (h', t) ∈ ths -> in_flight t = Some y -> resting (after_step w h o ths) h' y) as Hths.
  { intros y t Ht Hy. right. exists t. split; [|done]. cbn. apply elem_of_app. by right. }
  apply lookup_insert_Some in Hs' as [[<- <-]|[Hne Hs']].
  - eapply (moves_durable (resting w h) _ x s).
    + apply (Hd h s Hs). intros Hc. by apply Hopen, Oc.
    + exact Om.
    + intros y [Hy|Hy]; [left; by apply Oh|]. destruct (Hp h y Hy) as [(t & Ht & Hy')|[_ Ho]]; [by eapply Hths|].
      destruct (Oo y Ho) as [?|[Hc|Hc]]; [by left|right; by apply pending_rest|done].
    + intros y Hy. right. by apply pending_rest, Ox.
  - eapply (moves_durable (resting w h') _ None s'); [by apply Hd|apply moves_refl| |done].
    intros y [Hy|Hy]; [left; by apply Oh|]. destruct (Hp h' y Hy) as [(t & Ht & Hy')|[-> _]]; [by eapply Hths|done].
Qed.

(** A step that only moves the store. *)
Lemma store_durable w w' :
  tw_durable w -> tw_sessions w' = tw_sessions w -> tw_threads w' = tw_threads w ->
  (forall x, holds (tw_store w) x -> holds (tw_store w') x) -> tw_durable w'.
Proof.
  intros Hd E1 E2 Hh h s Hs Hopen. rewrite E1 in Hs.
  eapply (moves_durable (resting w h) _ None s); [by apply Hd|apply moves_refl| |done].
  intros x [Hx|(t & Ht & Hx)]; [left; by apply Hh|right]. exists t. by rewrite E2.
Qed.

Lemma ask_authenticator_keeps a s reply s' x : ask_authenticator a s = (reply, s') -> holds s x -> holds s' x.
Proof.
  unfold ask_authenticator. destruct (asks_store a); [|by intros [= _ <-]].
  intros [->|[? ?]]%Authenticate_asks; [done|]. by eapply authenticate_keeps.
Qed.
Lemma ask_snapshots_keeps a auth s reply s' x : ask_snapshots a auth s = (reply, s') -> holds s x -> holds s' x.
Proof.
  unfold ask_snapshots. destruct (_ && _); [|by intros [= _ <-]].
  intros [->|[? ?]]%SnapshotSource_asks; [done|]. by eapply snapshot_keeps.
Qed.

Hypothesis others_keep : forall s s' x, others s s' -> holds s x -> holds s' x.

Lemma twstep_durable w w' : twstep w w' -> tw_durable w -> tw_durable w'.
Proof using others_keep.
  intros Hstep Hd. destruct Hstep as [h s c Hs|h s t before after Hs Ht|a _|a before after auth s' Hh Ha
    |a before after auth snapshot s' Hh Ha|a before after auth snapshot e r' Hh Ha
    |a before after auth snapshot session wel first r' h Hh Ha Hn Hf|s' Ho].
  - eapply after_step_durable; [done|done|apply call_begin_ok|]. intros h' x Hx. by left.
  - eapply after_step_durable; [done|done|apply thread_step_ok|]. intros h' x (t' & Ht' & Hx).
    rewrite Ht, elem_of_app, elem_of_cons in Ht'. destruct Ht' as [?|[[= -> ->]|?]]; [left| by right |left];
      exists t'; (split; [apply elem_of_app|done]); by auto.
  - by apply (store_durable w).
  - apply (store_durable w); try done. intros x. by eapply ask_authenticator_keeps.
  - apply (store_durable w); try done. intros x. by eapply ask_snapshots_keeps.
  - by apply (store_durable w).
  - intros h' s' Hs' Hopen. cbn in Hs'. apply lookup_insert_Some in Hs' as [[<- <-]|[Hne Hs']].
    + unfold accept_in_memory in Ha. apply Accept_accepted in Ha as Hacc.
      destruct Hacc as (_ & _ & _ & Hna & Hnc & _ & Hnd & _). apply Accept_grants in Ha as (Hl & _).
      cbn [fst snd] in *. apply (fresh_durable _ _ wel); try done. right.
      exists (T_create (created session wel)). split; [by left|done].
    + eapply (moves_durable (resting w h') _ None s'); [by apply Hd|apply moves_refl| |done].
      intros x [Hx|(t & Ht & Hx)]; [by left|right]. exists t. split; [by right|done].
  - apply (store_durable w); try done. intros x. by apply others_keep.
Qed.

(** C27. With the calls of all sessions and hellos interleaved at every point where they hold no
    lock, and whatever the store replies, in every state what an open session holds in memory
    (its row, the acknowledgement of the staged configuration, the readiness report of the
    active one, the drain, and the heartbeat or renewal that the lease and the credential come
    from) rests on records that the store has confirmed or on the record of a call of this
    session that has not returned yet, which writes it or closes the session; when no such call
    is in flight, it rests on confirmed records only. *)
Theorem open_session_is_durable s w h session :
  rtc twstep (tw_init s) w -> tw_sessions w !! h = Some session -> state session <> SessionClosed ->
  durable_inv (fun x => holds (tw_store w) x \/ pending w h x) session
  /\ ((forall t, (h, t) ∈ tw_threads w -> in_flight t = None) -> durable_inv (holds (tw_store w)) session).
Proof using others_keep.
  intros Hr Hs Hopen. assert (tw_durable w) as Hd.
  { clear Hs. revert w Hr. apply rtc_ind_r; [|intros; by eapply twstep_durable].
    intros h' s'. cbn. by rewrite lookup_empty. }
  pose proof (Hd h session Hs Hopen) as H. split; [exact H|]. intros Hq.
  eapply durable_inv_mono; [exact H|]. intros x [?|(t & Ht & Hx)]; [done|]. by rewrite Hq in Hx.
Qed.
End ThreadSteps.
