(* ===== verification/Rotation.v ===== *)
(** * The credential-rotation coordinator

    [RotationCoordinator] of src/internal/connectorprotocol/rotation.go drives
    one rotation over an immutable set of targets: it challenges the old
    session of each target, accepts the proof and stages the new credential,
    waits for every replacement session to be ready, and only then revokes the
    old credentials.  The durable store it writes to is an interface of the
    program, [RotationPersistence]; a method holds the coordinator's lock while
    it runs, so it is one computation over the coordinator and the store.

    The coordinator keeps a pointer to a mutable state per connector; the
    pointers are never shared, so the map holds the states themselves.  The
    reading of the clock, the random bytes of a revoke nonce and the reply of
    the old-key verifier are arguments.  A store sees the method's context; what
    it makes of it is part of its reply.  Go's [==] on two [time.Time] also
    compares their locations; the times here are instants in UTC. *)
From S2P Require Import Prelude GoText GoHash GoJson Errors Canonical Identifiers WireConfig Messages.
From S2P Require Import RotationMessages Transcripts ServerSession.

Definition RotationTargetState := string.
Definition RotationTargetPending : RotationTargetState := "pending".
Definition RotationTargetChallenged : RotationTargetState := "challenged".
Definition RotationTargetInstalled : RotationTargetState := "installed".
Definition RotationTargetReady : RotationTargetState := "ready".
Definition RotationTargetRevoking : RotationTargetState := "revoking".
Definition RotationTargetRevoked : RotationTargetState := "revoked".
Definition RotationTargetFailed : RotationTargetState := "failed".

Definition validRotationTargetState (state : RotationTargetState) : bool :=
  bool_decide (state ∈ [RotationTargetPending; RotationTargetChallenged; RotationTargetInstalled;
                        RotationTargetReady; RotationTargetRevoking; RotationTargetRevoked;
                        RotationTargetFailed]).

Definition RotationAggregateStatus := string.
Definition RotationAggregatePending : RotationAggregateStatus := "pending".
Definition RotationAggregateSucceeded : RotationAggregateStatus := "succeeded".
Definition RotationAggregateFailed : RotationAggregateStatus := "failed".

Module RotationTargetSummary.
Record RotationTargetSummary := mk {
  Target : RotationTarget;
  State : RotationTargetState;
  Code : Code;
}.
End RotationTargetSummary.
Abbreviation RotationTargetSummary := RotationTargetSummary.RotationTargetSummary.

Module RotationSummary.
Record RotationSummary := mk {
  AccountID : string;
  TunnelID : string;
  OperationID : string;
  TargetSetHash : string;
  Status : RotationAggregateStatus;
  Targets : list RotationTargetSummary;
  CompletedAt : time;
}.
#[export] Instance settable : Settable RotationSummary := fun r =>
  mk (AccountID r) (TunnelID r) (OperationID r) (TargetSetHash r) (Status r) (Targets r) (CompletedAt r).
Definition zero : RotationSummary := mk "" "" "" "" "" [] 0.
End RotationSummary.
Export (hints) RotationSummary.
Abbreviation RotationSummary := RotationSummary.RotationSummary.

(** ** The durable store *)

Module RotationResumeTarget.
Record RotationResumeTarget := mk {
  Target : RotationTarget;
  State : RotationTargetState;
  Code : Code;
  OverlapUntil : time;
  NewCredentialValidUntil : time;
  Challenge : CredentialRotationChallenge;
  Proof : CredentialRotationProof;
  Install : CredentialRotationInstall;
  Ready : CredentialRotationReady;
  Revoke : CredentialRotationRevoke;
}.
#[export] Instance settable : Settable RotationResumeTarget := fun r =>
  mk (Target r) (State r) (Code r) (OverlapUntil r) (NewCredentialValidUntil r) (Challenge r)
    (Proof r) (Install r) (Ready r) (Revoke r).
End RotationResumeTarget.
Export (hints) RotationResumeTarget.
Abbreviation RotationResumeTarget := RotationResumeTarget.RotationResumeTarget.

Module RotationResume.
Record RotationResume := mk {
  Plan : RotationPlan;
  Started : bool;
  FinishedAt : time;
  Targets : list RotationResumeTarget;
}.
End RotationResume.
Abbreviation RotationResume := RotationResume.RotationResume.

(** The store's operations over its state [S].  The recovery and the session
    authorisation are interfaces of their own that a store may lack; the
    coordinator asks for them with a type assertion. *)
Class RotationPersistence (S : Type) := {
  BeginCredentialRotation : RotationPlan -> S -> option goerror * S;
  RecordCredentialRotationChallenge : CredentialRotationChallenge -> S -> option goerror * S;
  RecordCredentialRotationProof : CredentialRotationChallenge -> CredentialRotationProof ->
    CredentialRotationInstall -> S -> option goerror * S;
  RecordCredentialRotationReady : CredentialRotationReady -> S -> option goerror * S;
  RecordCredentialRotationRevoke : CredentialRotationRevoke -> S -> option goerror * S;
  RecordCredentialRotationResult : CredentialRotationAck -> RotationSummary -> S -> option goerror * S;
  RotationRecoveryStore : option (RotationPlan -> S -> Res RotationResume * S);
  RotationSessionAuthorizer : option (CredentialRotationChallenge -> S -> option goerror * S);
}.

(** ** The coordinator *)

Module Target.
Record rotationTargetState := mk {
  target : RotationTarget;
  state : RotationTargetState;
  code : Code;
  challenge : CredentialRotationChallenge;
  proof : CredentialRotationProof;
  install : CredentialRotationInstall;
  ready : CredentialRotationReady;
  revoke : CredentialRotationRevoke;
}.
#[export] Instance settable : Settable rotationTargetState := fun t =>
  mk (target t) (state t) (code t) (challenge t) (proof t) (install t) (ready t) (revoke t).
(** [&rotationTargetState{target: target, state: RotationTargetPending}] *)
Definition pending (t : RotationTarget) : rotationTargetState :=
  mk t RotationTargetPending "" CredentialRotationChallenge.zero CredentialRotationProof.zero
    CredentialRotationInstall.zero CredentialRotationReady.zero CredentialRotationRevoke.zero.
End Target.
Export (hints) Target.
Abbreviation rotationTargetState := Target.rotationTargetState.
Import Target.

Record RotationCoordinator := mkCoordinator {
  plan : RotationPlan;
  started : bool;
  finished : time;
  targets : gmap string rotationTargetState;
}.
#[export] Instance RotationCoordinator_settable : Settable RotationCoordinator := fun c =>
  mkCoordinator (plan c) (started c) (finished c) (targets c).

Definition init_targets (l : list RotationTarget) : gmap string rotationTargetState :=
  foldl (fun m t => <[RotationTarget.ConnectorID t := Target.pending t]> m) ∅ l.

(** The store and the verifier are parameters of the model and never nil. *)
Definition NewRotationCoordinator (p : RotationPlan) : Res RotationCoordinator :=
  match RotationPlan_Validate p with
  | Some _ => Err ErrInvalidInput
  | None => Ok (mkCoordinator p false 0 (init_targets (RotationPlan.Targets p)))
  end.

(** *** Summaries *)

(** Every target of the plan has a state, so the default is never used (a nil
    pointer in the code). *)
Definition target_state (c : RotationCoordinator) (t : RotationTarget) : rotationTargetState :=
  default (Target.pending t) (targets c !! RotationTarget.ConnectorID t).

Definition summaryLocked (c : RotationCoordinator) : RotationSummary :=
  let states := map (target_state c) (RotationPlan.Targets (plan c)) in
  let entries := map (fun t => RotationTargetSummary.mk t (state (target_state c t)) (code (target_state c t)))
                   (RotationPlan.Targets (plan c)) in
  let failed := existsb (fun s => state s == RotationTargetFailed) states in
  let succeeded := forallb (fun s => state s == RotationTargetRevoked) states in
  RotationSummary.mk (RotationPlan.AccountID (plan c)) (RotationPlan.TunnelID (plan c))
    (RotationPlan.OperationID (plan c)) (RotationPlan.TargetSetHash (plan c))
    (if failed then RotationAggregateFailed
     else if succeeded then RotationAggregateSucceeded else RotationAggregatePending)
    entries
    (if failed then 0 else if succeeded then finished c else 0).

Definition Coordinator_Summary (c : RotationCoordinator) : RotationSummary := summaryLocked c.

Definition ready_or_later (s : rotationTargetState) : bool :=
  (state s == RotationTargetReady) || (state s == RotationTargetRevoking)
  || (state s == RotationTargetRevoked).
Definition allReadyLocked (c : RotationCoordinator) : bool :=
  forallb ready_or_later (map snd (map_to_list (targets c))).

Section FailureAck.
Import CredentialRotationAck.
Definition failureAckLocked (c : RotationCoordinator) (s : rotationTargetState) (code : Errors.Code)
    : CredentialRotationAck :=
  let '(sessionID, processGeneration) :=
    if CredentialRotationRevoke.SessionID (revoke s) != "" then
      (CredentialRotationRevoke.SessionID (revoke s), CredentialRotationRevoke.ProcessGeneration (revoke s))
    else if CredentialRotationReady.SessionID (ready s) != "" then
      (CredentialRotationReady.SessionID (ready s), CredentialRotationReady.ProcessGeneration (ready s))
    else (CredentialRotationChallenge.SessionID (challenge s),
          CredentialRotationChallenge.ProcessGeneration (challenge s)) in
  CredentialRotationAck.mk (RotationPlan.AccountID (plan c)) (RotationPlan.TunnelID (plan c))
    (RotationPlan.OperationID (plan c)) (RotationTarget.ConnectorID (target s))
    (RotationTarget.HostID (target s)) sessionID processGeneration (RotationPlan.TargetSetHash (plan c))
    (RotationTarget.OldCredentialGeneration (target s)) (RotationTarget.NewCredentialGeneration (target s))
    RotationAckFailed code "".

Definition rotationNegativeAckMatches (s : rotationTargetState) (ack : CredentialRotationAck) : bool :=
  let '(sessionID, processGeneration) :=
    if (state s == RotationTargetChallenged) || (state s == RotationTargetInstalled) then
      (CredentialRotationChallenge.SessionID (challenge s),
       CredentialRotationChallenge.ProcessGeneration (challenge s))
    else if state s == RotationTargetReady then
      (CredentialRotationReady.SessionID (ready s), CredentialRotationReady.ProcessGeneration (ready s))
    else if state s == RotationTargetRevoking then
      (CredentialRotationRevoke.SessionID (revoke s), CredentialRotationRevoke.ProcessGeneration (revoke s))
    else ("", 0) in
  (sessionID != "") && (0 <? processGeneration) && (SessionID ack == sessionID)
  && (ProcessGeneration ack =? processGeneration).
End FailureAck.

(** [newOpaqueID] of protocol.go over the 18 bytes of [rand.Read]. *)
Definition newOpaqueID (random : Res (list Z)) (prefix : string) : Res string :=
  match random with
  | Err err => Err err
  | Ok bytes => Ok (prefix +:+ "_" +:+ hex_EncodeToString bytes)
  end.

(** *** What a recovered target must look like *)
Section ResumeTarget.
Import RotationResumeTarget.

Definition challenge_bound (p : RotationPlan) (r : RotationResumeTarget) : bool :=
  let c := Challenge r in
  ok (CredentialRotationChallenge_Validate c 0)
  && (CredentialRotationChallenge.AccountID c == RotationPlan.AccountID p)
  && (CredentialRotationChallenge.TunnelID c == RotationPlan.TunnelID p)
  && (CredentialRotationChallenge.OperationID c == RotationPlan.OperationID p)
  && (CredentialRotationChallenge.TargetSetHash c == RotationPlan.TargetSetHash p)
  && (CredentialRotationChallenge.Target c == Target r)
  && (CredentialRotationChallenge.ConnectorID c == RotationTarget.ConnectorID (Target r))
  && (CredentialRotationChallenge.HostID c == RotationTarget.HostID (Target r)).

Definition install_bound (p : RotationPlan) (r : RotationResumeTarget) : bool :=
  let i := Install r in
  ok (CredentialRotationInstall_Validate i 0)
  && (CredentialRotationInstall.AccountID i == RotationPlan.AccountID p)
  && (CredentialRotationInstall.TunnelID i == RotationPlan.TunnelID p)
  && (CredentialRotationInstall.OperationID i == RotationPlan.OperationID p)
  && (CredentialRotationInstall.TargetSetHash i == RotationPlan.TargetSetHash p)
  && (CredentialRotationInstall.ConnectorID i == RotationTarget.ConnectorID (Target r))
  && (CredentialRotationInstall.HostID i == RotationTarget.HostID (Target r))
  && (CredentialRotationInstall.SessionID i == CredentialRotationChallenge.SessionID (Challenge r))
  && (CredentialRotationInstall.ProcessGeneration i
        =? CredentialRotationChallenge.ProcessGeneration (Challenge r))
  && (CredentialRotationInstall.OldCredentialGeneration i
        =? RotationTarget.OldCredentialGeneration (Target r))
  && (CredentialRotationInstall.NewCredentialGeneration i
        =? RotationTarget.NewCredentialGeneration (Target r))
  && (CredentialRotationInstall.ChallengeNonce i
        == CredentialRotationChallenge.ChallengeNonce (Challenge r)).

Definition ready_bound (p : RotationPlan) (r : RotationResumeTarget) : bool :=
  let y := Ready r in
  let i := Install r in
  ok (CredentialRotationReady_Validate y 0)
  && (CredentialRotationReady.AccountID y == RotationPlan.AccountID p)
  && (CredentialRotationReady.TunnelID y == RotationPlan.TunnelID p)
  && (CredentialRotationReady.OperationID y == RotationPlan.OperationID p)
  && (CredentialRotationReady.TargetSetHash y == RotationPlan.TargetSetHash p)
  && (CredentialRotationReady.ConnectorID y == RotationTarget.ConnectorID (Target r))
  && (CredentialRotationReady.HostID y == RotationTarget.HostID (Target r))
  && (CredentialRotationReady.PreviousSessionID y == CredentialRotationInstall.SessionID i)
  && (CredentialRotationReady.SessionID y != CredentialRotationInstall.SessionID i)
  && negb (CredentialRotationReady.ProcessGeneration y
             <? CredentialRotationInstall.ReplacementProcessGeneration i)
  && (CredentialRotationReady.OldCredentialGeneration y
        =? RotationTarget.OldCredentialGeneration (Target r))
  && (CredentialRotationReady.NewCredentialGeneration y
        =? RotationTarget.NewCredentialGeneration (Target r))
  && (CredentialRotationReady.NewIdentityKeyID y == CredentialRotationInstall.NewIdentityKeyID i)
  && (CredentialRotationReady.NewIdentityKeyThumbprint y
        == CredentialRotationInstall.NewIdentityKeyThumbprint i)
  && (CredentialRotationReady.NewPublicKey y == CredentialRotationInstall.NewPublicKey i)
  && (CredentialRotationReady.NewCredentialReference y
        == CredentialRotationInstall.NewCredentialReference i)
  && (CredentialRotationReady.NewCredentialValidUntil y
        =? CredentialRotationInstall.NewCredentialValidUntil i).

Definition revoke_bound (p : RotationPlan) (r : RotationResumeTarget) : bool :=
  let v := Revoke r in
  let y := Ready r in
  let sameReadySession :=
    (CredentialRotationRevoke.ProcessGeneration v =? CredentialRotationReady.ProcessGeneration y)
    && (CredentialRotationRevoke.SessionID v == CredentialRotationReady.SessionID y) in
  let reboundSession :=
    (CredentialRotationReady.ProcessGeneration y <? CredentialRotationRevoke.ProcessGeneration v)
    && (CredentialRotationRevoke.SessionID v != CredentialRotationReady.SessionID y) in
  ok (CredentialRotationRevoke_Validate v 0)
  && (CredentialRotationRevoke.AccountID v == RotationPlan.AccountID p)
  && (CredentialRotationRevoke.TunnelID v == RotationPlan.TunnelID p)
  && (CredentialRotationRevoke.OperationID v == RotationPlan.OperationID p)
  && (CredentialRotationRevoke.TargetSetHash v == RotationPlan.TargetSetHash p)
  && (CredentialRotationRevoke.ConnectorID v == RotationTarget.ConnectorID (Target r))
  && (CredentialRotationRevoke.HostID v == RotationTarget.HostID (Target r))
  && (sameReadySession || reboundSession)
  && (CredentialRotationRevoke.OldCredentialGeneration v
        =? RotationTarget.OldCredentialGeneration (Target r))
  && (CredentialRotationRevoke.NewCredentialGeneration v
        =? RotationTarget.NewCredentialGeneration (Target r)).

Definition challengePresent (r : RotationResumeTarget) : bool :=
  CredentialRotationChallenge.SessionID (Challenge r) != "".
Definition installPresent (r : RotationResumeTarget) : bool :=
  CredentialRotationInstall.SessionID (Install r) != "".
Definition readyPresent (r : RotationResumeTarget) : bool :=
  CredentialRotationReady.SessionID (Ready r) != "".
Definition revokePresent (r : RotationResumeTarget) : bool :=
  CredentialRotationRevoke.SessionID (Revoke r) != "".

(** The final switch: the phase and the messages that go with it. *)
Definition phase_matches (r : RotationResumeTarget) : bool :=
  let cp := challengePresent r in let ip := installPresent r in
  let yp := readyPresent r in let vp := revokePresent r in
  if State r == RotationTargetPending then negb (cp || ip || yp || vp)
  else if State r == RotationTargetChallenged then negb (negb cp || ip || yp || vp)
  else if State r == RotationTargetInstalled then negb (negb ip || yp || vp)
  else if State r == RotationTargetReady then negb (negb yp || vp)
  else if (State r == RotationTargetRevoking) || (State r == RotationTargetRevoked) then vp
  else true.

Definition validateRotationResumeTarget (p : RotationPlan) (r : RotationResumeTarget)
    : option goerror :=
  match RotationTarget_Validate (Target r) with
  | Some err => Some err
  | None =>
  if negb (RotationPlan_Target p (RotationTarget.ConnectorID (Target r)) == Some (Target r))
  then Some ErrIdentityMismatch
  else if negb (validRotationTargetState (State r)) then Some ErrInvalidInput
  else if (State r == RotationTargetFailed)
       && ((RotationResumeTarget.Code r == "") || negb (validCode (RotationResumeTarget.Code r)))
  then Some ErrInvalidInput
  else if (State r != RotationTargetFailed) && (RotationResumeTarget.Code r != "")
  then Some ErrInvalidInput
  else if xorb (IsZero (OverlapUntil r)) (IsZero (NewCredentialValidUntil r))
       || negb (IsZero (OverlapUntil r)) && negb (After (NewCredentialValidUntil r) (OverlapUntil r))
  then Some ErrInvalidInput
  else if negb (challengePresent r) && (installPresent r || readyPresent r || revokePresent r)
  then Some ErrInvalidInput
  else if negb (installPresent r) && (readyPresent r || revokePresent r) then Some ErrInvalidInput
  else if negb (readyPresent r) && revokePresent r then Some ErrInvalidInput
  else if challengePresent r && negb (challenge_bound p r) then Some ErrIdentityMismatch
  else if installPresent r && negb (install_bound p r) then Some ErrIdentityMismatch
  else if readyPresent r && negb (ready_bound p r) then Some ErrIdentityMismatch
  else if revokePresent r && negb (revoke_bound p r) then Some ErrIdentityMismatch
  else if negb (phase_matches r) then Some ErrInvalidInput
  else None
  end.
End ResumeTarget.

(** ** The coordinator's methods *)
Section Methods.
Context {S : Type} `{!RotationPersistence S}.
Context (ed25519_Verify : list Z -> string -> list Z -> bool).
Context (verify : CredentialRotationProof -> string -> list Z -> option goerror).

Record RotState := mkRot { coord : RotationCoordinator; store : S }.
#[global] Instance RotState_settable : Settable RotState := fun s => mkRot (coord s) (store s).

(** A method returns a value, or a value beside an error. *)
Definition Rot (A B : Type) := M RotState (A * goerror) B.

Definition get_coord {A} : Rot A RotationCoordinator := fun s => (Ok (coord s), s).
Definition upd_coord {A} (f : RotationCoordinator -> RotationCoordinator) : Rot A unit :=
  fun s => (Ok tt, mkRot (f (coord s)) (store s)).
Definition upd_target {A} (connectorID : string) (f : rotationTargetState -> rotationTargetState)
    : Rot A unit :=
  upd_coord (fun c => c <| targets := alter f connectorID (targets c) |>).
(** A call to the store: its reply, and its state after it. *)
Definition call {A B} (f : S -> B * S) : Rot A B :=
  fun s => let (r, s') := f (store s) in (Ok r, mkRot (coord s) s').

(** [if err := ctx.Err(); err != nil] *)
Definition check_ctx {A} (v : A) (ctx : Context) : Rot A unit :=
  match ctx_Err ctx with
  | Some err => throw (v, codeError ErrCanceled ReasonCanceled true (Some err))
  | None => ret tt
  end.
Definition fails {A} (v : A) (o : option goerror) : Rot A unit :=
  match o with Some err => throw (v, err) | None => ret tt end.

Definition rotation_failed (cause : option goerror) : goerror :=
  codeError ErrCredentialRotationFailed ReasonCredentialRotation false cause.
Definition target_fails {A} (connectorID : string) (code : Errors.Code) : Rot A unit :=
  upd_target connectorID (fun s => s <| state := RotationTargetFailed |> <| Target.code := code |>).

Definition Start (ctx : Context) : Rot unit unit :=
  fail_if (ctx_nil ctx) (tt, ErrInvalidInput) ;;
  check_ctx tt ctx ;;
  c ← get_coord;
  if started c then ret tt else
  reply ← call (BeginCredentialRotation (plan c));
  fails tt (match reply with Some err => Some (rotation_failed (Some err)) | None => None end) ;;
  upd_coord (fun c => c <| started := true |>).

(** *** [Resume]

    The load runs before the lock is taken.  Until then the method reads only
    the plan, which never changes, and what may run in between on a coordinator
    that has not started is [Start] or another [Resume], after which this one
    adopts nothing: the same as the two calls one after the other. *)

Definition recovery_mismatch (msg : string) : goerror :=
  codeError ErrIdentityMismatch ReasonCredentialRotation false (Some (OtherError msg)).

(** The first loop over the loaded targets. *)
Fixpoint check_recovered (c : RotationCoordinator) (seen : list string)
    (l : list RotationResumeTarget) : option goerror :=
  match l with
  | [] => None
  | recovered :: rest =>
      let connectorID := RotationTarget.ConnectorID (RotationResumeTarget.Target recovered) in
      if bool_decide (connectorID ∈ seen)
      then Some (recovery_mismatch "rotation recovery contains duplicate target")
      else if match targets c !! connectorID with
              | None => true
              | Some s => (target s != RotationResumeTarget.Target recovered)
                          || negb (validRotationTargetState (RotationResumeTarget.State recovered))
                          || negb (ok (validateRotationResumeTarget (plan c) recovered))
              end
      then Some (recovery_mismatch "rotation recovery target or phase mismatch")
      else check_recovered c (connectorID :: seen) rest
  end.

(** The last loop: the loaded states become the coordinator's. *)
Definition adopt (m : gmap string rotationTargetState) (recovered : RotationResumeTarget)
    : gmap string rotationTargetState :=
  alter (fun s => Target.mk (target s) (RotationResumeTarget.State recovered)
                    (RotationResumeTarget.Code recovered) (RotationResumeTarget.Challenge recovered)
                    (RotationResumeTarget.Proof recovered) (RotationResumeTarget.Install recovered)
                    (RotationResumeTarget.Ready recovered) (RotationResumeTarget.Revoke recovered))
    (RotationTarget.ConnectorID (RotationResumeTarget.Target recovered)) m.

Definition plan_mismatch (loaded : RotationResume) (p : RotationPlan) : bool :=
  let q := RotationResume.Plan loaded in
  negb (RotationResume.Started loaded)
  || (RotationPlan.AccountID q != RotationPlan.AccountID p)
  || (RotationPlan.TunnelID q != RotationPlan.TunnelID p)
  || (RotationPlan.OperationID q != RotationPlan.OperationID p)
  || (RotationPlan.TargetSetHash q != RotationPlan.TargetSetHash p)
  || negb (ok (RotationPlan_Validate q)).

Definition Resume (ctx : Context) (now : time) : Rot unit unit :=
  fail_if (ctx_nil ctx) (tt, ErrInvalidInput) ;;
  check_ctx tt ctx ;;
  match RotationRecoveryStore with
  | None => throw (tt, codeError ErrUnsupportedMessage ReasonCredentialRotation false
                         (Some (OtherError "rotation persistence does not support recovery")))
  | Some load =>
      c ← get_coord;
      reply ← call (load (plan c));
      loaded ← match reply with
               | Err err => throw (tt, codeError ErrCredentialRotationFailed ReasonCredentialRotation
                                         true (Some err))
               | Ok loaded => ret loaded
               end;
      fail_if (plan_mismatch loaded (plan c)) (tt, recovery_mismatch "rotation recovery plan mismatch") ;;
      if started c then ret tt else
      fail_if (negb (Z.of_nat (length (RotationResume.Targets loaded)) =? Z.of_nat (size (targets c))))
        (tt, recovery_mismatch "rotation recovery target count mismatch") ;;
      fails tt (check_recovered c [] (RotationResume.Targets loaded)) ;;
      let finishedAt := RotationResume.FinishedAt loaded in
      (if IsZero finishedAt then ret tt else
       let states := map RotationResumeTarget.State (RotationResume.Targets loaded) in
       let failed := existsb (fun s => s == RotationTargetFailed) states in
       let allRevoked := forallb (fun s => s == RotationTargetRevoked) states in
       fail_if (negb failed && negb allRevoked)
         (tt, recovery_mismatch "rotation recovery finished timestamp does not match target states") ;;
       fail_if (After finishedAt (Add now MaxClockSkew))
         (tt, recovery_mismatch "rotation recovery finished timestamp is in the future")) ;;
      upd_coord (fun c => c <| targets := foldl adopt (targets c) (RotationResume.Targets loaded) |>
                            <| started := true |> <| finished := finishedAt |>)
  end.

(** *** [Challenge] *)
Section ChallengeMethod.
Import CredentialRotationChallenge.

Definition ChallengeWithCredentialExpiry (ctx : Context) (now : time) (connectorID sessionID : string)
    (processGeneration : Z) (oldIdentityKeyID oldIdentityKeyThumbprint nonce : string)
    (issuedAt expiresAt overlapUntil credentialValidUntil : time)
    : Rot CredentialRotationChallenge CredentialRotationChallenge :=
  fail_if (ctx_nil ctx) (zero, ErrInvalidInput) ;;
  check_ctx zero ctx ;;
  c ← get_coord;
  fail_if (negb (started c)) (zero, ErrInvalidInput) ;;
  match targets c !! connectorID with
  | None => throw (zero, codeError ErrIdentityMismatch ReasonAuthentication false None)
  | Some s =>
      fail_if ((state s != RotationTargetPending)
               && ((state s != RotationTargetChallenged)
                   || IsZero (ExpiresAt (Target.challenge s)) || After (ExpiresAt (Target.challenge s)) now))
        (zero, codeError ErrSessionConflict ReasonStaleGeneration true None) ;;
      let t := target s in
      let ch := CredentialRotationChallenge.mk (RotationPlan.AccountID (plan c))
        (RotationPlan.TunnelID (plan c)) (RotationPlan.OperationID (plan c)) connectorID
        (RotationTarget.HostID t) sessionID processGeneration (RotationPlan.TargetSetHash (plan c)) t
        (RotationTarget.OldCredentialGeneration t) (RotationTarget.NewCredentialGeneration t)
        oldIdentityKeyID oldIdentityKeyThumbprint nonce issuedAt expiresAt overlapUntil
        credentialValidUntil in
      fails zero (CredentialRotationChallenge_Validate ch now) ;;
      match RotationSessionAuthorizer with
      | None => ret tt
      | Some authorize => reply ← call (authorize ch); fails zero reply
      end ;;
      reply ← call (RecordCredentialRotationChallenge ch);
      fails zero (match reply with Some err => Some (rotation_failed (Some err)) | None => None end) ;;
      upd_target connectorID (fun s => s <| Target.challenge := ch |>
                                         <| state := RotationTargetChallenged |>) ;;
      ret ch
  end.

(** The name [Challenge] with the default expiry of the new credential. *)
Definition Challenge (ctx : Context) (now : time) (connectorID sessionID : string)
    (processGeneration : Z) (oldIdentityKeyID oldIdentityKeyThumbprint nonce : string)
    (issuedAt expiresAt overlapUntil : time)
    : Rot CredentialRotationChallenge CredentialRotationChallenge :=
  ChallengeWithCredentialExpiry ctx now connectorID sessionID processGeneration oldIdentityKeyID
    oldIdentityKeyThumbprint nonce issuedAt expiresAt overlapUntil
    (Add overlapUntil (365 * 24 * Hour)).
End ChallengeMethod.

(** *** [AcceptProof] *)
Section AcceptProofMethod.
Import CredentialRotationProof.

Definition rotationProofMatchesChallenge (p : CredentialRotationProof)
    (c : CredentialRotationChallenge) (t : RotationTarget) : bool :=
  (AccountID p == CredentialRotationChallenge.AccountID c)
  && (TunnelID p == CredentialRotationChallenge.TunnelID c)
  && (OperationID p == CredentialRotationChallenge.OperationID c)
  && (ConnectorID p == CredentialRotationChallenge.ConnectorID c)
  && (HostID p == CredentialRotationChallenge.HostID c)
  && (SessionID p == CredentialRotationChallenge.SessionID c)
  && (ProcessGeneration p =? CredentialRotationChallenge.ProcessGeneration c)
  && (TargetSetHash p == CredentialRotationChallenge.TargetSetHash c)
  && (OldCredentialGeneration p =? RotationTarget.OldCredentialGeneration t)
  && (NewCredentialGeneration p =? RotationTarget.NewCredentialGeneration t)
  && (OldIdentityKeyID p == CredentialRotationChallenge.OldIdentityKeyID c)
  && (OldIdentityKeyThumbprint p == CredentialRotationChallenge.OldIdentityKeyThumbprint c)
  && (ChallengeNonce p == CredentialRotationChallenge.ChallengeNonce c)
  && (NewCredentialValidUntil p =? CredentialRotationChallenge.NewCredentialValidUntil c)
  && negb (Before (IssuedAt p) (CredentialRotationChallenge.IssuedAt c))
  && negb (After (IssuedAt p) (CredentialRotationChallenge.ExpiresAt c)).

Definition rotationAckForInstall (i : CredentialRotationInstall) : CredentialRotationAck :=
  CredentialRotationAck.mk (CredentialRotationInstall.AccountID i)
    (CredentialRotationInstall.TunnelID i) (CredentialRotationInstall.OperationID i)
    (CredentialRotationInstall.ConnectorID i) (CredentialRotationInstall.HostID i)
    (CredentialRotationInstall.SessionID i) (CredentialRotationInstall.ProcessGeneration i)
    (CredentialRotationInstall.TargetSetHash i) (CredentialRotationInstall.OldCredentialGeneration i)
    (CredentialRotationInstall.NewCredentialGeneration i) RotationAckInstalled "" "".

Definition install_of (p : RotationPlan) (c : CredentialRotationChallenge)
    (proof : CredentialRotationProof) : CredentialRotationInstall :=
  CredentialRotationInstall.mk (RotationPlan.AccountID p) (RotationPlan.TunnelID p)
    (RotationPlan.OperationID p) (ConnectorID proof) (HostID proof) (SessionID proof)
    (ProcessGeneration proof) (RotationPlan.TargetSetHash p) (OldCredentialGeneration proof)
    (NewCredentialGeneration proof) (NewIdentityKeyID proof) (NewIdentityKeyThumbprint proof)
    (NewPublicKey proof) (NewCredentialReference proof) (ChallengeNonce proof)
    (CredentialRotationChallenge.OverlapUntil c) (NewCredentialValidUntil proof)
    (u64_add (ProcessGeneration proof) 1).

Definition no_install : CredentialRotationInstall * CredentialRotationAck :=
  (CredentialRotationInstall.zero, CredentialRotationAck.zero).

Definition AcceptProof (ctx : Context) (now : time) (proof : CredentialRotationProof)
    : Rot (CredentialRotationInstall * CredentialRotationAck)
          (CredentialRotationInstall * CredentialRotationAck) :=
  fail_if (ctx_nil ctx) (no_install, ErrInvalidInput) ;;
  check_ctx no_install ctx ;;
  fails no_install (CredentialRotationProof_Validate proof now) ;;
  c ← get_coord;
  let stale := codeError ErrStaleGeneration ReasonStaleGeneration false None in
  match targets c !! ConnectorID proof with
  | None => throw (no_install, stale)
  | Some s =>
      fail_if (state s != RotationTargetChallenged) (no_install, stale) ;;
      let ch := Target.challenge s in
      fail_if (negb (rotationProofMatchesChallenge proof ch (target s)))
        (no_install, codeError ErrIdentityMismatch ReasonAuthentication false None) ;;
      fails no_install (VerifyCredentialRotationProofAt ed25519_Verify verify proof now) ;;
      let i := install_of (plan c) ch proof in
      fails no_install (CredentialRotationInstall_Validate i now) ;;
      reply ← call (RecordCredentialRotationProof ch proof i);
      match reply with
      | Some err =>
          target_fails (ConnectorID proof) CodeCredentialRotationFailed ;;
          throw (no_install, rotation_failed (Some err))
      | None =>
          upd_target (ConnectorID proof)
            (fun s => s <| Target.proof := proof |> <| install := i |>
                        <| state := RotationTargetInstalled |>) ;;
          ret (i, rotationAckForInstall i)
      end
  end.
End AcceptProofMethod.

(** *** [MarkReady] *)
Section MarkReadyMethod.
Import CredentialRotationReady.

Definition ready_ack (r : CredentialRotationReady) (status : RotationAckStatus) (code : Errors.Code)
    : CredentialRotationAck :=
  CredentialRotationAck.mk (AccountID r) (TunnelID r) (OperationID r) (ConnectorID r) (HostID r)
    (SessionID r) (ProcessGeneration r) (TargetSetHash r) (OldCredentialGeneration r)
    (NewCredentialGeneration r) status code "".
Definition rotationRejectedAck (r : CredentialRotationReady) (code : Errors.Code)
    : CredentialRotationAck := ready_ack r RotationAckRejected code.

Definition ready_mismatch (p : RotationPlan) (i : CredentialRotationInstall)
    (r : CredentialRotationReady) : bool :=
  (AccountID r != RotationPlan.AccountID p) || (TunnelID r != RotationPlan.TunnelID p)
  || (OperationID r != RotationPlan.OperationID p)
  || (ConnectorID r != CredentialRotationInstall.ConnectorID i)
  || (HostID r != CredentialRotationInstall.HostID i)
  || (TargetSetHash r != RotationPlan.TargetSetHash p)
  || (SessionID r == CredentialRotationInstall.SessionID i)
  || (PreviousSessionID r != CredentialRotationInstall.SessionID i)
  || (ProcessGeneration r <? CredentialRotationInstall.ReplacementProcessGeneration i)
  || negb (OldCredentialGeneration r =? CredentialRotationInstall.OldCredentialGeneration i)
  || negb (NewCredentialGeneration r =? CredentialRotationInstall.NewCredentialGeneration i)
  || (NewIdentityKeyID r != CredentialRotationInstall.NewIdentityKeyID i)
  || (NewIdentityKeyThumbprint r != CredentialRotationInstall.NewIdentityKeyThumbprint i)
  || (NewPublicKey r != CredentialRotationInstall.NewPublicKey i)
  || (NewCredentialReference r != CredentialRotationInstall.NewCredentialReference i)
  || negb (NewCredentialValidUntil r =? CredentialRotationInstall.NewCredentialValidUntil i).

Definition MarkReady (ctx : Context) (now : time) (r : CredentialRotationReady)
    : Rot CredentialRotationAck CredentialRotationAck :=
  let none := CredentialRotationAck.zero in
  fail_if (ctx_nil ctx) (none, ErrInvalidInput) ;;
  check_ctx none ctx ;;
  fails (rotationRejectedAck r CodeCredentialRotationNotReady) (CredentialRotationReady_Validate r now) ;;
  c ← get_coord;
  let stale := codeError ErrStaleGeneration ReasonStaleGeneration false None in
  match targets c !! ConnectorID r with
  | None => throw (none, stale)
  | Some s =>
      fail_if (state s != RotationTargetInstalled) (none, stale) ;;
      fail_if (ready_mismatch (plan c) (install s) r)
        (none, codeError ErrIdentityMismatch ReasonAuthentication false None) ;;
      reply ← call (RecordCredentialRotationReady r);
      match reply with
      | Some err =>
          target_fails (ConnectorID r) CodeCredentialRotationFailed ;;
          throw (none, rotation_failed (Some err))
      | None =>
          upd_target (ConnectorID r)
            (fun s => s <| Target.ready := r |> <| state := RotationTargetReady |>) ;;
          ret (ready_ack r RotationAckReady "")
      end
  end.
End MarkReadyMethod.

(** *** [Revoke]

    [random] is what [rand.Read] gives for the nonce. *)
Section RevokeMethod.
Import CredentialRotationRevoke.

Definition revoke_of (p : RotationPlan) (s : rotationTargetState) (connectorID nonce : string)
    (now : time) : CredentialRotationRevoke :=
  CredentialRotationRevoke.mk (RotationPlan.AccountID p) (RotationPlan.TunnelID p)
    (RotationPlan.OperationID p) connectorID (RotationTarget.HostID (target s))
    (CredentialRotationReady.SessionID (Target.ready s))
    (CredentialRotationReady.ProcessGeneration (Target.ready s)) (RotationPlan.TargetSetHash p)
    (RotationTarget.OldCredentialGeneration (target s))
    (RotationTarget.NewCredentialGeneration (target s)) nonce now (Add now DefaultAbortTimeout).

Definition Revoke (ctx : Context) (now : time) (random : Res (list Z)) (connectorID : string)
    : Rot CredentialRotationRevoke CredentialRotationRevoke :=
  fail_if (ctx_nil ctx) (zero, ErrInvalidInput) ;;
  check_ctx zero ctx ;;
  c ← get_coord;
  match targets c !! connectorID with
  | None => throw (zero, codeError ErrIdentityMismatch ReasonAuthentication false None)
  | Some s =>
      fail_if (RotationSummary.Status (summaryLocked c) == RotationAggregateFailed)
        (zero, rotation_failed None) ;;
      fail_if (negb (allReadyLocked c))
        (zero, codeError ErrCredentialRotationNotReady ReasonSnapshotRejected true None) ;;
      if state s == RotationTargetRevoking then ret (Target.revoke s) else
      fail_if (state s != RotationTargetReady)
        (zero, codeError ErrStaleGeneration ReasonStaleGeneration false None) ;;
      revokeNonce ← match newOpaqueID random "rotation-revoke" with
                    | Err err => throw (zero, err)
                    | Ok nonce => ret nonce
                    end;
      let v := revoke_of (plan c) s connectorID revokeNonce now in
      fails zero (CredentialRotationRevoke_Validate v now) ;;
      reply ← call (RecordCredentialRotationRevoke v);
      match reply with
      | Some err =>
          target_fails connectorID CodeCredentialRotationFailed ;;
          throw (zero, rotation_failed (Some err))
      | None =>
          upd_target connectorID
            (fun s => s <| Target.revoke := v |> <| state := RotationTargetRevoking |>) ;;
          ret v
      end
  end.
End RevokeMethod.

(** *** [HandleAck] and [Fail] *)
Section HandleAckMethod.
Import CredentialRotationAck.

Definition ack_mismatch (p : RotationPlan) (t : RotationTarget) (a : CredentialRotationAck) : bool :=
  (AccountID a != RotationPlan.AccountID p) || (TunnelID a != RotationPlan.TunnelID p)
  || (OperationID a != RotationPlan.OperationID p) || (TargetSetHash a != RotationPlan.TargetSetHash p)
  || (HostID a != RotationTarget.HostID t)
  || negb (OldCredentialGeneration a =? RotationTarget.OldCredentialGeneration t)
  || negb (NewCredentialGeneration a =? RotationTarget.NewCredentialGeneration t).

Definition no_summary : RotationSummary := RotationSummary.zero.
Definition stale_generation : goerror := codeError ErrStaleGeneration ReasonStaleGeneration false None.

(** The summary after the writes of the method so far. *)
Definition summary_now {A} : Rot A RotationSummary := fun s => (Ok (summaryLocked (coord s)), s).

(** Mark the target failed, record the result, and take the mark back when the
    store refuses it.  The cause of the error differs between the callers. *)
Definition record_failure (connectorID : string) (s : rotationTargetState) (code : Errors.Code)
    (ack : CredentialRotationAck) (wrap : goerror -> goerror) : Rot RotationSummary RotationSummary :=
  target_fails connectorID code ;;
  summary ← summary_now;
  reply ← call (RecordCredentialRotationResult ack summary);
  match reply with
  | Some err =>
      upd_target connectorID (fun t => t <| state := state s |> <| Target.code := Target.code s |>) ;;
      restored ← summary_now;
      throw (restored, rotation_failed (Some (wrap err)))
  | None => throw (summary, rotation_failed (Some (OtherError code)))
  end.

Definition Coordinator_HandleAck (ctx : Context) (now : time) (ack : CredentialRotationAck)
    : Rot RotationSummary RotationSummary :=
  fail_if (ctx_nil ctx) (no_summary, ErrInvalidInput) ;;
  fails no_summary (CredentialRotationAck_Validate ack) ;;
  check_ctx no_summary ctx ;;
  c ← get_coord;
  let mismatch := codeError ErrIdentityMismatch ReasonAuthentication false None in
  match targets c !! ConnectorID ack with
  | None => throw (no_summary, mismatch)
  | Some s =>
      fail_if (ack_mismatch (plan c) (target s) ack) (no_summary, mismatch) ;;
      fail_if ((state s == RotationTargetRevoked) || (state s == RotationTargetFailed))
        (summaryLocked c, stale_generation) ;;
      if (Status ack == RotationAckRejected) || (Status ack == RotationAckFailed) then
        fail_if (negb (rotationNegativeAckMatches s ack)) (no_summary, mismatch) ;;
        record_failure (ConnectorID ack) s (CredentialRotationAck.Code ack) ack
          (fun err => JoinError [ErrCredentialRotationFailed; err])
      else if Status ack == RotationAckInstalled then
        fail_if ((state s != RotationTargetInstalled)
                 || (SessionID ack != CredentialRotationInstall.SessionID (install s))
                 || negb (ProcessGeneration ack
                            =? CredentialRotationInstall.ProcessGeneration (install s)))
          (no_summary, stale_generation) ;;
        ret (summaryLocked c)
      else if Status ack == RotationAckReady then
        fail_if ((state s != RotationTargetReady)
                 || (SessionID ack != CredentialRotationReady.SessionID (ready s))
                 || negb (ProcessGeneration ack =? CredentialRotationReady.ProcessGeneration (ready s)))
          (no_summary, stale_generation) ;;
        ret (summaryLocked c)
      else
        fail_if ((Status ack != RotationAckRevoked) || (state s != RotationTargetRevoking)
                 || (SessionID ack != CredentialRotationRevoke.SessionID (revoke s))
                 || negb (ProcessGeneration ack =? CredentialRotationRevoke.ProcessGeneration (revoke s)))
          (no_summary, stale_generation) ;;
        upd_target (ConnectorID ack) (fun t => t <| state := RotationTargetRevoked |>) ;;
        summary ← summary_now;
        (if RotationSummary.Status summary == RotationAggregateSucceeded
         then upd_coord (fun c => c <| finished := now |>) else ret tt) ;;
        let summary := if RotationSummary.Status summary == RotationAggregateSucceeded
                       then summary <| RotationSummary.CompletedAt := now |> else summary in
        reply ← call (RecordCredentialRotationResult ack summary);
        match reply with
        | Some err =>
            target_fails (ConnectorID ack) CodeCredentialRotationFailed ;;
            failed ← summary_now;
            throw (failed, rotation_failed (Some err))
        | None => ret summary
        end
  end.

Definition Fail (ctx : Context) (connectorID : string) (code : Errors.Code)
    : Rot RotationSummary RotationSummary :=
  fail_if (ctx_nil ctx || negb (validCode code) || (code == "")) (no_summary, ErrInvalidInput) ;;
  c ← get_coord;
  match targets c !! connectorID with
  | None => throw (no_summary, codeError ErrIdentityMismatch ReasonAuthentication false None)
  | Some s =>
      fail_if (state s == RotationTargetRevoked) (summaryLocked c, stale_generation) ;;
      fail_if (state s == RotationTargetFailed)
        (summaryLocked c, rotation_failed (Some (OtherError (Target.code s)))) ;;
      record_failure connectorID s code (failureAckLocked c s code) id
  end.
End HandleAckMethod.
End Methods.

(** ** The durable server's rotations

    [PersistentServer.NewRotationCoordinator] and [ResumeRotation] of
    persistence.go: the server asks by type assertion whether its store also
    keeps rotations and verifies old-key proofs (the two booleans). *)
Section PersistentRotation.
Context {S : Type} `{!RotationPersistence S}.

Definition not_configured (what : string) : goerror :=
  codeError ErrUnsupportedMessage ReasonCredentialRotation false (Some (OtherError what)).

Definition Persistent_NewRotationCoordinator (keepsRotations verifiesOldProofs : bool) (p : RotationPlan)
    : Res RotationCoordinator :=
  if negb (ok (RotationPlan_Validate p)) then Err ErrInvalidInput else
  if negb keepsRotations then Err (not_configured "rotation persistence is not configured") else
  match RotationRecoveryStore with
  | None => Err (not_configured "rotation recovery is not configured")
  | Some _ =>
  match RotationSessionAuthorizer with
  | None => Err (not_configured "rotation session authorization is not configured")
  | Some _ =>
      if negb verifiesOldProofs then Err (not_configured "rotation proof verifier is not configured")
      else NewRotationCoordinator p
  end end.

Definition Persistent_ResumeRotation (keepsRotations verifiesOldProofs : bool) (ctx : Context)
    (now : time) (p : RotationPlan) (s : S) : Res RotationCoordinator * S :=
  match Persistent_NewRotationCoordinator keepsRotations verifiesOldProofs p with
  | Err err => (Err err, s)
  | Ok c =>
      match Resume ctx now (mkRot c s) with
      | (Err (_, err), st) => (Err err, store st)
      | (Ok _, st) => (Ok (coord st), store st)
      end
  end.
End PersistentRotation.
