(* ===== verification/RotationMemory.v ===== *)
(** * The in-memory rotation store

    [MemoryRotationPersistence] of src/internal/connectorprotocol/rotation.go,
    the adapter that records every transition of the rotations it is used for,
    as an instance of the store interface of Rotation.v.  It supports recovery
    and has no session authoriser. *)
From S2P Require Import Prelude GoText GoHash GoJson Errors Canonical Identifiers WireConfig Messages.
From S2P Require Import RotationMessages Rotation.

Definition ErrRotationNotFound : goerror :=
  OtherError "credential rotation operation is not available".

Record MemoryRotationPersistence := mkMemory {
  Failure : option goerror;
  Started : list RotationPlan;
  Challenges : list CredentialRotationChallenge;
  Proofs : list CredentialRotationProof;
  Installs : list CredentialRotationInstall;
  Readiness : list CredentialRotationReady;
  Revocations : list CredentialRotationRevoke;
  Results : list RotationSummary;
}.
#[export] Instance Memory_settable : Settable MemoryRotationPersistence := fun m =>
  mkMemory (Failure m) (Started m) (Challenges m) (Proofs m) (Installs m) (Readiness m)
    (Revocations m) (Results m).
Definition empty_memory : MemoryRotationPersistence := mkMemory None [] [] [] [] [] [] [].

Section Memory.
Implicit Type m : MemoryRotationPersistence.

(** [if err := m.fail(); err != nil { return err }], then the write. *)
Definition unless_failing (f : MemoryRotationPersistence -> MemoryRotationPersistence) m
    : option goerror * MemoryRotationPersistence :=
  match Failure m with Some err => (Some err, m) | None => (None, f m) end.

Definition same_rotation (a b : RotationPlan) : bool :=
  (RotationPlan.AccountID a == RotationPlan.AccountID b)
  && (RotationPlan.TunnelID a == RotationPlan.TunnelID b)
  && (RotationPlan.TargetSetHash a == RotationPlan.TargetSetHash b)
  && (Z.of_nat (length (RotationPlan.Targets a)) =? Z.of_nat (length (RotationPlan.Targets b))).

(** The plan under the same operation, the first of them. *)
Definition started_plan m (p : RotationPlan) : option RotationPlan :=
  List.find (fun q => RotationPlan.OperationID q == RotationPlan.OperationID p) (Started m).

Definition Memory_Begin (p : RotationPlan) m : option goerror * MemoryRotationPersistence :=
  match Failure m with
  | Some err => (Some err, m)
  | None =>
      match started_plan m p with
      | Some q => (if same_rotation q p then None else Some ErrContentHashMismatch, m)
      | None => (None, m <| Started := Started m ++ [p] |>)
      end
  end.

Definition Memory_RecordChallenge (c : CredentialRotationChallenge) :=
  unless_failing (fun m => m <| Challenges := Challenges m ++ [c] |>).
Definition Memory_RecordProof (_ : CredentialRotationChallenge) (p : CredentialRotationProof)
    (i : CredentialRotationInstall) :=
  unless_failing (fun m => m <| Proofs := Proofs m ++ [p] |> <| Installs := Installs m ++ [i] |>).
Definition Memory_RecordReady (r : CredentialRotationReady) :=
  unless_failing (fun m => m <| Readiness := Readiness m ++ [r] |>).
Definition Memory_RecordRevoke (v : CredentialRotationRevoke) :=
  unless_failing (fun m => m <| Revocations := Revocations m ++ [v] |>).
Definition Memory_RecordResult (_ : CredentialRotationAck) (summary : RotationSummary) :=
  unless_failing (fun m => m <| Results := Results m ++ [summary] |>).

(** ** [LoadCredentialRotation]

    The loops of the load, each a fold over one list; [operationID] and
    [connectorID] select the records of one target. *)
Section Load.
Import RotationResumeTarget.
Context (operationID connectorID : string).

Definition load_challenge (e : RotationResumeTarget) (c : CredentialRotationChallenge) :=
  if (CredentialRotationChallenge.OperationID c == operationID)
     && (CredentialRotationChallenge.ConnectorID c == connectorID)
  then e <| Challenge := c |> <| OverlapUntil := CredentialRotationChallenge.OverlapUntil c |>
         <| NewCredentialValidUntil := CredentialRotationChallenge.NewCredentialValidUntil c |>
         <| State := RotationTargetChallenged |>
  else e.

(** [for index, proof := range m.Proofs], with the install of the same index. *)
Fixpoint load_proofs (e : RotationResumeTarget) (ps : list CredentialRotationProof)
    (ins : list CredentialRotationInstall) : RotationResumeTarget :=
  match ps with
  | [] => e
  | p :: ps' =>
      let e' :=
        if (CredentialRotationProof.OperationID p == operationID)
           && (CredentialRotationProof.ConnectorID p == connectorID)
        then (match ins with i :: _ => e <| Proof := p |> <| Install := i |> | [] => e <| Proof := p |> end)
               <| State := RotationTargetInstalled |>
        else e in
      load_proofs e' ps' (tail ins)
  end.

Definition load_ready (e : RotationResumeTarget) (r : CredentialRotationReady) :=
  if (CredentialRotationReady.OperationID r == operationID)
     && (CredentialRotationReady.ConnectorID r == connectorID)
  then e <| Ready := r |> <| State := RotationTargetReady |> else e.

Definition load_summary_target (e : RotationResumeTarget) (t : RotationTargetSummary) :=
  if RotationTarget.ConnectorID (RotationTargetSummary.Target t) == connectorID
  then e <| State := RotationTargetSummary.State t |>
         <| RotationResumeTarget.Code := RotationTargetSummary.Code t |>
  else e.
Definition load_result (e : RotationResumeTarget) (summary : RotationSummary) :=
  if RotationSummary.OperationID summary == operationID
  then foldl load_summary_target e (RotationSummary.Targets summary) else e.
Definition load_revoke (results : list RotationSummary) (e : RotationResumeTarget)
    (v : CredentialRotationRevoke) :=
  if (CredentialRotationRevoke.OperationID v == operationID)
     && (CredentialRotationRevoke.ConnectorID v == connectorID)
  then foldl load_result (e <| Revoke := v |> <| State := RotationTargetRevoking |>) results
  else e.
End Load.

Definition load_target m (operationID : string) (t : RotationTarget) : RotationResumeTarget :=
  let connectorID := RotationTarget.ConnectorID t in
  let e := RotationResumeTarget.mk t RotationTargetPending "" 0 0 CredentialRotationChallenge.zero
             CredentialRotationProof.zero CredentialRotationInstall.zero CredentialRotationReady.zero
             CredentialRotationRevoke.zero in
  let e := foldl (load_challenge operationID connectorID) e (Challenges m) in
  let e := load_proofs operationID connectorID e (Proofs m) (Installs m) in
  let e := foldl (load_ready operationID connectorID) e (Readiness m) in
  foldl (load_revoke operationID connectorID (Results m)) e (Revocations m).

Definition load_finished m (operationID : string) : time :=
  foldl (fun t summary =>
           if (RotationSummary.OperationID summary == operationID)
              && (RotationSummary.Status summary == RotationAggregateSucceeded)
           then RotationSummary.CompletedAt summary else t) 0 (Results m).

Definition Memory_Load (p : RotationPlan) m : Res RotationResume * MemoryRotationPersistence :=
  (match Failure m with
   | Some err => Err err
   | None =>
       let q := default RotationPlan.zero (started_plan m p) in
       if RotationPlan.OperationID q == "" then Err ErrRotationNotFound
       else if negb (same_rotation q p) then Err ErrContentHashMismatch
       else Ok (RotationResume.mk q true (load_finished m (RotationPlan.OperationID p))
                  (map (load_target m (RotationPlan.OperationID p)) (RotationPlan.Targets q)))
   end, m).
End Memory.

#[export] Instance MemoryRotation : RotationPersistence MemoryRotationPersistence := {
  BeginCredentialRotation := Memory_Begin;
  RecordCredentialRotationChallenge := Memory_RecordChallenge;
  RecordCredentialRotationProof := Memory_RecordProof;
  RecordCredentialRotationReady := Memory_RecordReady;
  RecordCredentialRotationRevoke := Memory_RecordRevoke;
  RecordCredentialRotationResult := Memory_RecordResult;
  RotationRecoveryStore := Some Memory_Load;
  RotationSessionAuthorizer := None;
}.
