(* ===== verification/RotationEffects.v ===== *)
(** * What a call of the rotation coordinator does

    Every method of the coordinator, on every path, does one of a few things to
    the coordinator and makes at most one write to the store.  [effect] lists
    them; [call_effect] shows that the methods do nothing else.  The invariant,
    the refinement and the durable safety property are proved from it. *)
From S2P Require Import Prelude GoText GoHash GoJson Errors Canonical Identifiers WireConfig Messages.
From S2P Require Import RotationMessages Transcripts ServerSession Rotation.
Import Target.

(** The phase actions of the abstract machine, per connector. *)
Inductive Action :=
| ActStart
| ActChallenge (connectorID : string)
| ActInstall (connectorID : string)
| ActReady (connectorID : string)
| ActRevoke (connectorID : string)
| ActConfirm (connectorID : string)
| ActFail (connectorID : string)
| ActResume.

(** The calls of a coordinator's client. *)
Inductive RotCall :=
| CallStart (ctx : Context)
| CallResume (ctx : Context) (now : time)
| CallChallenge (ctx : Context) (now : time) (connectorID sessionID : string) (processGeneration : Z)
    (oldIdentityKeyID oldIdentityKeyThumbprint nonce : string)
    (issuedAt expiresAt overlapUntil credentialValidUntil : time)
| CallAcceptProof (ctx : Context) (now : time) (proof : CredentialRotationProof)
| CallMarkReady (ctx : Context) (now : time) (r : CredentialRotationReady)
| CallRevoke (ctx : Context) (now : time) (random : Res (list Z)) (connectorID : string)
| CallHandleAck (ctx : Context) (now : time) (ack : CredentialRotationAck)
| CallFail (ctx : Context) (connectorID : string) (code : Errors.Code).

(** What a call may do when it succeeds, and when it returns an error. *)
Definition action_of (call : RotCall) : Action :=
  match call with
  | CallStart _ => ActStart
  | CallResume _ _ => ActResume
  | CallChallenge _ _ k _ _ _ _ _ _ _ _ _ => ActChallenge k
  | CallAcceptProof _ _ p => ActInstall (CredentialRotationProof.ConnectorID p)
  | CallMarkReady _ _ r => ActReady (CredentialRotationReady.ConnectorID r)
  | CallRevoke _ _ _ k => ActRevoke k
  | CallHandleAck _ _ a => ActConfirm (CredentialRotationAck.ConnectorID a)
  | CallFail _ k _ => ActFail k
  end.
Definition connector_of (call : RotCall) : option string :=
  match call with
  | CallStart _ | CallResume _ _ | CallChallenge _ _ _ _ _ _ _ _ _ _ _ _ => None
  | CallAcceptProof _ _ p => Some (CredentialRotationProof.ConnectorID p)
  | CallMarkReady _ _ r => Some (CredentialRotationReady.ConnectorID r)
  | CallRevoke _ _ _ k => Some k
  | CallHandleAck _ _ a => Some (CredentialRotationAck.ConnectorID a)
  | CallFail _ k _ => Some k
  end.

(** The writes to the store. *)
Inductive Write :=
| WriteBegin (p : RotationPlan)
| WriteChallenge (c : CredentialRotationChallenge)
| WriteProof (c : CredentialRotationChallenge) (p : CredentialRotationProof) (i : CredentialRotationInstall)
| WriteReady (r : CredentialRotationReady)
| WriteRevoke (v : CredentialRotationRevoke)
| WriteResult (a : CredentialRotationAck) (s : RotationSummary).

Section Effects.
Context {S : Type} `{!RotationPersistence S}.
Context (ed25519_Verify : list Z -> string -> list Z -> bool).
Context (verify : CredentialRotationProof -> string -> list Z -> option goerror).

Definition write (w : Write) : S -> option goerror * S :=
  match w with
  | WriteBegin p => BeginCredentialRotation p
  | WriteChallenge c => RecordCredentialRotationChallenge c
  | WriteProof c p i => RecordCredentialRotationProof c p i
  | WriteReady r => RecordCredentialRotationReady r
  | WriteRevoke v => RecordCredentialRotationRevoke v
  | WriteResult a s => RecordCredentialRotationResult a s
  end.

(** The call's state after it, and whether it returned no error. *)
Definition run {A B} (m : Rot (S := S) A B) (st : RotState (S := S)) : bool * RotState (S := S) :=
  (is_ok (fst (m st)), snd (m st)).
Definition rot_call (call : RotCall) : RotState (S := S) -> bool * RotState (S := S) :=
  match call with
  | CallStart ctx => run (Start ctx)
  | CallResume ctx now => run (Resume ctx now)
  | CallChallenge ctx now k sid pg kid thumb nonce ia ea ou vu =>
      run (ChallengeWithCredentialExpiry ctx now k sid pg kid thumb nonce ia ea ou vu)
  | CallAcceptProof ctx now p => run (AcceptProof ed25519_Verify verify ctx now p)
  | CallMarkReady ctx now r => run (MarkReady ctx now r)
  | CallRevoke ctx now random k => run (Revoke ctx now random k)
  | CallHandleAck ctx now a => run (Coordinator_HandleAck ctx now a)
  | CallFail ctx k code => run (Fail ctx k code)
  end.

(** What the store answers without a write: the authorisation of a session. *)
Definition consults (s s' : S) : Prop :=
  s = s' \/ exists authorize ch reply, RotationSessionAuthorizer = Some authorize
                                      /\ authorize ch s = (reply, s').

(** The conditions under which the coordinator writes. *)
Definition justified (c : RotationCoordinator) (w : Write) : Prop :=
  match w with
  | WriteBegin p => p = plan c
  | WriteChallenge ch =>
      exists s, targets c !! CredentialRotationChallenge.ConnectorID ch = Some s
      /\ CredentialRotationChallenge.OperationID ch = RotationPlan.OperationID (plan c)
  | WriteProof ch p i =>
      exists s now, targets c !! CredentialRotationProof.ConnectorID p = Some s
      /\ state s = RotationTargetChallenged /\ ch = challenge s
      /\ rotationProofMatchesChallenge p ch (target s) = true
      /\ VerifyCredentialRotationProofAt ed25519_Verify verify p now = None
      /\ i = install_of (plan c) ch p /\ CredentialRotationInstall_Validate i now = None
  | WriteReady r =>
      exists s now, targets c !! CredentialRotationReady.ConnectorID r = Some s
      /\ state s = RotationTargetInstalled /\ ready_mismatch (plan c) (install s) r = false
      /\ CredentialRotationReady_Validate r now = None
  | WriteRevoke v =>
      exists s nonce now, targets c !! CredentialRotationRevoke.ConnectorID v = Some s
      /\ state s = RotationTargetReady /\ allReadyLocked c = true
      /\ v = revoke_of (plan c) s (CredentialRotationRevoke.ConnectorID v) nonce now
      /\ CredentialRotationRevoke_Validate v now = None
  | WriteResult _ _ => True
  end.

Definition with_target (c : RotationCoordinator) (k : string) (s : rotationTargetState)
    : RotationCoordinator := c <| targets := <[k := s]> (targets c) |>.

(** What [Resume] checked before it adopts what it loaded. *)
Definition recovered_ok (c : RotationCoordinator) (loaded : RotationResume) : Prop :=
  started c = false
  /\ length (RotationResume.Targets loaded) = size (targets c)
  /\ check_recovered c [] (RotationResume.Targets loaded) = None
  /\ (RotationResume.FinishedAt loaded = 0
      \/ existsb (fun s => s == RotationTargetFailed)
           (map RotationResumeTarget.State (RotationResume.Targets loaded)) = true
      \/ forallb (fun s => s == RotationTargetRevoked)
           (map RotationResumeTarget.State (RotationResume.Targets loaded)) = true).

Inductive effect (st : RotState (S := S)) : option Action -> bool -> RotState (S := S) -> Prop :=
| eff_idle b s' :
    consults (store st) s' -> effect st None b (mkRot (coord st) s')
| eff_load b p load reply s' :
    RotationRecoveryStore = Some load -> load p (store st) = (reply, s') ->
    effect st None b (mkRot (coord st) s')
| eff_refused w err s1 s' :
    consults (store st) s1 -> justified (coord st) w -> write w s1 = (Some err, s') ->
    effect st None false (mkRot (coord st) s')
| eff_start s' :
    started (coord st) = false -> write (WriteBegin (plan (coord st))) (store st) = (None, s') ->
    effect st (Some ActStart) true (mkRot ((coord st) <| started := true |>) s')
| eff_challenge k s ch now s1 s' :
    started (coord st) = true -> targets (coord st) !! k = Some s ->
    state s = RotationTargetPending \/ state s = RotationTargetChallenged ->
    CredentialRotationChallenge_Validate ch now = None ->
    ch = CredentialRotationChallenge.mk (RotationPlan.AccountID (plan (coord st)))
        (RotationPlan.TunnelID (plan (coord st))) (RotationPlan.OperationID (plan (coord st))) k
        (RotationTarget.HostID (target s)) (CredentialRotationChallenge.SessionID ch)
        (CredentialRotationChallenge.ProcessGeneration ch) (RotationPlan.TargetSetHash (plan (coord st)))
        (target s) (RotationTarget.OldCredentialGeneration (target s))
        (RotationTarget.NewCredentialGeneration (target s))
        (CredentialRotationChallenge.OldIdentityKeyID ch)
        (CredentialRotationChallenge.OldIdentityKeyThumbprint ch)
        (CredentialRotationChallenge.ChallengeNonce ch) (CredentialRotationChallenge.IssuedAt ch)
        (CredentialRotationChallenge.ExpiresAt ch) (CredentialRotationChallenge.OverlapUntil ch)
        (CredentialRotationChallenge.NewCredentialValidUntil ch) ->
    consults (store st) s1 -> write (WriteChallenge ch) s1 = (None, s') ->
    effect st (Some (ActChallenge k)) true
      (mkRot (with_target (coord st) k (s <| challenge := ch |> <| state := RotationTargetChallenged |>)) s')
| eff_install s p i s' :
    targets (coord st) !! CredentialRotationProof.ConnectorID p = Some s ->
    state s = RotationTargetChallenged ->
    justified (coord st) (WriteProof (challenge s) p i) ->
    write (WriteProof (challenge s) p i) (store st) = (None, s') ->
    effect st (Some (ActInstall (CredentialRotationProof.ConnectorID p))) true
      (mkRot (with_target (coord st) (CredentialRotationProof.ConnectorID p)
                (s <| proof := p |> <| install := i |> <| state := RotationTargetInstalled |>)) s')
| eff_ready s r s' :
    targets (coord st) !! CredentialRotationReady.ConnectorID r = Some s ->
    state s = RotationTargetInstalled ->
    justified (coord st) (WriteReady r) -> write (WriteReady r) (store st) = (None, s') ->
    effect st (Some (ActReady (CredentialRotationReady.ConnectorID r))) true
      (mkRot (with_target (coord st) (CredentialRotationReady.ConnectorID r)
                (s <| ready := r |> <| state := RotationTargetReady |>)) s')
| eff_revoke s v s' :
    targets (coord st) !! CredentialRotationRevoke.ConnectorID v = Some s ->
    state s = RotationTargetReady ->
    justified (coord st) (WriteRevoke v) -> write (WriteRevoke v) (store st) = (None, s') ->
    effect st (Some (ActRevoke (CredentialRotationRevoke.ConnectorID v))) true
      (mkRot (with_target (coord st) (CredentialRotationRevoke.ConnectorID v)
                (s <| revoke := v |> <| state := RotationTargetRevoking |>)) s')
| eff_confirm k s a sum fin s' :
    targets (coord st) !! k = Some s -> state s = RotationTargetRevoking ->
    let c' := with_target (coord st) k (s <| state := RotationTargetRevoked |>) in
    fin = finished (coord st)
      \/ RotationSummary.Status (summaryLocked c') = RotationAggregateSucceeded ->
    write (WriteResult a sum) (store st) = (None, s') ->
    effect st (Some (ActConfirm k)) true (mkRot (c' <| finished := fin |>) s')
| eff_fail k s code w reply fin s' :
    targets (coord st) !! k = Some s ->
    state s <> RotationTargetRevoked -> state s <> RotationTargetFailed ->
    code <> "" -> validCode code = true ->
    justified (coord st) w -> write w (store st) = (reply, s') ->
    effect st (Some (ActFail k)) false
      (mkRot ((with_target (coord st) k
                 (s <| state := RotationTargetFailed |> <| Target.code := code |>)) <| finished := fin |>) s')
| eff_resume load loaded s' :
    RotationRecoveryStore = Some load -> load (plan (coord st)) (store st) = (Ok loaded, s') ->
    plan_mismatch loaded (plan (coord st)) = false ->
    recovered_ok (coord st) loaded ->
    effect st (Some ActResume) true
      (mkRot ((coord st) <| targets := foldl adopt (targets (coord st)) (RotationResume.Targets loaded) |>
                         <| started := true |> <| finished := RotationResume.FinishedAt loaded |>) s').

(** ** Symbolic execution of the methods *)

Lemma wp_call {A B} (f : S -> B * S) (Q : result (A * goerror) B -> RotState (S := S) -> Prop) st :
  (forall r s', f (store st) = (r, s') -> Q (Ok r) (mkRot (coord st) s')) -> wp (call f) Q st.
Proof. unfold wp, call. intros H. destruct (f (store st)) eqn:E. by apply H. Qed.
Lemma wp_fails {A} (v : A) o (Q : result (A * goerror) unit -> RotState (S := S) -> Prop) st :
  (forall e, o = Some e -> Q (Err (v, e)) st) -> (o = None -> Q (Ok tt) st) -> wp (fails v o) Q st.
Proof. destruct o; unfold wp; simpl; auto. Qed.
Lemma wp_check_ctx {A} (v : A) ctx (Q : result (A * goerror) unit -> RotState (S := S) -> Prop) st :
  (forall e, ctx_Err ctx <> None -> Q (Err (v, e)) st) -> Q (Ok tt) st -> wp (check_ctx v ctx) Q st.
Proof. unfold check_ctx. destruct (ctx_Err ctx) eqn:E; unfold wp; simpl; [|auto]. intros H _. by apply H. Qed.
Lemma wp_get_coord {A} (Q : result (A * goerror) RotationCoordinator -> RotState (S := S) -> Prop) st :
  Q (Ok (coord st)) st -> wp get_coord Q st.
Proof. done. Qed.
Lemma wp_upd_coord {A} f (Q : result (A * goerror) unit -> RotState (S := S) -> Prop) st :
  Q (Ok tt) (mkRot (f (coord st)) (store st)) -> wp (upd_coord f) Q st.
Proof. done. Qed.
Lemma wp_summary_now {A} (Q : result (A * goerror) RotationSummary -> RotState (S := S) -> Prop) st :
  Q (Ok (summaryLocked (coord st))) st -> wp summary_now Q st.
Proof. done. Qed.

(** Updating the state of a target that is there. *)
Lemma alter_some {A} (m : gmap string A) k f x : m !! k = Some x -> alter f k m = <[k := f x]> m.
Proof.
  intros H. apply map_eq. intros j. destruct (decide (j = k)) as [->|Hj].
  - by rewrite lookup_alter_eq, H, lookup_insert_eq.
  - by rewrite lookup_alter_ne, lookup_insert_ne by done.
Qed.
Lemma wp_upd_target {A} k f s (Q : result (A * goerror) unit -> RotState (S := S) -> Prop) st :
  targets (coord st) !! k = Some s ->
  Q (Ok tt) (mkRot (with_target (coord st) k (f s)) (store st)) -> wp (upd_target k f) Q st.
Proof. intros H. unfold wp, upd_target, upd_coord, with_target. by rewrite (alter_some _ _ _ _ H). Qed.
End Effects.

Ltac rot_step :=
  lazymatch goal with
  | |- wp (fails _ _) _ _ => apply wp_fails; [intros ? ?|intros ?]
  | |- wp (check_ctx _ _) _ _ => apply wp_check_ctx; [intros ? ?|]
  | |- wp get_coord _ _ => apply wp_get_coord
  | |- wp (call _) _ _ => apply wp_call; intros ? ? ?
  | |- wp (upd_coord _) _ _ => apply wp_upd_coord
  | |- wp summary_now _ _ => apply wp_summary_now
  | |- wp (target_fails _ _) _ _ => unfold target_fails
  | |- wp (upd_target _ _) _ _ => eapply wp_upd_target; [eassumption|]
  | _ => wp_step
  end.

Section CallEffects.
Context {S : Type} `{!RotationPersistence S}.
Context (ed25519_Verify : list Z -> string -> list Z -> bool).
Context (verify : CredentialRotationProof -> string -> list Z -> option goerror).
#[local] Abbreviation effect := (effect ed25519_Verify verify).
Implicit Type st : RotState (S := S).

Definition call_allows (call : RotCall) (b : bool) (a : option Action) : Prop :=
  match a with
  | None => True
  | Some a => if b then a = action_of call
              else exists k, connector_of call = Some k /\ a = ActFail k
  end.
Definition acts (call : RotCall) (st : RotState (S := S)) (b : bool) (st' : RotState (S := S)) : Prop :=
  exists a, effect st a b st' /\ call_allows call b a.

Lemma acts_idle call b st : acts call st b st.
Proof. exists None. split; [|done]. destruct st. by apply eff_idle; left. Qed.

Lemma Start_effect ctx st :
  wp (Start ctx) (fun r st' => acts (CallStart ctx) st (is_ok r) st') st.
Proof.
  unfold Start. repeat rot_step; try apply acts_idle.
  - destruct r; [|done]. exists None. split; [|done].
    eapply (eff_refused _ _ _ (WriteBegin (plan (coord st)))); [by left|done|done].
  - destruct r; [done|]. exists (Some ActStart). split; [|done]. by refine (eff_start _ _ st _ _ _).
Qed.

(** A write fails the target whose guards passed. *)
Lemma acts_fail call k s code w reply s' fin st :
  connector_of call = Some k -> targets (coord st) !! k = Some s ->
  state s <> RotationTargetRevoked -> state s <> RotationTargetFailed ->
  code <> "" -> validCode code = true ->
  justified ed25519_Verify verify (coord st) w -> write w (store st) = (reply, s') ->
  acts call st false
    (mkRot ((with_target (coord st) k
       (s <| state := RotationTargetFailed |> <| Target.code := code |>)) <| finished := fin |>) s').
Proof. intros. exists (Some (ActFail k)). split; [by eapply eff_fail|by exists k]. Qed.

Ltac phases :=
  match goal with
  | H : state ?s = _ |- state ?s <> _ => rewrite H; discriminate
  end.

Lemma MarkReady_effect ctx now r st :
  wp (MarkReady ctx now r) (fun res st' => acts (CallMarkReady ctx now r) st (is_ok res) st') st.
Proof.
  unfold MarkReady. repeat rot_step; try apply acts_idle; bool_prop.
  - refine (acts_fail _ _ _ _ (WriteReady r) _ _ (finished (coord st)) st _ _ _ _ _ _ _ _);
      try phases; try done. by eexists _, now.
  - exists (Some (ActReady (CredentialRotationReady.ConnectorID r))). split; [|done].
    refine (eff_ready _ _ st _ r _ _ _ _ _); try done. by eexists _, now.
Qed.

Lemma AcceptProof_effect ctx now p st :
  wp (AcceptProof ed25519_Verify verify ctx now p)
    (fun res st' => acts (CallAcceptProof ctx now p) st (is_ok res) st') st.
Proof.
  unfold AcceptProof. repeat rot_step; try apply acts_idle; bool_prop.
  - refine (acts_fail _ _ _ _ (WriteProof _ p _) _ _ (finished (coord st)) st _ _ _ _ _ _ _ _);
      try phases; try done. by eexists _, now.
  - exists (Some (ActInstall (CredentialRotationProof.ConnectorID p))). split; [|done].
    refine (eff_install _ _ st _ p _ _ _ _ _ _); try done. by eexists _, now.
Qed.

Lemma Revoke_effect ctx now random k st :
  wp (Revoke ctx now random k) (fun res st' => acts (CallRevoke ctx now random k) st (is_ok res) st') st.
Proof.
  unfold Revoke. repeat rot_step; try apply acts_idle; bool_prop.
  - refine (acts_fail _ _ _ _ (WriteRevoke _) _ _ (finished (coord st)) st _ _ _ _ _ _ _ _);
      try phases; try done. by eexists _, _, now.
  - exists (Some (ActRevoke k)). split; [|done].
    refine (eff_revoke _ _ st _ (revoke_of _ _ k _ _) _ _ _ _ _); try done. by eexists _, _, now.
Qed.

(** Only a pending target, or one whose challenge expired, is challenged. *)
Lemma rechallenge_phase (s : rotationTargetState) (b : bool) :
  (state s != RotationTargetPending) && ((state s != RotationTargetChallenged) || b) = false ->
  state s = RotationTargetPending \/ state s = RotationTargetChallenged.
Proof. intros [H|[H _]%orb_false_iff]%andb_false_iff; bool_prop; auto. Qed.

Lemma acts_refused call w err s1 s' st :
  consults (store st) s1 -> justified ed25519_Verify verify (coord st) w -> write w s1 = (Some err, s') ->
  acts call st false (mkRot (coord st) s').
Proof. intros. exists None. split; [by eapply eff_refused|done]. Qed.
Lemma consults_authorizer authorize ch s reply s' :
  RotationSessionAuthorizer = Some authorize -> authorize ch s = (reply, s') -> consults (S := S) s s'.
Proof. right. eauto. Qed.
Lemma acts_consulted call b s' st : consults (store st) s' -> acts call st b (mkRot (coord st) s').
Proof. intros. exists None. split; [by eapply eff_idle|done]. Qed.

Lemma Challenge_effect ctx now k sid pg kid thumb nonce ia ea ou vu st :
  wp (ChallengeWithCredentialExpiry ctx now k sid pg kid thumb nonce ia ea ou vu)
    (fun res st' => acts (CallChallenge ctx now k sid pg kid thumb nonce ia ea ou vu) st (is_ok res) st') st.
Proof.
  unfold ChallengeWithCredentialExpiry.
  repeat rot_step; try apply acts_idle; bool_prop;
    repeat match goal with
    | H : match ?r with Some _ => _ | None => _ end = _ |- _ => destruct r; try done; clear H
    | H : RotationSessionAuthorizer = Some ?a, H' : ?a ?ch ?s = _ |- _ =>
        pose proof (consults_authorizer _ _ _ _ _ H H'); clear H'
    end.
  - by apply acts_consulted.
  - refine (acts_refused _ (WriteChallenge _) _ _ _ st _ _ _); [eassumption| |eassumption]. by eexists.
  - exists (Some (ActChallenge k)). split; [|done].
    refine (eff_challenge _ _ st k _ _ now _ _ _ _ (rechallenge_phase _ _ _) _ _ _ _); try eassumption; try done.
    by rewrite orb_assoc.
  - refine (acts_refused _ (WriteChallenge _) _ _ _ st _ _ _); [by left| |eassumption]. by eexists.
  - exists (Some (ActChallenge k)). split; [|done].
    refine (eff_challenge _ _ st k _ _ now _ _ _ _ (rechallenge_phase _ _ _) _ _ _ _); try eassumption; try done.
    + by rewrite orb_assoc.
    + by left.
Qed.

(** A mark that is taken back leaves the target as it was. *)
Lemma restore_target c k s code :
  targets c !! k = Some s ->
  let marked := s <| state := RotationTargetFailed |> <| Target.code := code |> in
  with_target (with_target c k marked) k
    (marked <| state := state s |> <| Target.code := Target.code s |>) = c.
Proof.
  intros Hs marked. destruct c as [p b f m], s. unfold with_target, marked, set_field. simpl in *.
  f_equal. rewrite insert_insert_eq. by apply insert_id.
Qed.

Lemma record_failure_effect call k s code a wrap st :
  connector_of call = Some k -> targets (coord st) !! k = Some s ->
  state s <> RotationTargetRevoked -> state s <> RotationTargetFailed ->
  code <> "" -> validCode code = true ->
  wp (record_failure k s code a wrap) (fun res st' => acts call st (is_ok res) st') st.
Proof.
  intros Hk Hs Hr Hf Hc Hv. unfold record_failure. rot_step. unfold target_fails. rot_step. rot_step.
  rot_step. rot_step. rot_step. destruct r as [err|].
  - rot_step. eapply wp_upd_target; [apply lookup_insert_eq|]. rot_step. rot_step. rot_step.
    cbn [coord store]. rewrite (restore_target (coord st) k s code Hs).
    by refine (acts_refused _ (WriteResult a _) _ _ _ st (or_introl eq_refl) _ _).
  - rot_step. by refine (acts_fail _ k s code (WriteResult a _) _ _ (finished (coord st)) st _ _ _ _ _ _ _ _).
Qed.

Lemma ack_code_ok a :
  CredentialRotationAck_Validate a = None ->
  (CredentialRotationAck.Status a == RotationAckRejected)
  || (CredentialRotationAck.Status a == RotationAckFailed) = true ->
  CredentialRotationAck.Code a <> "" /\ validCode (CredentialRotationAck.Code a) = true.
Proof.
  unfold CredentialRotationAck_Validate. intros H Hs. split_guard H; [done|].
  destruct (rotation_status_ok a) eqn:E; [clear H|done]. unfold rotation_status_ok in E. rewrite Hs in E.
  destruct (bool_decide (_ ∈ _)) eqn:Hin in E; [exfalso|by bool_prop].
  apply orb_true_iff in Hs as [Hs|Hs]; apply bool_decide_eq_true in Hs; rewrite Hs in Hin; by vm_compute in Hin.
Qed.

(** A confirmation that the store refuses fails the target. *)
Lemma confirm_then_fail c k s fin code :
  with_target ((with_target c k (s <| state := RotationTargetRevoked |>)) <| finished := fin |>) k
    (s <| state := RotationTargetRevoked |> <| state := RotationTargetFailed |> <| Target.code := code |>)
  = (with_target c k (s <| state := RotationTargetFailed |> <| Target.code := code |>)) <| finished := fin |>.
Proof. unfold with_target, set_field. cbn. f_equal. by rewrite insert_insert_eq. Qed.

Lemma confirm_refused_effect call k s fin s' sum a err st :
  connector_of call = Some k -> targets (coord st) !! k = Some s -> state s = RotationTargetRevoking ->
  write (WriteResult a sum) (store st) = (Some err, s') ->
  wp (target_fails k CodeCredentialRotationFailed ;;
      failed ← summary_now; throw (failed, rotation_failed (Some err)))
    (fun (res : result (RotationSummary * goerror) RotationSummary) st' => acts call st (is_ok res) st')
    (mkRot ((with_target (coord st) k (s <| state := RotationTargetRevoked |>)) <| finished := fin |>) s').
Proof.
  intros Hk Hs Hp Hw. rot_step. unfold target_fails. eapply wp_upd_target; [apply lookup_insert_eq|].
  do 3 rot_step. cbn [coord store]. rewrite confirm_then_fail.
  refine (acts_fail _ _ _ _ (WriteResult a sum) _ _ fin st _ _ _ _ _ _ _ _); try phases; done.
Qed.

Lemma HandleAck_effect ctx now a st :
  wp (Coordinator_HandleAck ctx now a) (fun res st' => acts (CallHandleAck ctx now a) st (is_ok res) st') st.
Proof.
  unfold Coordinator_HandleAck.
  repeat (lazymatch goal with
          | |- wp (record_failure _ _ _ _ _) _ _ => fail
          | |- wp (_ ← target_fails _ _; _) _ _ => fail
          | _ => rot_step end);
    try apply acts_idle; bool_prop.
  - destruct (ack_code_ok a) as [Hc Hv]; [done..|]. by apply record_failure_effect.
  - by refine (confirm_refused_effect _ _ _ now _ _ a _ st _ _ _ _).
  - exists (Some (ActConfirm (CredentialRotationAck.ConnectorID a))). split; [|done].
    refine (eff_confirm _ _ st _ _ a _ now _ _ _ _ _); try done. by right.
  - by refine (confirm_refused_effect _ _ _ (finished (coord st)) _ _ a _ st _ _ _ _).
  - exists (Some (ActConfirm (CredentialRotationAck.ConnectorID a))). split; [|done].
    refine (eff_confirm _ _ st _ _ a _ (finished (coord st)) _ _ _ _ _); try done. by left.
Qed.

Lemma Fail_effect ctx k code st :
  wp (Fail ctx k code) (fun res st' => acts (CallFail ctx k code) st (is_ok res) st') st.
Proof.
  unfold Fail.
  repeat (lazymatch goal with |- wp (record_failure _ _ _ _ _) _ _ => fail | _ => rot_step end);
    try apply acts_idle; bool_prop. by apply record_failure_effect.
Qed.

Lemma negb_and_false (x y : bool) : negb x && negb y = false -> x = true \/ y = true.
Proof. destruct x, y; auto. Qed.

Lemma Resume_effect ctx now st :
  wp (Resume ctx now) (fun res st' => acts (CallResume ctx now) st (is_ok res) st') st.
Proof.
  unfold Resume. repeat rot_step; try apply acts_idle; bool_prop;
    try (exists None; split; [by eapply (eff_load _ _ st)|done]);
    (exists (Some ActResume); split; [|done]);
    (refine (eff_resume _ _ st _ _ _ _ _ _ _); [eassumption..|]); split_and!; try done; try lia.
  - left. unfold IsZero in *. lia.
  - right. by apply negb_and_false.
Qed.

(** Every call has one of the listed effects, and one that the call allows: a
    call that succeeds does its own action or nothing, a call that returns an
    error fails its target or does nothing. *)
Lemma call_effect call st b st' :
  rot_call ed25519_Verify verify call st = (b, st') -> acts call st b st'.
Proof.
  destruct call; cbn [rot_call]; unfold run; intros [= <- <-].
  - apply Start_effect.
  - apply Resume_effect.
  - apply Challenge_effect.
  - apply AcceptProof_effect.
  - apply MarkReady_effect.
  - apply Revoke_effect.
  - apply HandleAck_effect.
  - apply Fail_effect.
Qed.
End CallEffects.
