(* ===== verification/RotationInvariant.v ===== *)
(** * The state of a rotation

    The invariant of the coordinator: every target it holds is one that
    [Resume] would accept from the store.  With it, the two results on the
    coordinator alone: recovery restores exactly the state that was saved, and
    the methods implement an abstract phase machine. *)
From S2P Require Import Prelude GoText GoHash GoJson Errors Canonical Identifiers WireConfig Messages.
From S2P Require Import TextFacts MessageFacts RotationMessages RotationFacts Transcripts ServerSession Rotation RotationEffects.
Import Target.

(** ** What the store would return for a target *)
(** The window of a challenge, zero times when there is none. *)
Definition window (ch : CredentialRotationChallenge) (t : CredentialRotationChallenge -> time) : time :=
  if CredentialRotationChallenge.SessionID ch == "" then 0 else t ch.
Definition snapshot_target (s : rotationTargetState) : RotationResumeTarget :=
  RotationResumeTarget.mk (target s) (state s) (code s)
    (window (challenge s) CredentialRotationChallenge.OverlapUntil)
    (window (challenge s) CredentialRotationChallenge.NewCredentialValidUntil)
    (challenge s) (proof s) (install s) (ready s) (revoke s).
Definition snapshot (c : RotationCoordinator) : RotationResume :=
  RotationResume.mk (plan c) (started c) (finished c)
    (map (fun t => snapshot_target (target_state c t)) (RotationPlan.Targets (plan c))).

(** ** The checks of a recovered target, one by one *)
Section Resumable.
Import RotationResumeTarget.

Record resumable (p : RotationPlan) (r : RotationResumeTarget) : Prop := {
  res_target : RotationTarget_Validate (Target r) = None;
  res_planned : RotationPlan_Target p (RotationTarget.ConnectorID (Target r)) = Some (Target r);
  res_state : validRotationTargetState (State r) = true;
  res_failed : State r = RotationTargetFailed ->
    RotationResumeTarget.Code r <> "" /\ validCode (RotationResumeTarget.Code r) = true;
  res_code : State r <> RotationTargetFailed -> RotationResumeTarget.Code r = "";
  res_times : xorb (IsZero (OverlapUntil r)) (IsZero (NewCredentialValidUntil r))
    || negb (IsZero (OverlapUntil r)) && negb (After (NewCredentialValidUntil r) (OverlapUntil r)) = false;
  res_challenged : challengePresent r = false -> installPresent r || readyPresent r || revokePresent r = false;
  res_installed : installPresent r = false -> readyPresent r || revokePresent r = false;
  res_readied : readyPresent r = false -> revokePresent r = false;
  res_challenge : challengePresent r = true -> challenge_bound p r = true;
  res_install : installPresent r = true -> install_bound p r = true;
  res_ready : readyPresent r = true -> ready_bound p r = true;
  res_revoke : revokePresent r = true -> revoke_bound p r = true;
  res_phase : phase_matches r = true;
}.

Lemma guard_none (b : bool) (e : goerror) (rest : option goerror) :
  (if b then Some e else rest) = None <-> b = false /\ rest = None.
Proof. destruct b; split; [done|by intros []|done|by intros [_ ?]]. Qed.
Lemma implb_guard (b c : bool) : b && negb c = false <-> (b = true -> c = true).
Proof. destruct b, c; simpl; intuition congruence. Qed.
Lemma nimplb_guard (b c : bool) : negb b && c = false <-> (b = false -> c = false).
Proof. destruct b, c; simpl; intuition congruence. Qed.

Lemma validate_resumable p r : validateRotationResumeTarget p r = None <-> resumable p r.
Proof.
  unfold validateRotationResumeTarget.
  destruct (RotationTarget_Validate (Target r)) eqn:Ht; [split; [done|intros []; congruence]|].
  rewrite !guard_none, !implb_guard, !nimplb_guard, !negb_false_iff, bool_decide_eq_true.
  split.
  - intros (? & ? & Hf & Hc & ? & ? & ? & ? & ? & ? & ? & ? & ? & _). split; try done.
    + intros Hs. rewrite Hs, bool_decide_eq_true_2 in Hf by done. cbn [andb] in Hf.
      apply orb_false_iff in Hf as [He Hv]. by bool_prop.
    + intros Hs. apply (bool_decide_eq_true (RotationResumeTarget.Code r = _)), Hc.
      by rewrite bool_decide_eq_false_2.
  - intros [_ ? ? Hf Hc ? ? ? ? ? ? ? ? ?]. split_and!; try done.
    + destruct (bool_decide (State r = _)) eqn:E; [|done]. bool_prop. destruct (Hf E) as [He ->].
      by rewrite bool_decide_eq_false_2.
    + intros E. bool_prop. rewrite (Hc E). by rewrite bool_decide_eq_true_2.
Qed.

(** The messages that go with each phase; a failed target may have any. *)
Definition flags (r : RotationResumeTarget) : bool * bool * bool * bool :=
  (challengePresent r, installPresent r, readyPresent r, revokePresent r).
Definition phase_messages (s : RotationTargetState) : option (bool * bool * bool * bool) :=
  if s == RotationTargetPending then Some (false, false, false, false)
  else if s == RotationTargetChallenged then Some (true, false, false, false)
  else if s == RotationTargetInstalled then Some (true, true, false, false)
  else if s == RotationTargetReady then Some (true, true, true, false)
  else if (s == RotationTargetRevoking) || (s == RotationTargetRevoked) then Some (true, true, true, true)
  else None.

Lemma phase_messages_cases s f :
  phase_messages s = Some f ->
  s = RotationTargetPending /\ f = (false, false, false, false)
  \/ s = RotationTargetChallenged /\ f = (true, false, false, false)
  \/ s = RotationTargetInstalled /\ f = (true, true, false, false)
  \/ s = RotationTargetReady /\ f = (true, true, true, false)
  \/ s = RotationTargetRevoking /\ f = (true, true, true, true)
  \/ s = RotationTargetRevoked /\ f = (true, true, true, true).
Proof.
  unfold phase_messages. repeat (case_match; [intros [= <-]; bool_prop; tauto|]).
  case_match eqn:E; [|done]. intros [= <-]. apply orb_true_iff in E as [E|E]; bool_prop; tauto.
Qed.

Lemma phase_flags p r f : resumable p r -> phase_messages (State r) = Some f -> flags r = f.
Proof.
  intros [_ _ _ _ _ _ H1 H2 H3 _ _ _ _ Hp]. unfold flags, phase_matches, phase_messages in *.
  cbv zeta in Hp. revert H1 H2 H3 Hp.
  generalize (challengePresent r) (installPresent r) (readyPresent r) (revokePresent r). intros c i y v.
  repeat (case_match; [intros G1 G2 G3 Gp [= <-];
    destruct c, i, y, v; try done; exfalso; cbn in *; intuition congruence|]). by intros.
Qed.

Lemma resumable_intro p r f :
  RotationTarget_Validate (Target r) = None ->
  RotationPlan_Target p (RotationTarget.ConnectorID (Target r)) = Some (Target r) ->
  phase_messages (State r) = Some f -> flags r = f -> RotationResumeTarget.Code r = "" ->
  xorb (IsZero (OverlapUntil r)) (IsZero (NewCredentialValidUntil r))
    || negb (IsZero (OverlapUntil r)) && negb (After (NewCredentialValidUntil r) (OverlapUntil r)) = false ->
  (challengePresent r = true -> challenge_bound p r = true) ->
  (installPresent r = true -> install_bound p r = true) ->
  (readyPresent r = true -> ready_bound p r = true) ->
  (revokePresent r = true -> revoke_bound p r = true) ->
  resumable p r.
Proof.
  intros Ht Hp Hf Hr Hc Hti H1 H2 H3 H4. rewrite <- Hr in Hf. clear Hr. unfold flags in Hf.
  assert (Hph : phase_matches r = true /\ validRotationTargetState (State r) = true
    /\ State r <> RotationTargetFailed
    /\ (challengePresent r = false -> installPresent r || readyPresent r || revokePresent r = false)
    /\ (installPresent r = false -> readyPresent r || revokePresent r = false)
    /\ (readyPresent r = false -> revokePresent r = false)).
  { clear -Hf. unfold phase_matches. revert Hf.
    generalize (challengePresent r) (installPresent r) (readyPresent r) (revokePresent r). intros c i y v Hf.
    apply phase_messages_cases in Hf as [[-> Hf]|[[-> Hf]|[[-> Hf]|[[-> Hf]|[[-> Hf]|[-> Hf]]]]]];
      injection Hf as -> -> -> ->; vm_compute; intuition discriminate. }
  destruct Hph as (? & ? & ? & ? & ? & ?). by split.
Qed.
End Resumable.

(** ** Validity at a time is validity *)
Lemma challenge_valid_anytime c now :
  CredentialRotationChallenge_Validate c now = None -> CredentialRotationChallenge_Validate c 0 = None.
Proof. unfold CredentialRotationChallenge_Validate. rewrite !guard_none. intros (? & ? & _). auto. Qed.
Lemma install_valid_anytime i now :
  CredentialRotationInstall_Validate i now = None -> CredentialRotationInstall_Validate i 0 = None.
Proof.
  unfold CredentialRotationInstall_Validate. rewrite !guard_none. intros [? H]. split; [done|].
  destruct (decodeRotationPublicKey _); [|done]. rewrite guard_none in *. intuition.
Qed.
Lemma ready_valid_anytime r now :
  CredentialRotationReady_Validate r now = None -> CredentialRotationReady_Validate r 0 = None.
Proof.
  unfold CredentialRotationReady_Validate. rewrite !guard_none. intros [? H]. split; [done|].
  destruct (decodeRotationPublicKey _); [|done]. rewrite !guard_none in *. cbn [IsZero negb andb].
  destruct H as (? & ? & _). auto.
Qed.
Lemma revoke_valid_anytime v now :
  CredentialRotationRevoke_Validate v now = None -> CredentialRotationRevoke_Validate v 0 = None.
Proof. unfold CredentialRotationRevoke_Validate. rewrite !guard_none. intros (? & _). auto. Qed.

(** A valid message names a session, so its presence is seen. *)
Lemma ids_ok_nonempty l id : ids_ok l = true -> id ∈ l -> (id != "") = true.
Proof.
  unfold ids_ok. rewrite forallb_forall. intros H Hin%list_elem_of_In. apply H in Hin. clear H.
  apply negb_true_iff, bool_decide_eq_false. intros ->. by vm_compute in Hin.
Qed.
Ltac first_ids H :=
  rewrite ?guard_none in H; destruct H as [H _];
  repeat match type of H with (_ || _)%bool = false => apply orb_false_iff in H as [H _] end;
  apply negb_false_iff in H; apply (ids_ok_nonempty _ _ H); set_solver.
Lemma challenge_present c :
  CredentialRotationChallenge_Validate c 0 = None -> (CredentialRotationChallenge.SessionID c != "") = true.
Proof. unfold CredentialRotationChallenge_Validate. intros H. first_ids H. Qed.
Lemma install_present i :
  CredentialRotationInstall_Validate i 0 = None -> (CredentialRotationInstall.SessionID i != "") = true.
Proof. unfold CredentialRotationInstall_Validate. intros H. first_ids H. Qed.
Lemma ready_present r :
  CredentialRotationReady_Validate r 0 = None -> (CredentialRotationReady.SessionID r != "") = true.
Proof. unfold CredentialRotationReady_Validate. intros H. first_ids H. Qed.
Lemma revoke_present v :
  CredentialRotationRevoke_Validate v 0 = None -> (CredentialRotationRevoke.SessionID v != "") = true.
Proof. unfold CredentialRotationRevoke_Validate. intros H. first_ids H. Qed.

(** The validity window that a challenge fixes. *)
Lemma challenge_times c :
  (CredentialRotationChallenge.SessionID c != "") = true -> CredentialRotationChallenge_Validate c 0 = None ->
  let o := window c CredentialRotationChallenge.OverlapUntil in
  let u := window c CredentialRotationChallenge.NewCredentialValidUntil in
  xorb (IsZero o) (IsZero u) || negb (IsZero o) && negb (After u o) = false.
Proof.
  intros Hp H o u. apply negb_true_iff in Hp. unfold o, u, window. rewrite Hp.
  unfold CredentialRotationChallenge_Validate in H. rewrite !guard_none in H. destruct H as (H & _). clear -H.
  generalize dependent (CredentialRotationChallenge.OverlapUntil c).
  generalize dependent (CredentialRotationChallenge.NewCredentialValidUntil c). intros u o H. bool_prop.
  assert (Eo : IsZero o = false) by assumption. assert (Eu : IsZero u = false) by assumption.
  assert (Ea : After u o = true) by assumption. by rewrite Eo, Eu, Ea.
Qed.

(** ** Each transition of a target keeps it resumable *)
Lemma flags_split r c i y v :
  flags r = (c, i, y, v) ->
  challengePresent r = c /\ installPresent r = i /\ readyPresent r = y /\ revokePresent r = v.
Proof. intros [= <- <- <- <-]. done. Qed.

Lemma bool_decide_refl {A} `{!EqDecision A} (x : A) : bool_decide (x = x) = true.
Proof. by apply bool_decide_eq_true. Qed.

Lemma resumable_pending p t :
  RotationTarget_Validate t = None -> RotationPlan_Target p (RotationTarget.ConnectorID t) = Some t ->
  resumable p (snapshot_target (Target.pending t)).
Proof. intros Ht Hp. by apply (resumable_intro p _ (false, false, false, false)). Qed.

(** A conjunction of field comparisons, from the equations in the context. *)
Ltac solve_bound :=
  repeat match goal with
  | H : ?x = ?y |- context [bool_decide (?x = _)] => rewrite H
  | H : ?x = ?y |- context [?x =? _] => rewrite H
  end; rewrite ?bool_decide_refl, ?Z.eqb_refl; try done.

Section Transitions.
Context (p : RotationPlan) (s : rotationTargetState).
Hypothesis Hs : resumable p (snapshot_target s).

Lemma code_empty f : phase_messages (state s) = Some f -> code s = "".
Proof using Hs.
  intros Hf. apply (res_code _ _ Hs). cbn. intros E. rewrite E in Hf. by vm_compute in Hf.
Qed.

Lemma resumable_challenge now ch :
  state s = RotationTargetPending \/ state s = RotationTargetChallenged ->
  CredentialRotationChallenge_Validate ch now = None ->
  CredentialRotationChallenge.AccountID ch = RotationPlan.AccountID p ->
  CredentialRotationChallenge.TunnelID ch = RotationPlan.TunnelID p ->
  CredentialRotationChallenge.OperationID ch = RotationPlan.OperationID p ->
  CredentialRotationChallenge.TargetSetHash ch = RotationPlan.TargetSetHash p ->
  CredentialRotationChallenge.Target ch = target s ->
  CredentialRotationChallenge.ConnectorID ch = RotationTarget.ConnectorID (target s) ->
  CredentialRotationChallenge.HostID ch = RotationTarget.HostID (target s) ->
  resumable p (snapshot_target (s <| challenge := ch |> <| state := RotationTargetChallenged |>)).
Proof using Hs.
  intros Hp Hv Ha Ht Ho Hh Htg Hc Hho. apply challenge_valid_anytime in Hv.
  assert (exists c, flags (snapshot_target s) = (c, false, false, false) /\ code s = "") as (c & Hf & Hcode).
  { destruct Hp as [Hp|Hp]; (eexists; split; [eapply phase_flags; [done|]; cbn; rewrite Hp; reflexivity
      |eapply code_empty; rewrite Hp; reflexivity]). }
  apply flags_split in Hf as (_ & Hi & Hy & Hr).
  apply (resumable_intro p _ (true, false, false, false)); try done.
  - apply (res_target _ _ Hs).
  - apply (res_planned _ _ Hs).
  - unfold flags. f_equal; [f_equal; [f_equal|]|]; try done. by apply challenge_present.
  - apply challenge_times; [by apply challenge_present|done].
  - intros _. unfold challenge_bound, snapshot_target. cbn. rewrite Hv, Ha, Ht, Ho, Hh, Htg, Hc, Hho.
    by rewrite !bool_decide_refl.
  - intros E. change (installPresent (snapshot_target s) = true) in E. congruence.
  - intros E. change (readyPresent (snapshot_target s) = true) in E. congruence.
  - intros E. change (revokePresent (snapshot_target s) = true) in E. congruence.
Qed.

Lemma resumable_install now prf i :
  state s = RotationTargetChallenged ->
  rotationProofMatchesChallenge prf (challenge s) (target s) = true ->
  i = install_of p (challenge s) prf -> CredentialRotationInstall_Validate i now = None ->
  resumable p (snapshot_target (s <| proof := prf |> <| install := i |> <| state := RotationTargetInstalled |>)).
Proof using Hs.
  intros Hp Hm Hi Hv. apply install_valid_anytime in Hv.
  assert (Hf : flags (snapshot_target s) = (true, false, false, false)).
  { eapply phase_flags; [done|]. cbn. by rewrite Hp. }
  apply flags_split in Hf as (Hc & _ & Hy & Hr).
  apply (resumable_intro p _ (true, true, false, false)); try done.
  - apply (res_target _ _ Hs).
  - apply (res_planned _ _ Hs).
  - unfold flags. f_equal; [f_equal; [f_equal|]|]; try done. by apply install_present.
  - eapply code_empty. by rewrite Hp.
  - apply (res_times _ _ Hs).
  - apply (res_challenge _ _ Hs).
  - intros _. pose proof (res_challenge _ _ Hs Hc) as Hb. unfold challenge_bound, snapshot_target in Hb.
    cbn in Hb. unfold rotationProofMatchesChallenge in Hm. bool_prop.
    unfold install_bound, snapshot_target. cbn. rewrite Hv. subst i. cbn.
    solve_bound.
  - intros E. change (readyPresent (snapshot_target s) = true) in E. congruence.
  - intros E. change (revokePresent (snapshot_target s) = true) in E. congruence.
Qed.

Lemma resumable_ready now r :
  state s = RotationTargetInstalled ->
  ready_mismatch p (install s) r = false -> CredentialRotationReady_Validate r now = None ->
  CredentialRotationReady.ConnectorID r = RotationTarget.ConnectorID (target s) ->
  resumable p (snapshot_target (s <| ready := r |> <| state := RotationTargetReady |>)).
Proof using Hs.
  intros Hp Hm Hv Hk. apply ready_valid_anytime in Hv.
  assert (Hf : flags (snapshot_target s) = (true, true, false, false)).
  { eapply phase_flags; [done|]. cbn. by rewrite Hp. }
  apply flags_split in Hf as (Hc & Hi & _ & Hr).
  apply (resumable_intro p _ (true, true, true, false)); try done.
  - apply (res_target _ _ Hs).
  - apply (res_planned _ _ Hs).
  - unfold flags. f_equal; [f_equal; [f_equal|]|]; try done. by apply ready_present.
  - eapply code_empty. by rewrite Hp.
  - apply (res_times _ _ Hs).
  - apply (res_challenge _ _ Hs).
  - apply (res_install _ _ Hs).
  - intros _. pose proof (res_install _ _ Hs Hi) as Hb. unfold install_bound, snapshot_target in Hb.
    cbn in Hb. unfold ready_mismatch in Hm. bool_prop.
    unfold ready_bound, snapshot_target. cbn. rewrite Hv.
    rewrite (bool_decide_eq_false_2 (CredentialRotationReady.SessionID r = _)) by done.
    rewrite (proj2 (Z.ltb_ge _ _)) by done. solve_bound.
  - intros E. change (revokePresent (snapshot_target s) = true) in E. congruence.
Qed.

Lemma resumable_revoke now nonce v :
  state s = RotationTargetReady ->
  v = revoke_of p s (RotationTarget.ConnectorID (target s)) nonce now ->
  CredentialRotationRevoke_Validate v now = None ->
  resumable p (snapshot_target (s <| revoke := v |> <| state := RotationTargetRevoking |>)).
Proof using Hs.
  intros Hp Hm Hv. apply revoke_valid_anytime in Hv.
  assert (Hf : flags (snapshot_target s) = (true, true, true, false)).
  { eapply phase_flags; [done|]. cbn. by rewrite Hp. }
  apply flags_split in Hf as (Hc & Hi & Hy & _).
  apply (resumable_intro p _ (true, true, true, true)); try done.
  - apply (res_target _ _ Hs).
  - apply (res_planned _ _ Hs).
  - unfold flags. f_equal; [f_equal; [f_equal|]|]; try done. by apply revoke_present.
  - eapply code_empty. by rewrite Hp.
  - apply (res_times _ _ Hs).
  - apply (res_challenge _ _ Hs).
  - apply (res_install _ _ Hs).
  - apply (res_ready _ _ Hs).
  - intros _. unfold revoke_bound, snapshot_target. cbn. rewrite Hv. subst v. cbn. solve_bound.
Qed.

Lemma resumable_confirm :
  state s = RotationTargetRevoking ->
  resumable p (snapshot_target (s <| state := RotationTargetRevoked |>)).
Proof using Hs.
  intros Hp. assert (Hf : flags (snapshot_target s) = (true, true, true, true)).
  { eapply phase_flags; [done|]. cbn. by rewrite Hp. }
  apply (resumable_intro p _ (true, true, true, true)); try done.
  - apply (res_target _ _ Hs).
  - apply (res_planned _ _ Hs).
  - eapply code_empty. by rewrite Hp.
  - apply (res_times _ _ Hs).
  - apply (res_challenge _ _ Hs).
  - apply (res_install _ _ Hs).
  - apply (res_ready _ _ Hs).
  - apply (res_revoke _ _ Hs).
Qed.

Lemma resumable_fail cd :
  cd <> "" -> validCode cd = true ->
  resumable p (snapshot_target (s <| state := RotationTargetFailed |> <| code := cd |>)).
Proof using Hs. intros Hc Hv. destruct Hs. by split. Qed.
End Transitions.

(** ** The invariant of the coordinator *)

Definition settled (c : RotationCoordinator) : Prop :=
  finished c = 0
  \/ (exists k s, targets c !! k = Some s /\ state s = RotationTargetFailed)
  \/ (forall k s, targets c !! k = Some s -> state s = RotationTargetRevoked).

Record coord_inv (p : RotationPlan) (c : RotationCoordinator) : Prop := {
  ci_plan : plan c = p;
  ci_valid : RotationPlan_Validate p = None;
  ci_dom : forall t, t ∈ RotationPlan.Targets p -> is_Some (targets c !! RotationTarget.ConnectorID t);
  ci_target : forall k s, targets c !! k = Some s ->
    RotationTarget.ConnectorID (target s) = k /\ resumable p (snapshot_target s);
  ci_settled : settled c;
}.

Lemma plan_targets_ok p :
  RotationPlan_Validate p = None ->
  NoDup (RotationTarget.ConnectorID <$> RotationPlan.Targets p)
  /\ forall t, t ∈ RotationPlan.Targets p -> RotationTarget_Validate t = None
      /\ RotationPlan_Target p (RotationTarget.ConnectorID t) = Some t.
Proof.
  unfold RotationPlan_Validate, validateRotationPlanFields. intros H.
  repeat (case_match; try done). destruct (validate_targets_ok [] (RotationPlan.Targets p)) as (Hv & Hn & _); [done|].
  split; [done|]. intros t Ht. split; [|by apply find_target]. rewrite Forall_forall in Hv. by apply Hv.
Qed.

Lemma planned_in p k t : RotationPlan_Target p k = Some t -> t ∈ RotationPlan.Targets p.
Proof. intros H. apply find_some in H as [H _]. by apply list_elem_of_In. Qed.

Lemma foldl_init_lookup l (m : gmap string rotationTargetState) k :
  foldl (fun m t => <[RotationTarget.ConnectorID t := Target.pending t]> m) m l !! k = m !! k
    /\ k ∉ RotationTarget.ConnectorID <$> l
  \/ exists t, t ∈ l /\ RotationTarget.ConnectorID t = k
      /\ foldl (fun m t => <[RotationTarget.ConnectorID t := Target.pending t]> m) m l !! k
         = Some (Target.pending t).
Proof.
  revert m. induction l as [|t l IH]; intros m; cbn [foldl]; [left; split; [done|by intros ?%elem_of_nil]|].
  destruct (IH (<[RotationTarget.ConnectorID t := Target.pending t]> m)) as [[-> Hn]|(x & Hx & Hk & ->)].
  - destruct (decide (RotationTarget.ConnectorID t = k)) as [E|E].
    + right. exists t. rewrite <- E at 2. rewrite lookup_insert_eq. split_and!; [left|done..].
    + left. rewrite lookup_insert_ne by done. split; [done|]. rewrite fmap_cons, not_elem_of_cons. auto.
  - right. exists x. split_and!; [by right|done..].
Qed.

Lemma init_targets_lookup l k s :
  init_targets l !! k = Some s -> exists t, t ∈ l /\ RotationTarget.ConnectorID t = k /\ s = Target.pending t.
Proof.
  unfold init_targets. destruct (foldl_init_lookup l ∅ k) as [[-> _]|(t & ? & ? & ->)]; [by rewrite lookup_empty|].
  intros [= <-]. eauto.
Qed.
Lemma init_targets_dom l t : t ∈ l -> is_Some (init_targets l !! RotationTarget.ConnectorID t).
Proof.
  intros Ht. unfold init_targets. destruct (foldl_init_lookup l ∅ (RotationTarget.ConnectorID t))
    as [[_ Hn]|(x & ? & ? & ->)]; [|eauto]. destruct Hn. by apply list_elem_of_fmap_2.
Qed.

Lemma NewRotationCoordinator_inv p c : NewRotationCoordinator p = Ok c -> coord_inv p c.
Proof.
  unfold NewRotationCoordinator. destruct (RotationPlan_Validate p) eqn:Hv; [done|]. intros [= <-].
  destruct (plan_targets_ok p Hv) as [_ Ht]. split; cbn; try done.
  - intros t. apply init_targets_dom.
  - intros k s (t & Hin & <- & ->)%init_targets_lookup. split; [done|].
    destruct (Ht t Hin). by apply resumable_pending.
  - by left.
Qed.

(** ** Recovery *)

Definition adopted (s : rotationTargetState) (r : RotationResumeTarget) : rotationTargetState :=
  Target.mk (target s) (RotationResumeTarget.State r) (RotationResumeTarget.Code r)
    (RotationResumeTarget.Challenge r) (RotationResumeTarget.Proof r) (RotationResumeTarget.Install r)
    (RotationResumeTarget.Ready r) (RotationResumeTarget.Revoke r).
Definition connector (r : RotationResumeTarget) : string :=
  RotationTarget.ConnectorID (RotationResumeTarget.Target r).

Lemma adopt_other l m k : k ∉ connector <$> l -> foldl adopt m l !! k = m !! k.
Proof.
  revert m. induction l as [|r l IH]; intros m Hk; [done|]. rewrite fmap_cons, not_elem_of_cons in Hk.
  destruct Hk as [Hne Hk]. cbn [foldl]. rewrite IH by done. unfold adopt. by rewrite lookup_alter_ne.
Qed.
Lemma adopt_lookup l m r s :
  NoDup (connector <$> l) -> r ∈ l -> m !! connector r = Some s ->
  foldl adopt m l !! connector r = Some (adopted s r).
Proof.
  revert m. induction l as [|x l IH]; intros m Hnd Hr Hs; [by apply elem_of_nil in Hr|].
  rewrite fmap_cons, NoDup_cons in Hnd. destruct Hnd as [Hx Hnd]. cbn [foldl].
  apply elem_of_cons in Hr as [->|Hr].
  - rewrite adopt_other by done. unfold adopt. fold (connector x). by rewrite lookup_alter_eq, Hs.
  - apply IH; [done..|]. unfold adopt. rewrite lookup_alter_ne; [done|]. fold (connector x).
    intros E. apply Hx. rewrite E. by apply list_elem_of_fmap_2.
Qed.

Lemma check_recovered_ok c l : forall seen,
  check_recovered c seen l = None ->
  NoDup (connector <$> l) /\ (forall r, r ∈ l -> connector r ∉ seen)
  /\ forall r, r ∈ l -> exists s, targets c !! connector r = Some s
       /\ target s = RotationResumeTarget.Target r /\ resumable (plan c) r.
Proof.
  induction l as [|r l IH]; intros seen H.
  { split_and!; [constructor|by intros ? ?%elem_of_nil..]. }
  cbn [check_recovered] in H. fold (connector r) in H. rewrite !guard_none in H.
  destruct H as (Hseen & Hr & H). apply IH in H as (Hnd & Hs & Hl). bool_prop.
  destruct (targets c !! connector r) as [s|] eqn:E; [|done]. bool_prop.
  split_and!.
  - rewrite fmap_cons. apply NoDup_cons. split; [|done]. intros (x & Ex & Hx)%list_elem_of_fmap.
    apply Hs in Hx. apply Hx. rewrite <- Ex. by left.
  - intros x [->|Hx]%elem_of_cons; [done|]. apply Hs in Hx. rewrite not_elem_of_cons in Hx. by destruct Hx.
  - intros x [->|Hx]%elem_of_cons; [|by apply Hl]. exists s. split_and!; [done..|].
    apply validate_resumable. match goal with Hv : ok _ = true |- _ => by apply ok_None in Hv end.
Qed.

(** What a target carries over a recovery is what the store held. *)
Lemma resumable_adopted p s r :
  target s = RotationResumeTarget.Target r -> resumable p r -> resumable p (snapshot_target (adopted s r)).
Proof.
  destruct r as [t st cd o u ch pr i y v]. cbn. intros Ht Hr. unfold snapshot_target, adopted. cbn. rewrite Ht.
  destruct (bool_decide (CredentialRotationChallenge.SessionID ch = "")) eqn:E.
  - unfold window. rewrite E. destruct Hr. by split.
  - pose proof (res_challenge _ _ Hr) as Hc. unfold challengePresent in Hc. cbn in Hc. rewrite E in Hc.
    specialize (Hc eq_refl). unfold challenge_bound in Hc. cbn in Hc. bool_prop.
    match goal with Hv : ok (CredentialRotationChallenge_Validate _ _) = true |- _ => apply ok_None in Hv end.
    assert (Ht' : (CredentialRotationChallenge.SessionID ch != "") = true)
      by (by apply negb_true_iff, bool_decide_eq_false).
    pose proof (challenge_times ch Ht' ltac:(done)). destruct Hr. by split.
Qed.

(** As many distinct recovered targets as there are targets: all of them. *)
Lemma recovered_covers c l :
  NoDup (connector <$> l) -> (forall r, r ∈ l -> is_Some (targets c !! connector r)) ->
  length l = size (targets c) -> forall k, is_Some (targets c !! k) -> k ∈ connector <$> l.
Proof.
  intros Hnd Hin Hlen k Hk.
  assert (Hsub : (list_to_set (connector <$> l) : gset string) ⊆ dom (targets c)).
  { intros x Hx. rewrite elem_of_list_to_set in Hx. apply list_elem_of_fmap in Hx as (r & -> & Hr).
    apply elem_of_dom. by apply Hin. }
  assert (Heq : (list_to_set (connector <$> l) : gset string) = dom (targets c)).
  { apply set_subseteq_size_eq; [done|]. rewrite size_dom, <- Hlen, size_list_to_set by done.
    by rewrite length_fmap. }
  rewrite <- (elem_of_list_to_set (C := gset string)), Heq. by apply elem_of_dom.
Qed.

Lemma adopted_state c l :
  check_recovered c [] l = None ->
  forall k s', foldl adopt (targets c) l !! k = Some s' ->
  (exists r s, r ∈ l /\ connector r = k /\ targets c !! k = Some s /\ s' = adopted s r
     /\ target s = RotationResumeTarget.Target r /\ resumable (plan c) r)
  \/ targets c !! k = Some s' /\ k ∉ connector <$> l.
Proof.
  intros Hc k s' Hk. destruct (check_recovered_ok c l [] Hc) as (Hnd & _ & Hl).
  destruct (decide (k ∈ connector <$> l)) as [Hin|Hn].
  - left. apply list_elem_of_fmap in Hin as (r & -> & Hr). destruct (Hl r Hr) as (s & Hs & Ht & Hres).
    rewrite (adopt_lookup l (targets c) r s Hnd Hr Hs) in Hk. injection Hk as <-. exists r, s. auto 10.
  - right. by rewrite adopt_other in Hk.
Qed.

Lemma resume_inv p c loaded :
  coord_inv p c -> recovered_ok c loaded ->
  coord_inv p (c <| targets := foldl adopt (targets c) (RotationResume.Targets loaded) |>
                 <| started := true |> <| finished := RotationResume.FinishedAt loaded |>).
Proof.
  intros [Hp Hv Hd Ht Hset] (Hst & Hlen & Hc & Hfin). set (l := RotationResume.Targets loaded) in *.
  destruct (check_recovered_ok c l [] Hc) as (Hnd & _ & Hl). split; cbn; try done.
  - intros t Hin. apply Hd in Hin as [s Hs]. destruct (decide (RotationTarget.ConnectorID t ∈ connector <$> l)) as [Hin|Hn].
    + apply list_elem_of_fmap in Hin as (r & E & Hr). rewrite E in *. rewrite (adopt_lookup l _ r s); eauto.
    + rewrite adopt_other by done. eauto.
  - intros k s' [(r & s & Hr & <- & Hs & -> & Htg & Hres)|[Hs _]]%adopted_state; [|by apply Ht|done].
    split; [by apply (Ht _ s)|]. apply resumable_adopted; [done|]. by rewrite <- Hp.
  - destruct Hfin as [->|[Hf|Ha]]; [by left|right..].
    + left. apply existsb_exists in Hf as (x & Hx & E). bool_prop. subst x.
      apply in_map_iff in Hx as (r & E & Hr%list_elem_of_In). destruct (Hl r Hr) as (s & Hs & _).
      exists (connector r), (adopted s r). split; [by apply adopt_lookup|done].
    + right. intros k s' Hk. cbn in Hk. apply adopted_state in Hk as [(r & s & Hr & _ & _ & -> & _)|[Hs Hn]]; [| |done].
      * rewrite forallb_forall in Ha. specialize (Ha (RotationResumeTarget.State r)).
        apply (bool_decide_eq_true (RotationResumeTarget.State r = _)), Ha, in_map_iff. exists r.
        split; [done|]. by apply list_elem_of_In.
      * destruct Hn. apply (recovered_covers c l Hnd); [|done|eauto]. intros r Hr.
        destruct (Hl r Hr) as (s & Hs' & _). eauto.
Qed.

(** ** Every call keeps the invariant *)

Lemma with_target_inv p c k s s' :
  coord_inv p c -> targets c !! k = Some s -> target s' = target s ->
  resumable p (snapshot_target s') ->
  state s <> RotationTargetFailed -> state s <> RotationTargetRevoked ->
  coord_inv p (with_target c k s').
Proof.
  intros [Hp Hv Hd Ht Hset] Hs Htg Hr Hf Hrv. split; cbn; try done.
  - intros t Hin. destruct (decide (k = RotationTarget.ConnectorID t)) as [->|Hne];
      [rewrite lookup_insert_eq; eauto|rewrite lookup_insert_ne by done; auto].
  - intros j x Hx. destruct (decide (k = j)) as [->|Hne].
    + rewrite lookup_insert_eq in Hx. injection Hx as <-. split; [|done]. rewrite Htg. by apply Ht.
    + rewrite lookup_insert_ne in Hx by done. by apply Ht.
  - unfold settled. cbn. destruct Hset as [Hz|[(j & x & Hx & E)|Hall]]; [by left|right..].
    + left. exists j, x. rewrite lookup_insert_ne by (intros ->; congruence). done.
    + destruct Hrv. by apply (Hall k).
Qed.

Lemma finish_inv p c fin :
  coord_inv p c -> settled (c <| finished := fin |>) -> coord_inv p (c <| finished := fin |>).
Proof. intros [] ?. by split. Qed.

Lemma coord_target_state p c k s :
  coord_inv p c -> targets c !! k = Some s ->
  target s ∈ RotationPlan.Targets p /\ target_state c (target s) = s.
Proof.
  intros Hi Hs. destruct (ci_target _ _ Hi k s Hs) as [Hk Hr]. split.
  - apply (planned_in _ _ _ (res_planned _ _ Hr)).
  - unfold target_state. by rewrite Hk, Hs.
Qed.

(** A summary that says succeeded means that every target is revoked. *)
Lemma succeeded_all_revoked p c :
  coord_inv p c -> RotationSummary.Status (summaryLocked c) = RotationAggregateSucceeded ->
  forall k s, targets c !! k = Some s -> state s = RotationTargetRevoked.
Proof.
  intros Hi H k s Hs. destruct (coord_target_state p c k s Hi Hs) as [Hin Est].
  unfold summaryLocked in H. cbn [RotationSummary.Status] in H. case_match; [done|].
  destruct (forallb _ _) eqn:Ha in H; [|done]. rewrite forallb_forall in Ha.
  rewrite <- Est. apply (bool_decide_eq_true (state _ = _)), Ha, in_map.
  rewrite (ci_plan _ _ Hi). by apply list_elem_of_In.
Qed.

Section Preservation.
Context {S : Type} `{!RotationPersistence S}.
Context (ed25519_Verify : list Z -> string -> list Z -> bool).
Context (verify : CredentialRotationProof -> string -> list Z -> option goerror).
Implicit Type st : RotState (S := S).

Lemma effect_inv p st a b st' :
  coord_inv p (coord st) -> effect ed25519_Verify verify st a b st' -> coord_inv p (coord st').
Proof.
  intros Hi He. destruct He as [b s' _|b q load reply s' _ _|w err s1 s' _ _ _|s' _ _
    |k s ch now s1 s' _ Hs Hph Hv Hch _ _|s prf i s' Hs Hph Hj _|s r s' Hs Hph Hj _|s v s' Hs Hph Hj _
    |k s a sum fin s' Hs Hph c' Hfin _|k s cd w reply fin s' Hs Hr Hf Hc Hv _ _|load loaded s' _ _ _ Hrec];
    cbn [coord]; try done; try destruct (ci_target _ _ Hi _ _ Hs) as [Hk Hres].
  - destruct Hi. by split.
  - eapply with_target_inv; [done..| | |]; [|destruct Hph as [-> | ->]; discriminate..].
    rewrite (ci_plan _ _ Hi) in Hch. eapply resumable_challenge; [done..| | | | | | |]; by rewrite Hch.
  - destruct Hj as (s2 & now & Hs2 & _ & _ & Hm & _ & Hi2 & Hv). rewrite Hs in Hs2. injection Hs2 as <-.
    eapply with_target_inv; [done..| | |]; [|rewrite Hph; discriminate..].
    rewrite (ci_plan _ _ Hi) in Hi2. by eapply resumable_install.
  - destruct Hj as (s2 & now & Hs2 & _ & Hm & Hv). rewrite Hs in Hs2. injection Hs2 as <-.
    eapply with_target_inv; [done..| | |]; [|rewrite Hph; discriminate..].
    rewrite (ci_plan _ _ Hi) in Hm. by eapply resumable_ready.
  - destruct Hj as (s2 & nonce & now & Hs2 & _ & _ & Ev & Hv). rewrite Hs in Hs2. injection Hs2 as <-.
    eapply with_target_inv; [done..| | |]; [|rewrite Hph; discriminate..].
    rewrite (ci_plan _ _ Hi) in Ev. rewrite <- Hk in Ev. by eapply resumable_revoke.
  - assert (Hi' : coord_inv p c').
    { eapply with_target_inv; [done..| | |]; [by apply resumable_confirm|rewrite Hph; discriminate..]. }
    apply finish_inv; [done|]. destruct Hfin as [->|Hok]; [exact (ci_settled _ _ Hi')|].
    right. right. intros j x Hx. by apply (succeeded_all_revoked p c' Hi' Hok j).
  - apply finish_inv; [eapply with_target_inv; [done..| | |]; [by apply resumable_fail|done..]|].
    right. left. exists k, (s <| state := RotationTargetFailed |> <| code := cd |>).
    split; [apply lookup_insert_eq|done].
  - by apply resume_inv.
Qed.

(** What a coordinator of [p] can reach: calls in any order, and restarts of
    the process, which keep the store only. *)
Inductive rot_step (p : RotationPlan) : RotState (S := S) -> RotState (S := S) -> Prop :=
| step_call call st : rot_step p st (snd (rot_call ed25519_Verify verify call st))
| step_restart st c : NewRotationCoordinator p = Ok c -> rot_step p st (mkRot c (store st)).

Definition rot_reachable (p : RotationPlan) (store0 : S) (st : RotState (S := S)) : Prop :=
  exists c, NewRotationCoordinator p = Ok c /\ rtc (rot_step p) (mkRot c store0) st.

Lemma step_inv p st st' : rot_step p st st' -> coord_inv p (coord st) -> coord_inv p (coord st').
Proof.
  intros [call st0|st0 c Hc] Hi; [|by apply NewRotationCoordinator_inv].
  destruct (call_effect ed25519_Verify verify call st0 _ _ (surjective_pairing _)) as (a & He & _).
  by eapply effect_inv.
Qed.
Lemma rot_reachable_inv p store0 st : rot_reachable p store0 st -> coord_inv p (coord st).
Proof.
  intros (c & Hc & Hr). apply NewRotationCoordinator_inv in Hc.
  change c with (coord (mkRot c store0)) in Hc. revert Hc. induction Hr; [done|].
  intros. apply IHHr. by eapply step_inv.
Qed.
End Preservation.
