(* ===== verification/RotationRefinement.v ===== *)
(** * The rotation coordinator as a phase machine, and its recovery

    The contract of the coordinator is a machine of phases, one per connector,
    with one global guard: an old credential is revoked only when every target
    is ready.  The methods refine it.  Recovery from the store restores the
    coordinator exactly. *)
From S2P Require Import Prelude GoText GoHash GoJson Errors Canonical Identifiers WireConfig Messages.
From S2P Require Import RotationMessages RotationFacts Transcripts ServerSession Rotation RotationEffects RotationInvariant.
Import Target.

(** ** The abstract machine *)

Inductive Phase := PhPending | PhChallenged | PhInstalled | PhReady | PhRevoking | PhRevoked | PhFailed.
#[export] Instance Phase_eq_dec : EqDecision Phase.
Proof. solve_decision. Defined.

Record Abs := mkAbs { abs_started : bool; abs_phase : gmap string Phase }.

Definition ready_phase (ph : Phase) : Prop := ph = PhReady \/ ph = PhRevoking \/ ph = PhRevoked.

Inductive abs_step : Action -> Abs -> Abs -> Prop :=
| abs_start m : abs_step ActStart (mkAbs false m) (mkAbs true m)
| abs_challenge k m ph :
    m !! k = Some ph -> ph = PhPending \/ ph = PhChallenged ->
    abs_step (ActChallenge k) (mkAbs true m) (mkAbs true (<[k := PhChallenged]> m))
| abs_install k b m :
    m !! k = Some PhChallenged -> abs_step (ActInstall k) (mkAbs b m) (mkAbs b (<[k := PhInstalled]> m))
| abs_ready k b m :
    m !! k = Some PhInstalled -> abs_step (ActReady k) (mkAbs b m) (mkAbs b (<[k := PhReady]> m))
| abs_revoke k b m :
    m !! k = Some PhReady -> (forall j ph, m !! j = Some ph -> ready_phase ph) ->
    abs_step (ActRevoke k) (mkAbs b m) (mkAbs b (<[k := PhRevoking]> m))
| abs_confirm k b m :
    m !! k = Some PhRevoking -> abs_step (ActConfirm k) (mkAbs b m) (mkAbs b (<[k := PhRevoked]> m))
| abs_fail k b m ph :
    m !! k = Some ph -> ph <> PhRevoked -> ph <> PhFailed ->
    abs_step (ActFail k) (mkAbs b m) (mkAbs b (<[k := PhFailed]> m))
| abs_resume m m' :
    dom m' = dom m -> abs_step ActResume (mkAbs false m) (mkAbs true m').

(** ** The abstraction *)
Definition phase_of (s : RotationTargetState) : Phase :=
  if s == RotationTargetPending then PhPending
  else if s == RotationTargetChallenged then PhChallenged
  else if s == RotationTargetInstalled then PhInstalled
  else if s == RotationTargetReady then PhReady
  else if s == RotationTargetRevoking then PhRevoking
  else if s == RotationTargetRevoked then PhRevoked
  else PhFailed.
Definition target_phase (s : rotationTargetState) : Phase := phase_of (state s).
Definition abs (c : RotationCoordinator) : Abs := mkAbs (started c) (target_phase <$> targets c).

Lemma abs_with_target c k s :
  abs (with_target c k s) = mkAbs (started c) (<[k := phase_of (state s)]> (abs_phase (abs c))).
Proof. unfold abs, with_target. cbn. f_equal. exact (fmap_insert target_phase (targets c) k s). Qed.
Lemma abs_lookup c k s : targets c !! k = Some s -> abs_phase (abs c) !! k = Some (phase_of (state s)).
Proof. intros H. cbn. by rewrite lookup_fmap, H. Qed.

(** A state of the code is failed exactly in the failed phase. *)
Lemma phase_failed s : validRotationTargetState s = true -> s <> RotationTargetFailed -> phase_of s <> PhFailed.
Proof.
  unfold validRotationTargetState, phase_of. intros Hv Hf. bool_prop. rewrite !elem_of_cons, elem_of_nil in Hv.
  by repeat (case_match; [done|]; bool_prop); destruct_or?.
Qed.
Lemma phase_revoked s : s <> RotationTargetRevoked -> phase_of s <> PhRevoked.
Proof. unfold phase_of. intros H. repeat (case_match; [done|]). case_match; by bool_prop. Qed.

Lemma allReady_phases p c :
  coord_inv p c -> allReadyLocked c = true ->
  forall k ph, abs_phase (abs c) !! k = Some ph -> ready_phase ph.
Proof.
  intros Hi Ha k ph Hk. cbn in Hk. rewrite lookup_fmap in Hk.
  destruct (targets c !! k) as [s|] eqn:E; [|done]. cbn in Hk. injection Hk as <-.
  unfold allReadyLocked in Ha. rewrite forallb_forall in Ha.
  assert (Hr : ready_or_later s = true).
  { apply Ha, in_map_iff. exists (k, s). split; [done|]. apply list_elem_of_In. by apply elem_of_map_to_list. }
  unfold ready_or_later in Hr. apply orb_true_iff in Hr as [Hr|Hr]; [apply orb_true_iff in Hr as [Hr|Hr]|];
    apply bool_decide_eq_true in Hr; unfold target_phase; rewrite Hr; vm_compute; auto.
Qed.

Lemma foldl_adopt_dom l m : dom (foldl adopt m l) =@{gset string} dom m.
Proof.
  revert m. induction l as [|r l IH]; intros m; cbn [foldl]; [done|]. rewrite IH. unfold adopt. apply dom_alter_L.
Qed.

Section Refinement.
Context {S : Type} `{!RotationPersistence S}.
Context (ed25519_Verify : list Z -> string -> list Z -> bool).
Context (verify : CredentialRotationProof -> string -> list Z -> option goerror).
Implicit Type st : RotState (S := S).

(** The effects are steps of the machine. *)
Lemma effect_refines p st a b st' :
  coord_inv p (coord st) -> effect ed25519_Verify verify st a b st' ->
  match a with
  | None => abs (coord st') = abs (coord st)
  | Some a => abs_step a (abs (coord st)) (abs (coord st'))
  end.
Proof.
  intros Hi He. destruct He as [b s' _|b q load reply s' _ _|w err s1 s' _ _ _|s' Hst _
    |k s ch now s1 s' Hst Hs Hph Hv Hch _ _|s prf i s' Hs Hph Hj _|s r s' Hs Hph Hj _|s v s' Hs Hph Hj _
    |k s a sum fin s' Hs Hph c' Hfin _|k s cd w reply fin s' Hs Hr Hf Hc Hv _ _|load loaded s' _ _ _ Hrec];
    cbn [coord]; try done.
  - unfold abs. cbn. rewrite Hst. constructor.
  - rewrite abs_with_target. unfold abs at 1. rewrite Hst. eapply abs_challenge; [by apply (abs_lookup (coord st))|].
    destruct Hph as [-> | ->]; auto.
  - rewrite abs_with_target. apply abs_install. apply abs_lookup in Hs. by rewrite Hph in Hs.
  - rewrite abs_with_target. apply abs_ready. apply abs_lookup in Hs. by rewrite Hph in Hs.
  - rewrite abs_with_target. apply abs_revoke; [apply abs_lookup in Hs; by rewrite Hph in Hs|].
    destruct Hj as (? & ? & ? & _ & _ & Ha & _). by apply (allReady_phases p (coord st)).
  - change (abs (c' <| finished := fin |>)) with (abs c'). unfold c'. rewrite abs_with_target.
    apply abs_confirm. apply abs_lookup in Hs. by rewrite Hph in Hs.
  - destruct (ci_target _ _ Hi _ _ Hs) as [_ Hres].
    change (abs (_ <| finished := fin |>)) with
      (abs (with_target (coord st) k (s <| state := RotationTargetFailed |> <| code := cd |>))).
    rewrite abs_with_target. eapply abs_fail; [by apply (abs_lookup (coord st))|by apply phase_revoked|].
    apply phase_failed; [apply (res_state _ _ Hres)|done].
  - destruct Hrec as (Hst & _). unfold abs. cbn. rewrite Hst. apply abs_resume. rewrite !dom_fmap_L.
    apply foldl_adopt_dom.
Qed.

(** C25. The rotation coordinator implements a machine of phases per connector (pending,
    challenged, installed, ready, revoking, revoked, failed) in which a credential is revoked
    only when every target is ready: from every reachable state a call that succeeds makes its
    own step of the machine or none, and a call that returns an error fails the target it names
    or changes no phase, whatever the store replies. *)
Theorem coordinator_refines_phases p store0 st call b st' :
  rot_reachable ed25519_Verify verify p store0 st ->
  rot_call ed25519_Verify verify call st = (b, st') ->
  abs (coord st') = abs (coord st)
  \/ (if b then abs_step (action_of call) (abs (coord st)) (abs (coord st'))
      else exists k, connector_of call = Some k /\ abs_step (ActFail k) (abs (coord st)) (abs (coord st'))).
Proof.
  intros Hr Hc. apply rot_reachable_inv in Hr. destruct (call_effect _ _ _ _ _ _ Hc) as ([a|] & He & Ha);
    pose proof (effect_refines p st _ b st' Hr He) as Hs; cbn in Hs, Ha; [right|by left].
  destruct b; [by subst a|]. destruct Ha as (k & Hk & ->). eauto.
Qed.
End Refinement.

(** ** Recovery restores what was saved *)

Lemma check_recovered_intro c l seen :
  NoDup (connector <$> l) -> (forall r, r ∈ l -> connector r ∉ seen) ->
  (forall r, r ∈ l -> exists s, targets c !! connector r = Some s
     /\ target s = RotationResumeTarget.Target r /\ resumable (plan c) r) ->
  check_recovered c seen l = None.
Proof.
  revert seen. induction l as [|r l IH]; intros seen Hnd Hseen Hl; [done|]. cbn [check_recovered].
  fold (connector r). rewrite fmap_cons, NoDup_cons in Hnd. destruct Hnd as [Hr Hnd].
  destruct (Hl r) as (s & Hs & Ht & Hres); [left|]. rewrite !guard_none. split_and!.
  - apply bool_decide_eq_false, Hseen. left.
  - rewrite Hs, (res_state _ _ Hres), (proj2 (validate_resumable _ _) Hres), Ht. by rewrite bool_decide_refl.
  - apply IH; [done| |intros; apply Hl; by right]. intros x Hx. rewrite not_elem_of_cons. split.
    + intros E. apply Hr. rewrite <- E. by apply list_elem_of_fmap_2.
    + apply Hseen. by right.
Qed.

Lemma init_targets_size l :
  NoDup (RotationTarget.ConnectorID <$> l) -> size (init_targets l) = length l.
Proof.
  intros Hnd. rewrite <- size_dom, <- (length_fmap RotationTarget.ConnectorID l),
    <- (size_list_to_set (C := gset string)) by done.
  f_equal. apply set_eq. intros k. rewrite elem_of_dom, elem_of_list_to_set, list_elem_of_fmap. split.
  - intros [s (t & Ht & <- & _)%init_targets_lookup]. eauto.
  - intros (t & -> & Ht). by apply init_targets_dom.
Qed.

Lemma adopted_self t s : target s = t -> adopted (Target.pending t) (snapshot_target s) = s.
Proof. destruct s. cbn. intros <-. done. Qed.

Section Recovery.
Context (p : RotationPlan) (c : RotationCoordinator).
Hypothesis Hi : coord_inv p c.

Definition saved : list RotationResumeTarget := RotationResume.Targets (snapshot c).

Lemma saved_eq : saved = map (fun t => snapshot_target (target_state c t)) (RotationPlan.Targets p).
Proof using Hi. unfold saved, snapshot. cbn. by rewrite (ci_plan _ _ Hi). Qed.

Lemma saved_target t :
  t ∈ RotationPlan.Targets p ->
  targets c !! RotationTarget.ConnectorID t = Some (target_state c t) /\ target (target_state c t) = t
  /\ resumable p (snapshot_target (target_state c t)).
Proof using Hi.
  intros Ht. destruct (ci_dom _ _ Hi t Ht) as [s Hs]. unfold target_state. rewrite Hs. cbn.
  destruct (ci_target _ _ Hi _ _ Hs) as [Hk Hr]. split_and!; [done| |done].
  destruct (plan_targets_ok p (ci_valid _ _ Hi)) as [_ Hp]. destruct (Hp t Ht) as [_ Hf].
  pose proof (res_planned _ _ Hr) as Hf'. cbn in Hf'. rewrite Hk in Hf'. congruence.
Qed.

Lemma saved_connectors : connector <$> saved = RotationTarget.ConnectorID <$> RotationPlan.Targets p.
Proof using Hi.
  rewrite saved_eq. change (@map) with (@fmap list list_fmap). rewrite <- list_fmap_compose.
  apply list_fmap_ext. intros i t Ht%list_elem_of_lookup_2. unfold connector. cbn.
  by destruct (saved_target t Ht) as (_ & -> & _).
Qed.

Lemma saved_elem r : r ∈ saved -> exists t, t ∈ RotationPlan.Targets p
  /\ r = snapshot_target (target_state c t) /\ connector r = RotationTarget.ConnectorID t.
Proof using Hi.
  rewrite saved_eq. intros Hr%list_elem_of_In. apply in_map_iff in Hr as (t & <- & Ht%list_elem_of_In).
  exists t. split_and!; [done..|]. unfold connector. cbn. by destruct (saved_target t Ht) as (_ & -> & _).
Qed.

Lemma fresh_lookup t :
  t ∈ RotationPlan.Targets p -> init_targets (RotationPlan.Targets p) !! RotationTarget.ConnectorID t
                               = Some (Target.pending t).
Proof using Hi.
  intros Ht. destruct (init_targets_dom _ _ Ht) as [s Hs]. rewrite Hs.
  apply init_targets_lookup in Hs as (t' & Ht' & Hk & ->). do 2 f_equal.
  destruct (plan_targets_ok p (ci_valid _ _ Hi)) as [Hnd _]. by apply (NoDup_fmap_inj RotationTarget.ConnectorID (RotationPlan.Targets p)).
Qed.

Definition fresh : RotationCoordinator := mkCoordinator p false 0 (init_targets (RotationPlan.Targets p)).

Lemma saved_accepted : check_recovered fresh [] saved = None.
Proof using Hi.
  apply check_recovered_intro.
  - rewrite saved_connectors. apply (plan_targets_ok p (ci_valid _ _ Hi)).
  - intros r _. apply not_elem_of_nil.
  - intros r (t & Ht & -> & Hk)%saved_elem. destruct (saved_target t Ht) as (_ & Htg & Hres).
    exists (Target.pending t). split_and!; [|done..]. rewrite Hk. by apply fresh_lookup.
Qed.

Lemma saved_adopted : foldl adopt (targets fresh) saved = targets c.
Proof using Hi.
  apply map_eq. intros k. pose proof (proj1 (plan_targets_ok p (ci_valid _ _ Hi))) as Hnd.
  destruct (decide (k ∈ RotationTarget.ConnectorID <$> RotationPlan.Targets p)) as [Hin|Hn].
  - apply list_elem_of_fmap in Hin as (t & -> & Ht). destruct (saved_target t Ht) as (Hs & Htg & _).
    rewrite Hs. assert (Hr : snapshot_target (target_state c t) ∈ saved).
    { rewrite saved_eq. apply list_elem_of_In, in_map_iff. exists t. split; [done|]. by apply list_elem_of_In. }
    assert (Hk : connector (snapshot_target (target_state c t)) = RotationTarget.ConnectorID t)
      by (unfold connector; cbn; by rewrite Htg).
    rewrite <- Hk. rewrite (adopt_lookup _ _ _ (Target.pending t)); [f_equal; by apply adopted_self|..|done|].
    + by rewrite saved_connectors.
    + rewrite Hk. by apply fresh_lookup.
  - rewrite adopt_other by (by rewrite saved_connectors). cbn. transitivity (@None rotationTargetState).
    + destruct (_ !! k) as [s|] eqn:E; [|done]. apply init_targets_lookup in E as (t & Ht & <- & _).
      destruct Hn. by apply list_elem_of_fmap_2.
    + destruct (targets c !! k) as [s|] eqn:E; [|done]. destruct Hn.
      destruct (coord_target_state p c k s Hi E) as [Ht _]. destruct (ci_target _ _ Hi k s E) as [<- _].
      by apply list_elem_of_fmap_2.
Qed.

Lemma recovered_is :
  started c = true ->
  fresh <| targets := foldl adopt (targets fresh) saved |> <| started := true |> <| finished := finished c |> = c.
Proof using Hi.
  intros Hst. pose proof saved_adopted as Ha. pose proof (ci_plan _ _ Hi) as Hp.
  unfold set_field. cbn in *. rewrite Ha. destruct c. cbn in *. congruence.
Qed.

Lemma saved_settled :
  IsZero (finished c) = false ->
  negb (existsb (fun s => s == RotationTargetFailed) (map RotationResumeTarget.State saved))
  && negb (forallb (fun s => s == RotationTargetRevoked) (map RotationResumeTarget.State saved)) = false.
Proof using Hi.
  intros Hz. assert (Hm : map RotationResumeTarget.State saved
    = map (fun t => state (target_state c t)) (RotationPlan.Targets p)).
  { rewrite saved_eq, map_map. done. }
  rewrite Hm. destruct (ci_settled _ _ Hi) as [E|[(k & s & Hs & Hf)|Ha]].
  - by rewrite E in Hz.
  - destruct (coord_target_state p c k s Hi Hs) as [Ht Est]. rewrite (proj2 (existsb_exists _ _)); [done|].
    exists (state s). split; [|by apply bool_decide_eq_true]. apply in_map_iff. exists (target s).
    rewrite Est. split; [done|]. by apply list_elem_of_In.
  - rewrite (proj2 (forallb_forall _ _)); [by rewrite andb_comm|]. intros x Hx.
    apply in_map_iff in Hx as (t & <- & Ht%list_elem_of_In). apply bool_decide_eq_true.
    destruct (saved_target t Ht) as (Hs & _). by apply Ha in Hs.
Qed.
End Recovery.

(** C26. Recovery restores the coordinator exactly: for every reachable started coordinator, a
    new coordinator of the same plan that resumes from a store returning the saved targets ends
    in the same state, so no phase that the coordinator can reach is refused by the recovery
    checks. *)
Theorem resume_restores_coordinator {S} `{!RotationPersistence S} ed25519_Verify verify p (store0 : S) st
    load store1 store2 c0 ctx now :
  rot_reachable ed25519_Verify verify p store0 st -> started (coord st) = true ->
  NewRotationCoordinator p = Ok c0 -> RotationRecoveryStore = Some load ->
  load p store1 = (Ok (snapshot (coord st)), store2) ->
  ctx = LiveContext None -> finished (coord st) <= now + MaxClockSkew ->
  Resume ctx now (mkRot c0 store1) = (Ok tt, mkRot (coord st) store2).
Proof.
  intros Hr%rot_reachable_inv Hst Hc0 Hload Hl -> Hfin. set (c := coord st) in *.
  unfold NewRotationCoordinator in Hc0. rewrite (ci_valid _ _ Hr) in Hc0. injection Hc0 as <-. fold (fresh p).
  assert (Hm : plan_mismatch (snapshot c) p = false).
  { unfold plan_mismatch, snapshot. cbn. by rewrite Hst, (ci_plan _ _ Hr), (ci_valid _ _ Hr), !bool_decide_refl. }
  assert (Hn : negb (Z.of_nat (length (saved c)) =? Z.of_nat (size (targets (fresh p)))) = false).
  { apply negb_false_iff, Z.eqb_eq. rewrite (saved_eq p c Hr), length_map. cbn.
    by rewrite init_targets_size by apply (plan_targets_ok p (ci_valid _ _ Hr)). }
  enough (Hw : wp (Resume (LiveContext None) now) (fun r s => r = Ok tt /\ s = mkRot c store2) (mkRot (fresh p) store1)).
  { unfold wp in Hw. destruct (Resume _ _ _) as [r s]. cbn in Hw. by destruct Hw as [-> ->]. }
  unfold Resume. rewrite Hload.
  repeat (rot_step; try done;
          try match goal with H : load _ _ = _ |- _ => cbn in H; rewrite Hl in H; injection H as <- <- end;
          try match goal with H : Ok _ = Ok _ |- _ => injection H as <- end);
    cbn [coord store] in *; change (plan (fresh p)) with p in *.
  - congruence.
  - unfold saved in Hn. congruence.
  - pose proof (saved_accepted p c Hr). unfold saved in *. congruence.
  - split; [done|]. f_equal. by apply recovered_is.
  - pose proof (saved_settled p c Hr ltac:(done)). unfold saved in *. congruence.
  - exfalso. unfold After, Add in *. bool_prop. change (RotationResume.FinishedAt (snapshot c)) with (finished c) in *. lia.
  - split; [done|]. f_equal. by apply recovered_is.
Qed.
