(* ===== verification/RotationSafety.v ===== *)
(** * What the store holds when an old credential is revoked

    The contract of a rotation store: a journal of the records that were
    written, which grows by the record of each write and from which a load takes
    what it returns.  Against any such store, and over restarts and recoveries
    of the coordinator, an old credential is revoked only when the store holds
    the whole chain of evidence for every target of the plan. *)
From S2P Require Import Prelude GoText GoHash GoJson Errors Canonical Identifiers WireConfig Messages.
From S2P Require Import RotationMessages RotationFacts Transcripts ServerSession Rotation RotationMemory.
From S2P Require Import RotationEffects RotationInvariant.
Import Target.

Inductive RotationRecord :=
| RecChallenge (c : CredentialRotationChallenge)
| RecInstall (i : CredentialRotationInstall)
| RecReady (r : CredentialRotationReady)
| RecRevoke (v : CredentialRotationRevoke).

Definition record_operation (x : RotationRecord) : string :=
  match x with
  | RecChallenge c => CredentialRotationChallenge.OperationID c
  | RecInstall i => CredentialRotationInstall.OperationID i
  | RecReady r => CredentialRotationReady.OperationID r
  | RecRevoke v => CredentialRotationRevoke.OperationID v
  end.

(** The record of a write. *)
Definition record_of (w : Write) : option RotationRecord :=
  match w with
  | WriteBegin _ | WriteResult _ _ => None
  | WriteChallenge c => Some (RecChallenge c)
  | WriteProof _ _ i => Some (RecInstall i)
  | WriteReady r => Some (RecReady r)
  | WriteRevoke v => Some (RecRevoke v)
  end.

(** A write that reports an error may have been made all the same. *)
Class JournaledStore (S : Type) `{!RotationPersistence S} := {
  recorded : S -> RotationRecord -> Prop;
  write_keeps w s reply s' x : write w s = (reply, s') -> recorded s x -> recorded s' x;
  write_adds w s reply s' x :
    write w s = (reply, s') -> recorded s' x -> recorded s x \/ record_of w = Some x;
  write_done w s s' x : write w s = (None, s') -> record_of w = Some x -> recorded s' x;
  authorize_keeps authorize ch s reply s' x :
    RotationSessionAuthorizer = Some authorize -> authorize ch s = (reply, s') ->
    recorded s' x <-> recorded s x;
  load_keeps load p s reply s' x :
    RotationRecoveryStore = Some load -> load p s = (reply, s') -> recorded s' x <-> recorded s x;
  load_recorded load p s loaded s' r :
    RotationRecoveryStore = Some load -> load p s = (Ok loaded, s') -> r ∈ RotationResume.Targets loaded ->
    (challengePresent r = true -> recorded s (RecChallenge (RotationResumeTarget.Challenge r)))
    /\ (installPresent r = true -> recorded s (RecInstall (RotationResumeTarget.Install r)))
    /\ (readyPresent r = true -> recorded s (RecReady (RotationResumeTarget.Ready r)))
    /\ (revokePresent r = true -> recorded s (RecRevoke (RotationResumeTarget.Revoke r)));
}.

Section Safety.
Context {S : Type} `{!RotationPersistence S, !JournaledStore S}.
Context (ed25519_Verify : list Z -> string -> list Z -> bool).
Context (verify : CredentialRotationProof -> string -> list Z -> option goerror).
Context (p : RotationPlan).
Implicit Type st : RotState (S := S).
Implicit Type s : S.

Definition ours (x : RotationRecord) : Prop := record_operation x = RotationPlan.OperationID p.

(** The evidence for a staged credential, for a ready replacement and for a
    revocation. *)
Definition proof_staged s (i : CredentialRotationInstall) : Prop :=
  exists t ch prf now, t ∈ RotationPlan.Targets p
    /\ RotationTarget.ConnectorID t = CredentialRotationInstall.ConnectorID i
    /\ recorded s (RecChallenge ch) /\ rotationProofMatchesChallenge prf ch t = true
    /\ VerifyCredentialRotationProofAt ed25519_Verify verify prf now = None
    /\ i = install_of p ch prf.
Definition replaced s (r : CredentialRotationReady) : Prop :=
  exists i now, recorded s (RecInstall i) /\ ours (RecInstall i)
    /\ ready_mismatch p i r = false /\ CredentialRotationReady_Validate r now = None.
Definition all_replaced s : Prop :=
  forall t, t ∈ RotationPlan.Targets p -> exists r, recorded s (RecReady r) /\ ours (RecReady r)
    /\ CredentialRotationReady.ConnectorID r = RotationTarget.ConnectorID t.

Definition evidence s (x : RotationRecord) : Prop :=
  match x with
  | RecChallenge _ => True
  | RecInstall i => proof_staged s i
  | RecReady r => replaced s r
  | RecRevoke _ => all_replaced s
  end.

Lemma evidence_mono s s' x :
  (forall y, recorded s y -> recorded s' y) -> evidence s x -> evidence s' x.
Proof.
  intros Hm. destruct x; cbn; [done|..].
  - intros (t & ch & prf & now & ? & ? & ? & ? & ? & ?). exists t, ch, prf, now. auto 10.
  - intros (i & now & ? & ?). exists i, now. auto.
  - intros Ha t Ht. destruct (Ha t Ht) as (r & ? & ?). exists r. auto.
Qed.

(** What a target's phase rests on has been recorded. *)
Definition held s (t : rotationTargetState) : Prop :=
  (state t = RotationTargetChallenged -> recorded s (RecChallenge (challenge t)))
  /\ (state t = RotationTargetInstalled -> recorded s (RecInstall (install t)))
  /\ (ready_or_later t = true -> recorded s (RecReady (ready t)))
  /\ (state t = RotationTargetRevoking -> recorded s (RecRevoke (revoke t))).

(** The invariant of the store and the coordinator together. *)
Record journal_inv st : Prop := {
  ji_coord : coord_inv p (coord st);
  ji_evidence : forall x, recorded (store st) x -> ours x -> evidence (store st) x;
  ji_held : forall k t, targets (coord st) !! k = Some t -> held (store st) t;
}.

Lemma held_mono s s' t : (forall x, recorded s x -> recorded s' x) -> held s t -> held s' t.
Proof. intros Hm (? & ? & ? & ?). split_and!; auto. Qed.

Lemma consults_keeps s s' x : consults s s' -> recorded s' x <-> recorded s x.
Proof. intros [->|(a & ch & reply & Ha & E)]; [done|]. by eapply authorize_keeps. Qed.

(** A store changes by the record of a justified write. *)
Lemma effect_records st a b st' :
  effect ed25519_Verify verify st a b st' ->
  (forall x, recorded (store st) x -> recorded (store st') x)
  /\ (forall x, recorded (store st') x -> recorded (store st) x
       \/ exists w, justified ed25519_Verify verify (coord st) w /\ record_of w = Some x).
Proof.
  assert (Hw : forall s1 w reply s', consults (store st) s1 -> write w s1 = (reply, s') ->
    (record_of w = None \/ justified ed25519_Verify verify (coord st) w) ->
    (forall x, recorded (store st) x -> recorded s' x)
    /\ (forall x, recorded s' x -> recorded (store st) x
          \/ exists w, justified ed25519_Verify verify (coord st) w /\ record_of w = Some x)).
  { intros s1 w reply s' Hc Hw Hj. split; intros x Hx.
    - eapply write_keeps; [done|]. by apply (consults_keeps _ _ _ Hc).
    - destruct (write_adds w s1 reply s' x Hw Hx) as [Hx'|Hx'].
      + left. by apply (consults_keeps _ _ _ Hc).
      + right. destruct Hj as [Hj|Hj]; [congruence|eauto]. }
  assert (H0 : consults (store st) (store st)) by by left.
  intros He. destruct He as [b s' Hc|b q load reply s' Hl Hld|w err s1 s' Hc Hj Hwr|s' _ Hwr
    |k s ch now s1 s' _ Hs _ _ Hch Hc Hwr|s prf i s' Hs Hph Hj Hwr|s r s' Hs Hph Hj Hwr|s v s' Hs Hph Hj Hwr
    |k s a sum fin s' Hs Hph c' Hfin Hwr|k s cd w reply fin s' Hs Hr Hf Hc Hv Hj Hwr|load loaded s' Hl Hld _ Hrec];
    cbn [store]; try (by eapply Hw; eauto).
  - split; intros x Hx; [|left]; apply (consults_keeps _ _ x Hc); exact Hx.
  - split; intros x Hx; [|left]; apply (load_keeps _ _ _ _ _ x Hl Hld); exact Hx.
  - eapply Hw; [done..|]. right. exists s. by rewrite Hch.
  - split; intros x Hx; [|left]; apply (load_keeps _ _ _ _ _ x Hl Hld); exact Hx.
Qed.

Lemma ready_later_present q r :
  resumable q r ->
  (RotationResumeTarget.State r == RotationTargetReady) || (RotationResumeTarget.State r == RotationTargetRevoking)
  || (RotationResumeTarget.State r == RotationTargetRevoked) = true -> readyPresent r = true.
Proof.
  intros Hres Hr. apply orb_true_iff in Hr as [Hr|Hr]; [apply orb_true_iff in Hr as [Hr|Hr]|];
    apply bool_decide_eq_true in Hr; (eapply flags_split; eapply phase_flags; [done|rewrite Hr; done]).
Qed.

(** What justifies a write is evidence for its record, together with what the
    store already holds. *)
Lemma justified_evidence st s' w x :
  journal_inv st -> (forall y, recorded (store st) y -> recorded s' y) ->
  justified ed25519_Verify verify (coord st) w -> record_of w = Some x -> evidence s' x.
Proof.
  intros [Hi He Hh] Hm Hj Hx. destruct w as [|ch|ch prf i|r|v|]; cbn in Hx; try done; injection Hx as <-; cbn.
  - done.
  - destruct Hj as (t & now & Hs & Hph & -> & Hmt & Hv & -> & _).
    destruct (coord_target_state p _ _ _ Hi Hs) as [Ht _]. destruct (ci_target _ _ Hi _ _ Hs) as [Hk _].
    exists (target t), (challenge t), prf, now. split_and!; try done; [by apply Hm, (proj1 (Hh _ _ Hs))|].
    by rewrite (ci_plan _ _ Hi).
  - destruct Hj as (t & now & Hs & Hph & Hmm & Hv). rewrite (ci_plan _ _ Hi) in Hmm.
    exists (install t), now. split_and!; try done; [by apply Hm, (proj1 (proj2 (Hh _ _ Hs)))|].
    destruct (ci_target _ _ Hi _ _ Hs) as [_ Hres].
    assert (Hf : flags (snapshot_target t) = (true, true, false, false)).
    { eapply phase_flags; [done|]. cbn. by rewrite Hph. }
    apply flags_split in Hf as (_ & Hip & _). apply (res_install _ _ Hres) in Hip.
    unfold install_bound in Hip. cbn in Hip. by bool_prop.
  - destruct Hj as (t0 & nonce & now & _ & _ & Ha & _). intros t Ht.
    destruct (ci_dom _ _ Hi t Ht) as [ts Hts].
    assert (Hr : ready_or_later ts = true).
    { unfold allReadyLocked in Ha. rewrite forallb_forall in Ha. apply Ha, in_map_iff.
      exists (RotationTarget.ConnectorID t, ts). split; [done|]. apply list_elem_of_In. by apply elem_of_map_to_list. }
    exists (ready ts). split; [by apply Hm, (proj1 (proj2 (proj2 (Hh _ _ Hts))))|].
    destruct (ci_target _ _ Hi _ _ Hts) as [Hk Hres].
    assert (Hyp : readyPresent (snapshot_target ts) = true) by (by apply (ready_later_present p)).
    apply (res_ready _ _ Hres) in Hyp. unfold ready_bound in Hyp. cbn in Hyp. bool_prop.
    split; [done|congruence].
Qed.

Lemma effect_evidence st a b st' :
  journal_inv st -> effect ed25519_Verify verify st a b st' ->
  forall x, recorded (store st') x -> ours x -> evidence (store st') x.
Proof.
  intros Hi He x Hx Ho. destruct (effect_records _ _ _ _ He) as [Hm Hn].
  destruct (Hn x Hx) as [Hx'|(w & Hj & Hw)].
  - eapply evidence_mono; [exact Hm|]. by apply (ji_evidence _ Hi).
  - by eapply justified_evidence.
Qed.

Lemma held_phase s t x :
  recorded s x ->
  (state t = RotationTargetChallenged /\ x = RecChallenge (challenge t))
  \/ (state t = RotationTargetInstalled /\ x = RecInstall (install t))
  \/ (ready_or_later t = true /\ x = RecReady (ready t)
      /\ (state t = RotationTargetRevoking -> recorded s (RecRevoke (revoke t)))) -> held s t.
Proof.
  unfold held, ready_or_later. intros Hx [[E ->]|[[E ->]|(E & -> & Hr)]]; split_and!; intros E'; try done;
    try (by apply Hr); rewrite ?E in E'; try rewrite E' in E;
    first [discriminate|by vm_compute in E'|by vm_compute in E].
Qed.

Lemma effect_held st a b st' :
  journal_inv st -> effect ed25519_Verify verify st a b st' ->
  forall k t, targets (coord st') !! k = Some t -> held (store st') t.
Proof.
  intros Hi He k t Hk. destruct (effect_records _ _ _ _ He) as [Hm _].
  assert (Hold : forall c s' k0 t0, (forall x, recorded (store st) x -> recorded s' x) ->
    targets (coord st) = targets c -> held s' t0 ->
    targets (with_target c k0 t0) !! k = Some t -> held s' t).
  { intros c s' k0 t0 Hm' Hc Ht0 Hx. cbn in Hx. destruct (decide (k0 = k)) as [->|Hne].
    - rewrite lookup_insert_eq in Hx. by injection Hx as <-.
    - rewrite lookup_insert_ne in Hx by done. rewrite <- Hc in Hx.
      eapply held_mono; [done|]. by apply (ji_held _ Hi k). }
  destruct He as [b s' Hc|b q load reply s' Hl Hld|w err s1 s' Hc Hj Hwr|s' _ Hwr
    |j s ch now s1 s' _ Hs _ _ Hch Hc Hwr|s prf i s' Hs Hph Hj Hwr|s r s' Hs Hph Hj Hwr|s v s' Hs Hph Hj Hwr
    |j s a sum fin s' Hs Hph c' Hfin Hwr|j s cd w reply fin s' Hs Hr Hf Hc Hv Hj Hwr|load loaded s' Hl Hld _ Hrec];
    cbn [store coord] in *; try (eapply held_mono; [exact Hm|]; by apply (ji_held _ Hi k)).
  - refine (Hold (coord st) s' _ _ Hm eq_refl _ Hk).
    eapply held_phase; [by apply (write_done (WriteChallenge ch) _ _ _ Hwr)|]. by left.
  - refine (Hold (coord st) s' _ _ Hm eq_refl _ Hk).
    eapply held_phase; [by apply (write_done (WriteProof _ prf i) _ _ _ Hwr)|]. right. by left.
  - refine (Hold (coord st) s' _ _ Hm eq_refl _ Hk).
    eapply held_phase; [by apply (write_done (WriteReady r) _ _ _ Hwr)|]. by right; right.
  - refine (Hold (coord st) s' _ _ Hm eq_refl _ Hk). eapply (held_phase _ _ (RecReady (ready s)));
      [apply Hm, (ji_held _ Hi _ _ Hs); unfold ready_or_later; by rewrite Hph|right; right].
    split_and!; try done. intros _. by apply (write_done (WriteRevoke v) _ _ _ Hwr).
  - refine (Hold (coord st) s' _ _ Hm eq_refl _ Hk). eapply (held_phase _ _ (RecReady (ready s)));
      [apply Hm, (ji_held _ Hi _ _ Hs); unfold ready_or_later; by rewrite Hph|by right; right].
  - refine (Hold (coord st) s' _ _ Hm eq_refl _ Hk). by split_and!.
  - destruct Hrec as (_ & _ & Hck & _).
    apply (adopted_state _ _ Hck) in Hk as [(r & s & Hr & Hk & Hs & -> & Htg & Hres)|[Hk _]];
      [|eapply held_mono; [exact Hm|]; by apply (ji_held _ Hi k)].
    destruct (load_recorded _ _ _ _ _ r Hl Hld Hr) as (L1 & L2 & L3 & L4). split_and!; cbn; intros E; apply Hm.
    + apply L1. eapply flags_split, phase_flags; [done|]. by rewrite E.
    + apply L2. eapply flags_split, phase_flags; [done|]. by rewrite E.
    + apply L3. by eapply ready_later_present.
    + apply L4. eapply flags_split, phase_flags; [done|]. by rewrite E.
Qed.

Lemma reachable_journal store0 st :
  (forall x, recorded store0 x -> ~ ours x) -> rot_reachable ed25519_Verify verify p store0 st -> journal_inv st.
Proof.
  intros H0 (c & Hc & Hr).
  assert (Hfresh : forall st1 c1, NewRotationCoordinator p = Ok c1 ->
    (forall x, recorded (store st1) x -> ours x -> evidence (store st1) x) ->
    journal_inv (mkRot c1 (store st1))).
  { intros st1 c1 Hc1 He. split; [by apply NewRotationCoordinator_inv|done|].
    unfold NewRotationCoordinator in Hc1. case_match; [done|]. injection Hc1 as <-. cbn.
    intros k t (x & _ & _ & ->)%init_targets_lookup. by split_and!. }
  assert (Hi : journal_inv (mkRot c store0)).
  { apply (Hfresh (mkRot c store0)); [done|]. intros x Hx Ho. by destruct (H0 x Hx). }
  clear H0 Hc. induction Hr as [|st1 st2 st3 Hs _ IH]; [done|]. apply IH. clear IH.
  destruct Hs as [call st1|st1 c1 Hc1]; [|by apply Hfresh; [|by apply ji_evidence]].
  destruct (call_effect ed25519_Verify verify call st1 _ _ (surjective_pairing _)) as (a & He & _).
  split; [by eapply effect_inv; [by apply ji_coord|]|by eapply effect_evidence|by eapply effect_held].
Qed.

(** The chain of evidence behind a revocation, for one target. *)
Definition replacement_chain s (t : RotationTarget) : Prop :=
  exists ch prf i r proved_at ready_at,
    recorded s (RecChallenge ch) /\ recorded s (RecInstall i) /\ recorded s (RecReady r)
    /\ VerifyCredentialRotationProofAt ed25519_Verify verify prf proved_at = None
    /\ rotationProofMatchesChallenge prf ch t = true /\ i = install_of p ch prf
    /\ CredentialRotationReady_Validate r ready_at = None /\ ready_mismatch p i r = false
    /\ CredentialRotationReady.ConnectorID r = RotationTarget.ConnectorID t.

Lemma evidence_chain s v t :
  RotationPlan_Validate p = None -> (forall x, recorded s x -> ours x -> evidence s x) ->
  recorded s (RecRevoke v) -> ours (RecRevoke v) -> t ∈ RotationPlan.Targets p -> replacement_chain s t.
Proof.
  intros Hpv He Hv Ho Ht.
  destruct (He _ Hv Ho t Ht) as (r & Hrec & Hro & Hk).
  destruct (He _ Hrec Hro) as (i & ready_at & Hi1 & Hio & Hmm & Hrv).
  destruct (He _ Hi1 Hio) as (t' & ch & prf & proved_at & Ht' & Hk' & Hch & Hm & Hver & ->).
  assert (t' = t) as ->.
  { destruct (plan_targets_ok p Hpv) as [Hnd _].
    apply (NoDup_fmap_inj RotationTarget.ConnectorID (RotationPlan.Targets p)); [done..|].
    unfold ready_mismatch in Hmm. bool_prop. congruence. }
  exists ch, prf, (install_of p ch prf), r, proved_at, ready_at. auto 20.
Qed.

(** C24. Against any store that keeps a journal of what is written to it, and over restarts and
    recoveries of the coordinator, a revocation of an old credential is in the store only if the
    store holds, for every target of the plan, the challenge, the staged credential that answers
    it with both signatures verified, and the readiness of a replacement session of a later
    process under exactly that credential. *)
Theorem revoke_needs_every_replacement store0 st v t :
  (forall x, recorded store0 x -> record_operation x <> RotationPlan.OperationID p) ->
  rot_reachable ed25519_Verify verify p store0 st ->
  recorded (store st) (RecRevoke v) ->
  CredentialRotationRevoke.OperationID v = RotationPlan.OperationID p ->
  t ∈ RotationPlan.Targets p ->
  replacement_chain (store st) t.
Proof.
  intros H0 Hr Hv Ho Ht. pose proof (reachable_journal store0 st H0 Hr) as Hi.
  eapply evidence_chain; [exact (ci_valid _ _ (ji_coord _ Hi))|exact (ji_evidence _ Hi)|exact Hv|exact Ho|exact Ht].
Qed.
End Safety.

(** ** The in-memory store keeps such a journal *)
Section MemoryJournal.
Implicit Type m : MemoryRotationPersistence.

Definition memory_recorded m (x : RotationRecord) : Prop :=
  match x with
  | RecChallenge c => c ∈ Challenges m
  | RecInstall i => i ∈ Installs m
  | RecReady r => r ∈ Readiness m
  | RecRevoke v => v ∈ Revocations m
  end.

Lemma foldl_inv {A B} (P : A -> Prop) (f : A -> B -> A) l e :
  P e -> (forall e x, x ∈ l -> P e -> P (f e x)) -> P (foldl f e l).
Proof.
  revert e. induction l as [|x l IH]; intros e He Hf; [done|]. apply IH; [apply Hf; [left|done]|].
  intros. apply Hf; [by right|done].
Qed.

Definition entry_recorded m (e : RotationResumeTarget) : Prop :=
  (challengePresent e = true -> memory_recorded m (RecChallenge (RotationResumeTarget.Challenge e)))
  /\ (installPresent e = true -> memory_recorded m (RecInstall (RotationResumeTarget.Install e)))
  /\ (readyPresent e = true -> memory_recorded m (RecReady (RotationResumeTarget.Ready e)))
  /\ (revokePresent e = true -> memory_recorded m (RecRevoke (RotationResumeTarget.Revoke e))).

Lemma load_proofs_recorded m o k ps ins e :
  (forall i, i ∈ ins -> i ∈ Installs m) -> entry_recorded m e -> entry_recorded m (load_proofs o k e ps ins).
Proof.
  revert ins e. induction ps as [|p ps IH]; intros ins e Hin He; [done|]. cbn [load_proofs]. apply IH.
  - intros i Hi. destruct ins; [by apply elem_of_nil in Hi|]. apply Hin. by right.
  - destruct (_ && _); [|done]. destruct He as (H1 & H2 & H3 & H4). destruct ins as [|i ins]; split_and!; try done.
    intros _. apply Hin. left.
Qed.

Lemma load_target_recorded m o t : entry_recorded m (load_target m o t).
Proof.
  unfold load_target. apply foldl_inv; [apply foldl_inv; [apply load_proofs_recorded; [done|apply foldl_inv]|]|].
  - by split_and!.
  - intros e c Hc (H1 & H2 & H3 & H4). unfold load_challenge. case_match; split_and!; done.
  - intros e r Hr (H1 & H2 & H3 & H4). unfold load_ready. case_match; split_and!; done.
  - intros e v Hv He. unfold load_revoke. case_match; [|done].
    apply foldl_inv; [destruct He as (H1 & H2 & H3 & H4); by split_and!|]. intros e1 sum _ He1. unfold load_result. case_match; [|done].
    apply foldl_inv; [done|]. intros e2 x _ (H1 & H2 & H3 & H4). unfold load_summary_target. case_match; by split_and!.
Qed.

#[export] Program Instance MemoryJournal : JournaledStore MemoryRotationPersistence := {
  recorded := memory_recorded }.
Next Obligation.
  intros w m reply m' x Hw Hx. destruct w; cbn in Hw; unfold Memory_Begin, Memory_RecordChallenge,
    Memory_RecordProof, Memory_RecordReady, Memory_RecordRevoke, Memory_RecordResult, unless_failing in Hw;
    repeat case_match; simplify_eq; try done; destruct x; cbn in *; rewrite ?elem_of_app; auto.
Qed.
Next Obligation.
  intros w m reply m' x Hw Hx. destruct w; cbn in Hw; unfold Memory_Begin, Memory_RecordChallenge,
    Memory_RecordProof, Memory_RecordReady, Memory_RecordRevoke, Memory_RecordResult, unless_failing in Hw;
    repeat case_match; simplify_eq; auto; destruct x; cbn in *; auto;
    apply elem_of_app in Hx as [Hx|Hx]; auto; apply list_elem_of_singleton in Hx as ->; auto.
Qed.
Next Obligation.
  intros w m m' x Hw Hx. destruct w; cbn in Hx; try done; injection Hx as <-; cbn in Hw;
    unfold Memory_RecordChallenge, Memory_RecordProof, Memory_RecordReady, Memory_RecordRevoke,
      unless_failing in Hw; case_match; simplify_eq; cbn; apply elem_of_app; right; left.
Qed.
Next Obligation. done. Qed.
Next Obligation. intros load p m reply m' x [= <-] [= _ <-]. done. Qed.
Next Obligation.
  intros load p m loaded m' r [= <-] Hl Hr. unfold Memory_Load in Hl.
  repeat case_match; simplify_eq. cbn in Hr. apply list_elem_of_In, in_map_iff in Hr as (t & <- & _).
  apply load_target_recorded.
Qed.
End MemoryJournal.
