(* ===== verification/Transport.v ===== *)
(** * The control transport

    src/internal/connectorprotocol/transport.go: [ControlTransport.Serve] reads
    the frames of one connector from a byte stream, admits the connector with
    the durable server, answers its frames, and cleans up when the stream ends;
    [ActiveControlSessions] is the directory of the streams being served.

    Serving takes time: [Moment] holds what the stream meets at one point of it,
    the state of its context, the clock, a failing read, and what the rest of
    the program did to the shared state meanwhile.  The rotation and drain
    dispatchers are arguments, used through the methods that the transport
    calls.  The bytes the peer sends are one string; a context has no deadline,
    so [SetWriteDeadline] is never called.  Closing the stream and the log record
    of the termination are not modelled; the event that is logged is. *)
From S2P Require Import Prelude GoText GoHash GoJson Errors Canonical Identifiers WireConfig GoStruct Messages.
From S2P Require Import GoTime RotationMessages Transcripts Frames Registry ServerSession Rotation Persistence.
Import ServerSession.

(** ** [ActiveControlSessions] *)

Module ActiveControlSession.
Record ActiveControlSession := mk {
  AccountID : string;
  TunnelID : string;
  ConnectorID : string;
  HostID : string;
  SessionID : string;
  IdentityKeyID : string;
  IdentityKeyThumbprint : string;
  ProcessGeneration : Z;
  CredentialGeneration : Z;
  ConfigGeneration : Z;
  ConfigContentHash : string;
}.
#[export] Instance eq_dec : EqDecision ActiveControlSession.
Proof. solve_decision. Defined.
End ActiveControlSession.
Export (hints) ActiveControlSession.
Abbreviation ActiveControlSession := ActiveControlSession.ActiveControlSession.

(** An entry also holds the session, which no code reads. *)
Abbreviation ActiveControlSessions := (gmap string ActiveControlSession).
Definition NewActiveControlSessions : ActiveControlSessions := ∅.

Section Directory.
Import ActiveControlSession.

Definition ActiveControlSession_validate (s : ActiveControlSession) : option goerror :=
  if negb (ids_ok [AccountID s; TunnelID s; ConnectorID s; HostID s; SessionID s])
     || negb (ok (ValidateIdentityKey (IdentityKeyID s) (IdentityKeyThumbprint s)))
     || (ProcessGeneration s =? 0) || (CredentialGeneration s =? 0) || (ConfigGeneration s =? 0)
     || negb (hashPattern (ConfigContentHash s))
  then Some ErrInvalidInput else None.

Definition NUL : string := String (byte_of 0) "".
Definition controlSessionKey (tunnelID connectorID : string) : string := tunnelID +:+ NUL +:+ connectorID.
Definition key_of (p : ActiveControlSession) : string := controlSessionKey (TunnelID p) (ConnectorID p).

Definition attach (s : ActiveControlSessions) (projection : ActiveControlSession)
    : option goerror * ActiveControlSessions :=
  if negb (ok (ActiveControlSession_validate projection)) then (Some ErrInvalidInput, s) else
  match s !! key_of projection with
  | Some current =>
      if (ProcessGeneration projection <? ProcessGeneration current)
         || ((ProcessGeneration current =? ProcessGeneration projection)
             && (SessionID current != SessionID projection))
      then (Some (codeError ErrSessionConflict ReasonSessionReplaced true None), s)
      else (None, <[key_of projection := projection]> s)
  | None => (None, <[key_of projection := projection]> s)
  end.

Definition detach (s : ActiveControlSessions) (projection : ActiveControlSession) : ActiveControlSessions :=
  match s !! key_of projection with
  | Some current =>
      if (SessionID current == SessionID projection)
         && (ProcessGeneration current =? ProcessGeneration projection)
      then delete (key_of projection) s else s
  | None => s
  end.

Definition Lookup (s : ActiveControlSessions) (tunnelID connectorID sessionID : string)
    (processGeneration : Z) : option ActiveControlSession :=
  if negb (ids_ok [tunnelID; connectorID; sessionID]) || (processGeneration =? 0) then None else
  match s !! controlSessionKey tunnelID connectorID with
  | Some current =>
      if (SessionID current != sessionID) || negb (ProcessGeneration current =? processGeneration)
      then None else Some current
  | None => None
  end.
End Directory.

(** ** Terminations *)

Definition ControlTerminationKind := string.
Definition ControlTerminationUnknown : ControlTerminationKind := "unknown".
Definition ControlTerminationInvalidRequest : ControlTerminationKind := "invalid_request".
Definition ControlTerminationPeerEOF : ControlTerminationKind := "peer_eof".
Definition ControlTerminationPeerCanceled : ControlTerminationKind := "peer_canceled".
Definition ControlTerminationPeerDisconnect : ControlTerminationKind := "peer_disconnect".
Definition ControlTerminationPeerReadError : ControlTerminationKind := "peer_read_error".
Definition ControlTerminationPeerWriteError : ControlTerminationKind := "peer_write_error".
Definition ControlTerminationAuthentication : ControlTerminationKind := "authentication_error".
Definition ControlTerminationSessionExpired : ControlTerminationKind := "session_expired".
Definition ControlTerminationSessionReplaced : ControlTerminationKind := "session_replaced".
Definition ControlTerminationProtocolError : ControlTerminationKind := "protocol_error".
Definition ControlTerminationServerShutdown : ControlTerminationKind := "server_shutdown".
Definition ControlTerminationServerError : ControlTerminationKind := "server_error".

Module ControlTerminationEvent.
Record ControlTerminationEvent := mk {
  TunnelID : string;
  ConnectorID : string;
  SessionID : string;
  ProcessGeneration : Z;
  Kind : ControlTerminationKind;
  ProtocolReason : DisconnectReason;
  Code : Code;
  Retryable : bool;
}.
#[export] Instance settable : Settable ControlTerminationEvent := fun r =>
  mk (TunnelID r) (ConnectorID r) (SessionID r) (ProcessGeneration r) (Kind r) (ProtocolReason r)
    (Code r) (Retryable r).
End ControlTerminationEvent.
Export (hints) ControlTerminationEvent.
Abbreviation ControlTerminationEvent := ControlTerminationEvent.ControlTerminationEvent.

(** [io.EOF] and [context.Canceled] are opaque errors of other packages. *)
Definition EOF : goerror := OtherError "EOF".
Definition Canceled : goerror := OtherError "context canceled".

(** [errors.Is] for a target that is no typed error. *)
Fixpoint errors_Is (e : goerror) (target : string) : bool :=
  match e with
  | TypedError _ _ _ (Some cause) => errors_Is cause target
  | TypedError _ _ _ None => false
  | OtherError msg => msg == target
  | WrapError _ inner => errors_Is inner target
  | JoinError es => existsb (fun x => errors_Is x target) es
  end.

(** The [Retryable] of the typed error that [errors.As] finds. *)
Fixpoint typed_retryable (e : goerror) : option bool :=
  match e with
  | TypedError _ _ retryable _ => Some retryable
  | OtherError _ => None
  | WrapError _ inner => typed_retryable inner
  | JoinError es =>
      (fix first (l : list goerror) : option bool :=
         match l with
         | [] => None
         | x :: l' => match typed_retryable x with Some b => Some b | None => first l' end
         end) es
  end.

Section Termination.
Import ControlTerminationEvent.

Definition populateTermination (event : ControlTerminationEvent) (cause : option goerror)
    : ControlTerminationEvent :=
  event <| Code := CodeOf cause |> <| ProtocolReason := ReasonOf cause |>
    <| Retryable := default (Retryable event) (cause ≫= typed_retryable) |>.

Definition classifyControlError (cause : goerror) : ControlTerminationKind :=
  let reason := ReasonOf (Some cause) in
  if reason == ReasonAuthentication then ControlTerminationAuthentication
  else if bool_decide (reason ∈ [ReasonCredentialExpired; ReasonLeaseExpired; ReasonHeartbeatTimeout])
  then ControlTerminationSessionExpired
  else if bool_decide (reason ∈ [ReasonSessionReplaced; ReasonStaleGeneration])
  then ControlTerminationSessionReplaced
  else if reason == ReasonServerShutdown then ControlTerminationServerShutdown
  else ControlTerminationProtocolError.

Definition classifyReadTermination (ctx : Context) (cause : goerror) : ControlTerminationKind :=
  if negb (ok (ctx_Err ctx)) then ControlTerminationServerShutdown
  else if errors_Is cause "EOF" then ControlTerminationPeerEOF
  else if errors_Is cause "context canceled" then ControlTerminationPeerCanceled
  else ControlTerminationPeerReadError.

Definition classifyWriteTermination (ctx : Context) : ControlTerminationKind :=
  if negb (ok (ctx_Err ctx)) then ControlTerminationServerShutdown else ControlTerminationPeerWriteError.

(** The closure [finish] of [Serve]. *)
Definition finish (event : ControlTerminationEvent) (kind : ControlTerminationKind)
    (cause : option goerror) : ControlTerminationEvent :=
  let event := event <| Kind := kind |> in
  if (kind != ControlTerminationPeerEOF) && (kind != ControlTerminationPeerCanceled)
  then populateTermination event cause else event.
End Termination.

(** ** Replies

    [json.Marshal] of the messages that the transport writes; [None] when a time
    has no JSON form. *)
Section Replies.
Definition Ack_text (a : Ack) : string :=
  object_text
    ([member "account_id" (quote (Ack.AccountID a)); member "tunnel_id" (quote (Ack.TunnelID a));
      member "connector_id" (quote (Ack.ConnectorID a)); member "session_id" (quote (Ack.SessionID a));
      member "process_generation" (Itoa (Ack.ProcessGeneration a)); member "kind" (quote (Ack.Kind a));
      member "status" (quote (Ack.Status a)); member "generation" (Itoa (Ack.Generation a));
      member "content_hash" (quote (Ack.ContentHash a))]
     ++ omitempty (Ack.Code a == "") "code" (quote (Ack.Code a))).

Definition HeartbeatAck_text (a : HeartbeatAck) : option string :=
  lease ← time_member "lease_expires_at" (HeartbeatAck.LeaseExpiresAt a);
  server ← time_member "server_time" (HeartbeatAck.ServerTime a);
  Some (object_text
    [member "account_id" (quote (HeartbeatAck.AccountID a)); member "tunnel_id" (quote (HeartbeatAck.TunnelID a));
     member "connector_id" (quote (HeartbeatAck.ConnectorID a));
     member "session_id" (quote (HeartbeatAck.SessionID a));
     member "process_generation" (Itoa (HeartbeatAck.ProcessGeneration a)); lease; server]).

Definition AuthResult_text (a : AuthResult) : option string :=
  credential ← time_member "credential_expires_at" (AuthResult.CredentialExpiresAt a);
  lease ← time_member "lease_expires_at" (AuthResult.LeaseExpiresAt a);
  Some (object_text
    ([member "account_id" (quote (AuthResult.AccountID a)); member "tunnel_id" (quote (AuthResult.TunnelID a));
      member "connector_id" (quote (AuthResult.ConnectorID a))]
     ++ omitempty (AuthResult.SessionID a == "") "session_id" (quote (AuthResult.SessionID a))
     ++ [member "host_id" (quote (AuthResult.HostID a));
         member "identity_key_id" (quote (AuthResult.IdentityKeyID a));
         member "identity_key_thumbprint" (quote (AuthResult.IdentityKeyThumbprint a));
         member "process_generation" (Itoa (AuthResult.ProcessGeneration a));
         member "credential_generation" (Itoa (AuthResult.CredentialGeneration a)); credential; lease])).

Definition Lease_text (l : Lease) : option string :=
  expires ← time_member "expires_at" (Lease.ExpiresAt l);
  Some (object_text [member "session_id" (quote (Lease.SessionID l)); expires;
                     member "heartbeat_interval_ms" (Itoa (Lease.HeartbeatIntervalMS l))]).

Definition bool_text (b : bool) : string := if b then "true" else "false".

(** The capabilities of a welcome are never a nil slice. *)
Definition Welcome_text (w : Welcome) : option string :=
  lease ← Lease_text (Welcome.Lease w);
  server ← time_member "server_time" (Welcome.ServerTime w);
  Some (object_text
    [member "protocol" (quote (Welcome.Protocol w)); member "version" (quote (Welcome.Version w));
     member "session_id" (quote (Welcome.SessionID w));
     member "capabilities" ("[" +:+ join_with "," (map quote (Welcome.Capabilities w)) +:+ "]");
     member "lease" lease; member "requires_snapshot" (bool_text (Welcome.RequiresSnapshot w)); server]).

Definition Reject_text (r : Reject) : string :=
  object_text
    ([member "account_id" (quote (Reject.AccountID r)); member "tunnel_id" (quote (Reject.TunnelID r));
      member "connector_id" (quote (Reject.ConnectorID r)); member "session_id" (quote (Reject.SessionID r));
      member "process_generation" (Itoa (Reject.ProcessGeneration r)); member "code" (quote (Reject.Code r));
      member "reason" (quote (Reject.Reason r)); member "retryable" (bool_text (Reject.Retryable r))]
     ++ omitempty (Reject.Message r == "") "message" (quote (Reject.Message r))).
End Replies.

(** ** Serving one stream *)
Section Serve.
Context {Sto : Type} `{!PersistentControlStore Sto} {W : Type} `{!Writer W}.
Context (VerifyAuth : AuthRequest -> string -> list Z -> option goerror).
Context (VerifyRenewal : RenewalRequest -> string -> list Z -> option goerror).
Context (cfg : ServerConfig).

(** What all streams share, with the writer of this one; and, once the
    connector is admitted, the session of this stream. *)
Record Shared := mkShared {
  sh_registry : SessionRegistry; sh_store : Sto; sh_active : ActiveControlSessions; sh_out : W }.
#[global] Instance Shared_settable : Settable Shared := fun s =>
  mkShared (sh_registry s) (sh_store s) (sh_active s) (sh_out s).
Record Served := mkServed { sv_shared : Shared; sv_session : ServerSession }.
#[global] Instance Served_settable : Settable Served := fun s => mkServed (sv_shared s) (sv_session s).

Record Moment := mkMoment {
  m_ctx : Context;
  m_now : time; m_now2 : time; m_authNow : time;
  m_readErr : option goerror;    (** an error of the stream instead of bytes *)
  m_gateFirst : bool;            (** [select] takes the gate although the context is done *)
  m_between : Served -> Served;  (** what the rest of the program did before *)
}.

(** The methods of a dispatcher that the transport calls. *)
Record Dispatcher := mkDispatcher {
  RegisterSession : Moment -> Hello -> Welcome -> Served -> option goerror * Served;
  DetachSession : SessionRef -> Served -> Served;
  HandleFrame : Moment -> SessionRef -> Frame -> Served -> option goerror * Served;
}.

(** A method of the persistent session. *)
Definition on_session {A} (m : Per (S := Sto) A) : M Served goerror A := fun x =>
  let sh := sv_shared x in
  let (r, p) := m (mkPersistent (mkSrv (sh_registry sh) (sv_session x)) (sh_store sh)) in
  (r, mkServed (sh <| sh_registry := registry (mem p) |> <| sh_store := durable p |>) (sess (mem p))).

Definition reference : M Served goerror SessionRef := fun x => (Ok (ref (sv_session x)), x).

Definition read_frame (m : Moment) (reader : string) : Res Frame * string :=
  match m_readErr m with
  | Some err => (Err (codeError ErrMalformedFrame ReasonMalformed false (Some err)), reader)
  | None => let (r, rest) := ReadFrame (Some reader) in (r, default "" rest)
  end.

(** [serializedFrameWriter.Send]; the gate is free whenever nobody else writes. *)
Definition Send (m : Moment) (frame : Frame) (w : W) : option goerror * W :=
  match ctx_Err (m_ctx m), m_gateFirst m with
  | Some err, false => (Some err, w)
  | _, _ => let (w', err) := WriteFrame (Some w) frame in (err, default w w')
  end.
Definition send_frame (m : Moment) (frame : Frame) (x : Served) : option goerror * Served :=
  let (err, w) := Send m frame (sh_out (sv_shared x)) in
  (err, x <| sv_shared := (sv_shared x) <| sh_out := w |> |>).

Definition disconnects (value : Disconnect) (r : SessionRef) : bool :=
  (Disconnect.TunnelID value == SessionRef.TunnelID r)
  && (Disconnect.ConnectorID value == SessionRef.ConnectorID r)
  && (Disconnect.SessionID value == SessionRef.SessionID r)
  && (Disconnect.ProcessGeneration value =? SessionRef.ProcessGeneration r).

Definition handleControlFrame (m : Moment) (rotation : option Dispatcher) (frame : Frame)
    : M Served goerror (option Frame * bool) :=
  fail_if (ctx_nil (m_ctx m)) ErrInvalidInput ;;
  let ctx := m_ctx m in
  let now := m_now m in
  let reply ty payload : M Served goerror (option Frame * bool) :=
    response ← lift (NewFrame ty (Frame.RequestID frame) (OtherValue payload));
    ret (Some response, false) in
  let ty := Frame.Type_ frame in
  if ty == MessageAck then
    value ← lift (DecodePayload Ack_fields Ack.zero frame);
    on_session (Persistent_HandleAck ctx now value) ;;
    ret (None, false)
  else if ty == MessageReady then
    value ← lift (DecodePayload Readiness_fields Readiness.zero frame);
    ack ← on_session (Persistent_HandleReadiness ctx now value);
    reply MessageAck (Ok (Ack_text ack))
  else if ty == MessageHeartbeat then
    value ← lift (DecodePayload Heartbeat_fields Heartbeat.zero frame);
    ack ← on_session (Persistent_HandleHeartbeat ctx now value);
    reply MessageHeartbeatAck (marshalled (HeartbeatAck_text ack))
  else if ty == MessageAuthRenew then
    value ← lift (DecodePayload RenewalRequest_fields RenewalRequest.zero frame);
    result ← on_session (Persistent_Renew VerifyRenewal ctx now (m_authNow m) (m_now2 m) value);
    reply MessageAuthRenewed (marshalled (AuthResult_text result))
  else if ty == MessageDrainAck then
    value ← lift (DecodePayload DrainAck_fields DrainAck.zero frame);
    on_session (Persistent_HandleDrainAck ctx now value) ;;
    ret (None, false)
  else if bool_decide (ty ∈ [MessageCredentialRotationProof; MessageCredentialRotationReady;
                             MessageCredentialRotationAck]) then
    match rotation with
    | None => throw (codeError ErrUnsupportedMessage ReasonCredentialRotation false None)
    | Some d =>
        r ← reference;
        err ← (fun x => let (err, x') := HandleFrame d m r frame x in (Ok err, x'));
        check err ;;
        ret (None, false)
    end
  else if ty == MessageDisconnect then
    value ← lift (DecodePayload Disconnect_fields Disconnect.zero frame);
    r ← reference;
    fail_if (negb (disconnects value r)) identity_mismatch ;;
    ret (None, true)
  else throw (codeError ErrUnsupportedMessage ReasonProtocolMismatch false None).

(** [writeControlReject]; its error is ignored. *)
Definition reject_of (r : SessionRef) (accountID : string) (cause : goerror) : Reject :=
  let code := CodeOf (Some cause) in
  let reason := ReasonOf (Some cause) in
  Reject.mk accountID (SessionRef.TunnelID r) (SessionRef.ConnectorID r) (SessionRef.SessionID r)
    (SessionRef.ProcessGeneration r) (if code == "" then CodeSessionClosed else code)
    (if reason == "" then ReasonProtocolClosed else reason) (default false (typed_retryable cause)) "".
Definition writeControlReject (m : Moment) (accountID requestID : string) (cause : goerror) (x : Served)
    : Served :=
  match NewFrame MessageReject requestID
          (OtherValue (Ok (Reject_text (reject_of (ref (sv_session x)) accountID cause)))) with
  | Err _ => x
  | Ok frame => snd (send_frame m frame x)
  end.

(** How the loop ended: the result, the event and the reason to close with. *)
Record Ended := mkEnded {
  en_err : option goerror; en_event : ControlTerminationEvent; en_reason : DisconnectReason }.

(** The loop of [Serve] from the moment [i] on.  A turn that goes on has read
    the four bytes of a length at least, so the length of the input bounds the
    number of turns. *)
Fixpoint serve_loop (env : nat -> Moment) (rotation : option Dispatcher) (accountID : string)
    (event : ControlTerminationEvent) (fuel i : nat) (reader : string) (x : Served) : Ended * Served :=
  match fuel with
  | O => (mkEnded None event ReasonProtocolClosed, x)
  | S fuel' =>
      let m := env i in
      let x := m_between m x in
      let ctx := m_ctx m in
      match read_frame m reader with
      | (Err readErr, _) =>
          let ended err kind cause := (mkEnded err (finish event kind cause) ReasonProtocolClosed, x) in
          match ctx_Err ctx with
          | Some ctxErr => ended None ControlTerminationServerShutdown (Some ctxErr)
          | None =>
              let kind := classifyReadTermination ctx readErr in
              if (kind == ControlTerminationPeerEOF) || (kind == ControlTerminationPeerCanceled)
              then ended None kind (Some readErr) else ended (Some readErr) kind (Some readErr)
          end
      | (Ok frame, rest) =>
          match handleControlFrame m rotation frame x with
          | (Err err, x) =>
              let x := writeControlReject m accountID (Frame.RequestID frame) err x in
              (mkEnded (Some err) (finish event (classifyControlError err) (Some err)) ReasonProtocolClosed, x)
          | (Ok (response, terminal), x) =>
              let '(sendErr, x) := match response with Some f => send_frame m f x | None => (None, x) end in
              match sendErr with
              | Some err =>
                  (mkEnded (Some err) (finish event (classifyWriteTermination ctx) (Some err))
                     ReasonProtocolClosed, x)
              | None =>
                  if terminal then
                    let reason := match DecodePayload Disconnect_fields Disconnect.zero frame with
                                  | Ok value => Disconnect.Reason value
                                  | Err _ => ReasonProtocolClosed
                                  end in
                    (mkEnded None (event <| ControlTerminationEvent.Kind := ControlTerminationPeerDisconnect |>
                                         <| ControlTerminationEvent.ProtocolReason := reason |>) reason, x)
                  else serve_loop env rotation accountID event fuel' (S i) rest x
              end
          end
      end
  end.

(** [dispatcher.RegisterSession], when there is a dispatcher. *)
Definition register (d : option Dispatcher) (m : Moment) (hello : Hello) (welcome : Welcome) (x : Served)
    : option goerror * Served :=
  match d with None => (None, x) | Some d => RegisterSession d m hello welcome x end.
Definition unregister (d : option Dispatcher) (x : Served) : Served :=
  match d with None => x | Some d => DetachSession d (ref (sv_session x)) x end.

(** The part of [Serve] between the attachment and the deferred calls, and
    the dispatchers that are registered when it ends. *)
Definition serve_session (env : nat -> Moment) (rotation drain : option Dispatcher) (hello : Hello)
    (welcome : Welcome) (snapshot : Snapshot) (requestID : string) (random : Res (list Z))
    (event : ControlTerminationEvent) (reader : string) (x : Served)
    : Ended * Served * (option Dispatcher * option Dispatcher) :=
  let stop err kind x registered :=
    (mkEnded (Some err) (finish event kind (Some err)) ReasonProtocolClosed, x, registered) in
  match NewFrame MessageWelcome requestID (OtherValue (marshalled (Welcome_text welcome))) with
  | Err err => stop err ControlTerminationProtocolError x (None, None)
  | Ok welcomeFrame =>
  let m := env 1%nat in
  match send_frame m welcomeFrame (m_between m x) with
  | (Some err, x) => stop err (classifyWriteTermination (m_ctx m)) x (None, None)
  | (None, x) =>
  match newOpaqueID random "snapshot" with
  | Err err => stop err ControlTerminationServerError x (None, None)
  | Ok snapshotRequestID =>
  match NewFrame MessageSnapshot snapshotRequestID (SnapshotValue snapshot) with
  | Err err => stop err ControlTerminationProtocolError x (None, None)
  | Ok snapshotFrame =>
  let m := env 2%nat in
  match send_frame m snapshotFrame (m_between m x) with
  | (Some err, x) => stop err (classifyWriteTermination (m_ctx m)) x (None, None)
  | (None, x) =>
  match register rotation (env 3%nat) hello welcome (m_between (env 3%nat) x) with
  | (Some err, x) => stop err ControlTerminationServerError x (None, None)
  | (None, x) =>
  match register drain (env 4%nat) hello welcome (m_between (env 4%nat) x) with
  | (Some err, x) => stop err ControlTerminationServerError x (rotation, None)
  | (None, x) =>
      (serve_loop env rotation (Hello.AccountID hello) event (S (String.length reader)) 5 reader x,
       (rotation, drain))
  end end end end end end end.

Definition projection_of (hello : Hello) (welcome : Welcome) (snapshot : Snapshot) : ActiveControlSession :=
  ActiveControlSession.mk (Hello.AccountID hello) (Hello.TunnelID hello) (Hello.ConnectorID hello)
    (Hello.HostID hello) (Welcome.SessionID welcome) (AuthRequest.IdentityKeyID (Hello.Auth hello))
    (AuthRequest.IdentityKeyThumbprint (Hello.Auth hello)) (Hello.ProcessGeneration hello)
    (AuthRequest.CredentialGeneration (Hello.Auth hello)) (Snapshot.Generation snapshot)
    (Snapshot.ContentHash snapshot).

(** The deferred calls, the last registered first: the dispatchers, the session
    with [context.Background()], the directory. *)
Definition serve_cleanup (last : Moment) (registered : option Dispatcher * option Dispatcher)
    (projection : ActiveControlSession) (ended : Ended) (x : Served) : option goerror * Served :=
  let x := unregister (fst registered) (unregister (snd registered) (m_between last x)) in
  let reason := if negb (ok (ctx_Err (m_ctx last))) then ReasonServerShutdown else en_reason ended in
  let (closed, x) := on_session (Persistent_Close (LiveContext None) reason) x in
  let serveErr := match en_err ended, closed with
                  | None, Err closeErr => Some closeErr
                  | err, _ => err
                  end in
  let sh := sv_shared x in
  (serveErr, x <| sv_shared := sh <| sh_active := detach (sh_active sh) projection |> |>).

(** What a served stream leaves: the error and the event of [Serve], the shared
    state, and the session if there was one. *)
Record Report := mkReport {
  rp_err : option goerror; rp_event : ControlTerminationEvent; rp_shared : Shared;
  rp_session : option ServerSession }.

(** The deferred report: an event without a kind is a server error. *)
Definition reported (err : option goerror) (event : ControlTerminationEvent) : ControlTerminationEvent :=
  if ControlTerminationEvent.Kind event == ControlTerminationUnknown
  then populateTermination (event <| ControlTerminationEvent.Kind := ControlTerminationServerError |>) err
  else event.

(** [Serve] with the identifiers of its path.  [sessionIDs] and [random] are the
    replies of the session-id source and of [rand.Read], [last] the moment at
    which the deferred calls run. *)
Definition Serve (env : nat -> Moment) (last : Moment) (rotation drain : option Dispatcher)
    (expectedTunnelID expectedConnectorID : string) (sessionIDs : Res string) (random : Res (list Z))
    (reader : string) (sh : Shared) : Report :=
  let event := ControlTerminationEvent.mk expectedTunnelID expectedConnectorID "" 0
                 ControlTerminationUnknown "" "" false in
  let m := env 0%nat in
  let ctx := m_ctx m in
  let refuse err kind cause sh := mkReport err (reported err (finish event kind (Some cause))) sh None in
  if ctx_nil ctx || negb (ok (ValidateIdentifier expectedTunnelID))
     || negb (ok (ValidateIdentifier expectedConnectorID))
  then refuse (Some ErrInvalidInput) ControlTerminationInvalidRequest ErrInvalidInput sh else
  match read_frame m reader with
  | (Err err, _) =>
      let kind := classifyReadTermination ctx err in
      if bool_decide (kind ∈ [ControlTerminationPeerEOF; ControlTerminationPeerCanceled;
                              ControlTerminationServerShutdown])
      then refuse None kind err sh else refuse (Some err) kind err sh
  | (Ok first, rest) =>
      if Frame.Type_ first != MessageHello then
        let err := codeError ErrUnsupportedMessage ReasonProtocolMismatch false None in
        refuse (Some err) ControlTerminationProtocolError err sh
      else
      match DecodePayload Hello_fields Hello.zero first with
      | Err err => refuse (Some err) ControlTerminationProtocolError err sh
      | Ok hello =>
          if (Hello.TunnelID hello != expectedTunnelID) || (Hello.ConnectorID hello != expectedConnectorID)
          then refuse (Some identity_mismatch) ControlTerminationAuthentication identity_mismatch sh else
          match PersistentServer_Accept VerifyAuth cfg ctx (m_now m) (m_authNow m) sessionIDs hello
                  (sh_registry sh, sh_store sh) with
          | (Err err, (r, s)) =>
              refuse (Some err) (classifyControlError err) err
                (sh <| sh_registry := r |> <| sh_store := s |>)
          | (Ok (session, welcome, snapshot), (r, s)) =>
              let x := mkServed (sh <| sh_registry := r |> <| sh_store := s |>) session in
              let projection := projection_of hello welcome snapshot in
              let event := event <| ControlTerminationEvent.SessionID := Welcome.SessionID welcome |>
                                 <| ControlTerminationEvent.ProcessGeneration := Hello.ProcessGeneration hello |> in
              match attach (sh_active (sv_shared x)) projection with
              | (Some err, _) =>
                  let x := snd (on_session (Persistent_Close (LiveContext None) ReasonSessionReplaced) x) in
                  mkReport (Some err)
                    (reported (Some err) (finish event ControlTerminationSessionReplaced (Some err)))
                    (sv_shared x) (Some (sv_session x))
              | (None, active) =>
                  let x := x <| sv_shared := (sv_shared x) <| sh_active := active |> |> in
                  let '(ended, x, registered) :=
                    serve_session env rotation drain hello welcome snapshot (Frame.RequestID first) random
                      event rest x in
                  let (err, x) := serve_cleanup last registered projection ended x in
                  mkReport err (reported err (en_event ended)) (sv_shared x) (Some (sv_session x))
              end
          end
      end
  end.
End Serve.
