(* ===== verification/ClientSession.v ===== *)
(** * The connector side of a session

    [ClientSession] of src/internal/connectorprotocol/session.go.  The session
    stages a configuration through the runtime's [ConfigApplier] (prepare),
    activates it when the runtime reports readiness, and aborts what it does
    not use.  A method is cut where it gives up the lock to call the runtime:
    [ApplySnapshotBegin] and [ApplySnapshotFinish] are the two halves of
    [ApplySnapshot] around [PrepareSnapshot], and so on.  The replies of the
    runtime are arguments of the second half.

    A Go method that returns [(value, error)] may return a value beside the
    error (a negative acknowledgement for instance), so the error of a
    computation here carries both. *)

From S2P Require Import Prelude GoText GoHash Errors Canonical Identifiers WireConfig Messages.
From S2P Require Import Registry ServerSession.

(** A [PreparedConfig] of the runtime: an opaque handle. *)
Definition Handle := nat.

Record ClientSessionConfig := mkClientSessionConfig {
  ConfigHello : Hello;
  ApplyTimeout : duration;
  AbortTimeout : duration;
}.

Module ClientSession.
Record ClientSession := mk {
  config : ClientSessionConfig;
  welcome : Welcome;
  state : SessionState;
  lease : Lease;
  auth : AuthRequest;
  active : Snapshot;
  hasActive : bool;
  candidate : Snapshot;
  hasCandidate : bool;
  prepared : option Handle;
  needsSnapshot : bool;
  readyGeneration : Z;
  lastHeartbeatAck : time;
  drain : option Drain;
  drainStatus : DrainStatus;
  drainCode : Code;
  drainCompleted : bool;
  activeStreams : Z;
  disconnectReason : DisconnectReason;
}.
#[export] Instance settable : Settable ClientSession := fun s =>
  mk (config s) (welcome s) (state s) (lease s) (auth s) (active s) (hasActive s) (candidate s)
    (hasCandidate s) (prepared s) (needsSnapshot s) (readyGeneration s) (lastHeartbeatAck s)
    (drain s) (drainStatus s) (drainCode s) (drainCompleted s) (activeStreams s)
    (disconnectReason s).
End ClientSession.
Export (hints) ClientSession.
Abbreviation ClientSession := ClientSession.ClientSession.
Import ClientSession.

(** The session and what it did to the handles of the runtime: [opened] by a
    prepare call, [aborted] by an abort call, [activated] by a successful
    activation, and [promoted], the activated ones whose configuration became
    the active one. *)
Record CliState := mkCli {
  cli : ClientSession;
  opened : list Handle;
  aborted : list Handle;
  activated : list Handle;
  promoted : list Handle;
}.
#[export] Instance CliState_settable : Settable CliState := fun s =>
  mkCli (cli s) (opened s) (aborted s) (activated s) (promoted s).

(** A method returns a value, or a value beside an error. *)
Abbreviation Cli A := (M CliState (A * goerror) A).
Abbreviation CliSub A B := (M CliState (A * goerror) B).

Definition get_cli {A} : CliSub A ClientSession := s ← get; ret (cli s).
Definition upd_cli {A} (f : ClientSession -> ClientSession) : CliSub A unit :=
  modify (fun s => s <| cli := f (cli s) |>).

(** ** Construction and handshake *)

Definition NewClientSession (config : ClientSessionConfig) (now : time) : Res ClientSession :=
  let apply := if ApplyTimeout config =? 0 then DefaultApplyTimeout else ApplyTimeout config in
  let abort := if AbortTimeout config =? 0 then DefaultAbortTimeout else AbortTimeout config in
  if (apply <=? 0) || (MaxLease <? apply) || (abort <=? 0) || (MaxLease <? abort)
  then Err ErrInvalidInput else
  match Hello_Validate (ConfigHello config) now with
  | Some err => Err err
  | None =>
      Ok (ClientSession.mk (mkClientSessionConfig (ConfigHello config) apply abort) Welcome.zero
            SessionNew Lease.zero (Hello.Auth (ConfigHello config)) Snapshot.zero false Snapshot.zero
            false None false 0 0 None "" "" false 0 "")
  end.

(** [now] and [now2] are the two readings of the clock. *)
Definition AcceptWelcome (now now2 : time) (w : Welcome) : Cli unit :=
  match Welcome_Validate w now with
  | Some err => throw (tt, err)
  | None => ret tt
  end ;;
  c ← get_cli;
  fail_if (state c != SessionNew) (tt, codeError ErrSessionConflict ReasonProtocolClosed false None) ;;
  fail_if ((Welcome.Version w != ProtocolVersion) || (Welcome.Protocol w != ProtocolName))
    (tt, codeError ErrProtocolIncompatible ReasonProtocolMismatch false None) ;;
  let hello := ConfigHello (config c) in
  match NegotiateVersion (Hello.MinVersion hello) (Hello.MaxVersion hello) with
  | Err err => throw (tt, err)
  | Ok _ => ret tt
  end ;;
  match NegotiateCapabilities (Hello.Capabilities hello) (Welcome.Capabilities w) with
  | Err err => throw (tt, err)
  | Ok _ => ret tt
  end ;;
  upd_cli (fun c => c <| welcome := w |> <| lease := Welcome.Lease w |>
                      <| state := SessionAwaitingSnapshot |> <| lastHeartbeatAck := now2 |>).

(** ** Helpers under the lock *)

Definition client_timed_out (c : ClientSession) (now : time) : bool :=
  negb (IsZero (lastHeartbeatAck c))
  && (2 * heartbeat_duration (lease c) <? Sub now (lastHeartbeatAck c)).

(** The error, and the session after the call. *)
Definition Client_ensureActiveLocked (c : ClientSession) (now : time)
    : option goerror * ClientSession :=
  if state c == SessionClosed
  then (Some (codeError ErrSessionClosed (disconnectReason c) false None), c)
  else if state c == SessionNew
  then (Some (codeError ErrSessionConflict ReasonProtocolClosed false None), c)
  else if negb (After (Lease.ExpiresAt (lease c)) now)
  then (Some (codeError ErrLeaseExpired ReasonLeaseExpired true None),
        c <| state := SessionClosed |> <| disconnectReason := ReasonLeaseExpired |>)
  else if client_timed_out c now
  then (Some (codeError ErrHeartbeatTimeout ReasonHeartbeatTimeout true None),
        c <| state := SessionClosed |> <| disconnectReason := ReasonHeartbeatTimeout |>)
  else (None, c).

(** The call with its error as a value, and as the method's own error beside [v]. *)
Definition try_ensure {A} (now : time) : CliSub A (option goerror) := fun st =>
  let '(e, c) := Client_ensureActiveLocked (cli st) now in (Ok e, st <| cli := c |>).
Definition ensure {A} (v : A) (now : time) : CliSub A unit :=
  e ← try_ensure now;
  match e with Some err => throw (v, err) | None => ret tt end.

Definition ensureActiveReadLocked (c : ClientSession) (now : time) : option goerror :=
  if state c == SessionClosed
  then Some (codeError ErrSessionClosed (disconnectReason c) false None)
  else if state c == SessionNew
  then Some (codeError ErrSessionConflict ReasonProtocolClosed false None)
  else if negb (After (Lease.ExpiresAt (lease c)) now)
  then Some (codeError ErrLeaseExpired ReasonLeaseExpired true None)
  else None.

Definition Client_restoreStateLocked (c : ClientSession) : ClientSession :=
  if hasActive c && (readyGeneration c =? Snapshot.Generation (active c)) && negb (needsSnapshot c)
  then c <| state := SessionReady |>
  else if hasCandidate c then c <| state := SessionAwaitingReady |>
  else c <| state := SessionAwaitingSnapshot |>.

Definition currentCandidateLocked (c : ClientSession) : option Snapshot :=
  if hasActive c then Some (active c)
  else if hasCandidate c then Some (candidate c) else None.

Definition Client_makeAckLocked (c : ClientSession) (kind : AckKind) (status : AckStatus)
    (snapshot : Snapshot) : Ack :=
  let hello := ConfigHello (config c) in
  Ack.mk (Hello.AccountID hello) (Hello.TunnelID hello) (Hello.ConnectorID hello)
    (Welcome.SessionID (welcome c)) (Hello.ProcessGeneration hello) kind status
    (Snapshot.Generation snapshot) (Snapshot.ContentHash snapshot) "".

Definition makeDrainAckLocked (c : ClientSession) (request : Drain) (status : DrainStatus)
    (streams : Z) (forced : bool) (code : Code) : DrainAck :=
  let hello := ConfigHello (config c) in
  DrainAck.mk (Hello.AccountID hello) (Hello.TunnelID hello) (Hello.ConnectorID hello)
    (Welcome.SessionID (welcome c)) (Hello.ProcessGeneration hello) (Drain.DrainID request)
    (Drain.Generation request) (Drain.ContentHash request) status streams forced code.

(** The envelope of a message is that of this session. *)
Definition session_envelope (c : ClientSession) (accountID tunnelID connectorID sessionID : string)
    (processGeneration : Z) : bool :=
  let hello := ConfigHello (config c) in
  (tunnelID == Hello.TunnelID hello) && (accountID == Hello.AccountID hello)
  && (connectorID == Hello.ConnectorID hello) && (sessionID == Welcome.SessionID (welcome c))
  && (processGeneration =? Hello.ProcessGeneration hello).

Definition joinCleanup (primary cleanup : option goerror) : option goerror :=
  match cleanup with
  | None => primary
  | Some e =>
      let wrapped := WrapError "abort prepared configuration" e in
      match primary with
      | None => Some wrapped
      | Some p => Some (JoinError [p; wrapped])
      end
  end.

(** [errors.Join] of a primary error that is not nil. *)
Definition joined (primary : goerror) (cleanup : option goerror) : goerror :=
  default primary (joinCleanup (Some primary) cleanup).

(** What the runtime answered to a prepare call: the handle and the error it
    returned, the error of the call's own deadline context after it, and that
    of the caller's context. *)
Record PrepareReply := mkPrepareReply {
  reply_prepared : option Handle;
  reply_err : option goerror;
  reply_prepareErr : option goerror;
  reply_ctxErr : option goerror;
}.

(** How an apply call leaves its first half. *)
Inductive Begun (A : Type) := Done (a : A) | Proceed.
Arguments Done {A} a.
Arguments Proceed {A}.

Section Client.
(** What aborting a handle returns. *)
Context (abortReply : Handle -> option goerror).

Definition abortPrepared {A} (p : option Handle) : CliSub A (option goerror) :=
  match p with
  | None => ret None
  | Some h => modify (fun st => st <| aborted := h :: aborted st |>) ;; ret (abortReply h)
  end.

Definition abortAndJoin {A} (primary : goerror) (p : option Handle) : CliSub A goerror :=
  cleanup ← abortPrepared p; ret (joined primary cleanup).

(** The runtime opened a handle. *)
Definition note_opened {A} (p : option Handle) : CliSub A unit :=
  match p with
  | None => ret tt
  | Some h => modify (fun st => st <| opened := h :: opened st |>)
  end.

(** From the prepare call to the second lock, common to both apply methods:
    [base] is the error of a refused preparation.  Returns the handle. *)
Definition prepare_outcome (base : goerror) (reply : PrepareReply) : CliSub Ack Handle :=
  note_opened (reply_prepared reply) ;;
  match reply_err reply, reply_prepareErr reply with
  | Some err, prepareErr =>
      abortErr ← abortPrepared (reply_prepared reply);
      match reply_ctxErr reply, prepareErr with
      | Some cause, _ | None, Some cause =>
          throw (Ack.zero, codeError ErrCanceled ReasonCanceled true
                             (joinCleanup (Some cause) abortErr))
      | None, None =>
          throw (Ack.zero, codeError base ReasonSnapshotRejected false
                             (joinCleanup (Some err) abortErr))
      end
  | None, Some prepareErr =>
      abortErr ← abortPrepared (reply_prepared reply);
      throw (Ack.zero, codeError ErrCanceled ReasonCanceled true
                         (joinCleanup (Some prepareErr) abortErr))
  | None, None =>
      match reply_prepared reply with
      | None => throw (Ack.zero, codeError base ReasonSnapshotRejected false
                  (Some (OtherError "applier returned nil prepared configuration")))
      | Some h => ret h
      end
  end.

(** The second lock: the session must still be live and must not have a
    staged configuration; otherwise the handle is aborted. *)
Definition restage_guard (now : time) (h : Handle) : CliSub Ack unit :=
  e ← try_ensure now;
  match e with
  | Some err => err' ← abortAndJoin err (Some h); throw (Ack.zero, err')
  | None => ret tt
  end ;;
  c ← get_cli;
  if hasCandidate c && match prepared c with Some _ => true | None => false end then
    err' ← abortAndJoin (codeError ErrGenerationGap ReasonGenerationGap true None) (Some h);
    throw (Ack.zero, err')
  else ret tt.

(** *** Snapshots *)

Definition ApplySnapshotBegin (ctx : Context) (now : time) (snapshot : Snapshot)
    : CliSub Ack (Begun Ack) :=
  fail_if (ctx_nil ctx) (Ack.zero, ErrInvalidInput) ;;
  match Snapshot_Validate snapshot with
  | Some err => throw (Ack.zero, codeError ErrSnapshotRejected ReasonSnapshotRejected false (Some err))
  | None => ret tt
  end ;;
  ensure Ack.zero now ;;
  c ← get_cli;
  fail_if (Snapshot.TunnelID snapshot != Hello.TunnelID (ConfigHello (config c)))
    (Ack.zero, identity_mismatch) ;;
  fail_if (negb (ok (Snapshot_ValidateBound snapshot))
           || negb (session_envelope c (Snapshot.AccountID snapshot) (Snapshot.TunnelID snapshot)
                      (Snapshot.ConnectorID snapshot) (Snapshot.SessionID snapshot)
                      (Snapshot.ProcessGeneration snapshot)))
    (Ack.zero, identity_mismatch) ;;
  let current := if hasCandidate c then candidate c else active c in
  let hasCurrent := hasActive c || hasCandidate c in
  fail_if (hasCurrent && (Snapshot.Generation snapshot <? Snapshot.Generation current))
    (Ack.zero, codeError ErrStaleGeneration ReasonStaleGeneration false None) ;;
  if hasCurrent && (Snapshot.Generation snapshot =? Snapshot.Generation current) then
    fail_if (Snapshot.ContentHash snapshot != Snapshot.ContentHash current)
      (Ack.zero, content_mismatch) ;;
    ret (Done (Client_makeAckLocked c AckSnapshot AckDuplicate snapshot))
  else
    match ctx_Err ctx with
    | Some err => throw (Ack.zero, codeError ErrCanceled ReasonCanceled true (Some err))
    | None => ret Proceed
    end.

Definition ApplySnapshotFinish (reply : PrepareReply) (now : time) (snapshot : Snapshot) : Cli Ack :=
  h ← prepare_outcome ErrSnapshotRejected reply;
  restage_guard now h ;;
  c ← get_cli;
  let hello := ConfigHello (config c) in
  let snapshot := bindSnapshot snapshot (Hello.AccountID hello) (Hello.ConnectorID hello)
                    (Welcome.SessionID (welcome c)) (Hello.ProcessGeneration hello) in
  upd_cli (fun c => c <| candidate := snapshot |> <| hasCandidate := true |>
                      <| prepared := Some h |> <| needsSnapshot := false |>
                      <| readyGeneration := 0 |> <| state := SessionAwaitingReady |>) ;;
  ret (Client_makeAckLocked c AckSnapshot AckApplied snapshot).

(** [ApplySnapshot] with nothing interleaved. *)
Definition ApplySnapshot (prepare : Snapshot -> PrepareReply) (ctx : Context) (now now2 : time)
    (snapshot : Snapshot) : Cli Ack :=
  b ← ApplySnapshotBegin ctx now snapshot;
  match b with
  | Done ack => ret ack
  | Proceed => ApplySnapshotFinish (prepare snapshot) now2 snapshot
  end.

(** *** Deltas *)

Definition ApplyDeltaBegin (ctx : Context) (now : time) (delta : Delta) : CliSub Ack unit :=
  fail_if (ctx_nil ctx) (Ack.zero, ErrInvalidInput) ;;
  match Delta_Validate delta with
  | Some err => throw (Ack.zero, codeError ErrDeltaRejected ReasonGenerationGap false (Some err))
  | None => ret tt
  end ;;
  ensure Ack.zero now ;;
  c ← get_cli;
  fail_if (negb (ok (Delta_ValidateBound delta))
           || negb (session_envelope c (Delta.AccountID delta) (Delta.TunnelID delta)
                      (Delta.ConnectorID delta) (Delta.SessionID delta)
                      (Delta.ProcessGeneration delta)))
    (Ack.zero, identity_mismatch) ;;
  let required := Client_makeAckLocked c AckDelta AckSnapshotRequired
                    (Snapshot.zero <| Snapshot.Generation := Delta.Generation delta |>
                                   <| Snapshot.ContentHash := Delta.ContentHash delta |>) in
  let gap := codeError ErrGenerationGap ReasonGenerationGap true None in
  if negb (hasActive c) || needsSnapshot c || hasCandidate c then
    throw (required, codeError ErrSnapshotRequired ReasonGenerationGap true None)
  else if (Delta.PreviousGeneration delta =? Snapshot.Generation (active c))
          && (Delta.PreviousContentHash delta == Snapshot.ContentHash (active c)) then
    if negb (Delta.Generation delta =? u64_add (Snapshot.Generation (active c)) 1) then
      upd_cli (fun c => c <| needsSnapshot := true |>) ;; throw (required, gap)
    else
      match ctx_Err ctx with
      | Some err => throw (Ack.zero, codeError ErrCanceled ReasonCanceled true (Some err))
      | None => ret tt
      end
  else if Delta.Generation delta <=? Snapshot.Generation (active c) then
    throw (Ack.zero, codeError ErrStaleGeneration ReasonStaleGeneration false None)
  else
    upd_cli (fun c => c <| needsSnapshot := true |>) ;; throw (required, gap).

Definition ApplyDeltaFinish (reply : PrepareReply) (now : time) (delta : Delta) : Cli Ack :=
  h ← prepare_outcome ErrDeltaRejected reply;
  restage_guard now h ;;
  c ← get_cli;
  let hello := ConfigHello (config c) in
  let staged := Snapshot.mk (Hello.AccountID hello) (Delta.TunnelID delta) (Hello.ConnectorID hello)
                  (Welcome.SessionID (welcome c)) (Hello.ProcessGeneration hello)
                  (Delta.Generation delta) (Delta.ContentHash delta) (Delta.Payload delta) in
  upd_cli (fun c => c <| candidate := staged |> <| hasCandidate := true |> <| prepared := Some h |>
                      <| readyGeneration := 0 |> <| state := SessionAwaitingReady |>) ;;
  ret (Client_makeAckLocked c AckDelta AckApplied staged).

Definition ApplyDelta (prepare : Delta -> PrepareReply) (ctx : Context) (now now2 : time)
    (delta : Delta) : Cli Ack :=
  ApplyDeltaBegin ctx now delta ;; ApplyDeltaFinish (prepare delta) now2 delta.

(** *** Activation *)

(** The first half of [MarkReadyContext]: the handle to activate, the
    candidate it stands for, and the report. *)
Definition MarkReadyBegin (ctx : Context) (now : time) (edgeReady routeReady originReady : bool)
    : CliSub Readiness (Handle * Snapshot * Readiness) :=
  fail_if (ctx_nil ctx) (Readiness.zero, ErrInvalidInput) ;;
  ensure Readiness.zero now ;;
  c ← get_cli;
  fail_if (negb (hasCandidate c)) (Readiness.zero, snapshot_required) ;;
  let hello := ConfigHello (config c) in
  let readiness := Readiness.mk (Hello.AccountID hello) (Welcome.SessionID (welcome c))
                     (Hello.TunnelID hello) (Hello.ConnectorID hello) (Hello.ProcessGeneration hello)
                     (Snapshot.Generation (candidate c)) (Snapshot.ContentHash (candidate c))
                     edgeReady routeReady originReady in
  fail_if (negb edgeReady || negb routeReady || negb originReady)
    (readiness, codeError ErrNotReady ReasonSnapshotRejected true None) ;;
  match ctx_Err ctx with
  | Some err => throw (readiness, codeError ErrCanceled ReasonCanceled true (Some err))
  | None => ret tt
  end ;;
  match prepared c with
  | None => throw (readiness, codeError ErrSnapshotRejected ReasonSnapshotRejected false
                    (Some (OtherError "missing prepared configuration")))
  | Some h => ret (h, cloneSnapshot (candidate c), readiness)
  end.

Definition same_staged (c : ClientSession) (x : Snapshot) : bool :=
  hasCandidate c && (Snapshot.Generation (candidate c) =? Snapshot.Generation x)
  && (Snapshot.ContentHash (candidate c) == Snapshot.ContentHash x).

(** The second half: [activateErr] is what [Activate] returned, [ctxErr] the
    error of the context after it. *)
Definition MarkReadyFinish (activateErr ctxErr : option goerror) (now : time)
    (h : Handle) (x : Snapshot) (readiness : Readiness) : Cli Readiness :=
  match activateErr with
  | Some err =>
      abortErr ← abortPrepared (Some h);
      upd_cli (fun c => if same_staged c x
                        then Client_restoreStateLocked
                               (c <| candidate := Snapshot.zero |> <| hasCandidate := false |>
                                  <| prepared := None |> <| needsSnapshot := true |>)
                        else c) ;;
      match ctxErr with
      | Some _ => throw (readiness, codeError ErrCanceled ReasonCanceled true
                                      (joinCleanup (Some err) abortErr))
      | None => throw (readiness, codeError ErrSnapshotRejected ReasonSnapshotRejected false
                                    (joinCleanup (Some err) abortErr))
      end
  | None =>
      modify (fun st => st <| activated := h :: activated st |>) ;;
      ensure readiness now ;;
      c ← get_cli;
      fail_if (negb (same_staged c x))
        (readiness, codeError ErrSessionConflict ReasonStaleGeneration true None) ;;
      upd_cli (fun c =>
        let c := c <| active := cloneSnapshot (candidate c) |> <| hasActive := true |>
                   <| candidate := Snapshot.zero |> <| hasCandidate := false |>
                   <| prepared := None |> <| needsSnapshot := false |> in
        c <| readyGeneration := Snapshot.Generation (active c) |> <| state := SessionReady |>) ;;
      modify (fun st => st <| promoted := h :: promoted st |>) ;;
      ret readiness
  end.

Definition MarkReadyContext (activate : Handle -> option goerror) (ctxAfter : option goerror)
    (ctx : Context) (now now2 : time) (edgeReady routeReady originReady : bool) : Cli Readiness :=
  '(h, x, readiness) ← MarkReadyBegin ctx now edgeReady routeReady originReady;
  MarkReadyFinish (activate h) ctxAfter now2 h x readiness.

(** *** Closing *)

Definition Client_Close (reason : DisconnectReason) : Cli unit :=
  fail_if (negb (validDisconnectReason reason)) (tt, ErrInvalidInput) ;;
  c ← get_cli;
  if state c == SessionClosed then ret tt else
  let p := prepared c in
  upd_cli (fun c => c <| state := SessionClosed |> <| disconnectReason := reason |>
                      <| prepared := None |> <| candidate := Snapshot.zero |>
                      <| hasCandidate := false |>) ;;
  e ← abortPrepared p;
  match e with
  | Some err => throw (tt, codeError ErrSnapshotRejected ReasonSnapshotRejected false
                             (joinCleanup None (Some err)))
  | None => ret tt
  end.
End Client.

Definition RejectionAck (c : ClientSession) (kind : AckKind) (generation : Z) (contentHash : string)
    (code : Code) : Ack :=
  let hello := ConfigHello (config c) in
  Ack.mk (Hello.AccountID hello) (Hello.TunnelID hello) (Hello.ConnectorID hello)
    (Welcome.SessionID (welcome c)) (Hello.ProcessGeneration hello) kind AckRejected generation
    contentHash code.

(** ** Heartbeats *)

(** [clock] is the reading taken when the caller passes the zero time. *)
Definition Client_Heartbeat (clock now : time) : Cli Heartbeat :=
  let now := if IsZero now then clock else now in
  ensure Heartbeat.zero now ;;
  c ← get_cli;
  match currentCandidateLocked c with
  | None => throw (Heartbeat.zero, snapshot_required)
  | Some current =>
      let hello := ConfigHello (config c) in
      ret (Heartbeat.mk (Hello.AccountID hello) (Welcome.SessionID (welcome c)) (Hello.TunnelID hello)
             (Hello.ConnectorID hello) (Hello.ProcessGeneration hello) (Snapshot.Generation current)
             (Snapshot.ContentHash current) now)
  end.

Definition AcceptHeartbeatAck (now : time) (ack : HeartbeatAck) : Cli unit :=
  match HeartbeatAck_Validate ack now with
  | Some err => throw (tt, err)
  | None => ret tt
  end ;;
  ensure tt now ;;
  c ← get_cli;
  fail_if (negb (session_envelope c (HeartbeatAck.AccountID ack) (HeartbeatAck.TunnelID ack)
                   (HeartbeatAck.ConnectorID ack) (HeartbeatAck.SessionID ack)
                   (HeartbeatAck.ProcessGeneration ack))) (tt, identity_mismatch) ;;
  upd_cli (fun c => c <| lease := (lease c) <| Lease.ExpiresAt := HeartbeatAck.LeaseExpiresAt ack |> |>
                      <| lastHeartbeatAck := now |>).

(** ** Draining *)

Definition HandleDrainBegin (ctx : Context) (now : time) (request : Drain)
    : CliSub DrainAck (Begun DrainAck) :=
  fail_if (ctx_nil ctx) (DrainAck.zero, ErrInvalidInput) ;;
  match ctx_Err ctx with
  | Some err => throw (DrainAck.zero, codeError ErrCanceled ReasonCanceled true (Some err))
  | None => ret tt
  end ;;
  match Drain_Validate request now with
  | Some err => throw (DrainAck.zero, err)
  | None => ret tt
  end ;;
  ensure DrainAck.zero now ;;
  c ← get_cli;
  fail_if (negb (hasCapability (Welcome.Capabilities (welcome c)) CapabilityDrain))
    (DrainAck.zero, codeError ErrCapabilityMissing ReasonCapabilityMissing false None) ;;
  let refused (streams : Z) := makeDrainAckLocked c request DrainRejected streams false CodeDrainRejected in
  fail_if (negb (session_envelope c (Drain.AccountID request) (Drain.TunnelID request)
                   (Drain.ConnectorID request) (Drain.SessionID request)
                   (Drain.ProcessGeneration request))) (refused 0, identity_mismatch) ;;
  match drain c with
  | Some d =>
      fail_if (Drain.DrainID request != Drain.DrainID d)
        (refused (activeStreams c), codeError ErrSessionConflict ReasonStaleGeneration true None) ;;
      fail_if (negb (Drain.Generation request =? Drain.Generation d)
               || (Drain.ContentHash request != Drain.ContentHash d))
        (refused (activeStreams c), content_mismatch) ;;
      ret (Done (makeDrainAckLocked c request (drainStatus c) (activeStreams c)
                   (drainStatus c == DrainForced) (drainCode c)))
  | None =>
      fail_if (negb (hasActive c) || needsSnapshot c
               || negb (readyGeneration c =? Snapshot.Generation (active c)))
        (refused 0, codeError ErrNotReady ReasonSnapshotRejected true None) ;;
      fail_if (negb (Drain.Generation request =? Snapshot.Generation (active c))
               || (Drain.ContentHash request != Snapshot.ContentHash (active c)))
        (refused 0, codeError ErrStaleGeneration ReasonStaleGeneration true None) ;;
      upd_cli (fun c => c <| drain := Some request |> <| drainStatus := DrainAccepted |>
                          <| drainCode := "" |> <| drainCompleted := false |>
                          <| activeStreams := 0 |> <| state := SessionDraining |>) ;;
      ret Proceed
  end.

Definition drain_is (c : ClientSession) (id : string) : bool :=
  match drain c with Some d => Drain.DrainID d == id | None => false end.

(** A drain that the runtime refused. *)
Definition refuse_drain (c : ClientSession) (request : Drain) : ClientSession :=
  if drain_is c (Drain.DrainID request)
  then Client_restoreStateLocked (c <| drainStatus := DrainRejected |>
         <| drainCode := CodeDrainRejected |> <| drainCompleted := true |>)
  else c.

(** The rest of [HandleDrain]: [stopErr] is the reply of [StopNewStreams],
    [streams] and [countErr] that of [ActiveStreams]. *)
Definition HandleDrainFinish (stopErr : option goerror) (streams : Z) (countErr : option goerror)
    (request : Drain) : Cli DrainAck :=
  match stopErr with
  | Some err =>
      upd_cli (fun c => refuse_drain c request) ;;
      c ← get_cli;
      throw (makeDrainAckLocked c request DrainRejected (activeStreams c) false CodeDrainRejected,
             codeError ErrDrainRejected ReasonSnapshotRejected true (Some err))
  | None =>
      match countErr, MaxActiveStreams <? streams with
      | None, false =>
          c ← get_cli;
          fail_if (negb (drain_is c (Drain.DrainID request)))
            (makeDrainAckLocked c request DrainRejected streams false CodeDrainRejected,
             codeError ErrStaleSession ReasonStaleGeneration false None) ;;
          upd_cli (fun c => c <| activeStreams := streams |>) ;;
          ret (makeDrainAckLocked c request DrainAccepted streams false "")
      | countErr, _ =>
          upd_cli (fun c => refuse_drain c request) ;;
          c ← get_cli;
          throw (makeDrainAckLocked c request DrainRejected 0 false CodeDrainRejected,
                 codeError ErrDrainRejected ReasonSnapshotRejected true
                   (Some (default ErrInvalidInput countErr)))
      end
  end.

Definition HandleDrain (ctx : Context) (now : time) (stopErr : option goerror) (streams : Z)
    (countErr : option goerror) (request : Drain) : Cli DrainAck :=
  b ← HandleDrainBegin ctx now request;
  match b with
  | Done ack => ret ack
  | Proceed => HandleDrainFinish stopErr streams countErr request
  end.

Definition Client_DrainProgress (ctx : Context) (now : time) (streams : Z) (forcedClose : bool)
    : Cli DrainAck :=
  fail_if (ctx_nil ctx) (DrainAck.zero, ErrInvalidInput) ;;
  fail_if (MaxActiveStreams <? streams) (DrainAck.zero, ErrInvalidInput) ;;
  match ctx_Err ctx with
  | Some err => throw (DrainAck.zero, codeError ErrCanceled ReasonCanceled true (Some err))
  | None => ret tt
  end ;;
  ensure DrainAck.zero now ;;
  c ← get_cli;
  match drain c with
  | None => throw (DrainAck.zero, codeError ErrSessionConflict ReasonStaleGeneration false None)
  | Some d =>
      upd_cli (fun c => c <| activeStreams := streams |>) ;;
      if drainCompleted c then
        ret (makeDrainAckLocked c d (drainStatus c) streams (drainStatus c == DrainForced) (drainCode c))
      else if forcedClose then
        fail_if (negb (streams =? 0))
          (DrainAck.zero, codeError ErrInvalidInput ReasonSnapshotRejected false
             (Some (OtherError "forced drain must have zero active streams"))) ;;
        upd_cli (fun c => c <| drainStatus := DrainForced |> <| drainCode := CodeDrainTimeout |>
                            <| drainCompleted := true |>) ;;
        ret (makeDrainAckLocked c d DrainForced 0 true CodeDrainTimeout)
      else if streams =? 0 then
        upd_cli (fun c => c <| drainStatus := DrainCompleted |> <| drainCode := "" |>
                            <| drainCompleted := true |>) ;;
        ret (makeDrainAckLocked c d DrainCompleted 0 false "")
      else if negb (Before now (Drain.Deadline d)) then
        throw (makeDrainAckLocked c d DrainProgress streams false "",
               codeError ErrDrainTimeout ReasonHeartbeatTimeout true None)
      else
        upd_cli (fun c => c <| drainStatus := DrainProgress |> <| drainCode := "" |>) ;;
        ret (makeDrainAckLocked c d DrainProgress streams false "")
  end.

(** [forceErr] is the reply of [ForceClose], [streams] and [countErr] that of
    [ActiveStreams]; the one that is not asked is not used. *)
Definition CompleteDrain (ctx : Context) (now : time) (force : bool) (forceErr : option goerror)
    (streams : Z) (countErr : option goerror) : Cli DrainAck :=
  fail_if (ctx_nil ctx) (DrainAck.zero, ErrInvalidInput) ;;
  c ← get_cli;
  match drain c with
  | None => throw (DrainAck.zero, codeError ErrSessionConflict ReasonStaleGeneration false None)
  | Some request =>
      if drainCompleted c then
        ret (makeDrainAckLocked c request (drainStatus c) (activeStreams c)
               (drainStatus c == DrainForced) (drainCode c))
      else if force then
        match forceErr with
        | Some err => throw (DrainAck.zero, codeError ErrDrainRejected ReasonSnapshotRejected true (Some err))
        | None => Client_DrainProgress ctx now 0 true
        end
      else
        match countErr with
        | Some err => throw (DrainAck.zero, codeError ErrDrainRejected ReasonSnapshotRejected true (Some err))
        | None => Client_DrainProgress ctx now streams false
        end
  end.

(** [Drain()]: the request, its status, the stream count, whether it is over. *)
Definition Client_Drain (c : ClientSession) : option (Drain * DrainStatus * Z * bool) :=
  match drain c with
  | None => None
  | Some d => Some (d, drainStatus c, activeStreams c, drainCompleted c)
  end.

(** ** Renewal *)

Definition Client_RenewalRequest (c : ClientSession) (clock now : time) (nonce signedProof : string)
    : Res RenewalRequest :=
  let now := if IsZero now then clock else now in
  match ensureActiveReadLocked c now with
  | Some err => Err err
  | None =>
      let a := auth c in
      let request := RenewalRequest.mk (Welcome.SessionID (welcome c)) (AuthRequest.AccountID a)
        (AuthRequest.TunnelID a) (AuthRequest.ConnectorID a) (AuthRequest.HostID a)
        (AuthRequest.IdentityKeyID a) (AuthRequest.IdentityKeyThumbprint a)
        (Hello.ProcessGeneration (ConfigHello (config c))) (AuthRequest.CredentialGeneration a)
        nonce signedProof now in
      match RenewalRequest_Validate request with
      | Some err => Err err
      | None => Ok request
      end
  end.

Definition ApplyRenewal (now : time) (result : AuthResult) : Cli unit :=
  match AuthResult_ValidateBound result with
  | Some err => throw (tt, err)
  | None => ret tt
  end ;;
  ensure tt now ;;
  c ← get_cli;
  let a := auth c in
  fail_if ((AuthResult.AccountID result != AuthRequest.AccountID a)
           || (AuthResult.TunnelID result != AuthRequest.TunnelID a)
           || (AuthResult.ConnectorID result != AuthRequest.ConnectorID a)
           || (AuthResult.SessionID result != Welcome.SessionID (welcome c))
           || (AuthResult.HostID result != AuthRequest.HostID a)
           || (AuthResult.IdentityKeyID result != AuthRequest.IdentityKeyID a)
           || (AuthResult.IdentityKeyThumbprint result != AuthRequest.IdentityKeyThumbprint a)
           || negb (AuthResult.ProcessGeneration result =? Hello.ProcessGeneration (ConfigHello (config c)))
           || (AuthResult.CredentialGeneration result <? AuthRequest.CredentialGeneration a))
    (tt, identity_mismatch) ;;
  fail_if (Before (AuthResult.CredentialExpiresAt result) (AuthRequest.ExpiresAt a)
           || Before (AuthResult.LeaseExpiresAt result) (Lease.ExpiresAt (lease c)))
    (tt, codeError ErrSessionConflict ReasonAuthentication false None) ;;
  if (AuthResult.CredentialGeneration result =? AuthRequest.CredentialGeneration a)
     && (AuthResult.CredentialExpiresAt result =? AuthRequest.ExpiresAt a)
     && (AuthResult.LeaseExpiresAt result =? Lease.ExpiresAt (lease c))
  then ret tt
  else
    upd_cli (fun c => c
      <| auth := AuthRequest.mk (AuthResult.AccountID result) (AuthResult.TunnelID result)
                   (AuthResult.ConnectorID result) (AuthResult.HostID result)
                   (AuthResult.IdentityKeyID result) (AuthResult.IdentityKeyThumbprint result)
                   (AuthResult.ProcessGeneration result) (AuthResult.CredentialGeneration result)
                   "" "" now (AuthResult.CredentialExpiresAt result) |>
      <| lease := (lease c) <| Lease.ExpiresAt := AuthResult.LeaseExpiresAt result |> |>
      <| lastHeartbeatAck := now |>).

(** ** Observers *)

Definition Applied (c : ClientSession) : option Snapshot := currentCandidateLocked c.
Definition Candidate (c : ClientSession) : option Snapshot :=
  if hasCandidate c then Some (cloneSnapshot (candidate c)) else None.
Definition Client_Active (c : ClientSession) : option Snapshot :=
  if hasActive c then Some (cloneSnapshot (active c)) else None.

Definition Client_CheckLease (now : time) : Cli unit := ensure tt now.

Definition Client_Disconnect (c : ClientSession) : Disconnect :=
  let hello := ConfigHello (config c) in
  let reason := if disconnectReason c == "" then ReasonProtocolClosed else disconnectReason c in
  Disconnect.mk (Hello.AccountID hello) (Hello.TunnelID hello) (Hello.ConnectorID hello)
    (Welcome.SessionID (welcome c)) (Hello.ProcessGeneration hello) reason (retryable_reason reason) "".
