(* ===== verification/ClientSafety.v ===== *)
(** * Safety of the connector session

    The methods of [ClientSession] as the steps of a system in which the
    callers are interleaved at the points where a method gives its lock up.
    [applyMu] serialises the methods that stage, activate or drop a
    configuration; the others may run at any point.  The invariant gives the
    theorems of this file: no handle of the runtime is lost or used twice, and
    the active configuration only moves forward. *)

From S2P Require Import Prelude GoText GoHash GoJson Errors Canonical Identifiers WireConfig.
From S2P Require Import Messages Registry ServerSession ServerSafety ServerConfigFlow ClientSession.
Import ClientSession.

(** ** The system *)

(** The holder of [applyMu], when it is between the two halves of its method. *)
Inductive InFlight :=
| PreparingSnapshot (x : Snapshot)
| PreparingDelta (d : Delta)
| Activating (h : Handle) (x : Snapshot) (r : Readiness).

Record CliWorld := mkCliWorld { cw : CliState; applyMu : option InFlight }.

(** The methods that do not take [applyMu], and the halves of [HandleDrain]. *)
Inductive CliCall :=
| CliAcceptWelcome (now now2 : time) (w : Welcome)
| CliHeartbeat (clock now : time)
| CliAcceptHeartbeatAck (now : time) (ack : HeartbeatAck)
| CliHandleDrainBegin (ctx : Context) (now : time) (request : Drain)
| CliHandleDrainFinish (stopErr : option goerror) (streams : Z) (countErr : option goerror) (request : Drain)
| CliDrainProgress (ctx : Context) (now : time) (streams : Z) (forced : bool)
| CliCompleteDrain (ctx : Context) (now : time) (force : bool) (forceErr : option goerror)
    (streams : Z) (countErr : option goerror)
| CliApplyRenewal (now : time) (result : AuthResult)
| CliCheckLease (now : time).

Definition run_call (c : CliCall) (st : CliState) : CliState :=
  match c with
  | CliAcceptWelcome now now2 w => snd (AcceptWelcome now now2 w st)
  | CliHeartbeat clock now => snd (Client_Heartbeat clock now st)
  | CliAcceptHeartbeatAck now ack => snd (AcceptHeartbeatAck now ack st)
  | CliHandleDrainBegin ctx now request => snd (HandleDrainBegin ctx now request st)
  | CliHandleDrainFinish stopErr streams countErr request =>
      snd (HandleDrainFinish stopErr streams countErr request st)
  | CliDrainProgress ctx now streams forced => snd (Client_DrainProgress ctx now streams forced st)
  | CliCompleteDrain ctx now force forceErr streams countErr =>
      snd (CompleteDrain ctx now force forceErr streams countErr st)
  | CliApplyRenewal now result => snd (ApplyRenewal now result st)
  | CliCheckLease now => snd (Client_CheckLease now st)
  end.

(** The handle of a reply was not handed out before. *)
Definition fresh_reply (reply : PrepareReply) (st : CliState) : Prop :=
  forall h, reply_prepared reply = Some h -> h ∉ opened st.

Section Steps.
Context (abortReply : Handle -> option goerror).

Inductive cstep (w : CliWorld) : CliWorld -> Prop :=
| c_call c : cstep w (mkCliWorld (run_call c (cw w)) (applyMu w))
| c_snapshot_begin ctx now x r st :
    applyMu w = None -> ApplySnapshotBegin ctx now x (cw w) = (r, st) ->
    cstep w (mkCliWorld st (match r with Ok Proceed => Some (PreparingSnapshot x) | _ => None end))
| c_snapshot_finish reply now x :
    applyMu w = Some (PreparingSnapshot x) -> fresh_reply reply (cw w) ->
    cstep w (mkCliWorld (snd (ApplySnapshotFinish abortReply reply now x (cw w))) None)
| c_delta_begin ctx now d r st :
    applyMu w = None -> ApplyDeltaBegin ctx now d (cw w) = (r, st) ->
    cstep w (mkCliWorld st (match r with Ok _ => Some (PreparingDelta d) | _ => None end))
| c_delta_finish reply now d :
    applyMu w = Some (PreparingDelta d) -> fresh_reply reply (cw w) ->
    cstep w (mkCliWorld (snd (ApplyDeltaFinish abortReply reply now d (cw w))) None)
| c_ready_begin ctx now e ro o r st :
    applyMu w = None -> MarkReadyBegin ctx now e ro o (cw w) = (r, st) ->
    cstep w (mkCliWorld st (match r with Ok (h, x, rd) => Some (Activating h x rd) | _ => None end))
| c_ready_finish activateErr ctxErr now h x rd :
    applyMu w = Some (Activating h x rd) ->
    cstep w (mkCliWorld (snd (MarkReadyFinish abortReply activateErr ctxErr now h x rd (cw w))) None)
| c_close reason :
    applyMu w = None -> cstep w (mkCliWorld (snd (Client_Close abortReply reason (cw w))) None).
End Steps.

Definition cli_init (c : ClientSession) : CliWorld := mkCliWorld (mkCli c [] [] [] []) None.

(** ** What the methods outside [applyMu] leave alone *)

(** The configuration part of the session and the handles. *)
Definition same_config (st st' : CliState) : Prop :=
  let c := cli st in let c' := cli st' in
  config c' = config c /\ active c' = active c /\ hasActive c' = hasActive c
  /\ candidate c' = candidate c /\ hasCandidate c' = hasCandidate c /\ prepared c' = prepared c
  /\ readyGeneration c' = readyGeneration c
  /\ opened st' = opened st /\ aborted st' = aborted st /\ activated st' = activated st
  /\ promoted st' = promoted st.

Lemma ensure_cases c now :
  let '(e, c') := Client_ensureActiveLocked c now in
  match e with
  | None => c' = c /\ state c <> SessionClosed /\ state c <> SessionNew
            /\ now < Lease.ExpiresAt (lease c) /\ client_timed_out c now = false
  | Some _ => c' = c \/ (state c <> SessionClosed /\ exists reason,
                c' = c <| state := SessionClosed |> <| disconnectReason := reason |>)
  end.
Proof.
  unfold Client_ensureActiveLocked, After. repeat case_match; simplify_eq; bool_prop; eauto 10.
Qed.

Lemma wp_try_ensure {A} now st (Q : result (A * goerror) (option goerror) -> CliState -> Prop) :
  (state (cli st) <> SessionClosed -> state (cli st) <> SessionNew ->
   now < Lease.ExpiresAt (lease (cli st)) -> client_timed_out (cli st) now = false -> Q (Ok None) st) ->
  (forall e, Q (Ok (Some e)) st) ->
  (forall e reason, state (cli st) <> SessionClosed ->
     Q (Ok (Some e)) (st <| cli := (cli st) <| state := SessionClosed |> <| disconnectReason := reason |> |>)) ->
  wp (try_ensure (A := A) now) Q st.
Proof.
  intros H1 H2 H3. unfold wp, try_ensure. pose proof (ensure_cases (cli st) now) as H.
  destruct (Client_ensureActiveLocked (cli st) now) as [[e|] c']; simpl.
  - destruct H as [->|[Ho [reason ->]]]; [by destruct st|by apply H3].
  - destruct H as (-> & ? & ? & ? & ?). destruct st. by apply H1.
Qed.

Lemma wp_get_cli {A} (Q : result (A * goerror) ClientSession -> CliState -> Prop) st :
  Q (Ok (cli st)) st -> wp get_cli Q st.
Proof. done. Qed.
Lemma wp_upd_cli {A} f (Q : result (A * goerror) unit -> CliState -> Prop) st :
  Q (Ok tt) (st <| cli := f (cli st) |>) -> wp (upd_cli f) Q st.
Proof. done. Qed.
Lemma wp_abortPrepared {A} abortReply p (Q : result (A * goerror) (option goerror) -> CliState -> Prop) st :
  Q (Ok (p ≫= abortReply)) (st <| aborted := option_list p ++ aborted st |>) ->
  wp (abortPrepared abortReply p) Q st.
Proof. by destruct p, st. Qed.
Lemma wp_note_opened {A} p (Q : result (A * goerror) unit -> CliState -> Prop) st :
  Q (Ok tt) (st <| opened := option_list p ++ opened st |>) -> wp (note_opened p) Q st.
Proof. by destruct p, st. Qed.

Ltac cli_step :=
  lazymatch goal with
  | |- wp get_cli _ _ => apply wp_get_cli
  | |- wp (upd_cli _) _ _ => apply wp_upd_cli
  | |- wp (ensure _ _) _ _ => unfold ensure
  | |- wp (abortAndJoin _ _ _) _ _ => unfold abortAndJoin
  | |- wp (abortPrepared _ _) _ _ => apply wp_abortPrepared
  | |- wp (note_opened _) _ _ => apply wp_note_opened
  | |- wp (try_ensure _) _ _ => apply wp_try_ensure; [intros ? ? ? ?|intros ?|intros ? ? ?]
  | |- _ => wp_step
  end.
Ltac cli_run := repeat (cli_step; cbv beta iota zeta).

(** The footprint of the methods outside [applyMu]. *)
Definition calm (st st' : CliState) : Prop :=
  let c := cli st in let c' := cli st' in
  same_config st st'
  /\ (state c <> SessionNew -> welcome c' = welcome c)
  /\ (state c <> SessionNew -> state c' <> SessionNew)
  /\ (state c' = SessionReady -> state c = SessionReady
      \/ hasActive c = true /\ readyGeneration c = Snapshot.Generation (active c)).

Lemma refuse_drain_calm st request :
  calm st (st <| cli := refuse_drain (cli st) request |>).
Proof.
  unfold refuse_drain, Client_restoreStateLocked. repeat case_match; bool_prop;
    unfold calm, same_config; cbn; split_and!; auto; done.
Qed.

Lemma calm_refl st : calm st st.
Proof. unfold calm, same_config. split_and!; auto. Qed.

Ltac solve_calm :=
  try apply calm_refl; try apply refuse_drain_calm;
  unfold calm, same_config; cbn; split_and!; try done; auto; intros; congruence.

Lemma run_call_calm c st : calm st (run_call c st).
Proof.
  destruct c; unfold run_call;
    match goal with |- calm ?st0 (snd (?m ?st0)) => change (wp m (fun _ st' => calm st0 st') st0) end;
    unfold AcceptWelcome, Client_Heartbeat, AcceptHeartbeatAck, HandleDrainBegin, HandleDrainFinish,
      CompleteDrain, Client_DrainProgress, ApplyRenewal, Client_CheckLease;
    cli_run; bool_prop; solve_calm.
Qed.

(** ** The invariant *)

(** A payload that was validated for its tunnel, generation and hash. *)
Definition payload_valid (tunnelID : string) (generation : Z) (hash payload : string) : Prop :=
  canonicalJSON payload MaxSnapshotBytes = Ok payload /\ hash = content_hash payload
  /\ validateConfigSnapshotPayload payload tunnelID generation = None.

(** A configuration that this session may stage or activate. *)
Definition client_config (c : ClientSession) (x : Snapshot) : Prop :=
  session_envelope c (Snapshot.AccountID x) (Snapshot.TunnelID x) (Snapshot.ConnectorID x)
    (Snapshot.SessionID x) (Snapshot.ProcessGeneration x) = true
  /\ payload_valid (Snapshot.TunnelID x) (Snapshot.Generation x) (Snapshot.ContentHash x)
       (Snapshot.Payload x).

(** [new] is a later generation than [old], or the 64-bit counter wrapped. *)
Definition later (old new : Z) : Prop := old < new \/ (old = two64 - 1 /\ new = 0).

Record client_inv (st : CliState) : Prop := {
  ci_staged : hasCandidate (cli st) = true <-> exists h, prepared (cli st) = Some h;
  ci_unready : hasCandidate (cli st) = true -> readyGeneration (cli st) = 0;
  ci_ready : state (cli st) = SessionReady ->
    hasActive (cli st) = true /\ readyGeneration (cli st) = Snapshot.Generation (active (cli st));
  ci_new : state (cli st) = SessionNew -> hasActive (cli st) = false /\ hasCandidate (cli st) = false;
  ci_active : hasActive (cli st) = true -> client_config (cli st) (active (cli st));
  ci_candidate : hasCandidate (cli st) = true -> client_config (cli st) (candidate (cli st));
  ci_order : hasActive (cli st) = true -> hasCandidate (cli st) = true ->
    later (Snapshot.Generation (active (cli st))) (Snapshot.Generation (candidate (cli st)));
  ci_fresh : NoDup (opened st);
  ci_accounts : opened st ≡ₚ aborted st ++ promoted st ++ option_list (prepared (cli st));
  ci_activated : forall h, h ∈ promoted st -> h ∈ activated st;
}.

(** What holds while a method is between its halves. *)
Definition flight_inv (st : CliState) (f : InFlight) : Prop :=
  let c := cli st in
  state c <> SessionNew
  /\ match f with
     | PreparingSnapshot x =>
         Snapshot_Validate x = None /\ client_config c x
         /\ (hasActive c = true -> hasCandidate c = false ->
             later (Snapshot.Generation (active c)) (Snapshot.Generation x))
     | PreparingDelta d =>
         Delta_Validate d = None
         /\ session_envelope c (Delta.AccountID d) (Delta.TunnelID d) (Delta.ConnectorID d)
              (Delta.SessionID d) (Delta.ProcessGeneration d) = true
         /\ hasActive c = true /\ Delta.PreviousGeneration d = Snapshot.Generation (active c)
     | Activating h x _ =>
         prepared c = Some h /\ candidate c = x /\ hasCandidate c = true
     end.

Definition world_ok (w : CliWorld) : Prop :=
  client_inv (cw w) /\ forall f, applyMu w = Some f -> flight_inv (cw w) f.

Lemma envelope_welcome c c' a t k i g :
  config c' = config c -> welcome c' = welcome c ->
  session_envelope c' a t k i g = session_envelope c a t k i g.
Proof. unfold session_envelope. by intros -> ->. Qed.

Lemma client_config_calm st st' x :
  calm st st' -> state (cli st) <> SessionNew -> client_config (cli st) x -> client_config (cli st') x.
Proof.
  intros (Hs & Hw & _) Hnew [H1 H2]. split; [|done].
  rewrite <- H1. apply envelope_welcome; [apply Hs|by apply Hw].
Qed.

Lemma calm_inv st st' : calm st st' -> client_inv st -> client_inv st'.
Proof.
  intros Hcalm []. pose proof Hcalm as (Hs & Hw & Hnew & Hr).
  destruct Hs as (H1 & H2 & H3 & H4 & H5 & H6 & H7 & H8 & H9 & H10 & H11).
  assert (forall b, (state (cli st) = SessionNew -> b = false) -> b = true ->
    state (cli st) <> SessionNew) as Hb by (intros b Hf Ht E; rewrite Hf in Ht; done).
  constructor; rewrite ?H2, ?H3, ?H4, ?H5, ?H6, ?H7, ?H8, ?H9, ?H10, ?H11; try done.
  - intros Hst. destruct (Hr Hst) as [Hst'|?]; [by apply ci_ready0|done].
  - intros Hst. apply ci_new0. destruct (decide (state (cli st) = SessionNew)); [done|].
    exfalso. by apply Hnew.
  - intros Ha. apply (client_config_calm st); [done| |by apply ci_active0].
    apply (Hb (hasActive (cli st))); [|done]. intros E. by apply ci_new0.
  - intros Ha. apply (client_config_calm st); [done| |by apply ci_candidate0].
    apply (Hb (hasCandidate (cli st))); [|done]. intros E. by apply ci_new0.
Qed.

Lemma calm_flight st st' f : calm st st' -> flight_inv st f -> flight_inv st' f.
Proof.
  intros Hcalm [Hnew Hf]. pose proof Hcalm as (Hs & Hw & Hnew' & _).
  destruct Hs as (H1 & H2 & H3 & H4 & H5 & H6 & _).
  split; [by apply Hnew'|]. destruct f; rewrite ?H2, ?H3, ?H4, ?H5, ?H6.
  - destruct Hf as (? & ? & ?). split_and!; try done. by eapply client_config_calm.
  - rewrite (envelope_welcome (cli st)); [done|done|by apply Hw].
  - done.
Qed.

(** ** The halves *)

Lemma Snapshot_Validate_payload x :
  Snapshot_Validate x = None ->
  payload_valid (Snapshot.TunnelID x) (Snapshot.Generation x) (Snapshot.ContentHash x)
    (Snapshot.Payload x).
Proof. intros H. apply Snapshot_Validate_None in H. by destruct_and!. Qed.

Lemma Delta_Validate_payload d :
  Delta_Validate d = None ->
  payload_valid (Delta.TunnelID d) (Delta.Generation d) (Delta.ContentHash d) (Delta.Payload d)
  /\ Delta.Generation d = u64_add (Delta.PreviousGeneration d) 1.
Proof.
  unfold Delta_Validate. intros H. repeat case_match; simplify_eq; bool_prop; subst.
  repeat split; try done. eapply canonicalJSON_limit; [|done]. vm_compute. done.
Qed.

Lemma payload_valid_u64 t g h p : payload_valid t g h p -> is_u64 g.
Proof. intros (_ & _ & H). by eapply payload_generation_u64. Qed.

Lemma later_succ g : is_u64 g -> later g (u64_add g 1).
Proof.
  intros [? ?]. unfold later, u64_add. destruct (decide (g = two64 - 1)) as [->|?].
  - right. split; [done|]. by vm_compute.
  - left. rewrite Z.mod_small; lia.
Qed.

Lemma ApplySnapshotBegin_ok ctx now x st r st' :
  client_inv st -> ApplySnapshotBegin ctx now x st = (r, st') ->
  calm st st' /\ (r = Ok Proceed -> flight_inv st' (PreparingSnapshot x)).
Proof.
  intros Hinv He. wp_of He. unfold ApplySnapshotBegin.
  cli_run; (split; [bool_prop; solve_calm|]); try done; intros _; bool_prop.
  match goal with H : Snapshot_Validate _ = None |- _ => apply Snapshot_Validate_payload in H as Hp end.
  unfold flight_inv. split_and!; try done.
  intros Ha Hc. left.
  match goal with H : (_ && _)%bool = false |- _ => revert H end. rewrite Ha, Hc in *. simpl in *.
  intros. bool_prop. lia.
Qed.

Lemma ApplyDeltaBegin_ok ctx now d st r st' :
  client_inv st -> ApplyDeltaBegin ctx now d st = (r, st') ->
  client_inv st' /\ (r = Ok tt -> flight_inv st' (PreparingDelta d)).
Proof.
  intros Hinv He. wp_of He. unfold ApplyDeltaBegin.
  cli_run; (split; [|try done]); try (apply (calm_inv st); [bool_prop; solve_calm|done]).
  all: try (destruct Hinv; constructor; cbn; done).
  intros _. bool_prop. unfold flight_inv. by split_and!.
Qed.

Lemma MarkReadyBegin_ok ctx now e ro o st r st' :
  MarkReadyBegin ctx now e ro o st = (r, st') ->
  calm st st' /\ (forall h x rd, r = Ok (h, x, rd) -> flight_inv st' (Activating h x rd)).
Proof.
  intros He. wp_of He. unfold MarkReadyBegin.
  cli_run; (split; [bool_prop; solve_calm|]); try done. intros * [= <- <- <-]. bool_prop.
  by split_and!.
Qed.

(** A handle that is opened and aborted again. *)
Definition balanced (st : CliState) (p : option Handle) : CliState :=
  st <| opened := option_list p ++ opened st |> <| aborted := option_list p ++ aborted st |>.

Lemma balanced_inv st p :
  client_inv st -> (forall h, p = Some h -> h ∉ opened st) -> client_inv (balanced st p).
Proof.
  intros [] Hf. constructor; cbn; try done.
  - destruct p as [h|]; simpl; [|done]. apply NoDup_cons. auto.
  - rewrite <- app_assoc. by apply Permutation_app.
Qed.

(** Staging a prepared configuration. *)
Definition stage (st : CliState) (h : Handle) (x : Snapshot) (needs : bool) : CliState :=
  st <| opened := h :: opened st |>
     <| cli := (cli st) <| candidate := x |> <| hasCandidate := true |> <| prepared := Some h |>
          <| needsSnapshot := needs |> <| readyGeneration := 0 |> <| state := SessionAwaitingReady |> |>.

Lemma stage_inv st h x needs :
  client_inv st -> h ∉ opened st -> state (cli st) <> SessionNew -> hasCandidate (cli st) = false ->
  client_config (cli st) x ->
  (hasActive (cli st) = true -> later (Snapshot.Generation (active (cli st))) (Snapshot.Generation x)) ->
  client_inv (stage st h x needs).
Proof.
  intros [] Hf Hnew Hc Hx Hl.
  assert (prepared (cli st) = None) as Hp.
  { destruct (prepared (cli st)) eqn:E; [|done]. rewrite (proj2 ci_staged0) in Hc; [done|eauto]. }
  constructor; cbn; try done; eauto.
  - split; eauto.
  - by apply NoDup_cons.
  - rewrite ci_accounts0, Hp. cbn. rewrite app_nil_r, !app_assoc. apply Permutation_cons_append.
Qed.

Lemma no_candidate_unprepared st :
  client_inv st ->
  hasCandidate (cli st) && match prepared (cli st) with Some _ => true | None => false end = false ->
  hasCandidate (cli st) = false.
Proof.
  intros [] H. destruct (hasCandidate (cli st)) eqn:Hc; [|done].
  destruct (proj1 ci_staged0 eq_refl) as [h Hh]. by rewrite Hh in H.
Qed.

(** The two halves up to the point where the configuration is staged: every
    other way out is a [calm] step from a balanced state. *)
Lemma wp_prepared abortReply base reply now st (k : Handle -> Cli Ack)
    (Q : result (Ack * goerror) Ack -> CliState -> Prop) :
  client_inv st -> fresh_reply reply st ->
  (forall e st', client_inv st' -> Q (Err e) st') ->
  (forall h, reply_prepared reply = Some h -> hasCandidate (cli st) = false ->
     wp (k h) Q (st <| opened := h :: opened st |>)) ->
  wp (h ← prepare_outcome abortReply base reply; restage_guard abortReply now h ;; k h) Q st.
Proof.
  intros Hinv Hfresh Herr Hok.
  assert (forall p e st', (forall h, p = Some h -> h ∉ opened st) -> calm (balanced st p) st' ->
    Q (Err e) st') as Hout.
  { intros p e st' Hf Hcalm. apply Herr. eapply calm_inv; [done|]. by apply balanced_inv. }
  assert (forall h : Handle, reply_prepared reply = Some h -> forall h', Some h = Some h' -> h' ∉ opened st)
    as Hf by (intros h Hh h' [= <-]; by apply Hfresh).
  unfold prepare_outcome, restage_guard. cli_run.
  all: try (by apply (Hout None); [done|destruct st; solve_calm]).
  all: try (by apply (Hout (reply_prepared reply)); [done|solve_calm]).
  all: try (by eapply (Hout (Some _)); [by apply Hf|]; solve_calm).
  apply Hok; [done|]. by apply (no_candidate_unprepared st).
Qed.

Lemma ApplySnapshotFinish_inv abortReply reply now x st :
  client_inv st -> fresh_reply reply st -> flight_inv st (PreparingSnapshot x) ->
  client_inv (snd (ApplySnapshotFinish abortReply reply now x st)).
Proof.
  intros Hinv Hf (Hnew & Hv & Hx & Hl).
  change (wp (ApplySnapshotFinish abortReply reply now x) (fun _ st' => client_inv st') st).
  unfold ApplySnapshotFinish. apply wp_prepared; [done|done|done|]. intros h Hh Hc. cli_run.
  apply (stage_inv st h _ false); auto.
  destruct Hx as [He Hp]. split; cbn; [|done]. unfold session_envelope in *. cbn. bool_prop.
  by rewrite !bool_decide_eq_true_2, Z.eqb_refl.
Qed.

Lemma ApplyDeltaFinish_inv abortReply reply now d st :
  client_inv st -> fresh_reply reply st -> flight_inv st (PreparingDelta d) ->
  client_inv (snd (ApplyDeltaFinish abortReply reply now d st)).
Proof.
  intros Hinv Hf (Hnew & Hv & He & Ha & Hprev).
  change (wp (ApplyDeltaFinish abortReply reply now d) (fun _ st' => client_inv st') st).
  unfold ApplyDeltaFinish. apply wp_prepared; [done|done|done|]. intros h Hh Hc. cli_run.
  apply Delta_Validate_payload in Hv as [Hp Hg].
  apply (stage_inv st h _ (needsSnapshot (cli st))); auto.
  - split; [|done]. unfold session_envelope in *. cbn. bool_prop.
    by rewrite !bool_decide_eq_true_2, Z.eqb_refl.
  - intros _. cbn. rewrite Hg, Hprev. apply later_succ.
    destruct (ci_active _ Hinv Ha) as [_ Hpa]. by eapply payload_valid_u64.
Qed.

(** The handle of the staged configuration leaves it: aborted or promoted. *)
Lemma leave_accounts (o a p : list Handle) h :
  o ≡ₚ a ++ p ++ [h] -> o ≡ₚ (h :: a) ++ p ++ [] /\ o ≡ₚ a ++ (h :: p) ++ [].
Proof.
  intros ->. rewrite !app_nil_r. split; simpl.
  - rewrite !app_assoc. symmetry. apply Permutation_cons_append.
  - apply Permutation_app_head. symmetry. apply Permutation_cons_append.
Qed.

Lemma MarkReadyFinish_inv abortReply activateErr ctxErr now h x rd st :
  client_inv st -> flight_inv st (Activating h x rd) ->
  client_inv (snd (MarkReadyFinish abortReply activateErr ctxErr now h x rd st)).
Proof.
  intros Hinv (Hnew & Hp & Hx & Hc).
  assert (same_staged (cli st) x = true) as Hsame.
  { unfold same_staged. by rewrite Hc, Hx, Z.eqb_refl, bool_decide_eq_true_2. }
  change (wp (MarkReadyFinish abortReply activateErr ctxErr now h x rd) (fun _ st' => client_inv st') st).
  destruct Hinv. rewrite Hp in ci_accounts0. destruct (leave_accounts _ _ _ _ ci_accounts0) as [H1 H2].
  unfold MarkReadyFinish. cli_run.
  1,2: cbn; rewrite Hsame; unfold Client_restoreStateLocked; cbn; rewrite andb_false_r; cbn;
    constructor; cbn; auto; try done; split; [done|by intros [? ?]].
  all: constructor; cbn; rewrite ?Hp; auto; try done.
  all: try (split; [by eauto|by intros [? ?]]).
  all: try (intros h' Hin; apply elem_of_cons in Hin as [->|Hin]; apply elem_of_cons; by auto).
  all: intros h' Hin; apply elem_of_cons; by auto.
Qed.

Lemma Client_Close_inv abortReply reason st :
  client_inv st -> client_inv (snd (Client_Close abortReply reason st)).
Proof.
  intros Hinv. change (wp (Client_Close abortReply reason) (fun _ st' => client_inv st') st).
  unfold Client_Close. cli_run; try done.
  all: destruct Hinv; constructor; cbn; auto; try done; try (split; [done|by intros [? ?]]).
  all: destruct (prepared (cli st)) as [h|] eqn:Hp; [|done];
    exact (proj1 (leave_accounts _ _ _ _ ci_accounts0)).
Qed.

Lemma cstep_ok abortReply w w' : world_ok w -> cstep abortReply w w' -> world_ok w'.
Proof.
  intros [Hinv Hfl] [].
  - split; cbn; [by apply (calm_inv (cw w)); [apply run_call_calm|]|].
    intros f Hf. apply (calm_flight (cw w)); [apply run_call_calm|auto].
  - match goal with H : ApplySnapshotBegin _ _ _ _ = _ |- _ =>
      destruct (ApplySnapshotBegin_ok _ _ _ _ _ _ Hinv H) as [Hc Hp] end.
    split; cbn; [by apply (calm_inv (cw w))|]. intros f Hf.
    destruct r as [[|]|]; simplify_eq. auto.
  - split; cbn; [|done]. auto using ApplySnapshotFinish_inv.
  - match goal with H : ApplyDeltaBegin _ _ _ _ = _ |- _ =>
      destruct (ApplyDeltaBegin_ok _ _ _ _ _ _ Hinv H) as [Hc Hp] end.
    split; cbn; [done|]. intros f Hf. destruct r as [[]|]; simplify_eq. auto.
  - split; cbn; [|done]. auto using ApplyDeltaFinish_inv.
  - match goal with H : MarkReadyBegin _ _ _ _ _ _ = _ |- _ =>
      destruct (MarkReadyBegin_ok _ _ _ _ _ _ _ _ H) as [Hc Hp] end.
    split; cbn; [by apply (calm_inv (cw w))|]. intros f Hf.
    destruct r as [[[? ?] ?]|]; simplify_eq. auto.
  - split; cbn; [|done]. auto using MarkReadyFinish_inv.
  - split; cbn; [|done]. by apply Client_Close_inv.
Qed.

Lemma NewClientSession_ok cfg now c : NewClientSession cfg now = Ok c -> world_ok (cli_init c).
Proof.
  unfold NewClientSession. intros. repeat case_match; simplify_eq;
    (split; [|done]; constructor; cbn; try done; [split; [done|by intros [? ?]]|constructor]).
Qed.

(** The states a new session can get to. *)
Definition cli_reachable (abortReply : Handle -> option goerror) (w : CliWorld) : Prop :=
  exists cfg now c, NewClientSession cfg now = Ok c /\ rtc (cstep abortReply) (cli_init c) w.

Lemma steps_ok abortReply w w' : rtc (cstep abortReply) w w' -> world_ok w -> world_ok w'.
Proof. induction 1; eauto using cstep_ok. Qed.

Lemma cli_reachable_ok abortReply w : cli_reachable abortReply w -> world_ok w.
Proof. intros (cfg & now & c & Hc & Hs). eauto using steps_ok, NewClientSession_ok. Qed.

(** ** Theorems *)

(** C23. In every reachable state of a client session, whatever the runtime replies and however
    the methods are interleaved at their unlocked points, the prepared configurations the
    runtime handed out are exactly the aborted ones, the activated ones that became active, and
    the one that is staged, each once; nothing is both used and aborted, and a prepared
    configuration is held exactly when a candidate is. *)
Theorem handles_are_accounted_for abortReply w :
  cli_reachable abortReply w ->
  let st := cw w in
  NoDup (opened st)
  /\ opened st ≡ₚ aborted st ++ promoted st ++ option_list (prepared (cli st))
  /\ (forall h, h ∈ promoted st -> h ∈ activated st /\ h ∉ aborted st)
  /\ (prepared (cli st) = None <-> hasCandidate (cli st) = false).
Proof.
  intros Hr. destruct (cli_reachable_ok _ _ Hr) as [[] _]. split_and!; try done.
  - intros h Hin. split; [by apply ci_activated0|]. intros Ha.
    rewrite ci_accounts0 in ci_fresh0. apply NoDup_app in ci_fresh0 as (_ & Hd & _).
    apply (Hd h Ha), elem_of_app. by left.
  - destruct (hasCandidate (cli (cw w))) eqn:Hc.
    + destruct (proj1 ci_staged0 eq_refl) as [h ->]. done.
    + split; [done|]. intros _. destruct (prepared (cli (cw w))) eqn:Hp; [|done].
      discriminate (proj2 ci_staged0 (ex_intro _ _ eq_refl)).
Qed.

(** Closing an open client session that no apply call is working on leaves it closed with
    the given reason and with no staged configuration: every configuration the runtime prepared
    was either aborted or became active. *)
Theorem close_releases_every_handle abortReply w reason :
  cli_reachable abortReply w -> applyMu w = None -> validDisconnectReason reason = true ->
  state (cli (cw w)) <> SessionClosed ->
  let st' := snd (Client_Close abortReply reason (cw w)) in
  state (cli st') = SessionClosed /\ disconnectReason (cli st') = reason
  /\ prepared (cli st') = None /\ opened st' ≡ₚ aborted st' ++ promoted st'.
Proof.
  intros Hr Hmu Hv Ho st'. destruct (cli_reachable_ok _ _ Hr) as [Hinv _].
  pose proof (Client_Close_inv abortReply reason _ Hinv) as [].
  assert (state (cli st') = SessionClosed /\ disconnectReason (cli st') = reason
    /\ prepared (cli st') = None) as (H1 & H2 & H3).
  { unfold st'. change (wp (Client_Close abortReply reason) (fun _ st' =>
      state (cli st') = SessionClosed /\ disconnectReason (cli st') = reason
      /\ prepared (cli st') = None) (cw w)).
    unfold Client_Close. cli_run; bool_prop; try done; congruence. }
  split_and!; try done. unfold st' in *. rewrite H3 in ci_accounts0. simpl in ci_accounts0.
  by rewrite app_nil_r in ci_accounts0.
Qed.

(** What a step can do to the active configuration. *)
Definition active_moves (w w' : CliWorld) : Prop :=
  let c := cli (cw w) in let c' := cli (cw w') in
  (active c' = active c /\ hasActive c' = hasActive c)
  \/ (hasActive c' = true /\ state c' = SessionReady
      /\ active c' = candidate c /\ hasCandidate c = true
      /\ exists h rd, applyMu w = Some (Activating h (candidate c) rd)
         /\ prepared c = Some h /\ h ∈ activated (cw w') /\ h ∈ promoted (cw w')).

Lemma calm_active st st' : calm st st' -> active (cli st') = active (cli st) /\ hasActive (cli st') = hasActive (cli st).
Proof. by intros ((_ & ? & ? & _) & _). Qed.

Lemma cstep_active abortReply w w' : world_ok w -> cstep abortReply w w' -> active_moves w w'.
Proof.
  intros [Hinv Hfl] []; unfold active_moves; cbn [cw].
  - left. apply calm_active, run_call_calm.
  - left. match goal with H : ApplySnapshotBegin _ _ _ _ = _ |- _ =>
      apply (ApplySnapshotBegin_ok _ _ _ _ _ _ Hinv) in H as [? _] end. by apply calm_active.
  - left. change (wp (ApplySnapshotFinish abortReply reply now x) (fun _ st' =>
      active (cli st') = active (cli (cw w)) /\ hasActive (cli st') = hasActive (cli (cw w))) (cw w)).
    unfold ApplySnapshotFinish, prepare_outcome, restage_guard. by cli_run.
  - left. match goal with H : ApplyDeltaBegin _ _ _ _ = _ |- _ => wp_of H end.
    unfold ApplyDeltaBegin. by cli_run.
  - left. change (wp (ApplyDeltaFinish abortReply reply now d) (fun _ st' =>
      active (cli st') = active (cli (cw w)) /\ hasActive (cli st') = hasActive (cli (cw w))) (cw w)).
    unfold ApplyDeltaFinish, prepare_outcome, restage_guard. by cli_run.
  - left. match goal with H : MarkReadyBegin _ _ _ _ _ _ = _ |- _ =>
      apply MarkReadyBegin_ok in H as [? _] end. by apply calm_active.
  - match goal with H : applyMu w = Some _ |- _ => destruct (Hfl _ H) as (Hnew & Hp & Hx & Hc) end.
    rewrite Hx.
    change (wp (MarkReadyFinish abortReply activateErr ctxErr now h x rd) (fun _ st' =>
      (active (cli st') = active (cli (cw w)) /\ hasActive (cli st') = hasActive (cli (cw w)))
      \/ (hasActive (cli st') = true /\ state (cli st') = SessionReady
          /\ active (cli st') = x /\ hasCandidate (cli (cw w)) = true
          /\ exists h0 rd0, applyMu w = Some (Activating h0 x rd0)
             /\ prepared (cli (cw w)) = Some h0
             /\ h0 ∈ activated st' /\ h0 ∈ promoted st')) (cw w)).
    unfold MarkReadyFinish. cli_run; try (by left).
    1,2: left; cbn; unfold Client_restoreStateLocked; repeat case_match; done.
    right. cbn. split_and!; try done. exists h, rd. split_and!; try done; apply elem_of_cons; by left.
  - left. change (wp (Client_Close abortReply reason) (fun _ st' =>
      active (cli st') = active (cli (cw w)) /\ hasActive (cli st') = hasActive (cli (cw w))) (cw w)).
    unfold Client_Close. by cli_run.
Qed.

(** C28. From every reachable state of a client session, the active configuration changes only
    when the activation of the staged candidate succeeded, it becomes that candidate, and its
    generation is then later than the previous one (or is generation 0 after 2^64-1, which a
    delta's wrapping successor admits). *)
Theorem client_active_moves_forward abortReply w w' :
  cli_reachable abortReply w -> cstep abortReply w w' ->
  active_moves w w'
  /\ (hasActive (cli (cw w)) = true ->
      active (cli (cw w')) = active (cli (cw w))
      \/ later (Snapshot.Generation (active (cli (cw w)))) (Snapshot.Generation (active (cli (cw w'))))).
Proof.
  intros Hr Hs. apply cli_reachable_ok in Hr as Hok. pose proof (cstep_active _ _ _ Hok Hs) as Hm.
  split; [done|]. intros Ha. destruct Hm as [[? _]|(_ & _ & -> & Hc & _)]; [by left|].
  right. destruct Hok as [[] _]. by apply ci_order0.
Qed.

(** ** A refused drain reopens a closed session *)

(** When a client session is closed while HandleDrain is waiting for the runtime and the
    runtime then refuses the drain, the session leaves the closed state; with an active ready
    configuration it becomes ready again. *)
Theorem refused_drain_reopens_closed_session err streams countErr request st d :
  state (cli st) = SessionClosed -> drain (cli st) = Some d ->
  Drain.DrainID d = Drain.DrainID request ->
  state (cli (snd (HandleDrainFinish (Some err) streams countErr request st))) <> SessionClosed
  /\ (hasActive (cli st) = true -> needsSnapshot (cli st) = false ->
      readyGeneration (cli st) = Snapshot.Generation (active (cli st)) ->
      state (cli (snd (HandleDrainFinish (Some err) streams countErr request st))) = SessionReady).
Proof.
  intros Hs Hd Hid.
  change (wp (HandleDrainFinish (Some err) streams countErr request) (fun _ st' =>
    state (cli st') <> SessionClosed
    /\ (hasActive (cli st) = true -> needsSnapshot (cli st) = false ->
        readyGeneration (cli st) = Snapshot.Generation (active (cli st)) ->
        state (cli st') = SessionReady)) st).
  unfold HandleDrainFinish. cli_run. cbn. unfold refuse_drain, drain_is. rewrite Hd, Hid.
  rewrite bool_decide_eq_true_2 by done. unfold Client_restoreStateLocked. cbn. split.
  - repeat case_match; done.
  - intros -> -> ->. by rewrite Z.eqb_refl.
Qed.
