(* ===== verification/Handshake.v ===== *)
(** * A session from hello to ready

    The two ends together: the welcome that [Server.Accept] returns, the
    snapshot it offers, the acknowledgement and the readiness report the
    connector answers with, and the promotion at the server.  Each step is
    shown to succeed, so the exchange completes whenever the runtime prepares
    and activates the configuration within one heartbeat interval. *)
From S2P Require Import Prelude GoText GoHash GoJson Errors Canonical Identifiers WireConfig.
From S2P Require Import Messages Negotiation Registry ServerSession ServerSafety ServerConfigFlow.
From S2P Require Import ServerWorld ClientSession ClientSafety.

(** ** The guards, when they pass *)





(** ** The server's steps *)



Section ServerSteps.
Import ServerSession.


End ServerSteps.

(** ** The connector's steps *)



Section ClientSteps.
Import ClientSession.
Context (abortReply : Handle -> option goerror).





End ClientSteps.

(** ** The welcome that [Accept] returns *)

Definition granted_to (auth : AuthResult) (hello : Hello) : Prop :=
  AuthResult.TunnelID auth = Hello.TunnelID hello /\ AuthResult.ConnectorID auth = Hello.ConnectorID hello
  /\ AuthResult.HostID auth = Hello.HostID hello
  /\ AuthResult.IdentityKeyID auth = AuthRequest.IdentityKeyID (Hello.Auth hello)
  /\ AuthResult.IdentityKeyThumbprint auth = AuthRequest.IdentityKeyThumbprint (Hello.Auth hello)
  /\ AuthResult.ProcessGeneration auth = Hello.ProcessGeneration hello.

Definition welcomes (cfg : ServerConfig) (now : time) (hello : Hello) (s : ServerSession) (w : Welcome)
    : Prop :=
  let l := ServerSession.lease s in
  Hello_Validate hello now = None
  /\ NegotiateVersion (Hello.MinVersion hello) (Hello.MaxVersion hello) = Ok ProtocolVersion
  /\ NegotiateCapabilities (Hello.Capabilities hello) (Capabilities cfg) = Ok (Welcome.Capabilities w)
  /\ w = Welcome.mk ProtocolName ProtocolVersion (SessionRef.SessionID (ServerSession.ref s))
           (Welcome.Capabilities w) l true now
  /\ Lease.SessionID l = SessionRef.SessionID (ServerSession.ref s)
  /\ Lease_Validate l now = None /\ (0 <= Lease.HeartbeatIntervalMS l < two32
      /\ Lease.HeartbeatIntervalMS l = to_u32 (HeartbeatInterval cfg `quot` Millisecond))
  /\ AuthResult.AccountID (ServerSession.auth s) = Hello.AccountID hello
  /\ granted_to (ServerSession.auth s) hello.

Lemma Accept_welcome authenticate snapshots sessionIDs cfg ctx now hello r x r' :
  Accept authenticate snapshots sessionIDs cfg ctx now hello r = (Ok x, r') ->
  welcomes cfg now hello (fst (fst x)) (snd (fst x)).
Proof.
  intros He. wp_of He.
  unfold Accept, failure. repeat (wp_step; cbv beta iota zeta); try done.
  unfold auth_matches_hello in *. bool_prop. cbn [fst snd].
  match goal with H : NegotiateVersion _ _ = Ok ?v |- _ =>
    assert (v = ProtocolVersion) as -> by (by apply negotiated_selects in H) end.
  unfold welcomes, granted_to. cbn. split_and!; try done;
    by destruct (Z.mod_pos_bound (HeartbeatInterval cfg `quot` Millisecond) two32 eq_refl).
Qed.

(** Accept is all or nothing. When it succeeds, the authenticator granted the hello's own
    identity, the session is attached in the registry under its connector with the hello's
    process generation, the welcome carries the negotiated version and common capabilities, and
    the lease ends at the earlier of the configured expiry and the granted one; when it fails,
    the registry is unchanged. *)
Theorem accepted_hello authenticate snapshots sessionIDs cfg ctx now hello r :
  match Accept authenticate snapshots sessionIDs cfg ctx now hello r with
  | (Ok (s, w, b), r') =>
      accepted authenticate sessionIDs cfg now hello r r' s w b /\ welcomes cfg now hello s w
  | (Err _, r') => r' = r
  end.
Proof.
  destruct (Accept _ _ _ _ _ _ _ r) as [[[[s w] b]|e] r'] eqn:E; [|by apply Accept_error in E].
  apply Accept_accepted in E as Ha. by apply Accept_welcome in E.
Qed.

(** A server that NewServer configured with a heartbeat interval below one millisecond
    refuses every hello and leaves the registry unchanged, because the interval in the lease is
    truncated to zero milliseconds. *)
Theorem short_heartbeat_refuses_all config cfg authenticate snapshots sessionIDs ctx now hello r :
  NewServer true true config = Ok cfg -> HeartbeatInterval cfg < Millisecond ->
  exists e, Accept authenticate snapshots sessionIDs cfg ctx now hello r = (Err e, r).
Proof.
  intros Hnew Hlt. assert (0 < HeartbeatInterval cfg) as Hpos.
  { unfold NewServer in Hnew. repeat case_match; simplify_eq; cbn; bool_prop; lia. }
  destruct (Accept _ _ _ _ _ _ _ r) as [[x|e] r'] eqn:E; [|apply Accept_error in E as ->; eauto].
  apply Accept_welcome in E as (_ & _ & _ & _ & _ & Hl & (_ & Hms) & _).
  rewrite Z.quot_small in Hms by lia. unfold Lease_Validate in Hl. rewrite Hms, orb_true_r in Hl. done.
Qed.

(** ** The whole exchange *)











