(* ===== verification/TransportSafety.v ===== *)
(** * What a served stream may do and what it leaves

    A connector is admitted only by a valid hello for the path of its stream,
    and when [Serve] returns, on whatever path, the session is closed, out of
    the registry and of the directory of active streams, and the store was told.
    The directory itself never lets an older stream remove a newer one. *)
From S2P Require Import Prelude GoText GoHash GoJson Errors Canonical Identifiers WireConfig GoStruct Messages.
From S2P Require Import RotationMessages Transcripts Frames Registry ServerSession ServerSafety ServerWorld.
From S2P Require Import Rotation Persistence PersistenceSafety PersistenceWorld Transport Handshake.
Import ServerSession.

(** ** The directory of active streams *)
Section Directory.
Import ActiveControlSession.

Lemma attach_cases s p err s' :
  attach s p = (err, s') ->
  (err = None /\ s' = <[key_of p := p]> s /\ ActiveControlSession_validate p = None
   /\ forall q, s !! key_of p = Some q -> ProcessGeneration q < ProcessGeneration p
        \/ (ProcessGeneration q = ProcessGeneration p /\ SessionID q = SessionID p))
  \/ (err <> None /\ s' = s).
Proof.
  unfold attach. destruct (ok (ActiveControlSession_validate p)) eqn:Hv; cbn; [|intros [= <- <-]; by right].
  apply ok_None in Hv. destruct (s !! key_of p) as [q|] eqn:E; cbn.
  2:{ intros [= <- <-]. left. split_and!; try done. }
  case_match eqn:Hc; intros [= <- <-]; [by right|left]. split_and!; try done. intros ? [= <-].
  apply orb_false_iff in Hc as [H1 H2]. apply Z.ltb_ge in H1. apply andb_false_iff in H2.
  destruct (decide (ProcessGeneration q = ProcessGeneration p)) as [E1|E1]; [|left; lia].
  right. split; [done|]. destruct H2 as [H2|H2]; [lia|]. by bool_prop.
Qed.

Lemma detach_lookup s p k q :
  detach s p !! k = Some q -> s !! k = Some q
    /\ (k = key_of p -> SessionID q = SessionID p -> ProcessGeneration q <> ProcessGeneration p).
Proof.
  unfold detach. intros H. destruct (s !! key_of p) as [c|] eqn:E.
  - case_match eqn:Hc.
    + apply lookup_delete_Some in H as [Hne H]. split; [done|]. by intros ->.
    + split; [done|]. intros -> Hs Hg. simplify_eq. rewrite Hs, Hg, bool_decide_eq_true_2, Z.eqb_refl in Hc by done.
      done.
  - split; [done|]. intros ->. congruence.
Qed.
Lemma detach_other s p q : s !! key_of p = Some q ->
  (SessionID q, ProcessGeneration q) <> (SessionID p, ProcessGeneration p) -> detach s p = s.
Proof.
  unfold detach. intros -> Hne. case_match eqn:H; [|done]. bool_prop.
  exfalso. apply Hne. f_equal; [done|lia].
Qed.

Lemma Lookup_Some s t c i g p :
  Lookup s t c i g = Some p ->
  s !! controlSessionKey t c = Some p /\ SessionID p = i /\ ProcessGeneration p = g.
Proof.
  unfold Lookup. case_match eqn:H0; [done|]. destruct (s !! controlSessionKey t c) as [q|] eqn:E; [|done].
  case_match eqn:Hc; [done|]. intros [= <-]. apply orb_false_iff in Hc as [H1 H2]. by bool_prop.
Qed.

Lemma detach_Lookup s p : Lookup (detach s p) (TunnelID p) (ConnectorID p) (SessionID p) (ProcessGeneration p) = None.
Proof.
  destruct (Lookup _ _ _ _ _) as [q|] eqn:E; [|done]. apply Lookup_Some in E as (E & Hs & Hg).
  by apply detach_lookup in E as [_ H]; apply H in Hs.
Qed.

(** The directory of active streams: an attached session is found by its exact session and
    generation, replaces only entries that are not newer and no other connector's entry, a
    refused attachment changes nothing, a detached session is not found, and detaching never
    removes an entry of another session. *)
Theorem directory_is_fenced s p :
  (forall s', attach s p = (None, s') ->
     Lookup s' (TunnelID p) (ConnectorID p) (SessionID p) (ProcessGeneration p) = Some p
     /\ (forall k, k <> key_of p -> s' !! k = s !! k)
     /\ forall q, s !! key_of p = Some q -> ProcessGeneration q <= ProcessGeneration p)
  /\ (forall e s', attach s p = (Some e, s') -> s' = s)
  /\ Lookup (detach s p) (TunnelID p) (ConnectorID p) (SessionID p) (ProcessGeneration p) = None
  /\ (forall k q, s !! k = Some q ->
        (SessionID q, ProcessGeneration q) <> (SessionID p, ProcessGeneration p) -> detach s p !! k = Some q).
Proof.
  split_and!.
  - intros s' H. apply attach_cases in H as [(_ & -> & Hv & Hg)|[? _]]; [|done]. split_and!.
    + unfold Lookup. change (controlSessionKey (TunnelID p) (ConnectorID p)) with (key_of p). rewrite lookup_insert_eq. unfold ActiveControlSession_validate in Hv.
      case_match eqn:Hc; [done|]. bool_prop. rewrite !ids_ok_cons in *. destruct_and!.
      assert (ids_ok [TunnelID p; ConnectorID p; SessionID p] = true) as -> by (by rewrite !ids_ok_cons).
      rewrite (proj2 (Z.eqb_neq _ _)), bool_decide_eq_true_2, Z.eqb_refl by done. done.
    + intros k Hk. by rewrite lookup_insert_ne.
    + intros q Hq. destruct (Hg q Hq) as [?|[? _]]; lia.
  - intros e s' H. by apply attach_cases in H as [(? & _)|[_ ?]].
  - apply detach_Lookup.
  - intros k q Hq Hne. destruct (decide (k = key_of p)) as [->|Hk]; [by rewrite (detach_other s p q)|].
    unfold detach. repeat case_match; rewrite ?lookup_delete_ne by done; done.
Qed.
End Directory.

(** ** Sessions under a transport *)

(** The registry is well formed and holds no closed session of ours. *)
Definition srv_ok (st : SrvState) : Prop :=
  registry_wf (registry st)
  /\ (state (sess st) = SessionClosed ->
      registry st !! SessionRef.ConnectorID (ref (sess st)) <> Some (ref (sess st))).

Lemma session_step_ok st st' : session_step st st' -> srv_ok st -> srv_ok st' /\ ref (sess st') = ref (sess st).
Proof.
  intros [c ->] [Hwf Hno]. assert (ref (sess (snd (exec c st))) = ref (sess st)) as Hr by apply (exec_frame c).
  split; [|done]. split; [by apply exec_registry_wf|]. rewrite Hr. intros Hcl Hl.
  destruct (exec_registry c st _ _ Hwf Hl) as [Hold Hopen].
  destruct (decide (state (sess st) = SessionClosed)) as [E|E]; [by apply Hno in E|by apply Hopen in E].
Qed.
Lemma session_steps_ok st st' :
  rtc session_step st st' -> srv_ok st -> srv_ok st' /\ ref (sess st') = ref (sess st).
Proof.
  induction 1 as [|st st1 st2 Hs _ IH]; [done|]. intros Hok.
  destruct (session_step_ok _ _ Hs Hok) as [Hok1 <-]. by apply IH.
Qed.

Section Serve.
Context {Sto : Type} `{!PersistentControlStore Sto} {W : Type} `{!Writer W}.
Context (VerifyAuth : AuthRequest -> string -> list Z -> option goerror).
Context (VerifyRenewal : RenewalRequest -> string -> list Z -> option goerror).
Context (cfg : ServerConfig).
Implicit Type x : Served (Sto := Sto) (W := W).

Definition srv_of x : SrvState := mkSrv (sh_registry (sv_shared x)) (sv_session x).
(** What serving the session with reference [r] keeps. *)
Definition serves (r : SessionRef) x : Prop := srv_ok (srv_of x) /\ ref (sv_session x) = r.
Definition respects (f : Served (Sto := Sto) (W := W) -> Served) : Prop :=
  forall r x, serves r x -> serves r (f x).

(** What the rest of the program does while a stream is served: a method of this
    session or of another one, another hello that is accepted under an identifier
    of its own, and anything to the store, the directory and the output. *)
Inductive beside x : Served (Sto := Sto) (W := W) -> Prop :=
| beside_own c :
    let st := snd (exec c (srv_of x)) in
    beside x (mkServed ((sv_shared x) <| sh_registry := registry st |>) (sess st))
| beside_session s c :
    beside x (x <| sv_shared := (sv_shared x) <| sh_registry :=
                registry (snd (exec c (mkSrv (sh_registry (sv_shared x)) s))) |> |>)
| beside_hello authenticate snapshots ids cfg' ctx now hello s welcome first r' :
    Accept authenticate snapshots ids cfg' ctx now hello (sh_registry (sv_shared x)) = (Ok (s, welcome, first), r') ->
    SessionRef.SessionID (ref s) <> SessionRef.SessionID (ref (sv_session x)) ->
    beside x (x <| sv_shared := (sv_shared x) <| sh_registry := r' |> |>)
| beside_rest store active out :
    beside x (mkServed (mkShared (sh_registry (sv_shared x)) store active out) (sv_session x)).
Definition alongside (f : Served (Sto := Sto) (W := W) -> Served) : Prop := forall x, rtc beside x (f x).

Lemma beside_serves r x x' : beside x x' -> serves r x -> serves r x'.
Proof.
  intros Hb [[Hwf Hno] Hr]. destruct Hb as [c st|s c|au sn ids cfg' ctx now hello s wel first r' Ha Hid|store active out].
  - destruct (session_step_ok (srv_of x) st (ex_intro _ c eq_refl) (conj Hwf Hno)) as [Hok Href].
    split; [|cbn in *; congruence]. unfold srv_of. cbn. by destruct st.
  - split; [|done]. split; [by apply exec_registry_wf|]. cbn. intros Hcl Hl.
    destruct (exec_registry c (mkSrv (sh_registry (sv_shared x)) s) _ _ Hwf Hl) as [Hold _]. by apply Hno in Hcl.
  - apply Accept_accepted in Ha as (_ & [res Hat] & _). cbn [fst snd] in Hat. split; [|done].
    pose proof (Attach_wf (sh_registry (sv_shared x)) (ref s) Hwf) as Hwf'. rewrite Hat in Hwf'.
    split; [exact Hwf'|]. cbn. intros Hcl Hl. apply Attach_ok_inv in Hat as (_ & -> & _).
    apply lookup_insert_Some in Hl as [[_ E]|[_ Hl]]; [by rewrite E in Hid|by apply Hno in Hcl].
  - by split.
Qed.
Lemma alongside_respects f : alongside f -> respects f.
Proof.
  intros Hf r x Hx. specialize (Hf x). induction Hf as [|x y z Hs _ IH]; [done|]. by eapply IH, beside_serves.
Qed.

(** A dispatcher that does no more. *)
Record well_behaved (d : Dispatcher (Sto := Sto) (W := W)) : Prop := {
  wb_register m hello welcome : alongside (fun x => snd (RegisterSession d m hello welcome x));
  wb_detach r : alongside (DetachSession d r);
  wb_handle m r f : alongside (fun x => snd (HandleFrame d m r f x));
}.
Definition all_well_behaved (o : option Dispatcher) : Prop := forall d, o = Some d -> well_behaved d.

(** One that keeps its routes in the store, as the dispatchers of the program do. *)
Lemma store_only f : (forall x, exists s, f x = x <| sv_shared := (sv_shared x) <| sh_store := s |> |>) -> alongside f.
Proof.
  intros Hf x. destruct (Hf x) as [s ->]. apply rtc_once.
  exact (beside_rest x s (sh_active (sv_shared x)) (sh_out (sv_shared x))).
Qed.

Lemma on_session_serves {A} r (m : Per (S := Sto) A) :
  (forall p, rtc session_step (mem p) (mem (snd (m p)))) -> preserves (serves r) (on_session m).
Proof.
  intros Hm x [Hok Hr]. unfold on_session.
  specialize (Hm (mkPersistent (srv_of x) (sh_store (sv_shared x)))). unfold srv_of in Hm. cbn [mem] in Hm.
  destruct (m _) as [res p]. cbn [snd] in Hm. apply session_steps_ok in Hm as [Hok' Hr']; [|done].
  split; [|cbn in *; congruence]. unfold srv_of. cbn. by destruct (mem p).
Qed.

(** A method that returns a value is a call of [pexec] up to the value. *)
Lemma pexec_value {A} c (m : Per (S := Sto) A) :
  pexec VerifyRenewal c = (m ;; ret tt) -> forall p, rtc session_step (mem p) (mem (snd (m p))).
Proof.
  intros H p. pose proof (pexec_runs VerifyRenewal c p) as Hr. rewrite H, mbind_unfold in Hr.
  by destruct (m p) as [[?|?] ?].
Qed.

Ltac serves_step :=
  match goal with
  | |- preserves _ (_ ≫= _) => apply preserves_mbind; [|intros]
  | |- preserves _ (fail_if _ _) => apply preserves_fail_if
  | |- preserves _ (throw _) => apply preserves_throw
  | |- preserves _ (lift _) => apply preserves_lift
  | |- preserves _ (check _) => apply preserves_check
  | |- preserves _ (ret _) => apply preserves_ret
  | |- preserves _ reference => by intros ?
  | |- preserves _ (if ?b then _ else _) => destruct b
  end.

Lemma handle_serves r m rotation frame :
  all_well_behaved rotation -> preserves (serves r) (handleControlFrame VerifyRenewal m rotation frame).
Proof.
  intros Hd. unfold handleControlFrame. repeat serves_step; try (apply on_session_serves; intros).
  - by apply (pexec_runs VerifyRenewal (PHandleAck _ _ _)).
  - match goal with |- rtc _ _ (mem (snd (Persistent_HandleReadiness ?a ?b ?c _))) =>
      by apply (pexec_value (PHandleReadiness a b c)) end.
  - match goal with |- rtc _ _ (mem (snd (Persistent_HandleHeartbeat ?a ?b ?c _))) =>
      by apply (pexec_value (PHandleHeartbeat a b c)) end.
  - match goal with |- rtc _ _ (mem (snd (Persistent_Renew _ ?a ?b ?c ?d ?e _))) =>
      by apply (pexec_value (PRenew a b c d e)) end.
  - by apply (pexec_runs VerifyRenewal (PHandleDrainAck _ _ _)).
  - destruct rotation as [d|]; repeat serves_step. intros x Hx.
    match goal with |- context [HandleFrame d m ?q frame x] =>
      pose proof (alongside_respects _ (wb_handle d (Hd d eq_refl) m q frame) r x Hx) as H end.
    cbv beta in H. by destruct (HandleFrame _ _ _ _ _).
Qed.

Lemma send_serves m f : respects (fun x => snd (send_frame m f x)).
Proof. intros r x Hx. unfold send_frame. by destruct (Send m f _). Qed.
Lemma reject_serves m a q e : respects (writeControlReject m a q e).
Proof. intros r x Hx. unfold writeControlReject. case_match; [by apply send_serves|done]. Qed.

(** ** The loop *)

Lemma ReadFull_shorter n r s rest : ReadFull n r = (Ok s, rest) -> String.length r = (n + String.length rest)%nat.
Proof.
  unfold ReadFull. destruct (n <=? String.length r)%nat eqn:E; [|done]. intros [= _ <-].
  apply Nat.leb_le in E. revert r E. induction n as [|n IH]; intros r E; [done|].
  destruct r; cbn in *; [lia|]. rewrite <- IH; lia.
Qed.
Lemma read_shorter m reader f rest :
  read_frame (Sto := Sto) (W := W) m reader = (Ok f, rest) -> (String.length rest < String.length reader)%nat.
Proof.
  unfold read_frame. destruct (m_readErr m); [done|]. unfold ReadFrame.
  destruct (ReadFull 4 reader) as [[p|e] r1] eqn:E1; [|done]. apply ReadFull_shorter in E1.
  destruct (Uint32 p =? 0); [done|]. destruct (MaxFrameBytes <? Uint32 p); [done|].
  destruct (ReadFull _ r1) as [[b|e] r2] eqn:E2; [|done]. apply ReadFull_shorter in E2.
  destruct (_ || _); [done|]. destruct (decodeStrict _ _ b) as [f0|]; [|done].
  destruct (Frame_Validate f0); [done|]. cbn. intros [= _ <-]. lia.
Qed.

(** Any fuel above the length of the input gives the same result. *)
Lemma serve_loop_fuel env rotation a event n n' i reader x :
  (String.length reader < n)%nat -> (String.length reader < n')%nat ->
  serve_loop VerifyRenewal env rotation a event n i reader x
  = serve_loop VerifyRenewal env rotation a event n' i reader x.
Proof.
  revert n' i reader x. induction n as [|n IH]; intros n' i reader x H H'; [lia|].
  destruct n' as [|n']; [lia|]. cbn [serve_loop].
  destruct (read_frame (env i) reader) as [[f|e] rest] eqn:E; [|done]. apply read_shorter in E.
  destruct (handleControlFrame _ _ _ _ _) as [[[response terminal]|e] x1]; [|done].
  destruct (match response with Some f => _ | None => _ end) as [[e|] x2]; [done|].
  destruct terminal; [done|]. apply IH; lia.
Qed.

Context (env : nat -> Moment (Sto := Sto) (W := W)) (last : Moment (Sto := Sto) (W := W)).
Context (rotation drain : option (Dispatcher (Sto := Sto) (W := W))).
Hypothesis env_beside : forall i, alongside (m_between (env i)).
Hypothesis last_beside : alongside (m_between last).
Hypothesis rotation_ok : all_well_behaved rotation.
Hypothesis drain_ok : all_well_behaved drain.

Lemma env_respects i : respects (m_between (env i)).
Proof using env_beside. by apply alongside_respects. Qed.
Lemma last_respects : respects (m_between last).
Proof using last_beside. by apply alongside_respects. Qed.

Lemma serve_loop_serves r a event n i reader x :
  serves r x -> serves r (snd (serve_loop VerifyRenewal env rotation a event n i reader x)).
Proof using env_beside rotation_ok.
  revert i reader x. induction n as [|n IH]; intros i reader x Hx; [done|]. cbn [serve_loop].
  apply (env_respects i) in Hx. destruct (read_frame (env i) reader) as [[f|e] rest].
  2:{ destruct (ctx_Err _); [done|]. by destruct (_ || _). }
  pose proof (handle_serves r (env i) rotation f rotation_ok _ Hx) as Hh.
  destruct (handleControlFrame _ _ _ _ _) as [[[response terminal]|e] x1]; cbn [snd] in Hh.
  2:{ by apply reject_serves. }
  assert (serves r (snd (match response with Some f => send_frame (env i) f x1 | None => (None, x1) end))) as Hs.
  { destruct response; [by apply send_serves|done]. }
  destruct (match response with Some f => _ | None => _ end) as [[e|] x2]; [done|].
  destruct terminal; [done|]. by apply IH.
Qed.

(** The only frame that ends the loop in order is a disconnect, and its reason is
    one that a session can be closed with. *)
Ltac any_run :=
  match goal with
  | |- wp ?m _ ?x => unfold wp at 1; destruct (m x) as [[?|?] ?]; cbn [fst snd]
  end.
Lemma handle_terminal m d frame x response x' :
  handleControlFrame VerifyRenewal m d frame x = (Ok (response, true), x') -> Frame.Type_ frame = MessageDisconnect.
Proof.
  intros H.
  assert (wp (handleControlFrame VerifyRenewal m d frame)
    (fun r _ => match r with Ok (_, true) => Frame.Type_ frame = MessageDisconnect | _ => True end) x) as Hw.
  2:{ unfold wp in Hw. rewrite H in Hw. exact Hw. }
  clear. unfold handleControlFrame. repeat wp_step; try done; bool_prop; try done;
    any_run; try done; repeat wp_step; try done.
  any_run; try done; repeat wp_step; done.
Qed.

Lemma decoded_disconnect_reason frame value :
  Frame.Type_ frame = MessageDisconnect -> DecodePayload Disconnect_fields Disconnect.zero frame = Ok value ->
  validDisconnectReason (Disconnect.Reason value) = true.
Proof.
  unfold DecodePayload, Frame_Validate. intros Ht H. rewrite Ht in H.
  destruct (negb (allowed MessageDisconnect)); [done|]. destruct (_ || _); [done|].
  destruct (validatePayloadJSON _); [done|].
  change (validateMessagePayload MessageDisconnect (Frame.Payload frame))
    with (payload_check Disconnect_fields Disconnect.zero Disconnect_Validate (Frame.Payload frame)) in H.
  unfold payload_check in H. destruct (decodeStrict _ _ _) as [v|] eqn:E; [|done].
  destruct (Disconnect_Validate v) eqn:Hv; [done|]. simplify_eq. unfold Disconnect_Validate in Hv.
  case_match eqn:Hc; [done|]. by bool_prop.
Qed.

Lemma serve_loop_reason a event n i reader x :
  validDisconnectReason
    (en_reason (fst (serve_loop VerifyRenewal env rotation a event n i reader x))) = true.
Proof.
  revert i reader x. induction n as [|n IH]; intros i reader x; [done|]. cbn [serve_loop].
  destruct (read_frame (env i) reader) as [[f|e] rest].
  2:{ destruct (ctx_Err _); [done|]. by destruct (_ || _). }
  destruct (handleControlFrame _ _ _ _ _) as [[[response terminal]|e] x1] eqn:Hh; [|done].
  destruct (match response with Some f => _ | None => _ end) as [[e|] x2]; [done|].
  destruct terminal; [|by apply IH]. apply handle_terminal in Hh. cbn.
  destruct (DecodePayload _ _ _) eqn:Hd; [by apply (decoded_disconnect_reason f)|done].
Qed.

(** ** The whole stream *)

Lemma register_serves d m hello welcome :
  all_well_behaved d -> respects (fun x => snd (register d m hello welcome x)).
Proof. intros Hd r x Hx. destruct d as [d|]; [|done]. by apply (alongside_respects _ (wb_register d (Hd d eq_refl) m hello welcome)). Qed.
Lemma unregister_serves d : all_well_behaved d -> respects (unregister d).
Proof. intros Hd r x Hx. destruct d as [d|]; [|done]. by apply (alongside_respects _ (wb_detach d (Hd d eq_refl) _)). Qed.

(** What the session part leaves for the deferred calls. *)
Definition session_left (r : SessionRef)
    (res : Ended * Served (Sto := Sto) (W := W) * (option Dispatcher * option Dispatcher)) : Prop :=
  serves r (snd (fst res)) /\ validDisconnectReason (en_reason (fst (fst res))) = true
  /\ all_well_behaved (fst (snd res)) /\ all_well_behaved (snd (snd res)).

Lemma no_dispatcher : all_well_behaved None.
Proof. by intros d. Qed.

Lemma stop_left r err event x a b :
  serves r x -> all_well_behaved a -> all_well_behaved b ->
  session_left r (mkEnded err event ReasonProtocolClosed, x, (a, b)).
Proof. by intros. Qed.

Lemma serve_session_left r hello welcome snapshot q random event reader x :
  serves r x ->
  session_left r (serve_session VerifyRenewal env rotation drain hello welcome snapshot q random event reader x).
Proof using env_beside rotation_ok drain_ok.
  intros Hx. unfold serve_session. cbv zeta. pose proof no_dispatcher as Hn.
  destruct (NewFrame MessageWelcome _ _) as [f1|]; [|by apply stop_left].
  pose proof (send_serves (env 1%nat) f1 r _ (env_respects 1%nat r x Hx)) as H1.
  cbv beta in H1. destruct (send_frame _ f1 _) as [[e|] x1]; [by apply stop_left|]. cbn [snd] in H1.
  destruct (newOpaqueID random "snapshot") as [q2|]; [|by apply stop_left].
  destruct (NewFrame MessageSnapshot _ _) as [f2|]; [|by apply stop_left].
  pose proof (send_serves (env 2%nat) f2 r _ (env_respects 2%nat r x1 H1)) as H2.
  cbv beta in H2. destruct (send_frame _ f2 _) as [[e|] x2]; [by apply stop_left|]. cbn [snd] in H2.
  pose proof (register_serves rotation (env 3%nat) hello welcome rotation_ok r _ (env_respects 3%nat r x2 H2)) as H3.
  cbv beta in H3. destruct (register rotation _ _ _ _) as [[e|] x3]; [by apply stop_left|]. cbn [snd] in H3.
  pose proof (register_serves drain (env 4%nat) hello welcome drain_ok r _ (env_respects 4%nat r x3 H3)) as H4.
  cbv beta in H4. destruct (register drain _ _ _ _) as [[e|] x4]; [by apply stop_left|]. cbn [snd] in H4.
  split_and!; cbn [fst snd]; [by apply serve_loop_serves|apply serve_loop_reason|done|done].
Qed.

(** A session is closed, out of the registry, and its end was recorded. *)
Definition ended_session x : Prop :=
  state (sv_session x) = SessionClosed
  /\ sh_registry (sv_shared x) !! SessionRef.ConnectorID (ref (sv_session x)) <> Some (ref (sv_session x))
  /\ exists before reply,
       RecordDisconnected (ref (sv_session x)) (Session_Disconnect (sv_session x)) before
       = (reply, sh_store (sv_shared x)).

Lemma Persistent_Close_run reason (p : PersistentState (S := Sto)) :
  validDisconnectReason reason = true ->
  exists res st' reply s', Persistent_Close (LiveContext None) reason p = (res, mkPersistent st' s')
    /\ Close reason (mem p) = (Ok tt, st') /\ state (sess st') = SessionClosed
    /\ RecordDisconnected (ref (sess st')) (Session_Disconnect (sess st')) (durable p) = (reply, s').
Proof.
  intros Hv. destruct (Close_closes reason (mem p) Hv) as (st' & Hc & Hcl).
  destruct (RecordDisconnected (ref (sess st')) (Session_Disconnect (sess st')) (durable p)) as [reply s'] eqn:E.
  exists (match reply with
    | Some err => Err (codeError ErrSessionConflict ReasonProtocolClosed false (Some err))
    | None => Ok tt end), st', reply, s'. split_and!; [|done..].
  unfold Persistent_Close, recordDisconnectedBounded, session, in_store, current, mbind, M_bind, bind.
  cbn -[Close]. rewrite Hc. cbn. rewrite E. by destruct reply.
Qed.

Lemma close_ends r reason x :
  validDisconnectReason reason = true -> serves r x ->
  let x' := snd (on_session (Persistent_Close (LiveContext None) reason) x) in
  ended_session x' /\ serves r x' /\ sh_active (sv_shared x') = sh_active (sv_shared x)
  /\ sh_out (sv_shared x') = sh_out (sv_shared x).
Proof.
  intros Hv Hx x'.
  assert (serves r x') as Hx'.
  { apply (on_session_serves r (Persistent_Close (LiveContext None) reason)); [|done].
    intros p. apply (pexec_runs (fun _ _ _ => None) (PClose _ _)). }
  subst x'. unfold on_session in *.
  destruct (Persistent_Close_run reason (mkPersistent (srv_of x) (sh_store (sv_shared x))) Hv)
    as (res & st' & reply & s' & E & _ & Hcl & Hrec). unfold srv_of in *. rewrite E in *. cbn in *.
  split_and!; [|done..]. destruct Hx' as [[_ Hno] _]. split_and!; [done|by apply Hno|eauto].
Qed.

Lemma serve_cleanup_ends r registered projection ended x :
  session_left r (ended, x, registered) ->
  let x' := snd (serve_cleanup last registered projection ended x) in
  ended_session x' /\ ref (sv_session x') = r
  /\ exists active, sh_active (sv_shared x') = detach active projection.
Proof using last_beside.
  intros (Hx & Hv & Hd1 & Hd2). cbn [fst snd] in *. unfold serve_cleanup.
  set (reason := if negb (ok (ctx_Err (m_ctx last))) then ReasonServerShutdown else en_reason ended).
  assert (validDisconnectReason reason = true) as Hr by (subst reason; by case_match).
  assert (serves r (unregister (fst registered) (unregister (snd registered) (m_between last x)))) as Hs.
  { apply unregister_serves; [done|]. apply unregister_serves; [done|]. by apply last_respects. }
  pose proof (close_ends r reason _ Hr Hs) as (He & Hs' & _).
  destruct (on_session _ _) as [closed x1]. cbn in *. split_and!; [done|apply Hs'|eauto].
Qed.

(** ** Admission *)

(** An admitted session starts open, under the reference of its hello. *)
Lemma admitted ctx now authNow ids hello r s session welcome snapshot r' s' :
  registry_wf r ->
  PersistentServer_Accept VerifyAuth cfg ctx now authNow ids hello (r, s)
    = (Ok (session, welcome, snapshot), (r', s')) ->
  registry_wf r' /\ state session = SessionAwaitingSnapshot
  /\ ref session = SessionRef.mk (Hello.TunnelID hello) (Hello.ConnectorID hello) (Welcome.SessionID welcome)
                     (Hello.ProcessGeneration hello)
  /\ ids = Ok (Welcome.SessionID welcome).
Proof.
  intros Hwf Hrun. pose proof (Persistent_Accept_outcome VerifyAuth cfg ctx now authNow ids hello r s) as Ho.
  cbn zeta in Ho. rewrite Hrun in Ho. cbn [fst snd] in Ho. inversion Ho as [? ? ? ? ? ? ? ? ? _ _ HA _| |]; subst.
  apply Accept_accepted in HA as Hacc. apply Accept_welcome in HA as Hw. cbn [fst snd] in *.
  destruct Hacc as (_ & [res Hat] & Hst & _ & _ & _ & _ & _ & _ & _ & Hid & _ & Hc & Ht & Hg & _).
  destruct Hw as (_ & _ & _ & Hw & _).
  pose proof (Attach_wf r (ref session) Hwf) as Hwf'. rewrite Hat in Hwf'. rewrite Hw. cbn.
  split_and!; [done..| |done]. rewrite <- Hc, <- Ht, <- Hg. by destruct (ref session).
Qed.

(** C29. Whatever bytes a connector sends and however the context, the store and the writer
    behave, when Serve returns for an admitted connector its session is closed and no longer in
    the registry, the store was asked to record the disconnect, and the directory of active
    streams does not find the session. The rest of the program may run methods of this and of
    other sessions, accept hellos under other identifiers and do anything to the store, the
    directory and the output meanwhile; the dispatchers may do no more than that, as is shown of
    the rotation and the drain dispatcher; the session identifier is not in the directory
    before. *)
Theorem serve_leaves_nothing tunnelID connectorID ids random reader sh session :
  registry_wf (sh_registry sh) ->
  (forall id t c g, ids = Ok id -> Lookup (sh_active sh) t c id g = None) ->
  let rep := Serve VerifyAuth VerifyRenewal cfg env last rotation drain tunnelID connectorID ids random reader sh in
  rp_session rep = Some session ->
  ended_session (mkServed (rp_shared rep) session)
  /\ let r := ref session in
     Lookup (sh_active (rp_shared rep)) (SessionRef.TunnelID r) (SessionRef.ConnectorID r)
       (SessionRef.SessionID r) (SessionRef.ProcessGeneration r) = None.
Proof using env_beside last_beside rotation_ok drain_ok.
  intros Hwf Hfresh rep. unfold Serve in rep. subst rep. cbv zeta.
  destruct (_ || _); [done|]. destruct (read_frame _ _) as [[first|e] rest]; [|by case_match].
  destruct (Frame.Type_ first != MessageHello); [done|].
  destruct (DecodePayload _ _ first) as [hello|]; [|done]. destruct (_ || _); [done|].
  destruct (PersistentServer_Accept _ _ _ _ _ _ _ _) as [[[[s0 welcome] snapshot]|e] [r' s']] eqn:Hrun; [|done].
  apply admitted in Hrun as (Hwf' & Hst & Href & Hid); [|done].
  set (x0 := mkServed _ s0). assert (serves (ref s0) x0) as Hx0.
  { split; [|done]. split; [done|]. cbn. by rewrite Hst. }
  destruct (attach _ _) as [[e|] active] eqn:Ha.
  - pose proof (close_ends (ref s0) ReasonSessionReplaced x0 eq_refl Hx0) as (He & [_ Hr] & Hact & _).
    destruct (on_session _ x0) as [res x1]. cbn [snd rp_session rp_shared] in *. intros [= <-].
    split; [by destruct x1|]. cbv zeta. rewrite Hact, Hr, Href. by apply Hfresh.
  - match goal with |- context [serve_session _ _ _ _ _ _ _ ?q _ ?ev _ ?x] =>
      pose proof (serve_session_left (ref s0) hello welcome snapshot q random ev rest x) as Hl end.
    destruct (serve_session _ _ _ _ _ _ _ _ _ _ _ _) as [[ended x1] registered].
    specialize (Hl Hx0). apply (serve_cleanup_ends _ _ (projection_of hello welcome snapshot)) in Hl.
    destruct (serve_cleanup _ _ _ _ _) as [err x2]. cbn [snd rp_session rp_shared] in *. intros [= <-].
    destruct Hl as (He & Hr & active' & Hact). split; [by destruct x2|]. cbv zeta.
    rewrite Hact, Hr, Href. apply (detach_Lookup active' (projection_of hello welcome snapshot)).
Qed.

(** A stream that is served began with a hello for its path, proved and
    granted; any other is refused without an answer. *)
Definition hello_for (tunnelID connectorID reader : string) (authNow : time) (s : Sto) : Prop :=
  exists first hello proof a s1,
    fst (ReadFrame (Some reader)) = Ok first /\ Frame.Type_ first = MessageHello
    /\ DecodePayload Hello_fields Hello.zero first = Ok hello
    /\ Hello.TunnelID hello = tunnelID /\ Hello.ConnectorID hello = connectorID
    /\ verified_auth VerifyAuth authNow (Hello.Auth hello) = Ok proof
    /\ AuthenticateConnector (Hello.Auth hello) s = (Ok a, s1)
    /\ sameAuthIdentity (Hello.Auth hello) a = true.

(** C30. Serve admits a connector only if the stream begins with a valid hello frame for the
    tunnel and connector of its path whose proof verified and whose identity the store granted;
    otherwise nothing is written to the peer and the directory of active streams is unchanged. *)
Theorem serve_admits_its_path tunnelID connectorID ids random reader sh :
  let rep := Serve VerifyAuth VerifyRenewal cfg env last rotation drain tunnelID connectorID ids random reader sh in
  match rp_session rep with
  | Some _ => hello_for tunnelID connectorID reader (m_authNow (env 0%nat)) (sh_store sh)
  | None => sh_out (rp_shared rep) = sh_out sh /\ sh_active (rp_shared rep) = sh_active sh
      /\ (sh_registry (rp_shared rep) = sh_registry sh
          \/ sh_registry (rp_shared rep) = delete connectorID (sh_registry sh))
  end.
Proof.
  intros rep. unfold Serve in rep. subst rep. cbv zeta.
  destruct (_ || _); [by split_and!; auto|]. destruct (read_frame _ _) as [[first|e] rest] eqn:Hread; 
    [|destruct (bool_decide _); split_and!; auto].
  destruct (Frame.Type_ first != MessageHello) eqn:Hty; [by split_and!; auto|].
  destruct (DecodePayload _ _ first) as [hello|] eqn:Hdec; [|by split_and!; auto]. destruct (_ || _) eqn:Hids; [by split_and!; auto|].
  bool_prop. assert (fst (ReadFrame (Some reader)) = Ok first) as Hf.
  { unfold read_frame in Hread. destruct (m_readErr _); [done|]. by destruct (ReadFrame _); simplify_eq. }
  pose proof (Persistent_Accept_outcome VerifyAuth cfg (m_ctx (env 0%nat)) (m_now (env 0%nat))
    (m_authNow (env 0%nat)) ids hello (sh_registry sh) (sh_store sh)) as Ho. cbn zeta in Ho.
  destruct (PersistentServer_Accept _ _ _ _ _ _ _ _) as [[[[s0 welcome] snapshot]|e] [r' s']]; cbn [fst snd] in Ho.
  - assert (hello_for tunnelID connectorID reader (m_authNow (env 0%nat)) (sh_store sh)) as Hh.
    { inversion Ho as [a b s1 s2 ? ? ? ? ? Ha _ _ _| |]; subst.
      apply Authenticate_ok in Ha as ([proof Hp] & Ha & Hi). exists first, hello, proof, a, s1. by split_and!. }
    destruct (attach _ _) as [[e|] active]; [done|].
    destruct (serve_session _ _ _ _ _ _ _ _ _ _ _ _) as [[ended x1] registered].
    by destruct (serve_cleanup _ _ _ _ _).
  - cbn. split_and!; [done..|]. inversion Ho as [|a b s1 s2 ? ? ? ? ? ? ? _ _ HA _|]; subst; [|by left].
    right. by eapply uncreated_leaves_registry.
Qed.
End Serve.
