(* ===== verification/RotationDispatch.v ===== *)
(** * The rotation dispatcher

    [RotationDispatcher] of src/internal/connectorprotocol/rotation_dispatcher.go
    joins the durable state of the rotations to the connector sessions that are
    being served: it resumes a coordinator for every running plan, carries each
    target one phase further, and hands the message of the phase to the carrier
    of the exact session it is for.

    The maps of live sessions and of deliveries are the dispatcher's own state;
    the durable store and the carriers are shared with the rest of the program.
    A carrier is the number of a send queue and [deliver] what handing a frame to
    it does; [Send] and the store are never nil.  Other goroutines run between
    the critical sections of a method: a [Reading] holds, for one round, what
    they did before the round, before a coordinator is resumed, before the durable
    state is read again, before the frame is handed over and after it, together with the clocks, the random bytes and the state of the context. *)
From S2P Require Import Prelude GoText GoHash GoJson Errors Canonical Identifiers WireConfig GoStruct Messages.
From S2P Require Import GoTime RotationMessages Transcripts Frames Registry ServerSession Persistence Rotation Transport.

(** ** Configuration *)

Definition defaultRotationReconcileInterval : duration := 5 * Second.
Definition defaultRotationChallengeTTL : duration := 5 * Minute.
Definition defaultRotationOverlap : duration := 30 * Minute.
Definition defaultRotationCredentialLife : duration := 365 * 24 * Hour.
Definition defaultRotationPlanLimit : Z := 64.
Definition defaultRotationSendTimeout : duration := 5 * Second.

Module RotationDispatcherConfig.
Record RotationDispatcherConfig := mk {
  ReconcileInterval : duration;
  ChallengeTTL : duration;
  Overlap : duration;
  CredentialLifetime : duration;
  PlanLimit : Z;
  SendTimeout : duration;
}.
End RotationDispatcherConfig.
Abbreviation RotationDispatcherConfig := RotationDispatcherConfig.RotationDispatcherConfig.

(** A value that is zero takes the default. *)
Definition or_default (value fallback : Z) : Z := if value =? 0 then fallback else value.

(** The checked configuration of [NewRotationDispatcher]. *)
Section NewDispatcher.
Import RotationDispatcherConfig.
Definition NewRotationDispatcher (config : RotationDispatcherConfig) : Res RotationDispatcherConfig :=
  let reconcileInterval := or_default (ReconcileInterval config) defaultRotationReconcileInterval in
  let challengeTTL := or_default (ChallengeTTL config) defaultRotationChallengeTTL in
  let overlap := or_default (Overlap config) defaultRotationOverlap in
  let credentialLifetime := or_default (CredentialLifetime config) defaultRotationCredentialLife in
  let planLimit := or_default (PlanLimit config) defaultRotationPlanLimit in
  let sendTimeout := or_default (SendTimeout config) defaultRotationSendTimeout in
  if (reconcileInterval <=? 0) || (challengeTTL <=? 0) || (15 * Minute <? challengeTTL)
     || (overlap <=? challengeTTL) || (MaxLease <? overlap) || (credentialLifetime <=? overlap)
     || (MaxRotationCredentialLifetime <? credentialLifetime) || (planLimit <? 1) || (64 <? planLimit)
     || (sendTimeout <=? 0) || (Minute <? sendTimeout)
  then Err ErrInvalidInput
  else Ok (mk reconcileInterval challengeTTL overlap credentialLifetime planLimit sendTimeout).
End NewDispatcher.

(** ** Live sessions and deliveries *)

Module RotationLiveSession.
Record RotationLiveSession := mk {
  AccountID : string;
  HostID : string;
  Reference : SessionRef;
  CredentialGeneration : Z;
  IdentityKeyID : string;
  IdentityKeyThumbprint : string;
  NegotiatedCapabilities : list string;
  Send : nat;  (** the carrier's send queue *)
}.
End RotationLiveSession.
Abbreviation RotationLiveSession := RotationLiveSession.RotationLiveSession.

Section LiveSession.
Import RotationLiveSession.
Definition RotationLiveSession_validate (s : RotationLiveSession) : option goerror :=
  if negb (ids_ok [AccountID s; HostID s]) || negb (ok (SessionRef_Validate (Reference s)))
     || (CredentialGeneration s =? 0)
     || negb (ok (ValidateIdentityKey (IdentityKeyID s) (IdentityKeyThumbprint s)))
  then Some ErrInvalidInput
  else if negb (hasCapability (NegotiatedCapabilities s) CapabilityCredentialRotation)
  then Some (codeError ErrCapabilityMissing ReasonCapabilityMissing false None)
  else None.

Definition can_rotate (s : RotationLiveSession) : bool :=
  hasCapability (NegotiatedCapabilities s) CapabilityCredentialRotation.

Definition liveSessionMatchesChallenge (s : RotationLiveSession) (c : CredentialRotationChallenge) : bool :=
  (AccountID s == CredentialRotationChallenge.AccountID c)
  && (HostID s == CredentialRotationChallenge.HostID c)
  && (SessionRef.TunnelID (Reference s) == CredentialRotationChallenge.TunnelID c)
  && (SessionRef.ConnectorID (Reference s) == CredentialRotationChallenge.ConnectorID c)
  && (SessionRef.SessionID (Reference s) == CredentialRotationChallenge.SessionID c)
  && (SessionRef.ProcessGeneration (Reference s) =? CredentialRotationChallenge.ProcessGeneration c)
  && (CredentialGeneration s =? CredentialRotationChallenge.OldCredentialGeneration c)
  && (IdentityKeyID s == CredentialRotationChallenge.OldIdentityKeyID c)
  && (IdentityKeyThumbprint s == CredentialRotationChallenge.OldIdentityKeyThumbprint c)
  && can_rotate s.

Definition liveSessionMatchesRotationTarget (s : RotationLiveSession) (p : RotationPlan)
    (t : RotationTarget) : bool :=
  (AccountID s == RotationPlan.AccountID p) && (HostID s == RotationTarget.HostID t)
  && (SessionRef.TunnelID (Reference s) == RotationPlan.TunnelID p)
  && (SessionRef.ConnectorID (Reference s) == RotationTarget.ConnectorID t)
  && (CredentialGeneration s =? RotationTarget.OldCredentialGeneration t) && can_rotate s.

Definition liveSessionMatchesRevoke (s : RotationLiveSession) (v : CredentialRotationRevoke) : bool :=
  (AccountID s == CredentialRotationRevoke.AccountID v)
  && (HostID s == CredentialRotationRevoke.HostID v)
  && (SessionRef.TunnelID (Reference s) == CredentialRotationRevoke.TunnelID v)
  && (SessionRef.ConnectorID (Reference s) == CredentialRotationRevoke.ConnectorID v)
  && (SessionRef.SessionID (Reference s) == CredentialRotationRevoke.SessionID v)
  && (SessionRef.ProcessGeneration (Reference s) =? CredentialRotationRevoke.ProcessGeneration v)
  && (CredentialGeneration s =? CredentialRotationRevoke.NewCredentialGeneration v) && can_rotate s.

Definition frameMatchesSession (accountID tunnelID connectorID hostID sessionID : string)
    (processGeneration : Z) (s : RotationLiveSession) : bool :=
  (accountID == AccountID s) && (tunnelID == SessionRef.TunnelID (Reference s))
  && (connectorID == SessionRef.ConnectorID (Reference s)) && (hostID == HostID s)
  && (sessionID == SessionRef.SessionID (Reference s))
  && (processGeneration =? SessionRef.ProcessGeneration (Reference s)) && can_rotate s.

(** The comparison of [send] with the session that is registered now. *)
Definition same_live (current s : RotationLiveSession) : bool :=
  (Reference current == Reference s) && (AccountID current == AccountID s)
  && (HostID current == HostID s) && (CredentialGeneration current =? CredentialGeneration s)
  && (IdentityKeyID current == IdentityKeyID s)
  && (IdentityKeyThumbprint current == IdentityKeyThumbprint s).
End LiveSession.

(** The digest of the payload that was handed over last, and to which session. *)
Record rotationDelivery := mkDelivery { dl_reference : SessionRef; dl_payload : list Z }.

Record RotationDispatcher := mkDispatcherState {
  sessions : gmap string RotationLiveSession;
  deliveries : gmap string rotationDelivery;
}.
#[export] Instance RotationDispatcher_settable : Settable RotationDispatcher := fun d =>
  mkDispatcherState (sessions d) (deliveries d).
Definition empty_dispatcher : RotationDispatcher := mkDispatcherState ∅ ∅.

(** ** The messages that are sent *)
Inductive RotationPayload :=
| ChallengePayload (c : CredentialRotationChallenge)
| InstallPayload (i : CredentialRotationInstall)
| RevokePayload (v : CredentialRotationRevoke)
| OtherPayload (encoded : Res string).

Section Texts.
Definition Challenge_text (c : CredentialRotationChallenge) : option string :=
  issued ← time_member "issued_at" (CredentialRotationChallenge.IssuedAt c);
  expires ← time_member "expires_at" (CredentialRotationChallenge.ExpiresAt c);
  overlap ← time_member "overlap_until" (CredentialRotationChallenge.OverlapUntil c);
  valid ← time_member "new_credential_valid_until" (CredentialRotationChallenge.NewCredentialValidUntil c);
  Some (object_text
    [member "account_id" (quote (CredentialRotationChallenge.AccountID c));
     member "tunnel_id" (quote (CredentialRotationChallenge.TunnelID c));
     member "operation_id" (quote (CredentialRotationChallenge.OperationID c));
     member "connector_id" (quote (CredentialRotationChallenge.ConnectorID c));
     member "host_id" (quote (CredentialRotationChallenge.HostID c));
     member "session_id" (quote (CredentialRotationChallenge.SessionID c));
     member "process_generation" (Itoa (CredentialRotationChallenge.ProcessGeneration c));
     member "target_set_hash" (quote (CredentialRotationChallenge.TargetSetHash c));
     member "target" (target_text (CredentialRotationChallenge.Target c));
     member "old_credential_generation" (Itoa (CredentialRotationChallenge.OldCredentialGeneration c));
     member "new_credential_generation" (Itoa (CredentialRotationChallenge.NewCredentialGeneration c));
     member "old_identity_key_id" (quote (CredentialRotationChallenge.OldIdentityKeyID c));
     member "old_identity_key_thumbprint" (quote (CredentialRotationChallenge.OldIdentityKeyThumbprint c));
     member "challenge_nonce" (quote (CredentialRotationChallenge.ChallengeNonce c));
     issued; expires; overlap; valid]).

Definition Install_text (i : CredentialRotationInstall) : option string :=
  overlap ← time_member "overlap_until" (CredentialRotationInstall.OverlapUntil i);
  valid ← time_member "new_credential_valid_until" (CredentialRotationInstall.NewCredentialValidUntil i);
  Some (object_text
    [member "account_id" (quote (CredentialRotationInstall.AccountID i));
     member "tunnel_id" (quote (CredentialRotationInstall.TunnelID i));
     member "operation_id" (quote (CredentialRotationInstall.OperationID i));
     member "connector_id" (quote (CredentialRotationInstall.ConnectorID i));
     member "host_id" (quote (CredentialRotationInstall.HostID i));
     member "session_id" (quote (CredentialRotationInstall.SessionID i));
     member "process_generation" (Itoa (CredentialRotationInstall.ProcessGeneration i));
     member "target_set_hash" (quote (CredentialRotationInstall.TargetSetHash i));
     member "old_credential_generation" (Itoa (CredentialRotationInstall.OldCredentialGeneration i));
     member "new_credential_generation" (Itoa (CredentialRotationInstall.NewCredentialGeneration i));
     member "new_identity_key_id" (quote (CredentialRotationInstall.NewIdentityKeyID i));
     member "new_identity_key_thumbprint" (quote (CredentialRotationInstall.NewIdentityKeyThumbprint i));
     member "new_public_key" (quote (CredentialRotationInstall.NewPublicKey i));
     member "new_credential_reference" (quote (CredentialRotationInstall.NewCredentialReference i));
     member "challenge_nonce" (quote (CredentialRotationInstall.ChallengeNonce i));
     overlap; valid;
     member "replacement_process_generation"
       (Itoa (CredentialRotationInstall.ReplacementProcessGeneration i))]).

Definition Revoke_text (v : CredentialRotationRevoke) : option string :=
  issued ← time_member "issued_at" (CredentialRotationRevoke.IssuedAt v);
  deadline ← time_member "deadline" (CredentialRotationRevoke.Deadline v);
  Some (object_text
    [member "account_id" (quote (CredentialRotationRevoke.AccountID v));
     member "tunnel_id" (quote (CredentialRotationRevoke.TunnelID v));
     member "operation_id" (quote (CredentialRotationRevoke.OperationID v));
     member "connector_id" (quote (CredentialRotationRevoke.ConnectorID v));
     member "host_id" (quote (CredentialRotationRevoke.HostID v));
     member "session_id" (quote (CredentialRotationRevoke.SessionID v));
     member "process_generation" (Itoa (CredentialRotationRevoke.ProcessGeneration v));
     member "target_set_hash" (quote (CredentialRotationRevoke.TargetSetHash v));
     member "old_credential_generation" (Itoa (CredentialRotationRevoke.OldCredentialGeneration v));
     member "new_credential_generation" (Itoa (CredentialRotationRevoke.NewCredentialGeneration v));
     member "revoke_nonce" (quote (CredentialRotationRevoke.RevokeNonce v));
     issued; deadline]).

Definition rotation_text (payload : RotationPayload) : Res string :=
  match payload with
  | ChallengePayload c => marshalled (Challenge_text c)
  | InstallPayload i => marshalled (Install_text i)
  | RevokePayload v => marshalled (Revoke_text v)
  | OtherPayload encoded => encoded
  end.
End Texts.

Definition rotationDeliveryKey (messageType : MessageType) (payload : RotationPayload) : Res string :=
  let key operationID connectorID :=
    if negb (ids_ok [operationID; connectorID]) then Err ErrInvalidInput
    else Ok (operationID +:+ NUL +:+ connectorID +:+ NUL +:+ messageType) in
  match payload with
  | ChallengePayload c =>
      key (CredentialRotationChallenge.OperationID c) (CredentialRotationChallenge.ConnectorID c)
  | InstallPayload i =>
      key (CredentialRotationInstall.OperationID i) (CredentialRotationInstall.ConnectorID i)
  | RevokePayload v =>
      key (CredentialRotationRevoke.OperationID v) (CredentialRotationRevoke.ConnectorID v)
  | OtherPayload _ => Err ErrInvalidInput
  end.

Definition allRotationTargetsReady (l : list RotationResumeTarget) : bool :=
  negb (bool_decide (l = []))
  && forallb (fun t => (RotationResumeTarget.State t == RotationTargetReady)
                       || (RotationResumeTarget.State t == RotationTargetRevoking)
                       || (RotationResumeTarget.State t == RotationTargetRevoked)) l.

Definition expired : goerror := codeError ErrCredentialExpired ReasonCredentialExpired false None.

(** The expiry of a challenge, the end of the overlap and of the new credential. *)
Definition rotationPolicy (cfg : RotationDispatcherConfig) (now : time) (recovered : RotationResumeTarget)
    : Res (time * time * time) :=
  let unset := IsZero (RotationResumeTarget.OverlapUntil recovered)
               && IsZero (RotationResumeTarget.NewCredentialValidUntil recovered) in
  let overlapUntil := if unset then Add now (RotationDispatcherConfig.Overlap cfg)
                      else RotationResumeTarget.OverlapUntil recovered in
  let credentialValidUntil := if unset then Add now (RotationDispatcherConfig.CredentialLifetime cfg)
                              else RotationResumeTarget.NewCredentialValidUntil recovered in
  if negb (After overlapUntil now) || negb (After credentialValidUntil overlapUntil) then Err expired else
  let expiresAt := Add now (RotationDispatcherConfig.ChallengeTTL cfg) in
  let expiresAt := if negb (After overlapUntil expiresAt) then Add overlapUntil (- Millisecond)
                   else expiresAt in
  if negb (After expiresAt now) then Err expired else Ok (expiresAt, overlapUntil, credentialValidUntil).

(** [errors.Join] of errors that may be nil, and may all be nil. *)
Definition join_errors (es : list (option goerror)) : option goerror :=
  match omap id es with [] => None | l => Some (JoinError l) end.

(** ** The durable store

    One object keeps the plans, the transitions and the recovery, so the
    recovery that the coordinator finds by type assertion is this one. *)
Class RotationDispatcherStore (Sto : Type) := {
  rotation_persistence :: RotationPersistence Sto;
  ListCredentialRotationPlans : Z -> Sto -> Res (list RotationPlan) * Sto;
  LoadCredentialRotation : RotationPlan -> Sto -> Res RotationResume * Sto;
  LoadCredentialRotationPlan : string -> Sto -> Res RotationPlan * Sto;
  ResetCredentialRotationInstall : RotationPlan -> RotationTarget -> SessionRef -> Sto -> option goerror * Sto;
  RebindCredentialRotationRevoke : RotationPlan -> RotationTarget -> SessionRef -> string -> time -> time ->
    Sto -> Res CredentialRotationRevoke * Sto;
  FailCredentialRotationTarget : RotationPlan -> RotationTarget -> Code -> Sto -> option goerror * Sto;
  RotationRecordDisconnected : SessionRef -> Disconnect -> Sto -> option goerror * Sto;
  recovery_is_own : RotationRecoveryStore = Some LoadCredentialRotation;
}.

(** ** The methods *)
Section Methods.
Context {Sto : Type} `{!RotationDispatcherStore Sto} {Net : Type}.
Context (deliver : nat -> Frame -> Net -> option goerror * Net).
Context (ed25519_Verify : list Z -> string -> list Z -> bool).
Context (verify : CredentialRotationProof -> string -> list Z -> option goerror).
Context (cfg : RotationDispatcherConfig).

(** The dispatcher, the store and the carriers. *)
Record World := mkWorld { disp : RotationDispatcher; wstore : Sto; net : Net }.
#[global] Instance World_settable : Settable World := fun w => mkWorld (disp w) (wstore w) (net w).

Record Reading := mkReading {
  r_ctx : Context;
  r_now : time;         (** the dispatcher's clock *)
  r_coordNow : time;    (** the clock read by the coordinator's method *)
  r_resumeNow : time;   (** and by its [Resume] *)
  r_nonce : Res (list Z);  (** [rand.Read] for a nonce of the dispatcher *)
  r_revoke : Res (list Z); (** for the nonce of a revoke *)
  r_frame : Res (list Z);  (** for the identifier of the frame *)
  r_before : World -> World;
  r_beforeResume : World -> World;
  r_beforeLoad : World -> World;
  r_beforeReload : World -> World;
  r_beforeSend : World -> World;
  r_afterSend : World -> World;
}.

Definition D := M World goerror.
Definition store_call {A} (f : Sto -> A * Sto) : D A :=
  fun w => let (r, s) := f (wstore w) in (Ok r, w <| wstore := s |>).
Definition upd_disp (f : RotationDispatcher -> RotationDispatcher) : D unit :=
  modify (fun w => w <| disp := f (disp w) |>).
Definition session (connectorID : string) : D (option RotationLiveSession) :=
  fun w => (Ok (sessions (disp w) !! connectorID), w).

(** *** Registration *)
Section Registration.
Import RotationLiveSession.

Definition disconnect_of (accountID : string) (ref : SessionRef) (reason : DisconnectReason)
    (retryable : bool) : Disconnect :=
  Disconnect.mk accountID (SessionRef.TunnelID ref) (SessionRef.ConnectorID ref)
    (SessionRef.SessionID ref) (SessionRef.ProcessGeneration ref) reason retryable "".

Definition Rotation_RegisterSession (ctx : Context) (s : RotationLiveSession) : D unit :=
  fail_if (ctx_nil ctx) ErrInvalidInput ;;
  check (RotationLiveSession_validate s) ;;
  current ← session (SessionRef.ConnectorID (Reference s));
  match current with
  | None => ret tt
  | Some current =>
      fail_if ((AccountID current != AccountID s) || (HostID current != HostID s)
               || (SessionRef.TunnelID (Reference current) != SessionRef.TunnelID (Reference s)))
        (codeError ErrIdentityMismatch ReasonAuthentication false None) ;;
      fail_if (SessionRef.ProcessGeneration (Reference s)
                 <=? SessionRef.ProcessGeneration (Reference current))
        (codeError ErrSessionConflict ReasonStaleGeneration false None) ;;
      err ← store_call (RotationRecordDisconnected (Reference current)
              (disconnect_of (AccountID current) (Reference current) ReasonSessionReplaced true));
      check err
  end ;;
  upd_disp (fun d => d <| sessions := <[SessionRef.ConnectorID (Reference s) := s]> (sessions d) |>).

Definition Rotation_UnregisterSession (ctx : Context) (ref : SessionRef) (reason : DisconnectReason)
    : D unit :=
  fail_if (ctx_nil ctx || negb (ok (SessionRef_Validate ref)) || negb (validDisconnectReason reason))
    ErrInvalidInput ;;
  current ← session (SessionRef.ConnectorID ref);
  match current with
  | None => ret tt
  | Some current =>
      fail_if (Reference current != ref) (codeError ErrStaleSession ReasonSessionReplaced false None) ;;
      err ← store_call (RotationRecordDisconnected ref
              (disconnect_of (AccountID current) ref reason
                 ((reason != ReasonAuthentication) && (reason != ReasonCredentialExpired))));
      check err ;;
      upd_disp (fun d => d <| sessions := delete (SessionRef.ConnectorID ref) (sessions d) |>)
  end.

Definition Rotation_DetachSession (ref : SessionRef) (d : RotationDispatcher) : RotationDispatcher :=
  if negb (ok (SessionRef_Validate ref)) then d else
  match sessions d !! SessionRef.ConnectorID ref with
  | None => d
  | Some current =>
      if Reference current != ref then d
      else mkDispatcherState (delete (SessionRef.ConnectorID ref) (sessions d))
             (filter (fun kv => dl_reference kv.2 <> ref) (deliveries d))
  end.
End Registration.

(** *** Coordinators *)

Definition coordinator (r : Reading) (p : RotationPlan) : D (RotationCoordinator * RotationResume) :=
  c ← lift (NewRotationCoordinator p);
  modify (r_beforeResume r) ;;
  c ← (fun w => let (res, st) := Resume (r_ctx r) (r_resumeNow r) (mkRot c (wstore w)) in
                (match res with Err (_, err) => Err err | Ok _ => Ok (coord st) end,
                 w <| wstore := store st |>));
  modify (r_beforeLoad r) ;;
  reply ← store_call (LoadCredentialRotation p);
  resume ← lift reply;
  ret (c, resume).

Definition findCoordinator (r : Reading) (operationID : string) : D (RotationCoordinator * RotationPlan) :=
  fail_if (negb (ok (ValidateIdentifier operationID))) ErrInvalidInput ;;
  reply ← store_call (LoadCredentialRotationPlan operationID);
  p ← lift reply;
  '(c, _) ← coordinator r p;
  ret (c, p).

(** A call of a coordinator that is kept beside the world. *)
Record Work := mkWork { world : World; work_coord : RotationCoordinator }.
Definition Wk := M Work goerror.
Definition in_world {A} (m : D A) : Wk A :=
  fun k => let (r, w) := m (world k) in (r, mkWork w (work_coord k)).
Definition on_coordinator {A B} (m : Rot (S := Sto) A B) : Wk B :=
  fun k => let (r, st) := m (mkRot (work_coord k) (wstore (world k))) in
           (match r with Err (_, err) => Err err | Ok b => Ok b end,
            mkWork ((world k) <| wstore := store st |>) (coord st)).

(** *** [send]

    A carrier that takes the frame has it queued; what it makes of the timeout
    is part of its reply. *)
Section Send.
Import RotationLiveSession.

Definition send (r : Reading) (s : RotationLiveSession) (messageType : MessageType)
    (payload : RotationPayload) : D unit :=
  requestID ← lift (newOpaqueID (r_frame r) "rotation-frame");
  frame ← lift (NewFrame messageType requestID (OtherValue (rotation_text payload)));
  key ← lift (rotationDeliveryKey messageType payload);
  let digest := Sum256 (Frame.Payload frame) in
  modify (r_beforeSend r) ;;
  current ← session (SessionRef.ConnectorID (Reference s));
  w ← get;
  match current with
  | None => throw (codeError ErrStaleSession ReasonSessionReplaced false None)
  | Some current =>
      fail_if (negb (same_live current s)) (codeError ErrStaleSession ReasonSessionReplaced false None) ;;
      if match deliveries (disp w) !! key with
         | Some delivered => (dl_reference delivered == Reference current) && (dl_payload delivered == digest)
         | None => false
         end
      then ret tt else
      err ← (fun w => let (err, n) := deliver (Send current) frame (net w) in (Ok err, w <| net := n |>));
      check err ;;
      modify (r_afterSend r) ;;
      latest ← session (SessionRef.ConnectorID (Reference current));
      match latest with
      | Some latest =>
          if Reference latest == Reference current
          then upd_disp (fun d => d <| deliveries := <[key := mkDelivery (Reference current) digest]>
                                                       (deliveries d) |>)
          else ret tt
      | None => ret tt
      end
  end.
End Send.

(** *** Reconciliation *)
Section Reconcile.
Import RotationLiveSession RotationResumeTarget.

Definition fresh_challenge (r : Reading) (recovered : RotationResumeTarget) (s : RotationLiveSession)
    : Wk CredentialRotationChallenge :=
  nonce ← lift (newOpaqueID (r_nonce r) "rotation-nonce");
  '(expiresAt, overlapUntil, credentialValidUntil) ← lift (rotationPolicy cfg (r_now r) recovered);
  on_coordinator (ChallengeWithCredentialExpiry (r_ctx r) (r_coordNow r)
    (RotationTarget.ConnectorID (Target recovered)) (SessionRef.SessionID (Reference s))
    (SessionRef.ProcessGeneration (Reference s)) (IdentityKeyID s) (IdentityKeyThumbprint s) nonce
    (r_now r) expiresAt overlapUntil credentialValidUntil).

Definition send_in (r : Reading) (s : RotationLiveSession) (messageType : MessageType)
    (payload : RotationPayload) : Wk unit := in_world (send r s messageType payload).

Definition before_ready (recovered : RotationResumeTarget) : bool :=
  bool_decide (State recovered ∈ [RotationTargetPending; RotationTargetChallenged; RotationTargetInstalled]).

Definition reconcilePending (r : Reading) (p : RotationPlan) (recovered : RotationResumeTarget)
    (s : RotationLiveSession) : Wk unit :=
  if (AccountID s != RotationPlan.AccountID p) || (HostID s != RotationTarget.HostID (Target recovered))
     || (SessionRef.TunnelID (Reference s) != RotationPlan.TunnelID p)
     || negb (CredentialGeneration s =? RotationTarget.OldCredentialGeneration (Target recovered))
  then ret tt else
  challenge ← fresh_challenge r recovered s;
  send_in r s MessageCredentialRotationChallenge (ChallengePayload challenge).

Definition reconcileChallenged (r : Reading) (p : RotationPlan) (recovered : RotationResumeTarget)
    (s : RotationLiveSession) : Wk unit :=
  let challenge := Challenge recovered in
  if negb (After (CredentialRotationChallenge.ExpiresAt challenge) (r_now r)) then
    if negb (liveSessionMatchesRotationTarget s p (Target recovered)) then ret tt else
    fresh ← fresh_challenge r recovered s;
    send_in r s MessageCredentialRotationChallenge (ChallengePayload fresh)
  else if negb (liveSessionMatchesChallenge s challenge) then ret tt
  else send_in r s MessageCredentialRotationChallenge (ChallengePayload challenge).

Definition reconcileInstalled (r : Reading) (p : RotationPlan) (recovered : RotationResumeTarget)
    (s : RotationLiveSession) : Wk unit :=
  let install := Install recovered in
  if (SessionRef.SessionID (Reference s) != CredentialRotationInstall.SessionID install)
     || negb (SessionRef.ProcessGeneration (Reference s)
                =? CredentialRotationInstall.ProcessGeneration install)
     || negb (CredentialGeneration s =? CredentialRotationInstall.OldCredentialGeneration install)
  then
    if liveSessionMatchesRotationTarget s p (Target recovered)
       && (CredentialRotationInstall.ProcessGeneration install <? SessionRef.ProcessGeneration (Reference s))
    then err ← in_world (store_call (ResetCredentialRotationInstall p (Target recovered) (Reference s)));
         check err
    else ret tt
  else send_in r s MessageCredentialRotationInstall (InstallPayload install).

Definition reconcileReady (r : Reading) (targets : list RotationResumeTarget)
    (recovered : RotationResumeTarget) (found : option RotationLiveSession) : Wk unit :=
  if negb (allRotationTargetsReady targets) then ret tt else
  revoke ← on_coordinator (Rotation.Revoke (r_ctx r) (r_coordNow r) (r_revoke r)
             (RotationTarget.ConnectorID (Target recovered)));
  match found with
  | None => ret tt
  | Some s =>
      if negb (liveSessionMatchesRevoke s revoke) then ret tt
      else send_in r s MessageCredentialRotationRevoke (RevokePayload revoke)
  end.

Definition reconcileRevoking (r : Reading) (p : RotationPlan) (recovered : RotationResumeTarget)
    (found : option RotationLiveSession) : Wk unit :=
  let revoke := RotationResumeTarget.Revoke recovered in
  if negb (After (CredentialRotationRevoke.Deadline revoke) (r_now r)) then
    on_coordinator (Fail (r_ctx r) (RotationTarget.ConnectorID (Target recovered)) CodeCredentialRotationFailed) ;;
    ret tt
  else
  match found with
  | None => ret tt
  | Some s =>
      if (AccountID s == RotationPlan.AccountID p) && (HostID s == RotationTarget.HostID (Target recovered))
         && (SessionRef.TunnelID (Reference s) == RotationPlan.TunnelID p)
         && (SessionRef.ConnectorID (Reference s) == RotationTarget.ConnectorID (Target recovered))
         && (CredentialGeneration s =? RotationTarget.NewCredentialGeneration (Target recovered))
         && (CredentialRotationRevoke.ProcessGeneration revoke <? SessionRef.ProcessGeneration (Reference s))
      then
        nonce ← lift (newOpaqueID (r_nonce r) "rotation-revoke");
        reply ← in_world (store_call (RebindCredentialRotationRevoke p (Target recovered) (Reference s) nonce
                  (r_now r) (Add (r_now r) DefaultAbortTimeout)));
        rebound ← lift reply;
        send_in r s MessageCredentialRotationRevoke (RevokePayload rebound)
      else if liveSessionMatchesRevoke s revoke
      then send_in r s MessageCredentialRotationRevoke (RevokePayload revoke)
      else ret tt
  end.

Definition reconcileTarget (r : Reading) (p : RotationPlan) (targets : list RotationResumeTarget)
    (recovered : RotationResumeTarget) : Wk unit :=
  check (ctx_Err (r_ctx r)) ;;
  if before_ready recovered && negb (IsZero (OverlapUntil recovered))
     && negb (After (OverlapUntil recovered) (r_now r))
  then
    err ← in_world (store_call (FailCredentialRotationTarget p (Target recovered) CodeCredentialExpired));
    check err ;;
    throw expired
  else
  found ← in_world (session (RotationTarget.ConnectorID (Target recovered)));
  let online (f : RotationLiveSession -> Wk unit) := match found with None => ret tt | Some s => f s end in
  let st := State recovered in
  if st == RotationTargetPending then online (reconcilePending r p recovered)
  else if st == RotationTargetChallenged then online (reconcileChallenged r p recovered)
  else if st == RotationTargetInstalled then online (reconcileInstalled r p recovered)
  else if st == RotationTargetReady then reconcileReady r targets recovered found
  else if st == RotationTargetRevoking then reconcileRevoking r p recovered found
  else ret tt.

(** The loop over the targets of a plan: the errors are joined, the coordinator
    is kept. *)
Fixpoint reconcileTargets (env : nat -> Reading) (p : RotationPlan) (targets : list RotationResumeTarget)
    (i : nat) (rest : list RotationResumeTarget) (joined : option goerror) (k : Work)
    : option goerror * Work :=
  match rest with
  | [] => (joined, k)
  | recovered :: rest =>
      let r := env i in
      match reconcileTarget r p targets recovered (mkWork (r_before r (world k)) (work_coord k)) with
      | (Ok _, k) => reconcileTargets env p targets (S i) rest joined k
      | (Err err, k) => reconcileTargets env p targets (S i) rest (join_errors [joined; Some err]) k
      end
  end.

(** The loop over the plans; [env i] has the readings of the [i]th plan, its
    own at 0 and those of its targets after it. *)
Fixpoint reconcilePlans (env : nat -> nat -> Reading) (i : nat) (plans : list RotationPlan)
    (joined : option goerror) (w : World) : option goerror * World :=
  match plans with
  | [] => (joined, w)
  | p :: plans =>
      let r := env i 0%nat in
      let w := r_before r w in
      match ctx_Err (r_ctx r) with
      | Some err => (join_errors [joined; Some err], w)
      | None =>
          match coordinator r p w with
          | (Err loadErr, w) => reconcilePlans env (S i) plans (join_errors [joined; Some loadErr]) w
          | (Ok (c, resume), w) =>
              let (joined, k) := reconcileTargets (env i) p (RotationResume.Targets resume) 1
                                   (RotationResume.Targets resume) joined (mkWork w c) in
              reconcilePlans env (S i) plans joined (world k)
          end
      end
  end.

Definition ReconcileOnce (ctx : Context) (env : nat -> nat -> Reading) (w : World) : option goerror * World :=
  if ctx_nil ctx then (Some ErrInvalidInput, w) else
  match ctx_Err ctx with
  | Some err => (Some err, w)
  | None =>
      match ListCredentialRotationPlans (RotationDispatcherConfig.PlanLimit cfg) (wstore w) with
      | (Err err, s) => (Some err, w <| wstore := s |>)
      | (Ok plans, s) => reconcilePlans env 0 plans None (w <| wstore := s |>)
      end
  end.

(** *** [HandleFrame] *)

Fixpoint reconcilePlanTargets (env : nat -> Reading) (i : nat) (rest : list RotationResumeTarget)
    (joined : option goerror) (k : Work) : option goerror * Work :=
  match rest with
  | [] => (joined, k)
  | t :: rest =>
      let r := env i in
      let k := mkWork (r_before r (world k)) (work_coord k) in
      match ctx_Err (r_ctx r) with
      | Some err => (join_errors [joined; Some err], k)
      | None =>
          if State t != RotationTargetReady then reconcilePlanTargets env (S i) rest joined k else
          match on_coordinator (Rotation.Revoke (r_ctx r) (r_coordNow r) (r_revoke r)
                  (RotationTarget.ConnectorID (Target t))) k with
          | (Err err, k) => reconcilePlanTargets env (S i) rest (join_errors [joined; Some err]) k
          | (Ok revoke, k) =>
              match sessions (disp (world k)) !! RotationTarget.ConnectorID (Target t) with
              | Some s =>
                  if negb (liveSessionMatchesRevoke s revoke)
                  then reconcilePlanTargets env (S i) rest joined k
                  else
                    let (res, k) := send_in r s MessageCredentialRotationRevoke (RevokePayload revoke) k in
                    let err := match res with Err e => Some e | Ok _ => None end in
                    reconcilePlanTargets env (S i) rest (join_errors [joined; err]) k
              | None => reconcilePlanTargets env (S i) rest joined k
              end
          end
      end
  end.

Definition reconcilePlan (env : nat -> Reading) (p : RotationPlan) : Wk unit :=
  in_world (modify (r_beforeReload (env 0%nat))) ;;
  reply ← in_world (store_call (LoadCredentialRotation p));
  resume ← lift reply;
  if negb (allRotationTargetsReady (RotationResume.Targets resume)) then ret tt else
  err ← (fun k => let (err, k) := reconcilePlanTargets env 1 (RotationResume.Targets resume) None k in (Ok err, k));
  check err.

(** A computation on a coordinator that was found. *)
Definition with_coordinator {A} (c : RotationCoordinator) (m : Wk A) : D A :=
  fun w => let (r, k) := m (mkWork w c) in (r, world k).

Definition Rotation_HandleFrame (env : nat -> Reading) (ref : SessionRef) (frame : Frame) : D unit :=
  let r := env 0%nat in
  let now := r_coordNow r in
  let mismatch := codeError ErrIdentityMismatch ReasonAuthentication false None in
  fail_if (ctx_nil (r_ctx r) || negb (ok (SessionRef_Validate ref))) ErrInvalidInput ;;
  found ← session (SessionRef.ConnectorID ref);
  match found with
  | None => throw (codeError ErrStaleSession ReasonSessionReplaced false None)
  | Some s =>
      fail_if (Reference s != ref) (codeError ErrStaleSession ReasonSessionReplaced false None) ;;
      let ty := Frame.Type_ frame in
      if ty == MessageCredentialRotationProof then
        proof ← lift (DecodePayload CredentialRotationProof_fields CredentialRotationProof.zero frame);
        fail_if (negb (frameMatchesSession (CredentialRotationProof.AccountID proof)
                   (CredentialRotationProof.TunnelID proof) (CredentialRotationProof.ConnectorID proof)
                   (CredentialRotationProof.HostID proof) (CredentialRotationProof.SessionID proof)
                   (CredentialRotationProof.ProcessGeneration proof) s)
                 || negb (CredentialGeneration s =? CredentialRotationProof.OldCredentialGeneration proof)
                 || (IdentityKeyID s != CredentialRotationProof.OldIdentityKeyID proof)
                 || (IdentityKeyThumbprint s != CredentialRotationProof.OldIdentityKeyThumbprint proof))
          mismatch ;;
        '(c, _) ← findCoordinator r (CredentialRotationProof.OperationID proof);
        with_coordinator c
          ('(install, _) ← on_coordinator (AcceptProof ed25519_Verify verify (r_ctx r) now proof);
           send_in r s MessageCredentialRotationInstall (InstallPayload install))
      else if ty == MessageCredentialRotationReady then
        ready ← lift (DecodePayload CredentialRotationReady_fields CredentialRotationReady.zero frame);
        fail_if (negb (frameMatchesSession (CredentialRotationReady.AccountID ready)
                   (CredentialRotationReady.TunnelID ready) (CredentialRotationReady.ConnectorID ready)
                   (CredentialRotationReady.HostID ready) (CredentialRotationReady.SessionID ready)
                   (CredentialRotationReady.ProcessGeneration ready) s)
                 || negb (CredentialGeneration s =? CredentialRotationReady.NewCredentialGeneration ready)
                 || (IdentityKeyID s != CredentialRotationReady.NewIdentityKeyID ready)
                 || (IdentityKeyThumbprint s != CredentialRotationReady.NewIdentityKeyThumbprint ready))
          mismatch ;;
        '(c, p) ← findCoordinator r (CredentialRotationReady.OperationID ready);
        with_coordinator c
          (on_coordinator (MarkReady (r_ctx r) now ready) ;;
           reconcilePlan env p)
      else if ty == MessageCredentialRotationAck then
        ack ← lift (DecodePayload CredentialRotationAck_fields CredentialRotationAck.zero frame);
        fail_if (negb (frameMatchesSession (CredentialRotationAck.AccountID ack)
                   (CredentialRotationAck.TunnelID ack) (CredentialRotationAck.ConnectorID ack)
                   (CredentialRotationAck.HostID ack) (CredentialRotationAck.SessionID ack)
                   (CredentialRotationAck.ProcessGeneration ack) s)) mismatch ;;
        '(c, _) ← findCoordinator r (CredentialRotationAck.OperationID ack);
        with_coordinator c (on_coordinator (Coordinator_HandleAck (r_ctx r) now ack) ;; ret tt)
      else throw (codeError ErrUnsupportedMessage ReasonCredentialRotation false None)
  end.
End Reconcile.
End Methods.

(** ** The dispatcher as the transport sees it

    The dispatcher's state is a part of what the streams share: [view] reads it
    and [update] writes it. *)
Section Service.
Context {Sto W RSto Net : Type} `{!PersistentControlStore Sto, !RotationDispatcherStore RSto}.
Context (view : Sto -> World (Sto := RSto) (Net := Net)) (update : World (Sto := RSto) (Net := Net) -> Sto -> Sto).
Context (deliver : nat -> Frame -> Net -> option goerror * Net).
Context (ed25519_Verify : list Z -> string -> list Z -> bool).
Context (verify : CredentialRotationProof -> string -> list Z -> option goerror).
(** The carrier of the stream, and the readings of a frame's handling. *)
Context (carrier : nat).
Context (readings : Moment (Sto := Sto) (W := W) -> nat -> Reading (Sto := RSto) (Net := Net)).
#[local] Abbreviation Served := (Served (Sto := Sto) (W := W)).

Definition in_service (m : D (Sto := RSto) (Net := Net) unit) (x : Served) : option goerror * Served :=
  let s := sh_store (sv_shared x) in
  let (res, w) := m (view s) in
  (match res with Ok _ => None | Err err => Some err end,
   x <| sv_shared := (sv_shared x) <| sh_store := update w s |> |>).

(** The live session that [Serve] registers. *)
Definition rotation_live (hello : Hello) (welcome : Welcome) (r : SessionRef) : RotationLiveSession :=
  RotationLiveSession.mk (Hello.AccountID hello) (Hello.HostID hello) r
    (AuthRequest.CredentialGeneration (Hello.Auth hello)) (AuthRequest.IdentityKeyID (Hello.Auth hello))
    (AuthRequest.IdentityKeyThumbprint (Hello.Auth hello)) (Welcome.Capabilities welcome) carrier.

Definition rotation_service : Dispatcher (Sto := Sto) (W := W) := mkDispatcher
  (fun m hello welcome x => in_service (Rotation_RegisterSession (m_ctx m)
     (rotation_live hello welcome (ServerSession.ref (sv_session x)))) x)
  (fun r x => snd (in_service (upd_disp (Rotation_DetachSession r)) x))
  (fun m r frame x => in_service (Rotation_HandleFrame deliver ed25519_Verify verify (readings m) r frame) x).
End Service.

(** ** [Run]

    [rand.Int64N] panics for a bound that is not positive. *)
Definition Int64N (random n : Z) : option Z := if n <=? 0 then None else Some (random mod n).

(** The loop doubles the delay [attempt - 1] times at most, and stops at a
    minute. *)
Fixpoint double_until_minute (n : nat) (capDelay : duration) : duration :=
  match n with
  | O => capDelay
  | S n => if capDelay <? Minute then
             let capDelay := to_i64 (capDelay * 2) in
             double_until_minute n (if Minute <? capDelay then Minute else capDelay)
           else capDelay
  end.

(** [None] is a panic. *)
Definition rotationRetryDelay (random : Z) (base : duration) (attempt : Z) : option duration :=
  let capDelay := double_until_minute (Z.to_nat (attempt - 1)) base in
  if capDelay <=? 1 then Some capDelay else Int64N random (to_i64 (capDelay + 1)).
