(* ===== verification/RotationDispatchSafety.v ===== *)
(** * What the rotation dispatcher hands to the carriers

    Over any interleaving with the rest of the program, a message leaves the
    dispatcher only for a session that is registered and that the message names.
    The store is any store: of what it answers only the revoke of a rebinding is
    relied on, which is the one that was asked for. *)
From S2P Require Import Prelude GoText GoHash GoJson Errors Canonical Identifiers WireConfig GoStruct Messages.
From S2P Require Import RotationMessages RotationFacts Transcripts Frames Registry ServerSession Rotation.
From S2P Require Import RotationMemory RotationEffects RotationInvariant RotationSafety Persistence Transport RotationDispatch.

(** The revoke that a rebinding stands for. *)
Definition rebound_revoke (p : RotationPlan) (t : RotationTarget) (ref : SessionRef) (nonce : string)
    (issuedAt deadline : time) : CredentialRotationRevoke :=
  CredentialRotationRevoke.mk (RotationPlan.AccountID p) (RotationPlan.TunnelID p)
    (RotationPlan.OperationID p) (RotationTarget.ConnectorID t) (RotationTarget.HostID t)
    (SessionRef.SessionID ref) (SessionRef.ProcessGeneration ref) (RotationPlan.TargetSetHash p)
    (RotationTarget.OldCredentialGeneration t) (RotationTarget.NewCredentialGeneration t)
    nonce issuedAt deadline.

(** [RebindCredentialRotationRevoke] returns the revoke that it stored. *)
Class RebindingStore (Sto : Type) `{!RotationDispatcherStore Sto} : Prop :=
  rebind_done p t ref nonce now deadline s v s' :
    RebindCredentialRotationRevoke p t ref nonce now deadline s = (Ok v, s') ->
    v = rebound_revoke p t ref nonce now deadline.

(** ** What the methods of a coordinator return *)
Section Values.
Context {S : Type} `{!RotationPersistence S}.
Context (ed25519_Verify : list Z -> string -> list Z -> bool).
Context (verify : CredentialRotationProof -> string -> list Z -> option goerror).
Implicit Type st : RotState (S := S).
Import Target.

Lemma Challenge_value ctx now k sid pg kid thumb nonce ia ea ou vu st ch st' :
  ChallengeWithCredentialExpiry ctx now k sid pg kid thumb nonce ia ea ou vu st = (Ok ch, st') ->
  CredentialRotationChallenge.SessionID ch = sid /\ CredentialRotationChallenge.ProcessGeneration ch = pg
  /\ exists s, targets (coord st') !! k = Some s /\ state s = RotationTargetChallenged /\ challenge s = ch.
Proof.
  intros H. wp_of H. unfold ChallengeWithCredentialExpiry. repeat rot_step; try done.
  all: split_and!; try done; eexists; split; [apply lookup_insert_eq|done].
Qed.

Lemma AcceptProof_value ctx now prf st ia st' :
  AcceptProof ed25519_Verify verify ctx now prf st = (Ok ia, st') ->
  exists s, targets (coord st') !! CredentialRotationProof.ConnectorID prf = Some s
    /\ state s = RotationTargetInstalled /\ install s = fst ia
    /\ CredentialRotationInstall.SessionID (fst ia) = CredentialRotationProof.SessionID prf
    /\ CredentialRotationInstall.ProcessGeneration (fst ia) = CredentialRotationProof.ProcessGeneration prf
    /\ CredentialRotationInstall.ConnectorID (fst ia) = CredentialRotationProof.ConnectorID prf.
Proof.
  intros H. wp_of H. unfold AcceptProof. repeat rot_step; try done.
  eexists. split; [apply lookup_insert_eq|done].
Qed.

End Values.

(** ** What is handed to a carrier *)

Definition message_type (payload : RotationPayload) : MessageType :=
  match payload with
  | ChallengePayload _ => MessageCredentialRotationChallenge
  | InstallPayload _ => MessageCredentialRotationInstall
  | RevokePayload _ => MessageCredentialRotationRevoke
  | OtherPayload _ => ""
  end.

Section Addressed.
Import RotationLiveSession.

(** The session that a message names.  An install names it by its identifier and
    its process; a challenge and a revoke name the account, the tunnel and the
    connector as well. *)
Definition addressed (s : RotationLiveSession) (payload : RotationPayload) : Prop :=
  match payload with
  | ChallengePayload c =>
      CredentialRotationChallenge.AccountID c = AccountID s
      /\ SessionRef.mk (CredentialRotationChallenge.TunnelID c) (CredentialRotationChallenge.ConnectorID c)
           (CredentialRotationChallenge.SessionID c) (CredentialRotationChallenge.ProcessGeneration c)
         = Reference s
  | InstallPayload i =>
      CredentialRotationInstall.SessionID i = SessionRef.SessionID (Reference s)
      /\ CredentialRotationInstall.ProcessGeneration i = SessionRef.ProcessGeneration (Reference s)
  | RevokePayload v =>
      CredentialRotationRevoke.AccountID v = AccountID s /\ CredentialRotationRevoke.HostID v = HostID s
      /\ SessionRef.mk (CredentialRotationRevoke.TunnelID v) (CredentialRotationRevoke.ConnectorID v)
           (CredentialRotationRevoke.SessionID v) (CredentialRotationRevoke.ProcessGeneration v)
         = Reference s
  | OtherPayload _ => False
  end.

Lemma addressed_same current s payload : same_live current s = true -> addressed s payload -> addressed current payload.
Proof.
  unfold same_live. intros H. bool_prop. destruct payload; cbn; congruence.
Qed.

Lemma ref_eq r t c s g :
  SessionRef.TunnelID r = t -> SessionRef.ConnectorID r = c -> SessionRef.SessionID r = s ->
  SessionRef.ProcessGeneration r = g -> SessionRef.mk t c s g = r.
Proof. destruct r. cbn. by intros <- <- <- <-. Qed.

Lemma matches_challenge_addressed s c : liveSessionMatchesChallenge s c = true -> addressed s (ChallengePayload c).
Proof. unfold liveSessionMatchesChallenge. intros H. bool_prop. cbn. split; [done|]. by apply ref_eq. Qed.
Lemma matches_revoke_addressed s v : liveSessionMatchesRevoke s v = true -> addressed s (RevokePayload v).
Proof. unfold liveSessionMatchesRevoke. intros H. bool_prop. cbn. split_and!; [done..|]. by apply ref_eq. Qed.
End Addressed.

Lemma NewFrame_encoded ty id encoded f : NewFrame ty id (OtherValue encoded) = Ok f -> encoded = Ok (Frame.Payload f).
Proof. unfold NewFrame, payload_Marshal. intros H. repeat case_match; try done. by injection H as <-. Qed.

Lemma NewFrame_type ty id encoded f : NewFrame ty id (OtherValue encoded) = Ok f -> Frame.Type_ f = ty.
Proof. unfold NewFrame, payload_Marshal. intros H. repeat case_match; try done. by injection H as <-. Qed.

(** ** Symbolic execution of the dispatcher's methods *)
Section Steps.
Context {Sto : Type} `{!RotationDispatcherStore Sto} {Net : Type}.
Implicit Types (w : World (Sto := Sto) (Net := Net)) (k : Work (Sto := Sto) (Net := Net)).

Lemma wp_route c (Q : result goerror (option RotationLiveSession) -> _ -> Prop) w :
  Q (Ok (sessions (disp w) !! c)) w -> wp (RotationDispatch.session c) Q w.
Proof. done. Qed.
Lemma wp_upd_disp f (Q : result goerror unit -> _ -> Prop) w :
  Q (Ok tt) (w <| disp := f (disp w) |>) -> wp (upd_disp f) Q w.
Proof. done. Qed.
Lemma wp_store_call {A} (f : Sto -> A * Sto) (Q : result goerror A -> _ -> Prop) w :
  (forall r s, f (wstore w) = (r, s) -> Q (Ok r) (w <| wstore := s |>)) -> wp (store_call f) Q w.
Proof. unfold wp, store_call. intros H. destruct (f (wstore w)) eqn:E. by apply H. Qed.
Lemma wp_in_world {A} (m : D A) (Q : result goerror A -> _ -> Prop) k :
  wp m (fun r w => Q r (mkWork w (work_coord k))) (world k) -> wp (in_world m) Q k.
Proof. unfold wp, in_world. by destruct (m (world k)). Qed.
End Steps.

Ltac disp_step :=
  lazymatch goal with
  | |- wp (RotationDispatch.session _) _ _ => apply wp_route
  | |- wp (upd_disp _) _ _ => apply wp_upd_disp
  | |- wp (store_call _) _ _ => apply wp_store_call; intros ? ? ?
  | |- wp (in_world _) _ _ => apply wp_in_world
  | _ => wp_step
  end.

(** The conditionals that are in sight. *)
Ltac wp_ifs := repeat lazymatch goal with |- wp (if _ then _ else _) _ _ => apply wp_if; intros ? end.

Section Dispatcher.
Context {Sto : Type} `{!RotationDispatcherStore Sto, !RebindingStore Sto}.
Context (ed25519_Verify : list Z -> string -> list Z -> bool).
Context (verify : CredentialRotationProof -> string -> list Z -> option goerror).
Context (cfg : RotationDispatcherConfig).
(** The carriers keep the frames that were handed to them, in order, and answer
    as they like. *)
#[local] Abbreviation Log := (list (nat * Frame)).
Context (answer : nat -> Frame -> Log -> option goerror).
Definition logging (carrier : nat) (frame : Frame) (n : Log) : option goerror * Log :=
  (answer carrier frame n, n ++ [(carrier, frame)]).
(** The sessions that the streams register, each with its own carrier. *)
Context (streams : RotationLiveSession -> Prop).
#[local] Abbreviation World := (World (Sto := Sto) (Net := Log)).
#[local] Abbreviation Work := (Work (Sto := Sto) (Net := Log)).
Implicit Types (w : World) (k : Work).

(** A frame in a carrier is a message for the session of that carrier. *)
Definition own_message (e : nat * Frame) : Prop :=
  exists s payload, streams s /\ RotationLiveSession_validate s = None
    /\ RotationLiveSession.Send s = fst e
    /\ Frame.Type_ (snd e) = message_type payload /\ rotation_text payload = Ok (Frame.Payload (snd e))
    /\ addressed s payload.

Record world_inv w : Prop := {
  wi_sessions : forall c s, sessions (disp w) !! c = Some s ->
    SessionRef.ConnectorID (RotationLiveSession.Reference s) = c /\ RotationLiveSession_validate s = None /\ streams s;
  wi_sent : Forall own_message (net w);
}.
(** What runs beside the dispatcher may do anything to the store, and registers
    and hands over as the dispatcher does. *)
Definition respects (f : World -> World) : Prop := forall w, world_inv w -> world_inv (f w).
Record reading_ok (r : Reading (Sto := Sto) (Net := Log)) : Prop := {
  ok_before : respects (r_before r);
  ok_beforeResume : respects (r_beforeResume r);
  ok_beforeLoad : respects (r_beforeLoad r);
  ok_beforeReload : respects (r_beforeReload r);
  ok_beforeSend : respects (r_beforeSend r);
  ok_afterSend : respects (r_afterSend r);
}.

Lemma inv_store w s : world_inv w -> world_inv (w <| wstore := s |>).
Proof. by intros []. Qed.
Lemma inv_disp w d :
  (forall c s, sessions d !! c = Some s -> sessions (disp w) !! c = Some s
     \/ (SessionRef.ConnectorID (RotationLiveSession.Reference s) = c /\ RotationLiveSession_validate s = None /\ streams s)) ->
  world_inv w -> world_inv (w <| disp := d |>).
Proof. intros Hd [Hw Hn]. split; [|done]. intros c s Hs. destruct (Hd c s Hs); auto. Qed.

(** *** [send] *)
Lemma send_inv r s payload w :
  reading_ok r -> world_inv w -> addressed s payload ->
  wp (send logging r s (message_type payload) payload) (fun _ w' => world_inv w') w.
Proof.
  intros Hr Hw Ha. pose proof (ok_beforeSend _ Hr w Hw) as Hw1.
  unfold send. repeat disp_step; try assumption. bool_prop.
  match goal with H : sessions _ !! _ = Some ?cur |- _ => destruct (wi_sessions _ Hw1 _ _ H) as (Hk & Hv & Hst) end.
  unfold wp at 1. cbn [logging fst snd].
  match goal with |- context [net (r_beforeSend r w) ++ [(?c, ?f)]] =>
    assert (Hw2 : world_inv ((r_beforeSend r w) <| net := net (r_beforeSend r w) ++ [(c, f)] |>)) end.
  { split; [apply Hw1|]. cbn. apply Forall_app. split; [apply Hw1|]. apply Forall_singleton.
    eexists _, payload. split_and!; [exact Hst|done|done| | |by eapply addressed_same]; cbn.
    - by eapply NewFrame_type.
    - by eapply NewFrame_encoded. }
  pose proof (ok_afterSend _ Hr _ Hw2) as Hw3.
  repeat disp_step; try assumption. apply inv_disp; [|exact Hw3]. cbn. auto.
Qed.

(** *** A coordinator beside the world *)

Record work_inv p k : Prop := { wk_world : world_inv (world k); wk_coord : coord_inv p (work_coord k) }.
Definition rot_state k : RotState (S := Sto) := mkRot (work_coord k) (wstore (world k)).

(** Every method of a coordinator keeps it one of its plan. *)
Lemma coordinator_step p call (st : RotState (S := Sto)) :
  coord_inv p (coord st) -> coord_inv p (coord (snd (rot_call ed25519_Verify verify call st))).
Proof.
  intros Hc. destruct (call_effect ed25519_Verify verify call st _ _ (surjective_pairing _)) as (a & He & _).
  by eapply effect_inv.
Qed.
Lemma wp_on_coordinator {A B} p call (m : Rot (S := Sto) A B) (Q : result goerror B -> Work -> Prop) k :
  work_inv p k -> (forall st, snd (rot_call ed25519_Verify verify call st) = snd (m st)) ->
  (forall b k', work_inv p k' -> m (rot_state k) = (Ok b, rot_state k') -> Q (Ok b) k') ->
  (forall e k', work_inv p k' -> Q (Err e) k') ->
  wp (on_coordinator m) Q k.
Proof.
  intros [Hw Hc] Hm Hok Herr. pose proof (coordinator_step p call (rot_state k) Hc) as Hg.
  rewrite Hm in Hg. unfold wp, on_coordinator. fold (rot_state k).
  destruct (m (rot_state k)) as [[b|[a e]] st] eqn:E; cbn [fst snd] in *.
  - apply Hok; [by split; [apply inv_store|]|]. by destruct st.
  - apply Herr. by split; [apply inv_store|].
Qed.

Lemma coordinator_inv r p w :
  reading_ok r -> world_inv w ->
  wp (coordinator r p) (fun res w' => world_inv w' /\ forall c rs, res = Ok (c, rs) -> coord_inv p c) w.
Proof using verify ed25519_Verify.
  intros Hr Hw. unfold coordinator. do 3 disp_step; [|done]. do 2 disp_step.
  pose proof (ok_beforeResume _ Hr w Hw) as Hw1. disp_step.
  match goal with H : NewRotationCoordinator p = Ok ?c |- _ => apply NewRotationCoordinator_inv in H as Hc;
    pose proof (coordinator_step p (CallResume (r_ctx r) (r_resumeNow r)) (mkRot c (wstore (r_beforeResume r w))) Hc) as Hc' end.
  unfold wp at 1. cbn [rot_call] in Hc'. unfold run in Hc'.
  destruct (Resume _ _ _) as [[u|[u e]] st] eqn:Hres; cbn [fst snd] in *; [|split; [by apply inv_store|done]].
  pose proof (ok_beforeLoad _ Hr _ (inv_store _ (store st) Hw1)) as Hw2.
  repeat disp_step; (split; [by apply inv_store|]); [|done]. by intros ? ? [= <- <-].
Qed.

(** *** Reconciliation *)
Section Plan.
Context (p : RotationPlan) (r : Reading (Sto := Sto) (Net := Log)) (Hr : reading_ok r).
Import RotationLiveSession.
#[local] Abbreviation keeps m k := (wp m (fun _ k' => work_inv p k') k).

Lemma send_in_inv s payload k :
  work_inv p k -> addressed s payload -> keeps (send_in logging r s (message_type payload) payload) k.
Proof using Hr.
  intros [Hw Hc] Ha. unfold send_in. disp_step. eapply wp_mono; [by apply send_inv|]. cbn. by split.
Qed.
Lemma store_inv {A} (f : Sto -> A * Sto) k : work_inv p k -> keeps (in_world (store_call f)) k.
Proof. intros [Hw Hc]. repeat disp_step. split; [by apply inv_store|done]. Qed.

Lemma send_fresh_inv rec s k :
  work_inv p k -> AccountID s = RotationPlan.AccountID p -> SessionRef.TunnelID (Reference s) = RotationPlan.TunnelID p ->
  SessionRef.ConnectorID (Reference s) = RotationTarget.ConnectorID (RotationResumeTarget.Target rec) ->
  keeps (ch ← fresh_challenge cfg r rec s;
         send_in logging r s MessageCredentialRotationChallenge (ChallengePayload ch)) k.
Proof using Hr verify ed25519_Verify.
  intros Hk Ha Ht Hcn. disp_step. unfold fresh_challenge. repeat disp_step; try done.
  eapply (wp_on_coordinator p (CallChallenge _ _ _ _ _ _ _ _ _ _ _ _)); [done..| |done].
  intros ch k' Hk' Hv. apply (send_in_inv s (ChallengePayload ch)); [done|].
  destruct (Challenge_value _ _ _ _ _ _ _ _ _ _ _ _ _ _ _ Hv) as (Hsid & Hpg & s' & Hs' & Hst & Hch).
  destruct (ci_target _ _ (wk_coord _ _ Hk') _ _ Hs') as [Hkey Hres].
  assert (Hpres : challengePresent (snapshot_target s') = true).
  { eapply flags_split, phase_flags; [done|]. cbn. by rewrite Hst. }
  apply (res_challenge _ _ Hres) in Hpres. unfold challenge_bound in Hpres. cbn in Hpres.
  rewrite Hch in Hpres. bool_prop. cbn. split; [congruence|]. apply ref_eq; congruence.
Qed.

Section Target.
Context (rec : RotationResumeTarget) (k : Work) (Hk : work_inv p k) (s : RotationLiveSession).
Context (Hfound : SessionRef.ConnectorID (Reference s)
                  = RotationTarget.ConnectorID (RotationResumeTarget.Target rec)).

Lemma pending_target_inv : keeps (reconcilePending logging cfg r p rec s) k.
Proof using Hr Hk Hfound verify ed25519_Verify.
  unfold reconcilePending. apply wp_if; intros Hc; [done|]. bool_prop. by apply send_fresh_inv.
Qed.
Lemma challenged_target_inv : keeps (reconcileChallenged logging cfg r p rec s) k.
Proof using Hr Hk Hfound verify ed25519_Verify.
  unfold reconcileChallenged. cbv zeta. wp_ifs; bool_prop; try done.
  - match goal with H : liveSessionMatchesRotationTarget _ _ _ = true |- _ =>
      unfold liveSessionMatchesRotationTarget in H; bool_prop end. by apply send_fresh_inv.
  - by apply (send_in_inv s (ChallengePayload _)), matches_challenge_addressed.
Qed.
Lemma installed_target_inv : keeps (reconcileInstalled logging r p rec s) k.
Proof using Hr Hk.
  unfold reconcileInstalled. cbv zeta. apply wp_if; intros ?; [apply wp_if; intros ?|]; bool_prop; [|done|].
  - disp_step. eapply wp_mono; [by apply store_inv|]. cbv beta. intros [] k' Hg; [|done]. by repeat disp_step.
  - by apply (send_in_inv s (InstallPayload _)).
Qed.
Lemma ready_target_inv targets found :
  (forall s', found = Some s' -> s' = s) -> keeps (reconcileReady logging r targets rec found) k.
Proof using Hr Hk verify ed25519_Verify.
  intros Hf. unfold reconcileReady. apply wp_if; intros ?; [done|]. disp_step.
  eapply (wp_on_coordinator p (CallRevoke _ _ _ _)); [done..| |done]. intros v k' Hk' _.
  destruct found as [s'|]; [|done]. apply wp_if; intros ?; bool_prop; [done|].
  by apply (send_in_inv s' (RevokePayload v)), matches_revoke_addressed.
Qed.
Lemma revoking_target_inv found :
  (forall s', found = Some s' -> s' = s) -> keeps (reconcileRevoking logging r p rec found) k.
Proof using Hr Hk RebindingStore0 verify ed25519_Verify.
  intros Hf. unfold reconcileRevoking. cbv zeta. apply wp_if; intros ?.
  { disp_step. eapply (wp_on_coordinator p (CallFail _ _ _)); [done..| |done]. intros. by disp_step. }
  destruct found as [s'|]; [|done]. rewrite (Hf s' eq_refl). destruct Hk as [Hw Hc].
  apply wp_if; intros ?; [|apply wp_if; intros ?]; bool_prop; [|by apply (send_in_inv s (RevokePayload _)), matches_revoke_addressed|done].
  repeat disp_step; try done; try (by split; [apply inv_store|]).
  match goal with H : RebindCredentialRotationRevoke _ _ _ _ _ _ _ = (Ok _, _) |- _ => apply rebind_done in H as -> end.
  apply (send_in_inv s (RevokePayload _)); [by split; [apply inv_store|]|].
  cbn. split_and!; try congruence. apply ref_eq; congruence.
Qed.
End Target.

Lemma reconcileTarget_inv targets rec k :
  work_inv p k -> keeps (reconcileTarget logging cfg r p targets rec) k.
Proof using Hr RebindingStore0 verify ed25519_Verify.
  intros Hk. unfold reconcileTarget. disp_step. disp_step; [done|]. apply wp_if; intros ?.
  { disp_step. eapply wp_mono; [by apply store_inv|]. cbv beta. intros [] k' Hg; [|done]. by repeat disp_step. }
  disp_step. disp_step. apply wp_route. cbv beta zeta.
  destruct k as [w c]. cbn [world work_coord]. set (k := mkWork w c) in *.
  destruct (sessions (disp w) !! _) as [s|] eqn:Hf.
  - destruct (wi_sessions _ (wk_world _ _ Hk) _ _ Hf) as [Hc _]. wp_ifs; bool_prop.
    + by apply pending_target_inv.
    + by apply challenged_target_inv.
    + by apply installed_target_inv.
    + apply (ready_target_inv rec k Hk s). by intros ? [= <-].
    + apply (revoking_target_inv rec k Hk s). by intros ? [= <-].
    + done.
  - wp_ifs; bool_prop; try done.
    + by apply (ready_target_inv rec k Hk (RotationLiveSession.mk "" "" SessionRef.zero 0 "" "" [] 0)).
    + by apply (revoking_target_inv rec k Hk (RotationLiveSession.mk "" "" SessionRef.zero 0 "" "" [] 0)).
Qed.
End Plan.

(** *** The loops *)
Lemma before_inv p r k :
  reading_ok r -> work_inv p k -> work_inv p (mkWork (r_before r (world k)) (work_coord k)).
Proof. intros Hr [Hw Hc]. split; [by apply ok_before|done]. Qed.

Lemma reconcileTargets_inv p env targets l : forall i joined k,
  (forall j, reading_ok (env j)) -> work_inv p k ->
  work_inv p (snd (reconcileTargets logging cfg env p targets i l joined k)).
Proof using RebindingStore0 verify ed25519_Verify.
  induction l as [|rec l IH]; intros i joined k He Hk; [done|]. cbn [reconcileTargets].
  pose proof (reconcileTarget_inv p (env i) (He i) targets rec _ (before_inv p (env i) k (He i) Hk)) as Hw.
  unfold wp in Hw. destruct (reconcileTarget _ _ _ _ _ _ _) as [[u|e] k']; by apply IH.
Qed.

Lemma reconcilePlans_inv env plans : forall i joined w,
  (forall i j, reading_ok (env i j)) -> world_inv w ->
  world_inv (snd (reconcilePlans logging cfg env i plans joined w)).
Proof using RebindingStore0 verify ed25519_Verify.
  induction plans as [|p plans IH]; intros i joined w He Hw; [done|]. cbn [reconcilePlans].
  pose proof (ok_before _ (He i 0%nat) w Hw) as Hb. destruct (ctx_Err _); [done|].
  pose proof (coordinator_inv (env i 0%nat) p _ (He i 0%nat) Hb) as Hc. unfold wp in Hc.
  destruct (coordinator _ _ _) as [[[c rs]|e] w']; cbn [fst snd] in Hc; destruct Hc as [Hw' Hok]; [|by apply IH].
  pose proof (reconcileTargets_inv p (env i) (RotationResume.Targets rs) (RotationResume.Targets rs) 1 joined
    (mkWork w' c) (He i)) as Ht.
  destruct (reconcileTargets _ _ _ _ _ _ _ _ _) as [joined' k]. apply IH; [done|].
  apply (wk_world p), Ht. split; [done|]. by apply (Hok c rs).
Qed.

Lemma ReconcileOnce_inv ctx env w :
  (forall i j, reading_ok (env i j)) -> world_inv w -> world_inv (snd (ReconcileOnce logging cfg ctx env w)).
Proof using RebindingStore0 verify ed25519_Verify.
  intros He Hw. unfold ReconcileOnce. destruct (ctx_nil ctx); [done|].
  destruct (ctx_Err ctx); [done|]. destruct (ListCredentialRotationPlans _ _) as [[ps|e] s]; [|by apply inv_store].
  by apply reconcilePlans_inv; [|apply inv_store].
Qed.

(** *** [HandleFrame] *)
Lemma findCoordinator_inv r op w :
  reading_ok r -> world_inv w ->
  wp (findCoordinator r op) (fun res w' => world_inv w' /\ forall c p, res = Ok (c, p) -> coord_inv p c) w.
Proof using verify ed25519_Verify.
  intros Hr Hw. unfold findCoordinator. repeat disp_step; try done; try (split; [by apply inv_store|done]).
  eapply wp_mono; [apply coordinator_inv; [done|by apply inv_store]|]. cbv beta. intros [[c rs]|e] w' [Hg Hok]; [|done].
  disp_step. split; [done|]. intros ? ? [= <- <-]. by apply (Hok c rs).
Qed.

Lemma with_coordinator_inv {A} p c (m : Wk A) w :
  world_inv w -> coord_inv p c -> (work_inv p (mkWork w c) -> wp m (fun _ k' => work_inv p k') (mkWork w c)) ->
  wp (with_coordinator c m) (fun _ w' => world_inv w') w.
Proof.
  intros Hw Hc Hm. specialize (Hm ltac:(by split)). unfold wp, with_coordinator in *.
  destruct (m (mkWork w c)) as [res k]. cbn in *. by apply (wk_world p).
Qed.

Lemma reconcilePlanTargets_inv p env l : forall i joined k,
  (forall j, reading_ok (env j)) -> work_inv p k ->
  work_inv p (snd (reconcilePlanTargets logging env i l joined k)).
Proof using verify ed25519_Verify.
  induction l as [|t l IH]; intros i joined k He Hk; [done|]. cbn [reconcilePlanTargets].
  pose proof (before_inv p (env i) k (He i) Hk) as Hb. set (k1 := mkWork _ _) in *.
  destruct (ctx_Err _); [done|]. destruct (_ != _); [by apply IH|].
  assert (Hrv : wp (on_coordinator (Rotation.Revoke (r_ctx (env i)) (r_coordNow (env i)) (r_revoke (env i))
    (RotationTarget.ConnectorID (RotationResumeTarget.Target t)))) (fun _ k2 => work_inv p k2) k1).
  { by eapply (wp_on_coordinator p (CallRevoke _ _ _ _)). }
  unfold wp in Hrv. destruct (on_coordinator _ k1) as [[v|e] k2]; cbn [fst snd] in Hrv; [|by apply IH].
  destruct (sessions _ !! _) as [s|]; [|by apply IH].
  destruct (liveSessionMatchesRevoke s v) eqn:Hm; [|by apply IH].
  pose proof (send_in_inv p (env i) (He i) s (RevokePayload v) k2 Hrv (matches_revoke_addressed _ _ Hm)) as Hsend.
  unfold wp in Hsend. cbn [negb message_type] in *. destruct (send_in _ _ _ _ _ k2) as [res k3]. by apply IH.
Qed.

Lemma reconcilePlan_inv p env k :
  (forall j, reading_ok (env j)) -> work_inv p k ->
  wp (reconcilePlan logging env p) (fun _ k' => work_inv p k') k.
Proof using verify ed25519_Verify.
  intros He [Hw Hc]. unfold reconcilePlan. disp_step. disp_step. disp_step. cbv beta.
  pose proof (ok_beforeReload _ (He 0%nat) _ Hw) as Hw1. disp_step. eapply wp_mono; [by apply (store_inv p); split|].
  cbv beta. intros [reply|] k1 H1; [|done]. repeat disp_step; try done.
  unfold wp. destruct (reconcilePlanTargets _ _ _ _ _ _) as [err k2] eqn:E. cbn.
  pose proof (reconcilePlanTargets_inv p env (RotationResume.Targets a) 1 None k1 He H1) as H2.
  rewrite E in H2. by destruct err.
Qed.

Section Handle.
Import RotationLiveSession.

Lemma HandleFrame_inv env ref frame w :
  (forall j, reading_ok (env j)) -> world_inv w ->
  wp (Rotation_HandleFrame logging ed25519_Verify verify env ref frame) (fun _ w' => world_inv w') w.
Proof.
  intros He Hw. unfold Rotation_HandleFrame. cbv zeta. disp_step. disp_step; [done|].
  disp_step. disp_step. destruct (sessions (disp w) !! _) as [s|] eqn:Hs; [|done].
  disp_step. disp_step; [done|]. wp_ifs; bool_prop; [| | |done].
  all: disp_step; disp_step; disp_step; [|done].
  all: disp_step; disp_step; [done|].
  all: disp_step; (eapply wp_mono; [apply findCoordinator_inv; [apply He|exact Hw]|]); cbv beta;
    intros [[c p]|e] w' [Hw' Hok]; [|done]; specialize (Hok c p eq_refl);
    (apply (with_coordinator_inv p); [done..|]); intros Hk.
  - match goal with H : negb (frameMatchesSession _ _ _ _ _ _ _) || _ || _ || _ = false |- _ =>
      unfold frameMatchesSession in H; bool_prop end.
    disp_step. eapply (wp_on_coordinator p (CallAcceptProof _ _ _)); [done..| |done].
    intros [i a'] k' Hk' Hv. destruct (AcceptProof_value _ _ _ _ _ _ _ _ Hv) as (t & _ & _ & _ & Hi1 & Hi2 & _).
    cbn in *. apply (send_in_inv p _ (He 0%nat) s (InstallPayload i)); [done|]. cbn. split; congruence.
  - disp_step. eapply (wp_on_coordinator p (CallMarkReady _ _ _)); [done..| |done]. intros ack k' H' _.
    by apply reconcilePlan_inv.
  - disp_step. by eapply (wp_on_coordinator p (CallHandleAck _ _ _)).
Qed.

(** *** Registration *)
Lemma RegisterSession_inv ctx s w :
  streams s -> world_inv w -> wp (Rotation_RegisterSession ctx s) (fun _ w' => world_inv w') w.
Proof.
  intros Hst Hw. unfold Rotation_RegisterSession. repeat disp_step; try done; try (by apply inv_store).
  all: apply inv_disp; [|by try apply inv_store].
  all: cbn; intros c s' H'; destruct (decide (SessionRef.ConnectorID (Reference s) = c)) as [<-|Hne];
    [rewrite lookup_insert_eq in H'; injection H' as <-; by right|rewrite lookup_insert_ne in H' by done; by left].
Qed.

Lemma UnregisterSession_inv ctx ref reason w :
  world_inv w -> wp (Rotation_UnregisterSession ctx ref reason) (fun _ w' => world_inv w') w.
Proof.
  intros Hw. unfold Rotation_UnregisterSession. repeat disp_step; try done; try (by apply inv_store).
  apply inv_disp; [|by apply inv_store]. cbn. intros c s' H'. left. by eapply lookup_delete_Some.
Qed.

Lemma DetachSession_inv ref w : world_inv w -> world_inv (w <| disp := Rotation_DetachSession ref (disp w) |>).
Proof.
  intros Hw. apply inv_disp; [|done]. intros c s. unfold Rotation_DetachSession. repeat case_match; auto.
  cbn. intros H'. left. by eapply lookup_delete_Some.
Qed.
End Handle.

(** ** Every run of the dispatcher *)

(** The calls that the rest of the program makes. *)
Inductive DispatchCall :=
| DoRegister (ctx : Context) (s : RotationLiveSession)
| DoUnregister (ctx : Context) (ref : SessionRef) (reason : DisconnectReason)
| DoDetach (ref : SessionRef)
| DoReconcile (ctx : Context) (env : nat -> nat -> Reading (Sto := Sto) (Net := Log))
| DoHandle (env : nat -> Reading (Sto := Sto) (Net := Log)) (ref : SessionRef) (frame : Frame)
| DoOther (f : World -> World).

Definition dispatch_call (call : DispatchCall) w : World :=
  match call with
  | DoRegister ctx s => snd (Rotation_RegisterSession ctx s w)
  | DoUnregister ctx ref reason => snd (Rotation_UnregisterSession ctx ref reason w)
  | DoDetach ref => w <| disp := Rotation_DetachSession ref (disp w) |>
  | DoReconcile ctx env => snd (ReconcileOnce logging cfg ctx env w)
  | DoHandle env ref frame => snd (Rotation_HandleFrame logging ed25519_Verify verify env ref frame w)
  | DoOther f => f w
  end.
Definition dispatch_run (calls : list DispatchCall) w : World := foldl (fun w call => dispatch_call call w) w calls.

Definition call_ok (call : DispatchCall) : Prop :=
  match call with
  | DoRegister _ s => streams s
  | DoReconcile _ env => forall i j, reading_ok (env i j)
  | DoHandle env _ _ => forall j, reading_ok (env j)
  | DoOther f => respects f
  | _ => True
  end.

Lemma dispatch_run_inv calls : forall w, Forall call_ok calls -> world_inv w -> world_inv (dispatch_run calls w).
Proof using RebindingStore0.
  induction calls as [|call calls IH]; intros w Hok Hw; [done|]. inversion Hok as [|? ? Hc Hcs]; subst.
  apply IH; [done|]. destruct call; cbn [dispatch_call].
  - exact (RegisterSession_inv ctx s w Hc Hw).
  - exact (UnregisterSession_inv ctx ref reason w Hw).
  - by apply DetachSession_inv.
  - by apply ReconcileOnce_inv.
  - exact (HandleFrame_inv env ref frame w Hc Hw).
  - by apply Hc.
Qed.

(** C31. Over any sequence of registrations, reconciliation rounds and connector frames, with
    any store and anything the rest of the program does to it in between, every frame that the
    rotation dispatcher has handed to a carrier is a message for the session that registered
    this very carrier: the session was valid, and the frame's payload is a challenge, install or
    revoke that names its session identifier and process generation (a challenge and a revoke
    also its account, tunnel and connector). Of the store it is only assumed that a rebinding
    returns the revoke that was asked for. *)
Theorem messages_reach_their_session calls sto :
  Forall call_ok calls -> Forall own_message (net (dispatch_run calls (mkWorld empty_dispatcher sto []))).
Proof using RebindingStore0. intros Hc. apply wi_sent, (dispatch_run_inv calls); [done|]. by split. Qed.
End Dispatcher.
