(* ===== verification/RotationDispatchFacts.v ===== *)
(** * The dispatcher's routes, deliveries and delays

    What registering, detaching and sending do to the routes of the rotation
    dispatcher: a route is replaced only by a later process of the same
    connector, a late call of an older process changes nothing, and a message
    that a carrier has taken is not handed to it again.  The window that a new
    challenge gets, and the delay after a failed round. *)
From S2P Require Import Prelude GoText GoHash GoJson Errors Canonical Identifiers WireConfig GoStruct Messages.
From S2P Require Import RotationMessages Transcripts Frames Registry ServerSession Rotation Persistence Transport.
From S2P Require Import RotationSafety TransportSafety RotationDispatch RotationDispatchSafety.

Section Routes.
Context {Sto : Type} `{!RotationDispatcherStore Sto} {Net : Type}.
Context (deliver : nat -> Frame -> Net -> option goerror * Net).
Context (ed25519_Verify : list Z -> string -> list Z -> bool).
Context (verify : CredentialRotationProof -> string -> list Z -> option goerror).
Implicit Type w : World (Sto := Sto) (Net := Net).
Import RotationLiveSession.
#[local] Arguments Sum256 : simpl never.

Definition route w (connectorID : string) : option RotationLiveSession := sessions (disp w) !! connectorID.

(** [s'] is a later process of the connector of [s]. *)
Definition succeeds (s s' : RotationLiveSession) : Prop :=
  SessionRef.ProcessGeneration (Reference s) < SessionRef.ProcessGeneration (Reference s')
  /\ AccountID s' = AccountID s /\ HostID s' = HostID s
  /\ SessionRef.TunnelID (Reference s') = SessionRef.TunnelID (Reference s).

Lemma register_route ctx s w c :
  wp (Rotation_RegisterSession ctx s) (fun res w' =>
    if is_ok res then route w' (SessionRef.ConnectorID (Reference s)) = Some s
      /\ (forall old, route w (SessionRef.ConnectorID (Reference s)) = Some old -> succeeds old s)
      /\ (c <> SessionRef.ConnectorID (Reference s) -> route w' c = route w c)
    else route w' c = route w c) w.
Proof.
  unfold Rotation_RegisterSession, route. repeat disp_step; try done; bool_prop; cbn.
  all: split_and!; [apply lookup_insert_eq| |intros; by apply lookup_insert_ne].
  - intros old Ho. simplify_eq. unfold succeeds. auto.
  - congruence.
Qed.

Lemma unregister_route ctx ref reason w c :
  wp (Rotation_UnregisterSession ctx ref reason) (fun _ w' =>
    route w' c = route w c
    \/ (route w' c = None /\ exists s, route w c = Some s /\ Reference s = ref)) w.
Proof.
  unfold Rotation_UnregisterSession, route. repeat disp_step; try (by left); bool_prop. cbn.
  destruct (decide (SessionRef.ConnectorID ref = c)) as [<-|Hne].
  - right. split; [apply lookup_delete_eq|]. eauto.
  - left. by apply lookup_delete_ne.
Qed.

Lemma detach_route ref w c :
  let w' := w <| disp := Rotation_DetachSession ref (disp w) |> in
  route w' c = route w c \/ (route w' c = None /\ exists s, route w c = Some s /\ Reference s = ref).
Proof.
  cbn. unfold Rotation_DetachSession, route. repeat case_match; try (by left). cbn. bool_prop.
  destruct (decide (SessionRef.ConnectorID ref = c)) as [<-|Hne].
  - right. split; [apply lookup_delete_eq|]. eauto.
  - left. by apply lookup_delete_ne.
Qed.

Lemma stale_frame env ref frame w s :
  SessionRef_Validate ref = None -> ctx_nil (r_ctx (env 0%nat)) = false ->
  route w (SessionRef.ConnectorID ref) = Some s -> Reference s <> ref ->
  Rotation_HandleFrame deliver ed25519_Verify verify env ref frame w
  = (Err (codeError ErrStaleSession ReasonSessionReplaced false None), w).
Proof.
  intros Hv Hn Hs Hne. destruct (Rotation_HandleFrame _ _ _ _ _ _ _) as [res w'] eqn:E.
  cut (res = Err (codeError ErrStaleSession ReasonSessionReplaced false None) /\ w' = w); [by intros [-> ->]|].
  wp_of E. unfold Rotation_HandleFrame. cbv zeta. disp_step. disp_step; [by rewrite Hn, Hv in *|].
  disp_step. disp_step. unfold route in Hs. rewrite Hs. disp_step. disp_step; [done|]. bool_prop. congruence.
Qed.

(** A route of the rotation dispatcher is replaced only by a later process generation of
    the same account, host and tunnel; unregistering or detaching any other session leaves it,
    and a frame from any other session of the connector is refused as stale and changes nothing. *)
Theorem routes_are_fenced w c s :
  route w c = Some s ->
  (forall ctx new res w', Rotation_RegisterSession ctx new w = (res, w') ->
     route w' c = Some s \/ exists s', route w' c = Some s' /\ succeeds s s')
  /\ (forall ctx ref reason res w', Rotation_UnregisterSession ctx ref reason w = (res, w') ->
     Reference s <> ref -> route w' c = Some s)
  /\ (forall ref, Reference s <> ref ->
     route (w <| disp := Rotation_DetachSession ref (disp w) |>) c = Some s)
  /\ (forall env ref frame, SessionRef_Validate ref = None -> SessionRef.ConnectorID ref = c ->
     Reference s <> ref -> ctx_nil (r_ctx (env 0%nat)) = false ->
     Rotation_HandleFrame deliver ed25519_Verify verify env ref frame w
     = (Err (codeError ErrStaleSession ReasonSessionReplaced false None), w)).
Proof.
  intros Hs. split_and!.
  - intros ctx new res w' E. pose proof (register_route ctx new w c) as H. eapply wp_run in H; [|exact E].
    cbv beta in H. destruct (is_ok res); [|left; congruence]. destruct H as (Hn & Hsucc & Hother).
    destruct (decide (c = SessionRef.ConnectorID (Reference new))) as [->|Hne]; [eauto|].
    left. rewrite Hother by done. done.
  - intros ctx ref reason res w' E Hne. pose proof (unregister_route ctx ref reason w c) as H.
    eapply wp_run in H; [|exact E]. cbv beta in H. destruct H as [->|(_ & s' & Hs' & <-)]; [done|congruence].
  - intros ref Hne. destruct (detach_route ref w c) as [->|(_ & s' & Hs' & <-)]; [done|congruence].
  - intros env ref frame Hv <- Hne Hn. by apply stale_frame with s.
Qed.

(** ** Deliveries *)

(** Nothing else runs while a frame is handed over. *)
Definition undisturbed (r : Reading (Sto := Sto) (Net := Net)) : Prop :=
  (forall w, r_beforeSend r w = w) /\ (forall w, r_afterSend r w = w).

(** The record of a delivery, and that the session is the one that is routed. *)
Definition delivered w (s : RotationLiveSession) (ty : MessageType) (payload : RotationPayload) : Prop :=
  exists key text current, rotationDeliveryKey ty payload = Ok key /\ rotation_text payload = Ok text
    /\ route w (SessionRef.ConnectorID (Reference s)) = Some current /\ same_live current s = true
    /\ deliveries (disp w) !! key = Some (mkDelivery (Reference current) (Sum256 text)).

Lemma NewFrame_other_id ty id id' payload f :
  NewFrame ty id (OtherValue payload) = Ok f -> validRequestID id' = true ->
  exists f', NewFrame ty id' (OtherValue payload) = Ok f' /\ Frame.Payload f' = Frame.Payload f.
Proof.
  unfold NewFrame. intros H Hid. rewrite Hid. destruct (allowed ty); [|done]. cbn [negb orb] in *.
  destruct (negb (validRequestID id)); [done|]. repeat case_match; try done. simplify_eq. by eexists.
Qed.

Lemma send_delivers r s ty payload w w' :
  undisturbed r -> send deliver r s ty payload w = (Ok tt, w') ->
  delivered w' s ty payload /\ sessions (disp w') = sessions (disp w)
  /\ exists id f, NewFrame ty id (OtherValue (rotation_text payload)) = Ok f.
Proof.
  intros [Hb Ha] H. wp_of H. unfold send. repeat disp_step; try done; rewrite ?Hb in *.
  all: match goal with H : NewFrame _ _ _ = Ok _ |- _ => pose proof (NewFrame_encoded _ _ _ _ H) as Ht end.
  - split_and!; [|done|eauto]. destruct (deliveries (disp w) !! _) as [[ref digest]|] eqn:Hd; [|done]. bool_prop.
    cbn in *. subst. by eexists _, _, _.
  - unfold wp at 1. destruct (deliver _ _ _) as [err n]. cbn [fst snd]. repeat disp_step; try done; bool_prop; rewrite Ha in *.
    all: match goal with H : same_live _ _ = true |- _ => pose proof H as Hsame; unfold same_live in H; bool_prop end.
    all: cbn in *; try congruence. all: split_and!; [|done|eauto].
    eexists _, _, _. split_and!; [done|done|done|done|]. cbn. apply lookup_insert_eq.
Qed.

(** A message that a carrier took is not handed to the same session again: after a send
    that succeeded undisturbed, a further send of the same message to the same session returns
    success and leaves dispatcher, store and carriers as they are. *)
Theorem retransmission_is_suppressed r r' id s ty payload w w' :
  undisturbed r -> undisturbed r' -> send deliver r s ty payload w = (Ok tt, w') ->
  newOpaqueID (r_frame r') "rotation-frame" = Ok id -> validRequestID id = true ->
  send deliver r' s ty payload w' = (Ok tt, w').
Proof.
  intros Hr Hr' Hsend Hid Hvalid.
  destruct (send_delivers r s ty payload w w' Hr Hsend) as ((key & text & cur & Hk & Ht & Hc & Hl & Hd) & _ & id0 & f & Hf).
  destruct (NewFrame_other_id _ _ id _ _ Hf Hvalid) as (f' & Hf' & Hp). apply NewFrame_encoded in Hf as He.
  rewrite Ht in He. injection He as He. destruct Hr' as [Hb _].
  destruct (send deliver r' s ty payload w') as [res w''] eqn:E.
  cut (res = Ok tt /\ w'' = w'); [by intros [-> ->]|].
  wp_of E. unfold send. do 2 disp_step. rewrite Hid. do 2 disp_step. rewrite Hf'. do 2 disp_step. rewrite Hk.
  do 2 disp_step. rewrite Hb. do 4 disp_step. unfold route in Hc. rewrite Hc. disp_step. disp_step.
  { bool_prop. congruence. }
  apply wp_if; [done|]. rewrite Hd. cbn. rewrite Hp, He, !bool_decide_eq_true_2 by done. done.
Qed.

(** Detaching a session forgets what was handed to it. *)
Lemma detach_forgets ref w s :
  SessionRef_Validate ref = None -> route w (SessionRef.ConnectorID ref) = Some s -> Reference s = ref ->
  forall key d, deliveries (Rotation_DetachSession ref (disp w)) !! key = Some d -> dl_reference d <> ref.
Proof.
  intros Hv Hs Href key d. unfold Rotation_DetachSession. rewrite Hv. unfold route in Hs. rewrite Hs. cbn.
  rewrite bool_decide_eq_true_2 by done. cbn. intros [_ H]%map_lookup_filter_Some. exact H.
Qed.
End Routes.

(** ** Under the transport *)
Section Service.
Context {Sto W RSto Net : Type} `{!PersistentControlStore Sto, !RotationDispatcherStore RSto}.
Context (view : Sto -> World (Sto := RSto) (Net := Net)) (update : World (Sto := RSto) (Net := Net) -> Sto -> Sto).
Lemma in_service_store m : alongside (Sto := Sto) (W := W) (fun x => snd (in_service view update m x)).
Proof. apply store_only. intros x. unfold in_service. destruct (m _) as [res w]. by eexists. Qed.
Lemma rotation_service_behaves deliver ed25519_Verify verify carrier readings :
  all_well_behaved (Some (rotation_service (W := W) view update deliver ed25519_Verify verify carrier readings)).
Proof.
  intros d [= <-]. split; intros; cbn [RegisterSession DetachSession HandleFrame rotation_service].
  - apply store_only. intros x. unfold in_service. case_match. by eexists.
  - apply in_service_store.
  - apply in_service_store.
Qed.
End Service.

(** ** The window of a challenge *)
(** The window of a new challenge is ordered and bounded: under every accepted
    configuration the challenge expires after now, before the end of the overlap, which is
    before the end of the new credential, and within fifteen minutes; and the policy captured
    with the operation is used when there is one. *)
Theorem rotationPolicy_window config cfg now recovered e o v :
  NewRotationDispatcher config = Ok cfg -> rotationPolicy cfg now recovered = Ok (e, o, v) ->
  now < e /\ e < o /\ o < v /\ e <= now + 15 * Minute
  /\ (IsZero (RotationResumeTarget.OverlapUntil recovered) = false ->
      o = RotationResumeTarget.OverlapUntil recovered /\ v = RotationResumeTarget.NewCredentialValidUntil recovered).
Proof.
  unfold NewRotationDispatcher, rotationPolicy, After, Add, IsZero. cbv zeta. intros Hc Hp.
  destruct (_ || _) eqn:Hg in Hc; [done|]. injection Hc as <-. bool_prop. cbn in *.
  set (ttl := or_default (RotationDispatcherConfig.ChallengeTTL config) _) in *.
  set (ov := or_default (RotationDispatcherConfig.Overlap config) _) in *.
  set (life := or_default (RotationDispatcherConfig.CredentialLifetime config) _) in *.
  destruct (RotationResumeTarget.OverlapUntil recovered =? 0) eqn:Hzero; cbn in Hp;
    repeat case_match; simplify_eq; bool_prop; unfold Millisecond in *; split_and!; try lia; try done.
Qed.

(** ** Delays *)
Lemma double_until_minute_range n cap :
  0 < cap -> cap <= double_until_minute n cap <= Z.max cap Minute.
Proof.
  revert cap. induction n as [|n IH]; intros cap Hc; cbn [double_until_minute]; [lia|].
  destruct (cap <? Minute) eqn:E; bool_prop; [|lia].
  assert (Hd : to_i64 (cap * 2) = cap * 2).
  { apply to_i64_small. unfold is_i64, min_int64, max_int64. unfold Minute, Second in E. lia. }
  rewrite Hd. destruct (Minute <? cap * 2) eqn:E2; bool_prop.
  - specialize (IH Minute ltac:(done)). lia.
  - specialize (IH (cap * 2) ltac:(lia)). lia.
Qed.

Lemma retry_delay_range random base attempt :
  0 < base -> base < max_int64 ->
  exists delay, rotationRetryDelay random base attempt = Some delay /\ 0 <= delay <= Z.max base Minute.
Proof.
  intros Hb Hmax. pose proof (double_until_minute_range (Z.to_nat (attempt - 1)) base Hb) as Hr.
  unfold rotationRetryDelay. set (cap := double_until_minute _ base) in *.
  destruct (cap <=? 1) eqn:E; bool_prop; [exists cap; split; [done|lia]|].
  assert (Hi : to_i64 (cap + 1) = cap + 1).
  { apply to_i64_small. unfold is_i64, min_int64. unfold max_int64 in *. unfold Minute, Second in Hr. lia. }
  rewrite Hi. unfold Int64N. destruct (cap + 1 <=? 0) eqn:E2; bool_prop; [lia|].
  eexists. split; [done|]. pose proof (Z.mod_pos_bound random (cap + 1)). lia.
Qed.

(** The back-off of a reconciliation pass never exceeds the larger of the
    reconcile interval and a minute, whatever the attempt number and the random
    draw, and the draw never panics while the interval is below the largest
    duration. *)
Theorem rotationRetryDelay_bounds config cfg random attempt :
  NewRotationDispatcher config = Ok cfg -> RotationDispatcherConfig.ReconcileInterval cfg < max_int64 ->
  exists delay, rotationRetryDelay random (RotationDispatcherConfig.ReconcileInterval cfg) attempt = Some delay
    /\ 0 <= delay <= Z.max (RotationDispatcherConfig.ReconcileInterval cfg) Minute.
Proof.
  intros Hc Hmax. unfold NewRotationDispatcher in Hc. cbv zeta in Hc. destruct (_ || _) eqn:Hg; [done|].
  injection Hc as <-. bool_prop. by apply retry_delay_range.
Qed.
