(* ===== verification/DrainDispatch.v ===== *)
(** * The drain dispatcher

    [DrainDispatcher] of src/internal/connectorprotocol/drain_dispatcher.go
    carries the durable drain and revoke operations to the live sessions they
    are for: it begins the drain on the persistent session and hands the request
    to the session's carrier, again in every round until the operation is done.

    The server with its sessions and its store is the state of PersistenceWorld;
    a live session holds the handle of its persistent session there, a carrier is
    the number of a send queue, and [deliver] is what handing a frame to it does.
    The list of operations is a query of the store.  An [OpReading] has the
    context and the clocks of one operation's turn and what other goroutines did
    before it, before the drain begins and before the frame is handed over. *)
From S2P Require Import Prelude GoText GoHash GoJson Errors Canonical Identifiers WireConfig GoStruct Messages GoTime.
From S2P Require Import Transcripts Frames Registry ServerSession ServerSafety ServerWorld Persistence.
From S2P Require Import PersistenceSafety PersistenceWorld RotationMessages Rotation Transport RotationDispatch.

Definition defaultDrainReconcileInterval : duration := 5 * Second.
Definition defaultDrainDeadline : duration := 30 * Second.
Definition defaultRevokeDeadline : duration := 10 * Second.
Definition defaultDrainSendTimeout : duration := 5 * Second.
Definition defaultDrainOperationLimit : Z := 64.

(** ** Operations *)

Module DrainOperation.
Record DrainOperation := mk {
  OperationID : string;
  OperationType : string;
  AccountID : string;
  TunnelID : string;
  ConnectorID : string;
  HostID : string;
  SessionID : string;
  ProcessGeneration : Z;
  ConfigGeneration : Z;
  ConfigContentHash : string;
}.
#[export] Instance eq_dec : EqDecision DrainOperation.
Proof. solve_decision. Defined.
End DrainOperation.
Export (hints) DrainOperation.
Abbreviation DrainOperation := DrainOperation.DrainOperation.

Section Operations.
Import DrainOperation.

Definition DrainOperation_validate (o : DrainOperation) : option goerror :=
  if negb (ids_ok [OperationID o; AccountID o; TunnelID o; ConnectorID o; HostID o; SessionID o])
     || (ProcessGeneration o =? 0) || (ConfigGeneration o =? 0) || negb (hashPattern (ConfigContentHash o))
  then Some ErrInvalidInput
  else if (OperationType o != "connector.drain") && (OperationType o != "connector.revoke")
  then Some ErrInvalidInput else None.

(** The session that an operation is for. *)
Definition operation_ref (o : DrainOperation) : SessionRef :=
  SessionRef.mk (TunnelID o) (ConnectorID o) (SessionID o) (ProcessGeneration o).

Definition ErrConfigHashCorrupt : goerror := OtherError "tunnel configuration content hash is corrupt".
Definition drainHash (raw : list Z) : Res string :=
  if negb (Z.of_nat (length raw) =? 32) then Err ErrConfigHashCorrupt
  else Ok ("sha256:" +:+ hex_EncodeToString raw).

(** A row of the query: the columns as they are scanned. *)
Record DrainRow := mkDrainRow {
  row_id : string; row_type : string; row_account : string; row_tunnel : string; row_connector : string;
  row_host : string; row_session : string; row_processGeneration : Z; row_configGeneration : Z;
  row_contentHash : list Z;
}.
(** The body of the loop over the rows of [SQLControlStore.ListConnectorDrainOperations]. *)
Definition operation_of_row (row : DrainRow) : Res DrainOperation :=
  if (row_processGeneration row <=? 0) || (row_configGeneration row <=? 0) then Err ErrInvalidInput else
  match drainHash (row_contentHash row) with
  | Err err => Err err
  | Ok hash =>
      let item := mk (row_id row) (row_type row) (row_account row) (row_tunnel row) (row_connector row)
                    (row_host row) (row_session row) (row_processGeneration row) (row_configGeneration row)
                    hash in
      match DrainOperation_validate item with Some err => Err err | None => Ok item end
  end.
End Operations.

(** ** Configuration *)

Module DrainDispatcherConfig.
Record DrainDispatcherConfig := mk {
  ReconcileInterval : duration;
  DrainDeadline : duration;
  RevokeDeadline : duration;
  SendTimeout : duration;
  OperationLimit : Z;
}.
End DrainDispatcherConfig.
Abbreviation DrainDispatcherConfig := DrainDispatcherConfig.DrainDispatcherConfig.

Section NewDispatcher.
Import DrainDispatcherConfig.
Definition NewDrainDispatcher (config : DrainDispatcherConfig) : Res DrainDispatcherConfig :=
  let reconcileInterval := or_default (ReconcileInterval config) defaultDrainReconcileInterval in
  let drainDeadline := or_default (DrainDeadline config) defaultDrainDeadline in
  let revokeDeadline := or_default (RevokeDeadline config) defaultRevokeDeadline in
  let sendTimeout := or_default (SendTimeout config) defaultDrainSendTimeout in
  let operationLimit := or_default (OperationLimit config) defaultDrainOperationLimit in
  if (reconcileInterval <=? 0) || (Minute <? reconcileInterval) || (drainDeadline <=? 0)
     || (MaxLease <? drainDeadline) || (revokeDeadline <=? 0) || (drainDeadline <? revokeDeadline)
     || (sendTimeout <=? 0) || (Minute <? sendTimeout) || (operationLimit <? 1)
     || (defaultDrainOperationLimit <? operationLimit)
  then Err ErrInvalidInput
  else Ok (mk reconcileInterval drainDeadline revokeDeadline sendTimeout operationLimit).
End NewDispatcher.

(** ** Live sessions *)

Module DrainLiveSession.
Record DrainLiveSession := mk {
  Projection : ActiveControlSession;
  Session : nat;  (** the handle of the persistent session *)
  NegotiatedCapabilities : list string;
  Send : nat;     (** the carrier's send queue *)
}.
End DrainLiveSession.
Abbreviation DrainLiveSession := DrainLiveSession.DrainLiveSession.

Definition projection_ref (p : ActiveControlSession) : SessionRef :=
  SessionRef.mk (ActiveControlSession.TunnelID p) (ActiveControlSession.ConnectorID p)
    (ActiveControlSession.SessionID p) (ActiveControlSession.ProcessGeneration p).

(** [json.Marshal] of a drain. *)
Definition Drain_text (d : Drain) : option string :=
  deadline ← time_member "deadline" (Drain.Deadline d);
  Some (object_text
    [member "account_id" (quote (Drain.AccountID d)); member "tunnel_id" (quote (Drain.TunnelID d));
     member "connector_id" (quote (Drain.ConnectorID d)); member "session_id" (quote (Drain.SessionID d));
     member "process_generation" (Itoa (Drain.ProcessGeneration d)); member "drain_id" (quote (Drain.DrainID d));
     member "generation" (Itoa (Drain.Generation d)); member "content_hash" (quote (Drain.ContentHash d));
     deadline; member "stop_new_streams" (bool_text (Drain.StopNewStreams d));
     member "force_after_deadline" (bool_text (Drain.ForceAfterDeadline d))]).

(** The comparison of a session's drain with the operation. *)
Definition drain_is_for (d : Drain) (o : DrainOperation) (force : bool) : bool :=
  (Drain.AccountID d == DrainOperation.AccountID o) && (Drain.TunnelID d == DrainOperation.TunnelID o)
  && (Drain.ConnectorID d == DrainOperation.ConnectorID o)
  && (Drain.SessionID d == DrainOperation.SessionID o)
  && (Drain.ProcessGeneration d =? DrainOperation.ProcessGeneration o)
  && (Drain.DrainID d == DrainOperation.OperationID o)
  && (Drain.Generation d =? DrainOperation.ConfigGeneration o)
  && (Drain.ContentHash d == DrainOperation.ConfigContentHash o)
  && Bool.eqb (Drain.ForceAfterDeadline d) force.

(** ** The dispatcher *)
Section Dispatcher.
Context {Sto : Type} `{!PersistentControlStore Sto} {Net : Type}.
Context (deliver : nat -> Frame -> Net -> option goerror * Net).
(** [DrainOperationSource]. *)
Context (ListConnectorDrainOperations : Z -> Sto -> Res (list DrainOperation) * Sto).
Context (cfg : DrainDispatcherConfig).
Import DrainLiveSession.

Record DrainWorld := mkDrainWorld {
  dw_server : PWorld (S := Sto);
  drain_sessions : gmap string DrainLiveSession;
  carriers : Net;
}.
#[global] Instance DrainWorld_settable : Settable DrainWorld := fun w =>
  mkDrainWorld (dw_server w) (drain_sessions w) (carriers w).

Record OpReading := mkOpReading {
  o_ctx : Context;
  o_deadlineNow : time;   (** the dispatcher's clock, for the deadline *)
  o_now : time;           (** the two clock readings of [BeginDrain] *)
  o_now2 : time;
  o_before : DrainWorld -> DrainWorld;
  o_beforeBegin : DrainWorld -> DrainWorld;
  o_beforeSend : DrainWorld -> DrainWorld;
}.

Definition session_at (w : DrainWorld) (h : nat) : option ServerSession := pw_sessions (dw_server w) !! h.

(** [PersistentSession.Reference], the zero value for nil. *)
Definition reference_at (w : DrainWorld) (h : nat) : SessionRef :=
  match session_at w h with Some s => ServerSession.ref s | None => SessionRef.zero end.

Definition DrainLiveSession_validate (w : DrainWorld) (s : DrainLiveSession) : option goerror :=
  if negb (ok (ActiveControlSession_validate (Projection s)))
     || negb (bool_decide (is_Some (session_at w (Session s))))
     || (reference_at w (Session s) != projection_ref (Projection s))
  then Some ErrInvalidInput else None.

Definition Drain_RegisterSession (ctx : Context) (s : DrainLiveSession) (w : DrainWorld)
    : option goerror * DrainWorld :=
  if ctx_nil ctx then (Some ErrInvalidInput, w) else
  match ctx_Err ctx with
  | Some err => (Some err, w)
  | None =>
  match DrainLiveSession_validate w s with
  | Some err => (Some err, w)
  | None =>
      let key := key_of (Projection s) in
      let pg x := ActiveControlSession.ProcessGeneration (Projection x) in
      let register := (None, w <| drain_sessions := <[key := s]> (drain_sessions w) |>) in
      match drain_sessions w !! key with
      | None => register
      | Some current =>
          if (ActiveControlSession.AccountID (Projection current)
                != ActiveControlSession.AccountID (Projection s))
             || (ActiveControlSession.HostID (Projection current)
                   != ActiveControlSession.HostID (Projection s))
          then (Some (codeError ErrIdentityMismatch ReasonAuthentication false None), w)
          else if (pg s <? pg current)
                  || ((pg s =? pg current)
                      && (ActiveControlSession.SessionID (Projection s)
                            != ActiveControlSession.SessionID (Projection current)))
          then (Some (codeError ErrSessionConflict ReasonStaleGeneration false None), w)
          else register
      end
  end end.

Definition Drain_DetachSession (r : SessionRef) (w : DrainWorld) : DrainWorld :=
  if negb (ok (SessionRef_Validate r)) then w else
  let key := controlSessionKey (SessionRef.TunnelID r) (SessionRef.ConnectorID r) in
  match drain_sessions w !! key with
  | Some current =>
      if reference_at w (Session current) == r
      then w <| drain_sessions := delete key (drain_sessions w) |> else w
  | None => w
  end.

(** [DrainDispatcher.session] *)
Definition drain_session (w : DrainWorld) (o : DrainOperation) : option DrainLiveSession :=
  match drain_sessions w !! controlSessionKey (DrainOperation.TunnelID o) (DrainOperation.ConnectorID o) with
  | None => None
  | Some current =>
      if (ActiveControlSession.AccountID (Projection current) != DrainOperation.AccountID o)
         || (ActiveControlSession.HostID (Projection current) != DrainOperation.HostID o)
         || (reference_at w (Session current) != operation_ref o)
      then None else Some current
  end.

(** A method of the persistent session under a handle. *)
Definition on_handle {A} (h : nat) (m : Per (S := Sto) A) (w : DrainWorld) : Res A * DrainWorld :=
  let v := dw_server w in
  match pw_sessions v !! h with
  | None => (Err ErrInvalidInput, w)
  | Some s =>
      let (res, p) := m (mkPersistent (mkSrv (pw_registry v) s) (pw_store v)) in
      (res, w <| dw_server := mkPWorld (registry (mem p)) (<[h := sess (mem p)]> (pw_sessions v)) (durable p)
                             (pw_handles v) (pw_issued v) |>)
  end.

(** Whether the session's active configuration is the operation's and ready. *)
Definition current_is (w : DrainWorld) (h : nat) (o : DrainOperation) : bool :=
  match session_at w h ≫= ServerSession_Current with
  | None => false
  | Some (current, ready, generation) =>
      ready && (generation =? DrainOperation.ConfigGeneration o)
      && (Snapshot.Generation current =? DrainOperation.ConfigGeneration o)
      && (Snapshot.ContentHash current == DrainOperation.ConfigContentHash o)
  end.

Definition drain_at (w : DrainWorld) (h : nat) : Drain :=
  match session_at w h with Some s => drain_request s | None => Drain.zero end.

Definition forced (o : DrainOperation) : bool := DrainOperation.OperationType o == "connector.revoke".

(** The end of a turn: the drain of the session is handed to its carrier. *)
Definition hand_over (r : OpReading) (o : DrainOperation) (live : DrainLiveSession) (drain : Drain)
    (w : DrainWorld) : option goerror * DrainWorld :=
  if negb (drain_is_for drain o (forced o))
  then (Some (codeError ErrSessionConflict ReasonStaleGeneration false None), w) else
  match NewFrame MessageDrain (DrainOperation.OperationID o) (OtherValue (marshalled (Drain_text drain))) with
  | Err err => (Some err, w)
  | Ok frame =>
      let w := o_beforeSend r w in
      let (err, n) := deliver (Send live) frame (carriers w) in
      (err, w <| carriers := n |>)
  end.

(** The turn of one operation: its error, if any. *)
Definition drain_operation (r : OpReading) (o : DrainOperation) (w : DrainWorld)
    : option goerror * DrainWorld :=
  match DrainOperation_validate o with
  | Some err => (Some err, w)
  | None =>
  match drain_session w o with
  | None => (None, w)
  | Some live =>
  if negb (hasCapability (NegotiatedCapabilities live) CapabilityDrain) then (None, w) else
  let h := Session live in
  if Drain.DrainID (drain_at w h) == "" then
    if negb (current_is w h o) then (None, w) else
    let deadline := Add (o_deadlineNow r) (if forced o then DrainDispatcherConfig.RevokeDeadline cfg
                                           else DrainDispatcherConfig.DrainDeadline cfg) in
    match on_handle h (Persistent_BeginDrain (o_ctx r) (o_now r) (o_now2 r)
            (DrainOperation.OperationID o) deadline (forced o)) (o_beforeBegin r w) with
    | (Err err, w) => (Some err, w)
    | (Ok drain, w) => hand_over r o live drain w
    end
  else hand_over r o live (drain_at w h) w
  end end.

Fixpoint drain_operations (env : nat -> OpReading) (i : nat) (ops : list DrainOperation)
    (joined : option goerror) (w : DrainWorld) : option goerror * DrainWorld :=
  match ops with
  | [] => (joined, w)
  | o :: ops =>
      match drain_operation (env i) o (o_before (env i) w) with
      | (None, w) => drain_operations env (S i) ops joined w
      | (Some err, w) => drain_operations env (S i) ops (join_errors [joined; Some err]) w
      end
  end.

Definition set_store (w : DrainWorld) (s : Sto) : DrainWorld :=
  let v := dw_server w in
  w <| dw_server := mkPWorld (pw_registry v) (pw_sessions v) s (pw_handles v) (pw_issued v) |>.

Definition Drain_ReconcileOnce (ctx : Context) (env : nat -> OpReading) (w : DrainWorld)
    : option goerror * DrainWorld :=
  if ctx_nil ctx then (Some ErrInvalidInput, w) else
  match ctx_Err ctx with
  | Some err => (Some err, w)
  | None =>
      match ListConnectorDrainOperations (DrainDispatcherConfig.OperationLimit cfg) (pw_store (dw_server w)) with
      | (Err err, s) => (Some err, set_store w s)
      | (Ok ops, s) => drain_operations env 0 ops None (set_store w s)
      end
  end.
End Dispatcher.

(** The dispatcher as the transport sees it: [view] is the server that the stream
    is a part of, and [update] keeps the routes in what the streams share. *)
Section Service.
Context {Sto W Net : Type} `{!PersistentControlStore Sto}.
Context (view : Served (Sto := Sto) (W := W) -> DrainWorld (Sto := Sto) (Net := Net)).
Context (update : gmap string DrainLiveSession -> Sto -> Sto).
Context (handle carrier : nat).  (** of the stream's session *)

Definition with_routes (x : Served) (w : DrainWorld (Sto := Sto) (Net := Net)) : Served (Sto := Sto) (W := W) :=
  let s := sh_store (sv_shared x) in
  x <| sv_shared := (sv_shared x) <| sh_store := update (drain_sessions w) s |> |>.
(** The live session that [Serve] registers. *)
Definition drain_live (hello : Hello) (welcome : Welcome) (snapshot : Snapshot) : DrainLiveSession :=
  DrainLiveSession.mk (projection_of hello welcome snapshot) handle (Welcome.Capabilities welcome) carrier.
(** [snapshot] is the configuration that the hello was answered with; frames are
    not handled here. *)
Definition drain_service (snapshot : Snapshot) : Dispatcher (Sto := Sto) (W := W) := mkDispatcher
  (fun m hello welcome x =>
     let (err, w) := Drain_RegisterSession (m_ctx m) (drain_live hello welcome snapshot) (view x) in
     (err, with_routes x w))
  (fun r x => with_routes x (Drain_DetachSession r (view x)))
  (fun m r frame x => (None, x)).
End Service.

(** The same loop as that of the rotation dispatcher. *)
Definition drainRetryDelay (random : Z) (base : duration) (attempt : Z) : option duration :=
  let capDelay := double_until_minute (Z.to_nat (attempt - 1)) base in
  if capDelay <=? 1 then Some capDelay else Int64N random (to_i64 (capDelay + 1)).

(** * What the drain dispatcher does to the server and to the carriers

    A round of the dispatcher moves the durable server only by methods of its
    sessions, so every theorem of the server holds across it; and what it hands
    to a carrier is the drain that the session of that carrier holds, for the
    operation and the configuration that the store listed. *)
From S2P Require Import TransportSafety RotationDispatchSafety RotationDispatchFacts.
Import ServerSession.

Lemma drain_service_behaves {Sto W Net : Type} `{!PersistentControlStore Sto}
    (view : Served (Sto := Sto) (W := W) -> DrainWorld (Sto := Sto) (Net := Net)) update handle carrier snapshot :
  all_well_behaved (Some (drain_service view update handle carrier snapshot)).
Proof.
  intros d [= <-]. split; intros; cbn [RegisterSession DetachSession HandleFrame drain_service].
  - apply store_only. intros x. case_match. by eexists.
  - apply store_only. intros x. by eexists.
  - intros x. apply rtc_refl.
Qed.

Section Safety.
Context {Sto : Type} `{!PersistentControlStore Sto}.
Context (ListConnectorDrainOperations : Z -> Sto -> Res (list DrainOperation) * Sto).
Context (cfg : DrainDispatcherConfig).
Context (VerifyAuth : AuthRequest -> string -> list Z -> option goerror).
Context (VerifyRenewal : RenewalRequest -> string -> list Z -> option goerror).
Context (others : Sto -> Sto -> Prop).
(** A query of the operations is a change of the store that others may make. *)
Context (list_others : forall limit s, others s (snd (ListConnectorDrainOperations limit s))).
(** The carriers keep the frames that were handed to them, in order, and answer
    as they like. *)
#[local] Abbreviation Log := (list (nat * Frame)).
Context (answer : nat -> Frame -> Log -> option goerror).
#[local] Abbreviation logging := (logging answer).
(** The carrier of the stream on which the session of a handle is served. *)
Context (carrier_of : nat -> nat).
#[local] Abbreviation DrainWorld := (DrainWorld (Sto := Sto) (Net := Log)).
#[local] Abbreviation runs := (rtc (pwstep VerifyAuth VerifyRenewal others)).
Implicit Type w : DrainWorld.
Import DrainLiveSession.

(** An operation that a query returned. *)
Definition listed (o : DrainOperation) : Prop :=
  exists limit s ops s', ListConnectorDrainOperations limit s = (Ok ops, s') /\ o ∈ ops.

(** What a frame in a carrier is: the drain that the session of this carrier
    holds now, begun for an operation of the store that names the session. *)
Definition own_drain w (e : nat * Frame) : Prop :=
  exists h s o d,
    carrier_of h = fst e /\ session_at w h = Some s /\ drain s = Some d
    /\ Frame.Type_ (snd e) = MessageDrain /\ Drain_text d = Some (Frame.Payload (snd e))
    /\ listed o /\ DrainOperation_validate o = None /\ operation_ref o = ref s
    /\ drain_is_for d o (forced o) = true.

Record drain_inv w : Prop := {
  di_handles : forall h s, pw_sessions (dw_server w) !! h = Some s -> h ∈ pw_handles (dw_server w);
  di_live : forall k s, drain_sessions w !! k = Some s ->
    key_of (Projection s) = k /\ ActiveControlSession_validate (Projection s) = None
    /\ Send s = carrier_of (Session s)
    /\ exists ss, session_at w (Session s) = Some ss /\ ref ss = projection_ref (Projection s);
  di_sent : Forall (own_drain w) (carriers w);
}.
Definition moved w w' : Prop := drain_inv w' /\ runs (dw_server w) (dw_server w').
(** What runs beside the dispatcher moves the server by its own steps, and hands
    over and registers as the dispatcher does. *)
Definition moves_well (f : DrainWorld -> DrainWorld) : Prop := forall w, drain_inv w -> moved w (f w).
Record op_ok (r : OpReading (Sto := Sto) (Net := Log)) : Prop := {
  op_before : moves_well (o_before r);
  op_beforeBegin : moves_well (o_beforeBegin r);
  op_beforeSend : moves_well (o_beforeSend r);
}.

Lemma moved_refl w : drain_inv w -> moved w w.
Proof. intros H. split; [done|apply rtc_refl]. Qed.
Lemma moved_trans w1 w2 w3 : moved w1 w2 -> moved w2 w3 -> moved w1 w3.
Proof. intros [_ H1] [H H2]. split; [done|]. by etransitivity. Qed.

(** A session keeps its reference and the drain that it began. *)
Definition keeps_drain (s s' : ServerSession) : Prop :=
  ref s' = ref s /\ forall d, drain s = Some d -> drain s' = Some d.
Lemma session_steps_keep st st' : rtc session_step st st' -> keeps_drain (sess st) (sess st').
Proof.
  intros H. split; [by apply session_step_ref|].
  induction H as [|st st1 st2 [c ->] _ IH]; [done|]. intros d Hd. apply IH. by apply exec_drain_fixed.
Qed.

(** A session keeps its handle. *)
Lemma pwstep_ref v v' h s :
  (forall h s, pw_sessions v !! h = Some s -> h ∈ pw_handles v) ->
  pwstep VerifyAuth VerifyRenewal others v v' -> pw_sessions v !! h = Some s ->
  exists s', pw_sessions v' !! h = Some s' /\ keeps_drain s s'.
Proof.
  intros Hh Hstep Hs. destruct Hstep as [c0 ctx now authNow ids hello res r' s' h' Hrun Hid Hfresh|h' session c p' Hl <-|s' _].
  - assert (h <> h') by (intros ->; by apply Hh in Hs). cbn. destruct res as [[[session wel] first]|e]; [|by exists s].
    rewrite lookup_insert_ne by done. by exists s.
  - cbn. destruct (decide (h' = h)) as [->|Hne]; [|rewrite lookup_insert_ne by done; by exists s].
    rewrite lookup_insert_eq, Hs in *. injection Hl as <-. eexists. split; [done|].
    exact (session_steps_keep _ _ (pexec_runs VerifyRenewal c (mkPersistent (mkSrv (pw_registry v) s) (pw_store v)))).
  - exists s. by split.
Qed.

Lemma pwstep_handles v v' :
  (forall h s, pw_sessions v !! h = Some s -> h ∈ pw_handles v) -> pwstep VerifyAuth VerifyRenewal others v v' ->
  forall h s, pw_sessions v' !! h = Some s -> h ∈ pw_handles v'.
Proof.
  intros Hh Hstep h s. destruct Hstep as [c0 ctx now authNow ids hello res r' s' h' Hrun Hid Hfresh|h' session c p' Hl <-|s' _]; cbn.
  - assert (forall s0, pw_sessions v !! h = Some s0 -> h ∈ {[h']} ∪ pw_handles v) as Hold.
    { intros s0 Hs0. apply elem_of_union_r. eauto. }
    destruct res as [[[session wel] first]|e]; [|by apply Hold].
    intros [[<- _]|[_ Hs]]%lookup_insert_Some; [by apply elem_of_union_l, elem_of_singleton|eauto].
  - intros [[<- _]|[_ Hs]]%lookup_insert_Some; eauto.
  - eauto.
Qed.

(** A step of the server leaves the routes and the carriers as they are. *)
Lemma moved_server w v :
  drain_inv w -> pwstep VerifyAuth VerifyRenewal others (dw_server w) v -> moved w (w <| dw_server := v |>).
Proof.
  intros [Hh Hl Hn] Hs. split; [|by apply rtc_once]. split; [by eapply pwstep_handles| |].
  - intros k s Hk. destruct (Hl k s Hk) as (H1 & H2 & H3 & ss & E & Hss). split_and!; try done.
    destruct (pwstep_ref _ _ _ _ Hh Hs E) as (s' & E' & Hs' & _). exists s'. split; [done|congruence].
  - eapply Forall_impl; [exact Hn|]. intros e (h & s & o & d & H1 & E & H3 & H4 & H5 & H6 & H7 & H8 & H9).
    destruct (pwstep_ref _ _ _ _ Hh Hs E) as (s' & E' & Hr & Hd). exists h, s', o, d. split_and!; try done; [by apply Hd|].
    by rewrite Hr.
Qed.

Lemma runs_ref v v' h s :
  (forall h s, pw_sessions v !! h = Some s -> h ∈ pw_handles v) -> runs v v' -> pw_sessions v !! h = Some s ->
  exists s', pw_sessions v' !! h = Some s' /\ keeps_drain s s'.
Proof.
  intros Hh Hr. revert s Hh. induction Hr as [v|v v1 v2 Hs _ IH]; intros s Hh Hl; [by exists s|].
  destruct (pwstep_ref _ _ _ _ Hh Hs Hl) as (s1 & H1 & [R1 D1]).
  destruct (IH s1) as (s2 & H2 & [R2 D2]); [by eapply pwstep_handles|done|].
  exists s2. split; [done|]. split; [congruence|auto].
Qed.

Lemma begin_drain_moved h ctx now now2 id deadline force w :
  drain_inv w ->
  let run := on_handle h (Persistent_BeginDrain ctx now now2 id deadline force) w in
  moved w (snd run)
  /\ forall d, fst run = Ok d -> exists s, session_at (snd run) h = Some s /\ drain s = Some d.
Proof.
  intros Hw run. unfold on_handle in run. destruct (pw_sessions (dw_server w) !! h) as [s|] eqn:Hs;
    [|subst run; split; [by apply moved_refl|done]].
  set (p := mkPersistent (mkSrv (pw_registry (dw_server w)) s) (pw_store (dw_server w))) in *.
  assert (Hp : snd (pexec VerifyRenewal (PBeginDrain ctx now now2 id deadline force) p)
               = snd (Persistent_BeginDrain ctx now now2 id deadline force p)).
  { cbn [pexec]. rewrite mbind_unfold. by destruct (Persistent_BeginDrain _ _ _ _ _ _ p) as [[?|?] ?]. }
  assert (Hd : wp (Persistent_BeginDrain ctx now now2 id deadline force)
    (fun res p' => forall d, res = Ok d -> drain (sess (mem p')) = Some d) p).
  { unfold Persistent_BeginDrain. wp_step. wp_step; [done|]. wp_step. unfold wp at 1, Persistence.session.
    destruct (BeginDrain _ _ _ _ _ _ _) as [res st'] eqn:E. cbn [fst snd]. wp_step. apply wp_lift.
    destruct res as [d|]; [|done]. apply BeginDrain_ok in E as (_ & Hdr & _).
    wp_step. unfold wp at 1, current. cbn [fst snd]. wp_step. unfold wp at 1, in_store. cbn [fst snd].
    destruct (RecordDrain _ _ _ _ _ _) as [[e|] s'] eqn:Er; cbn [fst snd].
    - cbn [or_fail_closed]. wp_step. by apply wp_failClosed.
    - cbn [or_fail_closed]. wp_step. wp_step. by intros ? [= <-]. }
  unfold wp in Hd. rewrite <- Hp in Hd.
  destruct (Persistent_BeginDrain _ _ _ _ _ _ p) as [res p'] eqn:E. cbn [fst snd] in *. subst run. cbn [fst snd].
  split.
  - apply moved_server; [done|]. rewrite <- Hp. by apply (pwstep_call VerifyAuth VerifyRenewal others (dw_server w) h s (PBeginDrain ctx now now2 id deadline force)).
  - intros d ->. eexists. unfold session_at. cbn. rewrite lookup_insert_eq. split; [done|]. rewrite Hp in Hd. by apply Hd.
Qed.

(** *** The turn of one operation *)
Section Turn.
Context (r : OpReading (Sto := Sto) (Net := Log)) (Hr : op_ok r).
Context (o : DrainOperation) (Hlisted : listed o) (Ho : DrainOperation_validate o = None).

(** The session still holds the drain when the frame is handed over. *)
Lemma hand_over_moved live d w0 w s :
  moved w0 w -> Send live = carrier_of (Session live) -> session_at w (Session live) = Some s ->
  operation_ref o = ref s -> drain s = Some d -> moved w0 (snd (hand_over logging r o live d w)).
Proof using Hr Ho Hlisted.
  intros Hm Hsend Hs Href Hd. unfold hand_over. destruct (drain_is_for d o _) eqn:Hfor; [|done]. cbn [negb].
  destruct (NewFrame _ _ _) as [frame|e] eqn:Hf; [|done]. apply NewFrame_type in Hf as Hty.
  apply NewFrame_encoded in Hf. cbn [snd logging]. eapply moved_trans; [exact Hm|]. destruct Hm as [Hw _].
  destruct (op_beforeSend _ Hr w Hw) as [[Hh Hlv Hn] Hrun]. split; [|done]. split; [done|done|]. cbn.
  assert (forall e, own_drain (o_beforeSend r w) e ->
    own_drain ((o_beforeSend r w) <| carriers := carriers (o_beforeSend r w) ++ [(Send live, frame)] |>) e) as Hsame by done.
  apply Forall_app. split; [by eapply Forall_impl|]. apply Forall_singleton, Hsame.
  destruct (runs_ref _ _ _ _ (di_handles _ Hw) Hrun Hs) as (s' & Hs' & Hr' & Hd').
  exists (Session live), s', o, d. split_and!; try done; [by apply Hd'| |by rewrite Hr'].
  unfold marshalled in Hf. cbn. by destruct (Drain_text d); simplify_eq.
Qed.

Lemma drain_operation_moved w : drain_inv w -> moved w (snd (drain_operation logging cfg r o w)).
Proof using Hr Ho Hlisted.
  intros Hw. unfold drain_operation. rewrite Ho.
  destruct (drain_session w o) as [live|] eqn:Hlive; [|by apply moved_refl].
  unfold drain_session in Hlive. destruct (drain_sessions w !! _) as [cur|] eqn:Hcur; [|done].
  case_match eqn:Hg; [done|]. injection Hlive as ->. bool_prop.
  destruct (di_live _ Hw _ _ Hcur) as (_ & Hval & Hsend & ss & Hss & Href).
  assert (Hro : operation_ref o = ref ss).
  { match goal with H : reference_at _ _ = operation_ref o |- _ => rewrite <- H end. unfold reference_at. by rewrite Hss. }
  destruct (hasCapability _ _) eqn:Hcap; [|by apply moved_refl]. cbn [negb]. cbv zeta.
  destruct (Drain.DrainID (drain_at w (Session live)) == "") eqn:Hdr.
  - destruct (current_is w (Session live) o); [|by apply moved_refl]. cbn [negb].
    pose proof (op_beforeBegin _ Hr w Hw) as Hb.
    match goal with |- context [on_handle ?h (Persistent_BeginDrain ?a ?b ?c ?i ?dl ?f) ?x] =>
      pose proof (begin_drain_moved h a b c i dl f x (proj1 Hb)) as Hbd end. cbv zeta in Hbd.
    destruct (on_handle _ _ _) as [[d|e] w'] eqn:E; cbn [fst snd] in Hbd; destruct Hbd as [Hm Hd];
      [|by eapply moved_trans].
    assert (Hm' : moved w w') by (by eapply moved_trans). destruct (Hd d eq_refl) as (s & Hs & Hds).
    apply (hand_over_moved live d w w' s); try done.
    destruct (runs_ref _ _ _ _ (di_handles _ Hw) (proj2 Hm') Hss) as (s' & Hs' & [Hr' _]).
    unfold session_at in Hs. rewrite Hs in Hs'. injection Hs' as <-. congruence.
  - apply (hand_over_moved live _ w w ss); try done. bool_prop.
    unfold drain_at in *. rewrite Hss in *. unfold drain_request in *. by destruct (drain ss).
Qed.
End Turn.

Lemma drain_operations_moved env ops : forall i joined w,
  (forall o, o ∈ ops -> listed o) -> (forall j, op_ok (env j)) -> drain_inv w ->
  moved w (snd (drain_operations logging cfg env i ops joined w)).
Proof.
  induction ops as [|o ops IH]; intros i joined w Hl He Hw; [by apply moved_refl|]. cbn [drain_operations].
  pose proof (op_before _ (He i) w Hw) as Hb.
  assert (Ht : moved w (snd (drain_operation logging cfg (env i) o (o_before (env i) w)))).
  { eapply moved_trans; [exact Hb|]. destruct (DrainOperation_validate o) as [e|] eqn:Ho.
    - unfold drain_operation. rewrite Ho. apply moved_refl, Hb.
    - apply drain_operation_moved; [done| |done|apply Hb]. apply Hl. left. }
  assert (forall x, x ∈ ops -> listed x) as Hl' by (intros x Hx; apply Hl; by right).
  destruct (drain_operation _ _ _ _ _) as [[e|] w']; (eapply moved_trans; [exact Ht|apply IH; [done|done|apply Ht]]).
Qed.

Lemma Drain_ReconcileOnce_moved ctx env w :
  (forall j, op_ok (env j)) -> drain_inv w ->
  moved w (snd (Drain_ReconcileOnce logging ListConnectorDrainOperations cfg ctx env w)).
Proof using list_others.
  intros He Hw. unfold Drain_ReconcileOnce. destruct (ctx_nil ctx); [by apply moved_refl|].
  destruct (ctx_Err ctx); [by apply moved_refl|]. destruct (ListConnectorDrainOperations _ _) as [res s] eqn:E.
  assert (Hs : moved w (set_store w s)).
  { apply moved_server; [done|]. apply pwstep_others. change s with (snd (res, s)). rewrite <- E. apply list_others. }
  destruct res as [ops|e]; [|done]. eapply moved_trans; [exact Hs|].
  apply drain_operations_moved; [|done|apply Hs]. intros o Hin. by eexists _, _, ops, s.
Qed.

Lemma moved_routes w m :
  (forall k s, m !! k = Some s -> drain_sessions w !! k = Some s \/ (k = key_of (Projection s)
     /\ ActiveControlSession_validate (Projection s) = None /\ Send s = carrier_of (Session s)
     /\ exists ss, session_at w (Session s) = Some ss /\ ref ss = projection_ref (Projection s))) ->
  drain_inv w -> moved w (w <| drain_sessions := m |>).
Proof.
  intros Hm [Hh Hl Hn]. split; [|apply rtc_refl]. split; [done| |done]. cbn. intros k s Hk.
  destruct (Hm k s Hk) as [H|(-> & ? & ? & ?)]; [by apply Hl|done].
Qed.

Lemma Drain_RegisterSession_moved ctx s w : Send s = carrier_of (Session s) -> drain_inv w -> moved w (snd (Drain_RegisterSession ctx s w)).
Proof.
  intros Hsend Hw. unfold Drain_RegisterSession. destruct (ctx_nil ctx); [by apply moved_refl|].
  destruct (ctx_Err ctx); [by apply moved_refl|].
  destruct (DrainLiveSession_validate w s) eqn:Hv; [by apply moved_refl|]. cbv zeta.
  assert (Hreg : moved w (w <| drain_sessions := <[key_of (Projection s) := s]> (drain_sessions w) |>)).
  { apply moved_routes; [|done]. unfold DrainLiveSession_validate in Hv. case_match eqn:Hg; [done|].
    apply orb_false_iff in Hg as [[Hg1 Hg2]%orb_false_iff Hg3]. bool_prop. apply ok_None in Hg1.
    destruct Hg2 as [ss Hss]. unfold reference_at in Hg3. rewrite Hss in Hg3.
    intros k s' [[<- <-]|[_ Hk]]%lookup_insert_Some; [right|by left]. split_and!; [done..|]. eauto. }
  repeat case_match; cbn [snd]; first [exact Hreg|by apply moved_refl].
Qed.

Lemma Drain_DetachSession_moved rf w : drain_inv w -> moved w (Drain_DetachSession rf w).
Proof.
  intros Hw. unfold Drain_DetachSession. repeat case_match; try (by apply moved_refl).
  apply moved_routes; [|done]. intros k s' Hk. left. by eapply lookup_delete_Some.
Qed.

(** ** Every run of the dispatcher *)
Inductive DrainCall :=
| DrainRegister (ctx : Context) (s : DrainLiveSession)
| DrainDetach (rf : SessionRef)
| DrainReconcile (ctx : Context) (env : nat -> OpReading (Sto := Sto) (Net := Log))
| DrainOther (f : DrainWorld -> DrainWorld).
Definition drain_call (call : DrainCall) w : DrainWorld :=
  match call with
  | DrainRegister ctx s => snd (Drain_RegisterSession ctx s w)
  | DrainDetach rf => Drain_DetachSession rf w
  | DrainReconcile ctx env => snd (Drain_ReconcileOnce logging ListConnectorDrainOperations cfg ctx env w)
  | DrainOther f => f w
  end.
Definition drain_run (calls : list DrainCall) w : DrainWorld := foldl (fun w call => drain_call call w) w calls.
(** A stream registers its own carrier for its session. *)
Definition drain_call_ok (call : DrainCall) : Prop :=
  match call with
  | DrainRegister _ s => Send s = carrier_of (Session s)
  | DrainReconcile _ env => forall j, op_ok (env j)
  | DrainOther f => moves_well f
  | _ => True
  end.

Lemma drain_run_moved calls : forall w, Forall drain_call_ok calls -> drain_inv w -> moved w (drain_run calls w).
Proof using list_others.
  induction calls as [|call calls IH]; intros w Hok Hw; [by apply moved_refl|]. inversion Hok as [|? ? Hc Hcs]; subst.
  assert (Hm : moved w (drain_call call w)).
  { destruct call; cbn [drain_call].
    - by apply Drain_RegisterSession_moved.
    - by apply Drain_DetachSession_moved.
    - by apply Drain_ReconcileOnce_moved.
    - by apply Hc. }
  eapply moved_trans; [exact Hm|]. apply IH; [done|apply Hm].
Qed.

Definition no_drains (s : Sto) : DrainWorld := mkDrainWorld (pw_init s) ∅ [].
Lemma no_drains_inv s : drain_inv (no_drains s).
Proof. split; [| |done]; cbn; intros k s0; by rewrite lookup_empty. Qed.

(** C33. In every run of the drain dispatcher beside the durable server, each frame that it has
    handed to a carrier is the drain that the session served on this carrier holds at that
    moment and ever after (so the drain was begun before it was sent), for a valid operation
    that the store listed and that names the session's tunnel, connector, session and process
    generation, and the drain agrees with the operation in account, identifier, configuration
    and force flag; and the run moves the server only by methods of its sessions. *)
Theorem drains_reach_their_session calls s :
  Forall drain_call_ok calls ->
  let w := drain_run calls (no_drains s) in
  Forall (own_drain w) (carriers w) /\ rtc (pwstep VerifyAuth VerifyRenewal others) (pw_init s) (dw_server w).
Proof using list_others.
  intros Hc w. destruct (drain_run_moved calls (no_drains s) Hc (no_drains_inv s)) as [Hi Hr].
  split; [apply Hi|exact Hr].
Qed.
End Safety.

(** ** Delays *)
Theorem drainRetryDelay_bounds config cfg random attempt :
  NewDrainDispatcher config = Ok cfg ->
  exists delay, drainRetryDelay random (DrainDispatcherConfig.ReconcileInterval cfg) attempt = Some delay
    /\ 0 <= delay <= Minute.
Proof.
  intros Hc. unfold NewDrainDispatcher in Hc. cbv zeta in Hc. destruct (_ || _) eqn:Hg; [done|].
  injection Hc as <-. bool_prop. cbn. set (base := or_default _ _) in *.
  destruct (retry_delay_range random base attempt) as (delay & E & Hd);
    [lia|unfold max_int64; unfold Minute, Second in *; lia|]. exists delay. split; [exact E|lia].
Qed.
