(* ===== verification/GoNet.v ===== *)
(** * More of Go's standard library: hosts, hexadecimal text, case folding

    What the preview packages use beyond [GoText] and [GoUrl]: the host name and
    the bare [?] of a URL, [hex.DecodeString], [strings.EqualFold] against an
    ASCII word, the removal of a suffix and [net.SplitHostPort]. *)
From S2P Require Import Prelude GoText GoHash GoUrl.

(** [strings.HasSuffix] and [strings.TrimSuffix]. *)
Definition HasSuffix (s p : string) : bool := HasPrefix (srev s) (srev p).
Definition TrimSuffix (s p : string) : string :=
  match strip_prefix (srev p) (srev s) with Some r => srev r | None => s end.
Definition TrimPrefix (s p : string) : string := default s (strip_prefix p s).

(** [strings.EqualFold(s, word)] for an ASCII word: besides the ASCII letters
    only U+017F and U+212A fold to an ASCII letter, "s" and "k". *)
Definition fold_rune (r : Z) : Z :=
  if (65 <=? r) && (r <=? 90) then r + 32
  else if r =? 383 then 115 else if r =? 8490 then 107 else r.
Definition EqualFold (s word : string) : bool :=
  bool_decide (fold_rune <$> runes s = fold_rune <$> runes word).

(** [hex.DecodeString]: pairs of digits of either case. *)
Fixpoint hex_DecodeString (s : string) : option (list Z) :=
  match s with
  | EmptyString => Some []
  | String h (String l s') =>
      x ← unhex h; y ← unhex l; rest ← hex_DecodeString s'; Some (x * 16 + y :: rest)
  | String _ EmptyString => None
  end.

(** [URL.Hostname]: the host without a valid port and without brackets. *)
Definition Hostname (u : URL) : string :=
  let host := match CutLast (Host u) ":" with
              | Some (h, p) => if all_bytes is_digit p then h else Host u
              | None => Host u
              end in
  if HasPrefix host "[" && HasSuffix host "]" then TrimSuffix (TrimPrefix host "[") "]" else host.

(** [URL.ForceQuery] of a text that parses: its only [?] ends it. *)
Definition ForceQuery (rawURL : string) : bool :=
  match getScheme (fst (Cut rawURL "#")) with
  | Some (_, rest) => bool_decide (snd (Cut rest "?") = Some "")
  | None => false
  end.

(** [strings.Trim(s, cutset)] for a cutset of ASCII bytes. *)
Fixpoint TrimLeft (s cutset : string) : string :=
  match s with
  | String c s' => if any_byte (fun d => c == d) cutset then TrimLeft s' cutset else s
  | EmptyString => ""
  end.
Definition TrimRight (s cutset : string) : string := srev (TrimLeft (srev s) cutset).
Definition Trim (s cutset : string) : string := TrimRight (TrimLeft s cutset) cutset.

(** [net.SplitHostPort]: the port follows the last colon; a host with colons is
    in brackets that end just before it, and there are no other brackets. *)
Definition SplitHostPort (hostport : string) : option (string * string) :=
  '(before, port) ← CutLast hostport ":";
  if HasPrefix hostport "[" then
    match Cut hostport "]" with
    | (bracketed, Some rest) =>
        let host := TrimPrefix bracketed "[" in
        if (rest == ":" +:+ port) && negb (has_byte 91 host) && negb (has_byte 91 rest) && negb (has_byte 93 rest)
        then Some (host, port) else None
    | (_, None) => None
    end
  else if has_byte 58 before || has_byte 91 hostport || has_byte 93 hostport then None
  else Some (before, port).

(** ** Examples *)
Example split_host : SplitHostPort "edge.example:443" = Some ("edge.example", "443").
Proof. reflexivity. Qed.
Example split_v6 : SplitHostPort "[::1]:8443" = Some ("::1", "8443") /\ SplitHostPort "::1" = None
  /\ SplitHostPort "[::1]" = None /\ SplitHostPort "[::1]a:8443" = None /\ SplitHostPort "a" = None.
Proof. repeat split; reflexivity. Qed.
Example EqualFold_kelvin : EqualFold (String (byte_of 226) (String (byte_of 132) (String (byte_of 170) ""))) "K" = true.
Proof. reflexivity. Qed.
Example hex_decode : hex_DecodeString "0aFf" = Some [10; 255].
Proof. reflexivity. Qed.
Example hostname_port : Hostname <$> url_Parse "h3://edge.example:443" = Some "edge.example".
Proof. reflexivity. Qed.
Example hostname_v6 : Hostname <$> url_Parse "h2://[::1]:8443" = Some "::1".
Proof. reflexivity. Qed.
Example force_query : ForceQuery "https://a.example?" = true /\ ForceQuery "https://a.example?x" = false.
Proof. split; reflexivity. Qed.

(** ** Facts *)
Lemma hex_decode_encode l : is_bytes l -> hex_DecodeString (hex_EncodeToString l) = Some l.
Proof.
  assert (Hd : forall n, 0 <= n < 16 -> unhex (hex_digit n) = Some n).
  { intros n Hn. unfold hex_digit, unhex, is_digit, between.
    destruct (n <? 10) eqn:E; bool_prop; rewrite code_byte_of by lia.
    - rewrite (proj2 (Z.leb_le _ _)), (proj2 (Z.leb_le _ _)) by lia. cbn. f_equal. lia.
    - destruct (48 <=? 87 + n) eqn:E1, (87 + n <=? 57) eqn:E2; bool_prop; try lia; cbn;
      rewrite (proj2 (Z.leb_le _ _)), (proj2 (Z.leb_le _ _)) by lia; cbn; f_equal; lia. }
  induction 1 as [|b l Hb _ IH]; [done|]. cbn [hex_EncodeToString hex_DecodeString].
  rewrite !Hd, IH by (split; [apply Z.div_pos || apply Z.mod_pos_bound|apply Z.div_lt_upper_bound || apply Z.mod_pos_bound]; lia).
  cbn. do 2 f_equal. pose proof (Z.div_mod b 16). lia.
Qed.

Lemma length_hex_Encode l : slen (hex_EncodeToString l) = 2 * Z.of_nat (length l).
Proof.
  induction l as [|b l IH]; [done|]. cbn [hex_EncodeToString]. rewrite !slen_cons, IH. cbn [length]. lia.
Qed.
