(* ===== verification/PreviewContract.v ===== *)
(** * The contract of preview carrier attachments

    src/internal/previewattachment/contract.go: what a preview attachment, a
    request for one and the authoritative resolution behind it are, when they
    are valid, and when two bindings name the same carrier.  The errors are the
    sentinels of the package; the text that wraps one is not kept.  An error of
    another package is [Other].

    Hosts are lower-cased with [ToLower] of [GoText], which leaves letters
    outside ASCII as they are. *)
From S2P Require Import Prelude GoText GoHash GoUrl GoJson GoNet Errors.

Definition Schema : string := "paperboat.preview-tunnel/v1".
Definition Kind : string := "preview_carrier_attachment".

Definition StatePending : string := "pending".
Definition StateAdmitted : string := "admitted".
Definition StateEdgeReady : string := "edge_ready".
Definition StateReady : string := "ready".
Definition StateFailed : string := "failed".
Definition StateReleased : string := "released".

Inductive PreviewError :=
| ErrInvalid | ErrNotFound | ErrIdempotencyConflict | ErrConflict | ErrStaleBinding | ErrExpired
| ErrTerminal | ErrUnauthorized | ErrAdmissionUnavailable
| ErrNoRows  (** the driver's error for a query without a row *)
| Other (e : goerror).

Abbreviation PRes A := (result PreviewError A).

(** ** Checks of single fields *)

Definition validID (value : string) : bool :=
  negb ((slen value <? 3) || (256 <? slen value))
  && forallb (fun r => (0x21 <=? r) && (r <=? 0x7e)) (runes value).

Definition hasControl (value : string) : bool :=
  existsb (fun r => (r <? 0x20) || (r =? 0x7f)) (runes value).

Definition dash_edge (label : string) : bool := HasPrefix label "-" || HasSuffix label "-".
Definition validAliasDNSName (value : string) : bool :=
  if (value == "") || (253 <? slen value)
     || ContainsAny value ("/:@[] " +:+ of_bytes (byte_of <$> [9; 13; 10])) then false else
  let labels := Split value "." in
  if Z.of_nat (length labels) <? 2 then false else
  forallb (fun label =>
    negb ((label == "") || (63 <? slen label) || dash_edge label)
    && forallb (fun r => (r =? 45) || ((97 <=? r) && (r <=? 122)) || ((48 <=? r) && (r <=? 57)))
         (runes label)) labels.

Definition sha256_prefix : string := "sha256:".
Definition validContentHash (value : string) : bool :=
  if negb (slen value =? slen sha256_prefix + 64) || negb (HasPrefix value sha256_prefix) then false
  else match hex_DecodeString (TrimPrefix value sha256_prefix) with Some _ => true | None => false end.

Definition validCarrierServerSPKISHA256 (value : string) : bool :=
  if negb (slen value =? slen sha256_prefix + 64) || negb (HasPrefix value sha256_prefix) then false
  else match hex_DecodeString (TrimPrefix value sha256_prefix) with
       | Some decoded => Z.of_nat (length decoded) =? 32
       | None => false
       end.

(** The strict decoder of the library skips line breaks, which [hasControl]
    excludes before it is called. *)
Definition decodes_to_32 (value : string) : bool :=
  match b64_decode value with Some decoded => Z.of_nat (length decoded) =? 32 | None => false end.

Definition validMachineIdentityPublicKey (value : string) : bool :=
  if (slen value <? 40) || (256 <? slen value) || hasControl value then false else decodes_to_32 value.

Definition validMachineIdentityThumbprint (value : string) : bool :=
  if negb (slen value =? slen sha256_prefix + 43) || negb (HasPrefix value sha256_prefix)
     || hasControl value then false
  else decodes_to_32 (TrimPrefix value sha256_prefix).

(** [connectorprotocol.ValidateOpaqueEpoch]. *)
Definition MinOpaqueEpochBytes : Z := 8.
Definition MaxOpaqueEpochBytes : Z := 128.
Definition ValidateOpaqueEpoch (value : string) : option goerror :=
  if (slen value <? MinOpaqueEpochBytes) || (MaxOpaqueEpochBytes <? slen value)
     || negb (forallb (fun c => ((97 <=? c) && (c <=? 122)) || ((65 <=? c) && (c <=? 90))
                                || ((48 <=? c) && (c <=? 57)) || (c =? 45) || (c =? 95)) (runes value))
  then Some ErrInvalidInput else None.

Definition validateEndpoint (value : string) : option PreviewError :=
  if (slen value =? 0) || (2048 <? slen value) || hasControl value then Some ErrInvalid else
  match url_Parse value with
  | None => Some ErrInvalid
  | Some u =>
      if (Scheme u == "") || (Host u == "") || User u || (RawQuery u != "") || (Fragment u != "")
      then Some ErrInvalid
      else if negb (EqualFold (Scheme u) "https") && negb (EqualFold (Scheme u) "http")
      then Some ErrInvalid else None
  end.

Definition endpointHost (value : string) : string :=
  match url_Parse value with None => "" | Some u => ToLower (Host u) end.

Definition endpointHostname (value : string) : string :=
  match url_Parse value with None => "" | Some u => ToLower (TrimSuffix (Hostname u) ".") end.

(** One endpoint, given those before it and the schemes they had. *)
Definition edge_endpoint (seen : list string) (endpoint : string) : PRes string :=
  if (slen endpoint =? 0) || (2048 <? slen endpoint) || hasControl endpoint then Err ErrInvalid else
  match url_Parse endpoint with
  | None => Err ErrInvalid
  | Some u =>
      if (Scheme u == "") || (Host u == "") || (Hostname u == "") || User u || (RawQuery u != "")
         || (Fragment u != "") || ForceQuery endpoint || (Path u != "") || (Opaque u != "")
      then Err ErrInvalid else
      let scheme := ToLower (Scheme u) in
      if negb ((scheme == "h2") || (scheme == "h3")) then Err ErrInvalid else
      match Atoi (Port u) with
      | None => Err ErrInvalid
      | Some port =>
          if (port <? 1) || (65535 <? port) then Err ErrInvalid
          else if bool_decide (endpoint ∈ seen) then Err ErrInvalid else Ok scheme
      end
  end.

Fixpoint edge_endpoints (seen schemes : list string) (endpoints : list string) : option PreviewError :=
  match endpoints with
  | [] => if negb (Z.of_nat (length (remove_dups schemes)) =? 2) then Some ErrConflict else None
  | endpoint :: rest =>
      match edge_endpoint seen endpoint with
      | Err e => Some e
      | Ok scheme => edge_endpoints (endpoint :: seen) (scheme :: schemes) rest
      end
  end.

Definition validateEdgeEndpoints (endpoints : list string) : option PreviewError :=
  if negb (Z.of_nat (length endpoints) =? 2) then Some ErrConflict else edge_endpoints [] [] endpoints.

(** ** Access modes *)
Definition accessModePublic : string := "public".
Definition accessModePrivate : string := "private".
Definition publicRouteKind : string := "preview_public_https_wss".
Definition privateRouteKind : string := "preview_private_https_wss".

Definition routeForAccessMode (accessMode : string) : string * string :=
  if accessMode == accessModePublic then (accessModePublic, publicRouteKind)
  else if (accessMode == accessModePrivate) || (accessMode == "team") then (accessMode, privateRouteKind)
  else ("", "").
Definition routeKindForAccessMode (accessMode : string) : string := snd (routeForAccessMode accessMode).

Definition validateAccessModeAndRoute (accessMode routeKind : string) : option PreviewError :=
  let want := snd (routeForAccessMode accessMode) in
  if want == "" then Some ErrInvalid
  else if (routeKind != "") && (routeKind != want) then Some ErrInvalid else None.

(** ** Proofs and requests *)
Module MachineProof.
Record MachineProof := mk {
  UserID : string;
  MachineID : string;
  OperationID : string;
  InstallationGeneration : Z;
}.
End MachineProof.
Abbreviation MachineProof := MachineProof.MachineProof.

Section MachineProofValidate.
Import MachineProof.
Definition MachineProof_Validate (p : MachineProof) : option PreviewError :=
  if negb (validID (UserID p)) || negb (validID (MachineID p)) || negb (validID (OperationID p))
  then Some ErrInvalid
  else if InstallationGeneration p =? 0 then Some ErrInvalid else None.
End MachineProofValidate.

Module Request.
Record Request := mk {
  PreviewID : string;
  OperationID : string;
  OwnerDeviceID : string;
  OwnerSessionID : string;
  IdempotencyKey : string;
  RequestID : string;
  CorrelationID : string;
}.
#[export] Instance eq_dec : EqDecision Request.
Proof. solve_decision. Defined.
End Request.
Export (hints) Request.
Abbreviation Request := Request.Request.

(** The lengths and the control characters of the fields that trace a request. *)
Definition trace_lengths (requestID correlationID : string) : bool :=
  (3 <=? slen requestID) && (slen requestID <=? 128)
  && (3 <=? slen correlationID) && (slen correlationID <=? 128).
Definition trace_control (idempotencyKey requestID correlationID : string) : bool :=
  hasControl idempotencyKey || hasControl requestID || hasControl correlationID.

Section RequestMethods.
Import Request.
Definition Request_Validate (r : Request) : option PreviewError :=
  if negb (validID (PreviewID r)) || negb (validID (OperationID r)) || negb (validID (OwnerDeviceID r))
     || negb (validID (OwnerSessionID r))
  then Some ErrInvalid
  else if (slen (IdempotencyKey r) <? 1) || (256 <? slen (IdempotencyKey r)) then Some ErrInvalid
  else if negb (trace_lengths (RequestID r) (CorrelationID r)) then Some ErrInvalid
  else if trace_control (IdempotencyKey r) (RequestID r) (CorrelationID r) then Some ErrInvalid
  else None.

(** The text that is hashed: the request with the account in front, in the order
    of the declaration. *)
Definition request_envelope (accountID : string) (r : Request) : string :=
  object_text
    [member "account_id" (quote accountID);
     member "preview_id" (quote (PreviewID r));
     member "operation_id" (quote (OperationID r));
     member "owner_device_id" (quote (OwnerDeviceID r));
     member "owner_session_id" (quote (OwnerSessionID r));
     member "idempotency_key" (quote (IdempotencyKey r));
     member "request_id" (quote (RequestID r));
     member "correlation_id" (quote (CorrelationID r))].

Definition Request_Hash (r : Request) (accountID : string) : PRes string :=
  if negb (validID accountID) then Err ErrInvalid else
  match Request_Validate r with
  | Some e => Err e
  | None => Ok (hex_EncodeToString (Sum256 (request_envelope accountID r)))
  end.
End RequestMethods.

Module Target.
Record Target := mk { Scheme : string; Address : string }.
#[export] Instance eq_dec : EqDecision Target.
Proof. solve_decision. Defined.
End Target.
Export (hints) Target.
Abbreviation Target := Target.Target.

Definition Target_Validate (t : Target) : option PreviewError :=
  let scheme := Target.Scheme t in
  let address := Target.Address t in
  if (slen scheme =? 0) || (32 <? slen scheme) || (slen address =? 0) || (2048 <? slen address)
     || hasControl scheme || hasControl address
  then Some ErrInvalid
  else if existsb (EqualFold scheme) ["http"; "https"; "h2c"; "tcp"; "unix"] then None
  else Some ErrInvalid.

(** ** The authoritative resolution *)
Module LeaseSnapshot.
Record LeaseSnapshot := mk {
  MachineAccountID : string;
  AccountID : string;
  ActorID : string;
  PreviewID : string;
  OperationID : string;
  OwnerDeviceID : string;
  OwnerSessionID : string;
  Endpoint : string;
  Target : Target;
  AccessMode : string;
  Generation : Z;
  LeaseDeadline : time;
  State : string;
  MachineIdentityPublicKey : string;
  MachineIdentityThumbprint : string;
}.
#[export] Instance settable : Settable LeaseSnapshot := fun l =>
  mk (MachineAccountID l) (AccountID l) (ActorID l) (PreviewID l) (OperationID l) (OwnerDeviceID l)
    (OwnerSessionID l) (Endpoint l) (Target l) (AccessMode l) (Generation l) (LeaseDeadline l) (State l)
    (MachineIdentityPublicKey l) (MachineIdentityThumbprint l).
End LeaseSnapshot.
Export (hints) LeaseSnapshot.
Abbreviation LeaseSnapshot := LeaseSnapshot.LeaseSnapshot.

Module CarrierSnapshot.
Record CarrierSnapshot := mk {
  AccountID : string;
  HostID : string;
  Ephemeral : bool;
  TunnelID : string;
  ConnectorID : string;
  SessionID : string;
  ProcessGeneration : Z;
  ConfigGeneration : Z;
  ConfigContentHash : string;
  LeaseDeadline : time;
  EdgeNodeID : string;
  EdgeProcessEpoch : string;
  EdgeCarrierServerSPKISHA256 : string;
  EdgeCarrierServerCertificateChainPEM : string;
  MachineIdentityPublicKey : string;
  MachineIdentityThumbprint : string;
  EdgeEndpoints : list string;
}.
#[export] Instance settable : Settable CarrierSnapshot := fun c =>
  mk (AccountID c) (HostID c) (Ephemeral c) (TunnelID c) (ConnectorID c) (SessionID c)
    (ProcessGeneration c) (ConfigGeneration c) (ConfigContentHash c) (LeaseDeadline c) (EdgeNodeID c)
    (EdgeProcessEpoch c) (EdgeCarrierServerSPKISHA256 c) (EdgeCarrierServerCertificateChainPEM c)
    (MachineIdentityPublicKey c) (MachineIdentityThumbprint c) (EdgeEndpoints c).
End CarrierSnapshot.
Export (hints) CarrierSnapshot.
Abbreviation CarrierSnapshot := CarrierSnapshot.CarrierSnapshot.

Module RouteSnapshot.
Record RouteSnapshot := mk {
  AccountID : string;
  TunnelID : string;
  RouteID : string;
  Generation : Z;
  Protocol : string;
  PublicEndpoint : string;
}.
End RouteSnapshot.
Abbreviation RouteSnapshot := RouteSnapshot.RouteSnapshot.

Module Resolution.
Record Resolution := mk { Lease : LeaseSnapshot; Carrier : CarrierSnapshot; Route : RouteSnapshot }.
#[export] Instance settable : Settable Resolution := fun r => mk (Lease r) (Carrier r) (Route r).
End Resolution.
Export (hints) Resolution.
Abbreviation Resolution := Resolution.Resolution.

Record ResolveRequest := mkResolveRequest { rr_Proof : MachineProof; rr_Request : Request }.

Section ValidateResolution.
Import Resolution.

Definition lease_error (now : time) (l : LeaseSnapshot) : option PreviewError :=
  let LAccountID := LeaseSnapshot.AccountID l in
  if negb (validID LAccountID) || negb (validID (LeaseSnapshot.ActorID l))
     || negb (validID (LeaseSnapshot.PreviewID l)) || negb (validID (LeaseSnapshot.OperationID l))
     || negb (validID (LeaseSnapshot.OwnerDeviceID l)) || negb (validID (LeaseSnapshot.OwnerSessionID l))
  then Some ErrInvalid
  else if negb (validMachineIdentityPublicKey (LeaseSnapshot.MachineIdentityPublicKey l))
          || negb (validMachineIdentityThumbprint (LeaseSnapshot.MachineIdentityThumbprint l))
  then Some ErrUnauthorized
  else if (LeaseSnapshot.Generation l =? 0) || IsZero (LeaseSnapshot.LeaseDeadline l)
          || (negb (IsZero now) && negb (After (LeaseSnapshot.LeaseDeadline l) now))
  then Some ErrExpired
  else if (LeaseSnapshot.State l == StateReleased) || (LeaseSnapshot.State l == StateFailed)
          || EqualFold (LeaseSnapshot.State l) "stopped" || EqualFold (LeaseSnapshot.State l) "expired"
  then Some ErrTerminal
  else match Target_Validate (LeaseSnapshot.Target l) with
  | Some e => Some e
  | None =>
  match validateAccessModeAndRoute (LeaseSnapshot.AccessMode l) "" with
  | Some e => Some e
  | None => validateEndpoint (LeaseSnapshot.Endpoint l)
  end end.

Definition carrier_error (now : time) (l : LeaseSnapshot) (c : CarrierSnapshot) : option PreviewError :=
  if (CarrierSnapshot.AccountID c != LeaseSnapshot.AccountID l)
     || (CarrierSnapshot.HostID c != LeaseSnapshot.OwnerDeviceID l) || negb (CarrierSnapshot.Ephemeral c)
     || negb (validID (CarrierSnapshot.TunnelID c)) || negb (validID (CarrierSnapshot.ConnectorID c))
     || negb (validID (CarrierSnapshot.SessionID c)) || (CarrierSnapshot.ProcessGeneration c =? 0)
     || (CarrierSnapshot.ConfigGeneration c =? 0)
     || negb (validContentHash (CarrierSnapshot.ConfigContentHash c))
     || negb (validID (CarrierSnapshot.EdgeNodeID c))
     || negb (ok (ValidateOpaqueEpoch (CarrierSnapshot.EdgeProcessEpoch c)))
     || negb (validCarrierServerSPKISHA256 (CarrierSnapshot.EdgeCarrierServerSPKISHA256 c))
  then Some ErrConflict
  else if (CarrierSnapshot.MachineIdentityPublicKey c != LeaseSnapshot.MachineIdentityPublicKey l)
          || (CarrierSnapshot.MachineIdentityThumbprint c != LeaseSnapshot.MachineIdentityThumbprint l)
  then Some ErrUnauthorized
  else if negb (validMachineIdentityPublicKey (CarrierSnapshot.MachineIdentityPublicKey c))
          || negb (validMachineIdentityThumbprint (CarrierSnapshot.MachineIdentityThumbprint c))
  then Some ErrConflict
  else match validateEdgeEndpoints (CarrierSnapshot.EdgeEndpoints c) with
  | Some e => Some e
  | None =>
      if IsZero (CarrierSnapshot.LeaseDeadline c) || negb (After (CarrierSnapshot.LeaseDeadline c) now)
         || After (CarrierSnapshot.LeaseDeadline c) (LeaseSnapshot.LeaseDeadline l)
      then Some ErrConflict else None
  end.

Definition route_error (l : LeaseSnapshot) (c : CarrierSnapshot) (rt : RouteSnapshot) : option PreviewError :=
  if (RouteSnapshot.AccountID rt != LeaseSnapshot.AccountID l)
     || (RouteSnapshot.TunnelID rt != CarrierSnapshot.TunnelID c)
     || negb (validID (RouteSnapshot.RouteID rt)) || (RouteSnapshot.Generation rt =? 0)
     || (RouteSnapshot.Protocol rt == "") || (RouteSnapshot.PublicEndpoint rt == "")
  then Some ErrConflict
  else if endpointHost (LeaseSnapshot.Endpoint l) != endpointHost (RouteSnapshot.PublicEndpoint rt)
  then Some ErrConflict else None.

Definition validateResolution (now : time) (r : Resolution) : option PreviewError :=
  match lease_error now (Lease r) with
  | Some e => Some e
  | None =>
  match carrier_error now (Lease r) (Carrier r) with
  | Some e => Some e
  | None => route_error (Lease r) (Carrier r) (Route r)
  end end.
End ValidateResolution.

(** ** Bindings *)
Module Binding.
Record Binding := mk {
  AccountID : string;
  PreviewID : string;
  OperationID : string;
  OwnerDeviceID : string;
  OwnerSessionID : string;
  HostID : string;
  LeaseGeneration : Z;
  TunnelID : string;
  ConnectorID : string;
  SessionID : string;
  ProcessGeneration : Z;
  ConfigGeneration : Z;
  RouteID : string;
  RouteGeneration : Z;
  EdgeNodeID : string;
  EdgeProcessEpoch : string;
  EdgeCarrierServerSPKISHA256 : string;
  EdgeCarrierServerCertificateChainPEM : string;
  MachineIdentityPublicKey : string;
  MachineIdentityThumbprint : string;
}.
#[export] Instance eq_dec : EqDecision Binding.
Proof. solve_decision. Defined.
End Binding.
Export (hints) Binding.
Abbreviation Binding := Binding.Binding.

Section BindingMethods.
Import Binding.
Definition Binding_validate (b : Binding) : option PreviewError :=
  if negb (forallb validID [AccountID b; PreviewID b; OperationID b; OwnerDeviceID b; OwnerSessionID b;
       HostID b; TunnelID b; ConnectorID b; SessionID b; RouteID b; EdgeNodeID b; EdgeProcessEpoch b])
  then Some ErrInvalid
  else if (LeaseGeneration b =? 0) || (ProcessGeneration b =? 0) || (ConfigGeneration b =? 0)
          || (RouteGeneration b =? 0)
  then Some ErrInvalid
  else if HostID b != OwnerDeviceID b then Some ErrInvalid
  else if TunnelID b == ConnectorID b then Some ErrInvalid
  else if negb (ok (ValidateOpaqueEpoch (EdgeProcessEpoch b))) then Some ErrInvalid
  else if negb (validCarrierServerSPKISHA256 (EdgeCarrierServerSPKISHA256 b)) then Some ErrInvalid
  else if (slen (EdgeCarrierServerCertificateChainPEM b) =? 0)
          || (Z.shiftl 64 10 <? slen (EdgeCarrierServerCertificateChainPEM b))
  then Some ErrInvalid
  else if negb (validMachineIdentityPublicKey (MachineIdentityPublicKey b)) then Some ErrInvalid
  else if negb (validMachineIdentityThumbprint (MachineIdentityThumbprint b)) then Some ErrInvalid
  else None.

Definition logicalBindingEqual (a b : Binding) : bool :=
  (AccountID a == AccountID b) && (PreviewID a == PreviewID b) && (OperationID a == OperationID b)
  && (OwnerDeviceID a == OwnerDeviceID b) && (OwnerSessionID a == OwnerSessionID b)
  && (HostID a == HostID b) && (TunnelID a == TunnelID b) && (ConnectorID a == ConnectorID b)
  && (RouteID a == RouteID b) && (EdgeNodeID a == EdgeNodeID b).

Definition carrierBindingEqual (a b : Binding) : bool :=
  logicalBindingEqual a b && (LeaseGeneration a =? LeaseGeneration b) && (SessionID a == SessionID b)
  && (ProcessGeneration a =? ProcessGeneration b) && (ConfigGeneration a =? ConfigGeneration b)
  && (RouteGeneration a =? RouteGeneration b) && (EdgeProcessEpoch a == EdgeProcessEpoch b)
  && (EdgeCarrierServerSPKISHA256 a == EdgeCarrierServerSPKISHA256 b)
  && (EdgeCarrierServerCertificateChainPEM a == EdgeCarrierServerCertificateChainPEM b)
  && (MachineIdentityPublicKey a == MachineIdentityPublicKey b)
  && (MachineIdentityThumbprint a == MachineIdentityThumbprint b).

Definition dataCarrierBindingEqual (a b : Binding) : bool :=
  logicalBindingEqual a b && (SessionID a == SessionID b)
  && (ProcessGeneration a =? ProcessGeneration b) && (ConfigGeneration a =? ConfigGeneration b)
  && (RouteGeneration a =? RouteGeneration b) && (EdgeProcessEpoch a == EdgeProcessEpoch b)
  && (EdgeCarrierServerSPKISHA256 a == EdgeCarrierServerSPKISHA256 b)
  && (EdgeCarrierServerCertificateChainPEM a == EdgeCarrierServerCertificateChainPEM b)
  && (MachineIdentityPublicKey a == MachineIdentityPublicKey b)
  && (MachineIdentityThumbprint a == MachineIdentityThumbprint b).
End BindingMethods.

Definition bindingFromResolution (r : Resolution) : Binding :=
  let l := Resolution.Lease r in
  let c := Resolution.Carrier r in
  Binding.mk (LeaseSnapshot.AccountID l) (LeaseSnapshot.PreviewID l) (LeaseSnapshot.OperationID l)
    (LeaseSnapshot.OwnerDeviceID l) (LeaseSnapshot.OwnerSessionID l) (CarrierSnapshot.HostID c)
    (LeaseSnapshot.Generation l) (CarrierSnapshot.TunnelID c) (CarrierSnapshot.ConnectorID c)
    (CarrierSnapshot.SessionID c) (CarrierSnapshot.ProcessGeneration c)
    (CarrierSnapshot.ConfigGeneration c) (RouteSnapshot.RouteID (Resolution.Route r))
    (RouteSnapshot.Generation (Resolution.Route r)) (CarrierSnapshot.EdgeNodeID c)
    (CarrierSnapshot.EdgeProcessEpoch c) (CarrierSnapshot.EdgeCarrierServerSPKISHA256 c)
    (CarrierSnapshot.EdgeCarrierServerCertificateChainPEM c)
    (CarrierSnapshot.MachineIdentityPublicKey c) (CarrierSnapshot.MachineIdentityThumbprint c).

(** ** Admissions *)
Module AdmissionRequest.
Record AdmissionRequest := mk {
  Schema : string;
  Kind : string;
  Binding : Binding;
  AccessMode : string;
  IdempotencyKey : string;
  OperationID : string;
  AttachmentGeneration : Z;
  ConfigContentHash : string;
  EdgeEndpoints : list string;
  Endpoint : string;
  ExpiresAt : time;
}.
#[export] Instance eq_dec : EqDecision AdmissionRequest.
Proof. solve_decision. Defined.
End AdmissionRequest.
Export (hints) AdmissionRequest.
Abbreviation AdmissionRequest := AdmissionRequest.AdmissionRequest.

(** [first_error]: the first of several checks that fails. *)
Definition first_error (checks : list (option PreviewError)) : option PreviewError :=
  head (omap id checks).

Section AdmissionRequestValidate.
Import AdmissionRequest.
Definition AdmissionRequest_Validate (a : AdmissionRequest) (now : time) : option PreviewError :=
  first_error
    [if (Schema a != PreviewContract.Schema) || (Kind a != PreviewContract.Kind) then Some ErrInvalid else None;
     Binding_validate (Binding a);
     validateAccessModeAndRoute (AccessMode a) "";
     (if (OperationID a != Binding.OperationID (Binding a)) || (slen (IdempotencyKey a) =? 0)
         || (IdempotencyKey a != OperationID a) || (AttachmentGeneration a =? 0)
      then Some ErrInvalid else None);
     (if negb (validContentHash (ConfigContentHash a)) then Some ErrInvalid else None);
     validateEdgeEndpoints (EdgeEndpoints a);
     validateEndpoint (Endpoint a);
     (if IsZero (ExpiresAt a) || (negb (IsZero now) && negb (After (ExpiresAt a) now))
      then Some ErrExpired else None)].
End AdmissionRequestValidate.

Definition AdmissionDeliveryStatus := string.
Definition AdmissionAccepted : AdmissionDeliveryStatus := "accepted".
Definition AdmissionAlready : AdmissionDeliveryStatus := "already_accepted".
Definition AdmissionRetry : AdmissionDeliveryStatus := "retryable".
Definition AdmissionRejected : AdmissionDeliveryStatus := "rejected".

Record AdmissionDelivery := mkDelivery { Status : AdmissionDeliveryStatus; DeliveryCode : string }.
Definition Accepted (d : AdmissionDelivery) : bool :=
  (Status d == AdmissionAccepted) || (Status d == AdmissionAlready).

(** ** Attachments *)
Module Attachment.
Record Attachment := mk {
  Schema : string;
  Kind : string;
  Binding : Binding;
  IdempotencyKey : string;
  RequestID : string;
  CorrelationID : string;
  RequestHash : string;
  Endpoint : string;
  Target : Target;
  AccessMode : string;
  ConfigContentHash : string;
  EdgeEndpoints : list string;
  AttachmentGeneration : Z;
  IssuedAt : time;
  ExpiresAt : time;
  State : string;
  EdgeReady : bool;
  OriginReady : bool;
  ReadyAt : option time;
  ReleasedAt : option time;
}.
#[export] Instance eq_dec : EqDecision Attachment.
Proof. solve_decision. Defined.
#[export] Instance settable : Settable Attachment := fun a =>
  mk (Schema a) (Kind a) (Binding a) (IdempotencyKey a) (RequestID a) (CorrelationID a) (RequestHash a)
    (Endpoint a) (Target a) (AccessMode a) (ConfigContentHash a) (EdgeEndpoints a)
    (AttachmentGeneration a) (IssuedAt a) (ExpiresAt a) (State a) (EdgeReady a) (OriginReady a)
    (ReadyAt a) (ReleasedAt a).
End Attachment.
Export (hints) Attachment.
Abbreviation Attachment := Attachment.Attachment.

Definition is_some {A} (o : option A) : bool := match o with Some _ => true | None => false end.

Section AttachmentValidate.
Import Attachment.

(** The switch on the state. *)
Definition state_error (a : Attachment) : option PreviewError :=
  let bad :=
    if (State a == StatePending) || (State a == StateAdmitted)
    then EdgeReady a || OriginReady a || is_some (ReadyAt a) || is_some (ReleasedAt a)
    else if State a == StateEdgeReady
    then negb (EdgeReady a) || OriginReady a || is_some (ReadyAt a) || is_some (ReleasedAt a)
    else if State a == StateReady
    then negb (EdgeReady a) || negb (OriginReady a) || negb (is_some (ReadyAt a)) || is_some (ReleasedAt a)
    else if State a == StateFailed then is_some (ReadyAt a) || is_some (ReleasedAt a)
    else if State a == StateReleased
    then is_some (ReadyAt a) || negb (is_some (ReleasedAt a)) || EdgeReady a || OriginReady a
    else true in
  if bad then Some ErrInvalid else None.

Definition request_hash_error (hash : string) : option PreviewError :=
  if negb (slen hash =? 64) then Some ErrInvalid
  else match hex_DecodeString hash with None => Some ErrInvalid | Some _ => None end.

Definition Attachment_Validate (a : Attachment) (now : time) : option PreviewError :=
  first_error
    [if (Schema a != PreviewContract.Schema) || (Kind a != PreviewContract.Kind) then Some ErrInvalid else None;
     Binding_validate (Binding a);
     (if (slen (IdempotencyKey a) <? 1) || (256 <? slen (IdempotencyKey a))
         || negb (trace_lengths (RequestID a) (CorrelationID a))
         || trace_control (IdempotencyKey a) (RequestID a) (CorrelationID a)
      then Some ErrInvalid else None);
     request_hash_error (RequestHash a);
     Target_Validate (Target a);
     validateAccessModeAndRoute (AccessMode a) "";
     validateEndpoint (Endpoint a);
     validateEdgeEndpoints (EdgeEndpoints a);
     (if negb (validContentHash (ConfigContentHash a)) then Some ErrInvalid else None);
     (if (AttachmentGeneration a =? 0) || IsZero (IssuedAt a) || IsZero (ExpiresAt a)
         || negb (After (ExpiresAt a) (IssuedAt a))
      then Some ErrInvalid else None);
     (if negb (IsZero now) && negb (After (ExpiresAt a) now) && (State a != StateReleased)
         && (State a != StateFailed)
      then Some ErrExpired else None);
     state_error a].

Definition Attachment_AdmissionRequest (a : Attachment) : PRes AdmissionRequest :=
  let request := AdmissionRequest.mk PreviewContract.Schema PreviewContract.Kind (Binding a) (AccessMode a)
    (IdempotencyKey a) (Binding.OperationID (Binding a)) (AttachmentGeneration a) (ConfigContentHash a)
    (EdgeEndpoints a) (Endpoint a) (ExpiresAt a) in
  match AdmissionRequest_Validate request 0 with Some e => Err e | None => Ok request end.
End AttachmentValidate.

(** ** Carrier admissions *)
Module CarrierAlias.
Record CarrierAlias := mk {
  DomainID : string;
  Hostname : string;
  MatchType : string;
  WildcardLabels : option Z;
  PreviewGeneration : Z;
  DomainGeneration : Z;
  CertificateGeneration : Z;
}.
End CarrierAlias.
Abbreviation CarrierAlias := CarrierAlias.CarrierAlias.

(** [strings.ToLower(strings.TrimSuffix(strings.TrimSpace(s), "."))] *)
Definition alias_hostname (hostname : string) : string := ToLower (TrimSuffix (TrimSpace hostname) ".").

Section CarrierAliasValidate.
Import CarrierAlias.
Definition CarrierAlias_Validate (a : CarrierAlias) (previewGeneration : Z) : option PreviewError :=
  if negb (validID (DomainID a)) || (PreviewGeneration a =? 0)
     || negb (PreviewGeneration a =? previewGeneration) || (DomainGeneration a =? 0)
     || (CertificateGeneration a =? 0)
  then Some ErrInvalid else
  let hostname := alias_hostname (Hostname a) in
  if MatchType a == "exact" then
    if is_some (WildcardLabels a) || HasPrefix hostname "*." || negb (validAliasDNSName hostname)
    then Some ErrInvalid else None
  else if MatchType a == "one_label_wildcard" then
    if bool_decide (WildcardLabels a <> Some 1) || negb (HasPrefix hostname "*.")
       || negb (validAliasDNSName (TrimPrefix hostname "*."))
    then Some ErrInvalid else None
  else Some ErrInvalid.

(** The loop over the aliases of an admission. *)
Fixpoint aliases_error (previewGeneration : Z) (seenIDs seenHosts : list string) (aliases : list CarrierAlias)
    : option PreviewError :=
  match aliases with
  | [] => None
  | alias :: rest =>
      match CarrierAlias_Validate alias previewGeneration with
      | Some e => Some e
      | None =>
          let hostname := alias_hostname (Hostname alias) in
          if bool_decide (DomainID alias ∈ seenIDs) then Some ErrInvalid
          else if bool_decide (hostname ∈ seenHosts) then Some ErrInvalid
          else aliases_error previewGeneration (DomainID alias :: seenIDs) (hostname :: seenHosts) rest
      end
  end.
End CarrierAliasValidate.

Module CarrierAdmission.
Record CarrierAdmission := mk {
  Schema : string;
  Kind : string;
  Binding : Binding;
  AccessMode : string;
  AttachmentGeneration : Z;
  ConfigContentHash : string;
  EdgeEndpoints : list string;
  Endpoint : string;
  ExpiresAt : time;
  State : string;
  Hostname : string;
  RouteKind : string;
  RouteRevision : Z;
  Aliases : list CarrierAlias;
}.
End CarrierAdmission.
Abbreviation CarrierAdmission := CarrierAdmission.CarrierAdmission.

Section CarrierAdmissionValidate.
Import CarrierAdmission.
Definition CarrierAdmission_Validate (a : CarrierAdmission) (now : time) : option PreviewError :=
  let hostname := if Hostname a == "" then endpointHostname (Endpoint a) else Hostname a in
  let routeGeneration := Binding.RouteGeneration (Binding a) in
  let routeRevision := if RouteRevision a =? 0 then routeGeneration else RouteRevision a in
  first_error
    [if (Schema a != PreviewContract.Schema) || (Kind a != PreviewContract.Kind) || (AttachmentGeneration a =? 0)
     then Some ErrInvalid else None;
     (if negb (bool_decide (State a ∈ [StatePending; StateAdmitted; StateEdgeReady; StateReady]))
      then Some ErrInvalid else None);
     Binding_validate (Binding a);
     validateAccessModeAndRoute (AccessMode a) (RouteKind a);
     (if negb (validContentHash (ConfigContentHash a)) then Some ErrInvalid else None);
     validateEndpoint (Endpoint a);
     validateEdgeEndpoints (EdgeEndpoints a);
     (if negb (validID hostname) || negb (routeRevision =? routeGeneration) then Some ErrInvalid else None);
     (if 64 <? Z.of_nat (length (Aliases a)) then Some ErrInvalid else None);
     aliases_error (Binding.LeaseGeneration (Binding a)) [] [] (Aliases a);
     (if IsZero (ExpiresAt a) || (negb (IsZero now) && negb (After (ExpiresAt a) now))
      then Some ErrExpired else None)].
End CarrierAdmissionValidate.

Section Admission.
Import Attachment.
Definition Attachment_Admission (a : Attachment) : PRes CarrierAdmission :=
  if (State a == StatePending) || (State a == StateFailed) || (State a == StateReleased)
  then Err ErrConflict else
  let admission := CarrierAdmission.mk PreviewContract.Schema PreviewContract.Kind (Binding a) (AccessMode a)
    (AttachmentGeneration a) (ConfigContentHash a) (EdgeEndpoints a) (Endpoint a) (ExpiresAt a) (State a)
    (endpointHostname (Endpoint a)) (routeKindForAccessMode (AccessMode a))
    (Binding.RouteGeneration (Binding a)) [] in
  match CarrierAdmission_Validate admission 0 with Some e => Err e | None => Ok admission end.
End Admission.

(** ** Facts *)

Lemma first_error_None l : first_error l = None <-> Forall (fun o => o = None) l.
Proof.
  unfold first_error. induction l as [|[e|] l IH]; cbn.
  - by split; [constructor|].
  - split; [done|]. by inversion 1.
  - rewrite IH. split; [by constructor|]. by inversion 1.
Qed.

Lemma logical_equal_iff a b : logicalBindingEqual a b = true <->
  Binding.AccountID a = Binding.AccountID b /\ Binding.PreviewID a = Binding.PreviewID b
  /\ Binding.OperationID a = Binding.OperationID b /\ Binding.OwnerDeviceID a = Binding.OwnerDeviceID b
  /\ Binding.OwnerSessionID a = Binding.OwnerSessionID b /\ Binding.HostID a = Binding.HostID b
  /\ Binding.TunnelID a = Binding.TunnelID b /\ Binding.ConnectorID a = Binding.ConnectorID b
  /\ Binding.RouteID a = Binding.RouteID b /\ Binding.EdgeNodeID a = Binding.EdgeNodeID b.
Proof. unfold logicalBindingEqual. rewrite !andb_true_iff, !bool_decide_eq_true. tauto. Qed.

(** [carrierBindingEqual] compares every field, so it is equality. *)
Lemma carrier_equal_iff a b : carrierBindingEqual a b = true <-> a = b.
Proof.
  unfold carrierBindingEqual. rewrite !andb_true_iff, logical_equal_iff, !bool_decide_eq_true, !Z.eqb_eq.
  split; [|by intros ->; repeat split].
  destruct a, b; cbn. intros H. destruct_and!. by subst.
Qed.

(** Two bindings for the same data carrier differ in the lease generation only. *)
Definition with_lease (g : Z) (b : Binding) : Binding :=
  let '(Binding.mk a p o d s h _ t c i pg cg r rg e ee sp ch k th) := b in
  Binding.mk a p o d s h g t c i pg cg r rg e ee sp ch k th.

Lemma data_equal_iff a b :
  dataCarrierBindingEqual a b = true <-> b = with_lease (Binding.LeaseGeneration b) a.
Proof.
  unfold dataCarrierBindingEqual. rewrite !andb_true_iff, logical_equal_iff, !bool_decide_eq_true, !Z.eqb_eq.
  destruct a, b; cbn. split; [intros H; destruct_and!; by subst|].
  intros [=]. by subst; repeat split.
Qed.

Lemma with_lease_twice g h b : with_lease g (with_lease h b) = with_lease g b.
Proof. by destruct b. Qed.
Lemma with_lease_same b : with_lease (Binding.LeaseGeneration b) b = b.
Proof. by destruct b. Qed.

Lemma data_equal_refl b : dataCarrierBindingEqual b b = true.
Proof. apply data_equal_iff. by rewrite with_lease_same. Qed.
Lemma data_equal_trans a b c :
  dataCarrierBindingEqual a b = true -> dataCarrierBindingEqual b c = true -> dataCarrierBindingEqual a c = true.
Proof.
  rewrite !data_equal_iff. intros Hb Hc. rewrite Hb in Hc. by rewrite with_lease_twice in Hc.
Qed.
Lemma logical_equal_refl b : logicalBindingEqual b b = true.
Proof. by apply logical_equal_iff. Qed.
Lemma logical_equal_trans a b c :
  logicalBindingEqual a b = true -> logicalBindingEqual b c = true -> logicalBindingEqual a c = true.
Proof. rewrite !logical_equal_iff. intuition congruence. Qed.
#[export] Hint Resolve data_equal_refl logical_equal_refl : go.
