(* ===== verification/PreviewManager.v ===== *)
(** * The attachment manager

    [Manager] of src/internal/previewattachment/manager.go keeps the attachments
    in memory: [byOperation] and [byPreview] point to shared records, so the
    records are a heap and the maps hold addresses.  The authority, the edge
    publisher and whatever they touch are arguments over the type [X]; the clock
    is read where the code reads it.

    The manager's lock is released while the authority and the publisher run.  A
    [Call] holds what a method meets: the reading of the clock and what the other
    goroutines did to the world before each critical section.  [accepted] is the
    trace of the admissions that the edge accepted. *)
From S2P Require Import Prelude GoText GoHash GoUrl GoJson GoNet Errors ServerSession PreviewContract.

(** ** Checks without state *)

Definition isTerminal (state : string) : bool := (state == StateFailed) || (state == StateReleased).

Definition operationKey (accountID value : string) : string :=
  accountID +:+ String (byte_of 0) "" +:+ value.

Definition minTime (a b : time) : time := if Before a b then a else b.

Section Checks.
Import Attachment.

Definition attachmentFromResolution (req : Request) (hash : string) (resolution : Resolution) (now : time)
    : Attachment :=
  let l := Resolution.Lease resolution in
  let c := Resolution.Carrier resolution in
  Attachment.mk PreviewContract.Schema PreviewContract.Kind (bindingFromResolution resolution)
    (Request.IdempotencyKey req) (Request.RequestID req) (Request.CorrelationID req) hash
    (LeaseSnapshot.Endpoint l) (LeaseSnapshot.Target l) (LeaseSnapshot.AccessMode l)
    (CarrierSnapshot.ConfigContentHash c) (CarrierSnapshot.EdgeEndpoints c) 1 now
    (minTime (LeaseSnapshot.LeaseDeadline l) (CarrierSnapshot.LeaseDeadline c))
    StatePending false false None None.

Definition validateRequestProof (proof : MachineProof) (req : Request) : option PreviewError :=
  match MachineProof_Validate proof with
  | Some e => Some e
  | None =>
  match Request_Validate req with
  | Some e => Some e
  | None =>
      if (MachineProof.OperationID proof != Request.OperationID req)
         || (MachineProof.MachineID proof != Request.OwnerDeviceID req)
      then Some ErrUnauthorized
      else if MachineProof.OperationID proof != Request.IdempotencyKey req then Some ErrUnauthorized
      else None
  end end.

Definition authorizeResolution (proof : MachineProof) (req : Request) (resolution : Resolution)
    : option PreviewError :=
  let l := Resolution.Lease resolution in
  if (LeaseSnapshot.MachineAccountID l != MachineProof.UserID proof)
     || (LeaseSnapshot.OwnerDeviceID l != MachineProof.MachineID proof)
     || (LeaseSnapshot.OperationID l != MachineProof.OperationID proof)
     || (LeaseSnapshot.OwnerSessionID l != Request.OwnerSessionID req)
  then Some ErrUnauthorized else None.

Definition checkRecordRequest (a : Attachment) (req : Request) (accountID : string) : option PreviewError :=
  match Request_Hash req accountID with
  | Err e => Some e
  | Ok hash => if RequestHash a != hash then Some ErrIdempotencyConflict else None
  end.

Definition checkGenerationAndBinding (a : Attachment) (binding : Binding.Binding) (generation : Z)
    : option PreviewError :=
  if negb (generation =? AttachmentGeneration a) then Some ErrStaleBinding
  else if negb (carrierBindingEqual (Binding a) binding) then Some ErrStaleBinding
  else None.

(** [AttachmentGeneration++] *)
Definition bump (a : Attachment) : Attachment :=
  a <| AttachmentGeneration := u64_add (AttachmentGeneration a) 1 |>.

(** The body of the loop of [expireLocked]. *)
Definition expire_attachment (now : time) (a : Attachment) : Attachment :=
  if isTerminal (State a) || After (ExpiresAt a) now then a
  else bump (a <| State := StateFailed |> <| EdgeReady := false |> <| OriginReady := false |>
               <| ReadyAt := None |> <| ReleasedAt := None |>).
End Checks.

(** ** State *)
Record record := mkRecord { attachment : Attachment; actorID : string }.
#[export] Instance record_settable : Settable record := fun r => mkRecord (attachment r) (actorID r).

Record Manager := mkManager {
  records : list record;
  byOperation : gmap string nat;
  byPreview : gmap string nat;
  publisher : option nat;
}.
#[export] Instance Manager_settable : Settable Manager := fun m =>
  mkManager (records m) (byOperation m) (byPreview m) (publisher m).
Definition NewManager : Manager := mkManager [] ∅ ∅ None.

(** The attachment and the address that a map holds for a key. *)
Definition record_at (index : gmap string nat) (m : Manager) (key : string) : option (nat * record) :=
  p ← index !! key; r ← records m !! p; Some (p, r).

Definition pointers (m : Manager) : list nat := (map_to_list (byOperation m)).*2.

Definition expireLocked (now : time) (m : Manager) : Manager :=
  m <| records := imap (fun p r => if bool_decide (p ∈ pointers m)
                                    then r <| attachment := expire_attachment now (attachment r) |>
                                    else r) (records m) |>.

(** The only record of an operation, over all accounts. *)
Definition findOperationLocked (operationID : string) (m : Manager) : option (nat * record) :=
  let matches p :=
    match records m !! p with
    | Some r => bool_decide (Binding.OperationID (Attachment.Binding (attachment r)) = operationID)
    | None => false
    end in
  match List.filter matches (pointers m) with
  | [p] => r ← records m !! p; Some (p, r)
  | _ => None
  end.

Definition update_attachment (p : nat) (f : Attachment -> Attachment) (m : Manager) : Manager :=
  m <| records := alter (fun r => r <| attachment := f (attachment r) |>) p (records m) |>.

(** ** The critical sections *)
Section Sections.
Import Attachment.

Definition L := M Manager PreviewError.
Definition locked_expire (now : time) : L unit := modify (expireLocked now).
Definition operation_record (accountID operationID : string) : L (nat * record) :=
  m ← get;
  match record_at (byOperation m) m (operationKey accountID operationID) with
  | Some x => ret x
  | None => throw ErrNotFound
  end.
Definition update (p : nat) (f : Attachment -> Attachment) : L unit := modify (update_attachment p f).
(** The attachment at an address that is in use. *)
Definition deref (p : nat) : L Attachment :=
  m ← get; match records m !! p with Some r => ret (attachment r) | None => throw ErrNotFound end.

(** The retry of a call whose answer was lost: the record is one generation
    further, with the same binding, and in the state that the call leads to. *)
Definition already (a : Attachment) (binding : Binding.Binding) (generation : Z) (reached : bool) : bool :=
  (AttachmentGeneration a =? u64_add generation 1) && (Binding a == binding) && reached.

(** [err := r.attachment.Validate(now); return clone(r.attachment)] *)
Definition validated (p : nat) (now : time) : L Attachment :=
  a ← deref p; check (Attachment_Validate a now) ;; ret a.

Definition rebind_update (resolution : Resolution) (a : Attachment) : Attachment :=
  let newBinding := bindingFromResolution resolution in
  let carrierChanged := negb (dataCarrierBindingEqual (Binding a) newBinding) in
  let a := bump (a <| Binding := newBinding |>
                   <| ConfigContentHash := CarrierSnapshot.ConfigContentHash (Resolution.Carrier resolution) |>
                   <| EdgeEndpoints := CarrierSnapshot.EdgeEndpoints (Resolution.Carrier resolution) |>) in
  if carrierChanged
  then a <| EdgeReady := false |> <| OriginReady := false |> <| ReadyAt := None |> <| State := StatePending |>
  else a.

Definition older_carrier (new old : Binding.Binding) : bool :=
  (Binding.ProcessGeneration new <? Binding.ProcessGeneration old)
  || (Binding.ConfigGeneration new <? Binding.ConfigGeneration old)
  || (Binding.RouteGeneration new <? Binding.RouteGeneration old).

Definition rebindLocked (p : nat) (resolution : Resolution) (now : time) : L Attachment :=
  check (validateResolution now resolution) ;;
  a ← deref p;
  let newBinding := bindingFromResolution resolution in
  fail_if (negb (logicalBindingEqual (Binding a) newBinding)) ErrConflict ;;
  (if carrierBindingEqual (Binding a) newBinding then ret tt
   else fail_if (older_carrier newBinding (Binding a)) ErrStaleBinding ;;
        update p (rebind_update resolution)) ;;
  update p (fun a => a <| ExpiresAt := minTime (LeaseSnapshot.LeaseDeadline (Resolution.Lease resolution))
                             (CarrierSnapshot.LeaseDeadline (Resolution.Carrier resolution)) |>) ;;
  validated p now.

(** The part of [Allocate] under the lock. *)
Definition allocate_section (req : Request) (hash : string) (resolution : Resolution) (now : time)
    : L Attachment :=
  locked_expire now ;;
  let accountID := LeaseSnapshot.AccountID (Resolution.Lease resolution) in
  let opKey := operationKey accountID (Request.OperationID req) in
  let previewKey := operationKey accountID (Request.PreviewID req) in
  m ← get;
  match record_at (byOperation m) m opKey with
  | Some (p, r) =>
      fail_if (RequestHash (attachment r) != hash) ErrIdempotencyConflict ;;
      fail_if (isTerminal (State (attachment r))) ErrTerminal ;;
      rebindLocked p resolution now
  | None =>
      fail_if (match record_at (byPreview m) m previewKey with
               | Some (_, r) => negb (isTerminal (State (attachment r)))
               | None => false
               end) ErrConflict ;;
      let a := attachmentFromResolution req hash resolution now in
      check (Attachment_Validate a now) ;;
      let p := length (records m) in
      let r := mkRecord a (LeaseSnapshot.MachineAccountID (Resolution.Lease resolution)) in
      put (m <| records := records m ++ [r] |> <| byOperation := <[opKey := p]> (byOperation m) |>
             <| byPreview := <[previewKey := p]> (byPreview m) |>) ;;
      ret a
  end.

(** The part of [Admit] before the publisher is called: an answer, or the
    publisher and the admission to publish. *)
Definition admit_section (req : Request) (binding : Binding.Binding) (generation : Z) (accountID : string) (now : time)
    : L (Attachment + nat * AdmissionRequest) :=
  locked_expire now ;;
  '(p, r) ← operation_record accountID (Request.OperationID req);
  let a := attachment r in
  check (checkRecordRequest a req accountID) ;;
  if already a binding generation (State a == StateAdmitted) then ret (inl a) else
  check (checkGenerationAndBinding a binding generation) ;;
  fail_if (isTerminal (State a)) ErrTerminal ;;
  if State a != StatePending then ret (inl a) else
  m ← get;
  match publisher m with
  | None => throw ErrAdmissionUnavailable
  | Some pub => admission ← lift (Attachment_AdmissionRequest a); ret (inr (pub, admission))
  end.

(** The part after an accepted delivery. *)
Definition admitted_section (req : Request) (binding : Binding.Binding) (generation : Z) (accountID : string)
    (now : time) : L Attachment :=
  locked_expire now ;;
  '(p, r) ← operation_record accountID (Request.OperationID req);
  let a := attachment r in
  check (checkRecordRequest a req accountID) ;;
  if already a binding generation (State a == StateAdmitted) then ret a else
  check (checkGenerationAndBinding a binding generation) ;;
  if State a != StatePending then ret a else
  update p (fun a => bump (a <| State := StateAdmitted |>)) ;;
  validated p now.

Definition edge_section (req : Request) (binding : Binding.Binding) (generation : Z) (now : time) : L Attachment :=
  locked_expire now ;;
  '(p, r) ← operation_record (Binding.AccountID binding) (Request.OperationID req);
  let a := attachment r in
  check (checkRecordRequest a req (Binding.AccountID binding)) ;;
  if already a binding generation ((State a == StateEdgeReady) && EdgeReady a) then ret a else
  check (checkGenerationAndBinding a binding generation) ;;
  fail_if (isTerminal (State a)) ErrTerminal ;;
  if EdgeReady a then ret a else
  fail_if (State a != StateAdmitted) ErrAdmissionUnavailable ;;
  update p (fun a => bump (a <| EdgeReady := true |> <| State := StateEdgeReady |>)) ;;
  validated p now.

Definition origin_update (originReady : bool) (now : time) (a : Attachment) : Attachment :=
  let a := bump (a <| OriginReady := originReady |>) in
  if originReady then a <| ReadyAt := Some now |> <| State := StateReady |>
  else a <| ReadyAt := None |> <| State := StateEdgeReady |>.

Definition origin_section (req : Request) (binding : Binding.Binding) (generation : Z) (originReady : bool)
    (accountID : string) (now : time) : L Attachment :=
  locked_expire now ;;
  '(p, r) ← operation_record accountID (Request.OperationID req);
  let a := attachment r in
  check (checkRecordRequest a req accountID) ;;
  let postState := if originReady then StateReady else StateEdgeReady in
  if already a binding generation
       ((State a == postState) && EdgeReady a && Bool.eqb (OriginReady a) originReady) then ret a else
  check (checkGenerationAndBinding a binding generation) ;;
  fail_if (isTerminal (State a)) ErrTerminal ;;
  fail_if (negb (EdgeReady a) || ((State a != StateEdgeReady) && (State a != StateReady)))
    ErrAdmissionUnavailable ;;
  if Bool.eqb (OriginReady a) originReady then ret a else
  update p (origin_update originReady now) ;;
  validated p now.

Definition renew_section (req : Request) (generation : Z) (resolution : Resolution) (now : time)
    : L Attachment :=
  locked_expire now ;;
  let accountID := LeaseSnapshot.AccountID (Resolution.Lease resolution) in
  '(p, r) ← operation_record accountID (Request.OperationID req);
  let a := attachment r in
  check (checkRecordRequest a req accountID) ;;
  fail_if (negb (generation =? AttachmentGeneration a)) ErrStaleBinding ;;
  fail_if (isTerminal (State a)) ErrTerminal ;;
  rebindLocked p resolution now.

Definition release_update (now : time) (a : Attachment) : Attachment :=
  let a := bump (a <| State := StateReleased |> <| EdgeReady := false |> <| OriginReady := false |>
                   <| ReadyAt := None |> <| ReleasedAt := Some now |>) in
  if After now (IssuedAt a) then a <| ExpiresAt := now |> else a.

Definition release_section (proof : MachineProof) (req : Request) (binding : Binding.Binding) (generation : Z)
    (now : time) : L Attachment :=
  m ← get;
  match findOperationLocked (Request.OperationID req) m with
  | None => throw ErrNotFound
  | Some (p, r) =>
      let a := attachment r in
      fail_if ((actorID r != MachineProof.UserID proof)
               || (Binding.OwnerDeviceID (Binding a) != MachineProof.MachineID proof)
               || (Binding.OperationID (Binding a) != MachineProof.OperationID proof)) ErrUnauthorized ;;
      check (checkRecordRequest a req (Binding.AccountID (Binding a))) ;;
      if already a binding generation (State a == StateReleased) then ret a else
      check (checkGenerationAndBinding a binding generation) ;;
      if State a == StateReleased then ret a else
      if State a == StateFailed then ret a else
      update p (release_update now) ;; deref p
  end.
End Sections.

(** ** The methods *)
Section Methods.
Context {X : Type}.
Context (ResolvePreviewAttachment : Context -> ResolveRequest -> X -> PRes Resolution * X).
Context (PublishPreviewCarrierAdmission : Context -> nat -> AdmissionRequest -> X -> PRes AdmissionDelivery * X).

Record World := mkWorld { mgr : Manager; accepted : list AdmissionRequest; ext : X }.
#[global] Instance World_settable : Settable World := fun w => mkWorld (mgr w) (accepted w) (ext w).

Record Call := mkCall {
  c_ctx : Context;
  c_now : time;
  c_before : World -> World;         (** before the first critical section *)
  c_beforePublish : World -> World;  (** between it and the publisher *)
  c_afterPublish : World -> World;   (** between the publisher and the second one *)
}.

Definition W := M World PreviewError.
Definition under_lock {A} (m : L A) : W A :=
  fun w => let (r, s) := m (mgr w) in (r, w <| mgr := s |>).
Definition others (f : World -> World) : W unit := modify f.
Definition is_accepted (r : PRes AdmissionDelivery) : bool :=
  match r with Ok delivery => Accepted delivery | Err _ => false end.

Definition resolve (ctx : Context) (proof : MachineProof) (req : Request) : W Resolution :=
  fun w => let (r, x) := ResolvePreviewAttachment ctx (mkResolveRequest proof req) (ext w) in
           (r, w <| ext := x |>).

(** The resolution that a method works with, after the checks that precede the
    lock. *)
Definition authorized (c : Call) (proof : MachineProof) (req : Request) : W Resolution :=
  check (validateRequestProof proof req) ;;
  resolution ← resolve (c_ctx c) proof req;
  check (validateResolution (c_now c) resolution) ;;
  check (authorizeResolution proof req resolution) ;;
  ret resolution.

Definition publish (ctx : Context) (pub : nat) (admission : AdmissionRequest) : W (PRes AdmissionDelivery) :=
  fun w => let (r, x) := PublishPreviewCarrierAdmission ctx pub admission (ext w) in
           (Ok r, w <| ext := x |>
                    <| accepted := if is_accepted r then admission :: accepted w else accepted w |>).

Definition account_of (resolution : Resolution) : string :=
  LeaseSnapshot.AccountID (Resolution.Lease resolution).

Definition SetAdmissionPublisher (pub : option nat) : W unit :=
  match pub with
  | None => throw ErrInvalid
  | Some pub => under_lock (modify (fun m => m <| publisher := Some pub |>))
  end.

Definition Manager_Allocate (c : Call) (proof : MachineProof) (req : Request) : W Attachment :=
  resolution ← authorized c proof req;
  hash ← lift (Request_Hash req (account_of resolution));
  others (c_before c) ;;
  under_lock (allocate_section req hash resolution (c_now c)).

Definition Manager_Admit (c : Call) (proof : MachineProof) (req : Request) (binding : Binding) (generation : Z)
    : W Attachment :=
  resolution ← authorized c proof req;
  fail_if (negb (carrierBindingEqual binding (bindingFromResolution resolution))) ErrStaleBinding ;;
  others (c_before c) ;;
  first ← under_lock (admit_section req binding generation (account_of resolution) (c_now c));
  match first with
  | inl a => ret a
  | inr (pub, admission) =>
      others (c_beforePublish c) ;;
      delivery ← publish (c_ctx c) pub admission;
      others (c_afterPublish c) ;;
      fail_if (negb (is_accepted delivery)) ErrAdmissionUnavailable ;;
      under_lock (admitted_section req binding generation (account_of resolution) (c_now c))
  end.

Definition Manager_ObserveEdge (c : Call) (req : Request) (binding : Binding) (generation : Z) : W Attachment :=
  fail_if (ctx_nil (c_ctx c)) ErrInvalid ;;
  check (Other <$> ctx_Err (c_ctx c)) ;;
  check (Request_Validate req) ;;
  fail_if ((Request.OperationID req != Binding.OperationID binding)
           || (Request.PreviewID req != Binding.PreviewID binding)
           || (Request.OwnerDeviceID req != Binding.OwnerDeviceID binding)
           || (Request.OwnerSessionID req != Binding.OwnerSessionID binding)) ErrUnauthorized ;;
  others (c_before c) ;;
  under_lock (edge_section req binding generation (c_now c)).

Definition Manager_ObserveOrigin (c : Call) (proof : MachineProof) (req : Request) (binding : Binding)
    (generation : Z) (originReady : bool) : W Attachment :=
  resolution ← authorized c proof req;
  fail_if (negb (carrierBindingEqual binding (bindingFromResolution resolution))) ErrStaleBinding ;;
  others (c_before c) ;;
  under_lock (origin_section req binding generation originReady (account_of resolution) (c_now c)).

Definition Manager_Renew (c : Call) (proof : MachineProof) (req : Request) (generation : Z) : W Attachment :=
  resolution ← authorized c proof req;
  others (c_before c) ;;
  under_lock (renew_section req generation resolution (c_now c)).

Definition Manager_Release (c : Call) (proof : MachineProof) (req : Request) (binding : Binding)
    (generation : Z) : W Attachment :=
  check (validateRequestProof proof req) ;;
  others (c_before c) ;;
  under_lock (release_section proof req binding generation (c_now c)).

Definition Manager_Get (accountID operationID : string) : W Attachment :=
  fail_if (negb (validID accountID) || negb (validID operationID)) ErrInvalid ;;
  under_lock ('(_, r) ← operation_record accountID operationID; ret (attachment r)).
End Methods.
Arguments World : clear implicits.
Arguments Call : clear implicits.
Arguments W : clear implicits.
