(* ===== verification/PreviewManagerSafety.v ===== *)
(** * The attachment manager keeps its promises

    Every method of [PreviewManager] is a sequence of critical sections, with the
    sections of other calls in between ([methods_are_steps]); the properties are
    invariants of sections, so they hold for every interleaving of calls.

    [Spec] is the abstract machine of one attachment: a phase, a generation and
    an identity that never changes.  [attachment_refines] shows that every
    record follows it, and [good] is the invariant of the maps and the records. *)
From S2P Require Import Prelude GoText GoHash GoUrl GoJson GoNet Errors ServerSession PreviewContract PreviewManager.

(** ** Keys *)

Lemma decode_rune_high c s r w : 128 <= code c -> decode_rune (String c s) = Some (r, w) -> 128 <= r.
Proof.
  intros Hc. cbn [decode_rune]. destruct (code c <? 128) eqn:E0; bool_prop; [lia|].
  destruct s as [|b s]; [done|]. cbv zeta.
  destruct ((194 <=? code c) && (code c <=? 223)) eqn:E1; bool_prop.
  { case_match eqn:E2; [|done]. intros [= <- <-]. bool_prop. lia. }
  destruct s as [|b2 s]; [done|].
  destruct ((224 <=? code c) && (code c <=? 239)) eqn:E2; bool_prop.
  { case_match eqn:E3; [|done]. intros [= <- <-]. bool_prop.
    destruct (code c =? 224) eqn:E4; bool_prop; [|lia]. cbn in *. bool_prop. lia. }
  destruct s as [|b3 s]; [done|]. case_match eqn:E3; [|done]. intros [= <- <-]. bool_prop.
  destruct (code c =? 240) eqn:E4; bool_prop; [|lia]. cbn in *. bool_prop. lia.
Qed.

(** An identifier consists of printable ASCII bytes. *)
Lemma validID_bytes s : validID s = true -> all_bytes (fun c => (33 <=? code c) && (code c <=? 126)) s = true.
Proof.
  unfold validID, runes. intros H. bool_prop. rename H0 into H0. revert H0.
  assert (Hle : (String.length s <= String.length s)%nat) by lia. revert Hle.
  generalize (String.length s) at 2 3 as n. clear H.
  assert (Hg : forall n s, (String.length s <= n)%nat ->
    forallb (fun r => (33 <=? r) && (r <=? 126)) (runes_go n s) = true ->
    all_bytes (fun c => (33 <=? code c) && (code c <=? 126)) s = true).
  { induction n as [|n IH]; intros [|c t] Hl H; cbn [String.length] in Hl; [done|lia|done|].
    cbn [runes_go] in H. cbn [all_bytes].
    destruct (decode_rune (String c t)) as [[r w]|] eqn:E.
    - cbn [forallb] in H. bool_prop. destruct (Z.ltb_spec (code c) 128) as [Hc|Hc].
      + rewrite decode_rune_ascii in E by done. injection E as <- <-. cbn [sdrop] in *.
        rewrite IH; [|lia|done]. rewrite andb_true_r.
        apply andb_true_iff; split; apply Z.leb_le; done.
      + apply decode_rune_high in E; lia.
    - cbn [forallb] in H. bool_prop. unfold RuneError in *. lia. }
  intros n. apply Hg.
Qed.

Lemma sapp_sep_inj sep a b u v :
  any_byte (is_byte (code sep)) a = false -> any_byte (is_byte (code sep)) b = false ->
  a +:+ String sep u = b +:+ String sep v -> a = b /\ u = v.
Proof.
  revert b. induction a as [|c a IH]; intros [|d b] Ha Hb E.
  - by injection E.
  - injection E as -> _. cbn in Hb. apply orb_false_iff in Hb as [Hb _]. unfold is_byte in Hb. bool_prop. done.
  - injection E as <- _. cbn in Ha. apply orb_false_iff in Ha as [Ha _]. unfold is_byte in Ha. bool_prop. done.
  - cbn in Ha, Hb. apply orb_false_iff in Ha as [_ Ha]. apply orb_false_iff in Hb as [_ Hb].
    rewrite !sapp_cons in E. injection E as <- E. by destruct (IH b Ha Hb E) as [-> ->].
Qed.

Lemma validID_no_nul s : validID s = true -> any_byte (is_byte 0) s = false.
Proof.
  intros H%validID_bytes. induction s as [|c s IH]; [done|]. cbn in *. bool_prop.
  rewrite IH by done. rewrite orb_false_r. unfold is_byte. apply Z.eqb_neq. lia.
Qed.

Lemma operationKey_inj a b u v : validID a = true -> validID b = true ->
  operationKey a u = operationKey b v -> a = b /\ u = v.
Proof.
  intros Ha Hb. unfold operationKey. rewrite sapp_cons, sapp_nil_l. apply sapp_sep_inj; by apply validID_no_nul.
Qed.

(** ** The abstract machine of one attachment *)
Module Spec.
Inductive phase := Pending | Granted | EdgeReady | Ready | Failed | Released.
#[export] Instance phase_eq_dec : EqDecision phase.
Proof. solve_decision. Defined.

Definition live (ph : phase) : bool := match ph with Failed | Released => false | _ => true end.

(** The readiness that a phase shows. *)
Definition edge (p : phase) : bool := match p with EdgeReady | Ready => true | _ => false end.
Definition origin (p : phase) : bool := match p with Ready => true | _ => false end.
Definition gone (p : phase) : bool := match p with Released => true | _ => false end.

(** Who acts: the clock, the host with its machine proof, the edge's publisher
    and the edge's own transport. *)
Inductive actor := Clock | Host | Publisher | Edge.

Record state := mk { ph : phase; generation : Z; identity : list string }.

Definition advance (s : state) (to : phase) : state := mk to (u64_add (generation s) 1) (identity s).

Inductive trans : actor -> state -> state -> Prop :=
| stay who s : trans who s s
| expire s : live (ph s) = true -> trans Clock s (advance s Failed)
| grant s : ph s = Pending -> trans Publisher s (advance s Granted)
| attach s : ph s = Granted -> trans Edge s (advance s EdgeReady)
| originUp s : ph s = EdgeReady -> trans Host s (advance s Ready)
| originDown s : ph s = Ready -> trans Host s (advance s EdgeReady)
| reconnect s : live (ph s) = true -> trans Host s (advance s Pending)
| refresh s : live (ph s) = true -> trans Host s (advance s (ph s))
| release s : live (ph s) = true -> trans Host s (advance s Released).
End Spec.
Export (hints) Spec.

Section Abstraction.
Import Attachment.

Definition phase_name (ph : Spec.phase) : string :=
  match ph with
  | Spec.Pending => StatePending | Spec.Granted => StateAdmitted | Spec.EdgeReady => StateEdgeReady
  | Spec.Ready => StateReady | Spec.Failed => StateFailed | Spec.Released => StateReleased
  end.

(** What names the preview, its owner, its carrier and its route. *)
Definition identity (b : Binding.Binding) : list string :=
  [Binding.AccountID b; Binding.PreviewID b; Binding.OperationID b; Binding.OwnerDeviceID b;
   Binding.OwnerSessionID b; Binding.HostID b; Binding.TunnelID b; Binding.ConnectorID b;
   Binding.RouteID b; Binding.EdgeNodeID b].

Lemma identity_logical a b : logicalBindingEqual a b = true <-> identity a = identity b.
Proof.
  rewrite logical_equal_iff. unfold identity. split; [|by intros [=]].
  intros H. destruct_and!. congruence.
Qed.

(** An attachment stands for a state of the machine: its readiness flags and
    times are those of the phase. *)
Record represents (a : Attachment) (s : Spec.state) : Prop := {
  rep_state : State a = phase_name (Spec.ph s);
  rep_edge : EdgeReady a = Spec.edge (Spec.ph s);
  rep_origin : OriginReady a = Spec.origin (Spec.ph s);
  rep_readyAt : is_some (ReadyAt a) = Spec.origin (Spec.ph s);
  rep_releasedAt : is_some (ReleasedAt a) = Spec.gone (Spec.ph s);
  rep_generation : AttachmentGeneration a = Spec.generation s;
  rep_identity : identity (Binding a) = Spec.identity s;
}.
End Abstraction.

(** ** What a critical section can do to a record *)
Section Changes.
Import Attachment.

(** The edge accepted an admission for the binding. *)
Definition accepted_for (log : list AdmissionRequest) (b : Binding.Binding) : Prop :=
  exists adm, adm ∈ log /\ AdmissionRequest.Binding adm = b.

Inductive change (log : list AdmissionRequest) : Spec.actor -> Attachment -> Attachment -> Prop :=
| ch_expire a now : change log Spec.Clock a (expire_attachment now a)
| ch_admit a : State a = StatePending -> accepted_for log (Binding a) ->
    change log Spec.Publisher a (bump (a <| State := StateAdmitted |>))
| ch_edge a : State a = StateAdmitted ->
    change log Spec.Edge a (bump (a <| EdgeReady := true |> <| State := StateEdgeReady |>))
| ch_origin a b now : EdgeReady a = true -> OriginReady a <> b -> change log Spec.Host a (origin_update b now a)
| ch_rebind a resolution e : isTerminal (State a) = false ->
    logicalBindingEqual (Binding a) (bindingFromResolution resolution) = true ->
    change log Spec.Host a ((rebind_update resolution a) <| ExpiresAt := e |>)
| ch_extend a e : isTerminal (State a) = false -> change log Spec.Host a (a <| ExpiresAt := e |>)
| ch_release a now : isTerminal (State a) = false -> change log Spec.Host a (release_update now a).

Lemma isTerminal_live a s : represents a s -> isTerminal (State a) = negb (Spec.live (Spec.ph s)).
Proof. intros [-> _ _ _ _ _ _]. by destruct (Spec.ph s). Qed.

Lemma phase_name_inj p q : phase_name p = phase_name q -> p = q.
Proof. by destruct p, q. Qed.

Ltac rep_solve := cbn in *; try done; constructor; cbn in *; first [done | congruence].

Lemma change_refines log who a a' s :
  change log who a a' -> represents a s -> exists s', Spec.trans who s s' /\ represents a' s'.
Proof.
  intros Hc R. pose proof (isTerminal_live _ _ R) as HT. destruct R as [R1 R2 R3 R4 R5 R6 R7].
  destruct Hc as [a now|a Hp _|a Hp|a b now He Hb|a res e Ht Hl|a e Ht|a now Ht].
  - unfold expire_attachment. destruct (isTerminal (State a)) eqn:Ht; [by exists s; split; [constructor|]|].
    destruct (After _ _); [by exists s; split; [constructor|]|]. cbn.
    exists (Spec.advance s Spec.Failed). split; [constructor; by destruct (Spec.live _)|]. rep_solve.
  - assert (Hs : Spec.ph s = Spec.Pending) by (apply phase_name_inj; by rewrite <- R1).
    exists (Spec.advance s Spec.Granted). split; [by constructor|]. rewrite Hs in *. rep_solve.
  - assert (Hs : Spec.ph s = Spec.Granted) by (apply phase_name_inj; by rewrite <- R1).
    exists (Spec.advance s Spec.EdgeReady). split; [by constructor|]. rewrite Hs in *. rep_solve.
  - unfold origin_update. destruct (Spec.ph s) eqn:Hs; cbn in *; try congruence; destruct b; try congruence.
    + exists (Spec.advance s Spec.Ready). split; [by constructor|]. rep_solve.
    + exists (Spec.advance s Spec.EdgeReady). split; [by constructor|]. rep_solve.
  - assert (Hlive : Spec.live (Spec.ph s) = true) by (destruct (Spec.live _); [done|cbn in HT; congruence]).
    apply identity_logical in Hl. unfold rebind_update. cbv zeta. destruct (negb (dataCarrierBindingEqual _ _)).
    + exists (Spec.advance s Spec.Pending). split; [by constructor|]. destruct (Spec.ph s); rep_solve.
    + exists (Spec.advance s (Spec.ph s)). split; [by constructor|]. rep_solve.
  - exists s. split; [constructor|]. rep_solve.
  - assert (Hlive : Spec.live (Spec.ph s) = true) by (destruct (Spec.live _); [done|cbn in HT; congruence]).
    exists (Spec.advance s Spec.Released). split; [by constructor|].
    unfold release_update. cbv zeta. destruct (After _ _); rep_solve.
Qed.

(** A record of a carrier that the edge may use was admitted for it. *)
Definition edge_phase (a : Attachment) : bool :=
  bool_decide (State a ∈ [StateAdmitted; StateEdgeReady; StateReady]).
Definition admitted_carrier (log : list AdmissionRequest) (b : Binding.Binding) : Prop :=
  exists adm, adm ∈ log /\ dataCarrierBindingEqual (AdmissionRequest.Binding adm) b = true.
Definition carrier_admitted (log : list AdmissionRequest) (a : Attachment) : Prop :=
  edge_phase a = true -> admitted_carrier log (Binding a).

Lemma change_admitted log who a a' s :
  change log who a a' -> represents a s -> carrier_admitted log a -> carrier_admitted log a'.
Proof.
  intros Hc R Ha. unfold carrier_admitted, edge_phase in *.
  destruct Hc as [a now|a Hp [adm [Hin Hb]]|a Hp|a b now He Hb|a res e Ht Hl|a e Ht|a now Ht].
  - unfold expire_attachment. destruct (_ || _); [done|]. done.
  - intros _. cbn. exists adm. split; [done|]. rewrite Hb. apply data_equal_refl.
  - intros _. cbn. apply Ha. by rewrite Hp.
  - intros _. assert (Hs : bool_decide (State a ∈ [StateAdmitted; StateEdgeReady; StateReady]) = true).
    { destruct R as [R1 R2 _ _ _ _ _]. rewrite R1. by destruct (Spec.ph s); cbn in R2; try congruence. }
    specialize (Ha Hs). unfold origin_update. by destruct b.
  - unfold rebind_update. cbv zeta. destruct (dataCarrierBindingEqual (Binding a) (bindingFromResolution res)) eqn:E; cbn.
    + intros H. destruct (Ha H) as (adm & Hin & Hd). exists adm. split; [done|]. by eapply data_equal_trans.
    + done.
  - done.
  - unfold release_update. cbv zeta. destruct (After _ _); done.
Qed.
End Changes.

(** ** What a critical section does *)
Section Effects.
Import Attachment.

Definition operation_key (a : Attachment) : string :=
  operationKey (Binding.AccountID (Binding a)) (Binding.OperationID (Binding a)).
Definition preview_key (a : Attachment) : string :=
  operationKey (Binding.AccountID (Binding a)) (Binding.PreviewID (Binding a)).

Definition ids_valid (a : Attachment) : Prop :=
  validID (Binding.AccountID (Binding a)) = true /\ validID (Binding.OperationID (Binding a)) = true
  /\ validID (Binding.PreviewID (Binding a)) = true.

Inductive effect (log : list AdmissionRequest) (who : Spec.actor) (m : Manager) : Manager -> Prop :=
| eff_none : effect log who m m
| eff_change p r f : records m !! p = Some r -> change log who (attachment r) (f (attachment r)) ->
    effect log who m (update_attachment p f m)
| eff_new r : who = Spec.Host -> record_at (byOperation m) m (operation_key (attachment r)) = None ->
    (forall p r', record_at (byPreview m) m (preview_key (attachment r)) = Some (p, r') ->
       isTerminal (State (attachment r')) = true) ->
    ids_valid (attachment r) -> State (attachment r) = StatePending ->
    represents (attachment r) (Spec.mk Spec.Pending 1 (identity (Binding (attachment r)))) ->
    effect log who m
      (m <| records := records m ++ [r] |>
         <| byOperation := <[operation_key (attachment r) := length (records m)]> (byOperation m) |>
         <| byPreview := <[preview_key (attachment r) := length (records m)]> (byPreview m) |>).

Lemma record_at_Some index m key p r :
  record_at index m key = Some (p, r) <-> index !! key = Some p /\ records m !! p = Some r.
Proof.
  unfold record_at. split.
  - intros (q & Hq & (r' & Hr & [= <- <-])%bind_Some)%bind_Some. done.
  - intros [H1 H2]. rewrite H1. cbn. by rewrite H2.
Qed.

Lemma update_twice p f g m : update_attachment p g (update_attachment p f m) = update_attachment p (g ∘ f) m.
Proof.
  unfold update_attachment. cbn. by rewrite list_alter_alter_eq.
Qed.

Lemma update_lookup p f m r :
  records m !! p = Some r -> records (update_attachment p f m) !! p = Some (r <| attachment := f (attachment r) |>).
Proof. intros H. unfold update_attachment. cbn. by rewrite list_lookup_alter, decide_True, H. Qed.

Lemma wp_operation_record accountID operationID Q m :
  (forall p r, record_at (byOperation m) m (operationKey accountID operationID) = Some (p, r) -> Q (Ok (p, r)) m) ->
  Q (Err ErrNotFound) m -> wp (operation_record accountID operationID) Q m.
Proof.
  intros H1 H2. unfold operation_record. apply wp_bind, wp_get.
  destruct (record_at _ _ _) as [[p r]|] eqn:E; [by apply wp_ret, H1|apply wp_throw, H2].
Qed.

(** Reading and checking a record changes nothing. *)
Lemma wp_validated p now (Q : result PreviewError Attachment -> Manager -> Prop) m :
  (forall r, Q r m) -> wp (validated p now) Q m.
Proof.
  intros H. unfold validated, deref. repeat wp_step; apply H.
Qed.

Lemma binding_checked a binding generation :
  checkGenerationAndBinding a binding generation = None ->
  generation = AttachmentGeneration a /\ Binding a = binding.
Proof.
  unfold checkGenerationAndBinding. destruct (negb (generation =? _)) eqn:E1; [done|].
  destruct (negb (carrierBindingEqual _ _)) eqn:E2; [done|].
  intros _. bool_prop. by apply carrier_equal_iff in E2.
Qed.

Ltac section_start :=
  apply wp_bind, wp_modify; apply wp_bind, wp_operation_record; [intros p r [_ Hr]%record_at_Some|constructor].

Lemma rebind_effect log p resolution now m r :
  records m !! p = Some r -> isTerminal (State (attachment r)) = false ->
  wp (rebindLocked p resolution now) (fun _ m' => effect log Spec.Host m m') m.
Proof.
  intros Hr Ht. unfold rebindLocked. apply wp_bind, wp_check; [constructor|intros _].
  apply wp_bind. unfold deref. apply wp_bind, wp_get. rewrite Hr. apply wp_ret. cbv zeta.
  apply wp_bind, wp_fail_if; [constructor|intros Hl]. bool_prop. apply wp_bind.
  destruct (carrierBindingEqual _ _).
  - apply wp_ret. apply wp_bind, wp_modify, wp_validated. intros _. apply eff_change with r; [done|].
    by constructor.
  - apply wp_bind, wp_fail_if; [constructor|intros _]. apply wp_modify. apply wp_bind, wp_modify, wp_validated.
    intros _. rewrite update_twice. apply eff_change with r; [done|]. by constructor.
Qed.

Lemma admit_effect req binding generation accountID now m :
  wp (admit_section req binding generation accountID now)
    (fun r m' => m' = expireLocked now m /\ forall pub adm, r = Ok (inr (pub, adm)) ->
       AdmissionRequest.Binding adm = binding /\ AdmissionRequest.AttachmentGeneration adm = generation) m.
Proof.
  unfold admit_section. apply wp_bind, wp_modify; apply wp_bind, wp_operation_record; [intros p r _|done].
  apply wp_bind, wp_check; [done|intros _]. apply wp_if; intros _; [by apply wp_ret|].
  apply wp_bind, wp_check; [done|intros [-> <-]%binding_checked].
  apply wp_bind, wp_fail_if; [done|intros _]. apply wp_if; intros _; [by apply wp_ret|].
  apply wp_bind, wp_get. destruct (publisher _) as [pub|]; [|by apply wp_throw].
  apply wp_bind, wp_lift. destruct (Attachment_AdmissionRequest _) as [adm|e] eqn:E; [|done].
  apply wp_ret. split; [done|]. intros ? ? [= <- <-]. unfold Attachment_AdmissionRequest in E.
  destruct (AdmissionRequest_Validate _ _); [done|]. by injection E as <-.
Qed.

Lemma admitted_effect log req binding generation accountID now m :
  accepted_for log binding ->
  wp (admitted_section req binding generation accountID now)
    (fun _ m' => effect log Spec.Publisher (expireLocked now m) m') m.
Proof.
  intros Hacc. unfold admitted_section. section_start.
  apply wp_bind, wp_check; [constructor|intros _]. apply wp_if; intros _; [constructor|].
  apply wp_bind, wp_check; [constructor|intros [_ <-]%binding_checked].
  apply wp_if; intros Hs; [constructor|]. bool_prop.
  apply wp_bind, wp_modify, wp_validated. intros _. apply eff_change with r; [done|]. by constructor.
Qed.

Lemma edge_effect log req binding generation now m :
  wp (edge_section req binding generation now) (fun _ m' => effect log Spec.Edge (expireLocked now m) m') m.
Proof.
  unfold edge_section. section_start.
  apply wp_bind, wp_check; [constructor|intros _]. apply wp_if; intros _; [constructor|].
  apply wp_bind, wp_check; [constructor|intros _]. apply wp_bind, wp_fail_if; [constructor|intros _].
  apply wp_if; intros _; [constructor|]. apply wp_bind, wp_fail_if; [constructor|intros Hs]. bool_prop.
  apply wp_bind, wp_modify, wp_validated. intros _. apply eff_change with r; [done|]. by constructor.
Qed.

Lemma origin_effect log req binding generation originReady accountID now m :
  wp (origin_section req binding generation originReady accountID now)
    (fun _ m' => effect log Spec.Host (expireLocked now m) m') m.
Proof.
  unfold origin_section. section_start.
  apply wp_bind, wp_check; [constructor|intros _]. cbv zeta. apply wp_if; intros _; [constructor|].
  apply wp_bind, wp_check; [constructor|intros _]. apply wp_bind, wp_fail_if; [constructor|intros _].
  apply wp_bind, wp_fail_if; [constructor|intros He]. bool_prop.
  apply wp_if; intros Hb; [constructor|]. apply eqb_false_iff in Hb.
  apply wp_bind, wp_modify, wp_validated. intros _. apply eff_change with r; [done|]. by constructor.
Qed.

Lemma renew_effect log req generation resolution now m :
  wp (renew_section req generation resolution now)
    (fun _ m' => effect log Spec.Host (expireLocked now m) m') m.
Proof.
  unfold renew_section. cbv zeta. section_start.
  apply wp_bind, wp_check; [constructor|intros _]. apply wp_bind, wp_fail_if; [constructor|intros _].
  apply wp_bind, wp_fail_if; [constructor|intros Ht]. by apply rebind_effect with r.
Qed.

Lemma find_record operationID m p r : findOperationLocked operationID m = Some (p, r) -> records m !! p = Some r.
Proof.
  unfold findOperationLocked. destruct (List.filter _ _) as [|q [|? ?]]; try done.
  intros (r' & Hr & [= <- <-])%bind_Some. done.
Qed.

Lemma release_effect log proof req binding generation now m :
  wp (release_section proof req binding generation now) (fun _ m' => effect log Spec.Host m m') m.
Proof.
  unfold release_section. apply wp_bind, wp_get.
  destruct (findOperationLocked _ _) as [[p r]|] eqn:Hf; [|constructor].
  pose proof (find_record _ _ _ _ Hf) as Hr.
  apply wp_bind, wp_fail_if; [constructor|intros _]. apply wp_bind, wp_check; [constructor|intros _].
  apply wp_if; intros _; [constructor|]. apply wp_bind, wp_check; [constructor|intros _].
  apply wp_if; intros H1; [constructor|]. apply wp_if; intros H2; [constructor|].
  apply wp_bind, wp_modify. unfold deref. apply wp_bind, wp_get. rewrite (update_lookup _ _ _ _ Hr). apply wp_ret.
  apply eff_change with r; [done|]. constructor. unfold isTerminal. by rewrite H1, H2.
Qed.
End Effects.

(** ** The invariant *)
Section Invariant.
Import Attachment.

Record good (m : Manager) (log : list AdmissionRequest) : Prop := {
  good_operation : forall k p, byOperation m !! k = Some p ->
    exists r, records m !! p = Some r /\ k = operation_key (attachment r);
  good_indexed : forall p r, records m !! p = Some r -> byOperation m !! operation_key (attachment r) = Some p;
  good_live : forall p r, records m !! p = Some r -> isTerminal (State (attachment r)) = false ->
    byPreview m !! preview_key (attachment r) = Some p;
  good_record : forall p r, records m !! p = Some r ->
    ids_valid (attachment r) /\ (exists s, represents (attachment r) s) /\ carrier_admitted log (attachment r);
}.

(** The same maps, and every record as it was or changed once. *)
Definition moved (log : list AdmissionRequest) (who : Spec.actor) (r r' : record) : Prop :=
  actorID r' = actorID r
  /\ (attachment r' = attachment r \/ change log who (attachment r) (attachment r')).
Record evolves (log : list AdmissionRequest) (who : Spec.actor) (m m' : Manager) : Prop := {
  ev_operation : byOperation m' = byOperation m;
  ev_preview : byPreview m' = byPreview m;
  ev_records : forall p, option_Forall2 (moved log who) (records m !! p) (records m' !! p);
}.

Lemma record_moved_refl log who r : moved log who r r.
Proof. split; [done|by left]. Qed.

Lemma expire_evolves log now m : evolves log Spec.Clock m (expireLocked now m).
Proof.
  split; [done..|]. intros p. unfold expireLocked. cbn. rewrite list_lookup_imap.
  destruct (records m !! p) as [r|]; cbn; constructor. case_bool_decide; [|apply record_moved_refl].
  split; [done|]. right. cbn. constructor.
Qed.

Lemma update_evolves log who m p r f :
  records m !! p = Some r -> change log who (attachment r) (f (attachment r)) ->
  evolves log who m (update_attachment p f m).
Proof.
  intros Hr Hc. split; [done..|]. intros q. unfold update_attachment. cbn. rewrite list_lookup_alter.
  destruct (decide (p = q)) as [<-|].
  - rewrite Hr. cbn. constructor. split; [done|]. by right.
  - destruct (records m !! q); constructor. apply record_moved_refl.
Qed.

Lemma change_identity log who a a' : change log who a a' -> identity (Binding a') = identity (Binding a).
Proof.
  destruct 1 as [a now|a Hp _|a Hp|a b now He Hb|a res e Ht Hl|a e Ht|a now Ht]; try done.
  - unfold expire_attachment. by destruct (_ || _).
  - unfold origin_update. by destruct b.
  - apply identity_logical in Hl. unfold rebind_update. by destruct (negb _).
  - unfold release_update. cbv zeta. by destruct (After _ _).
Qed.

Lemma identity_keys a a' : identity (Binding a') = identity (Binding a) ->
  operation_key a' = operation_key a /\ preview_key a' = preview_key a /\ (ids_valid a -> ids_valid a').
Proof.
  intros H%identity_logical%logical_equal_iff. destruct_and!.
  unfold operation_key, preview_key, ids_valid. repeat split; congruence || by intuition congruence.
Qed.

Lemma trans_dead who s s' : Spec.trans who s s' -> Spec.live (Spec.ph s) = false -> s' = s.
Proof. destruct 1; try congruence; try done; by match goal with H : Spec.ph _ = _ |- _ => rewrite H end. Qed.

(** Terminal attachments stay what they are. *)
Lemma change_live log who a a' s : change log who a a' -> represents a s ->
  isTerminal (State a') = false -> isTerminal (State a) = false.
Proof.
  intros Hc R. destruct (change_refines _ _ _ _ _ Hc R) as (s' & Ht & R').
  rewrite (isTerminal_live _ _ R'), (isTerminal_live _ _ R).
  destruct (Spec.live (Spec.ph s)) eqn:E; [done|]. rewrite (trans_dead _ _ _ Ht E), E. done.
Qed.

Lemma moved_keys log who r r' : moved log who r r' ->
  operation_key (attachment r') = operation_key (attachment r)
  /\ preview_key (attachment r') = preview_key (attachment r)
  /\ (ids_valid (attachment r) -> ids_valid (attachment r')).
Proof. intros [_ [->|Hc]]; [done|]. by apply identity_keys, (change_identity log who). Qed.

Lemma moved_good log who r r' s :
  moved log who r r' -> represents (attachment r) s -> carrier_admitted log (attachment r) ->
  (exists s', represents (attachment r') s') /\ carrier_admitted log (attachment r')
  /\ (isTerminal (State (attachment r')) = false -> isTerminal (State (attachment r)) = false).
Proof.
  intros [_ [->|Hc]] R Ha; [by eauto|].
  destruct (change_refines _ _ _ _ _ Hc R) as (s' & _ & R').
  split; [by eauto|]. split; [by eapply change_admitted|by eapply change_live].
Qed.

Lemma evolves_back log who m m' p r' :
  evolves log who m m' -> records m' !! p = Some r' -> exists r, records m !! p = Some r /\ moved log who r r'.
Proof.
  intros H Hr'. pose proof (ev_records _ _ _ _ H p) as F. rewrite Hr' in F. inversion F; subst. eauto.
Qed.
Lemma evolves_forth log who m m' p r :
  evolves log who m m' -> records m !! p = Some r -> exists r', records m' !! p = Some r' /\ moved log who r r'.
Proof.
  intros H Hr. pose proof (ev_records _ _ _ _ H p) as F. rewrite Hr in F. inversion F; subst. eauto.
Qed.

Lemma good_evolves log who m m' : evolves log who m m' -> good m log -> good m' log.
Proof.
  intros H G. split.
  - intros k p Hp. rewrite (ev_operation _ _ _ _ H) in Hp.
    destruct (good_operation _ _ G _ _ Hp) as (r & Hr & ->).
    destruct (evolves_forth _ _ _ _ _ _ H Hr) as (r' & Hr' & Hm). exists r'. split; [done|].
    by destruct (moved_keys _ _ _ _ Hm) as (-> & _).
  - intros p r' Hr'. rewrite (ev_operation _ _ _ _ H).
    destruct (evolves_back _ _ _ _ _ _ H Hr') as (r & Hr & Hm).
    destruct (moved_keys _ _ _ _ Hm) as (-> & _). by apply (good_indexed _ _ G).
  - intros p r' Hr' Ht. rewrite (ev_preview _ _ _ _ H).
    destruct (evolves_back _ _ _ _ _ _ H Hr') as (r & Hr & Hm).
    destruct (good_record _ _ G _ _ Hr) as (_ & [s R] & Ha).
    destruct (moved_good _ _ _ _ _ Hm R Ha) as (_ & _ & Hl).
    destruct (moved_keys _ _ _ _ Hm) as (_ & -> & _). apply (good_live _ _ G _ _ Hr), Hl, Ht.
  - intros p r' Hr'. destruct (evolves_back _ _ _ _ _ _ H Hr') as (r & Hr & Hm).
    destruct (good_record _ _ G _ _ Hr) as (Hi & [s R] & Ha).
    destruct (moved_good _ _ _ _ _ Hm R Ha) as (Hs & Ha' & _).
    destruct (moved_keys _ _ _ _ Hm) as (_ & _ & Hv). auto.
Qed.

Lemma lookup_snoc_inv {A} (l : list A) x p r :
  (l ++ [x]) !! p = Some r -> (p < length l)%nat /\ l !! p = Some r \/ p = length l /\ r = x.
Proof.
  intros H. apply lookup_app_Some in H as [H|[Hp H]]; [left; split; [by eapply lookup_lt_Some|done]|right].
  apply list_lookup_singleton_Some in H as [? <-]. split; [lia|done].
Qed.

Lemma effect_good log who m m' : effect log who m m' -> good m log -> good m' log.
Proof.
  intros [|p r f Hr Hc|r _ Hop Hpv Hi Hs R] G; [done| |].
  { by eapply good_evolves; [eapply update_evolves|]. }
  assert (Hop' : forall p r', records m !! p = Some r' -> operation_key (attachment r') <> operation_key (attachment r)).
  { intros p r' Hr' E. pose proof (good_indexed _ _ G _ _ Hr') as Hk. rewrite E in Hk.
    rewrite (proj2 (record_at_Some _ _ _ p r')) in Hop; done. }
  split; cbn.
  - intros k p Hp. apply lookup_insert_Some in Hp as [[<- <-]|[Hne Hp]].
    + exists r. split; [|done]. by apply list_lookup_middle.
    + destruct (good_operation _ _ G _ _ Hp) as (r' & Hr' & ->). exists r'. split; [|done].
      apply lookup_app_l_Some, Hr'.
  - intros p r' [[_ Hr']|[-> ->]]%lookup_snoc_inv; [|by rewrite lookup_insert_eq].
    rewrite lookup_insert_ne by (intros E; by eapply Hop'). by apply (good_indexed _ _ G).
  - intros p r' [[_ Hr']|[-> ->]]%lookup_snoc_inv Ht; [|by rewrite lookup_insert_eq].
    pose proof (good_live _ _ G _ _ Hr' Ht) as Hv. rewrite lookup_insert_ne; [done|].
    intros E. rewrite <- E in Hv. specialize (Hpv p r').
    rewrite Hpv in Ht; [done|]. by apply record_at_Some.
  - intros p r' [[_ Hr']|[-> ->]]%lookup_snoc_inv; [by apply (good_record _ _ G p)|].
    split; [done|]. split; [by eexists|]. unfold carrier_admitted, edge_phase. by rewrite Hs.
Qed.

Lemma good_new : good NewManager [].
Proof. by split; intros ? ? H; cbn in H. Qed.

Lemma good_log m log log' : log ⊆ log' -> good m log -> good m log'.
Proof.
  intros Hsub [G1 G2 G3 G4]. split; [done..|]. intros p r Hr. destruct (G4 p r Hr) as (Hi & Hs & Ha).
  split; [done|]. split; [done|]. intros He. destruct (Ha He) as (adm & Hin & Hd). exists adm. auto.
Qed.
End Invariant.

(** ** Allocation *)

(** What a method knows once the authority has answered: the request carries the
    proof's identity, the resolution is valid and is the one of the request. *)
Record resolved (proof : MachineProof) (req : Request) (now : time) (resolution : Resolution) : Prop := {
  res_proof : validateRequestProof proof req = None;
  res_valid : validateResolution now resolution = None;
  res_owner : authorizeResolution proof req resolution = None;
  res_preview : LeaseSnapshot.PreviewID (Resolution.Lease resolution) = Request.PreviewID req;
}.

Lemma resolved_operation proof req now resolution : resolved proof req now resolution ->
  LeaseSnapshot.OperationID (Resolution.Lease resolution) = Request.OperationID req.
Proof.
  intros [Hp _ Ha _]. unfold validateRequestProof in Hp. repeat split_guard Hp; try done.
  unfold authorizeResolution in Ha. cbv zeta in Ha. split_guard Ha; [done|]. bool_prop. congruence.
Qed.

Lemma resolution_ids now resolution : validateResolution now resolution = None ->
  validID (LeaseSnapshot.AccountID (Resolution.Lease resolution)) = true
  /\ validID (LeaseSnapshot.PreviewID (Resolution.Lease resolution)) = true
  /\ validID (LeaseSnapshot.OperationID (Resolution.Lease resolution)) = true.
Proof.
  unfold validateResolution. destruct (lease_error _ _) eqn:E; [done|]. intros _.
  unfold lease_error in E. cbv zeta in E. split_guard E; [done|]. bool_prop. done.
Qed.

Lemma allocate_effect log proof req hash resolution now m :
  resolved proof req now resolution ->
  wp (allocate_section req hash resolution now)
    (fun _ m' => effect log Spec.Host (expireLocked now m) m') m.
Proof.
  intros Hres. unfold allocate_section. cbv zeta. apply wp_bind, wp_modify. apply wp_bind, wp_get.
  destruct (record_at _ _ _) as [[p r]|] eqn:Hr.
  { apply record_at_Some in Hr as [_ Hr].
    apply wp_bind, wp_fail_if; [constructor|intros _]. apply wp_bind, wp_fail_if; [constructor|intros Ht].
    by apply rebind_effect with r. }
  apply wp_bind, wp_fail_if; [constructor|intros Hpv]. apply wp_bind, wp_check; [constructor|intros _].
  apply wp_bind, wp_put, wp_ret.
  destruct (resolution_ids _ _ (res_valid _ _ _ _ Hres)) as (V1 & V2 & V3).
  rewrite <- (resolved_operation _ _ _ _ Hres), <- (res_preview _ _ _ _ Hres) in *.
  apply (eff_new log Spec.Host _ (mkRecord (attachmentFromResolution req hash resolution now)
    (LeaseSnapshot.MachineAccountID (Resolution.Lease resolution)))); try done.
  intros p r Hrp. unfold preview_key in Hrp.
  match type of Hpv with context [record_at ?i ?m' ?k] => change (record_at i m' k = Some (p, r)) in Hrp end.
  rewrite Hrp in Hpv. by bool_prop.
Qed.
