(* ===== verification/PreviewWorld.v ===== *)
(** * The attachment manager under all interleavings

    The critical sections of [PreviewManager] as steps of the manager and the
    trace of accepted admissions; every method, with anything that other calls do
    between its sections, is a sequence of such steps ([methods_are_steps]).  The
    properties of the manager follow from the invariant and the refinement of
    [PreviewManagerSafety]. *)
From S2P Require Import Prelude GoText GoHash GoUrl GoJson GoNet Errors ServerSession PreviewContract PreviewManager.
From S2P Require Import PreviewManagerSafety.

(** ** Steps *)
Inductive section :=
| SecAllocate (proof : MachineProof) (req : Request) (hash : string) (resolution : Resolution) (now : time)
| SecAdmit (req : Request) (binding : Binding) (generation : Z) (accountID : string) (now : time)
| SecAdmitted (req : Request) (binding : Binding) (generation : Z) (accountID : string) (now : time)
| SecEdge (req : Request) (binding : Binding) (generation : Z) (now : time)
| SecOrigin (req : Request) (binding : Binding) (generation : Z) (originReady : bool) (accountID : string)
    (now : time)
| SecRenew (req : Request) (generation : Z) (resolution : Resolution) (now : time)
| SecRelease (proof : MachineProof) (req : Request) (binding : Binding) (generation : Z) (now : time)
| SecPublisher (pub : nat).

Definition run_section (s : section) (m : Manager) : Manager :=
  match s with
  | SecAllocate _ req hash resolution now => snd (allocate_section req hash resolution now m)
  | SecAdmit req binding generation accountID now => snd (admit_section req binding generation accountID now m)
  | SecAdmitted req binding generation accountID now =>
      snd (admitted_section req binding generation accountID now m)
  | SecEdge req binding generation now => snd (edge_section req binding generation now m)
  | SecOrigin req binding generation originReady accountID now =>
      snd (origin_section req binding generation originReady accountID now m)
  | SecRenew req generation resolution now => snd (renew_section req generation resolution now m)
  | SecRelease proof req binding generation now => snd (release_section proof req binding generation now m)
  | SecPublisher pub => m <| publisher := Some pub |>
  end.

(** What the method has established before it enters the section. *)
Definition enabled (log : list AdmissionRequest) (s : section) : Prop :=
  match s with
  | SecAllocate proof req _ resolution now => resolved proof req now resolution
  | SecAdmitted _ binding _ _ _ => accepted_for log binding
  | _ => True
  end.

Definition actor_of (s : section) : Spec.actor :=
  match s with SecAdmitted _ _ _ _ _ => Spec.Publisher | SecEdge _ _ _ _ => Spec.Edge | _ => Spec.Host end.

Abbreviation state := (Manager * list AdmissionRequest)%type.
Inductive step : state -> state -> Prop :=
| step_section s m log : enabled log s -> step (m, log) (run_section s m, log)
| step_accepted adm m log : step (m, log) (m, adm :: log).

(** A section lets the clock act, then its own actor. *)
Lemma section_effect log s m : enabled log s ->
  exists m1, evolves log Spec.Clock m m1 /\ effect log (actor_of s) m1 (run_section s m).
Proof.
  destruct s as [proof req hash res now|req b g acc now|req b g acc now|req b g now|req b g o acc now
    |req g res now|proof req b g now|pub]; cbn [enabled run_section actor_of]; intros He.
  1-6: exists (expireLocked now m); split; [apply expire_evolves|].
  - by eapply allocate_effect.
  - destruct (admit_effect req b g acc now m) as [-> _]. constructor.
  - by apply admitted_effect.
  - apply edge_effect.
  - apply origin_effect.
  - apply renew_effect.
  - exists m. split; [|apply release_effect]. split; [done..|]. intros p.
    destruct (records m !! p); constructor. apply record_moved_refl.
  - exists (m <| publisher := Some pub |>). split; [|constructor]. split; [done..|]. intros p. cbn.
    destruct (records m !! p); constructor. apply record_moved_refl.
Qed.

Definition sound (st : state) : Prop := good (fst st) (snd st).

Lemma step_sound st st' : step st st' -> sound st -> sound st'.
Proof.
  destruct 1 as [s m log He|adm m log]; unfold sound; cbn [fst snd]; intros G.
  - destruct (section_effect _ _ m He) as (m1 & Hc & Heff).
    by eapply effect_good, good_evolves.
  - eapply good_log; [|done]. set_solver.
Qed.
Lemma steps_sound st st' : rtc step st st' -> sound st -> sound st'.
Proof. induction 1; eauto using step_sound. Qed.

(** The trace only grows. *)
Lemma steps_log st st' : rtc step st st' -> snd st ⊆ snd st'.
Proof. induction 1 as [st|st st1 st' Hst _ IH]; [done|]. intros x Hx. apply IH. destruct Hst; [done|by right]. Qed.

(** ** Every record follows the abstract machine *)
Definition spec_step (s s' : Spec.state) : Prop := exists who, Spec.trans who s s'.

Lemma moved_follows log who r r' s :
  moved log who r r' -> represents (attachment r) s ->
  exists s', Spec.trans who s s' /\ represents (attachment r') s'.
Proof.
  intros [_ [->|Hc]] R; [exists s; split; [constructor|done]|by eapply change_refines].
Qed.

Lemma effect_follows log who m m' p r s :
  effect log who m m' -> records m !! p = Some r -> represents (attachment r) s ->
  exists r' s', records m' !! p = Some r' /\ actorID r' = actorID r /\ Spec.trans who s s'
    /\ represents (attachment r') s'.
Proof.
  intros [|q rq f Hq Hc|rn Hw Hop Hpv Hi Hs R] Hr Rs.
  - exists r, s. repeat split; [done|constructor|apply Rs..].
  - destruct (evolves_forth _ _ _ _ _ _ (update_evolves _ _ _ _ _ _ Hq Hc) Hr) as (r' & Hr' & Hm).
    destruct (moved_follows _ _ _ _ _ Hm Rs) as (s' & Ht & R'). exists r', s'. split; [done|].
    split; [apply Hm|done].
  - exists r, s. split; [by apply lookup_app_l_Some|]. split; [done|]. split; [constructor|done].
Qed.

Lemma section_follows log sec m p r s :
  enabled log sec -> records m !! p = Some r -> represents (attachment r) s ->
  exists r' s1 s2, records (run_section sec m) !! p = Some r' /\ actorID r' = actorID r
    /\ Spec.trans Spec.Clock s s1 /\ Spec.trans (actor_of sec) s1 s2 /\ represents (attachment r') s2.
Proof.
  intros He Hr Rs. destruct (section_effect _ _ m He) as (m1 & Hev & Heff).
  destruct (evolves_forth _ _ _ _ _ _ Hev Hr) as (r1 & Hr1 & Hm).
  destruct (moved_follows _ _ _ _ _ Hm Rs) as (s1 & Ht1 & R1).
  destruct (effect_follows _ _ _ _ _ _ _ Heff Hr1 R1) as (r2 & s2 & Hr2 & Ha & Ht2 & R2).
  exists r2, s1, s2. split; [done|]. split; [|done]. destruct Hm as [Hact _]. congruence.
Qed.

Lemma steps_follow st st' p r s :
  rtc step st st' -> records (fst st) !! p = Some r -> represents (attachment r) s ->
  exists r' s', records (fst st') !! p = Some r' /\ actorID r' = actorID r /\ rtc spec_step s s'
    /\ represents (attachment r') s'.
Proof.
  intros H. revert r s. induction H as [st|st st1 st' Hst _ IH]; intros r s Hr Rs.
  - exists r, s. split; [done|]. split; [done|]. by split; [apply rtc_refl|].
  - destruct Hst as [sec m log He|adm m log]; cbn [fst] in *.
    + destruct (section_follows _ _ _ _ _ _ He Hr Rs) as (r1 & s1 & s2 & Hr1 & Ha & T1 & T2 & R1).
      destruct (IH _ _ Hr1 R1) as (r' & s' & Hr' & Ha' & Hs' & R'). exists r', s'.
      split; [done|]. split; [congruence|]. split; [|done].
      eapply rtc_l; [by eexists|]. eapply rtc_l; [by eexists|done].
    + by apply IH.
Qed.

Lemma trans_identity who s s' : Spec.trans who s s' -> Spec.identity s' = Spec.identity s.
Proof. by destruct 1. Qed.

(** Every record began as a pending attachment of generation one. *)
Definition begun (m : Manager) : Prop := forall p r, records m !! p = Some r ->
  exists s, represents (attachment r) s
    /\ rtc spec_step (Spec.mk Spec.Pending 1 (identity (Attachment.Binding (attachment r)))) s.

Lemma effect_begun log who m m' : effect log who m m' -> begun m -> begun m'.
Proof.
  intros He Hb p r' Hr'. destruct (records m !! p) as [r|] eqn:Hr.
  - destruct (Hb p r Hr) as (s & Rs & Hs).
    destruct (effect_follows _ _ _ _ _ _ _ He Hr Rs) as (r2 & s2 & Hr2 & _ & Ht & R2).
    rewrite Hr' in Hr2. injection Hr2 as <-. exists s2. split; [done|].
    assert (identity (Attachment.Binding (attachment r')) = identity (Attachment.Binding (attachment r))) as ->.
    { rewrite (rep_identity _ _ R2), (rep_identity _ _ Rs). by eapply trans_identity. }
    eapply rtc_r; [done|by eexists].
  - destruct He as [|q rq f Hq Hc|rn Hw Hop Hpv Hi Hst R].
    + congruence.
    + destruct (evolves_back _ _ _ _ _ _ (update_evolves _ _ _ _ _ _ Hq Hc) Hr') as (r & Hr2 & _). congruence.
    + cbn in Hr'. apply lookup_snoc_inv in Hr' as [[_ Hr2]|[-> ->]]; [congruence|].
      eexists. split; [exact R|apply rtc_refl].
Qed.

Lemma evolves_begun log m m' : evolves log Spec.Clock m m' -> begun m -> begun m'.
Proof.
  intros He Hb p r' Hr'. destruct (evolves_back _ _ _ _ _ _ He Hr') as (r & Hr & Hm).
  destruct (Hb p r Hr) as (s & Rs & Hs). destruct (moved_follows _ _ _ _ _ Hm Rs) as (s2 & Ht & R2).
  exists s2. split; [done|].
  assert (identity (Attachment.Binding (attachment r')) = identity (Attachment.Binding (attachment r))) as ->.
  { rewrite (rep_identity _ _ R2), (rep_identity _ _ Rs). by eapply trans_identity. }
  eapply rtc_r; [done|by eexists].
Qed.

Lemma steps_begun st st' : rtc step st st' -> begun (fst st) -> begun (fst st').
Proof.
  induction 1 as [st|st st1 st' Hst _ IH]; [done|]. intros Hb. apply IH.
  destruct Hst as [sec m log He|adm m log]; [|done]. cbn [fst] in *.
  destruct (section_effect _ _ m He) as (m1 & Hev & Heff).
  eapply effect_begun; [done|]. by eapply evolves_begun.
Qed.

(** ** The methods are steps *)

(** The authority answers for the preview that was asked about. *)
Class FaithfulAuthority {X} (authority : Context -> ResolveRequest -> X -> PRes Resolution * X) : Prop :=
  authority_preview : forall ctx rr x resolution x', authority ctx rr x = (Ok resolution, x') ->
    LeaseSnapshot.PreviewID (Resolution.Lease resolution) = Request.PreviewID (rr_Request rr).

Section Methods.
Context {X : Type}.
Context (authority : Context -> ResolveRequest -> X -> PRes Resolution * X) `{!FaithfulAuthority authority}.
Context (publisher : Context -> nat -> AdmissionRequest -> X -> PRes AdmissionDelivery * X).

Definition view (w : World X) : state := (mgr w, accepted w).

Definition respects (f : World X -> World X) : Prop := forall w, rtc step (view w) (view (f w)).
Record call_ok (c : Call X) : Prop := {
  ok_before : respects (c_before c);
  ok_beforePublish : respects (c_beforePublish c);
  ok_afterPublish : respects (c_afterPublish c);
}.

(** One call of a method, from beginning to end. *)
Inductive call : World X -> World X -> Prop :=
| call_publisher pub w : call w (snd (SetAdmissionPublisher pub w))
| call_allocate c proof req w : call_ok c -> call w (snd (Manager_Allocate authority c proof req w))
| call_admit c proof req binding generation w : call_ok c ->
    call w (snd (Manager_Admit authority publisher c proof req binding generation w))
| call_edge c req binding generation w : call_ok c ->
    call w (snd (Manager_ObserveEdge c req binding generation w))
| call_origin c proof req binding generation originReady w : call_ok c ->
    call w (snd (Manager_ObserveOrigin authority c proof req binding generation originReady w))
| call_renew c proof req generation w : call_ok c ->
    call w (snd (Manager_Renew authority c proof req generation w))
| call_release c proof req binding generation w : call_ok c ->
    call w (snd (Manager_Release c proof req binding generation w))
| call_get accountID operationID w : call w (snd (Manager_Get accountID operationID w)).

Definition reach (w0 w : World X) : Prop := rtc step (view w0) (view w).
Abbreviation ends_reached w0 := (fun _ w => reach w0 w).

Lemma wp_others w0 (f : World X -> World X) w (Q : result PreviewError unit -> World X -> Prop) :
  respects f -> reach w0 w -> (forall w', reach w0 w' -> Q (Ok tt) w') -> wp (others f) Q w.
Proof.
  intros Hf Hw HQ. apply wp_modify, HQ. unfold reach in *. by transitivity (view w).
Qed.

Lemma wp_under_lock {A} (m : L A) w0 w sec :
  snd (m (mgr w)) = run_section sec (mgr w) -> enabled (accepted w) sec -> reach w0 w ->
  wp (under_lock m) (ends_reached w0) w.
Proof.
  intros Hm He Hw. unfold wp, under_lock. destruct (m (mgr w)) as [r s] eqn:E. cbn in Hm |- *.
  eapply rtc_r; [exact Hw|]. unfold view. cbn. rewrite Hm. by constructor.
Qed.

Lemma wp_authorized c proof req w0 w (Q : result PreviewError Resolution -> World X -> Prop) :
  reach w0 w -> (forall e w', reach w0 w' -> Q (Err e) w') ->
  (forall resolution w', reach w0 w' -> resolved proof req (c_now c) resolution -> Q (Ok resolution) w') ->
  wp (authorized authority c proof req) Q w.
Proof using FaithfulAuthority0.
  intros Hw HE HQ. unfold authorized. apply wp_bind, wp_check; [by auto|intros Hp].
  apply wp_bind. unfold resolve, wp.
  destruct (authority (c_ctx c) (mkResolveRequest proof req) (ext w)) as [[res|e] x] eqn:E; cbn; [|by apply HE].
  pose proof (authority_preview _ _ _ _ _ E) as Hpv.
  match goal with |- Q (fst (?m ?w')) _ => change (wp m Q w'); assert (Hw' : reach w0 w') by done end.
  apply wp_bind, wp_check; [by auto|intros Hv]. apply wp_bind, wp_check; [by auto|intros Ha].
  apply wp_ret, HQ; [done|]. by split.
Qed.

Lemma allocate_steps c proof req w : call_ok c ->
  wp (Manager_Allocate authority c proof req) (ends_reached w) w.
Proof using FaithfulAuthority0.
  intros [Hb _ _]. unfold Manager_Allocate. apply wp_bind, (wp_authorized _ _ _ w); [apply rtc_refl|done|].
  intros res w1 Hw1 Hres. apply wp_bind, wp_lift. destruct (Request_Hash _ _) as [hash|e]; [|done].
  apply wp_bind, (wp_others w); [done..|]. intros w2 Hw2.
  by apply (wp_under_lock _ _ _ (SecAllocate proof req hash res (c_now c))).
Qed.

Lemma admit_steps c proof req binding generation w : call_ok c ->
  wp (Manager_Admit authority publisher c proof req binding generation) (ends_reached w) w.
Proof using FaithfulAuthority0.
  intros [Hb Hp Ha]. unfold Manager_Admit. apply wp_bind, (wp_authorized _ _ _ w); [apply rtc_refl|done|].
  intros res w1 Hw1 Hres. apply wp_bind, wp_fail_if; [done|intros _].
  apply wp_bind, (wp_others w); [done..|]. intros w2 Hw2. apply wp_bind.
  pose proof (admit_effect req binding generation (account_of res) (c_now c) (mgr w2)) as He.
  pose proof (wp_under_lock (admit_section req binding generation (account_of res) (c_now c)) w w2
    (SecAdmit req binding generation (account_of res) (c_now c)) eq_refl I Hw2) as Hs.
  unfold wp in *. unfold under_lock in *.
  destruct (admit_section req binding generation (account_of res) (c_now c) (mgr w2)) as [[[a|[pub adm]]|e] m2];
    cbn [fst snd] in *; [done| |done].
  destruct He as [_ He]. destruct (He pub adm eq_refl) as [Hadm _]. clear He.
  set (w3 := w2 <| mgr := m2 |>) in *. clearbody w3. clear Hw2.
  match goal with |- reach _ (snd (?m _)) => change (wp m (ends_reached w) w3) end.
  apply wp_bind, (wp_others w); [done..|]. intros w4 Hw4. apply wp_bind. unfold publish, wp.
  destruct (publisher (c_ctx c) pub adm (ext w4)) as [r x]. cbn [fst snd].
  match goal with |- reach _ (snd (?m ?w5)) => change (wp m (ends_reached w) w5); set (w5' := w5) end.
  assert (Hw5 : reach w w5' /\ (is_accepted r = true -> accepted_for (accepted w5') binding)).
  { unfold w5'. split.
    - unfold reach, view in *. cbn. destruct (is_accepted r); [|done]. eapply rtc_r; [done|constructor].
    - intros E. cbn. rewrite E. exists adm. split; [left|done]. }
  clearbody w5'. destruct Hw5 as [Hw5 Hacc].
  apply wp_bind, wp_modify. set (w6 := c_afterPublish c w5').
  assert (Hw6 : rtc step (view w5') (view w6)) by apply Ha.
  assert (Hr6 : reach w w6) by (unfold reach in *; by transitivity (view w5')).
  apply wp_bind, wp_fail_if; [done|intros Hd]. bool_prop.
  apply (wp_under_lock _ _ _ (SecAdmitted req binding generation (account_of res) (c_now c))); [done| |done].
  cbn. destruct (Hacc Hd) as (adm' & Hin & Hb'). exists adm'. split; [|done]. exact (steps_log _ _ Hw6 _ Hin).
Qed.

Lemma edge_steps c req binding generation w : call_ok c ->
  wp (Manager_ObserveEdge c req binding generation) (ends_reached w) w.
Proof.
  intros [Hb _ _]. unfold Manager_ObserveEdge. do 4 (apply wp_bind; wp_step; [apply rtc_refl|]).
  apply wp_bind, (wp_others w); [done|apply rtc_refl|]. intros w2 Hw2.
  by apply (wp_under_lock _ _ _ (SecEdge req binding generation (c_now c))).
Qed.

Lemma origin_steps c proof req binding generation originReady w : call_ok c ->
  wp (Manager_ObserveOrigin authority c proof req binding generation originReady) (ends_reached w) w.
Proof using FaithfulAuthority0.
  intros [Hb _ _]. unfold Manager_ObserveOrigin. apply wp_bind, (wp_authorized _ _ _ w); [apply rtc_refl|done|].
  intros res w1 Hw1 Hres. apply wp_bind, wp_fail_if; [done|intros _].
  apply wp_bind, (wp_others w); [done..|]. intros w2 Hw2.
  by apply (wp_under_lock _ _ _ (SecOrigin req binding generation originReady (account_of res) (c_now c))).
Qed.

Lemma renew_steps c proof req generation w : call_ok c ->
  wp (Manager_Renew authority c proof req generation) (ends_reached w) w.
Proof using FaithfulAuthority0.
  intros [Hb _ _]. unfold Manager_Renew. apply wp_bind, (wp_authorized _ _ _ w); [apply rtc_refl|done|].
  intros res w1 Hw1 Hres. apply wp_bind, (wp_others w); [done..|]. intros w2 Hw2.
  by apply (wp_under_lock _ _ _ (SecRenew req generation res (c_now c))).
Qed.

Lemma release_steps c proof req binding generation w : call_ok c ->
  wp (Manager_Release c proof req binding generation) (ends_reached w) w.
Proof.
  intros [Hb _ _]. unfold Manager_Release. apply wp_bind; wp_step; [apply rtc_refl|].
  apply wp_bind, (wp_others w); [done|apply rtc_refl|]. intros w2 Hw2.
  by apply (wp_under_lock _ _ _ (SecRelease proof req binding generation (c_now c))).
Qed.

Lemma get_changes_nothing accountID operationID w :
  wp (Manager_Get accountID operationID) (fun _ w' => view w' = view w) (w : World X).
Proof.
  unfold Manager_Get. apply wp_bind, wp_fail_if; intros _; [done|].
  unfold wp, under_lock, operation_record. rewrite !mbind_unfold. cbn.
  by destruct (record_at _ _ _) as [[p r']|].
Qed.

Lemma methods_are_steps w w' : call w w' -> rtc step (view w) (view w').
Proof using FaithfulAuthority0.
  destruct 1 as [pub w|c proof req w H|c proof req b g w H|c req b g w H|c proof req b g o w H
    |c proof req g w H|c proof req b g w H|acc op w].
  - destruct pub as [pub|]; [|apply rtc_refl]. apply rtc_once, (step_section (SecPublisher pub)). done.
  - by apply allocate_steps.
  - by apply admit_steps.
  - by apply edge_steps.
  - by apply origin_steps.
  - by apply renew_steps.
  - by apply release_steps.
  - rewrite (get_changes_nothing acc op w). apply rtc_refl.
Qed.

Lemma calls_are_steps w w' : rtc call w w' -> rtc step (view w) (view w').
Proof using FaithfulAuthority0.
  induction 1 as [|w w1 w' H _ IH]; [apply rtc_refl|]. transitivity (view w1); [by apply methods_are_steps|done].
Qed.

Definition fresh (w : World X) : Prop := mgr w = NewManager /\ accepted w = [].

Lemma reachable_good w0 w : fresh w0 -> rtc call w0 w -> good (mgr w) (accepted w).
Proof using FaithfulAuthority0.
  intros [Hm Ha] H%calls_are_steps. apply (steps_sound _ _ H). unfold sound, view. cbn. rewrite Hm, Ha. apply good_new.
Qed.

(** In every interleaving of calls of the attachment manager, a record that is admitted,
    edge-ready or ready has an admission that the edge's publisher accepted for the same data
    carrier; a reconnect of the carrier loses it. *)
Theorem edge_ready_only_when_accepted w0 w p r :
  fresh w0 -> rtc call w0 w -> records (mgr w) !! p = Some r ->
  Attachment.EdgeReady (attachment r) = true \/ Attachment.State (attachment r) = StateAdmitted ->
  exists admission, admission ∈ accepted w
    /\ dataCarrierBindingEqual (AdmissionRequest.Binding admission) (Attachment.Binding (attachment r)) = true.
Proof using FaithfulAuthority0.
  intros Hf Hc Hr He. destruct (good_record _ _ (reachable_good _ _ Hf Hc) _ _ Hr) as (_ & [s R] & Ha).
  apply Ha. unfold edge_phase. destruct He as [He|He]; [|by rewrite He].
  rewrite (rep_state _ _ R). rewrite (rep_edge _ _ R) in He. by destruct (Spec.ph s).
Qed.

(** C34. Every record of the attachment manager follows the abstract machine of phases: it is
    reached from pending, generation one, it never changes what names it, and a critical section
    lets first the clock and then its own actor (host, publisher or edge) take a step, so a host
    can never make its record edge-ready. *)
Theorem attachments_refine_phases w0 w :
  fresh w0 -> rtc call w0 w ->
  (forall p r, records (mgr w) !! p = Some r -> exists s, represents (attachment r) s
     /\ rtc spec_step (Spec.mk Spec.Pending 1 (identity (Attachment.Binding (attachment r)))) s)
  /\ (forall w' p r s, rtc call w w' -> records (mgr w) !! p = Some r -> represents (attachment r) s ->
     exists r' s', records (mgr w') !! p = Some r' /\ actorID r' = actorID r /\ rtc spec_step s s'
       /\ represents (attachment r') s')
  /\ (forall sec p r s, enabled (accepted w) sec -> records (mgr w) !! p = Some r -> represents (attachment r) s ->
     exists r' s1 s2, records (run_section sec (mgr w)) !! p = Some r' /\ Spec.trans Spec.Clock s s1
       /\ Spec.trans (actor_of sec) s1 s2 /\ represents (attachment r') s2).
Proof using FaithfulAuthority0.
  intros [Hm Ha] Hc. split; [|split].
  - apply (steps_begun _ _ (calls_are_steps _ _ Hc)). cbn. rewrite Hm. by intros p r H.
  - intros w' p r s Hc' Hr Rs. exact (steps_follow _ _ _ _ _ (calls_are_steps _ _ Hc') Hr Rs).
  - intros sec p r s He Hr Rs.
    destruct (section_follows _ _ _ _ _ _ He Hr Rs) as (r' & s1 & s2 & Hr' & _ & T1 & T2 & R'). by exists r', s1, s2.
Qed.

(** Of two records of an account, those of one operation are the same record, and
    so are the live ones of one preview. *)
Theorem one_live_attachment_per_preview w0 w p q r r' :
  fresh w0 -> rtc call w0 w -> records (mgr w) !! p = Some r -> records (mgr w) !! q = Some r' ->
  let b := Attachment.Binding (attachment r) in
  let b' := Attachment.Binding (attachment r') in
  Binding.AccountID b = Binding.AccountID b' ->
  (Binding.OperationID b = Binding.OperationID b' -> p = q)
  /\ (Binding.PreviewID b = Binding.PreviewID b' -> isTerminal (Attachment.State (attachment r)) = false ->
      isTerminal (Attachment.State (attachment r')) = false -> p = q).
Proof using FaithfulAuthority0.
  intros Hf Hc Hp Hq b b' Ea. pose proof (reachable_good _ _ Hf Hc) as G. split.
  - intros Eo. pose proof (good_indexed _ _ G _ _ Hp) as H1. pose proof (good_indexed _ _ G _ _ Hq) as H2.
    unfold operation_key in *. fold b b' in H1, H2. rewrite Ea, Eo in H1. congruence.
  - intros Ev L1 L2. pose proof (good_live _ _ G _ _ Hp L1) as H1. pose proof (good_live _ _ G _ _ Hq L2) as H2.
    unfold preview_key in *. fold b b' in H1, H2. rewrite Ea, Ev in H1. congruence.
Qed.
End Methods.
