(* ===== verification/PreviewFencing.v ===== *)
(** * Handles of the attachment manager

    A handle is the binding and the generation that a call was answered with.
    [stale_handle_changes_nothing]: a call with a handle that is no longer the
    record's changes nothing; [retry_returns_the_answer]: a call that is repeated
    because its answer was lost is answered again with the same attachment. *)
From S2P Require Import Prelude GoText GoHash GoUrl GoJson GoNet Errors ServerSession PreviewContract PreviewManager.
From S2P Require Import PreviewManagerSafety.

Section Stale.
Import Attachment.

(** The section leaves the manager alone, and answers with the record only if
    the handle is the one the record had one generation ago and the record is
    already where the call wants it ([reached]). *)
Definition refused {A} (answer : Attachment -> A) (m : Manager) (a : Attachment)
    (binding : Binding.Binding) (generation : Z) (reached : bool)
    (r : result PreviewError A) (m' : Manager) : Prop :=
  m' = m /\ forall x, r = Ok x -> x = answer a
    /\ AttachmentGeneration a = u64_add generation 1 /\ Binding a = binding /\ reached = true.

Definition stale (a : Attachment) (binding : Binding.Binding) (generation : Z) : Prop :=
  generation <> AttachmentGeneration a \/ binding <> Binding a.

Lemma stale_checked a binding generation :
  stale a binding generation -> checkGenerationAndBinding a binding generation <> None.
Proof. intros [H|H] [E1 E2]%binding_checked; congruence. Qed.

Lemma already_next a binding generation reached :
  already a binding generation reached = true ->
  AttachmentGeneration a = u64_add generation 1 /\ Binding a = binding /\ reached = true.
Proof. unfold already. intros H. bool_prop. by subst. Qed.

Lemma refused_throw {A} (answer : Attachment -> A) m a binding generation reached e :
  refused answer m a binding generation reached (Err e) m.
Proof. by split. Qed.

(** Recognising a retry and comparing the handle refuse a stale handle. *)
Lemma fence_refuses {A} (answer : Attachment -> A) a binding generation reached (k : L A) m :
  stale a binding generation ->
  wp (if already a binding generation reached then ret (answer a)
      else check (checkGenerationAndBinding a binding generation) ;; k)
    (refused answer m a binding generation reached) m.
Proof.
  intros Hs. apply wp_if; intros E.
  - apply already_next in E. apply wp_ret. split; [done|]. by intros x [= <-].
  - apply wp_bind, wp_check; [intros e _; apply refused_throw|intros Ec]. by destruct (stale_checked _ _ _ Hs).
Qed.

Lemma record_refuses {A} (answer : Attachment -> A) accountID operationID (k : nat * record -> L A)
    m p r binding generation reached :
  record_at (byOperation m) m (operationKey accountID operationID) = Some (p, r) ->
  wp (k (p, r)) (refused answer m (attachment r) binding generation reached) m ->
  wp (operation_record accountID operationID ≫= k)
    (refused answer m (attachment r) binding generation reached) m.
Proof.
  intros Hr Hk. apply wp_bind, wp_operation_record; [|apply refused_throw]. intros p' r' Hr'.
  rewrite Hr in Hr'. by injection Hr' as <- <-.
Qed.

Ltac refuse answer Hr Hs :=
  apply wp_bind, wp_modify; apply (record_refuses answer _ _ _ _ _ _ _ _ _ Hr); cbv zeta;
  apply wp_bind, wp_check; [intros e _; apply refused_throw|intros _]; by apply (fence_refuses answer).

(** C35. A handle of another generation or binding changes nothing: in both halves of an
    admission, in the observations of edge and origin and in a release, the records are
    afterwards those that expiry alone leaves, and the call is refused or is the retry of a call
    that already happened: its binding is the record's, its generation is one behind the
    record's, the record is already in the state that the call asks for, and the answer is the
    record. *)
Theorem stale_handle_changes_nothing req binding generation originReady accountID now m p r :
  let m1 := expireLocked now m in
  let a := attachment r in
  record_at (byOperation m1) m1 (operationKey accountID (Request.OperationID req)) = Some (p, r) ->
  stale a binding generation ->
  wp (admit_section req binding generation accountID now)
    (refused inl m1 a binding generation (State a == StateAdmitted)) m
  /\ wp (admitted_section req binding generation accountID now)
       (refused id m1 a binding generation (State a == StateAdmitted)) m
  /\ wp (origin_section req binding generation originReady accountID now)
       (refused id m1 a binding generation
          ((State a == (if originReady then StateReady else StateEdgeReady)) && EdgeReady a
           && Bool.eqb (OriginReady a) originReady)) m
  /\ (Binding.AccountID binding = accountID ->
      wp (edge_section req binding generation now)
        (refused id m1 a binding generation ((State a == StateEdgeReady) && EdgeReady a)) m)
  /\ (forall proof q rq, findOperationLocked (Request.OperationID req) m = Some (q, rq) ->
      stale (attachment rq) binding generation ->
      wp (release_section proof req binding generation now)
        (refused id m (attachment rq) binding generation (State (attachment rq) == StateReleased)) m).
Proof.
  intros m1 a Hr Hs. split; [|split; [|split; [|split]]].
  - unfold admit_section. refuse (@inl Attachment (nat * AdmissionRequest)) Hr Hs.
  - unfold admitted_section. refuse (@id Attachment) Hr Hs.
  - unfold origin_section. refuse (@id Attachment) Hr Hs.
  - intros <-. unfold edge_section. refuse (@id Attachment) Hr Hs.
  - intros proof q rq Hf Hsq. unfold release_section. apply wp_bind, wp_get. rewrite Hf.
    apply wp_bind, wp_fail_if; [intros _; apply refused_throw|intros _].
    apply wp_bind, wp_check; [intros e _; apply refused_throw|intros _]. by apply (fence_refuses (@id Attachment)).
Qed.
End Stale.

(** ** Retries *)
Section Retry.
Import Attachment.

(** The manager holds the attachment for the request. *)
Definition held (m : Manager) (accountID : string) (req : Request) (a : Attachment) : Prop :=
  exists p r, record_at (byOperation m) m (operationKey accountID (Request.OperationID req)) = Some (p, r)
    /\ attachment r = a /\ checkRecordRequest a req accountID = None.

(** The handle leads to the attachment: it is the record's own, or the record is
    one generation further and where the call wanted it. *)
Definition answers (a : Attachment) (binding : Binding.Binding) (generation : Z) (next own : bool) : Prop :=
  already a binding generation next = true
  \/ checkGenerationAndBinding a binding generation = None /\ own = true.

Lemma held_update m accountID req p r f :
  record_at (byOperation m) m (operationKey accountID (Request.OperationID req)) = Some (p, r) ->
  checkRecordRequest (f (attachment r)) req accountID = None ->
  held (update_attachment p f m) accountID req (f (attachment r)).
Proof.
  intros [Hk Hr]%record_at_Some Hc. exists p, (r <| attachment := f (attachment r) |>).
  split; [|done]. apply record_at_Some. split; [done|]. by apply update_lookup.
Qed.

Lemma next_answers a a' binding generation next own :
  checkGenerationAndBinding a binding generation = None ->
  AttachmentGeneration a' = u64_add (AttachmentGeneration a) 1 -> Binding a' = Binding a -> next = true ->
  answers a' binding generation next own.
Proof.
  intros [-> <-]%binding_checked Hg Hb ->. left. unfold already. rewrite Hg, Hb, Z.eqb_refl.
  by rewrite bool_decide_true.
Qed.

Lemma wp_validated_update p now m r f (Q : result PreviewError Attachment -> Manager -> Prop) :
  records m !! p = Some r ->
  Q (Ok (f (attachment r))) (update_attachment p f m) -> (forall e, Q (Err e) (update_attachment p f m)) ->
  wp (update p f ;; validated p now) Q m.
Proof.
  intros Hr HQ HE. apply wp_bind, wp_modify. unfold validated, deref. apply wp_bind, wp_bind, wp_get.
  rewrite (update_lookup _ _ _ _ Hr). apply wp_ret. cbn. apply wp_bind, wp_check; [by auto|]. intros _. by apply wp_ret.
Qed.

(** A section that answers leaves the attachment in the manager, and its own
    handle leads there. *)
Definition leaves (accountID : string) (req : Request) (binding : Binding.Binding) (generation : Z)
    (next own : Attachment -> bool) (r : result PreviewError Attachment) (m : Manager) : Prop :=
  forall a, r = Ok a -> held m accountID req a /\ answers a binding generation (next a) (own a).

Ltac leave_start Hr Hq :=
  apply wp_bind, wp_modify; apply wp_bind, wp_operation_record; [intros p r Hr|done]; cbv zeta;
  apply wp_bind, wp_check; [done|intros Hq].
Ltac leave_same Hr Hq := apply wp_ret; intros a [= <-]; split; [do 2 eexists; split; [exact Hr|done]|].
Ltac leave_next Hr Hq Hg :=
  pose proof Hr as [_ Hp]%record_at_Some;
  apply (wp_validated_update _ _ _ _ _ _ Hp); [|done]; intros a [= <-];
  split; [refine (held_update _ _ _ _ _ _ Hr _); exact Hq|]; by apply (next_answers _ _ _ _ _ _ Hg).

Lemma admitted_leaves req binding generation accountID now m :
  wp (admitted_section req binding generation accountID now)
    (leaves accountID req binding generation (fun a => State a == StateAdmitted) (fun a => State a != StatePending)) m.
Proof.
  unfold admitted_section. leave_start Hr Hq. apply wp_if; intros Hal; [leave_same Hr Hq; by left|].
  apply wp_bind, wp_check; [done|intros Hg].
  apply wp_if; intros Hs; [leave_same Hr Hq; by right|]. leave_next Hr Hq Hg.
Qed.

Lemma edge_leaves req binding generation now m :
  wp (edge_section req binding generation now)
    (leaves (Binding.AccountID binding) req binding generation
       (fun a => (State a == StateEdgeReady) && EdgeReady a)
       (fun a => EdgeReady a && negb (isTerminal (State a)))) m.
Proof.
  unfold edge_section. leave_start Hr Hq. apply wp_if; intros Hal; [leave_same Hr Hq; by left|].
  apply wp_bind, wp_check; [done|intros Hg]. apply wp_bind, wp_fail_if; [done|intros Ht].
  apply wp_if; intros He; [leave_same Hr Hq; right; by rewrite He, Ht|].
  apply wp_bind, wp_fail_if; [done|intros Hs]. leave_next Hr Hq Hg.
Qed.

Lemma origin_leaves req binding generation originReady accountID now m :
  wp (origin_section req binding generation originReady accountID now)
    (leaves accountID req binding generation
       (fun a => (State a == (if originReady then StateReady else StateEdgeReady)) && EdgeReady a
                 && Bool.eqb (OriginReady a) originReady)
       (fun a => negb (isTerminal (State a))
                 && negb (negb (EdgeReady a) || ((State a != StateEdgeReady) && (State a != StateReady)))
                 && Bool.eqb (OriginReady a) originReady)) m.
Proof.
  unfold origin_section. leave_start Hr Hq. apply wp_if; intros Hal; [leave_same Hr Hq; by left|].
  apply wp_bind, wp_check; [done|intros Hg]. apply wp_bind, wp_fail_if; [done|intros Ht].
  apply wp_bind, wp_fail_if; [done|intros He].
  apply wp_if; intros Ho; [leave_same Hr Hq; right; by rewrite Ht, He, Ho|].
  pose proof Hr as [_ Hp]%record_at_Some.
  apply (wp_validated_update _ _ _ _ _ _ Hp); [|done]; intros a [= <-].
  apply orb_false_iff in He as [He _]. apply negb_false_iff in He.
  split; [refine (held_update _ _ _ _ _ _ Hr _); unfold origin_update; by destruct originReady|].
  apply (next_answers _ _ _ _ _ _ Hg); unfold origin_update; destruct originReady; cbn; try done; by rewrite He.
Qed.

(** An attachment that has not run out is not touched by the clock. *)
Definition lasting (a : Attachment) (now : time) : Prop := isTerminal (State a) = true \/ After (ExpiresAt a) now = true.

Lemma expire_keeps now m index key p r :
  record_at index m key = Some (p, r) -> lasting (attachment r) now ->
  record_at index (expireLocked now m) key = Some (p, r).
Proof.
  intros [Hk Hr]%record_at_Some Hl. apply record_at_Some. split; [done|]. unfold expireLocked. cbn.
  rewrite list_lookup_imap, Hr. cbn. case_bool_decide; [|done]. unfold expire_attachment.
  assert (isTerminal (State (attachment r)) || After (ExpiresAt (attachment r)) now = true) as ->.
  { destruct Hl as [->| ->]; [done|apply orb_true_r]. }
  by destruct r.
Qed.

Lemma expire_keeps_operation now m key p r :
  record_at (byOperation m) m key = Some (p, r) -> lasting (attachment r) now ->
  record_at (byOperation (expireLocked now m)) (expireLocked now m) key = Some (p, r).
Proof. apply expire_keeps. Qed.

Definition answered {A} (x : A) (m : Manager) (r : result PreviewError A) (m' : Manager) : Prop :=
  r = Ok x /\ m' = m.

Ltac retry_start Hheld Hl :=
  destruct Hheld as (p & r & Hr & <- & Hq);
  apply wp_bind, wp_modify; pose proof (expire_keeps_operation _ _ _ _ _ Hr Hl) as Hr';
  apply wp_bind; unfold operation_record; apply wp_bind, wp_get;
  rewrite Hr'; apply wp_ret; cbv beta iota zeta; rewrite Hq; apply wp_bind, wp_ret.

Lemma admit_retry req binding generation accountID now m a :
  held m accountID req a -> lasting a now -> isTerminal (State a) = false ->
  answers a binding generation (State a == StateAdmitted) (State a != StatePending) ->
  wp (admit_section req binding generation accountID now) (answered (inl a) (expireLocked now m)) m.
Proof.
  intros Hh Hl Ht Ha. unfold admit_section. retry_start Hh Hl. destruct Ha as [->|[Hg Ho]]; [done|].
  apply wp_if; intros _; [done|]. rewrite Hg, Ht, Ho. by apply wp_bind, wp_ret, wp_bind, wp_ret, wp_ret.
Qed.

Lemma edge_retry req binding generation now m a :
  held m (Binding.AccountID binding) req a -> lasting a now ->
  answers a binding generation ((State a == StateEdgeReady) && EdgeReady a) (EdgeReady a && negb (isTerminal (State a))) ->
  wp (edge_section req binding generation now) (answered a (expireLocked now m)) m.
Proof.
  intros Hh Hl Ha. unfold edge_section. retry_start Hh Hl. destruct Ha as [->|[Hg Ho]]; [done|].
  apply wp_if; intros _; [done|]. apply andb_true_iff in Ho as [Ho Ht%negb_true_iff]. rewrite Hg, Ht, Ho. by apply wp_bind, wp_ret, wp_bind, wp_ret, wp_ret.
Qed.

Lemma origin_retry req binding generation (originReady : bool) accountID now m a :
  held m accountID req a -> lasting a now ->
  answers a binding generation
    ((State a == (if originReady then StateReady else StateEdgeReady)) && EdgeReady a && Bool.eqb (OriginReady a) originReady)
    (negb (isTerminal (State a)) && negb (negb (EdgeReady a) || ((State a != StateEdgeReady) && (State a != StateReady)))
     && Bool.eqb (OriginReady a) originReady) ->
  wp (origin_section req binding generation originReady accountID now) (answered a (expireLocked now m)) m.
Proof.
  intros Hh Hl Ha. unfold origin_section. retry_start Hh Hl. destruct Ha as [->|[Hg Ho]]; [done|].
  apply wp_if; intros _; [done|]. apply andb_true_iff in Ho as [[Ht He]%andb_true_iff Ho].
  apply negb_true_iff in Ht, He. rewrite Hg, Ht, He, Ho. by apply wp_bind, wp_ret, wp_bind, wp_ret, wp_bind, wp_ret, wp_ret.
Qed.

Lemma find_update operationID m p r f :
  findOperationLocked operationID m = Some (p, r) ->
  Binding.OperationID (Binding (f (attachment r))) = Binding.OperationID (Binding (attachment r)) ->
  findOperationLocked operationID (update_attachment p f m) = Some (p, r <| attachment := f (attachment r) |>).
Proof.
  intros Hf Ho. pose proof (find_record _ _ _ _ Hf) as Hr.
  unfold findOperationLocked in *. change (pointers (update_attachment p f m)) with (pointers m).
  rewrite (List.filter_ext _ (fun q => match records m !! q with
     | Some r => bool_decide (Binding.OperationID (Binding (attachment r)) = operationID) | None => false end)).
  - destruct (List.filter _ _) as [|q [|? ?]]; try done.
    apply bind_Some in Hf as (r' & Hr' & [= <- <-]). by rewrite (update_lookup _ _ _ _ Hr').
  - intros q. unfold update_attachment. cbn. rewrite list_lookup_alter. destruct (decide (p = q)) as [<-|]; [|done].
    rewrite Hr. cbn. by rewrite Ho.
Qed.

(** The proof does not own the record. *)
Definition foreign (proof : MachineProof) (actor : string) (a : Attachment) : bool :=
  (actor != MachineProof.UserID proof) || (Binding.OwnerDeviceID (Binding a) != MachineProof.MachineID proof)
  || (Binding.OperationID (Binding a) != MachineProof.OperationID proof).

(** A record that the handle leads to is the answer of a release. *)
Lemma release_answers proof req binding generation now m p r :
  findOperationLocked (Request.OperationID req) m = Some (p, r) ->
  foreign proof (actorID r) (attachment r) = false ->
  checkRecordRequest (attachment r) req (Binding.AccountID (Binding (attachment r))) = None ->
  already (attachment r) binding generation (State (attachment r) == StateReleased) = true
  \/ checkGenerationAndBinding (attachment r) binding generation = None
     /\ isTerminal (State (attachment r)) = true ->
  wp (release_section proof req binding generation now) (answered (attachment r) m) m.
Proof.
  intros Hf Hown Hq Ha. unfold release_section. apply wp_bind, wp_get. rewrite Hf.
  apply wp_bind, wp_fail_if; intros H1; [unfold foreign in Hown; congruence|].
  apply wp_bind, wp_check; [intros e H2; congruence|intros _].
  apply wp_if; intros H3; [by apply wp_ret|]. destruct Ha as [Ha|[Hg Ht]]; [congruence|].
  apply wp_bind, wp_check; [intros e H2; congruence|intros _].
  apply wp_if; intros H4; [by apply wp_ret|]. apply wp_if; intros H5; [by apply wp_ret|].
  unfold isTerminal in Ht. rewrite H4, H5 in Ht. discriminate Ht.
Qed.

Lemma release_update_facts now a :
  Binding (release_update now a) = Binding a /\ State (release_update now a) = StateReleased
  /\ RequestHash (release_update now a) = RequestHash a
  /\ AttachmentGeneration (release_update now a) = u64_add (AttachmentGeneration a) 1.
Proof. unfold release_update. cbv zeta. by destruct (After _ _). Qed.

Lemma release_again proof req binding generation now now' m :
  wp (release_section proof req binding generation now)
    (fun r m' => forall a, r = Ok a -> wp (release_section proof req binding generation now') (answered a m') m') m.
Proof.
  unfold release_section at 1. apply wp_bind, wp_get.
  destruct (findOperationLocked _ _) as [[p r]|] eqn:Hf; [|by apply wp_throw].
  apply wp_bind, wp_fail_if; [done|intros Hown]. apply wp_bind, wp_check; [done|intros Hq].
  apply wp_if; intros Hal.
  { apply wp_ret. intros a [= <-]. apply (release_answers _ _ _ _ _ _ _ _ Hf Hown Hq). by left. }
  apply wp_bind, wp_check; [done|intros Hg].
  apply wp_if; intros Hs.
  { apply wp_ret. intros a [= <-]. apply (release_answers _ _ _ _ _ _ _ _ Hf Hown Hq). right.
    split; [done|]. unfold isTerminal. rewrite Hs. apply orb_true_r. }
  apply wp_if; intros Hs'.
  { apply wp_ret. intros a [= <-]. apply (release_answers _ _ _ _ _ _ _ _ Hf Hown Hq). right.
    split; [done|]. unfold isTerminal. by rewrite Hs'. }
  destruct (release_update_facts now (attachment r)) as (Hb & Hst & Hh & Hn). revert Hb Hst Hh Hn.
  generalize (release_update now) as f. intros f Hb Hst Hh Hn.
  apply wp_bind, wp_modify. unfold deref. apply wp_bind, wp_get.
  rewrite (update_lookup _ _ _ _ (find_record _ _ _ _ Hf)). apply wp_ret. intros a [= <-].
  refine (release_answers _ _ _ _ _ _ _ _ (find_update _ _ _ _ f Hf _) _ _ _); cbn [attachment actorID set_field].
  - by rewrite Hb.
  - unfold foreign. cbn. rewrite Hb. exact Hown.
  - cbn. rewrite Hb. unfold checkRecordRequest in *. by rewrite Hh.
  - left. cbn. apply binding_checked in Hg as [-> <-]. unfold already.
    rewrite Hn, Hb, Hst, Z.eqb_refl. by rewrite !bool_decide_true.
Qed.

Lemma run_wp {A} (m : L A) Q s : wp m Q s -> Q (fst (m s)) (snd (m s)).
Proof. done. Qed.

(** Repeating a call of the manager whose answer was lost returns the same attachment and
    changes nothing, as long as the attachment has not expired since: admission, edge and origin
    observation, and release. *)
Theorem retry_returns_the_answer req binding generation originReady accountID proof now now' m :
  (forall a m', admitted_section req binding generation accountID now m = (Ok a, m') -> lasting a now' ->
     isTerminal (State a) = false ->
     wp (admit_section req binding generation accountID now') (answered (inl a) (expireLocked now' m')) m')
  /\ (forall a m', edge_section req binding generation now m = (Ok a, m') -> lasting a now' ->
     wp (edge_section req binding generation now') (answered a (expireLocked now' m')) m')
  /\ (forall a m', origin_section req binding generation originReady accountID now m = (Ok a, m') -> lasting a now' ->
     wp (origin_section req binding generation originReady accountID now') (answered a (expireLocked now' m')) m')
  /\ (forall a m', release_section proof req binding generation now m = (Ok a, m') ->
     wp (release_section proof req binding generation now') (answered a m') m').
Proof.
  split; [|split; [|split]]; intros a m' Hrun.
  - intros Hl Ht. pose proof (run_wp _ _ _ (admitted_leaves req binding generation accountID now m)) as Hv.
    rewrite Hrun in Hv. destruct (Hv a eq_refl) as [Hh Ha]. by apply admit_retry.
  - intros Hl. pose proof (run_wp _ _ _ (edge_leaves req binding generation now m)) as Hv.
    rewrite Hrun in Hv. destruct (Hv a eq_refl) as [Hh Ha]. by apply edge_retry.
  - intros Hl. pose proof (run_wp _ _ _ (origin_leaves req binding generation originReady accountID now m)) as Hv.
    rewrite Hrun in Hv. destruct (Hv a eq_refl) as [Hh Ha]. by apply origin_retry.
  - pose proof (run_wp _ _ _ (release_again proof req binding generation now now' m)) as Hv.
    rewrite Hrun in Hv. exact (Hv a eq_refl).
Qed.
End Retry.
