(* ===== verification/PreviewService.v ===== *)
(** * The attachment service

    [Service] of src/internal/previewattachment/service.go with the readiness
    gate of readiness.go and [ServerAuthority] of authority.go.  The service keeps
    no state: it asks the authority, reads the row of the repository, calls the
    edge publisher, and leaves every durable transition to the repository, which
    is the class [AttachmentRepository] (the interface of the same name, with the
    optional methods that the service finds by type assertion).

    Other requests run between the calls of one: a [ServiceCall] holds the clock
    and what they did to the world at each such gap.  [published] is the trace of
    the publisher's calls with their outcome. *)
From S2P Require Import Prelude GoText GoHash GoUrl GoJson GoNet Errors ServerSession PreviewContract PreviewManager.

Class AttachmentRepository (Repo : Type) := {
  Repo_Get : string -> string -> Repo -> PRes Attachment * Repo;
  Repo_CreatePending : Attachment -> Repo -> PRes Attachment * Repo;
  Repo_Admit : Attachment -> time -> Repo -> PRes Attachment * Repo;
  Repo_ObserveEdge : Attachment -> time -> Repo -> PRes Attachment * Repo;
  Repo_ObserveOrigin : Attachment -> bool -> time -> Repo -> PRes Attachment * Repo;
  Repo_Renew : Attachment -> Attachment -> time -> Repo -> PRes Attachment * Repo;
  Repo_Release : Attachment -> time -> Repo -> PRes Attachment * Repo;
  (** [PreparePreviewCarrierAdmission], if the repository has an outbox. *)
  Repo_Prepare : option (Attachment -> time -> Repo -> option PreviewError * Repo);
  (** [Expire], if the repository has one. *)
  Repo_Expire : option (time -> Repo -> option PreviewError * Repo);
}.

(** ** [ServerAuthority] *)
Record LeaseLookupRequest := mkLeaseLookup {
  ll_UserID : string;
  ll_MachineID : string;
  ll_InstallationGeneration : Z;
  ll_PreviewID : string;
  ll_OperationID : string;
  ll_OwnerSessionID : string;
}.
Record PreviewCarrierAllocationRequest := mkAllocationRequest {
  ca_Proof : MachineProof;
  ca_Request : Request;
  ca_Lease : LeaseSnapshot;
  ca_RequestHash : string;
  ca_EdgeNodeID : string;
}.
Record PreviewCarrierAllocation := mkAllocation { al_Carrier : CarrierSnapshot; al_Route : RouteSnapshot }.

Section Authority.
Context {X : Type}.
Context (ResolvePreviewLease : Context -> LeaseLookupRequest -> X -> PRes LeaseSnapshot * X).
Context (AllocatePreviewCarrier : Context -> PreviewCarrierAllocationRequest -> X ->
         PRes PreviewCarrierAllocation * X).

Definition ServerAuthority (ctx : Context) (in_ : ResolveRequest) : M X PreviewError Resolution :=
  let proof := rr_Proof in_ in
  let req := rr_Request in_ in
  fail_if (ctx_nil ctx) ErrInvalid ;;
  check (MachineProof_Validate proof) ;;
  check (Request_Validate req) ;;
  fail_if ((MachineProof.OperationID proof != Request.OperationID req)
           || (MachineProof.OperationID proof != Request.IdempotencyKey req)
           || (MachineProof.MachineID proof != Request.OwnerDeviceID req)) ErrUnauthorized ;;
  lease ← ResolvePreviewLease ctx
    (mkLeaseLookup (MachineProof.UserID proof) (MachineProof.MachineID proof)
       (MachineProof.InstallationGeneration proof) (Request.PreviewID req) (Request.OperationID req)
       (Request.OwnerSessionID req));
  fail_if ((LeaseSnapshot.MachineAccountID lease != MachineProof.UserID proof)
           || (LeaseSnapshot.OwnerDeviceID lease != MachineProof.MachineID proof)
           || (LeaseSnapshot.OwnerSessionID lease != Request.OwnerSessionID req)
           || (LeaseSnapshot.PreviewID lease != Request.PreviewID req)
           || (LeaseSnapshot.OperationID lease != MachineProof.OperationID proof)) ErrUnauthorized ;;
  hash ← lift (Request_Hash req (LeaseSnapshot.AccountID lease));
  allocation ← AllocatePreviewCarrier ctx (mkAllocationRequest proof req lease hash "");
  ret (Resolution.mk lease (al_Carrier allocation) (al_Route allocation)).
End Authority.

(** ** The service *)
Section Service.
Import Attachment.
Context {Repo : Type} `{!AttachmentRepository Repo} {X : Type}.
Context (ResolvePreviewAttachment : Context -> ResolveRequest -> X -> PRes Resolution * X).
Context (PublishPreviewCarrierAdmission :
         Context -> AdmissionRequest -> Repo * X -> PRes AdmissionDelivery * (Repo * X)).
(** Whether a publisher is configured. *)
Context (has_publisher : bool).

Record ServiceWorld := mkServiceWorld {
  repo : Repo;
  sext : X;
  published : list (Attachment * AdmissionRequest * bool);
}.
#[global] Instance ServiceWorld_settable : Settable ServiceWorld := fun w =>
  mkServiceWorld (repo w) (sext w) (published w).

Record ServiceCall := mkServiceCall {
  s_ctx : Context;
  s_now : time;
  s_gap : nat -> ServiceWorld -> ServiceWorld;
}.

Definition SW := M ServiceWorld PreviewError.
Definition gap (c : ServiceCall) (i : nat) : SW unit := modify (s_gap c i).
(** A call of the repository, after the gap before it. *)
Definition repo_call {A} (c : ServiceCall) (i : nat) (f : Repo -> PRes A * Repo) : SW A :=
  gap c i ;;
  ((fun w => let (r, s) := f (repo w) in (r, w <| repo := s |>)) : SW A).

Definition service_authorized (c : ServiceCall) (proof : MachineProof) (req : Request) : SW Resolution :=
  check (validateRequestProof proof req) ;;
  fail_if (ctx_nil (s_ctx c)) ErrInvalid ;;
  resolution ← ((fun w =>
    let (r, x) := ResolvePreviewAttachment (s_ctx c) (mkResolveRequest proof req) (sext w) in
    (r, w <| sext := x |>)) : SW Resolution);
  check (validateResolution (s_now c) resolution) ;;
  check (authorizeResolution proof req resolution) ;;
  ret resolution.

Definition Service_Allocate (c : ServiceCall) (proof : MachineProof) (req : Request) : SW Attachment :=
  resolution ← service_authorized c proof req;
  hash ← lift (Request_Hash req (account_of resolution));
  let pending := attachmentFromResolution req hash resolution (s_now c) in
  current ← repo_call c 0 (Repo_CreatePending pending);
  fail_if (RequestHash current != hash) ErrIdempotencyConflict ;;
  fail_if (isTerminal (State current)) ErrTerminal ;;
  fail_if (negb (logicalBindingEqual (Binding current) (Binding pending))) ErrConflict ;;
  fail_if (AttachmentGeneration current =? 0) ErrConflict ;;
  if carrierBindingEqual (Binding current) (Binding pending) && (ExpiresAt current =? ExpiresAt pending)
  then ret current
  else repo_call c 1 (Repo_Renew current
         (pending <| AttachmentGeneration := AttachmentGeneration current |>) (s_now c)).

Definition service_prepare (c : ServiceCall) (i : nat) (a : Attachment) : SW unit :=
  match Repo_Prepare with
  | None => ret tt
  | Some prepareAdmission =>
      repo_call c i (fun s => let (e, s') := prepareAdmission a (s_now c) s in
                              (match e with Some e => Err e | None => Ok tt end, s'))
  end.

Definition service_publish (c : ServiceCall) (i : nat) (a : Attachment) (admission : AdmissionRequest)
    : SW (PRes AdmissionDelivery) :=
  gap c i ;;
  ((fun w => let '(r, (s, x)) := PublishPreviewCarrierAdmission (s_ctx c) admission (repo w, sext w) in
     (Ok r, w <| repo := s |> <| sext := x |> <| published := (a, admission, is_accepted r) :: published w |>))
   : SW (PRes AdmissionDelivery)).

Definition Service_Admit (c : ServiceCall) (proof : MachineProof) (req : Request) (binding : Binding.Binding)
    (generation : Z) : SW Attachment :=
  resolution ← service_authorized c proof req;
  let currentBinding := bindingFromResolution resolution in
  fail_if (negb (carrierBindingEqual binding currentBinding)) ErrStaleBinding ;;
  current ← repo_call c 0 (Repo_Get (Binding.AccountID currentBinding) (Request.OperationID req));
  check (checkRecordRequest current req (Binding.AccountID (Binding current))) ;;
  fail_if (Binding current != binding) ErrStaleBinding ;;
  if already current binding generation (State current == StateAdmitted) then ret current else
  fail_if (negb (AttachmentGeneration current =? generation)) ErrStaleBinding ;;
  fail_if (isTerminal (State current)) ErrTerminal ;;
  if State current != StatePending then ret current else
  fail_if (negb has_publisher) ErrAdmissionUnavailable ;;
  service_prepare c 1 current ;;
  admission ← lift (Attachment_AdmissionRequest current);
  delivery ← service_publish c 2 current admission;
  fail_if (negb (is_accepted delivery)) ErrAdmissionUnavailable ;;
  repo_call c 3 (Repo_Admit current (s_now c)).

Definition Service_ObserveEdge (c : ServiceCall) (req : Request) (binding : Binding.Binding) (generation : Z)
    : SW Attachment :=
  fail_if (ctx_nil (s_ctx c)) ErrInvalid ;;
  check (Request_Validate req) ;;
  fail_if ((Request.OperationID req != Binding.OperationID binding)
           || (Request.PreviewID req != Binding.PreviewID binding)
           || (Request.OwnerDeviceID req != Binding.OwnerDeviceID binding)
           || (Request.OwnerSessionID req != Binding.OwnerSessionID binding)) ErrUnauthorized ;;
  current ← repo_call c 0 (Repo_Get (Binding.AccountID binding) (Request.OperationID req));
  check (checkRecordRequest current req (Binding.AccountID binding)) ;;
  fail_if (Binding current != binding) ErrStaleBinding ;;
  if negb (AttachmentGeneration current =? generation) then
    if (generation <? AttachmentGeneration current) && EdgeReady current then ret current
    else throw ErrStaleBinding
  else repo_call c 1 (Repo_ObserveEdge current (s_now c)).

Definition Service_ObserveOrigin (c : ServiceCall) (proof : MachineProof) (req : Request)
    (binding : Binding.Binding) (generation : Z) (originReady : bool) : SW Attachment :=
  resolution ← service_authorized c proof req;
  fail_if (negb (carrierBindingEqual binding (bindingFromResolution resolution))) ErrStaleBinding ;;
  current ← repo_call c 0 (Repo_Get (account_of resolution) (Request.OperationID req));
  check (checkRecordRequest current req (Binding.AccountID (Binding current))) ;;
  fail_if (Binding current != binding) ErrStaleBinding ;;
  if negb (AttachmentGeneration current =? generation) then
    let next := AttachmentGeneration current =? u64_add generation 1 in
    let postState := if originReady then StateReady else StateEdgeReady in
    if next && (State current == StateEdgeReady) && EdgeReady current && negb (OriginReady current) then
      if negb originReady then ret current
      else repo_call c 1 (Repo_ObserveOrigin current true (s_now c))
    else if next && (State current == postState) && EdgeReady current
            && Bool.eqb (OriginReady current) originReady then ret current
    else throw ErrStaleBinding
  else repo_call c 1 (Repo_ObserveOrigin current originReady (s_now c)).

Definition Service_Renew (c : ServiceCall) (proof : MachineProof) (req : Request) (generation : Z)
    : SW Attachment :=
  resolution ← service_authorized c proof req;
  current ← repo_call c 0 (Repo_Get (account_of resolution) (Request.OperationID req));
  check (checkRecordRequest current req (Binding.AccountID (Binding current))) ;;
  if (AttachmentGeneration current =? u64_add generation 1)
     && (Binding current == bindingFromResolution resolution) && After (ExpiresAt current) (s_now c)
  then ret current else
  fail_if (negb (AttachmentGeneration current =? generation)) ErrStaleBinding ;;
  fail_if (isTerminal (State current)) ErrTerminal ;;
  let next := attachmentFromResolution req (RequestHash current) resolution (s_now c) in
  repo_call c 1 (Repo_Renew current (next <| AttachmentGeneration := AttachmentGeneration current |>) (s_now c)).

Definition Service_Release (c : ServiceCall) (proof : MachineProof) (req : Request) (handle : Attachment)
    (generation : Z) : SW Attachment :=
  check (validateRequestProof proof req) ;;
  fail_if (ctx_nil (s_ctx c)) ErrInvalid ;;
  let b := Binding handle in
  fail_if ((Binding.OperationID b != Request.OperationID req)
           || (Binding.OwnerDeviceID b != MachineProof.MachineID proof)
           || (Binding.OwnerDeviceID b != Request.OwnerDeviceID req)
           || (Binding.OperationID b != MachineProof.OperationID proof)
           || (Binding.AccountID b == "")) ErrUnauthorized ;;
  check (checkRecordRequest handle req (Binding.AccountID b)) ;;
  current ← repo_call c 0 (Repo_Get (Binding.AccountID b) (Request.OperationID req));
  fail_if (Binding current != b) ErrStaleBinding ;;
  if (AttachmentGeneration current =? u64_add generation 1) && (State current == StateReleased)
  then ret current else
  fail_if (negb (AttachmentGeneration current =? generation)) ErrStaleBinding ;;
  repo_call c 1 (Repo_Release current (s_now c)).

Definition Service_Get (c : ServiceCall) (accountID operationID : string) : SW Attachment :=
  fail_if (ctx_nil (s_ctx c)) ErrInvalid ;;
  repo_call c 0 (Repo_Get accountID operationID).

Definition Service_Expire (c : ServiceCall) : SW unit :=
  fail_if (ctx_nil (s_ctx c)) ErrInvalid ;;
  match Repo_Expire with
  | None => throw ErrInvalid
  | Some expire => repo_call c 0 (fun s => let (e, s') := expire (s_now c) s in
                                          (match e with Some e => Err e | None => Ok tt end, s'))
  end.

(** The gate of the preview's own readiness. *)
Definition RequirePreviewAttachmentReady (c : ServiceCall)
    (accountID previewID operationID ownerDeviceID ownerSessionID : string) : SW unit :=
  fail_if (ctx_nil (s_ctx c)) ErrAdmissionUnavailable ;;
  fail_if (negb (forallb validID [accountID; previewID; operationID; ownerDeviceID; ownerSessionID]))
    ErrUnauthorized ;;
  a ← repo_call c 0 (Repo_Get accountID operationID);
  let b := Binding a in
  fail_if ((Binding.AccountID b != accountID) || (Binding.PreviewID b != previewID)
           || (Binding.OperationID b != operationID) || (Binding.OwnerDeviceID b != ownerDeviceID)
           || (Binding.OwnerSessionID b != ownerSessionID)) ErrUnauthorized ;;
  fail_if ((State a != StateReady) || negb (EdgeReady a) || negb (OriginReady a) || negb (is_some (ReadyAt a))
           || is_some (ReleasedAt a) || negb (After (ExpiresAt a) (s_now c))) ErrAdmissionUnavailable.
End Service.
