(* ===== verification/PreviewSql.v ===== *)
(** * The SQL repository of attachments and its outbox

    [SQLRepository] of src/internal/previewattachment/sql_store.go and outbox.go,
    over the tables that its statements read and write, each statement as a
    function on the tables.  A transaction is atomic and serializable ([InTx] of
    src/internal/db/db.go), and is run again after a serialization failure.

    What the database adds on its own (check constraints, triggers, foreign keys,
    a lost connection) is the outcome of the transaction, which a [Reading] holds
    for each attempt together with the clocks and with what other transactions
    did between attempts.  [timestamptz] is the precision at which the database
    keeps a time.  A binding in the outbox is kept as a value, not as JSON text.
    [acks] is the trace of the admissions that edges acknowledged. *)
From S2P Require Import Prelude GoText GoHash GoUrl GoJson GoNet Errors ServerSession PreviewContract PreviewManager.
From S2P Require Import PreviewService.

(** ** Tables *)
Record LeaseRow := mkLeaseRow {
  lr_endpoint : string;
  lr_target : Target;
  lr_accessMode : string;
  lr_active : bool;       (** [terminal_state = 'active'] *)
  lr_deadline : time;
}.
Record NodeRow := mkNodeRow {
  nd_processEpoch : string;
  nd_state : string;
  nd_ready : bool;
  nd_lastHeartbeat : option time;
  nd_drainDeadline : option time;
}.
Record OutboxRow := mkOutboxRow {
  ob_binding : Binding;
  ob_configHash : string;
  ob_endpoints : list string;
  ob_endpoint : string;
  ob_accessMode : string;
  ob_expiresAt : time;
  ob_state : string;
  ob_attempts : Z;
  ob_nextAttempt : time;
  ob_createdAt : time;
  ob_updatedAt : time;
}.
#[export] Instance OutboxRow_settable : Settable OutboxRow := fun o =>
  mkOutboxRow (ob_binding o) (ob_configHash o) (ob_endpoints o) (ob_endpoint o) (ob_accessMode o) (ob_expiresAt o)
    (ob_state o) (ob_attempts o) (ob_nextAttempt o) (ob_createdAt o) (ob_updatedAt o).

(** An acknowledged admission: the edge node and its process, and the binding of
    the command. *)
Record Ack := mkAck { ack_node : string; ack_epoch : string; ack_binding : Binding }.

Abbreviation row_key := (string * string)%type.
Abbreviation outbox_key := (string * string * Z * string)%type.

Record Database := mkDatabase {
  attachments : gmap row_key Attachment;
  leases : gmap row_key LeaseRow;
  outbox : gmap outbox_key OutboxRow;
  nodes : gmap string NodeRow;
  acks : list Ack;
}.
#[export] Instance Database_settable : Settable Database := fun d =>
  mkDatabase (attachments d) (leases d) (outbox d) (nodes d) (acks d).

(** ** Transactions *)
Inductive outcome := Commits | Refuses (e : PreviewError) | Conflicts.

Record Reading := mkReading {
  t_clock : time;                          (** the repository's clock *)
  t_dbNow : time;                          (** [now()] of the database *)
  t_outcome : nat -> outcome;              (** by attempt *)
  t_between : nat -> Database -> Database; (** others, before the next attempt *)
}.

Definition serialization_failure : PreviewError := Other (OtherError "could not serialize access").

(** The loop of [InTx]: [c] is what the closure keeps outside the transaction. *)
Fixpoint in_tx_loop {C A} (retries : nat) (t : Reading) (attempt : nat)
    (body : C -> Database -> PRes A * C * Database) (c : C) (d : Database) : PRes A * C * Database :=
  match body c d with
  | (Err e, c', _) => (Err e, c', d)
  | (Ok a, c', d') =>
      match t_outcome t attempt with
      | Commits => (Ok a, c', d')
      | Refuses e => (Err e, c', d)
      | Conflicts =>
          match retries with
          | O => (Err serialization_failure, c', d)
          | S retries' => in_tx_loop retries' t (S attempt) body c' (t_between t attempt d)
          end
      end
  end.
Definition maxAttempts : nat := 10.

(** A transaction whose closure keeps nothing outside. *)
Definition T := M Database PreviewError.
Definition in_tx {A} (t : Reading) (m : T A) (d : Database) : PRes A * Database :=
  let '(r, _, d') := in_tx_loop (maxAttempts - 1) t 1
    (fun _ d => let (r, d') := m d in (r, tt, d')) tt d in (r, d').

(** A statement outside a transaction. *)
Definition exec {A} (t : Reading) (m : T A) (d : Database) : PRes A * Database :=
  match t_outcome t 1 with
  | Commits => m d
  | Refuses e => (Err e, d)
  | Conflicts => (Err serialization_failure, d)
  end.

(** ** Statements *)
Section Statements.
Import Attachment.
Context (timestamptz : time -> time).

Definition key_of_binding (b : Binding.Binding) : row_key := (Binding.AccountID b, Binding.OperationID b).

(** [selectAttachmentSQL]: the row joined with its lease. *)
Definition select_attachment (accountID operationID : string) (d : Database) : option Attachment :=
  a ← attachments d !! (accountID, operationID);
  l ← leases d !! (accountID, Binding.PreviewID (Binding a));
  Some (a <| Endpoint := lr_endpoint l |> <| Target := lr_target l |> <| AccessMode := lr_accessMode l |>).

Definition bad_generations (a : Attachment) : bool :=
  (Binding.LeaseGeneration (Binding a) <=? 0) || (Binding.ProcessGeneration (Binding a) <=? 0)
  || (Binding.ConfigGeneration (Binding a) <=? 0) || (Binding.RouteGeneration (Binding a) <=? 0)
  || (AttachmentGeneration a <=? 0).

Definition scanAttachment (accountID operationID : string) : T Attachment :=
  d ← get;
  match select_attachment accountID operationID d with
  | None => throw ErrNoRows
  | Some a =>
      fail_if (bad_generations a) ErrConflict ;;
      check (Attachment_Validate a 0) ;; ret a
  end.

(** An error other than a missing row is passed on. *)
Definition on_no_rows {A} (e : PreviewError) (m : T A) : T A :=
  fun d => match m d with (Err ErrNoRows, d') => (Err e, d') | r => r end.

(** The unique indexes: the primary key, one live row per preview, one row per
    idempotency key. *)
Definition conflicts (a : Attachment) (d : Database) : bool :=
  is_some (attachments d !! key_of_binding (Binding a))
  || existsb (fun '(_, r) => (Binding.AccountID (Binding r) == Binding.AccountID (Binding a))
       && (((Binding.PreviewID (Binding r) == Binding.PreviewID (Binding a)) && negb (isTerminal (State r)))
           || (IdempotencyKey r == IdempotencyKey a))) (map_to_list (attachments d)).

(** [insertAttachmentSQL]; the result is whether a row was inserted. *)
Definition insert_attachment (a : Attachment) (hash : list Z) : T bool :=
  d ← get;
  if conflicts a d then ret false
  else put (d <| attachments := <[key_of_binding (Binding a) :=
         a <| RequestHash := hex_EncodeToString hash |> <| AttachmentGeneration := 1 |>
           <| State := StatePending |> <| EdgeReady := false |> <| OriginReady := false |>
           <| IssuedAt := timestamptz (IssuedAt a) |> <| ExpiresAt := timestamptz (ExpiresAt a) |>
           <| ReadyAt := None |> <| ReleasedAt := None |>]> (attachments d) |>) ;; ret true.

(** [prepareAdmissionOutboxSQL] and [enqueueDetachOutboxSQL]. *)
Definition outbox_insert (key : outbox_key) (row : OutboxRow) : T unit :=
  modify (fun d => match outbox d !! key with
                   | Some _ => d
                   | None => d <| outbox := <[key := row]> (outbox d) |>
                   end).
Definition outbox_row (t : Reading) (a : Attachment) (expiresAt now : time) : OutboxRow :=
  mkOutboxRow (Binding a) (ConfigContentHash a) (EdgeEndpoints a) (Endpoint a) (AccessMode a)
    (timestamptz expiresAt) "pending" 0 (t_dbNow t) (timestamptz now) (timestamptz now).
Definition prepareAdmissionTx (t : Reading) (a : Attachment) (now : time) : T unit :=
  outbox_insert (Binding.AccountID (Binding a), Binding.OperationID (Binding a), AttachmentGeneration a, "admit")
    (outbox_row t a (ExpiresAt a) now).
Definition enqueueDetachTx (t : Reading) (a : Attachment) (now : time) : T unit :=
  outbox_insert (Binding.AccountID (Binding a), Binding.OperationID (Binding a),
                 u64_add (AttachmentGeneration a) 1, "detach")
    (outbox_row t a now now).

(** An update of the row that a handle names, if the row is the handle's and the
    rest of the condition holds.  The generation is a [bigint]. *)
Definition same_handle (a row : Attachment) : bool :=
  (AttachmentGeneration row =? AttachmentGeneration a) && carrierBindingEqual (Binding row) (Binding a).
Definition advanced (row : Attachment) : Attachment :=
  row <| AttachmentGeneration := AttachmentGeneration row + 1 |>.
Definition out_of_range : PreviewError := Other (OtherError "bigint out of range").

Definition update_row (a : Attachment) (cond : Attachment -> bool) (set : Attachment -> Attachment) : T bool :=
  d ← get;
  match attachments d !! key_of_binding (Binding a) with
  | Some row =>
      if same_handle a row && cond row then
        fail_if (max_int64 <=? AttachmentGeneration row) out_of_range ;;
        put (d <| attachments := <[key_of_binding (Binding a) := advanced (set row)]> (attachments d) |>) ;;
        ret true
      else ret false
  | None => ret false
  end.

Definition unexpired (now : time) (row : Attachment) : bool := After (ExpiresAt row) (timestamptz now).

(** [admitAttachmentSQL] *)
Definition sql_admit (a : Attachment) (now : time) : T bool :=
  update_row a (fun row => (State row == StatePending) && unexpired now row)
    (fun row => row <| State := StateAdmitted |> <| EdgeReady := false |> <| ReadyAt := None |>).

(** [observeEdgeAttachmentSQL] *)
Definition sql_observe_edge (a : Attachment) (now : time) : T bool :=
  update_row a (fun row => (State row == StateAdmitted) && unexpired now row)
    (fun row => row <| EdgeReady := true |> <| OriginReady := false |> <| State := StateEdgeReady |>
                    <| ReadyAt := None |>).

(** [observeOriginAttachmentSQL] *)
Definition sql_observe_origin (a : Attachment) (originReady : bool) (now : time) : T bool :=
  update_row a
    (fun row => ((State row == StateEdgeReady) || (State row == StateReady)) && EdgeReady row && unexpired now row)
    (fun row => row <| OriginReady := originReady |>
                    <| State := if originReady then StateReady else StateEdgeReady |>
                    <| ReadyAt := if originReady then Some (timestamptz now) else None |>).

(** [renewAttachmentSQL]: the same carrier keeps its readiness. *)
Definition same_carrier (row next : Attachment) : bool :=
  let b := Binding row in
  let n := Binding next in
  (Binding.SessionID b == Binding.SessionID n) && (Binding.ProcessGeneration b =? Binding.ProcessGeneration n)
  && (Binding.ConfigGeneration b =? Binding.ConfigGeneration n)
  && (ConfigContentHash row == ConfigContentHash next) && (Binding.EdgeNodeID b == Binding.EdgeNodeID n)
  && (Binding.EdgeProcessEpoch b == Binding.EdgeProcessEpoch n)
  && (Binding.EdgeCarrierServerSPKISHA256 b == Binding.EdgeCarrierServerSPKISHA256 n)
  && (Binding.EdgeCarrierServerCertificateChainPEM b == Binding.EdgeCarrierServerCertificateChainPEM n)
  && (Binding.MachineIdentityPublicKey b == Binding.MachineIdentityPublicKey n)
  && (Binding.MachineIdentityThumbprint b == Binding.MachineIdentityThumbprint n).
Definition renewed_binding (b n : Binding.Binding) : Binding.Binding :=
  Binding.mk (Binding.AccountID b) (Binding.PreviewID b) (Binding.OperationID b) (Binding.OwnerDeviceID b)
    (Binding.OwnerSessionID b) (Binding.HostID b) (Binding.LeaseGeneration n) (Binding.TunnelID b)
    (Binding.ConnectorID b) (Binding.SessionID n) (Binding.ProcessGeneration n) (Binding.ConfigGeneration n)
    (Binding.RouteID b) (Binding.RouteGeneration b) (Binding.EdgeNodeID n) (Binding.EdgeProcessEpoch n)
    (Binding.EdgeCarrierServerSPKISHA256 n) (Binding.EdgeCarrierServerCertificateChainPEM n)
    (Binding.MachineIdentityPublicKey n) (Binding.MachineIdentityThumbprint n).
Definition renew_row (next row : Attachment) : Attachment :=
  let keep := same_carrier row next in
  row <| Binding := renewed_binding (Binding row) (Binding next) |>
      <| ConfigContentHash := ConfigContentHash next |> <| EdgeEndpoints := EdgeEndpoints next |>
      <| EdgeReady := if keep then EdgeReady row else false |>
      <| OriginReady := if keep then OriginReady row else false |>
      <| State := if keep then State row else StatePending |>
      <| ReadyAt := if keep then ReadyAt row else None |>
      <| ExpiresAt := timestamptz (ExpiresAt next) |>.
Definition sql_renew (a next : Attachment) (now : time) : T bool :=
  update_row a (fun row => negb (isTerminal (State row)) && unexpired now row) (renew_row next).

(** [releaseAttachmentSQL] *)
Definition sql_release (a : Attachment) (now : time) : T bool :=
  update_row a (fun row => negb (isTerminal (State row)))
    (fun row => row <| State := StateReleased |> <| EdgeReady := false |> <| OriginReady := false |>
                    <| ReadyAt := None |> <| ReleasedAt := Some (timestamptz now) |>
                    <| ExpiresAt := timestamptz now |>).

(** [expireAttachmentSQL]: the rows that ran out, and their detach commands. *)
Definition ran_out (now : time) (row : Attachment) : bool :=
  negb (isTerminal (State row)) && (ExpiresAt row <=? timestamptz now).
Definition expire_row (now : time) (row : Attachment) : Attachment :=
  if ran_out now row
  then advanced (row <| State := StateFailed |> <| EdgeReady := false |> <| OriginReady := false |>
                            <| ReadyAt := None |>)
  else row.
(** The statement writes the owner's device as the host. *)
Definition detach_binding (b : Binding.Binding) : Binding.Binding :=
  Binding.mk (Binding.AccountID b) (Binding.PreviewID b) (Binding.OperationID b) (Binding.OwnerDeviceID b)
    (Binding.OwnerSessionID b) (Binding.OwnerDeviceID b) (Binding.LeaseGeneration b) (Binding.TunnelID b)
    (Binding.ConnectorID b) (Binding.SessionID b) (Binding.ProcessGeneration b) (Binding.ConfigGeneration b)
    (Binding.RouteID b) (Binding.RouteGeneration b) (Binding.EdgeNodeID b) (Binding.EdgeProcessEpoch b)
    (Binding.EdgeCarrierServerSPKISHA256 b) (Binding.EdgeCarrierServerCertificateChainPEM b)
    (Binding.MachineIdentityPublicKey b) (Binding.MachineIdentityThumbprint b).
Definition detach_of (t : Reading) (now : time) (d : Database) (entry : row_key * Attachment)
    : option (outbox_key * OutboxRow) :=
  let row := snd entry in
  if ran_out now row then
    l ← leases d !! (Binding.AccountID (Binding row), Binding.PreviewID (Binding row));
    Some ((Binding.AccountID (Binding row), Binding.OperationID (Binding row), AttachmentGeneration row + 1, "detach"),
          mkOutboxRow (detach_binding (Binding row)) (ConfigContentHash row) (EdgeEndpoints row) (lr_endpoint l) (lr_accessMode l)
            (lr_deadline l) "pending" 0 (t_dbNow t) (timestamptz now) (timestamptz now))
  else None.
Definition sql_expire (t : Reading) (now : time) : T unit :=
  d ← get;
  fail_if (existsb (fun '(_, row) => ran_out now row && (max_int64 <=? AttachmentGeneration row))
             (map_to_list (attachments d))) out_of_range ;;
  put (d <| attachments := expire_row now <$> attachments d |>
         <| outbox := outbox d ∪ list_to_map (omap (detach_of t now d) (map_to_list (attachments d))) |>).
End Statements.

(** ** The repository *)
Record SQLRepository := mkSQLRepository {
  sql_db : Database;
  sql_readings : nat -> Reading;  (** what the calls meet, in their order *)
  sql_calls : nat;
}.
#[export] Instance SQLRepository_settable : Settable SQLRepository := fun s =>
  mkSQLRepository (sql_db s) (sql_readings s) (sql_calls s).

Section Repository.
Import Attachment.
Context (timestamptz : time -> time).

(** A call of the repository meets the next reading. *)
Definition with_reading {A} (f : Reading -> Database -> PRes A * Database) (s : SQLRepository)
    : PRes A * SQLRepository :=
  let (r, d) := f (sql_readings s (sql_calls s)) (sql_db s) in
  (r, s <| sql_db := d |> <| sql_calls := S (sql_calls s) |>).

Definition or_clock (t : Reading) (now : time) : time := if IsZero now then t_clock t else now.

Definition validateRepositoryAttachment (a : Attachment) : option PreviewError :=
  if isTerminal (State a) then Some ErrTerminal else Attachment_Validate a 0.

Definition sql_Get (accountID operationID : string) : SQLRepository -> PRes Attachment * SQLRepository :=
  with_reading (fun t =>
    if negb (validID accountID) || negb (validID operationID) then fun d => (Err ErrInvalid, d)
    else exec t (on_no_rows ErrNotFound (scanAttachment accountID operationID))).

(** After an insert, and after an update that changed a row: read it back, and
    record the command for the edge if it is pending. *)
Definition read_back (t : Reading) (a : Attachment) (now : time) : T Attachment :=
  result ← scanAttachment (Binding.AccountID (Binding a)) (Binding.OperationID (Binding a));
  (if State result == StatePending then prepareAdmissionTx timestamptz t result now else ret tt) ;;
  ret result.

Definition create_body (t : Reading) (a : Attachment) (hash : list Z) : T Attachment :=
  inserted ← insert_attachment timestamptz a hash;
  if negb inserted then
    existing ← on_no_rows ErrConflict
      (scanAttachment (Binding.AccountID (Binding a)) (Binding.OperationID (Binding a)));
    fail_if (RequestHash existing != RequestHash a) ErrIdempotencyConflict ;;
    (if State existing == StatePending then prepareAdmissionTx timestamptz t existing (t_clock t) else ret tt) ;;
    ret existing
  else read_back t a (t_clock t).

Definition sql_CreatePending (a : Attachment) : SQLRepository -> PRes Attachment * SQLRepository :=
  with_reading (fun t d =>
    if (State a != StatePending) || negb (AttachmentGeneration a =? 1) || EdgeReady a || OriginReady a
    then (Err ErrInvalid, d) else
    match Attachment_Validate a 0 with
    | Some e => (Err e, d)
    | None =>
        match hex_DecodeString (RequestHash a) with
        | None => (Err ErrInvalid, d)
        | Some hash =>
            if negb (Z.of_nat (length hash) =? 32) then (Err ErrInvalid, d)
            else in_tx t (create_body t a hash) d
        end
    end).

Definition sql_Prepare (a : Attachment) (now : time) (s : SQLRepository) : option PreviewError * SQLRepository :=
  let (r, s') := with_reading (fun t d =>
    if State a != StatePending then (Err ErrConflict, d) else
    match Attachment_Validate a 0 with
    | Some e => (Err e, d)
    | None => in_tx t (prepareAdmissionTx timestamptz t a (or_clock t now)) d
    end) s in
  (match r with Err e => Some e | Ok _ => None end, s').

(** The common shape of the transitions: update the row of the handle and read it
    back, or recognise that an earlier attempt did so. *)
Definition transition (a : Attachment) (changed : T bool) (already_done : Attachment -> bool) (after : T unit)
    : T Attachment :=
  let select := scanAttachment (Binding.AccountID (Binding a)) (Binding.OperationID (Binding a)) in
  updated ← changed;
  if negb updated then
    current ← on_no_rows ErrNotFound select;
    if already_done current then ret current else throw ErrStaleBinding
  else after ;; select.

Definition followed (a current : Attachment) : bool :=
  (AttachmentGeneration current =? u64_add (AttachmentGeneration a) 1) && (Binding current == Binding a).
Definition unmoved (a current : Attachment) : bool :=
  (AttachmentGeneration current =? AttachmentGeneration a) && (Binding current == Binding a).

Definition mutation (a : Attachment) (body : Reading -> T Attachment)
    : SQLRepository -> PRes Attachment * SQLRepository :=
  with_reading (fun t d =>
    match validateRepositoryAttachment a with
    | Some e => (Err e, d)
    | None => in_tx t (body t) d
    end).

Definition sql_Admit (a : Attachment) (now : time) : SQLRepository -> PRes Attachment * SQLRepository :=
  mutation a (fun t =>
    transition a (sql_admit timestamptz a (or_clock t now))
      (fun current => followed a current && (State current == StateAdmitted)) (ret tt)).

Definition sql_ObserveEdge (a : Attachment) (now : time) : SQLRepository -> PRes Attachment * SQLRepository :=
  mutation a (fun t =>
    transition a (sql_observe_edge timestamptz a (or_clock t now))
      (fun current =>
         (followed a current && (State current == StateEdgeReady) && EdgeReady current && negb (OriginReady current))
         || (unmoved a current && EdgeReady current)) (ret tt)).

Definition sql_ObserveOrigin (a : Attachment) (originReady : bool) (now : time)
    : SQLRepository -> PRes Attachment * SQLRepository :=
  mutation a (fun t =>
    transition a (sql_observe_origin timestamptz a originReady (or_clock t now))
      (fun current =>
         (followed a current && (State current == (if originReady then StateReady else StateEdgeReady))
          && EdgeReady current && Bool.eqb (OriginReady current) originReady)
         || (unmoved a current && EdgeReady current && Bool.eqb (OriginReady current) originReady)) (ret tt)).

Definition renew_conflict (current next : Attachment) : bool :=
  let b := Binding current in
  let n := Binding next in
  negb (logicalBindingEqual b n) || (Binding.OperationID b != Binding.OperationID n)
  || (Binding.AccountID b != Binding.AccountID n) || (RequestHash current != RequestHash next)
  || IsZero (ExpiresAt next) || negb (Binding.RouteGeneration n =? Binding.RouteGeneration b)
  || (Binding.LeaseGeneration n <? Binding.LeaseGeneration b)
  || (Binding.ProcessGeneration n <? Binding.ProcessGeneration b)
  || (Binding.ConfigGeneration n <? Binding.ConfigGeneration b)
  || ((Binding.ConfigGeneration n =? Binding.ConfigGeneration b)
      && (ConfigContentHash next != ConfigContentHash current))
  || ((Binding.SessionID n != Binding.SessionID b)
      && (Binding.ProcessGeneration n <=? Binding.ProcessGeneration b))
  || ((Binding.SessionID n == Binding.SessionID b)
      && negb (Binding.ProcessGeneration n =? Binding.ProcessGeneration b)).

Definition renew_body (t : Reading) (current next : Attachment) (now : time) : T Attachment :=
  updated ← sql_renew timestamptz current next now;
  if negb updated then
    persisted ← on_no_rows ErrNotFound
      (scanAttachment (Binding.AccountID (Binding current)) (Binding.OperationID (Binding current)));
    if (AttachmentGeneration persisted =? u64_add (AttachmentGeneration current) 1)
       && (Binding persisted == Binding next) && (ExpiresAt persisted =? ExpiresAt next)
    then ret persisted else throw ErrStaleBinding
  else read_back t current now.

Definition sql_Renew (current next : Attachment) (now : time) : SQLRepository -> PRes Attachment * SQLRepository :=
  with_reading (fun t d =>
    match validateRepositoryAttachment current with
    | Some e => (Err e, d)
    | None =>
    match validateRepositoryAttachment next with
    | Some e => (Err e, d)
    | None =>
        if renew_conflict current next then (Err ErrConflict, d) else
        let now := or_clock t now in
        if negb (After (ExpiresAt next) now) then (Err ErrExpired, d)
        else in_tx t (renew_body t current next now) d
    end end).

Definition sql_Release (a : Attachment) (now : time) : SQLRepository -> PRes Attachment * SQLRepository :=
  with_reading (fun t d =>
    match (if isTerminal (State a) then Attachment_Validate a 0 else validateRepositoryAttachment a) with
    | Some e => (Err e, d)
    | None =>
        let now := or_clock t now in
        in_tx t (transition a (sql_release timestamptz a now)
          (fun current =>
             ((State current == StateReleased) && followed a current)
             || ((State current == StateReleased) && unmoved a current)
             || ((State current == StateFailed) && unmoved a current))
          (enqueueDetachTx timestamptz t a now)) d
    end).

Definition sql_Expire (now : time) (s : SQLRepository) : option PreviewError * SQLRepository :=
  let (r, s') := with_reading (fun t => exec t (sql_expire timestamptz t (or_clock t now))) s in
  (match r with Err e => Some e | Ok _ => None end, s').

#[export] Instance sql_repository : AttachmentRepository SQLRepository := {
  Repo_Get := sql_Get;
  Repo_CreatePending := sql_CreatePending;
  Repo_Admit := sql_Admit;
  Repo_ObserveEdge := sql_ObserveEdge;
  Repo_ObserveOrigin := sql_ObserveOrigin;
  Repo_Renew := sql_Renew;
  Repo_Release := sql_Release;
  Repo_Prepare := Some sql_Prepare;
  Repo_Expire := Some sql_Expire;
}.
End Repository.

(** ** The outbox *)
Module PreviewCarrierOutboxItem.
Record PreviewCarrierOutboxItem := mk {
  AccountID : string;
  OperationID : string;
  AttachmentGeneration : Z;
  Action : string;
  Binding : Binding;
  AccessMode : string;
  ConfigContentHash : string;
  EdgeEndpoints : list string;
  Endpoint : string;
  ExpiresAt : time;
  State : string;
  Attempts : Z;
  NextAttemptAt : time;
}.
#[export] Instance settable : Settable PreviewCarrierOutboxItem := fun i =>
  mk (AccountID i) (OperationID i) (AttachmentGeneration i) (Action i) (Binding i) (AccessMode i)
    (ConfigContentHash i) (EdgeEndpoints i) (Endpoint i) (ExpiresAt i) (State i) (Attempts i) (NextAttemptAt i).
End PreviewCarrierOutboxItem.
#[export] Existing Instance PreviewCarrierOutboxItem.settable.
Abbreviation PreviewCarrierOutboxItem := PreviewCarrierOutboxItem.PreviewCarrierOutboxItem.

Section OutboxItem.
Import PreviewCarrierOutboxItem.
Definition OutboxItem_validate (i : PreviewCarrierOutboxItem.PreviewCarrierOutboxItem) (now : time) (nodeID processEpoch : string)
    : option PreviewError :=
  first_error
    [if negb (validID (AccountID i)) || negb (validID (OperationID i)) || (AttachmentGeneration i =? 0)
        || ((Action i != "admit") && (Action i != "detach")) then Some ErrInvalid else None;
     (if (Binding.AccountID (Binding i) != AccountID i) || (Binding.OperationID (Binding i) != OperationID i)
         || (Binding.EdgeNodeID (Binding i) != nodeID) then Some ErrUnauthorized else None);
     (if negb (ok (ValidateOpaqueEpoch processEpoch)) || (Binding.EdgeProcessEpoch (Binding i) != processEpoch)
      then Some ErrUnauthorized else None);
     Binding_validate (Binding i);
     validateAccessModeAndRoute (AccessMode i) "";
     (if negb (validContentHash (ConfigContentHash i)) then Some ErrInvalid else None);
     validateEdgeEndpoints (EdgeEndpoints i);
     validateEndpoint (Endpoint i);
     (if IsZero (ExpiresAt i) then Some ErrInvalid else None);
     (if (Action i == "admit") && negb (IsZero now) && negb (After (ExpiresAt i) now) then Some ErrExpired else None)].
End OutboxItem.

Definition maxPreviewCarrierAdmissions : Z := 4096.

Section Outbox.
Import Attachment.
Context (timestamptz : time -> time).

(** [previewEdgeProcessEpochForUpdateSQL] and its check. *)
Definition node_available (now : time) (n : NodeRow) : bool :=
  (((nd_state n == "ready") && nd_ready n) || (nd_state n == "draining"))
  && match nd_lastHeartbeat n with Some h => After h (timestamptz now - 2 * Minute) | None => true end
  && match nd_drainDeadline n with Some l => After l (timestamptz now) | None => true end.
Definition assertPreviewEdgeProcessEpochTx (nodeID processEpoch : string) (now : time) : T unit :=
  d ← get;
  match nodes d !! nodeID with
  | None => throw ErrUnauthorized
  | Some n => fail_if ((nd_processEpoch n != processEpoch) || negb (node_available now n)) ErrUnauthorized
  end.

(** The condition that scopes a command to an edge process. *)
Definition scoped (nodeID processEpoch : string) (o : OutboxRow) : bool :=
  (Binding.EdgeNodeID (ob_binding o) == nodeID) && (Binding.EdgeProcessEpoch (ob_binding o) == processEpoch).

(** [acknowledgePreviewCarrierOutboxSQL] *)
Definition sql_acknowledge (nodeID processEpoch : string) (key : outbox_key) (now : time) : T bool :=
  d ← get;
  match outbox d !! key with
  | Some o =>
      if scoped nodeID processEpoch o && (ob_state o != "delivered") then
        put (d <| outbox := <[key := o <| ob_state := "delivered" |> <| ob_updatedAt := timestamptz now |>]> (outbox d) |>
               <| acks := if snd key == "admit" then mkAck nodeID processEpoch (ob_binding o) :: acks d else acks d |>) ;;
        ret true
      else ret false
  | None => ret false
  end.
(** [deliveredPreviewCarrierOutboxSQL] *)
Definition sql_delivered (nodeID processEpoch : string) (key : outbox_key) : T bool :=
  d ← get;
  ret match outbox d !! key with
      | Some o => scoped nodeID processEpoch o && (ob_state o == "delivered")
      | None => false
      end.

Definition markPreviewCarrierOutboxDeliveredTx (nodeID processEpoch : string) (key : outbox_key) (now : time)
    : T unit :=
  changed ← sql_acknowledge nodeID processEpoch key now;
  if (changed : bool) then ret tt else
  delivered ← sql_delivered nodeID processEpoch key;
  if (delivered : bool) then ret tt else throw ErrNotFound.

Definition admit_item (key : outbox_key) (o : OutboxRow) : PreviewCarrierOutboxItem :=
  let '(accountID, operationID, generation, action) := key in
  PreviewCarrierOutboxItem.mk accountID operationID generation action (ob_binding o) (ob_accessMode o)
    (ob_configHash o) (ob_endpoints o) (ob_endpoint o) (ob_expiresAt o) (ob_state o) 0 0.

Definition acknowledgeAdmissionTx (nodeID processEpoch accountID operationID : string) (generation : Z)
    (now : time) : T unit :=
  let key := (accountID, operationID, generation, "admit") in
  d ← get;
  match outbox d !! key with
  | Some o =>
      if negb (scoped nodeID processEpoch o) then throw ErrNotFound else
      if ob_state o == "delivered" then ret tt else
      check (OutboxItem_validate (admit_item key o) now nodeID processEpoch) ;;
      current ← on_no_rows ErrNotFound (scanAttachment accountID operationID);
      fail_if (Binding current != ob_binding o) ErrStaleBinding ;;
      if (u64_add generation 1 <=? AttachmentGeneration current)
         && ((State current == StateAdmitted) || (State current == StateEdgeReady) || (State current == StateReady))
      then markPreviewCarrierOutboxDeliveredTx nodeID processEpoch key now
      else
        fail_if ((State current != StatePending) || negb (AttachmentGeneration current =? generation)) ErrStaleBinding ;;
        changed ← sql_admit timestamptz current now;
        fail_if (negb changed) ErrStaleBinding ;;
        markPreviewCarrierOutboxDeliveredTx nodeID processEpoch key now
  | None => throw ErrNotFound
  end.

Definition acknowledge_tx (nodeID processEpoch accountID operationID : string) (generation : Z) (action : string)
    (now : time) : T unit :=
  assertPreviewEdgeProcessEpochTx nodeID processEpoch now ;;
  if action == "admit"
  then acknowledgeAdmissionTx nodeID processEpoch accountID operationID generation now
  else markPreviewCarrierOutboxDeliveredTx nodeID processEpoch (accountID, operationID, generation, action) now.

Definition AcknowledgePreviewCarrierOutbox (nodeID processEpoch accountID operationID : string) (generation : Z)
    (action : string) (s : SQLRepository) : option PreviewError * SQLRepository :=
  let (r, s') := with_reading (fun t d =>
    if negb (validID nodeID) || negb (ok (ValidateOpaqueEpoch processEpoch)) || negb (validID accountID)
       || negb (validID operationID) || (generation =? 0) || ((action != "admit") && (action != "detach"))
    then (Err ErrInvalid, d) else
    in_tx t (acknowledge_tx nodeID processEpoch accountID operationID generation action (t_clock t)) d) s in
  (match r with Err e => Some e | Ok _ => None end, s').

(** *** Pulls

    [ORDER BY] compares texts in the database's collation, [text_compare]. *)
Context (text_compare : string -> string -> comparison).

Definition then_compare (c d : comparison) : comparison := match c with Eq => d | _ => c end.
Fixpoint insert_by {A} (le : A -> A -> bool) (x : A) (l : list A) : list A :=
  match l with
  | [] => [x]
  | y :: l' => if le x y then x :: l else y :: insert_by le x l'
  end.
Definition order_by {A} (cmp : A -> A -> comparison) (l : list A) : list A :=
  foldr (insert_by (fun x y => match cmp x y with Gt => false | _ => true end)) [] l.

(** The commands that the snapshot's lateral query finds for a row: the
    certificate of the edge is not compared. *)
Definition admits_row (row : Attachment) (key : outbox_key) (o : OutboxRow) : bool :=
  let '(accountID, operationID, _, action) := key in
  let b := Binding row in
  let n := ob_binding o in
  (accountID == Binding.AccountID b) && (operationID == Binding.OperationID b) && (action == "admit")
  && (Binding.AccountID n == Binding.AccountID b) && (Binding.PreviewID n == Binding.PreviewID b)
  && (Binding.OperationID n == Binding.OperationID b) && (Binding.OwnerDeviceID n == Binding.OwnerDeviceID b)
  && (Binding.OwnerSessionID n == Binding.OwnerSessionID b) && (Binding.HostID n == Binding.HostID b)
  && (Binding.LeaseGeneration n =? Binding.LeaseGeneration b) && (Binding.TunnelID n == Binding.TunnelID b)
  && (Binding.ConnectorID n == Binding.ConnectorID b) && (Binding.SessionID n == Binding.SessionID b)
  && (Binding.ProcessGeneration n =? Binding.ProcessGeneration b)
  && (Binding.ConfigGeneration n =? Binding.ConfigGeneration b) && (Binding.RouteID n == Binding.RouteID b)
  && (Binding.RouteGeneration n =? Binding.RouteGeneration b) && (Binding.EdgeNodeID n == Binding.EdgeNodeID b)
  && (Binding.EdgeProcessEpoch n == Binding.EdgeProcessEpoch b)
  && (Binding.MachineIdentityPublicKey n == Binding.MachineIdentityPublicKey b)
  && (Binding.MachineIdentityThumbprint n == Binding.MachineIdentityThumbprint b).
Definition command_generation (d : Database) (row : Attachment) : Z :=
  let found := filter (fun '(key, o) => admits_row row key o = true) (map_to_list (outbox d)) in
  match foldr (fun '((_, _, g, _), _) best => Some (match best with Some b => Z.max g b | None => g end))
          None found with
  | Some g => g
  | None => AttachmentGeneration row
  end.

Record snapshotKey := mkSnapshotKey { accountID : string; operationID : string; commandGeneration : Z }.

Definition live_on (nodeID processEpoch : string) (now : time) (d : Database) (row : Attachment) : bool :=
  (Binding.EdgeNodeID (Binding row) == nodeID) && (Binding.EdgeProcessEpoch (Binding row) == processEpoch)
  && negb (isTerminal (State row)) && unexpired timestamptz now row
  && match leases d !! (Binding.AccountID (Binding row), Binding.PreviewID (Binding row)) with
     | Some l => lr_active l
     | None => false
     end.
Definition compare_keys (k1 k2 : snapshotKey) : comparison :=
  then_compare (text_compare (accountID k1) (accountID k2)) (text_compare (operationID k1) (operationID k2)).
(** [pullPreviewCarrierSnapshotSQL] *)
Definition sql_pull_snapshot (nodeID processEpoch : string) (now : time) (limit : Z) (d : Database)
    : list snapshotKey :=
  firstn (Z.to_nat limit) (order_by compare_keys
    (omap (fun '(_, row) =>
       if live_on nodeID processEpoch now d row
       then Some (mkSnapshotKey (Binding.AccountID (Binding row)) (Binding.OperationID (Binding row))
                    (command_generation d row))
       else None) (map_to_list (attachments d)))).

Definition snapshot_item (nodeID processEpoch : string) (now : time) (key : snapshotKey)
    : T PreviewCarrierOutboxItem :=
  a ← on_no_rows ErrNotFound (scanAttachment (accountID key) (operationID key));
  let item := PreviewCarrierOutboxItem.mk (Binding.AccountID (Binding a)) (Binding.OperationID (Binding a))
    (commandGeneration key) "admit" (Binding a) (AccessMode a) (ConfigContentHash a) (EdgeEndpoints a)
    (Endpoint a) (ExpiresAt a) (State a) 0 0 in
  check (OutboxItem_validate item now nodeID processEpoch) ;; ret item.
Fixpoint collect {A B} (f : A -> T B) (l : list A) : T (list B) :=
  match l with
  | [] => ret []
  | x :: l' => y ← f x; ys ← collect f l'; ret (y :: ys)
  end.

(** The closure of the snapshot keeps [keys] and [items] outside the transaction. *)
Definition snapshot_body (nodeID processEpoch : string) (now : time)
    (c : list snapshotKey * list PreviewCarrierOutboxItem) (d : Database)
    : PRes unit * (list snapshotKey * list PreviewCarrierOutboxItem) * Database :=
  let (keys, items) := c in
  match assertPreviewEdgeProcessEpochTx nodeID processEpoch now d with
  | (Err e, d') => (Err e, (keys, items), d')
  | (Ok _, d') =>
      let keys := keys ++ sql_pull_snapshot nodeID processEpoch now (maxPreviewCarrierAdmissions + 1) d' in
      if maxPreviewCarrierAdmissions <? Z.of_nat (length keys) then (Err ErrConflict, (keys, items), d') else
      match collect (snapshot_item nodeID processEpoch now) keys d' with
      | (Err e, d'') => (Err e, (keys, items), d'')
      | (Ok snapshot, d'') => (Ok tt, (keys, snapshot), d'')
      end
  end.
Definition PullPreviewCarrierSnapshot (nodeID processEpoch : string)
    : SQLRepository -> PRes (list PreviewCarrierOutboxItem) * SQLRepository :=
  with_reading (fun t d =>
    if negb (validID nodeID) || negb (ok (ValidateOpaqueEpoch processEpoch)) then (Err ErrInvalid, d) else
    match in_tx_loop (maxAttempts - 1) t 1 (snapshot_body nodeID processEpoch (t_clock t)) ([], []) d with
    | (Err e, _, d') => (Err e, d')
    | (Ok _, (_, items), d') => (Ok items, d')
    end).

Definition compare_commands (x y : outbox_key * OutboxRow) : comparison :=
  let '((a1, o1, g1, _), r1) := x in
  let '((a2, o2, g2, _), r2) := y in
  then_compare (Z.compare (ob_createdAt r1) (ob_createdAt r2))
    (then_compare (text_compare a1 a2) (then_compare (text_compare o1 o2) (Z.compare g1 g2))).
Definition claimable (o : OutboxRow) : bool := (ob_state o == "pending") || (ob_state o == "failed").
Definition scanPreviewCarrierOutbox (entry : outbox_key * OutboxRow) : PreviewCarrierOutboxItem :=
  let '((accountID, operationID, generation, action), o) := entry in
  PreviewCarrierOutboxItem.mk accountID operationID generation action (ob_binding o) (ob_accessMode o)
    (ob_configHash o) (ob_endpoints o) (ob_endpoint o) (ob_expiresAt o) (ob_state o) (ob_attempts o)
    (ob_nextAttempt o).
(** [pullPreviewCarrierDetachOutboxSQL]; no row is locked by another transaction
    in a serial order. *)
Definition sql_pull_detach (nodeID processEpoch : string) (now : time) (limit : Z) (d : Database)
    : list PreviewCarrierOutboxItem :=
  scanPreviewCarrierOutbox <$> firstn (Z.to_nat limit) (order_by compare_commands
    (filter (fun '((_, _, _, action), o) =>
       scoped nodeID processEpoch o && (action == "detach") && claimable o
       && (ob_nextAttempt o <=? timestamptz now) = true) (map_to_list (outbox d)))).
(** [claimPreviewCarrierOutboxSQL] *)
Definition sql_claim (nodeID processEpoch : string) (key : outbox_key) (now : time) : T bool :=
  d ← get;
  match outbox d !! key with
  | Some o =>
      if scoped nodeID processEpoch o && claimable o then
        put (d <| outbox := <[key := o <| ob_state := "in_flight" |> <| ob_attempts := ob_attempts o + 1 |>
               <| ob_nextAttempt := timestamptz now + 30 * Second |> <| ob_updatedAt := timestamptz now |>]> (outbox d) |>) ;;
        ret true
      else ret false
  | None => ret false
  end.

(** Claiming the items one by one; [items] is what the closure keeps outside the
    transaction. *)
Fixpoint claim_items (nodeID processEpoch : string) (now : time) (pending items : list PreviewCarrierOutboxItem)
    (d : Database) : PRes unit * list PreviewCarrierOutboxItem * Database :=
  match pending with
  | [] => (Ok tt, items, d)
  | item :: rest =>
      let key := (PreviewCarrierOutboxItem.AccountID item, PreviewCarrierOutboxItem.OperationID item,
                  PreviewCarrierOutboxItem.AttachmentGeneration item, PreviewCarrierOutboxItem.Action item) in
      match sql_claim nodeID processEpoch key now d with
      | (Err e, d') => (Err e, items, d')
      | (Ok false, d') => (Err ErrStaleBinding, items, d')
      | (Ok true, d') =>
          claim_items nodeID processEpoch now rest
            (items ++ [item <| PreviewCarrierOutboxItem.State := "in_flight" |>
                            <| PreviewCarrierOutboxItem.Attempts := PreviewCarrierOutboxItem.Attempts item + 1 |>]) d'
      end
  end.
Definition detach_body (nodeID processEpoch : string) (now : time) (items : list PreviewCarrierOutboxItem)
    (d : Database) : PRes unit * list PreviewCarrierOutboxItem * Database :=
  match assertPreviewEdgeProcessEpochTx nodeID processEpoch now d with
  | (Err e, d') => (Err e, items, d')
  | (Ok _, d') =>
      let pending := sql_pull_detach nodeID processEpoch now (maxPreviewCarrierAdmissions + 1) d' in
      match first_error ((fun item => OutboxItem_validate item now nodeID processEpoch) <$> pending) with
      | Some e => (Err e, items, d')
      | None =>
          if maxPreviewCarrierAdmissions <? Z.of_nat (length pending) then (Err ErrConflict, items, d')
          else claim_items nodeID processEpoch now pending items d'
      end
  end.
Definition PullPreviewCarrierDetachOutbox (nodeID processEpoch : string)
    : SQLRepository -> PRes (list PreviewCarrierOutboxItem) * SQLRepository :=
  with_reading (fun t d =>
    if negb (validID nodeID) || negb (ok (ValidateOpaqueEpoch processEpoch)) then (Err ErrInvalid, d) else
    match in_tx_loop (maxAttempts - 1) t 1 (detach_body nodeID processEpoch (t_clock t)) [] d with
    | (Err e, _, d') => (Err e, d')
    | (Ok _, items, d') => (Ok items, d')
    end).

(** [requeuePreviewCarrierOutboxSQL] *)
Definition sql_requeue (now : time) : T unit :=
  modify (fun d => d <| outbox := (fun o =>
    if (ob_state o == "in_flight") && (ob_updatedAt o <=? timestamptz now - 30 * Second)
    then o <| ob_state := "pending" |> <| ob_nextAttempt := timestamptz now |> <| ob_updatedAt := timestamptz now |>
    else o) <$> outbox d |>).
Definition RequeuePreviewCarrierOutbox (now : time) (s : SQLRepository) : option PreviewError * SQLRepository :=
  let (r, s') := with_reading (fun t => exec t (sql_requeue (or_clock t now))) s in
  (match r with Err e => Some e | Ok _ => None end, s').

(** The publisher of the production composition: an admission is accepted once
    its command is delivered. *)
Definition OutboxAdmissionPublisher (ctx : Context) (request : AdmissionRequest) (s : SQLRepository)
    : PRes AdmissionDelivery * SQLRepository :=
  if ctx_nil ctx then (Err ErrInvalid, s) else
  with_reading (fun t d =>
    match AdmissionRequest_Validate request (t_clock t) with
    | Some e => (Err e, d)
    | None =>
        exec t (d ← get;
                ret match outbox d !! (Binding.AccountID (AdmissionRequest.Binding request),
                          AdmissionRequest.OperationID request, AdmissionRequest.AttachmentGeneration request, "admit") with
                    | None => mkDelivery AdmissionRetry "admission_not_queued"
                    | Some o => if ob_state o == "delivered" then mkDelivery AdmissionAlready "edge_acknowledged"
                                else mkDelivery AdmissionRetry "queued_waiting_for_edge_ack"
                    end) d
    end) s.
End Outbox.
