(* ===== verification/PreviewSqlSafety.v ===== *)
(** * Transactions of the SQL repository

    What a committed transaction of [PreviewSql] can do to the tables: [next]
    relates the tables before and after, row by row and command by command, and
    every statement of the repository is a sequence of such steps, whatever other
    transactions do between the attempts of one.  [inv] is the invariant of the
    tables: a row follows the machine [Spec] of an attachment, a command to admit
    is for a generation of its row, and a row in use was acknowledged by the edge
    process that its binding names. *)
From S2P Require Import Prelude GoText GoHash GoUrl GoJson GoNet Errors ServerSession PreviewContract PreviewManager.
From S2P Require Import PreviewManagerSafety PreviewWorld PreviewService PreviewSql.

Section Steps.
Import Attachment.

(** The edge process of a binding acknowledged the admission of a binding. *)
Definition acked_by (b : Binding.Binding) (k : Ack) : Prop :=
  ack_node k = Binding.EdgeNodeID b /\ ack_epoch k = Binding.EdgeProcessEpoch b.
Definition acked (log : list Ack) (b : Binding.Binding) : Prop :=
  exists k, k ∈ log /\ acked_by b k /\ ack_binding k = b.
Definition acked_carrier (log : list Ack) (b : Binding.Binding) : Prop :=
  exists k, k ∈ log /\ acked_by b k /\ dataCarrierBindingEqual (ack_binding k) b = true.

(** What a transaction can do to a row. *)
Inductive row_change (log : list Ack) (row : Attachment) : Attachment -> Prop :=
| rc_expire : isTerminal (State row) = false ->
    row_change log row (advanced (row <| State := StateFailed |> <| EdgeReady := false |>
      <| OriginReady := false |> <| ReadyAt := None |>))
| rc_admit : State row = StatePending -> acked log (Binding row) ->
    row_change log row (advanced (row <| State := StateAdmitted |> <| EdgeReady := false |> <| ReadyAt := None |>))
| rc_edge : State row = StateAdmitted ->
    row_change log row (advanced (row <| EdgeReady := true |> <| OriginReady := false |>
      <| State := StateEdgeReady |> <| ReadyAt := None |>))
| rc_origin (b : bool) t : State row = StateEdgeReady \/ State row = StateReady ->
    row_change log row (advanced (row <| OriginReady := b |>
      <| State := if b then StateReady else StateEdgeReady |> <| ReadyAt := if b then Some t else None |>))
| rc_renew tz next : isTerminal (State row) = false -> logicalBindingEqual (Binding row) (Binding next) = true ->
    row_change log row (advanced (renew_row tz next row))
| rc_release t : isTerminal (State row) = false ->
    row_change log row (advanced (row <| State := StateReleased |> <| EdgeReady := false |>
      <| OriginReady := false |> <| ReadyAt := None |> <| ReleasedAt := Some t |> <| ExpiresAt := t |>)).

(** A row as it is inserted. *)
Record born (k : row_key) (row : Attachment) : Prop := {
  born_key : k = key_of_binding (Binding row);
  born_spec : represents row (Spec.mk Spec.Pending 1 (identity (Binding row)));
}.

(** Two rows that the unique indexes exclude. *)
Definition clash (r r' : Attachment) : Prop :=
  Binding.AccountID (Binding r) = Binding.AccountID (Binding r') /\
  ((Binding.PreviewID (Binding r) = Binding.PreviewID (Binding r')
    /\ isTerminal (State r) = false /\ isTerminal (State r') = false)
   \/ IdempotencyKey r = IdempotencyKey r').

(** The command is for the row of the generation that it names, or for an earlier
    generation of it. *)
Definition command_for (d : Database) (key : outbox_key) (o : OutboxRow) : Prop :=
  let '(accountID, operationID, g, _) := key in
  exists row, attachments d !! (accountID, operationID) = Some row /\ g <= AttachmentGeneration row
    /\ (g = AttachmentGeneration row -> Binding row = ob_binding o).

Inductive row_moves (d d' : Database) (k : row_key) : option Attachment -> option Attachment -> Prop :=
| rm_none : row_moves d d' k None None
| rm_born row : born k row ->
    (forall k' row', attachments d' !! k' = Some row' -> k' <> k -> ~ clash row row') ->
    row_moves d d' k None (Some row)
| rm_same row : row_moves d d' k (Some row) (Some row)
| rm_change row row' : AttachmentGeneration row < max_int64 -> row_change (acks d') row row' ->
    row_moves d d' k (Some row) (Some row').

Inductive command_moves (d d' : Database) (key : outbox_key) : option OutboxRow -> option OutboxRow -> Prop :=
| cm_none : command_moves d d' key None None
| cm_new o : ob_state o = "pending" -> (snd key = "admit" -> command_for d' key o) ->
    command_moves d d' key None (Some o)
| cm_same o : command_moves d d' key (Some o) (Some o)
| cm_claim o o' : ob_binding o' = ob_binding o -> ob_state o <> "delivered" -> ob_state o' <> "delivered" ->
    command_moves d d' key (Some o) (Some o')
| cm_deliver o o' : ob_binding o' = ob_binding o -> ob_state o' = "delivered" ->
    (snd key = "admit" -> acked (acks d') (ob_binding o)) ->
    command_moves d d' key (Some o) (Some o').

Record next (d d' : Database) : Prop := {
  next_rows : forall k, row_moves d d' k (attachments d !! k) (attachments d' !! k);
  next_commands : forall key, command_moves d d' key (outbox d !! key) (outbox d' !! key);
  next_acks : acks d ⊆ acks d';
}.

Lemma row_unmoved d d' k o : row_moves d d' k o o.
Proof. destruct o; constructor. Qed.
Lemma command_unmoved d d' k o : command_moves d d' k o o.
Proof. destruct o; constructor. Qed.
Hint Resolve row_unmoved command_unmoved : core.

(** ** The invariant *)
Definition row_ok (log : list Ack) (k : row_key) (row : Attachment) : Prop :=
  k = key_of_binding (Binding row) /\ 1 <= AttachmentGeneration row <= max_int64
  /\ (exists s, represents row s /\ rtc spec_step (Spec.mk Spec.Pending 1 (identity (Binding row))) s)
  /\ (edge_phase row = true -> acked_carrier log (Binding row)).

Record inv (d : Database) : Prop := {
  inv_row : forall k row, attachments d !! k = Some row -> row_ok (acks d) k row;
  inv_unique : forall k k' row row', attachments d !! k = Some row -> attachments d !! k' = Some row' ->
    k <> k' -> ~ clash row row';
  inv_command : forall key o, outbox d !! key = Some o -> snd key = "admit" ->
    command_for d key o /\ (ob_state o = "delivered" -> acked (acks d) (ob_binding o));
}.

(** A row keeps what names it, and moves to the next generation. *)
Lemma change_generation log row row' : row_change log row row' ->
  AttachmentGeneration row' = AttachmentGeneration row + 1.
Proof. by destruct 1. Qed.
Lemma change_idempotency log row row' : row_change log row row' -> IdempotencyKey row' = IdempotencyKey row.
Proof. by destruct 1. Qed.
Lemma row_change_identity log row row' : row_change log row row' -> identity (Binding row') = identity (Binding row).
Proof.
  destruct 1 as [?|? ?|?|? ? ?|tz n ? Hl|? ?]; try done. apply logical_equal_iff in Hl. destruct_and! Hl.
  unfold identity. cbn. congruence.
Qed.

Lemma identity_account b b' : identity b = identity b' ->
  Binding.AccountID b = Binding.AccountID b' /\ Binding.PreviewID b = Binding.PreviewID b'
  /\ key_of_binding b = key_of_binding b'.
Proof. unfold identity, key_of_binding. intros [=]. repeat split; congruence. Qed.

(** The machine takes a step with it. *)
Lemma change_spec log row row' s :
  row_change log row row' -> represents row s -> 1 <= AttachmentGeneration row < max_int64 ->
  exists s', spec_step s s' /\ represents row' s'.
Proof.
  intros Hc R Hg. pose proof (isTerminal_live _ _ R) as HT. pose proof (row_change_identity _ _ _ Hc) as Hi.
  assert (Hn : u64_add (Spec.generation s) 1 = AttachmentGeneration row + 1).
  { rewrite <- (rep_generation _ _ R). apply u64_add_small. unfold max_int64, two64 in *. lia. }
  assert (Hlive : isTerminal (State row) = false -> Spec.live (Spec.ph s) = true)
    by (intros E; rewrite E in HT; by destruct (Spec.live _)).
  assert (Hph : forall p, State row = phase_name p -> Spec.ph s = p)
    by (intros p E; apply phase_name_inj; by rewrite <- (rep_state _ _ R)).
  destruct R as [R1 R2 R3 R4 R5 R6 R7].
  assert (Hstep : exists p who, Spec.trans who s (Spec.advance s p)
    /\ State row' = phase_name p /\ EdgeReady row' = Spec.edge p /\ OriginReady row' = Spec.origin p
    /\ is_some (ReadyAt row') = Spec.origin p /\ is_some (ReleasedAt row') = Spec.gone p
    /\ AttachmentGeneration row' = AttachmentGeneration row + 1).
  { destruct Hc as [Ht|Hp _|Hp|b t Hp|tz n Ht Hl|t Ht].
    - exists Spec.Failed, Spec.Clock. pose proof (Hlive Ht). split; [by constructor|].
      destruct (Spec.ph s); cbn in *; repeat split; congruence.
    - pose proof (Hph Spec.Pending Hp) as E. exists Spec.Granted, Spec.Publisher. split; [by constructor|].
      rewrite E in *. by cbn in *.
    - pose proof (Hph Spec.Granted Hp) as E. exists Spec.EdgeReady, Spec.Edge. split; [by constructor|].
      rewrite E in *. by cbn in *.
    - destruct Hp as [Hp|Hp]; [pose proof (Hph Spec.EdgeReady Hp) as E|pose proof (Hph Spec.Ready Hp) as E];
        destruct b; [exists Spec.Ready, Spec.Host|exists Spec.EdgeReady, Spec.Host
                    |exists Spec.Ready, Spec.Host|exists Spec.EdgeReady, Spec.Host];
        rewrite E in R2, R3, R4, R5; cbn in R2, R3, R4, R5; (split; [|by cbn]).
      + by constructor.
      + rewrite <- E. constructor. by rewrite E.
      + rewrite <- E. constructor. by rewrite E.
      + by constructor.
    - pose proof (Hlive Ht) as L. unfold renew_row. cbv zeta. destruct (same_carrier row n).
      + exists (Spec.ph s), Spec.Host. split; [by constructor|]. cbn. by repeat split.
      + exists Spec.Pending, Spec.Host. split; [by constructor|]. cbn.
        destruct (Spec.ph s); cbn in *; repeat split; congruence.
    - exists Spec.Released, Spec.Host. pose proof (Hlive Ht). split; [by constructor|]. by cbn. }
  destruct Hstep as (p & who & Ht & H1 & H2 & H3 & H4 & H5 & H6).
  exists (Spec.advance s p). split; [by exists who|]. constructor; cbn; congruence.
Qed.

(** A live row was live before. *)
Lemma row_change_live log row row' : row_change log row row' -> isTerminal (State row) = false.
Proof. by destruct 1 as [Ht|Hp _|Hp|b t [Hp|Hp]|tz n Ht Hl|t Ht]; try rewrite Hp. Qed.

Lemma acked_data log b b' : dataCarrierBindingEqual b b' = true -> acked_carrier log b -> acked_carrier log b'.
Proof.
  intros Hd (k & Hk & [H1 H2] & Hb). exists k. split; [done|]. split; [|by eapply data_equal_trans].
  unfold dataCarrierBindingEqual in Hd. bool_prop.
  match goal with H : logicalBindingEqual _ _ = true |- _ => apply logical_equal_iff in H; destruct_and! H end.
  split; congruence.
Qed.
Lemma acked_is_carrier log b : acked log b -> acked_carrier log b.
Proof. intros (k & Hk & Ha & <-). exists k. by split_and!; [..|apply data_equal_refl]. Qed.
Lemma acked_more log log' b : log ⊆ log' -> acked log b -> acked log' b.
Proof. intros Hs (k & Hk & Ha). exists k. split; [by apply Hs|done]. Qed.
Lemma carrier_more log log' b : log ⊆ log' -> acked_carrier log b -> acked_carrier log' b.
Proof. intros Hs (k & Hk & Ha). exists k. split; [by apply Hs|done]. Qed.

Lemma same_carrier_data row n : same_carrier row n = true -> logicalBindingEqual (Binding row) (Binding n) = true ->
  dataCarrierBindingEqual (Binding row) (renewed_binding (Binding row) (Binding n)) = true.
Proof.
  intros Hs Hl. unfold same_carrier in Hs. cbv zeta in Hs. bool_prop. apply logical_equal_iff in Hl. destruct_and! Hl.
  apply data_equal_iff. destruct (Binding row), (Binding n). cbn in *. by subst.
Qed.

Lemma change_acked log0 log row row' : log0 ⊆ log -> row_change log row row' ->
  (edge_phase row = true -> acked_carrier log0 (Binding row)) ->
  edge_phase row' = true -> acked_carrier log (Binding row').
Proof.
  intros Hs Hc Ha. unfold edge_phase in *.
  assert (Hm : edge_phase row = true -> acked_carrier log (Binding row)) by (intros E; by eapply carrier_more, Ha).
  unfold edge_phase in Hm. destruct Hc as [Ht|Hp Hk|Hp|b t [Hp|Hp]|tz n Ht Hl|t Ht]; try done.
  - intros _. by apply acked_is_carrier.
  - intros _. apply Hm. by rewrite Hp.
  - intros _. apply Hm. by rewrite Hp.
  - intros _. apply Hm. by rewrite Hp.
  - unfold renew_row. cbv zeta. destruct (same_carrier row n) eqn:E; [|done]. cbn. intros H.
    eapply acked_data; [by apply same_carrier_data|by apply Hm].
Qed.

(** ** The invariant is kept *)
Lemma born_ok log k row : born k row -> row_ok log k row.
Proof.
  intros [Hk R]. split; [done|]. split; [rewrite (rep_generation _ _ R); done|]. split.
  - eexists. split; [exact R|apply rtc_refl].
  - unfold edge_phase. by rewrite (rep_state _ _ R).
Qed.

Lemma change_ok log0 log k row row' : log0 ⊆ log -> AttachmentGeneration row < max_int64 ->
  row_change log row row' -> row_ok log0 k row -> row_ok log k row'.
Proof.
  intros Hs Hm Hc (Hk & Hg & (s & R & Hr) & Ha). pose proof (row_change_identity _ _ _ Hc) as Hi.
  destruct (identity_account _ _ Hi) as (_ & _ & Hkey).
  split; [congruence|]. split; [rewrite (change_generation _ _ _ Hc); lia|]. split.
  - destruct (change_spec _ _ _ _ Hc R) as (s' & Ht & R'); [lia|]. exists s'. split; [done|]. rewrite Hi.
    by eapply rtc_r.
  - by eapply change_acked.
Qed.

Lemma same_ok log0 log k row : log0 ⊆ log -> row_ok log0 k row -> row_ok log k row.
Proof. intros Hs (Hk & Hg & Hr & Ha). do 3 (split; [done|]). intros E. by eapply carrier_more, Ha. Qed.

(** Where a row of the later tables comes from. *)
Lemma next_back d d' k row' : next d d' -> attachments d' !! k = Some row' ->
  (attachments d !! k = None /\ born k row'
    /\ forall k1 r1, attachments d' !! k1 = Some r1 -> k1 <> k -> ~ clash row' r1)
  \/ exists row, attachments d !! k = Some row /\ (row' = row \/
      (AttachmentGeneration row < max_int64 /\ row_change (acks d') row row')).
Proof.
  intros [Hr _ _] E. specialize (Hr k). rewrite E in Hr.
  inversion Hr as [|row Hb Hc E1 E2|row E1 E2|row r2 Hm Hc E1 E2]; subst; [left|right..]; eauto.
Qed.
Lemma next_forth d d' k row : next d d' -> attachments d !! k = Some row ->
  exists row', attachments d' !! k = Some row' /\ (row' = row \/
      (AttachmentGeneration row < max_int64 /\ row_change (acks d') row row')).
Proof.
  intros [Hr _ _] E. specialize (Hr k). rewrite E in Hr.
  inversion Hr as [|? Hb Hc E1 E2|? E1 E2|? r2 Hm Hc E1 E2]; subst; eauto.
Qed.

Lemma clash_sym r r' : clash r r' -> clash r' r.
Proof. unfold clash. intuition. Qed.

(** A clash of two rows that each are as they were or changed was there before. *)
Lemma clash_before log r1 r2 r1' r2' :
  (r1' = r1 \/ (AttachmentGeneration r1 < max_int64 /\ row_change log r1 r1')) ->
  (r2' = r2 \/ (AttachmentGeneration r2 < max_int64 /\ row_change log r2 r2')) ->
  clash r1' r2' -> clash r1 r2.
Proof.
  assert (H : forall r r', r' = r \/ (AttachmentGeneration r < max_int64 /\ row_change log r r') ->
    Binding.AccountID (Binding r') = Binding.AccountID (Binding r)
    /\ Binding.PreviewID (Binding r') = Binding.PreviewID (Binding r) /\ IdempotencyKey r' = IdempotencyKey r
    /\ (isTerminal (State r') = false -> isTerminal (State r) = false)).
  { intros r r' [->|[_ Hc]]; [done|].
    destruct (identity_account _ _ (row_change_identity _ _ _ Hc)) as (H1 & H2 & _).
    split_and!; [done..|by eapply change_idempotency|]. intros _. by eapply row_change_live. }
  intros H1 H2. destruct (H _ _ H1) as (E1 & E2 & E3 & E4). destruct (H _ _ H2) as (F1 & F2 & F3 & F4).
  unfold clash. rewrite E1, E2, E3, F1, F2, F3. intuition.
Qed.

(** A command stays for its row as the row moves on. *)
Lemma command_for_next d d' key o o' : next d d' -> ob_binding o' = ob_binding o ->
  command_for d key o -> command_for d' key o'.
Proof.
  destruct key as [[[a op] g] act]. intros Hn Hb (row & Hr & Hg & E).
  destruct (next_forth _ _ _ _ Hn Hr) as (row' & Hr' & [->|[_ Hc]]).
  - exists row. rewrite Hb. by split_and!.
  - exists row'. split; [done|]. rewrite (change_generation _ _ _ Hc). split; lia.
Qed.

Lemma next_inv d d' : next d d' -> inv d -> inv d'.
Proof.
  intros Hn [Hr Hu Hc]. split.
  - intros k row' E. destruct (next_back _ _ _ _ Hn E) as [(_ & Hb & _)|(row & E0 & [->|[Hm Hch]])].
    + by apply born_ok.
    + eapply same_ok; [apply Hn|by apply Hr].
    + eapply change_ok; [apply Hn|done|done|by apply Hr].
  - intros k k' r1' r2' E1 E2 Hk Hcl.
    destruct (next_back _ _ _ _ Hn E1) as [(_ & _ & Hb)|(r1 & F1 & H1)]; [by apply (Hb k' r2')|].
    destruct (next_back _ _ _ _ Hn E2) as [(_ & _ & Hb)|(r2 & F2 & H2)]; [by apply (Hb k r1'), clash_sym|].
    apply (Hu k k' r1 r2 F1 F2 Hk). by eapply clash_before.
  - intros key o' E Hact. pose proof (next_commands _ _ Hn key) as Hm. rewrite E in Hm.
    inversion Hm as [|o Hp Hf E1 E2|o E1 E2|o o2 Hb Hs Hs' E1 E2|o o2 Hb Hs Ha E1 E2]; subst.
    + split; [by apply Hf|]. rewrite Hp. done.
    + destruct (Hc key o' (eq_sym E1) Hact) as [Hf Hd]. split; [by apply (command_for_next d d' key o')|].
      intros Hs. eapply acked_more; [apply Hn|by apply Hd].
    + destruct (Hc key o (eq_sym E1) Hact) as [Hf Hd]. split; [by apply (command_for_next d d' key o)|]. done.
    + destruct (Hc key o (eq_sym E1) Hact) as [Hf Hd]. split; [by apply (command_for_next d d' key o)|].
      intros _. rewrite Hb. by apply Ha.
Qed.
Lemma nexts_inv d d' : rtc next d d' -> inv d -> inv d'.
Proof. induction 1; eauto using next_inv. Qed.

(** ** What a caller knows of a row that it read *)
Definition seen (a : Attachment) (d : Database) : Prop :=
  exists row, attachments d !! key_of_binding (Binding a) = Some row
    /\ AttachmentGeneration a <= AttachmentGeneration row
    /\ (AttachmentGeneration a = AttachmentGeneration row -> Binding row = Binding a).
(** The command to admit the attachment was delivered. *)
Definition admit_key (a : Attachment) : outbox_key :=
  (Binding.AccountID (Binding a), Binding.OperationID (Binding a), AttachmentGeneration a, "admit").
Definition delivered (a : Attachment) (d : Database) : Prop :=
  exists o, outbox d !! admit_key a = Some o /\ ob_state o = "delivered".

Lemma seen_stable a d d' : rtc next d d' -> seen a d -> seen a d'.
Proof.
  induction 1 as [|d d1 d' Hn _ IH]; [done|]. intros (row & Hr & Hg & E). apply IH.
  destruct (next_forth _ _ _ _ Hn Hr) as (row' & Hr' & [->|[_ Hc]]); [by exists row|].
  exists row'. split; [done|]. rewrite (change_generation _ _ _ Hc). split; lia.
Qed.
Lemma delivered_stable a d d' : rtc next d d' -> delivered a d -> delivered a d'.
Proof.
  induction 1 as [|d d1 d' Hn _ IH]; [done|]. intros (o & Ho & Hd). apply IH.
  pose proof (next_commands _ _ Hn (admit_key a)) as Hm. rewrite Ho in Hm.
  inversion Hm as [|? Hp Hf E1 E2|? E1 E2|? o2 Hb Hs Hs' E1 E2|? o2 Hb Hs Ha E1 E2]; subst; [by exists o|done|].
  by exists o2.
Qed.

(** A delivered command and the row that it still names: the edge of that row
    acknowledged it. *)
Lemma delivered_acked a d row : inv d -> delivered a d -> attachments d !! key_of_binding (Binding a) = Some row ->
  AttachmentGeneration row = AttachmentGeneration a -> acked (acks d) (Binding row).
Proof.
  intros I (o & Ho & Hd) Hr Hg. destruct (inv_command _ I _ _ Ho eq_refl) as [(row' & Hr' & _ & E) Ha].
  unfold key_of_binding in Hr. rewrite Hr in Hr'. injection Hr' as <-. rewrite E by done. by apply Ha.
Qed.
End Steps.

(** ** Single changes of the tables *)
Section Changes.
Import Attachment.
#[local] Hint Resolve row_unmoved command_unmoved : core.

Lemma next_change d k row row' : attachments d !! k = Some row -> AttachmentGeneration row < max_int64 ->
  row_change (acks d) row row' -> next d (d <| attachments := <[k := row']> (attachments d) |>).
Proof.
  intros Hr Hm Hc. split; cbn; [|done|done]. intros k'. destruct (decide (k' = k)) as [->|Hk].
  - rewrite lookup_insert_eq, Hr. by constructor.
  - by rewrite lookup_insert_ne.
Qed.

Lemma next_command d key o : outbox d !! key = None -> ob_state o = "pending" ->
  (snd key = "admit" -> command_for d key o) -> next d (d <| outbox := <[key := o]> (outbox d) |>).
Proof.
  intros Hn Hp Hf. split; cbn; [done| |done]. intros k'. destruct (decide (k' = key)) as [->|Hk].
  - rewrite lookup_insert_eq, Hn. by constructor.
  - by rewrite lookup_insert_ne.
Qed.

Lemma next_claim d key o o' : outbox d !! key = Some o -> ob_binding o' = ob_binding o ->
  ob_state o <> "delivered" -> ob_state o' <> "delivered" -> next d (d <| outbox := <[key := o']> (outbox d) |>).
Proof.
  intros Ho Hb H1 H2. split; cbn; [done| |done]. intros k'. destruct (decide (k' = key)) as [->|Hk].
  - rewrite lookup_insert_eq, Ho. by constructor.
  - by rewrite lookup_insert_ne.
Qed.

Lemma next_insert d k row : attachments d !! k = None -> born k row ->
  (forall k' row', attachments d !! k' = Some row' -> ~ clash row row') ->
  next d (d <| attachments := <[k := row]> (attachments d) |>).
Proof.
  intros Hn Hb Hc. split; cbn; [|done|done]. intros k'. destruct (decide (k' = k)) as [->|Hk].
  - rewrite lookup_insert_eq, Hn. constructor; [done|]. cbn. intros k' row' H Hk.
    rewrite lookup_insert_ne in H by done. by eapply Hc.
  - by rewrite lookup_insert_ne.
Qed.

Lemma next_tables d l n : next d (d <| leases := l |> <| nodes := n |>).
Proof. by split. Qed.
End Changes.

(** ** Transactions *)
Section Transactions.
Import Attachment.
Context (timestamptz : time -> time).

(** From tables that satisfy the invariant and [P], a body that succeeds has taken
    steps and established [Q]. *)
Definition commits {A} (P : Database -> Prop) (m : T A) (Q : A -> Database -> Prop) : Prop :=
  forall d, inv d -> P d ->
  wp m (fun r d' => match r with Ok a => rtc next d d' /\ Q a d' | Err _ => True end) d.

(** Others take steps between the attempts of a transaction. *)
Definition between_ok (t : Reading) : Prop := forall i d, rtc next d (t_between t i d).
Definition stable (P : Database -> Prop) : Prop := forall d d', rtc next d d' -> P d -> P d'.

(** The loop of [InTx], for a closure that keeps [c] outside. *)
Lemma loop_commits {C A} (P : Database -> Prop) (Q : A -> C -> Database -> Prop)
    (body : C -> Database -> PRes A * C * Database) t retries attempt c d :
  between_ok t -> stable P ->
  (forall c d a c' d', inv d -> P d -> body c d = (Ok a, c', d') -> rtc next d d' /\ Q a c' d') ->
  inv d -> P d ->
  match in_tx_loop retries t attempt body c d with
  | (r, c', d') => rtc next d d' /\ forall a, r = Ok a -> Q a c' d'
  end.
Proof.
  intros Hb HP Hm. revert attempt c d. induction retries as [|n IH]; intros attempt c d I Pd; cbn [in_tx_loop];
    destruct (body c d) as [[[a|e] c'] d'] eqn:E; try by split; [apply rtc_refl|].
  all: destruct (Hm _ _ _ _ _ I Pd E) as [H1 H2].
  all: destruct (t_outcome t attempt); try by split; [apply rtc_refl|].
  1, 2: by split; [|intros ? [= <-]].
  pose proof (Hb attempt d) as Hs. specialize (IH (S attempt) c' (t_between t attempt d) (nexts_inv _ _ Hs I) (HP _ _ Hs Pd)).
  destruct (in_tx_loop _ _ _ _ _ _) as [[r c2] d2]. destruct IH as [IH1 IH2].
  split; [by transitivity (t_between t attempt d)|done].
Qed.

Lemma in_tx_commits {A} P (m : T A) Q t d : between_ok t -> stable P -> commits P m Q -> inv d -> P d ->
  rtc next d (snd (in_tx t m d)) /\ forall a, fst (in_tx t m d) = Ok a -> Q a (snd (in_tx t m d)).
Proof.
  intros Hb HP Hm I Pd. unfold in_tx.
  pose proof (loop_commits P (fun a (_ : unit) d' => Q a d') (fun _ d => let (r, d') := m d in (r, tt, d')) t
    (maxAttempts - 1) 1 tt d Hb HP) as H.
  destruct (in_tx_loop _ _ _ _ _ _) as [[r c] d']. cbn. apply H; [|done|done].
  intros _ d0 a c' d0' I0 P0 E. specialize (Hm d0 I0 P0). unfold wp in Hm.
  destruct (m d0) as [r0 d1]. injection E as -> <- <-. exact Hm.
Qed.

(** *** Reading *)
Lemma wp_scan accountID operationID (Q : PRes Attachment -> Database -> Prop) d :
  (forall e, Q (Err e) d) ->
  (forall a row, attachments d !! (accountID, operationID) = Some row ->
     Binding a = Binding row -> AttachmentGeneration a = AttachmentGeneration row -> State a = State row ->
     EdgeReady a = EdgeReady row -> OriginReady a = OriginReady row -> ExpiresAt a = ExpiresAt row ->
     Q (Ok a) d) ->
  wp (scanAttachment accountID operationID) Q d.
Proof.
  intros HE HQ. unfold scanAttachment. apply wp_bind, wp_get.
  destruct (select_attachment accountID operationID d) as [a|] eqn:E; [|by apply wp_throw].
  apply wp_bind, wp_fail_if; intros _; [done|]. apply wp_bind, wp_check; [done|intros _]. apply wp_ret.
  unfold select_attachment in E. apply bind_Some in E as (row & Hr & (l & _ & [= <-])%bind_Some).
  by apply (HQ _ row).
Qed.

Lemma wp_on_no_rows {A} e (m : T A) (Q : PRes A -> Database -> Prop) d :
  wp m (fun r d' => match r with Err ErrNoRows => Q (Err e) d' | _ => Q r d' end) d -> wp (on_no_rows e m) Q d.
Proof. unfold wp, on_no_rows. destruct (m d) as [[a|[]] d']; done. Qed.

Lemma wp_scan_or accountID operationID e (Q : PRes Attachment -> Database -> Prop) d :
  (forall e, Q (Err e) d) ->
  (forall a row, attachments d !! (accountID, operationID) = Some row ->
     Binding a = Binding row -> AttachmentGeneration a = AttachmentGeneration row -> State a = State row ->
     EdgeReady a = EdgeReady row -> OriginReady a = OriginReady row -> ExpiresAt a = ExpiresAt row ->
     Q (Ok a) d) ->
  wp (on_no_rows e (scanAttachment accountID operationID)) Q d.
Proof. intros HE HQ. apply wp_on_no_rows, wp_scan; [by intros []|done]. Qed.

(** A row that was read is seen. *)
Lemma scanned_seen d accountID operationID a row : inv d -> attachments d !! (accountID, operationID) = Some row ->
  Binding a = Binding row -> AttachmentGeneration a = AttachmentGeneration row -> seen a d.
Proof.
  intros I Hr Hb Hg. exists row. destruct (inv_row _ I _ _ Hr) as (Hk & _). rewrite Hb, <- Hk. split; [done|].
  split; [lia|done].
Qed.

(** *** Writing *)
Lemma wp_outbox_insert key o (Q : PRes unit -> Database -> Prop) d :
  (outbox d !! key = None -> Q (Ok tt) (d <| outbox := <[key := o]> (outbox d) |>)) ->
  (forall o', outbox d !! key = Some o' -> Q (Ok tt) d) -> wp (outbox_insert key o) Q d.
Proof. intros H1 H2. unfold outbox_insert. apply wp_modify. destruct (outbox d !! key) eqn:E; eauto. Qed.

Lemma prepare_commits t a now : commits (seen a) (prepareAdmissionTx timestamptz t a now) (fun _ _ => True).
Proof.
  intros d I (row & Hr & Hg & E). unfold prepareAdmissionTx. apply wp_outbox_insert.
  - intros Hn. split; [|done]. apply rtc_once, next_command; [done..|]. intros _. exists row.
    split; [done|]. split; [lia|]. intros E'. cbn. auto.
  - intros _ _. by split; [apply rtc_refl|].
Qed.

Lemma detach_commits t a now : commits (fun _ => True) (enqueueDetachTx timestamptz t a now) (fun _ _ => True).
Proof.
  intros d I _. unfold enqueueDetachTx. apply wp_outbox_insert.
  - intros Hn. split; [|done]. by apply rtc_once, next_command.
  - intros _ _. by split; [apply rtc_refl|].
Qed.

(** A change of the row of a handle. *)
Lemma wp_update_row a cond set (Q : PRes bool -> Database -> Prop) d :
  Q (Ok false) d -> (forall e, Q (Err e) d) ->
  (forall row, attachments d !! key_of_binding (Binding a) = Some row ->
     AttachmentGeneration row = AttachmentGeneration a -> Binding row = Binding a -> cond row = true ->
     AttachmentGeneration row < max_int64 ->
     Q (Ok true) (d <| attachments := <[key_of_binding (Binding a) := advanced (set row)]> (attachments d) |>)) ->
  wp (update_row a cond set) Q d.
Proof.
  intros H1 H2 H3. unfold update_row. apply wp_bind, wp_get.
  destruct (attachments d !! key_of_binding (Binding a)) as [row|] eqn:E; [|by apply wp_ret].
  apply wp_if; intros Hc; [|by apply wp_ret]. unfold same_handle in Hc. bool_prop.
  match goal with H : carrierBindingEqual _ _ = true |- _ => apply carrier_equal_iff in H end.
  apply wp_bind, wp_fail_if; intros Hm; bool_prop; [done|]. apply wp_bind, wp_put, wp_ret. by apply H3.
Qed.

(** A statement that changes the row of a handle as [row_change] allows. *)
Definition changes (P : Database -> Prop) (m : T bool) : Prop :=
  commits P m (fun _ _ => True).

Lemma update_commits P a cond set :
  (forall d row, inv d -> P d -> attachments d !! key_of_binding (Binding a) = Some row ->
     AttachmentGeneration row = AttachmentGeneration a -> Binding row = Binding a -> cond row = true ->
     row_change (acks d) row (advanced (set row))) ->
  changes P (update_row a cond set).
Proof.
  intros H d I Pd. apply wp_update_row; [by split; [apply rtc_refl|]|done|].
  intros row Hr Hg Hb Hc Hm. split; [|done]. apply rtc_once. eapply next_change; [done|done|]. by apply (H d).
Qed.

Lemma admit_commits a now : changes (delivered a) (sql_admit timestamptz a now).
Proof.
  apply update_commits. intros d row I Hd Hr Hg Hb Hc. bool_prop. apply rc_admit; [done|].
  by eapply delivered_acked.
Qed.
Lemma observe_edge_commits a now : changes (fun _ => True) (sql_observe_edge timestamptz a now).
Proof. apply update_commits. intros d row I _ Hr Hg Hb Hc. bool_prop. by apply rc_edge. Qed.
Lemma observe_origin_commits a b now : changes (fun _ => True) (sql_observe_origin timestamptz a b now).
Proof.
  apply update_commits. intros d row I _ Hr Hg Hb Hc. bool_prop.
  match goal with H : _ || _ = true |- _ => apply orb_true_iff in H; destruct H as [H|H] end; bool_prop;
    apply rc_origin; [by left|by right].
Qed.
Lemma renew_commits a n now : logicalBindingEqual (Binding a) (Binding n) = true ->
  changes (fun _ => True) (sql_renew timestamptz a n now).
Proof.
  intros Hl. apply update_commits. intros d row I _ Hr Hg Hb Hc. bool_prop. apply rc_renew; [done|congruence].
Qed.
Lemma release_commits a now : changes (fun _ => True) (sql_release timestamptz a now).
Proof. apply update_commits. intros d row I _ Hr Hg Hb Hc. bool_prop. by apply rc_release. Qed.

(** A transition of the repository takes the steps of its statement, and those of
    what follows it. *)
Lemma transition_commits P a changed already_done after :
  changes P changed -> commits (fun _ => True) after (fun _ _ => True) ->
  commits P (transition a changed already_done after) (fun _ _ => True).
Proof.
  intros Hc Ha d I Pd. unfold transition. cbv zeta. apply wp_bind.
  eapply wp_mono; [apply (Hc d I Pd)|]. intros [b|e] d1; [|done]. intros [H1 _].
  apply wp_if; intros Hb.
  - apply wp_bind, wp_scan_or; [done|]. intros current row _ _ _ _ _ _ _.
    apply wp_if; intros _; [by apply wp_ret|by apply wp_throw].
  - apply wp_bind. eapply wp_mono; [apply (Ha d1); [by eapply nexts_inv|done]|]. intros [[]|e] d2; [|done].
    intros [H2 _]. apply wp_scan; [done|]. intros current row _ _ _ _ _ _ _. split; [|done].
    by transitivity d1.
Qed.

Lemma commits_ret {A} P (a : A) : commits P (ret a) (fun _ _ => True).
Proof. intros d I _. apply wp_ret. by split; [apply rtc_refl|]. Qed.

Lemma conflicts_clash a row d : conflicts a d = false ->
  Binding row = Binding a -> IdempotencyKey row = IdempotencyKey a ->
  attachments d !! key_of_binding (Binding a) = None
  /\ forall k r, attachments d !! k = Some r -> ~ clash row r.
Proof.
  unfold conflicts. intros H Hb Hi. bool_prop. split; [by destruct (attachments d !! key_of_binding _)|].
  intros k r Hr [Ha Hc]. rewrite Hb, Hi in *.
  match goal with H : existsb ?f _ = false |- _ => assert (E : f (k, r) = true) end.
  { cbn. apply andb_true_iff. split; [apply bool_decide_eq_true; congruence|]. apply orb_true_iff.
    destruct Hc as [(H1 & _ & H2)|H1]; [left|right; by apply bool_decide_eq_true].
    rewrite H2, andb_true_r. by apply bool_decide_eq_true. }
  match goal with H : existsb ?f ?l = false |- _ => assert (E' : existsb f l = true); [|by rewrite E' in H] end.
  apply existsb_exists. exists (k, r). split; [|done]. apply list_elem_of_In, elem_of_map_to_list. done.
Qed.

Lemma insert_commits a hash : commits (fun _ => True) (insert_attachment timestamptz a hash) (fun _ _ => True).
Proof.
  intros d I _. unfold insert_attachment. apply wp_bind, wp_get.
  apply wp_if; intros Hc; [by apply wp_ret; split; [apply rtc_refl|]|].
  apply wp_bind, wp_put, wp_ret. split; [|done]. apply rtc_once.
  match goal with |- next _ (_ <| attachments := <[_ := ?r]> _ |>) =>
    destruct (conflicts_clash a r d Hc eq_refl eq_refl) as [Hn Hcl] end.
  apply next_insert; [done| |done]. split; [done|]. by constructor.
Qed.

(** Reading a row back, and recording its command if it is pending. *)
Lemma prepare_if_pending_commits t a now :
  commits (seen a) (if State a == StatePending then prepareAdmissionTx timestamptz t a now else ret tt)
    (fun _ _ => True).
Proof. destruct (State a == StatePending); [apply prepare_commits|apply commits_ret]. Qed.

Lemma wp_commits {A B} P (m : T A) (k : A -> T B) (Q : B -> Database -> Prop) d0 d :
  commits P m (fun _ _ => True) -> rtc next d0 d -> inv d -> P d ->
  (forall a d', rtc next d0 d' -> inv d' ->
     wp (k a) (fun r d' => match r with Ok a => rtc next d0 d' /\ Q a d' | Err _ => True end) d') ->
  wp (m ≫= k) (fun r d' => match r with Ok a => rtc next d0 d' /\ Q a d' | Err _ => True end) d.
Proof.
  intros Hm H0 I Pd Hk. apply wp_bind. eapply wp_mono; [by apply (Hm d)|]. intros [a|e] d'; [|done].
  intros [H1 _]. apply Hk; [by transitivity d|by eapply nexts_inv].
Qed.

Lemma read_back_commits t a now : commits (fun _ => True) (read_back timestamptz t a now) (fun _ _ => True).
Proof.
  intros d I _. unfold read_back. apply wp_bind, wp_scan; [done|]. intros r row Hr Hb Hg _ _ _ _.
  apply (wp_commits (seen r)); [apply prepare_if_pending_commits|apply rtc_refl|done|by eapply scanned_seen|].
  intros _ d' H' I'. by apply wp_ret.
Qed.

Lemma create_commits t a hash : commits (fun _ => True) (create_body timestamptz t a hash) (fun _ _ => True).
Proof.
  intros d I _. unfold create_body. eapply wp_commits; [apply insert_commits|apply rtc_refl|done..|].
  intros inserted d1 H1 I1. apply wp_if; intros _.
  - apply wp_bind, wp_scan_or; [done|]. intros r row Hr Hb Hg _ _ _ _.
    apply wp_bind, wp_fail_if; intros _; [done|].
    apply (wp_commits (seen r)); [apply prepare_if_pending_commits|done|done|by eapply scanned_seen|].
    intros _ d' H' I'. by apply wp_ret.
  - eapply wp_mono; [by apply (read_back_commits t a (t_clock t) d1)|]. intros [r|e] d'; [|done].
    intros [H2 _]. split; [by transitivity d1|done].
Qed.

Lemma renew_body_commits t a n now : logicalBindingEqual (Binding a) (Binding n) = true ->
  commits (fun _ => True) (renew_body timestamptz t a n now) (fun _ _ => True).
Proof.
  intros Hl d I _. unfold renew_body. eapply wp_commits; [by apply renew_commits|apply rtc_refl|done..|].
  intros updated d1 H1 I1. apply wp_if; intros _.
  - apply wp_bind, wp_scan_or; [done|]. intros r row _ _ _ _ _ _ _.
    apply wp_if; intros _; [by apply wp_ret|by apply wp_throw].
  - eapply wp_mono; [by apply (read_back_commits t a now d1)|]. intros [r|e] d'; [|done].
    intros [H2 _]. split; [by transitivity d1|done].
Qed.

(** *** Statements on many rows *)
Lemma expire_row_moves d d' now k row : AttachmentGeneration row < max_int64 \/ ran_out timestamptz now row = false ->
  row_moves d d' k (Some row) (Some (expire_row timestamptz now row)).
Proof.
  unfold expire_row. destruct (ran_out timestamptz now row) eqn:E; [|constructor]. intros [Hm|]; [|done].
  apply rm_change; [done|]. apply rc_expire. unfold ran_out in E. by bool_prop.
Qed.

Lemma expire_commits t now : commits (fun _ => True) (sql_expire timestamptz t now) (fun _ _ => True).
Proof.
  intros d I _. unfold sql_expire. apply wp_bind, wp_get. apply wp_bind, wp_fail_if; intros Hb; [done|].
  apply wp_put. split; [|done]. apply rtc_once. split; cbn; [| |done].
  - intros k. rewrite lookup_fmap. destruct (attachments d !! k) as [row|] eqn:Hr; cbn; [|constructor].
    apply expire_row_moves. destruct (ran_out timestamptz now row) eqn:E; [left|by right].
    apply Z.nle_gt. intros Hm. match goal with H : existsb ?f ?l = false |- _ =>
      assert (E' : existsb f l = true); [|by rewrite E' in H] end.
    apply existsb_exists. exists (k, row). split; [by apply list_elem_of_In, elem_of_map_to_list|].
    rewrite E. by apply Z.leb_le.
  - intros key. rewrite lookup_union. destruct (outbox d !! key) as [o|]; cbn.
    { destruct (list_to_map _ !! _); cbn; constructor. }
    destruct (list_to_map _ !! key) as [o|] eqn:Ho; cbn; [|constructor].
    apply elem_of_list_to_map_2, list_elem_of_omap in Ho as ([k row] & _ & Hd).
    unfold detach_of in Hd. cbn in Hd. destruct (ran_out _ _ _); [|done].
    apply bind_Some in Hd as (l & _ & [= <- <-]). by constructor.
Qed.

Lemma requeue_commits now : commits (fun _ => True) (sql_requeue timestamptz now) (fun _ _ => True).
Proof.
  intros d I _. unfold sql_requeue. apply wp_modify. split; [|done]. apply rtc_once. split; cbn; [|  |done].
  - intros k. apply row_unmoved.
  - intros key. rewrite lookup_fmap. destruct (outbox d !! key) as [o|]; cbn; [|constructor].
    destruct (_ && _) eqn:E; [|constructor]. bool_prop. apply cm_claim; [done|congruence|done].
Qed.

(** *** The outbox *)

(** The tables after the acknowledgement of a command. *)
Definition acknowledged (nodeID processEpoch : string) (key : outbox_key) (o : OutboxRow) (now : time)
    (d : Database) : Database :=
  d <| outbox := <[key := o <| ob_state := "delivered" |> <| ob_updatedAt := timestamptz now |>]> (outbox d) |>
    <| acks := if snd key == "admit" then mkAck nodeID processEpoch (ob_binding o) :: acks d else acks d |>.

Lemma wp_mark nodeID processEpoch key now (Q : PRes unit -> Database -> Prop) d :
  (forall e, Q (Err e) d) ->
  (forall o, outbox d !! key = Some o -> scoped nodeID processEpoch o = true -> ob_state o = "delivered" -> Q (Ok tt) d) ->
  (forall o, outbox d !! key = Some o -> scoped nodeID processEpoch o = true -> ob_state o <> "delivered" ->
     Q (Ok tt) (acknowledged nodeID processEpoch key o now d)) ->
  wp (markPreviewCarrierOutboxDeliveredTx timestamptz nodeID processEpoch key now) Q d.
Proof.
  intros HE Hd Hn. unfold markPreviewCarrierOutboxDeliveredTx, sql_acknowledge, sql_delivered.
  apply wp_bind, wp_bind, wp_get. destruct (outbox d !! key) as [o|] eqn:Ho.
  - destruct (scoped nodeID processEpoch o) eqn:Hs; cbn [andb].
    + destruct (ob_state o != "delivered") eqn:E; bool_prop.
      * apply wp_bind, wp_put, wp_ret. cbn. apply wp_ret. by apply (Hn o).
      * apply wp_ret. cbn. apply wp_bind, wp_bind, wp_get, wp_ret. rewrite Ho, Hs, E. cbn. apply wp_ret. by apply (Hd o).
    + apply wp_ret. cbn. apply wp_bind, wp_bind, wp_get, wp_ret. rewrite Ho, Hs. cbn. apply wp_throw, HE.
  - apply wp_ret. cbn. apply wp_bind, wp_bind, wp_get, wp_ret. rewrite Ho. cbn. apply wp_throw, HE.
Qed.

Lemma scoped_by nodeID processEpoch o : scoped nodeID processEpoch o = true ->
  acked_by (ob_binding o) (mkAck nodeID processEpoch (ob_binding o)).
Proof. unfold scoped. intros H. by bool_prop. Qed.

Lemma acknowledged_acks nodeID processEpoch key o now d :
  acks d ⊆ acks (acknowledged nodeID processEpoch key o now d).
Proof. cbn. case_bool_decide; set_solver. Qed.
Lemma acknowledged_acked nodeID processEpoch key o now d : scoped nodeID processEpoch o = true -> snd key = "admit" ->
  acked (acks (acknowledged nodeID processEpoch key o now d)) (ob_binding o).
Proof.
  intros Hs Hk. cbn. rewrite Hk. exists (mkAck nodeID processEpoch (ob_binding o)).
  split; [left|]. split; [by apply scoped_by|done].
Qed.

(** Delivering a command, together with a change that the acknowledgement allows. *)
Lemma acknowledged_commands nodeID processEpoch key o now d d0 key' :
  outbox d0 !! key = Some o -> scoped nodeID processEpoch o = true -> outbox d = outbox d0 ->
  command_moves d0 (acknowledged nodeID processEpoch key o now d) key' (outbox d0 !! key')
    (outbox (acknowledged nodeID processEpoch key o now d) !! key').
Proof.
  intros Ho Hs E. destruct (decide (key' = key)) as [->|Hk].
  - rewrite Ho. replace (outbox _ !! key) with (Some (o <| ob_state := "delivered" |> <| ob_updatedAt := timestamptz now |>))
      by (cbn; by rewrite lookup_insert_eq).
    apply cm_deliver; [done|done|]. intros Ha. by apply acknowledged_acked.
  - replace (outbox (acknowledged _ _ _ _ _ _) !! key') with (outbox d0 !! key')
      by (cbn; by rewrite lookup_insert_ne, E). apply command_unmoved.
Qed.

Lemma next_acknowledged nodeID processEpoch key o now d :
  outbox d !! key = Some o -> scoped nodeID processEpoch o = true -> next d (acknowledged nodeID processEpoch key o now d).
Proof.
  intros Ho Hs. split; [intros k; apply row_unmoved| |apply acknowledged_acks].
  intros key'. by apply acknowledged_commands.
Qed.

(** A command that its edge process acknowledged. *)
Definition delivered_to (nodeID processEpoch : string) (key : outbox_key) (d : Database) : Prop :=
  exists o, outbox d !! key = Some o /\ scoped nodeID processEpoch o = true /\ ob_state o = "delivered".
Lemma delivered_to_stable nodeID processEpoch key : stable (delivered_to nodeID processEpoch key).
Proof.
  induction 1 as [|d d1 d' Hn _ IH]; [done|]. intros (o & Ho & Hs & Hd). apply IH.
  pose proof (next_commands _ _ Hn key) as Hm. rewrite Ho in Hm.
  inversion Hm as [|? Hp Hf E1 E2|? E1 E2|? o2 Hb Hst Hst' E1 E2|? o2 Hb Hst Ha E1 E2]; subst; [by exists o|done|].
  exists o2. split; [done|]. unfold scoped in *. by rewrite Hb.
Qed.
Lemma acknowledged_delivered nodeID processEpoch key o now d : scoped nodeID processEpoch o = true ->
  delivered_to nodeID processEpoch key (acknowledged nodeID processEpoch key o now d).
Proof. intros Hs. eexists. split; [cbn; apply lookup_insert_eq|done]. Qed.

Lemma mark_commits nodeID processEpoch key now :
  commits (fun _ => True) (markPreviewCarrierOutboxDeliveredTx timestamptz nodeID processEpoch key now)
    (fun _ => delivered_to nodeID processEpoch key).
Proof.
  intros d I _. apply wp_mark; [done| |].
  - intros o Ho Hs Hd. split; [apply rtc_refl|by exists o].
  - intros o Ho Hs _. split; [by apply rtc_once, next_acknowledged|by apply acknowledged_delivered].
Qed.

(** The row is admitted and its command acknowledged in one step. *)
Lemma next_admitted nodeID processEpoch key o now d k row row' :
  outbox d !! key = Some o -> scoped nodeID processEpoch o = true -> snd key = "admit" ->
  attachments d !! k = Some row -> AttachmentGeneration row < max_int64 -> State row = StatePending ->
  Binding row = ob_binding o ->
  row' = advanced (row <| State := StateAdmitted |> <| EdgeReady := false |> <| ReadyAt := None |>) ->
  next d (acknowledged nodeID processEpoch key o now (d <| attachments := <[k := row']> (attachments d) |>)).
Proof.
  intros Ho Hs Hk Hr Hm Hp Hb ->. split; [| |etransitivity; [|apply acknowledged_acks]; done].
  - intros k'. destruct (decide (k' = k)) as [->|Hne]; cbn [acknowledged attachments].
    + rewrite Hr. cbn. rewrite lookup_insert_eq. apply rm_change; [done|]. apply rc_admit; [done|]. rewrite Hb.
      by apply acknowledged_acked.
    + cbn. rewrite lookup_insert_ne by done. apply row_unmoved.
  - intros key'. by apply acknowledged_commands.
Qed.

Lemma acknowledge_commits nodeID processEpoch accountID operationID generation now :
  commits (fun _ => True)
    (acknowledgeAdmissionTx timestamptz nodeID processEpoch accountID operationID generation now)
    (fun _ => delivered_to nodeID processEpoch (accountID, operationID, generation, "admit")).
Proof.
  intros d I _. unfold acknowledgeAdmissionTx. cbv zeta. apply wp_bind, wp_get.
  set (key := (accountID, operationID, generation, "admit")).
  destruct (outbox d !! key) as [o|] eqn:Ho; [|by apply wp_throw].
  apply wp_if; intros Hs; [by apply wp_throw|]. bool_prop.
  apply wp_if; intros Hd; bool_prop; [by apply wp_ret; split; [apply rtc_refl|exists o]|].
  apply wp_bind, wp_check; [done|intros _]. apply wp_bind, wp_scan_or; [done|].
  intros current row Hr Hb Hg Hst _ _ _. apply wp_bind, wp_fail_if; intros Hbo; [done|]. bool_prop.
  apply wp_if; intros _; [by apply mark_commits|].
  apply wp_bind, wp_fail_if; intros Hp; [done|]. bool_prop.
  apply wp_bind. unfold sql_admit. apply wp_update_row; [|done|].
  { apply wp_bind, wp_fail_if; done. }
  intros row' Hr' Hg' Hb' Hc Hm. bool_prop. apply wp_bind, wp_fail_if; intros _; [done|].
  apply wp_mark; [done| |].
  - intros o' Ho' _ Hd'. cbn in Ho'. congruence.
  - intros o' Ho' _ _. cbn in Ho'. rewrite Ho in Ho'. injection Ho' as <-. split; [|by apply acknowledged_delivered]. apply rtc_once.
    by apply (next_admitted _ _ _ _ _ _ _ row'); [..|congruence|].
Qed.
End Transactions.
