(* ===== verification/PreviewProduction.v ===== *)
(** * The attachment service in production

    [Service] of [PreviewService] over the SQL repository of [PreviewSql], with
    the outbox as its publisher and the calls of the edge: acknowledgements and
    pulls.  Every call is a sequence of the steps of [PreviewSqlSafety], with
    anything that other calls do between its own transactions, so the invariant
    of the tables holds in every run. *)
From S2P Require Import Prelude GoText GoHash GoUrl GoJson GoNet Errors ServerSession PreviewContract PreviewManager.
From S2P Require Import PreviewManagerSafety PreviewWorld PreviewService PreviewSql PreviewSqlSafety.

(** ** The methods of the repository *)
Section Repository.
Import Attachment.
Context (timestamptz : time -> time) (text_compare : string -> string -> comparison).

Definition repo_moves (s s' : SQLRepository) : Prop :=
  sql_readings s' = sql_readings s /\ rtc next (sql_db s) (sql_db s').
Definition repo_ok (s : SQLRepository) : Prop := (forall n, between_ok (sql_readings s n)) /\ inv (sql_db s).

#[export] Instance repo_moves_preorder : PreOrder repo_moves.
Proof.
  split; [by intros s|]. intros s1 s2 s3 [E1 H1] [E2 H2]. split; [congruence|by transitivity (sql_db s2)].
Qed.
Lemma moves_ok s s' : repo_moves s s' -> repo_ok s -> repo_ok s'.
Proof. intros [E H] [Hr I]. split; [by rewrite E|by eapply nexts_inv]. Qed.

(** A method takes steps, and its answer satisfies [Q]. *)
Definition method {A} (P : Database -> Prop) (f : SQLRepository -> PRes A * SQLRepository)
    (Q : A -> Database -> Prop) : Prop :=
  forall s, repo_ok s -> P (sql_db s) ->
  repo_moves s (snd (f s)) /\ forall a, fst (f s) = Ok a -> Q a (sql_db (snd (f s))).

Lemma with_reading_method {A} P (g : Reading -> Database -> PRes A * Database) Q :
  (forall t d, between_ok t -> inv d -> P d ->
     rtc next d (snd (g t d)) /\ forall a, fst (g t d) = Ok a -> Q a (snd (g t d))) ->
  method P (with_reading g) Q.
Proof.
  intros H s [Hr I] Ps. destruct (H (sql_readings s (sql_calls s)) (sql_db s) (Hr _) I Ps) as [H1 H2].
  unfold with_reading. destruct (g _ _) as [r d]. by split; [split|].
Qed.

Lemma no_steps {A} (e : PreviewError) (Q : A -> Database -> Prop) d :
  rtc next d (snd (Err e : PRes A, d)) /\ forall a, fst (Err e : PRes A, d) = Ok a -> Q a (snd (Err e : PRes A, d)).
Proof. by split; [apply rtc_refl|]. Qed.
Hint Resolve no_steps : core.

Lemma always_stable : stable (fun _ => True).
Proof. by intros d d' _ _. Qed.
Hint Resolve always_stable : core.

Lemma tx_steps_from {A} P (m : T A) t d : between_ok t -> inv d -> stable P -> P d -> commits P m (fun _ _ => True) ->
  rtc next d (snd (in_tx t m d)) /\ forall a, fst (in_tx t m d) = Ok a -> True.
Proof. intros Hb I HP Pd Hm. by apply (in_tx_commits P m (fun _ _ => True)). Qed.
Lemma tx_steps {A} (m : T A) t d : between_ok t -> inv d -> commits (fun _ => True) m (fun _ _ => True) ->
  rtc next d (snd (in_tx t m d)) /\ forall a, fst (in_tx t m d) = Ok a -> True.
Proof. intros Hb I. by apply tx_steps_from. Qed.

(** The row that an answer was read from. *)
Definition read_of (k : row_key) (a : Attachment) (d : Database) : Prop :=
  exists row, attachments d !! k = Some row /\ Binding a = Binding row
    /\ AttachmentGeneration a = AttachmentGeneration row /\ State a = State row
    /\ EdgeReady a = EdgeReady row /\ OriginReady a = OriginReady row /\ ExpiresAt a = ExpiresAt row.
Lemma read_seen k a d : inv d -> read_of k a d -> seen a d.
Proof.
  intros I (row & Hr & Hb & Hg & _). destruct k as [acc op]. by eapply scanned_seen.
Qed.

Lemma Get_method accountID operationID :
  method (fun _ => True) (sql_Get accountID operationID) (read_of (accountID, operationID)).
Proof.
  apply with_reading_method. intros t d _ I _. destruct (_ || _); [done|].
  unfold exec. destruct (t_outcome t 1); [|done..].
  apply (wp_scan_or accountID operationID ErrNotFound (fun r d' => rtc next d d' /\ forall a, r = Ok a ->
    read_of (accountID, operationID) a d')).
  - intros e. by split; [apply rtc_refl|].
  - intros a row Hr Hb Hg Hs He Ho Hx. split; [apply rtc_refl|]. intros ? [= <-]. by exists row.
Qed.

Lemma CreatePending_method a : method (fun _ => True) (sql_CreatePending timestamptz a) (fun _ _ => True).
Proof.
  apply with_reading_method. intros t d Hb I HP. destruct (_ || _); [done|].
  destruct (Attachment_Validate a 0); [done|]. destruct (hex_DecodeString _) as [h|]; [|done].
  destruct (negb _); [done|]. by apply tx_steps, create_commits.
Qed.
Lemma Admit_method a now : method (delivered a) (sql_Admit timestamptz a now) (fun _ _ => True).
Proof.
  apply with_reading_method. intros t d Hb I HP. destruct (validateRepositoryAttachment a); [done|].
  apply (tx_steps_from (delivered a)); [done..|intros d1 d2; apply delivered_stable|done|].
  apply transition_commits; [apply admit_commits|apply commits_ret].
Qed.
Lemma ObserveEdge_method a now : method (fun _ => True) (sql_ObserveEdge timestamptz a now) (fun _ _ => True).
Proof.
  apply with_reading_method. intros t d Hb I HP. destruct (validateRepositoryAttachment a); [done|].
  apply tx_steps; [done..|]. apply transition_commits; [apply observe_edge_commits|apply commits_ret].
Qed.
Lemma ObserveOrigin_method a b now :
  method (fun _ => True) (sql_ObserveOrigin timestamptz a b now) (fun _ _ => True).
Proof.
  apply with_reading_method. intros t d Hb I HP. destruct (validateRepositoryAttachment a); [done|].
  apply tx_steps; [done..|]. apply transition_commits; [apply observe_origin_commits|apply commits_ret].
Qed.
Lemma Renew_method a n now : method (fun _ => True) (sql_Renew timestamptz a n now) (fun _ _ => True).
Proof.
  apply with_reading_method. intros t d Hb I HP. destruct (validateRepositoryAttachment a); [done|].
  destruct (validateRepositoryAttachment n); [done|]. destruct (renew_conflict a n) eqn:E; [done|].
  cbv zeta. destruct (negb _); [done|]. apply tx_steps; [done..|]. apply renew_body_commits.
  unfold renew_conflict in E. cbv zeta in E. by bool_prop.
Qed.
Lemma Release_method a now : method (fun _ => True) (sql_Release timestamptz a now) (fun _ _ => True).
Proof.
  apply with_reading_method. intros t d Hb I HP. destruct (if isTerminal (State a) then _ else _); [done|]. cbv zeta.
  apply tx_steps; [done..|]. apply transition_commits; [apply release_commits|apply detach_commits].
Qed.

(** The methods that return an error only. *)
Definition action (P : Database -> Prop) (f : SQLRepository -> option PreviewError * SQLRepository) : Prop :=
  forall s, repo_ok s -> P (sql_db s) -> repo_moves s (snd (f s)).
Lemma method_action {A} P (g : SQLRepository -> PRes A * SQLRepository) Q h :
  method P g Q -> action P (fun s => let (r, s') := g s in (h r : option PreviewError, s')).
Proof. intros H s Hs Ps. destruct (H s Hs Ps) as [Hm _]. by destruct (g s). Qed.

Lemma Prepare_action a now : action (seen a) (sql_Prepare timestamptz a now).
Proof.
  unfold sql_Prepare. eapply (method_action _ _ (fun _ _ => True)), with_reading_method. intros t d Hb I HP.
  destruct (State a != StatePending); [done|]. destruct (Attachment_Validate a 0); [done|].
  apply (tx_steps_from (seen a)); [done..|intros d1 d2; apply seen_stable|done|apply prepare_commits].
Qed.

(** A statement on its own, which changes nothing when it fails. *)
Lemma exec_steps (m : T unit) t d : inv d -> commits (fun _ => True) m (fun _ _ => True) ->
  (forall e, fst (m d) = Err e -> snd (m d) = d) ->
  rtc next d (snd (exec t m d)) /\ forall a, fst (exec t m d) = Ok a -> True.
Proof.
  intros I Hm Hf. unfold exec. destruct (t_outcome t 1); [|done..]. specialize (Hm d I Logic.I).
  unfold wp in Hm. split; [|done]. destruct (m d) as [[[]|e] d'] eqn:E; cbn in *; [apply Hm|].
  rewrite (Hf e eq_refl). apply rtc_refl.
Qed.
Lemma Expire_action now : action (fun _ => True) (sql_Expire timestamptz now).
Proof.
  unfold sql_Expire. eapply (method_action _ _ (fun _ _ => True)), with_reading_method. intros t d Hb I HP.
  apply exec_steps; [done|apply expire_commits|]. intros e. unfold sql_expire. rewrite mbind_unfold. cbn [get].
  rewrite mbind_unfold. by destruct (existsb _ _).
Qed.
Lemma Requeue_action now : action (fun _ => True) (RequeuePreviewCarrierOutbox timestamptz now).
Proof.
  unfold RequeuePreviewCarrierOutbox. eapply (method_action _ _ (fun _ _ => True)), with_reading_method.
  intros t d Hb I HP. by apply exec_steps; [done|apply requeue_commits|].
Qed.

Lemma wp_epoch nodeID processEpoch now (Q : PRes unit -> Database -> Prop) d :
  (forall e, Q (Err e) d) -> Q (Ok tt) d -> wp (assertPreviewEdgeProcessEpochTx timestamptz nodeID processEpoch now) Q d.
Proof.
  intros HE HQ. unfold assertPreviewEdgeProcessEpochTx. apply wp_bind, wp_get.
  destruct (nodes d !! nodeID); [|by apply wp_throw]. apply wp_fail_if; auto.
Qed.

Lemma acknowledge_tx_commits nodeID processEpoch accountID operationID generation act now :
  commits (fun _ => True) (acknowledge_tx timestamptz nodeID processEpoch accountID operationID generation act now)
    (fun _ => delivered_to nodeID processEpoch (accountID, operationID, generation, act)).
Proof.
  intros d I _. apply wp_bind, wp_epoch; [done|]. apply wp_if; intros Ha; bool_prop.
  - rewrite Ha. by apply acknowledge_commits.
  - by apply mark_commits.
Qed.

(** A successful acknowledgement leaves the command delivered. *)
Lemma Acknowledge_delivers nodeID processEpoch accountID operationID generation act s :
  repo_ok s -> let (e, s') := AcknowledgePreviewCarrierOutbox timestamptz nodeID processEpoch accountID operationID
    generation act s in
  repo_moves s s' /\ (e = None -> delivered_to nodeID processEpoch (accountID, operationID, generation, act) (sql_db s')).
Proof.
  intros Hs. unfold AcknowledgePreviewCarrierOutbox.
  match goal with |- context [with_reading ?g s] => assert (H : method (fun _ => True) (with_reading g)
    (fun _ => delivered_to nodeID processEpoch (accountID, operationID, generation, act))) end.
  { apply with_reading_method. intros t d Hb I HP. destruct (_ || _); [done|].
    apply (in_tx_commits (fun _ => True) _ (fun _ => delivered_to nodeID processEpoch (accountID, operationID, generation, act)));
      [done..|apply acknowledge_tx_commits|done|done]. }
  destruct (H s Hs Logic.I) as [Hm Hq]. destruct (with_reading _ s) as [[[]|e] s']; (split; [done|]); [|done].
  intros _. by apply (Hq tt).
Qed.
Lemma Acknowledge_action nodeID processEpoch accountID operationID generation act :
  action (fun _ => True)
    (AcknowledgePreviewCarrierOutbox timestamptz nodeID processEpoch accountID operationID generation act).
Proof.
  intros s Hs _. pose proof (Acknowledge_delivers nodeID processEpoch accountID operationID generation act s Hs) as H.
  destruct (AcknowledgePreviewCarrierOutbox _ _ _ _ _ _ _ s). apply H.
Qed.

(** Pulling a snapshot changes nothing. *)
Lemma collect_snapshot nodeID processEpoch now keys d :
  snd (collect (snapshot_item nodeID processEpoch now) keys d) = d.
Proof.
  induction keys as [|key keys IH]; [done|]. cbn [collect].
  change (wp (y ← snapshot_item nodeID processEpoch now key; ys ← collect (snapshot_item nodeID processEpoch now) keys;
              ret (y :: ys)) (fun _ d' => d' = d) d).
  apply wp_bind. unfold snapshot_item. apply wp_bind, wp_scan_or; [done|]. intros a row _ _ _ _ _ _ _.
  apply wp_bind, wp_check; [done|intros _]. apply wp_ret, wp_bind. unfold wp.
  destruct (collect _ keys d) as [[ys|e] d']; by cbn in *.
Qed.

Lemma snapshot_body_reads nodeID processEpoch now c d :
  snd (snapshot_body timestamptz text_compare nodeID processEpoch now c d) = d.
Proof.
  unfold snapshot_body. destruct c as [keys items].
  pose proof (wp_epoch nodeID processEpoch now (fun _ d' => d' = d) d) as H. unfold wp in H.
  destruct (assertPreviewEdgeProcessEpochTx timestamptz nodeID processEpoch now d) as [[[]|e] d']; cbn in *;
    rewrite H by done; [|done]. destruct (_ <? _); [done|].
  match goal with |- context [collect ?f ?l d] => pose proof (collect_snapshot nodeID processEpoch now l d) as Hc;
    destruct (collect f l d) as [[s|e] d2] end; by cbn in *.
Qed.

Lemma PullSnapshot_method nodeID processEpoch :
  method (fun _ => True) (PullPreviewCarrierSnapshot timestamptz text_compare nodeID processEpoch) (fun _ _ => True).
Proof.
  apply with_reading_method. intros t d Hb I HP. destruct (_ || _); [done|].
  pose proof (loop_commits (fun _ => True) (fun _ _ _ => True)
    (snapshot_body timestamptz text_compare nodeID processEpoch (t_clock t)) t (maxAttempts - 1) 1 ([], []) d Hb) as H.
  destruct (in_tx_loop _ _ _ _ _ _) as [[[a|e] [keys items]] d']; (split; [|done]); apply H; try done;
    intros c d1 a1 c' d2 _ _ E; pose proof (snapshot_body_reads nodeID processEpoch (t_clock t) c d1) as Hr;
    rewrite E in Hr; cbn in Hr; subst d2; by split; [apply rtc_refl|].
Qed.

(** Pulling detach commands claims them. *)
Lemma claim_commits nodeID processEpoch key now :
  commits (fun _ => True) (sql_claim timestamptz nodeID processEpoch key now) (fun _ _ => True).
Proof.
  intros d I _. unfold sql_claim. apply wp_bind, wp_get. destruct (outbox d !! key) as [o|] eqn:Ho;
    [|by apply wp_ret; split; [apply rtc_refl|]].
  apply wp_if; intros Hc; [|by apply wp_ret; split; [apply rtc_refl|]]. apply wp_bind, wp_put, wp_ret.
  split; [|done]. apply rtc_once. eapply next_claim; [done|done| |done]. unfold claimable in Hc. bool_prop.
  match goal with H : _ || _ = true |- _ => apply orb_true_iff in H; destruct H end; bool_prop; congruence.
Qed.
Lemma claim_items_steps nodeID processEpoch now pending items d a items' d' : inv d ->
  claim_items timestamptz nodeID processEpoch now pending items d = (Ok a, items', d') -> rtc next d d'.
Proof.
  revert items d. induction pending as [|item pending IH]; intros items d I E; cbn [claim_items] in E.
  - injection E as <- <- <-. apply rtc_refl.
  - cbv zeta in E.
    match type of E with context [sql_claim _ _ _ ?key _ _] =>
      pose proof (claim_commits nodeID processEpoch key now d I Logic.I) as H; unfold wp in H;
      destruct (sql_claim timestamptz nodeID processEpoch key now d) as [[[|]|e] d1]; try done end.
    cbn in H. destruct H as [H _]. transitivity d1; [done|]. eapply IH; [|exact E]. by eapply nexts_inv.
Qed.
Lemma PullDetach_method nodeID processEpoch :
  method (fun _ => True) (PullPreviewCarrierDetachOutbox timestamptz text_compare nodeID processEpoch) (fun _ _ => True).
Proof.
  apply with_reading_method. intros t d Hb I HP. destruct (_ || _); [done|].
  pose proof (loop_commits (fun _ => True) (fun _ _ _ => True)
    (detach_body timestamptz text_compare nodeID processEpoch (t_clock t)) t (maxAttempts - 1) 1 [] d Hb) as H.
  destruct (in_tx_loop _ _ _ _ _ _) as [[[a|e] items] d']; (split; [|done]); apply H; try done;
    intros c d1 a1 c' d2 I1 _ E; (split; [|done]); unfold detach_body in E;
    pose proof (wp_epoch nodeID processEpoch (t_clock t) (fun _ d' => d' = d1) d1) as He; unfold wp in He;
    destruct (assertPreviewEdgeProcessEpochTx timestamptz nodeID processEpoch (t_clock t) d1) as [[[]|e'] d3];
    cbn in He; try done; rewrite He in E by done; cbv zeta in E; destruct (first_error _); try done;
    destruct (_ <? _); try done; by eapply claim_items_steps.
Qed.

(** The publisher accepts only what the edge acknowledged. *)
Definition accepts_delivered (request : AdmissionRequest) (delivery : AdmissionDelivery) (d : Database) : Prop :=
  Accepted delivery = true -> exists o,
  outbox d !! (Binding.AccountID (AdmissionRequest.Binding request), AdmissionRequest.OperationID request,
               AdmissionRequest.AttachmentGeneration request, "admit") = Some o /\ ob_state o = "delivered".
Lemma Publisher_method ctx request :
  method (fun _ => True) (OutboxAdmissionPublisher ctx request) (accepts_delivered request).
Proof.
  intros s Hs Ps. unfold OutboxAdmissionPublisher. destruct (ctx_nil ctx); [by split|].
  refine (with_reading_method (fun _ => True) _ (accepts_delivered request) _ s Hs Ps). clear s Hs Ps. intros t d Hb I HP. destruct (AdmissionRequest_Validate _ _); [done|].
  unfold exec. destruct (t_outcome t 1); [|done..]. rewrite mbind_unfold. cbn [get]. cbn [ret snd fst].
  split; [apply rtc_refl|]. intros a [= <-]. destruct (outbox d !! _) as [o|] eqn:E; [|done].
  destruct (ob_state o == "delivered") eqn:Hd; [|done]. bool_prop. by exists o.
Qed.
End Repository.

(** ** The service *)
Section Service.
Import Attachment.
Context (timestamptz : time -> time) (text_compare : string -> string -> comparison).
Context {X : Type} (authority : Context -> ResolveRequest -> X -> PRes Resolution * X).

#[local] Instance repository : AttachmentRepository SQLRepository := sql_repository timestamptz.
Abbreviation World := (ServiceWorld (Repo := SQLRepository) (X := X)).
Abbreviation Calls := (ServiceCall (Repo := SQLRepository) (X := X)).

(** The outbox is the publisher. *)
Definition outbox_publisher (ctx : Context) (request : AdmissionRequest) (sx : SQLRepository * X)
    : PRes AdmissionDelivery * (SQLRepository * X) :=
  let (r, s') := OutboxAdmissionPublisher ctx request (fst sx) in (r, (s', snd sx)).

Definition others_ok (f : World -> World) : Prop := forall w, repo_moves (repo w) (repo (f w)).
Definition service_call_ok (c : Calls) : Prop := forall i, others_ok (s_gap c i).

(** Every step of a call moves the repository on from where the call began. *)
Definition from (w0 w : World) : Prop := repo_moves (repo w0) (repo w).
Abbreviation goes_on w0 := (fun _ w => from w0 w).

Lemma wp_repo_call {A} c i P (f : SQLRepository -> PRes A * SQLRepository) Q w0 w
    (R : PRes A -> World -> Prop) :
  service_call_ok c -> repo_ok (repo w0) -> from w0 w -> stable P -> P (sql_db (repo w)) -> method P f Q ->
  (forall e w', from w0 w' -> R (Err e) w') ->
  (forall a w', from w0 w' -> from w w' -> inv (sql_db (repo w')) -> Q a (sql_db (repo w')) -> R (Ok a) w') ->
  wp (repo_call c i f) R w.
Proof.
  intros Hc H0 Hw HP Pw Hf HE HR. unfold repo_call, gap. apply wp_bind, wp_modify.
  set (w1 := s_gap c i w). assert (H1 : from w w1) by apply Hc. clearbody w1.
  assert (Hw1 : from w0 w1) by (unfold from in *; by transitivity (repo w)).
  destruct (Hf (repo w1)) as [Hm Hq]; [by eapply moves_ok|by eapply HP; [apply H1|]|].
  unfold wp. destruct (f (repo w1)) as [r s]. cbn in *.
  assert (H2 : from w0 (w1 <| repo := s |>)) by (unfold from in *; cbn; by transitivity (repo w1)).
  destruct r as [a|e]; cbn; [|by apply HE]. apply HR; [done| | |by apply Hq].
  - unfold from in *. cbn. by transitivity (repo w1).
  - cbn. by apply (moves_ok _ _ H2).
Qed.

Lemma wp_authorized_service c proof req w0 w (R : PRes Resolution -> World -> Prop) :
  from w0 w -> (forall e w', from w0 w' -> R (Err e) w') -> (forall a w', from w0 w' -> R (Ok a) w') ->
  wp (service_authorized authority c proof req) R w.
Proof.
  intros Hw HE HR. unfold service_authorized. apply wp_bind, wp_check; [by auto|intros _].
  apply wp_bind, wp_fail_if; intros _; [by apply HE|]. apply wp_bind. unfold wp.
  destruct (authority _ _ _) as [[res|e] x]; cbn; [|by apply HE].
  match goal with |- R (fst (?m ?w')) _ => change (wp m R w'); assert (Hw' : from w0 w') by done end.
  apply wp_bind, wp_check; [by auto|intros _]. apply wp_bind, wp_check; [by auto|intros _]. by apply wp_ret, HR.
Qed.

Ltac svc_step :=
  lazymatch goal with
  | |- wp (check _ ≫= _) _ _ => apply wp_bind, wp_check; [by intros|intros _]
  | |- wp (fail_if _ _ ≫= _) _ _ => apply wp_bind, wp_fail_if; intros _; [done|]
  | |- wp (lift ?r ≫= _) _ _ => apply wp_bind, wp_lift; destruct r as [?|?]; [|done]
  | |- wp (if _ then _ else _) _ _ => apply wp_if; intros _
  | |- wp (ret _) _ _ => by apply wp_ret
  | |- wp (throw _) _ _ => by apply wp_throw
  | |- wp (service_authorized _ _ _ _ ≫= _) _ _ =>
      apply wp_bind; eapply wp_authorized_service; [done|by intros|intros ? ? ?]
  end; cbv zeta beta.
Ltac call_always lem :=
  eapply (wp_repo_call _ _ (fun _ => True)); [done|done|done|apply always_stable|done|apply lem|by intros|intros ? ? ? _ _ _].

Section Calls.
Context (w : World) (Hok : repo_ok (repo w)) (c : Calls) (Hc : service_call_ok c).

Lemma from_here : from w w.
Proof. unfold from. reflexivity. Qed.
Hint Resolve from_here : core.

Lemma allocate_goes_on proof req : wp (Service_Allocate authority c proof req) (goes_on w) w.
Proof using Hc Hok.
  unfold Service_Allocate. repeat svc_step. apply wp_bind. call_always CreatePending_method.
  repeat svc_step. by call_always Renew_method.
Qed.
Lemma observe_edge_goes_on req binding generation : wp (Service_ObserveEdge c req binding generation) (goes_on w) w.
Proof using Hc Hok.
  unfold Service_ObserveEdge. repeat svc_step. apply wp_bind. call_always Get_method.
  repeat svc_step. by call_always ObserveEdge_method.
Qed.
Lemma observe_origin_goes_on proof req binding generation b :
  wp (Service_ObserveOrigin authority c proof req binding generation b) (goes_on w) w.
Proof using Hc Hok.
  unfold Service_ObserveOrigin. repeat svc_step. apply wp_bind. call_always Get_method.
  repeat svc_step; by call_always ObserveOrigin_method.
Qed.
Lemma renew_goes_on proof req generation : wp (Service_Renew authority c proof req generation) (goes_on w) w.
Proof using Hc Hok.
  unfold Service_Renew. repeat svc_step. apply wp_bind. call_always Get_method.
  repeat svc_step. by call_always Renew_method.
Qed.
Lemma release_goes_on proof req handle generation :
  wp (Service_Release c proof req handle generation) (goes_on w) w.
Proof using Hc Hok.
  unfold Service_Release. repeat svc_step. apply wp_bind. call_always Get_method.
  repeat svc_step. by call_always Release_method.
Qed.
Lemma get_goes_on accountID operationID : wp (Service_Get c accountID operationID) (goes_on w) w.
Proof using Hc Hok. unfold Service_Get. repeat svc_step. by call_always Get_method. Qed.

(** A method that returns an error only, as the service calls it. *)
Lemma action_method P (f : SQLRepository -> option PreviewError * SQLRepository) : action P f ->
  method P (fun s => let (e, s') := f s in (match e with Some e => Err e | None => Ok tt end, s')) (fun _ _ => True).
Proof. intros H s Hs Ps. specialize (H s Hs Ps). by destruct (f s). Qed.

Lemma expire_goes_on : wp (Service_Expire c) (goes_on w) w.
Proof using Hc Hok.
  unfold Service_Expire. repeat svc_step. cbn [Repo_Expire repository sql_repository].
  eapply (wp_repo_call _ _ (fun _ => True)); [done|done|done|apply always_stable|done| |by intros|by intros].
  apply action_method, Expire_action.
Qed.

(** What an accepted publication of the outbox means. *)
Lemma wp_publish i current admission w1 (R : PRes (PRes AdmissionDelivery) -> World -> Prop) :
  from w w1 -> Attachment_AdmissionRequest current = Ok admission ->
  (forall r w', from w w' -> (is_accepted r = true -> delivered current (sql_db (repo w'))) -> R (Ok r) w') ->
  wp (service_publish outbox_publisher c i current admission) R w1.
Proof using Hc Hok.
  intros Hw1 Ha HR. unfold service_publish, gap. apply wp_bind, wp_modify.
  set (w2 := s_gap c i w1). assert (H2 : from w w2) by (unfold from in *; etransitivity; [done|apply Hc]). clearbody w2.
  destruct (Publisher_method (s_ctx c) admission (repo w2)) as [Hm Hq]; [by eapply moves_ok|done|].
  unfold wp, outbox_publisher. cbn [fst snd]. destruct (OutboxAdmissionPublisher _ _ _) as [r s]. cbn in *.
  apply HR; [unfold from in *; cbn; by transitivity (repo w2)|]. cbn. destruct r as [delivery|e]; [|done].
  intros Hd. destruct (Hq delivery eq_refl Hd) as (o & Ho & Hst). exists o. split; [|done].
  unfold Attachment_AdmissionRequest in Ha. destruct (AdmissionRequest_Validate _ _); [done|]. by injection Ha as <-.
Qed.

Lemma admit_goes_on has_publisher proof req binding generation :
  wp (Service_Admit authority outbox_publisher has_publisher c proof req binding generation) (goes_on w) w.
Proof using Hc Hok.
  unfold Service_Admit. repeat svc_step. apply wp_bind.
  eapply (wp_repo_call _ _ (fun _ => True)); [done|done|done|apply always_stable|done|apply Get_method|by intros|].
  intros current w1 H1 _ I1 Hread. apply read_seen in Hread; [|done].
  repeat svc_step. apply wp_bind. unfold service_prepare. cbn [Repo_Prepare repository sql_repository].
  eapply (wp_repo_call _ _ (seen current)); [done|done|done|intros d1 d2; apply seen_stable|done
    |apply action_method, Prepare_action|by intros|]. intros [] w2 H2 _ _ _.
  apply wp_bind, wp_lift. destruct (Attachment_AdmissionRequest current) as [admission|] eqn:Ha; [|done].
  apply wp_bind. eapply wp_publish; [done|done|]. intros r w3 H3 Hd. apply wp_bind, wp_fail_if; intros Hacc; [done|].
  bool_prop. eapply (wp_repo_call _ _ (delivered current)); [done|done|done|intros d1 d2; apply delivered_stable
    |by apply Hd|apply Admit_method|by intros|by intros].
Qed.

(** The row behind a passed gate. *)
Definition row_serves (accountID previewID operationID ownerDeviceID ownerSessionID : string) (now : time)
    (d : Database) : Prop :=
  exists row, attachments d !! (accountID, operationID) = Some row /\ State row = StateReady
    /\ EdgeReady row = true /\ OriginReady row = true /\ now < ExpiresAt row
    /\ Binding.PreviewID (Binding row) = previewID /\ Binding.OwnerDeviceID (Binding row) = ownerDeviceID
    /\ Binding.OwnerSessionID (Binding row) = ownerSessionID
    /\ acked_carrier (acks d) (Binding row).

Lemma gate_goes_on accountID previewID operationID ownerDeviceID ownerSessionID :
  wp (RequirePreviewAttachmentReady c accountID previewID operationID ownerDeviceID ownerSessionID)
    (fun r w' => from w w' /\ (r = Ok tt ->
       row_serves accountID previewID operationID ownerDeviceID ownerSessionID (s_now c) (sql_db (repo w')))) w.
Proof using Hc Hok.
  unfold RequirePreviewAttachmentReady. apply wp_bind, wp_fail_if; intros _; [done|].
  apply wp_bind, wp_fail_if; intros _; [done|]. apply wp_bind.
  eapply (wp_repo_call _ _ (fun _ => True)); [done|done|done|apply always_stable|done|apply Get_method|done|].
  intros a w1 H1 _ I1 (row & Hr & Hb & Hg & Hs & He & Ho & Hx). cbv zeta.
  apply wp_bind, wp_fail_if; intros Hids; [done|]. apply wp_fail_if; intros Hst; (split; [done|]); [done|]. intros _.
  unfold After in *. bool_prop. exists row. split; [done|]. split; [congruence|]. split; [congruence|].
  split; [congruence|]. split; [rewrite <- Hx; done|]. do 3 (split; [congruence|]).
  destruct (inv_row _ I1 _ _ Hr) as (_ & _ & _ & Ha). apply Ha. unfold edge_phase.
  by replace (State row) with StateReady by congruence.
Qed.
End Calls.

(** ** Runs *)
Inductive production : World -> World -> Prop :=
| run_allocate c proof req w : service_call_ok c -> production w (snd (Service_Allocate authority c proof req w))
| run_admit c has_publisher proof req binding generation w : service_call_ok c ->
    production w (snd (Service_Admit authority outbox_publisher has_publisher c proof req binding generation w))
| run_edge c req binding generation w : service_call_ok c ->
    production w (snd (Service_ObserveEdge c req binding generation w))
| run_origin c proof req binding generation b w : service_call_ok c ->
    production w (snd (Service_ObserveOrigin authority c proof req binding generation b w))
| run_renew c proof req generation w : service_call_ok c ->
    production w (snd (Service_Renew authority c proof req generation w))
| run_release c proof req handle generation w : service_call_ok c ->
    production w (snd (Service_Release c proof req handle generation w))
| run_get c accountID operationID w : service_call_ok c -> production w (snd (Service_Get c accountID operationID w))
| run_expire c w : service_call_ok c -> production w (snd (Service_Expire c w))
| run_gate c accountID previewID operationID ownerDeviceID ownerSessionID w : service_call_ok c ->
    production w
      (snd (RequirePreviewAttachmentReady c accountID previewID operationID ownerDeviceID ownerSessionID w))
| run_acknowledge nodeID processEpoch accountID operationID generation act w :
    production w (w <| repo := snd (AcknowledgePreviewCarrierOutbox timestamptz nodeID processEpoch accountID
                                      operationID generation act (repo w)) |>)
| run_snapshot nodeID processEpoch w :
    production w (w <| repo := snd (PullPreviewCarrierSnapshot timestamptz text_compare nodeID processEpoch (repo w)) |>)
| run_detach nodeID processEpoch w :
    production w (w <| repo := snd (PullPreviewCarrierDetachOutbox timestamptz text_compare nodeID processEpoch (repo w)) |>)
| run_requeue now w : production w (w <| repo := snd (RequeuePreviewCarrierOutbox timestamptz now (repo w)) |>)
| run_tables l n w :  (** other parts of the system, on their own tables *)
    production w (w <| repo := (repo w) <| sql_db := (sql_db (repo w)) <| leases := l |> <| nodes := n |> |> |>).

Lemma production_moves w w' : production w w' -> repo_ok (repo w) -> repo_moves (repo w) (repo w').
Proof.
  destruct 1; intros Hok.
  - by apply allocate_goes_on.
  - by apply admit_goes_on.
  - by apply observe_edge_goes_on.
  - by apply observe_origin_goes_on.
  - by apply renew_goes_on.
  - by apply release_goes_on.
  - by apply get_goes_on.
  - by apply expire_goes_on.
  - by apply gate_goes_on.
  - by apply Acknowledge_action.
  - by apply PullSnapshot_method.
  - by apply PullDetach_method.
  - by apply Requeue_action.
  - split; [done|]. by apply rtc_once, next_tables.
Qed.
Lemma runs_move w w' : rtc production w w' -> repo_ok (repo w) -> repo_moves (repo w) (repo w').
Proof.
  induction 1 as [|w w1 w' H _ IH]; intros Hok; [reflexivity|].
  pose proof (production_moves _ _ H Hok) as Hm. transitivity (repo w1); [done|]. apply IH. by eapply moves_ok.
Qed.

(** Empty tables, and other transactions that take steps of their own. *)
Record empty_start (w : World) : Prop := {
  start_rows : attachments (sql_db (repo w)) = ∅;
  start_commands : outbox (sql_db (repo w)) = ∅;
  start_between : forall n, between_ok (sql_readings (repo w) n);
}.
Lemma start_ok w : empty_start w -> repo_ok (repo w).
Proof. intros [Hr Hc Hb]. split; [done|]. split; rewrite ?Hr, ?Hc; intros *; by rewrite ?lookup_empty. Qed.
Lemma reachable_ok w0 w : empty_start w0 -> rtc production w0 w -> repo_ok (repo w).
Proof. intros Hs Hr. pose proof (start_ok _ Hs). by eapply moves_ok; [eapply runs_move|]. Qed.

(** C7. In production a route is in use only if its edge said so: in every run of the attachment
    service over the SQL repository and its outbox, with the calls of edges and any other
    transactions in between, a stored attachment that is admitted, edge-ready or ready was
    acknowledged by the edge node and the edge process that its binding names, for a binding of
    the same data carrier. *)
Theorem rows_in_use_are_acknowledged w0 w k row :
  empty_start w0 -> rtc production w0 w -> attachments (sql_db (repo w)) !! k = Some row ->
  EdgeReady row = true \/ State row = StateAdmitted ->
  exists ack, ack ∈ acks (sql_db (repo w)) /\ ack_node ack = Binding.EdgeNodeID (Binding row)
    /\ ack_epoch ack = Binding.EdgeProcessEpoch (Binding row)
    /\ dataCarrierBindingEqual (ack_binding ack) (Binding row) = true.
Proof.
  intros Hs Hr Hk He. destruct (reachable_ok _ _ Hs Hr) as [_ I].
  destruct (inv_row _ I _ _ Hk) as (_ & _ & (s & R & _) & Ha).
  destruct Ha as (a & Hin & [H1 H2] & Hd); [|by exists a].
  unfold edge_phase. destruct He as [He|He]; [|by rewrite He].
  rewrite (rep_state _ _ R). rewrite (rep_edge _ _ R) in He. by destruct (Spec.ph s).
Qed.

(** A row follows the machine as the tables move on. *)
Lemma nexts_follow d d' k row s : rtc next d d' -> inv d -> attachments d !! k = Some row -> represents row s ->
  exists row' s', attachments d' !! k = Some row' /\ rtc spec_step s s' /\ represents row' s'.
Proof.
  intros H. revert row s. induction H as [d|d d1 d' Hn _ IH]; intros row s I Hr Rs.
  - exists row, s. split; [done|]. split; [apply rtc_refl|done].
  - pose proof (next_inv _ _ Hn I) as I1. destruct (next_forth _ _ _ _ Hn Hr) as (r1 & Hr1 & [->|[Hm Hch]]).
    + by apply (IH row s).
    + destruct (inv_row _ I _ _ Hr) as (_ & Hg & _).
      destruct (change_spec _ _ _ _ Hch Rs) as (s1 & Ht & R1); [lia|].
      destruct (IH r1 s1 I1 Hr1 R1) as (row' & s' & H1 & H2 & H3). exists row', s'.
      split; [done|]. split; [by eapply rtc_l|done].
Qed.

(** C8. The SQL rows implement the same abstract machine of phases as the in-memory manager:
    every stored attachment represents a state that the machine reaches from pending, generation
    one, and however the tables change further, the row stays and its machine only takes steps,
    each one generation ahead. *)
Theorem rows_refine_phases w0 w :
  empty_start w0 -> rtc production w0 w ->
  (forall k row, attachments (sql_db (repo w)) !! k = Some row -> exists s, represents row s
     /\ rtc spec_step (Spec.mk Spec.Pending 1 (identity (Binding row))) s)
  /\ (forall w' k row s, rtc production w w' -> attachments (sql_db (repo w)) !! k = Some row -> represents row s ->
     exists row' s', attachments (sql_db (repo w')) !! k = Some row' /\ rtc spec_step s s' /\ represents row' s').
Proof.
  intros Hs Hr. pose proof (reachable_ok _ _ Hs Hr) as Hok. split.
  - intros k row Hk. destruct (inv_row _ (proj2 Hok) _ _ Hk) as (_ & _ & Hsp & _). exact Hsp.
  - intros w' k row s Hr' Hk Rs. destruct (runs_move _ _ Hr' Hok) as [_ Hn].
    by eapply nexts_follow; [..|exact (proj2 Hok)| |].
Qed.

Lemma represents_state row s : represents row s -> state_error row = None.
Proof.
  intros [H1 H2 H3 H4 H5 _ _]. unfold state_error. rewrite H1, H2, H3, H4, H5. by destruct (Spec.ph s).
Qed.

(** C9. Every stored attachment is well formed: it is stored under its account and operation,
    its generation is a positive bigint, its readiness flags and times pass the state check of
    Attachment.Validate, and no other row of the account has its idempotency key or is live for
    the same preview. *)
Theorem stored_rows_are_well_formed w0 w k row :
  empty_start w0 -> rtc production w0 w -> attachments (sql_db (repo w)) !! k = Some row ->
  k = (Binding.AccountID (Binding row), Binding.OperationID (Binding row))
  /\ 1 <= AttachmentGeneration row <= max_int64 /\ state_error row = None
  /\ forall k' row', attachments (sql_db (repo w)) !! k' = Some row' ->
       Binding.AccountID (Binding row) = Binding.AccountID (Binding row') ->
       (Binding.PreviewID (Binding row) = Binding.PreviewID (Binding row') /\ isTerminal (State row) = false
        /\ isTerminal (State row') = false) \/ IdempotencyKey row = IdempotencyKey row' -> k = k'.
Proof.
  intros Hs Hr Hk. destruct (reachable_ok _ _ Hs Hr) as [_ I].
  destruct (inv_row _ I _ _ Hk) as (Hkey & Hg & (s & R & _) & _). split; [done|]. split; [done|].
  split; [by eapply represents_state|]. intros k' row' Hk' Ha Hc.
  destruct (decide (k = k')) as [|Hne]; [done|]. by destruct (inv_unique _ I _ _ _ _ Hk Hk' Hne).
Qed.

(** C10. When the readiness gate of a preview passes, the repository holds the attachment of
    exactly that account, preview, operation, device and owner session, it is ready at edge and
    origin and has not expired, and its edge process acknowledged its carrier. *)
Theorem passed_gate_is_serving w0 w w' c accountID previewID operationID ownerDeviceID ownerSessionID :
  empty_start w0 -> rtc production w0 w -> service_call_ok c ->
  RequirePreviewAttachmentReady c accountID previewID operationID ownerDeviceID ownerSessionID w = (Ok tt, w') ->
  row_serves accountID previewID operationID ownerDeviceID ownerSessionID (s_now c) (sql_db (repo w')).
Proof.
  intros Hs Hr Hc E. pose proof (reachable_ok _ _ Hs Hr) as Hok.
  pose proof (gate_goes_on w Hok c Hc accountID previewID operationID ownerDeviceID ownerSessionID) as H.
  unfold wp in H. rewrite E in H. by apply H.
Qed.
End Service.

(** ** The authority of the server *)

(** It answers for the preview that was asked about, whatever its lease source and
    its allocator do. *)
#[export] Instance server_authority_faithful {X}
    (resolve : Context -> LeaseLookupRequest -> X -> PRes LeaseSnapshot * X)
    (allocate : Context -> PreviewCarrierAllocationRequest -> X -> PRes PreviewCarrierAllocation * X) :
  FaithfulAuthority (ServerAuthority resolve allocate).
Proof.
  intros ctx rr x resolution x' E.
  assert (H : wp (ServerAuthority resolve allocate ctx rr) (fun r _ => forall resolution, r = Ok resolution ->
    LeaseSnapshot.PreviewID (Resolution.Lease resolution) = Request.PreviewID (rr_Request rr)) x).
  { unfold ServerAuthority. cbv zeta. apply wp_bind, wp_fail_if; intros _; [done|].
    apply wp_bind, wp_check; [done|intros _]. apply wp_bind, wp_check; [done|intros _].
    apply wp_bind, wp_fail_if; intros _; [done|]. apply wp_bind. unfold wp at 1.
    destruct (resolve _ _ x) as [[lease|e] x1]; cbn [fst snd]; [|done].
    apply wp_bind, wp_fail_if; intros Hl; [done|]. apply wp_bind, wp_lift.
    destruct (Request_Hash _ _) as [hash|e]; [|done]. apply wp_bind. unfold wp at 1.
    destruct (allocate _ _ x1) as [[al|e] x2]; cbn [fst snd]; [|done].
    apply wp_ret. intros res [= <-]. cbn. by bool_prop. }
  unfold wp in H. rewrite E in H. by apply H.
Qed.

(** * The edge's snapshot is complete

    [PullPreviewCarrierSnapshot] of [PreviewSql]: an edge removes the routes that
    a snapshot does not list, so a snapshot lists every live row of the edge
    process, once, or it is refused. *)

Section Ordering.
Context {A : Type} (cmp : A -> A -> comparison).

Lemma insert_by_perm (le : A -> A -> bool) x l : insert_by le x l ≡ₚ x :: l.
Proof. induction l as [|y l IH]; [done|]. cbn. destruct (le x y); [done|]. rewrite IH. apply Permutation_swap. Qed.
Lemma order_by_perm l : order_by cmp l ≡ₚ l.
Proof. induction l as [|x l IH]; [done|]. unfold order_by in *. cbn [foldr]. by rewrite insert_by_perm, IH. Qed.

(** A prefix shorter than its bound is the whole list. *)
Lemma firstn_short n (l : list A) : (length (firstn n l) < n)%nat -> firstn n l = l.
Proof. rewrite length_firstn. intros H. apply firstn_all2. lia. Qed.
End Ordering.

Section Snapshot.
Import Attachment.
Context (timestamptz : time -> time) (text_compare : string -> string -> comparison).
Context (nodeID processEpoch : string).

(** What the snapshot says of a row. *)
Definition entry_of_item (i : PreviewCarrierOutboxItem) : row_key * Binding.Binding * Z * string :=
  ((PreviewCarrierOutboxItem.AccountID i, PreviewCarrierOutboxItem.OperationID i),
   PreviewCarrierOutboxItem.Binding i, PreviewCarrierOutboxItem.AttachmentGeneration i,
   PreviewCarrierOutboxItem.State i).
Definition entry_of_row (d : Database) (entry : row_key * Attachment) : row_key * Binding.Binding * Z * string :=
  (fst entry, Binding (snd entry), command_generation d (snd entry), State (snd entry)).
Definition live_entries (now : time) (d : Database) : list (row_key * Attachment) :=
  filter (fun entry => live_on timestamptz nodeID processEpoch now d (snd entry) = true) (map_to_list (attachments d)).

Definition key_of_row (d : Database) (entry : row_key * Attachment) : snapshotKey :=
  mkSnapshotKey (Binding.AccountID (Binding (snd entry))) (Binding.OperationID (Binding (snd entry)))
    (command_generation d (snd entry)).

Lemma pulled_keys now d : order_by (compare_keys text_compare)
    (omap (fun '(_, row) =>
       if live_on timestamptz nodeID processEpoch now d row
       then Some (mkSnapshotKey (Binding.AccountID (Binding row)) (Binding.OperationID (Binding row))
                    (command_generation d row))
       else None) (map_to_list (attachments d)))
  ≡ₚ key_of_row d <$> live_entries now d.
Proof.
  rewrite order_by_perm. unfold live_entries. induction (map_to_list (attachments d)) as [|[k row] l IH]; [done|].
  cbn [omap]. rewrite filter_cons. cbn [snd]. destruct (live_on _ _ _ _ _ _) eqn:E.
  - rewrite decide_True by done. cbn. rewrite E. by rewrite <- IH.
  - rewrite decide_False by done. cbn. rewrite E. exact IH.
Qed.

Lemma collected now keys d items d' : collect (snapshot_item nodeID processEpoch now) keys d = (Ok items, d') ->
  Forall2 (fun key i => exists row, attachments d !! (accountID key, operationID key) = Some row
    /\ entry_of_item i = (key_of_binding (Binding row), Binding row, commandGeneration key, State row)) keys items.
Proof.
  revert items d'. induction keys as [|key keys IH]; intros items d' E; cbn [collect] in E.
  - injection E as <- <-. constructor.
  - rewrite mbind_unfold in E.
    assert (Hi : wp (snapshot_item nodeID processEpoch now key) (fun r d1 => d1 = d /\ forall i, r = Ok i ->
      exists row, attachments d !! (accountID key, operationID key) = Some row
      /\ entry_of_item i = (key_of_binding (Binding row), Binding row, commandGeneration key, State row)) d).
    { unfold snapshot_item. apply wp_bind, wp_scan_or; [done|]. intros a row Hr Hb Hg Hs _ _ _. cbv zeta.
      apply wp_bind, wp_check; [done|intros _]. apply wp_ret. split; [done|]. intros i [= <-]. exists row.
      split; [done|]. unfold entry_of_item, key_of_binding. cbn. congruence. }
    unfold wp in Hi. destruct (snapshot_item nodeID processEpoch now key d) as [[i|e] d1]; [|done].
    cbn in Hi. destruct Hi as [-> Hi]. rewrite mbind_unfold in E.
    destruct (collect (snapshot_item nodeID processEpoch now) keys d) as [[items'|e] d2] eqn:Ec; [|done].
    injection E as <- <-. constructor; [by apply Hi|by eapply IH].
Qed.

(** The rows that the items were read from are the live ones. *)
Lemma entries_match d (l : list (row_key * Attachment)) items : inv d ->
  (forall k row, (k, row) ∈ l -> attachments d !! k = Some row) ->
  Forall2 (fun key i => exists row, attachments d !! (accountID key, operationID key) = Some row
    /\ entry_of_item i = (key_of_binding (Binding row), Binding row, commandGeneration key, State row))
    (key_of_row d <$> l) items ->
  entry_of_item <$> items = entry_of_row d <$> l.
Proof.
  intros I. revert items. induction l as [|[k row] l IH]; intros items Hl HF; cbn in HF.
  - by apply Forall2_nil_inv_l in HF as ->.
  - apply Forall2_cons_inv_l in HF as (i & items' & (row' & Hr' & Hi) & HF & ->). cbn. f_equal.
    + assert (Hr : attachments d !! k = Some row) by (apply Hl; left).
      destruct (inv_row _ I _ _ Hr) as [Hk _]. cbn in Hr'. unfold key_of_binding in Hk. rewrite <- Hk, Hr in Hr'.
      injection Hr' as <-. rewrite Hi. unfold entry_of_row, key_of_binding. cbn. by rewrite <- Hk.
    + apply IH; [|done]. intros k' row1 Hin. apply Hl. by right.
Qed.

(** C11. A snapshot that an edge pulls, unless its transaction was retried, lists exactly the
    live attachments of the edge process, each once, with the row's binding and state and the
    generation of its command, and changes nothing; a set beyond the bound is refused, never
    cut. *)
Theorem snapshot_is_complete {X} (authority : Context -> ResolveRequest -> X -> PRes Resolution * X) w0 w s' items :
  let s := repo w in
  let d := sql_db s in
  let t := sql_readings s (sql_calls s) in
  empty_start w0 -> rtc (production timestamptz text_compare authority) w0 w -> t_outcome t 1 <> Conflicts ->
  PullPreviewCarrierSnapshot timestamptz text_compare nodeID processEpoch s = (Ok items, s') ->
  entry_of_item <$> items ≡ₚ entry_of_row d <$> live_entries (t_clock t) d /\ sql_db s' = d.
Proof.
  intros s d t H0 Hr Ht E. destruct (reachable_ok _ _ _ _ _ H0 Hr) as [_ I]. fold s d in I. unfold PullPreviewCarrierSnapshot, with_reading in E. fold d t in E.
  destruct (negb (validID nodeID) || _) eqn:Ev; [done|]. cbn [maxAttempts Nat.sub in_tx_loop] in E.
  pose proof (snapshot_body_reads timestamptz text_compare nodeID processEpoch (t_clock t) ([], []) d) as Hread.
  destruct (snapshot_body timestamptz text_compare nodeID processEpoch (t_clock t) ([], []) d)
    as [[r [keys its]] d'] eqn:Eb. cbn in Hread. subst d'.
  destruct r as [[]|e]; [|done]. destruct (t_outcome t 1); [|done..]. injection E as -> <-. split; [|done].
  unfold snapshot_body in Eb. cbv zeta in Eb.
  pose proof (wp_epoch timestamptz nodeID processEpoch (t_clock t) (fun _ d' => d' = d) d) as He. unfold wp in He.
  destruct (assertPreviewEdgeProcessEpochTx timestamptz nodeID processEpoch (t_clock t) d) as [[[]|e'] d3];
    [|done]. cbn in He. rewrite He in Eb by done. cbn [app] in Eb.
  destruct (maxPreviewCarrierAdmissions <? _) eqn:El; [done|]. bool_prop.
  destruct (collect _ _ d) as [[snap|e''] d4] eqn:Ec; [|done]. injection Eb as <- <- _.
  apply collected in Ec. unfold sql_pull_snapshot in *. rewrite firstn_short in Ec
    by (unfold maxPreviewCarrierAdmissions in *; lia). 
  destruct (Permutation_Forall2 (pulled_keys (t_clock t) d) Ec) as (items' & -> & HF).
  rewrite (entries_match d (live_entries (t_clock t) d) items' I); [done| |done].
  intros k row Hin. apply list_elem_of_filter in Hin as [_ Hin]. by apply elem_of_map_to_list in Hin.
Qed.

(** ** Acknowledging again *)
Lemma acknowledge_tx_again accountID operationID generation act now o d :
  outbox d !! (accountID, operationID, generation, act) = Some o -> scoped nodeID processEpoch o = true ->
  ob_state o = "delivered" ->
  fst (assertPreviewEdgeProcessEpochTx timestamptz nodeID processEpoch now d) = Ok tt ->
  acknowledge_tx timestamptz nodeID processEpoch accountID operationID generation act now d = (Ok tt, d).
Proof.
  intros Ho Hs Hd He. unfold acknowledge_tx, mbind at 1, M_bind, bind.
  pose proof (wp_epoch timestamptz nodeID processEpoch now (fun _ d' => d' = d) d) as Hw. unfold wp in Hw.
  destruct (assertPreviewEdgeProcessEpochTx _ _ _ _ d) as [r d']. cbn in *. subst r. rewrite Hw by done.
  destruct (act == "admit") eqn:Ea; bool_prop.
  - subst act. unfold acknowledgeAdmissionTx. cbv zeta. unfold mbind, M_bind, bind, get. by rewrite Ho, Hs, Hd.
  - unfold markPreviewCarrierOutboxDeliveredTx, sql_acknowledge, sql_delivered.
    unfold mbind, M_bind, bind, get. rewrite Ho, Hs, Hd.
    replace (true && ("delivered" != "delivered")) with false by done. unfold ret. cbv beta iota. by rewrite Ho, Hs, Hd.
Qed.

(** C12. An edge may repeat an acknowledgement after a lost response: once an acknowledgement
    succeeded, and whatever calls follow, the same acknowledgement of the still registered edge
    process succeeds again when its transaction commits and changes no table. *)
Theorem repeated_acknowledgement_is_a_no_op {X} (authority : Context -> ResolveRequest -> X -> PRes Resolution * X)
    w0 w w' s1 accountID operationID generation act :
  empty_start w0 -> rtc (production timestamptz text_compare authority) w0 w ->
  AcknowledgePreviewCarrierOutbox timestamptz nodeID processEpoch accountID operationID generation act (repo w)
    = (None, s1) ->
  rtc (production timestamptz text_compare authority) (w <| repo := s1 |>) w' ->
  let t := sql_readings (repo w') (sql_calls (repo w')) in
  t_outcome t 1 = Commits ->
  fst (assertPreviewEdgeProcessEpochTx timestamptz nodeID processEpoch (t_clock t) (sql_db (repo w'))) = Ok tt ->
  let (e, s2) := AcknowledgePreviewCarrierOutbox timestamptz nodeID processEpoch accountID operationID generation act
    (repo w') in
  e = None /\ sql_db s2 = sql_db (repo w').
Proof.
  intros H0 Hr E Hr' t Ht He. pose proof (reachable_ok _ _ _ _ _ H0 Hr) as Hok.
  pose proof (Acknowledge_delivers timestamptz nodeID processEpoch accountID operationID generation act _ Hok) as H.
  rewrite E in H. destruct H as [Hm Hd]. specialize (Hd eq_refl).
  assert (Hok1 : repo_ok (repo (w <| repo := s1 |>))) by (cbn; by eapply moves_ok).
  destruct (runs_move _ _ _ _ _ Hr' Hok1) as [_ Hn]. cbn in Hn. apply (delivered_to_stable _ _ _ _ _ Hn) in Hd.
  destruct Hd as (o & Ho & Hs & Hst).
  assert (Hv : negb (validID nodeID) || negb (ok (ValidateOpaqueEpoch processEpoch)) || negb (validID accountID)
       || negb (validID operationID) || (generation =? 0) || ((act != "admit") && (act != "detach")) = false).
  { unfold AcknowledgePreviewCarrierOutbox, with_reading in E. by destruct (_ || _). }
  unfold AcknowledgePreviewCarrierOutbox, with_reading. fold t. rewrite Hv.
  assert (Htx : acknowledge_tx timestamptz nodeID processEpoch accountID operationID generation act (t_clock t)
      (sql_db (repo w')) = (Ok tt, sql_db (repo w'))) by (by apply acknowledge_tx_again with o).
  unfold in_tx. cbn [maxAttempts Nat.sub in_tx_loop]. by rewrite Htx, Ht.
Qed.
End Snapshot.
