(* ===== verification/PrivateContract.v ===== *)
(** * The contract of private access

    src/internal/privateaccess/contract.go: identities, requests for a private
    route, the authoritative binding behind one, decisions and audit records,
    with their validation, and the texts whose hashes bind a grant to its request
    and a retry to its first attempt.  The errors are the sentinels of the package
    and its typed denial; the text that wraps a sentinel is not kept. *)
From S2P Require Import Prelude GoText GoHash GoUrl GoJson GoTime GoStruct GoNet Errors Transcripts.
From S2P Require PreviewContract.

Definition Schema : string := "paperboat.preview-tunnel/v1".
Definition Kind : string := "private_access_authorization".
Definition ResourcePreview : string := "preview".
Definition ResourceTunnel : string := "tunnel".
Definition ProtocolHTTP : string := "http".
Definition ProtocolTCP : string := "tcp".
Definition AudiencePreviewHTTP : string := "paperboat-preview-http".
Definition AudienceTunnelHTTP : string := "paperboat-tunnel-http".
Definition AudienceTunnelTCP : string := "paperboat-tunnel-tcp".
Definition DecisionAllowed : string := "allowed".
Definition DefaultDecisionTTL : duration := 45 * Second.
Definition MaximumDecisionTTL : duration := 2 * Minute.
Definition MaximumRequestBody : Z := Z.shiftl 64 10.
Definition MaximumPathBytes : Z := 4096.
Definition MaximumHostBytes : Z := 512.

(** ** Denials and errors *)
Definition DenyReason := string.
Definition ReasonUnauthenticated : DenyReason := "unauthenticated".
Definition ReasonAccountMismatch : DenyReason := "account_mismatch".
Definition ReasonDeviceRevoked : DenyReason := "device_revoked".
Definition ReasonSessionExpired : DenyReason := "session_expired".
Definition ReasonResourceNotFound : DenyReason := "resource_not_found".
Definition ReasonRoutePaused : DenyReason := "route_paused".
Definition ReasonExpired : DenyReason := "expired".
Definition ReasonWrongRoute : DenyReason := "wrong_route".
Definition ReasonProtocolDenied : DenyReason := "protocol_denied".
Definition ReasonIdentityInvalid : DenyReason := "identity_invalid".
Definition ReasonRateLimited : DenyReason := "rate_limited".
Definition ReasonInternal : DenyReason := "authorization_unavailable".

Definition reasons : list DenyReason :=
  [DecisionAllowed; ReasonUnauthenticated; ReasonAccountMismatch; ReasonDeviceRevoked; ReasonSessionExpired;
   ReasonResourceNotFound; ReasonRoutePaused; ReasonExpired; ReasonWrongRoute; ReasonProtocolDenied;
   ReasonIdentityInvalid; ReasonRateLimited; ReasonInternal].
Definition DenyReason_valid (r : DenyReason) : bool := bool_decide (r ∈ reasons).
Definition DenyReason_retryable (r : DenyReason) : bool :=
  (r == ReasonRoutePaused) || (r == ReasonRateLimited) || (r == ReasonInternal).

(** [Denied] is [*DeniedError]; [Other] an error of another package. *)
Inductive AccessError :=
| ErrInvalid | ErrResourceNotFound | ErrRouteUnavailable | ErrIdentityUnavailable | ErrAuditUnavailable
| ErrIdempotencyConflict
| Denied (Reason : DenyReason) (Retryable : bool)
| Other (e : goerror).
Abbreviation ARes A := (result AccessError A).

Definition newDenied (reason : DenyReason) : AccessError :=
  let reason := if DenyReason_valid reason then reason else ReasonInternal in
  Denied reason (DenyReason_retryable reason).

(** ** Checks of single fields *)
Definition validID (value : string) : bool :=
  negb ((slen value =? 0) || (256 <? slen value) || (TrimSpace value != value))
  && forallb (fun r => negb ((r <? 0x21) || (0x7e <? r) || bool_decide (r ∈ runes "/\?&=#"))) (runes value).

Definition hasControl (value : string) : bool := existsb (fun r => (r <? 0x20) || (r =? 0x7f)) (runes value).

Definition canonicalHost (value : string) : string :=
  let value := TrimSpace (ToLower value) in
  match SplitHostPort value with
  | Some (host, _) => Trim host "[]"
  | None => TrimSuffix value "."
  end.

Definition hostFromEndpoint (endpoint : string) : string :=
  match url_Parse endpoint with
  | Some u => if Hostname u == "" then "" else ToLower (TrimSuffix (Hostname u) ".")
  | None => ""
  end.

(** [time.Unix(0, 0)]. *)
Definition UnixEpoch : time := 62135596800 * Second.

(** ** Identities *)
Module Identity.
Record Identity := mk {
  AccountID : string;
  UserID : string;
  DeviceID : string;
  SessionID : string;
  ExpiresAt : time;
  Revoked : bool;
  Method : string;
  InstallationGeneration : Z;
}.
Definition zero : Identity := mk "" "" "" "" 0 false "" 0.
End Identity.
Abbreviation Identity := Identity.Identity.

Section IdentityValidate.
Import Identity.
Definition Identity_Validate (i : Identity) (now : time) : option AccessError :=
  if negb (forallb validID [AccountID i; UserID i; DeviceID i; SessionID i]) then Some ErrInvalid
  else if InstallationGeneration i =? 0 then Some ErrInvalid
  else if Revoked i then Some (newDenied ReasonDeviceRevoked)
  else if IsZero (ExpiresAt i) || (negb (IsZero now) && negb (After (ExpiresAt i) now))
  then Some (newDenied ReasonSessionExpired)
  else None.
End IdentityValidate.

Record EdgeIdentity := mkEdge { NodeID : string; ProcessEpoch : string }.
Definition EdgeIdentity_Validate (e : EdgeIdentity) : option AccessError :=
  if negb (validID (NodeID e)) || negb (ok (PreviewContract.ValidateOpaqueEpoch (ProcessEpoch e)))
  then Some ErrInvalid else None.

(** ** Requests *)
Module Request.
Record Request := mk {
  AccountID : string;
  ResourceKind : string;
  ResourceID : string;
  RouteID : string;
  Audience : string;
  DeviceID : string;
  SessionID : string;
  InstallationGeneration : Z;
  ExpiresAt : time;
  ExpiresZone : Z; (* the offset of the location of ExpiresAt, in seconds *)
  Nonce : string;
  OperationID : string;
  ConnectorID : string;
  CarrierSessionID : string;
  RouteGeneration : Z;
  ProcessGeneration : Z;
  ConfigGeneration : Z;
  SessionGeneration : Z;
  AssignmentGeneration : Z;
  EdgeNodeID : string;
  EdgeProcessEpoch : string;
  Protocol : string;
  Method : string;
  Host : string;
  Path : string;
  IdempotencyKey : string;
  RequestID : string;
  CorrelationID : string;
}.
#[export] Instance eq_dec : EqDecision Request.
Proof. solve_decision. Defined.
#[export] Instance settable : Settable Request := fun r =>
  mk (AccountID r) (ResourceKind r) (ResourceID r) (RouteID r) (Audience r) (DeviceID r) (SessionID r)
    (InstallationGeneration r) (ExpiresAt r) (ExpiresZone r) (Nonce r) (OperationID r) (ConnectorID r) (CarrierSessionID r)
    (RouteGeneration r) (ProcessGeneration r) (ConfigGeneration r) (SessionGeneration r)
    (AssignmentGeneration r) (EdgeNodeID r) (EdgeProcessEpoch r) (Protocol r) (Method r) (Host r) (Path r)
    (IdempotencyKey r) (RequestID r) (CorrelationID r).
Definition zero : Request :=
  mk "" "" "" "" "" "" "" 0 0 0 "" "" "" "" 0 0 0 0 0 "" "" "" "" "" "" "" "" "".
End Request.
Export (hints) Request.
Abbreviation Request := Request.Request.

Definition audienceFor (resourceKind protocol : string) : string :=
  if (resourceKind == ResourcePreview) && (protocol == ProtocolHTTP) then AudiencePreviewHTTP
  else if (resourceKind == ResourceTunnel) && (protocol == ProtocolHTTP) then AudienceTunnelHTTP
  else if (resourceKind == ResourceTunnel) && (protocol == ProtocolTCP) then AudienceTunnelTCP
  else "".

Section RequestMethods.
Import Request.

Definition request_ids (r : Request) : list string :=
  [AccountID r; ResourceID r; RouteID r; Audience r; DeviceID r; SessionID r; CarrierSessionID r; IdempotencyKey r;
   RequestID r; CorrelationID r; EdgeNodeID r; EdgeProcessEpoch r].

(** The fields of an HTTP request, which a TCP request leaves empty. *)
Definition http_fields_invalid (r : Request) : bool :=
  if Protocol r == ProtocolHTTP then
    (slen (Method r) =? 0) || (32 <? slen (Method r)) || hasControl (Method r)
    || ContainsAny (Method r) (String " " (String (byte_of 9) ""))
    || (slen (Host r) =? 0) || (MaximumHostBytes <? slen (Host r)) || hasControl (Host r)
    || (slen (Path r) =? 0) || (MaximumPathBytes <? slen (Path r)) || negb (HasPrefix (Path r) "/")
    || hasControl (Path r)
  else (Method r != "") || (Host r != "") || (Path r != "").

Definition Request_Validate (r : Request) : option AccessError :=
  let kind := ResourceKind r in
  if (kind != ResourcePreview) && (kind != ResourceTunnel) then Some ErrInvalid
  else if negb (forallb validID (request_ids r)) then Some ErrInvalid
  else if (kind == ResourcePreview) && negb (validID (OperationID r)) then Some ErrInvalid
  else if (kind == ResourceTunnel) && (OperationID r != "") && negb (validID (OperationID r)) then Some ErrInvalid
  else if (kind == ResourceTunnel) && negb (validID (ConnectorID r)) then Some ErrInvalid
  else if IsZero (ExpiresAt r) || negb (After (ExpiresAt r) UnixEpoch) then Some ErrInvalid
  else if negb (validID (Nonce r)) then Some ErrInvalid
  else if Audience r != audienceFor kind (Protocol r) then Some ErrInvalid
  else if (Protocol r != ProtocolHTTP) && (Protocol r != ProtocolTCP) then Some ErrInvalid
  else if (InstallationGeneration r =? 0) || (RouteGeneration r =? 0) || (SessionGeneration r =? 0)
          || (ProcessGeneration r =? 0) || (ConfigGeneration r =? 0) || (AssignmentGeneration r =? 0)
  then Some ErrInvalid
  else if (256 <? slen (IdempotencyKey r)) || (slen (RequestID r) <? 3) || (128 <? slen (RequestID r))
          || (slen (CorrelationID r) <? 3) || (128 <? slen (CorrelationID r))
  then Some ErrInvalid
  else if hasControl (IdempotencyKey r) || hasControl (RequestID r) || hasControl (CorrelationID r)
  then Some ErrInvalid
  else if http_fields_invalid r then Some ErrInvalid
  else None.

(** [json.Marshal] of a request.  The expiry is written in its own location, and
    fails outside the local years 0 to 9999. *)
Definition Request_text (r : Request) : option string :=
  expires ← zoned_member "expires_at" (ExpiresAt r) (ExpiresZone r);
  Some (object_text
    ([member "account_id" (quote (AccountID r)); member "resource_kind" (quote (ResourceKind r));
      member "resource_id" (quote (ResourceID r)); member "route_id" (quote (RouteID r));
      member "audience" (quote (Audience r)); member "device_id" (quote (DeviceID r));
      member "session_id" (quote (SessionID r));
      member "installation_generation" (Itoa (InstallationGeneration r)); expires;
      member "nonce" (quote (Nonce r))]
     ++ omitempty (OperationID r == "") "operation_id" (quote (OperationID r))
     ++ omitempty (ConnectorID r == "") "connector_id" (quote (ConnectorID r))
     ++ [member "carrier_session_id" (quote (CarrierSessionID r));
         member "route_generation" (Itoa (RouteGeneration r));
         member "process_generation" (Itoa (ProcessGeneration r));
         member "config_generation" (Itoa (ConfigGeneration r));
         member "session_generation" (Itoa (SessionGeneration r));
         member "assignment_generation" (Itoa (AssignmentGeneration r));
         member "edge_node_id" (quote (EdgeNodeID r)); member "edge_process_epoch" (quote (EdgeProcessEpoch r));
         member "protocol" (quote (Protocol r))]
     ++ omitempty (Method r == "") "method" (quote (Method r))
     ++ omitempty (Host r == "") "host" (quote (Host r))
     ++ omitempty (Path r == "") "path" (quote (Path r))
     ++ [member "idempotency_key" (quote (IdempotencyKey r)); member "request_id" (quote (RequestID r));
         member "correlation_id" (quote (CorrelationID r))])).

(** The fields of the struct, for [json.Decoder.Decode]. *)
Definition Request_fields : list (field Request) :=
  [fld "account_id" raw_string AccountID; fld "resource_kind" raw_string ResourceKind;
   fld "resource_id" raw_string ResourceID; fld "route_id" raw_string RouteID;
   fld "audience" raw_string Audience; fld "device_id" raw_string DeviceID;
   fld "session_id" raw_string SessionID; fld "installation_generation" raw_u64 InstallationGeneration;
   ("expires_at", fun r raw => '(t, zone) ← raw_zoned_time (ExpiresAt r, ExpiresZone r) raw;
                               Some (r <| ExpiresAt := t |> <| ExpiresZone := zone |>));
   fld "nonce" raw_string Nonce;
   fld "operation_id" raw_string OperationID; fld "connector_id" raw_string ConnectorID;
   fld "carrier_session_id" raw_string CarrierSessionID; fld "route_generation" raw_u64 RouteGeneration;
   fld "process_generation" raw_u64 ProcessGeneration; fld "config_generation" raw_u64 ConfigGeneration;
   fld "session_generation" raw_u64 SessionGeneration;
   fld "assignment_generation" raw_u64 AssignmentGeneration; fld "edge_node_id" raw_string EdgeNodeID;
   fld "edge_process_epoch" raw_string EdgeProcessEpoch; fld "protocol" raw_string Protocol;
   fld "method" raw_string Method; fld "host" raw_string Host; fld "path" raw_string Path;
   fld "idempotency_key" raw_string IdempotencyKey; fld "request_id" raw_string RequestID;
   fld "correlation_id" raw_string CorrelationID].

Definition Request_Hash (r : Request) : ARes string :=
  match Request_Validate r with
  | Some e => Err e
  | None =>
      match Request_text r with
      | None => Err ErrInvalid
      | Some b => Ok (hex_EncodeToString (Sum256 b))
      end
  end.
End RequestMethods.

(** What the edge asks, with the identity of its caller. *)
Record AuthorizeInput := mkInput {
  in_Identity : Identity;
  in_Request : Request;
  in_Edge : EdgeIdentity;
  in_Grant : string;
}.

Definition fingerprint_text (in_ : AuthorizeInput) : option string :=
  let i := in_Identity in_ in
  request ← Request_text (in_Request in_);
  Some (object_text
    [member "account_id" (quote (Identity.AccountID i)); member "user_id" (quote (Identity.UserID i));
     member "device_id" (quote (Identity.DeviceID i)); member "session_id" (quote (Identity.SessionID i));
     member "request" request]).
Definition requestFingerprint (in_ : AuthorizeInput) : option string :=
  b ← fingerprint_text in_; Some (hex_EncodeToString (Sum256 b)).
Definition decisionID (fingerprint : string) : string := "pad_" +:+ stake 32 fingerprint.

(** ** Bindings *)
Module Binding.
Record Binding := mk {
  AccountID : string;
  ResourceKind : string;
  ResourceID : string;
  RouteID : string;
  OperationID : string;
  ConnectorID : string;
  CarrierSessionID : string;
  OwnerDeviceID : string;
  OwnerSessionID : string;
  RouteGeneration : Z;
  ProcessGeneration : Z;
  ConfigGeneration : Z;
  SessionGeneration : Z;
  AssignmentGeneration : Z;
  Protocol : string;
  AccessMode : string;
  State : string;
  ExpiresAt : time;
  Hostname : string;
  PathPrefix : string;
  EdgeNodeID : string;
  EdgeProcessEpoch : string;
}.
Definition zero : Binding := mk "" "" "" "" "" "" "" "" "" 0 0 0 0 0 "" "" "" 0 "" "" "" "".
End Binding.
Abbreviation Binding := Binding.Binding.

(** The query of the resolver. *)
Record Lookup := mkLookup { lk_AccountID : string; lk_Request : Request; lk_Edge : EdgeIdentity; lk_Now : time }.

Section BindingValidate.
Import Binding.
Definition Binding_Validate (b : Binding) (now : time) : option AccessError :=
  let kind := ResourceKind b in
  if (kind != ResourcePreview) && (kind != ResourceTunnel) then Some ErrInvalid
  else if negb (forallb validID [AccountID b; ResourceID b; RouteID b; CarrierSessionID b]) then Some ErrInvalid
  else if (kind == ResourcePreview)
          && (negb (validID (OperationID b)) || negb (validID (OwnerDeviceID b)) || negb (validID (OwnerSessionID b)))
  then Some ErrInvalid
  else if (kind == ResourceTunnel) && negb (validID (ConnectorID b)) then Some ErrInvalid
  else if (Protocol b != ProtocolHTTP) && (Protocol b != ProtocolTCP) then Some ErrInvalid
  else if AccessMode b != "private" then Some (newDenied ReasonProtocolDenied)
  else if (RouteGeneration b =? 0) || (SessionGeneration b =? 0) || (ProcessGeneration b =? 0)
          || (ConfigGeneration b =? 0) || (AssignmentGeneration b =? 0)
  then Some ErrInvalid
  else if IsZero (ExpiresAt b) || (negb (IsZero now) && negb (After (ExpiresAt b) now))
  then Some (newDenied ReasonExpired)
  else if (Protocol b == ProtocolHTTP)
          && ((slen (Hostname b) =? 0) || (MaximumHostBytes <? slen (Hostname b)) || hasControl (Hostname b))
  then Some ErrInvalid
  else if negb (Bool.eqb (EdgeNodeID b == "") (EdgeProcessEpoch b == "")) then Some ErrInvalid
  else if EdgeNodeID b != "" then EdgeIdentity_Validate (mkEdge (EdgeNodeID b) (EdgeProcessEpoch b))
  else None.
End BindingValidate.

(** ** Decisions *)
Module Decision.
Record Decision := mk {
  Schema : string;
  Kind : string;
  DecisionID : string;
  Allowed : bool;
  Reason : DenyReason;
  ExpiresAt : time;
  RequestID : string;
  CorrelationID : string;
  ResourceKind : string;
  ResourceID : string;
  RouteID : string;
  OperationID : string;
  ConnectorID : string;
  CarrierSessionID : string;
  RouteGeneration : Z;
  SessionGeneration : Z;
  ProcessGeneration : Z;
  ConfigGeneration : Z;
  AssignmentGeneration : Z;
  Protocol : string;
}.
#[export] Instance eq_dec : EqDecision Decision.
Proof. solve_decision. Defined.
Definition zero : Decision := mk "" "" "" false "" 0 "" "" "" "" "" "" "" "" 0 0 0 0 0 "".
End Decision.
Export (hints) Decision.
Abbreviation Decision := Decision.Decision.

Section DecisionValidate.
Import Decision.
Definition Decision_Validate (d : Decision) (now : time) : option AccessError :=
  if (Schema d != PrivateContract.Schema) || (Kind d != PrivateContract.Kind) || negb (validID (DecisionID d))
     || negb (DenyReason_valid (Reason d)) || IsZero (ExpiresAt d)
     || (negb (IsZero now) && negb (After (ExpiresAt d) now))
  then Some ErrInvalid
  else if negb (Bool.eqb (Allowed d) (Reason d == DecisionAllowed)) then Some ErrInvalid
  else if (slen (RequestID d) <? 3) || (128 <? slen (RequestID d)) || (slen (CorrelationID d) <? 3)
          || (128 <? slen (CorrelationID d))
  then Some ErrInvalid
  else None.
End DecisionValidate.

(** ** Audit records *)
Module AuditRecord.
Record AuditRecord := mk {
  EventType : string;
  Allowed : bool;
  Reason : DenyReason;
  AccountID : string;
  UserID : string;
  DeviceID : string;
  SessionID : string;
  ResourceKind : string;
  ResourceID : string;
  RouteID : string;
  OperationID : string;
  ConnectorID : string;
  CarrierSessionID : string;
  Protocol : string;
  RequestID : string;
  CorrelationID : string;
  IdempotencyKey : string;
}.
#[export] Instance settable : Settable AuditRecord := fun a =>
  mk (EventType a) (Allowed a) (Reason a) (AccountID a) (UserID a) (DeviceID a) (SessionID a) (ResourceKind a)
    (ResourceID a) (RouteID a) (OperationID a) (ConnectorID a) (CarrierSessionID a) (Protocol a) (RequestID a)
    (CorrelationID a) (IdempotencyKey a).
End AuditRecord.
Export (hints) AuditRecord.
Abbreviation AuditRecord := AuditRecord.AuditRecord.

(** ** Examples *)
Example host_port : canonicalHost "Preview.Example:8443" = "preview.example" /\ canonicalHost "preview.example." = "preview.example"
  /\ canonicalHost "[::1]:80" = "::1".
Proof. repeat split; reflexivity. Qed.
Example endpoint_host : hostFromEndpoint "https://Preview.Example.:443/x" = "preview.example".
Proof. reflexivity. Qed.
Example id_characters : validID "a:b.c" = true /\ validID "a/b" = false /\ validID "a b" = false /\ validID "" = false.
Proof. repeat split; reflexivity. Qed.

(** * The text of a private access request determines the request

    [json.Marshal] of a request is read back by the decoder, so two requests with
    the same text are equal, and two requests with the same hash are equal or
    their texts are a collision of SHA-256. *)
From S2P Require Import Canonical TextFacts JsonFacts Identifiers WireConfig StructFacts FrameFacts TranscriptFacts.

(** ** Optional members *)
Definition opt_member (k s : string) : list written := if s == "" then [] else [text_member k s].

Lemma omitempty_written k s : omitempty (s == "") k (quote s) = map w_member (opt_member k s).
Proof. unfold opt_member, omitempty. by destruct (s == ""). Qed.

Lemma set_members_app {A} (fields : list (field A)) a ms ms' :
  set_members fields a (ms ++ ms') = (a' ← set_members fields a ms; set_members fields a' ms').
Proof.
  revert a. induction ms as [|m ms IH]; intros a; [done|]. cbn. destruct (set_member fields a m); [apply IH|done].
Qed.

Lemma set_opt {A} (fields : list (field A)) a a' k s n f :
  field_pos fields.*1 k = Some n -> fields !! n = Some f -> snd f a (quote s) = Some a' -> (s = "" -> a = a') ->
  set_members fields a (map w_raw (opt_member k s)) = Some a'.
Proof.
  intros Hp Hn Hf He. unfold opt_member. destruct (s == "") eqn:E; bool_prop; [by rewrite He|].
  change (map w_raw [text_member k s]) with [(k, quote s)]. cbn [set_members].
  by rewrite (set_member_pos fields a k (quote s) n f), Hf.
Qed.

Lemma raw_zoned_text old t zone : zone mod 60 = 0 -> zone_ok t zone = true ->
  raw_zoned_time old (quote (zoned_text t zone)) = Some (t, zone).
Proof.
  intros Hz Hy. pose proof (zoned_safe t zone Hy) as Hs. unfold raw_zoned_time, quote.
  rewrite safe_quote_body by done. set (text := zoned_text t zone) in *.
  assert (bool_decide (dquote +:+ text +:+ dquote = "null") = false) as -> by (by rewrite bool_decide_eq_false).
  assert (unquoted (dquote +:+ text +:+ dquote) = Some text) as ->.
  { unfold dquote. autorewrite with sapp. unfold unquoted. unfold srev.
    assert (forall s c, srev_app (s +:+ String c "") "" = String c (srev_app s "")) as Hrev.
    { assert (forall s c acc, srev_app (s +:+ String c "") acc = String c (srev_app s acc)) as H; [|by intros].
      induction s as [|d s IH]; intros c acc; [done|]. rewrite sapp_cons. simpl. by rewrite IH. }
    rewrite Hrev. cbn. f_equal. apply MessageFacts.srev_involutive. }
  cbn. unfold text. by rewrite zoned_text_roundtrip.
Qed.

(** ** The members of a request *)
Section RequestText.
Import Request.

Definition request_members (r : Request) : list written :=
  [text_member "account_id" (AccountID r); text_member "resource_kind" (ResourceKind r);
   text_member "resource_id" (ResourceID r); text_member "route_id" (RouteID r);
   text_member "audience" (Audience r); text_member "device_id" (DeviceID r);
   text_member "session_id" (SessionID r);
   number_member "installation_generation" (InstallationGeneration r); 
   zoned_stamp "expires_at" (ExpiresAt r) (ExpiresZone r);
   text_member "nonce" (Nonce r)]
  ++ opt_member "operation_id" (OperationID r) ++ opt_member "connector_id" (ConnectorID r)
  ++ [text_member "carrier_session_id" (CarrierSessionID r); number_member "route_generation" (RouteGeneration r);
      number_member "process_generation" (ProcessGeneration r);
      number_member "config_generation" (ConfigGeneration r);
      number_member "session_generation" (SessionGeneration r);
      number_member "assignment_generation" (AssignmentGeneration r);
      text_member "edge_node_id" (EdgeNodeID r); text_member "edge_process_epoch" (EdgeProcessEpoch r);
      text_member "protocol" (Protocol r)]
  ++ opt_member "method" (Method r) ++ opt_member "host" (Host r) ++ opt_member "path" (Path r)
  ++ [text_member "idempotency_key" (IdempotencyKey r); text_member "request_id" (RequestID r);
      text_member "correlation_id" (CorrelationID r)].

Lemma request_written r text :
  Request_text r = Some text -> text = w_text_of (request_members r)
  /\ zone_ok (ExpiresAt r) (ExpiresZone r) = true.
Proof.
  unfold Request_text. intros H. apply bind_Some in H as (m & [-> Hy]%zoned_member_Some & H).
  injection H as <-. split; [|done]. unfold w_text_of, request_members.
  rewrite !map_app, !omitempty_written. done.
Qed.

(** The Go types of the fields, valid UTF-8 and a zone in whole minutes: what a
    decoded request has. *)
Record wire_request (r : Request) : Prop := {
  wr_texts : Forall valid_utf8 [AccountID r; ResourceKind r; ResourceID r; RouteID r; Audience r; DeviceID r;
    SessionID r; Nonce r; OperationID r; ConnectorID r; CarrierSessionID r; EdgeNodeID r; EdgeProcessEpoch r;
    Protocol r; Method r; Host r; Path r; IdempotencyKey r; RequestID r; CorrelationID r];
  wr_numbers : Forall is_u64 [InstallationGeneration r; RouteGeneration r; ProcessGeneration r; ConfigGeneration r;
    SessionGeneration r; AssignmentGeneration r];
  wr_zone : ExpiresZone r mod 60 = 0;
}.

Lemma opt_good k s : valid_utf8 k -> valid_utf8 s -> Forall (good_member 0) (opt_member k s).
Proof. intros. unfold opt_member. case_match; [by apply Forall_nil|]. by apply Forall_singleton, good_utf8. Qed.

Lemma request_good r : wire_request r -> zone_ok (ExpiresAt r) (ExpiresZone r) = true ->
  Forall (good_member 0) (request_members r).
Proof.
  intros [Ht Hn Hz] Hy. split_lists. unfold request_members.
  repeat (apply Forall_app; split); try (apply opt_good; [by apply literal_key|done]); good_texts.
Qed.

Lemma opt_keys k s : w_key <$> opt_member k s = if s == "" then [] else [k].
Proof. unfold opt_member. by case_match. Qed.
Lemma request_keys r : NoDup (w_key <$> request_members r).
Proof.
  unfold request_members. rewrite !fmap_app, !opt_keys.
  destruct (OperationID r == ""), (ConnectorID r == ""), (Method r == ""), (Host r == ""), (Path r == "");
    apply (bool_decide_unpack _); by vm_compute.
Qed.

(** Run the setter of a member that is always there, or of an optional one. *)
Ltac set_text :=
  unfold w_raw; cbn [set_members map w_key w_text app];
  lazymatch goal with
  | |- context [set_member ?F ?a (?k, ?raw)] =>
      let i := eval vm_compute in (field_pos F.*1 k) in
      lazymatch i with
      | Some ?n =>
          let H := fresh in
          assert (field_pos F.*1 k = Some n) as H by (vm_cast_no_check (eq_refl (Some n)));
          erewrite (set_member_pos F a k raw n _ H) by reflexivity; clear H
      end
  end; cbn [snd];
  first [rewrite raw_string_quote by done | rewrite raw_u64_Itoa by done | rewrite raw_zoned_text by done];
  cbn [mbind option_bind].
Ltac set_optional :=
  fold w_raw; rewrite set_members_app;
  lazymatch goal with
  | |- context [set_members ?F ?a (map w_raw (opt_member ?k ?s))] =>
      let i := eval vm_compute in (field_pos F.*1 k) in
      lazymatch i with
      | Some ?n =>
          let H := fresh in
          assert (field_pos F.*1 k = Some n) as H by (vm_cast_no_check (eq_refl (Some n)));
          erewrite (set_opt F a _ k s n _ H);
            [|reflexivity|cbn [snd]; rewrite raw_string_quote by done; reflexivity|by intros ->]; clear H
      end
  end; cbn [mbind option_bind].

Lemma request_decoded r : wire_request r -> zone_ok (ExpiresAt r) (ExpiresZone r) = true ->
  decode_struct Request_fields zero (w_text_of (request_members r)) = Some r.
Proof.
  intros Hw Hy. rewrite (decode_struct_written 0) by (done || by apply request_good || by apply request_keys).
  destruct Hw as [Ht Hn Hz]. split_lists. unfold request_members, zoned_stamp, text_member, number_member.
  rewrite !map_app. destruct r.
  cbn [AccountID ResourceKind ResourceID RouteID Audience DeviceID SessionID InstallationGeneration ExpiresAt ExpiresZone Nonce
       OperationID ConnectorID CarrierSessionID RouteGeneration ProcessGeneration ConfigGeneration SessionGeneration
       AssignmentGeneration EdgeNodeID EdgeProcessEpoch Protocol Method Host Path IdempotencyKey RequestID
       CorrelationID] in *.
  do 10 set_text. do 2 set_optional. do 9 set_text. do 3 set_optional. do 3 set_text. done.
Qed.

(** A request is read back from its text. *)
Lemma request_text_roundtrip r text : wire_request r -> Request_text r = Some text ->
  decode_struct Request_fields zero text = Some r /\ rejectDuplicateKeys text = true.
Proof.
  intros Hw H. destruct (request_written r text H) as [-> Hy]. split; [by apply request_decoded|].
  eapply (reads_document 1); [done|]. apply (reads_object_text 0); [done|by apply request_good|apply request_keys].
Qed.

Lemma request_text_inj r1 r2 text : wire_request r1 -> wire_request r2 ->
  Request_text r1 = Some text -> Request_text r2 = Some text -> r1 = r2.
Proof.
  intros H1 H2 E1 E2. destruct (request_text_roundtrip r1 text H1 E1) as [D1 _].
  destruct (request_text_roundtrip r2 text H2 E2) as [D2 _]. congruence.
Qed.
End RequestText.

(** ** Hashes *)
Lemma hex_Encode_inj a b : is_bytes a -> is_bytes b -> hex_EncodeToString a = hex_EncodeToString b -> a = b.
Proof. intros Ha Hb E. apply hex_decode_encode in Ha, Hb. congruence. Qed.

(** Two different texts with the same SHA-256 hash. *)
Definition collide (a b : option string) : Prop :=
  exists x y, a = Some x /\ b = Some y /\ x <> y /\ Sum256 x = Sum256 y.

Lemma hash_text_inj x y : hex_EncodeToString (Sum256 x) = hex_EncodeToString (Sum256 y) -> x = y \/ collide (Some x) (Some y).
Proof.
  intros E. apply hex_Encode_inj in E; [|apply Sum256_is_bytes..].
  destruct (decide (x = y)) as [|Hne]; [by left|right]. by exists x, y.
Qed.

Lemma Request_Hash_inj r1 r2 h : wire_request r1 -> wire_request r2 ->
  Request_Hash r1 = Ok h -> Request_Hash r2 = Ok h -> r1 = r2 \/ collide (Request_text r1) (Request_text r2).
Proof.
  unfold Request_Hash. intros W1 W2 H1 H2. destruct (Request_Validate r1); [done|].
  destruct (Request_Validate r2); [done|]. destruct (Request_text r1) as [x|] eqn:E1; [|done].
  destruct (Request_text r2) as [y|] eqn:E2; [|done]. injection H1 as <-. injection H2 as H2. symmetry in H2.
  destruct (hash_text_inj _ _ H2) as [->|]; [left|by right]. by eapply request_text_inj.
Qed.

(** ** Fingerprints *)
Definition wire_input (in_ : AuthorizeInput) : Prop :=
  wire_request (in_Request in_)
  /\ Forall valid_utf8 [Identity.AccountID (in_Identity in_); Identity.UserID (in_Identity in_);
       Identity.DeviceID (in_Identity in_); Identity.SessionID (in_Identity in_)].

Definition fingerprint_members (in_ : AuthorizeInput) (text : string) : list written :=
  let i := in_Identity in_ in
  [text_member "account_id" (Identity.AccountID i); text_member "user_id" (Identity.UserID i);
   text_member "device_id" (Identity.DeviceID i); text_member "session_id" (Identity.SessionID i);
   mkWritten "request" text (JObject (w_object [] (request_members (in_Request in_))))].

Lemma fingerprint_raw in_ x : wire_input in_ -> fingerprint_text in_ = Some x ->
  exists text, Request_text (in_Request in_) = Some text
    /\ raw_members x = Some (map w_raw (fingerprint_members in_ text)).
Proof.
  intros [Hw Hi] H. unfold fingerprint_text in H. cbv zeta in H. apply bind_Some in H as (text & Ht & [= <-]).
  exists text. split; [done|]. destruct (request_written _ _ Ht) as [E Hy].
  change (object_text _) with (w_text_of (fingerprint_members in_ text)). apply (raw_members_written 1); [|done].
  split_lists. repeat (apply Forall_cons; split); [..|by apply Forall_nil].
  1-4: split; [by apply literal_key|]; eapply (reads_mono 0); [done|]; by apply reads_quote.
  split; [by apply literal_key|]. cbn [w_text w_value]. rewrite E.
  apply (reads_object_text 0); [done|by apply request_good|apply request_keys].
Qed.

Lemma fingerprint_inj in1 in2 fp : wire_input in1 -> wire_input in2 ->
  requestFingerprint in1 = Some fp -> requestFingerprint in2 = Some fp ->
  in_Request in1 = in_Request in2 \/ collide (fingerprint_text in1) (fingerprint_text in2).
Proof.
  unfold requestFingerprint. intros W1 W2 H1 H2. apply bind_Some in H1 as (x & Hx & [= <-]).
  apply bind_Some in H2 as (y & Hy & [= E]). symmetry in E. destruct (hash_text_inj _ _ E) as [->|]; [left|right].
  - destruct (fingerprint_raw _ _ W1 Hx) as (t1 & T1 & R1). destruct (fingerprint_raw _ _ W2 Hy) as (t2 & T2 & R2).
    rewrite R2 in R1. injection R1 as _ _ _ _ ->. by eapply request_text_inj; [apply W1|apply W2|..].
  - by rewrite Hx, Hy.
Qed.
