(* ===== verification/MintTypes.v ===== *)
(** * The credentials of the control plane: data and checks

    src/internal/mint/mint.go: what a credential is asked for, what it claims, the
    policy of each class and the checks of single fields.  A claim set is read
    from JSON with the fields of [CredentialClaims]. *)
From S2P Require Import Prelude GoText GoHash GoUrl GoJson GoNet Errors Canonical Identifiers WireConfig GoTime.
From S2P Require Import GoStruct.

(** ** Reading numbers and optional values *)
Definition set_i64 (old : Z) (v : json) : option Z :=
  match v with JNumber l => ParseInt 64 l | JNull => Some old | _ => None end.
Definition raw_i64 (old : Z) (raw : string) : option Z := v ← parse_json raw; set_i64 old v.
Definition raw_i64_ptr (old : option Z) (raw : string) : option (option Z) :=
  v ← parse_json raw;
  match v with JNull => Some None | _ => Some <$> set_i64 (default 0 old) v end.

(** ** The policy of file transfers *)
Module FileTransferPolicy.
Record FileTransferPolicy := mk {
  Revision : string;
  MaxFileBytes : Z;
  MaxBatchFiles : Z;
  MaxBatchBytes : Z;
  MaxConcurrentTransfers : Z;
  RetentionSeconds : Z;
  DeliveryTimeoutSeconds : Z;
  MaxPendingSpoolBytes : Z;
}.
#[export] Instance settable : Settable FileTransferPolicy := fun c =>
  mk
    (Revision c) (MaxFileBytes c) (MaxBatchFiles c) (MaxBatchBytes c) (MaxConcurrentTransfers c)
    (RetentionSeconds c) (DeliveryTimeoutSeconds c) (MaxPendingSpoolBytes c).
Definition zero : FileTransferPolicy :=
  mk
    "" 0 0 0 0 0 0 0.
End FileTransferPolicy.
Export (hints) FileTransferPolicy.
Abbreviation FileTransferPolicy := FileTransferPolicy.FileTransferPolicy.

Section PolicyFields.
Import FileTransferPolicy.
Definition FileTransferPolicy_fields : list (field FileTransferPolicy) :=
  [fld "revision" raw_string Revision; fld "max_file_bytes" raw_i64 MaxFileBytes;
   fld "max_batch_files" raw_i64 MaxBatchFiles; fld "max_batch_bytes" raw_i64 MaxBatchBytes;
   fld "max_concurrent_transfers" raw_i64 MaxConcurrentTransfers;
   fld "retention_seconds" raw_i64 RetentionSeconds;
   fld "delivery_timeout_seconds" raw_i64 DeliveryTimeoutSeconds;
   fld "max_pending_spool_bytes" raw_i64 MaxPendingSpoolBytes].

Definition DefaultFileTransferPolicy : FileTransferPolicy :=
  mk "file-transfer-v1" (Z.shiftl 50 20) 10 (Z.shiftl 500 20) 2 604800 600 (Z.shiftl 1 30).
(** [json.Marshal] of the struct, as the value of a claim. *)
Definition FileTransferPolicy_json (p : FileTransferPolicy) : json :=
  JObject
    [("revision", JString (Revision p)); ("max_file_bytes", JNumber (Itoa (MaxFileBytes p)));
     ("max_batch_files", JNumber (Itoa (MaxBatchFiles p)));
     ("max_batch_bytes", JNumber (Itoa (MaxBatchBytes p)));
     ("max_concurrent_transfers", JNumber (Itoa (MaxConcurrentTransfers p)));
     ("retention_seconds", JNumber (Itoa (RetentionSeconds p)));
     ("delivery_timeout_seconds", JNumber (Itoa (DeliveryTimeoutSeconds p)));
     ("max_pending_spool_bytes", JNumber (Itoa (MaxPendingSpoolBytes p)))].
End PolicyFields.

Definition raw_policy_ptr (old : option FileTransferPolicy) (raw : string) : option (option FileTransferPolicy) :=
  v ← parse_json raw;
  match v with
  | JNull => Some None
  | _ => Some <$> raw_struct FileTransferPolicy_fields (default FileTransferPolicy.zero old) raw
  end.

(** ** What a credential is asked for *)
Module CredentialInput.
Record CredentialInput := mk {
  Issuer : string;
  Audience : string;
  Subject : string;
  JTI : string;
  IssuedAt : time;
  ExpiresAt : time;
  CredentialClass : string;
  Scopes : list string;
  EnvironmentID : string;
  AccountID : string;
  EnrollmentID : string;
  AssignmentID : string;
  WarningRevision : string;
  HelperID : string;
  MachineID : string;
  SourceMachineID : string;
  UserID : string;
  ActorID : string;
  CLIClientSessionID : string;
  SessionID : string;
  OperationID : string;
  PreviewID : string;
  OwnerSessionID : string;
  IdempotencyKey : string;
  RequestID : string;
  CorrelationID : string;
  TargetScheme : string;
  TargetAddress : string;
  AccessMode : string;
  Endpoint : string;
  LeaseDeadline : time;
  UserDeadline : option time;
  LeaseETag : string;
  State : string;
  AllocationState : string;
  EdgeState : string;
  OriginState : string;
  CreatedAt : time;
  LastRenewedAt : time;
  ExpectedGeneration : Z;
  RequestHash : string;
  KeyThumbprint : string;
  ConnectorID : string;
  ResourceKind : string;
  ResourceID : string;
  RouteID : string;
  Protocol : string;
  CarrierSessionID : string;
  ProcessGeneration : Z;
  ConfigGeneration : Z;
  SessionGeneration : Z;
  AssignmentGeneration : Z;
  Method : string;
  Host : string;
  Path : string;
  ConnectorGeneration : Z;
  InstallationGeneration : Z;
  EdgePool : string;
  EdgeNodeID : string;
  EdgeProcessEpoch : string;
  RouteBinding : string;
  IntentID : string;
  EndpointID : string;
  PeerEndpointID : string;
  AttemptGeneration : Z;
  NetworkGeneration : Z;
  PeerRole : string;
  RouteAllocation : string;
  RouteGeneration : Z;
  TargetGeneration : Z;
  InitiatorEndpointID : string;
  ResponderEndpointID : string;
  RelayByteLimit : Z;
  RelayCarriers : list string;
  FileTransferPolicy : option FileTransferPolicy;
}.
#[export] Instance settable : Settable CredentialInput := fun c =>
  mk
    (Issuer c) (Audience c) (Subject c) (JTI c) (IssuedAt c) (ExpiresAt c) (CredentialClass c) (Scopes c)
    (EnvironmentID c) (AccountID c) (EnrollmentID c) (AssignmentID c) (WarningRevision c) (HelperID c)
    (MachineID c) (SourceMachineID c) (UserID c) (ActorID c) (CLIClientSessionID c) (SessionID c)
    (OperationID c) (PreviewID c) (OwnerSessionID c) (IdempotencyKey c) (RequestID c) (CorrelationID c)
    (TargetScheme c) (TargetAddress c) (AccessMode c) (Endpoint c) (LeaseDeadline c) (UserDeadline c)
    (LeaseETag c) (State c) (AllocationState c) (EdgeState c) (OriginState c) (CreatedAt c) (LastRenewedAt c)
    (ExpectedGeneration c) (RequestHash c) (KeyThumbprint c) (ConnectorID c) (ResourceKind c) (ResourceID c)
    (RouteID c) (Protocol c) (CarrierSessionID c) (ProcessGeneration c) (ConfigGeneration c)
    (SessionGeneration c) (AssignmentGeneration c) (Method c) (Host c) (Path c) (ConnectorGeneration c)
    (InstallationGeneration c) (EdgePool c) (EdgeNodeID c) (EdgeProcessEpoch c) (RouteBinding c) (IntentID c)
    (EndpointID c) (PeerEndpointID c) (AttemptGeneration c) (NetworkGeneration c) (PeerRole c)
    (RouteAllocation c) (RouteGeneration c) (TargetGeneration c) (InitiatorEndpointID c)
    (ResponderEndpointID c) (RelayByteLimit c) (RelayCarriers c) (FileTransferPolicy c).
Definition zero : CredentialInput :=
  mk
    "" "" "" "" 0 0 "" [] "" "" "" "" "" "" "" "" "" "" "" "" "" "" "" "" "" "" "" "" "" "" 0 None "" "" "" ""
    "" 0 0 0 "" "" "" "" "" "" "" "" 0 0 0 0 "" "" "" 0 0 "" "" "" "" "" "" "" 0 0 "" "" 0 0 "" "" 0 [] None.
End CredentialInput.
Export (hints) CredentialInput.
Abbreviation CredentialInput := CredentialInput.CredentialInput.

(** ** What a credential claims *)
Module CredentialClaims.
Record CredentialClaims := mk {
  Issuer : string;
  Audience : string;
  Subject : string;
  JTI : string;
  IssuedAt : Z;
  ExpiresAt : Z;
  Scopes : list string;
  CredentialClass : string;
  EnvironmentID : string;
  AccountID : string;
  EnrollmentID : string;
  AssignmentID : string;
  WarningRevision : string;
  HelperID : string;
  MachineID : string;
  SourceMachineID : string;
  UserID : string;
  ActorID : string;
  CLIClientSessionID : string;
  SessionID : string;
  OperationID : string;
  PreviewID : string;
  OwnerSessionID : string;
  IdempotencyKey : string;
  RequestID : string;
  CorrelationID : string;
  TargetScheme : string;
  TargetAddress : string;
  AccessMode : string;
  Endpoint : string;
  LeaseDeadline : Z;
  UserDeadline : option Z;
  LeaseETag : string;
  State : string;
  AllocationState : string;
  EdgeState : string;
  OriginState : string;
  CreatedAt : Z;
  LastRenewedAt : Z;
  ExpectedGeneration : Z;
  RequestHash : string;
  KeyThumbprint : string;
  ConnectorGeneration : Z;
  ConnectorID : string;
  ResourceKind : string;
  ResourceID : string;
  RouteID : string;
  Protocol : string;
  CarrierSessionID : string;
  ProcessGeneration : Z;
  ConfigGeneration : Z;
  SessionGeneration : Z;
  AssignmentGeneration : Z;
  Method : string;
  Host : string;
  Path : string;
  InstallationGeneration : Z;
  EdgePool : string;
  EdgeNodeID : string;
  EdgeProcessEpoch : string;
  RouteBinding : string;
  IntentID : string;
  EndpointID : string;
  PeerEndpointID : string;
  AttemptGeneration : Z;
  NetworkGeneration : Z;
  PeerRole : string;
  RouteAllocation : string;
  RouteGeneration : Z;
  TargetGeneration : Z;
  InitiatorEndpointID : string;
  ResponderEndpointID : string;
  RelayByteLimit : Z;
  RelayCarriers : list string;
  FileTransferPolicy : option FileTransferPolicy;
}.
#[export] Instance settable : Settable CredentialClaims := fun c =>
  mk
    (Issuer c) (Audience c) (Subject c) (JTI c) (IssuedAt c) (ExpiresAt c) (Scopes c) (CredentialClass c)
    (EnvironmentID c) (AccountID c) (EnrollmentID c) (AssignmentID c) (WarningRevision c) (HelperID c)
    (MachineID c) (SourceMachineID c) (UserID c) (ActorID c) (CLIClientSessionID c) (SessionID c)
    (OperationID c) (PreviewID c) (OwnerSessionID c) (IdempotencyKey c) (RequestID c) (CorrelationID c)
    (TargetScheme c) (TargetAddress c) (AccessMode c) (Endpoint c) (LeaseDeadline c) (UserDeadline c)
    (LeaseETag c) (State c) (AllocationState c) (EdgeState c) (OriginState c) (CreatedAt c) (LastRenewedAt c)
    (ExpectedGeneration c) (RequestHash c) (KeyThumbprint c) (ConnectorGeneration c) (ConnectorID c)
    (ResourceKind c) (ResourceID c) (RouteID c) (Protocol c) (CarrierSessionID c) (ProcessGeneration c)
    (ConfigGeneration c) (SessionGeneration c) (AssignmentGeneration c) (Method c) (Host c) (Path c)
    (InstallationGeneration c) (EdgePool c) (EdgeNodeID c) (EdgeProcessEpoch c) (RouteBinding c) (IntentID c)
    (EndpointID c) (PeerEndpointID c) (AttemptGeneration c) (NetworkGeneration c) (PeerRole c)
    (RouteAllocation c) (RouteGeneration c) (TargetGeneration c) (InitiatorEndpointID c)
    (ResponderEndpointID c) (RelayByteLimit c) (RelayCarriers c) (FileTransferPolicy c).
Definition zero : CredentialClaims :=
  mk
    "" "" "" "" 0 0 [] "" "" "" "" "" "" "" "" "" "" "" "" "" "" "" "" "" "" "" "" "" "" "" 0 None "" "" "" ""
    "" 0 0 0 "" "" 0 "" "" "" "" "" "" 0 0 0 0 "" "" "" 0 "" "" "" "" "" "" "" 0 0 "" "" 0 0 "" "" 0 [] None.
End CredentialClaims.
Export (hints) CredentialClaims.
Abbreviation CredentialClaims := CredentialClaims.CredentialClaims.

Section ClaimsFields.
Import CredentialClaims.
Definition CredentialClaims_fields : list (field CredentialClaims) :=
  [fld "iss" raw_string Issuer; fld "aud" raw_string Audience; fld "sub" raw_string Subject;
   fld "jti" raw_string JTI; fld "iat" raw_i64 IssuedAt; fld "exp" raw_i64 ExpiresAt;
   fld "scope" raw_strings Scopes; fld "credential_class" raw_string CredentialClass;
   fld "environment_id" raw_string EnvironmentID; fld "account_id" raw_string AccountID;
   fld "enrollment_id" raw_string EnrollmentID; fld "assignment_id" raw_string AssignmentID;
   fld "warning_revision" raw_string WarningRevision; fld "helper_id" raw_string HelperID;
   fld "machine_id" raw_string MachineID; fld "source_machine_id" raw_string SourceMachineID;
   fld "user_id" raw_string UserID; fld "actor_id" raw_string ActorID;
   fld "cli_client_session_id" raw_string CLIClientSessionID; fld "session_id" raw_string SessionID;
   fld "operation_id" raw_string OperationID; fld "preview_id" raw_string PreviewID;
   fld "owner_session_id" raw_string OwnerSessionID; fld "idempotency_key" raw_string IdempotencyKey;
   fld "request_id" raw_string RequestID; fld "correlation_id" raw_string CorrelationID;
   fld "target_scheme" raw_string TargetScheme; fld "target_address" raw_string TargetAddress;
   fld "access_mode" raw_string AccessMode; fld "endpoint" raw_string Endpoint;
   fld "lease_deadline" raw_i64 LeaseDeadline; fld "user_deadline" raw_i64_ptr UserDeadline;
   fld "lease_etag" raw_string LeaseETag; fld "state" raw_string State;
   fld "allocation_state" raw_string AllocationState; fld "edge_state" raw_string EdgeState;
   fld "origin_state" raw_string OriginState; fld "created_at" raw_i64 CreatedAt;
   fld "last_renewed_at" raw_i64 LastRenewedAt; fld "expected_generation" raw_i64 ExpectedGeneration;
   fld "request_hash" raw_string RequestHash; fld "key_thumbprint" raw_string KeyThumbprint;
   fld "connector_generation" raw_i64 ConnectorGeneration; fld "connector_id" raw_string ConnectorID;
   fld "resource_kind" raw_string ResourceKind; fld "resource_id" raw_string ResourceID;
   fld "route_id" raw_string RouteID; fld "protocol" raw_string Protocol;
   fld "carrier_session_id" raw_string CarrierSessionID; fld "process_generation" raw_i64 ProcessGeneration;
   fld "config_generation" raw_i64 ConfigGeneration; fld "session_generation" raw_i64 SessionGeneration;
   fld "assignment_generation" raw_i64 AssignmentGeneration; fld "method" raw_string Method;
   fld "host" raw_string Host; fld "path" raw_string Path;
   fld "installation_generation" raw_i64 InstallationGeneration; fld "edge_pool" raw_string EdgePool;
   fld "edge_node_id" raw_string EdgeNodeID; fld "edge_process_epoch" raw_string EdgeProcessEpoch;
   fld "route_binding" raw_string RouteBinding; fld "intent_id" raw_string IntentID;
   fld "endpoint_id" raw_string EndpointID; fld "peer_endpoint_id" raw_string PeerEndpointID;
   fld "attempt_generation" raw_i64 AttemptGeneration; fld "network_generation" raw_i64 NetworkGeneration;
   fld "peer_role" raw_string PeerRole; fld "route_allocation" raw_string RouteAllocation;
   fld "route_generation" raw_i64 RouteGeneration; fld "target_generation" raw_i64 TargetGeneration;
   fld "initiator_endpoint_id" raw_string InitiatorEndpointID;
   fld "responder_endpoint_id" raw_string ResponderEndpointID; fld "relay_byte_limit" raw_i64 RelayByteLimit;
   fld "relay_carriers" raw_strings RelayCarriers;
   fld "file_transfer_policy" raw_policy_ptr FileTransferPolicy].
End ClaimsFields.

(** * The credentials of the control plane: policies and checks

    src/internal/mint/mint.go: the policy of each class, and the checks that
    [SignCredential] makes of an input and [verifyCredential] of a claim set.  A
    check that returns an error in Go returns its text here. *)

(** Bytes as a string. *)
Definition string_of_codes (l : list Z) : string := of_bytes (byte_of <$> l).

(** ** Policies *)
Record policy := mkPolicy { audience : string; scopes : list string; maxTTL : duration }.
Definition credentialPolicies (class : string) : option policy :=
  if class == "helper_enrollment" then Some (mkPolicy "paperboat-enrollment" ["helper:enroll"] (10 * Minute))
  else if class == "helper_identity"
  then Some (mkPolicy "paperboat-control" ["helper:connect"; "helper:renew"] Hour)
  else if class == "machine_control"
  then Some (mkPolicy "paperboat-control" ["machine:connect"; "machine:renew"] Hour)
  else if class == "connector_admission" then Some (mkPolicy "paperboat-edge" ["connector:admit"] (5 * Minute))
  else if class == "peer_signaling" then Some (mkPolicy "paperboat-edge" ["peer:signal"] (5 * Minute))
  else if class == "peer_relay" then Some (mkPolicy "paperboat-edge" ["peer:relay"] (5 * Minute))
  else if class == "peer_pmtu" then Some (mkPolicy "paperboat-edge" ["peer:pmtu"] (5 * Minute))
  else if class == "config_sync"
  then Some (mkPolicy "paperboat-machine" ["config:pull"; "config:apply"; "config:report"] (5 * Minute))
  else if class == "terminal_operation" then Some (mkPolicy "paperboat-machine" [] (5 * Minute))
  else if class == "exec_operation" then Some (mkPolicy "paperboat-machine" ["exec:operate"] (5 * Minute))
  else if class == "ssh_operation" then Some (mkPolicy "paperboat-machine" ["ssh:operate"] (5 * Minute))
  else if class == "preview_launch" then Some (mkPolicy "paperboat-machine" ["preview:launch"] (5 * Minute))
  else if class == "private_access" then Some (mkPolicy "paperboat-edge" ["private:access"] (2 * Minute))
  else if class == "native_private" then Some (mkPolicy "paperboat-machine" ["private:native"] (5 * Minute))
  else if class == "file_transfer" then Some (mkPolicy "paperboat-machine" ["file:transfer"] (5 * Minute))
  else None.

Definition credentialAudienceAllowed (class audience defaultAudience : string) : bool :=
  if class != "private_access" then audience == defaultAudience
  else bool_decide (audience ∈ ["paperboat-preview-http"; "paperboat-tunnel-http"; "paperboat-tunnel-tcp"]).

Definition credentialScopesAllowed (class : string) (scopes fixed : list string) : bool :=
  if class == "terminal_operation" then
    match scopes with
    | [s] => bool_decide (s ∈ ["terminal:view"; "terminal:control"; "terminal:operate"])
    | _ => false
    end
  else scopes == fixed.

(** ** Checks of single fields *)
Definition alnum_rune (r : Z) : bool :=
  ((97 <=? r) && (r <=? 122)) || ((65 <=? r) && (r <=? 90)) || ((48 <=? r) && (r <=? 57)).
(** [-] is 45 and [_] is 95. *)
Definition token_runes (value : string) : bool :=
  forallb (fun r => (r =? 45) || (r =? 95) || alnum_rune r) (runes value).
Definition visible_runes (value : string) : bool :=
  forallb (fun r => negb ((r <? 0x20) || (r =? 0x7f) || (r =? 32) || (r =? 9) || (r =? 13) || (r =? 10))) (runes value).
Definition within (minimum maximum : Z) (value : string) : bool := (minimum <=? slen value) && (slen value <=? maximum).

Definition validPrivateAccessEpoch (value : string) : bool := within 8 128 value && token_runes value.
Definition validOperationID (value : string) : bool := within 8 128 value && token_runes value.
Definition validCredentialBindingID (value : string) : bool :=
  within 3 128 (TrimSpace value) && visible_runes (TrimSpace value).
Definition validPreviewLaunchTrace (value : string) (minimum maximum : Z) : bool :=
  within minimum maximum value && visible_runes value.
Definition validPreviewLaunchHash (value : string) : bool :=
  (slen value =? 64)
  && match hex_DecodeString value with
     | Some decoded => (Z.of_nat (length decoded) =? 32) && (ToLower value == value)
     | None => false
     end.

Definition validPreviewLaunchETag (value previewID : string) (expectedGeneration : Z) : bool :=
  let value := TrimSpace value in
  if (slen value <? 2) || negb (HasPrefix value dquote) || negb (HasSuffix value dquote) then false else
  match Split (Trim value dquote) ":" with
  | [a; b; c; d] =>
      if (a != "ptv1") || (b != "preview_lease") then false else
      match b64_decode c with
      | Some decoded =>
          if (string_of_codes decoded != previewID) || (b64_encode decoded != c) then false else
          match ParseInt 64 d with
          | Some generation => (generation =? expectedGeneration) && (0 <? generation)
          | None => false
          end
      | None => false
      end
  | _ => false
  end.

Definition validPreviewLaunchState (state allocation edge origin : string) : bool :=
  bool_decide (state ∈ ["allocating"; "connecting"; "ready"])
  && bool_decide (allocation ∈ ["pending"; "ready"; "failed"; "released"])
  && bool_decide (edge ∈ ["pending"; "ready"; "degraded"; "down"])
  && bool_decide (origin ∈ ["unknown"; "ready"; "unavailable"; "degraded"; "down"]).

(** [.] is 46 and [:] is 58; the first rune is a letter or a digit. *)
Definition validFileTransferID (value : string) (maximum : Z) : bool :=
  within 1 maximum value
  && match runes value with
     | r :: rs =>
         alnum_rune r
         && forallb (fun r => alnum_rune r || (r =? 95) || (r =? 46) || (r =? 58) || (r =? 45)) rs
     | [] => true
     end.
Definition validFileTransferApproval (requestID batchID digest : string) : bool :=
  if (requestID == "") && (batchID == "") && (digest == "") then true
  else validFileTransferID requestID 256 && validFileTransferID batchID 128 && validPreviewLaunchHash digest.

(** [strconv.ParseUint(port, 10, 16)] *)
Definition ParseUint16 (s : string) : option Z :=
  if is_digits s && (digits_val s 0 <? 65536) then Some (digits_val s 0) else None.
Definition validateNativePrivateValues (account machine user operation resourceKind resourceID routeID protocol scheme
    address : string) (resourceGeneration routeGeneration targetGeneration : Z) : option string :=
  let validScheme := ((protocol == "http") && bool_decide (scheme ∈ ["http"; "https"; "h2c"]))
                     || ((protocol == "tcp") && (scheme == "tcp")) in
  let validAddress := match SplitHostPort address with
                      | Some (host, port) =>
                          match ParseUint16 port with
                          | Some p => negb (p =? 0) && (Itoa p == port) && ((host == "127.0.0.1") || (host == "::1"))
                          | None => false
                          end
                      | None => false
                      end in
  if (account == "") || (machine == "") || (user == "") || negb (validOperationID operation)
     || ((resourceKind != "preview") && (resourceKind != "tunnel"))
     || ((resourceKind == "preview") && (protocol != "http")) || (resourceID == "") || (routeID == "")
     || (resourceGeneration <? 1) || (routeGeneration <? 1) || (targetGeneration <? 1) || negb validScheme
     || negb validAddress
  then Some "native private target is invalid" else None.

(** A base64 text of [size] bytes, in its canonical form. *)
Definition canonical_base64 (size : Z) (text : string) : bool :=
  match b64_decode text with
  | Some bytes => (Z.of_nat (length bytes) =? size) && (b64_encode bytes == text)
  | None => false
  end.
Definition crlf : string := String (byte_of 13) (String (byte_of 10) "").
Definition valid_carriers (class : string) (carriers : list string) : bool :=
  ((class == "peer_pmtu") && match carriers with [] => true | _ => false end)
  || ((class == "peer_relay") && (carriers == ["relay_quic"; "relay_wss"])).

(** ** Checks of an input *)
Section Input.
Import CredentialInput.
Implicit Types (i : CredentialInput).

Definition validatePreviewLaunchInput i : option string :=
  let issuedAt := IssuedAt i in
  if (AccountID i == "") || (MachineID i == "") || (UserID i == "") || (ActorID i == "") || (PreviewID i == "")
     || (OwnerSessionID i == "") || negb (validOperationID (OperationID i))
  then Some "identity bindings are incomplete"
  else if (Subject i != UserID i) || negb (validCredentialBindingID (AccountID i))
     || negb (validCredentialBindingID (ActorID i)) || negb (validCredentialBindingID (MachineID i))
     || negb (validCredentialBindingID (PreviewID i)) || negb (validCredentialBindingID (OwnerSessionID i))
  then Some "identity bindings are invalid"
  else if negb (validPreviewLaunchTrace (IdempotencyKey i) 1 256) || negb (validPreviewLaunchTrace (RequestID i) 3 128)
     || negb (validPreviewLaunchTrace (CorrelationID i) 3 128)
  then Some "trace bindings are invalid"
  else if negb (bool_decide (TargetScheme i ∈ ["http"; "https"; "h2c"; "unix"; "tcp"]))
  then Some "target scheme is invalid"
  else if (TargetAddress i == "") || (512 <? slen (TargetAddress i)) || ContainsAny (TargetAddress i) crlf
     || ((AccessMode i != "public") && (AccessMode i != "private"))
  then Some "target binding is invalid"
  else if (Endpoint i == "") || negb (HasPrefix (Endpoint i) "https://") || ContainsAny (Endpoint i) crlf
  then Some "endpoint binding is invalid"
  else if IsZero (LeaseDeadline i) || negb (After (LeaseDeadline i) issuedAt)
     || match UserDeadline i with
        | Some u => IsZero u || Before u issuedAt || After u (LeaseDeadline i)
        | None => false
        end
  then Some "lease deadline binding is invalid"
  else if IsZero (CreatedAt i) || IsZero (LastRenewedAt i) || Before (LastRenewedAt i) (CreatedAt i)
     || After (CreatedAt i) (LeaseDeadline i)
  then Some "lease timestamps are invalid"
  else if (ExpectedGeneration i <? 1)
     || negb (validPreviewLaunchETag (LeaseETag i) (PreviewID i) (ExpectedGeneration i))
  then Some "lease generation binding is invalid"
  else if negb (validPreviewLaunchHash (RequestHash i)) then Some "request hash binding is invalid"
  else if negb (validPreviewLaunchState (State i) (AllocationState i) (EdgeState i) (OriginState i))
  then Some "lease state binding is invalid"
  else None.

Definition validatePrivateAccessInput i : option string :=
  if negb (forallb validCredentialBindingID [AccountID i; UserID i; MachineID i; SessionID i; ResourceID i; RouteID i;
             CarrierSessionID i; EdgeNodeID i])
     || negb (validPrivateAccessEpoch (EdgeProcessEpoch i)) || (JTI i == "") || (AccessMode i != "private")
     || (InstallationGeneration i <? 1) || (RouteGeneration i <? 1) || (SessionGeneration i <? 1)
     || (ProcessGeneration i <? 1) || (ConfigGeneration i <? 1) || (AssignmentGeneration i <? 1)
  then Some "private access identity bindings are incomplete"
  else if (ResourceKind i != "preview") && (ResourceKind i != "tunnel")
  then Some "private access resource kind is invalid"
  else if (Protocol i != "http") && (Protocol i != "tcp") then Some "private access protocol is invalid"
  else if (ResourceKind i == "preview") && negb (validOperationID (OperationID i))
  then Some "private preview operation binding is invalid"
  else if (ResourceKind i == "tunnel") && negb (validCredentialBindingID (ConnectorID i))
  then Some "private tunnel connector binding is invalid"
  else if (Protocol i == "tcp") && (ResourceKind i != "tunnel") then Some "private TCP is only supported for tunnels"
  else if negb (validPreviewLaunchHash (RequestHash i)) then Some "private access request hash is invalid"
  else if negb (validPreviewLaunchTrace (IdempotencyKey i) 1 256) || negb (validPreviewLaunchTrace (RequestID i) 3 128)
     || negb (validPreviewLaunchTrace (CorrelationID i) 3 128)
  then Some "private access trace is invalid"
  else if Protocol i == "http" then
    if negb (validPreviewLaunchTrace (Method i) 1 32) || negb (validPreviewLaunchTrace (Host i) 1 512)
       || negb (within 1 4096 (Path i)) || negb (HasPrefix (Path i) "/")
    then Some "private access HTTP binding is invalid" else None
  else if (Method i != "") || (Host i != "") || (Path i != "") then Some "private access TCP binding is invalid"
  else None.

Definition validateNativePrivateInput i : option string :=
  if (CLIClientSessionID i == "") || (AssignmentID i == "") then Some "native private access session is invalid"
  else validateNativePrivateValues (AccountID i) (MachineID i) (UserID i) (OperationID i) (ResourceKind i)
         (ResourceID i) (RouteID i) (Protocol i) (TargetScheme i) (TargetAddress i) (ExpectedGeneration i)
         (RouteGeneration i) (TargetGeneration i).

(** The bindings that [SignCredential] requires of the class. *)
Definition shared_terminal (scopes : list string) : bool := hd "" scopes != "terminal:operate".
Definition input_bindings i : option string :=
  let class := CredentialClass i in
  let unless (bad : bool) (e : string) := if bad then Some e else None in
  if class == "helper_enrollment" then unless (EnrollmentID i == "") "enrollment binding is required"
  else if class == "helper_identity" then
    unless ((HelperID i == "") || (MachineID i == "") || (KeyThumbprint i == ""))
      "helper identity bindings are required"
  else if class == "machine_control" then
    unless ((UserID i == "") || (MachineID i == "") || (KeyThumbprint i == "") || (InstallationGeneration i <? 1)
            || (SessionGeneration i <? 1)) "machine control bindings are required"
  else if class == "connector_admission" then
    unless ((MachineID i == "") || (InstallationGeneration i <? 1) || (ConnectorID i == "")
            || (ConnectorGeneration i <? 1) || (EdgePool i == "") || (EdgeNodeID i == "")
            || negb (canonical_base64 32 (RouteBinding i))) "connector admission bindings are required"
  else if class == "peer_signaling" then
    unless ((Subject i != EndpointID i) || (IntentID i == "") || (EndpointID i == "") || (PeerEndpointID i == "")
            || (EndpointID i == PeerEndpointID i) || (AttemptGeneration i <? 1) || (NetworkGeneration i <? 1)
            || (EdgeNodeID i == "") || ((PeerRole i != "controlling") && (PeerRole i != "controlled")))
      "peer signaling bindings are required"
  else if (class == "peer_relay") || (class == "peer_pmtu") then
    unless (negb (canonical_base64 16 (RouteAllocation i)) || (Subject i != IntentID i) || (IntentID i == "")
            || (EdgeNodeID i == "") || (InitiatorEndpointID i == "") || (ResponderEndpointID i == "")
            || (InitiatorEndpointID i == ResponderEndpointID i) || (AttemptGeneration i <? 1)
            || (NetworkGeneration i <? 1) || (RouteGeneration i <? 1) || (RelayByteLimit i <? 1)
            || (Z.shiftl 1 40 <? RelayByteLimit i) || negb (valid_carriers class (RelayCarriers i)))
      "peer relay bindings are required"
  else if class == "config_sync" then
    unless ((MachineID i == "") || (InstallationGeneration i <? 1) || (AssignmentID i == "")
            || (WarningRevision i == "")) "config sync bindings are required"
  else if class == "terminal_operation" then
    unless ((MachineID i == "") || (UserID i == "") || (CLIClientSessionID i == "") || (SessionID i == "")
            || (shared_terminal (Scopes i)
                && ((AssignmentID i == "") || (AccountID i == "") || (AccountID i != UserID i)
                    || (ExpectedGeneration i <? 1)))) "machine access bindings are required"
  else if class == "exec_operation" then
    unless ((MachineID i == "") || (UserID i == "") || (CLIClientSessionID i == "")
            || negb (validOperationID (OperationID i))) "exec operation bindings are required"
  else if class == "ssh_operation" then
    unless ((MachineID i == "") || (UserID i == "") || (CLIClientSessionID i == "")
            || negb (validOperationID (OperationID i))) "ssh operation bindings are required"
  else if class == "preview_launch" then
    match validatePreviewLaunchInput i with Some _ => Some "preview launch bindings are required" | None => None end
  else if class == "private_access" then
    match validatePrivateAccessInput i with Some _ => Some "private access bindings are required" | None => None end
  else if class == "native_private" then
    match validateNativePrivateInput i with Some _ => Some "native private bindings are required" | None => None end
  else if class == "file_transfer" then
    if negb (validFileTransferApproval (RequestID i) (IdempotencyKey i) (RequestHash i))
    then Some "file transfer approval bindings are invalid"
    else unless ((MachineID i == "") || (SourceMachineID i == "") || (UserID i == "") || (CLIClientSessionID i == ""))
           "machine transfer bindings are required"
  else None.
End Input.

(** ** Checks of a claim set *)
Section Claims.
Import CredentialClaims.
Implicit Types (c : CredentialClaims).

Definition validatePreviewLaunchClaims c : option string :=
  if (AccountID c == "") || (MachineID c == "") || (UserID c == "") || (ActorID c == "") || (PreviewID c == "")
     || (OwnerSessionID c == "") || negb (validOperationID (OperationID c))
  then Some "identity bindings are incomplete"
  else if (Subject c != UserID c) || negb (validCredentialBindingID (AccountID c))
     || negb (validCredentialBindingID (ActorID c)) || negb (validCredentialBindingID (MachineID c))
     || negb (validCredentialBindingID (PreviewID c)) || negb (validCredentialBindingID (OwnerSessionID c))
  then Some "identity bindings are invalid"
  else if negb (validPreviewLaunchTrace (IdempotencyKey c) 1 256) || negb (validPreviewLaunchTrace (RequestID c) 3 128)
     || negb (validPreviewLaunchTrace (CorrelationID c) 3 128)
  then Some "trace bindings are invalid"
  else if negb (bool_decide (TargetScheme c ∈ ["http"; "https"; "h2c"; "unix"; "tcp"]))
  then Some "target scheme is invalid"
  else if (TargetAddress c == "") || (512 <? slen (TargetAddress c)) || ContainsAny (TargetAddress c) crlf
     || ((AccessMode c != "public") && (AccessMode c != "private"))
  then Some "target binding is invalid"
  else if (Endpoint c == "") || negb (HasPrefix (Endpoint c) "https://") || ContainsAny (Endpoint c) crlf
     || (LeaseDeadline c <=? IssuedAt c)
     || match UserDeadline c with
        | Some u => (u <=? IssuedAt c) || (LeaseDeadline c <? u)
        | None => false
        end
  then Some "lease deadline binding is invalid"
  else if (CreatedAt c <=? 0) || (LastRenewedAt c <? CreatedAt c) || (LeaseDeadline c <? CreatedAt c)
  then Some "lease timestamps are invalid"
  else if (ExpectedGeneration c <? 1)
     || negb (validPreviewLaunchETag (LeaseETag c) (PreviewID c) (ExpectedGeneration c))
     || negb (validPreviewLaunchHash (RequestHash c))
  then Some "lease generation binding is invalid"
  else if negb (validPreviewLaunchState (State c) (AllocationState c) (EdgeState c) (OriginState c))
  then Some "lease state binding is invalid"
  else None.

Definition validatePrivateAccessClaims c : option string :=
  if negb (forallb validCredentialBindingID [AccountID c; UserID c; MachineID c; SessionID c; ResourceID c; RouteID c;
             CarrierSessionID c; EdgeNodeID c])
     || negb (validPrivateAccessEpoch (EdgeProcessEpoch c)) || (JTI c == "") || (AccessMode c != "private")
     || (InstallationGeneration c <? 1) || (RouteGeneration c <? 1) || (SessionGeneration c <? 1)
     || (ProcessGeneration c <? 1) || (ConfigGeneration c <? 1) || (AssignmentGeneration c <? 1)
  then Some "private access identity bindings are incomplete"
  else if (ResourceKind c != "preview") && (ResourceKind c != "tunnel")
  then Some "private access resource kind is invalid"
  else if (Protocol c != "http") && (Protocol c != "tcp") then Some "private access protocol is invalid"
  else if (ResourceKind c == "preview") && negb (validOperationID (OperationID c))
  then Some "private preview operation binding is invalid"
  else if (ResourceKind c == "tunnel") && negb (validCredentialBindingID (ConnectorID c))
  then Some "private tunnel connector binding is invalid"
  else if (Protocol c == "tcp") && (ResourceKind c != "tunnel") then Some "private TCP is only supported for tunnels"
  else if negb (validPreviewLaunchHash (RequestHash c)) then Some "private access request hash is invalid"
  else if negb (validPreviewLaunchTrace (IdempotencyKey c) 1 256) || negb (validPreviewLaunchTrace (RequestID c) 3 128)
     || negb (validPreviewLaunchTrace (CorrelationID c) 3 128)
  then Some "private access trace is invalid"
  else if Protocol c == "http" then
    if negb (validPreviewLaunchTrace (Method c) 1 32) || negb (validPreviewLaunchTrace (Host c) 1 512)
       || negb (within 1 4096 (Path c)) || negb (HasPrefix (Path c) "/")
    then Some "private access HTTP binding is invalid" else None
  else if (Method c != "") || (Host c != "") || (Path c != "") then Some "private access TCP binding is invalid"
  else None.

Definition validateNativePrivateClaims c : option string :=
  if (CLIClientSessionID c == "") || (AssignmentID c == "") then Some "native private access session is invalid"
  else validateNativePrivateValues (AccountID c) (MachineID c) (UserID c) (OperationID c) (ResourceKind c)
         (ResourceID c) (RouteID c) (Protocol c) (TargetScheme c) (TargetAddress c) (ExpectedGeneration c)
         (RouteGeneration c) (TargetGeneration c).

(** The bindings that [verifyCredential] requires of the class. *)
Definition claims_bound (class : string) c : bool :=
  let ok (e : option string) := match e with None => true | Some _ => false end in
  if class == "helper_enrollment" then negb (EnrollmentID c == "")
  else if class == "helper_identity" then
    negb ((HelperID c == "") || (MachineID c == "") || (KeyThumbprint c == ""))
  else if class == "machine_control" then
    negb ((UserID c == "") || (MachineID c == "") || (KeyThumbprint c == "") || (InstallationGeneration c <? 1)
          || (SessionGeneration c <? 1))
  else if class == "connector_admission" then
    negb ((MachineID c == "") || (InstallationGeneration c <? 1) || (ConnectorID c == "")
          || (ConnectorGeneration c <? 1) || (EdgePool c == "") || (EdgeNodeID c == "")
          || negb (canonical_base64 32 (RouteBinding c)))
  else if class == "peer_signaling" then
    negb ((Subject c != EndpointID c) || (IntentID c == "") || (EndpointID c == "") || (PeerEndpointID c == "")
          || (EndpointID c == PeerEndpointID c) || (AttemptGeneration c <? 1) || (NetworkGeneration c <? 1)
          || (EdgeNodeID c == "") || ((PeerRole c != "controlling") && (PeerRole c != "controlled")))
  else if (class == "peer_relay") || (class == "peer_pmtu") then
    negb (negb (canonical_base64 16 (RouteAllocation c)) || (Subject c != IntentID c) || (IntentID c == "")
          || (EdgeNodeID c == "") || (InitiatorEndpointID c == "") || (ResponderEndpointID c == "")
          || (InitiatorEndpointID c == ResponderEndpointID c) || (AttemptGeneration c <? 1)
          || (NetworkGeneration c <? 1) || (RouteGeneration c <? 1) || (RelayByteLimit c <? 1)
          || (Z.shiftl 1 40 <? RelayByteLimit c) || negb (valid_carriers (CredentialClass c) (RelayCarriers c)))
  else if class == "config_sync" then
    negb ((MachineID c == "") || (InstallationGeneration c <? 1) || (AssignmentID c == "") || (WarningRevision c == ""))
  else if class == "terminal_operation" then
    negb ((MachineID c == "") || (UserID c == "") || (CLIClientSessionID c == "") || (SessionID c == "")
          || (shared_terminal (Scopes c) && (AssignmentID c == "")))
  else if (class == "exec_operation") || (class == "ssh_operation") then
    negb ((MachineID c == "") || (UserID c == "") || (CLIClientSessionID c == "")
          || negb (validOperationID (OperationID c)))
  else if class == "preview_launch" then ok (validatePreviewLaunchClaims c)
  else if class == "private_access" then ok (validatePrivateAccessClaims c)
  else if class == "native_private" then ok (validateNativePrivateClaims c)
  else if class == "file_transfer" then
    validFileTransferApproval (RequestID c) (IdempotencyKey c) (RequestHash c)
    && negb ((MachineID c == "") || (SourceMachineID c == "") || (UserID c == "") || (CLIClientSessionID c == ""))
  else true.
End Claims.
