(* ===== verification/Mint.v ===== *)
(** * The credentials of the control plane: signing and verifying

    [Provider] of src/internal/mint/mint.go: a credential is a compact JWT signed
    with Ed25519, whose claims depend on its class.  Ed25519 itself is an
    argument: [ed25519_Sign] of a private key, [ed25519_Verify] of a public key,
    and [ed25519_Public], the public half of a private key. *)
From S2P Require Import Prelude GoText GoHash GoUrl GoJson GoNet Errors Canonical Identifiers WireConfig GoTime GoStruct.
From S2P Require Import MintTypes.

Abbreviation MRes A := (result string A).

(** ** Times and encodings *)

(** [Time.Unix], and [time.Unix(sec, 0)]. *)
Definition unix_epoch : Z := 62135596800.
Definition Unix (t : time) : Z := t / Second - unix_epoch.
Definition time_Unix (sec : Z) : time := (sec + unix_epoch) * Second.

Definition encode (value : string) : string := b64_encode (Sha256.codes value).

(** [base64.RawURLEncoding.DecodeString], which is not strict: line ends are
    skipped and the unused low bits of the last character are dropped. *)
Fixpoint b64_loose (s : string) : option (list Z) :=
  match s with
  | EmptyString => Some []
  | String p (String q EmptyString) => x ← b64_val p; y ← b64_val q; Some [x * 4 + y / 16]
  | String p (String q (String r EmptyString)) =>
      x ← b64_val p; y ← b64_val q; z ← b64_val r; Some [x * 4 + y / 16; y mod 16 * 16 + z / 4]
  | String p (String q (String r (String t s'))) =>
      x ← b64_val p; y ← b64_val q; z ← b64_val r; w ← b64_val t;
      l ← b64_loose s';
      Some (x * 4 + y / 16 :: y mod 16 * 16 + z / 4 :: z mod 4 * 64 + w :: l)
  | String _ EmptyString => None
  end.
Definition b64_DecodeString (s : string) : option (list Z) :=
  b64_loose (drop_bytes (fun c => is_byte 10 c || is_byte 13 c) s).

(** ** Providers *)
Record Key := mkKey { ID : string; PrivateKey : list Z }.
Record Provider := mkProvider { activeID : string; keys : gmap string (list Z); maxAge : duration }.

Definition defaultMaxAge : duration := 5 * Minute.
Fixpoint add_keys (ks : list Key) (m : gmap string (list Z)) : MRes (gmap string (list Z)) :=
  match ks with
  | [] => Ok m
  | k :: ks' =>
      let id := TrimSpace (ID k) in
      if (id == "") || negb (Z.of_nat (length (PrivateKey k)) =? 64)
      then Err "mint keys require a non-empty id and Ed25519 private key"
      else match m !! id with
           | Some _ => Err "duplicate mint key id"
           | None => add_keys ks' (<[id := PrivateKey k]> m)
           end
  end.
Definition New (ks : list Key) (activeID : string) (maxAge : duration) : MRes Provider :=
  let maxAge := if maxAge <=? 0 then defaultMaxAge else maxAge in
  match add_keys ks ∅ with
  | Err e => Err e
  | Ok m =>
      if bool_decide (m = ∅) then Err "at least one mint key is required"
      else match m !! TrimSpace activeID with
           | None => Err "active mint key is not published"
           | Some _ => Ok (mkProvider (TrimSpace activeID) m maxAge)
           end
  end.

(** ** The claims of a class *)

(** The values of the map, and how [json.Marshal] writes them. *)
Inductive claim := Text (s : string) | Number (n : Z) | Texts (l : list string) | Policy (p : FileTransferPolicy).
Definition claim_json (v : claim) : json :=
  match v with
  | Text s => JString s
  | Number n => JNumber (Itoa n)
  | Texts l => JArray (JString <$> l)
  | Policy p => FileTransferPolicy_json p
  end.
Definition claim_map := list (string * claim).
Definition claims_text (m : claim_map) : string := Marshal (JObject (prod_map id claim_json <$> m)).

Definition set_texts (kvs : list (string * string)) (m : claim_map) : claim_map :=
  fold_left (fun m kv => map_set (fst kv) (Text (snd kv)) m) kvs m.
Definition set_numbers (kvs : list (string * Z)) (m : claim_map) : claim_map :=
  fold_left (fun m kv => map_set (fst kv) (Number (snd kv)) m) kvs m.
(** A claim that is set when its value is not empty. *)
Definition set_text_if (k v : string) (m : claim_map) : claim_map := if v == "" then m else set_texts [(k, v)] m.

Section Claims.
Import CredentialInput.
Implicit Types (i : CredentialInput).

Definition base_claims i : claim_map :=
  map_set "scope" (Texts (Scopes i))
    (set_numbers [("iat", Unix (IssuedAt i)); ("exp", Unix (ExpiresAt i))]
      (set_texts [("iss", Issuer i); ("aud", Audience i); ("sub", Subject i); ("jti", JTI i);
                  ("credential_class", CredentialClass i); ("environment_id", EnvironmentID i)] [])).

Definition class_claims i (m : claim_map) : claim_map :=
  let class := CredentialClass i in
  if class == "helper_enrollment" then set_texts [("enrollment_id", EnrollmentID i)] m
  else if class == "helper_identity" then
    set_texts [("helper_id", HelperID i); ("machine_id", MachineID i); ("key_thumbprint", KeyThumbprint i)] m
  else if class == "machine_control" then
    set_numbers [("installation_generation", InstallationGeneration i); ("session_generation", SessionGeneration i)]
      (set_texts [("user_id", UserID i); ("machine_id", MachineID i); ("key_thumbprint", KeyThumbprint i)] m)
  else if class == "connector_admission" then
    map_set "file_transfer_policy"
      (Policy (default DefaultFileTransferPolicy (FileTransferPolicy i)))
      (set_numbers [("installation_generation", InstallationGeneration i);
                    ("connector_generation", ConnectorGeneration i)]
        (set_texts [("machine_id", MachineID i); ("connector_id", ConnectorID i); ("edge_pool", EdgePool i);
                    ("edge_node_id", EdgeNodeID i); ("route_binding", RouteBinding i)] m))
  else if class == "peer_signaling" then
    set_numbers [("attempt_generation", AttemptGeneration i); ("network_generation", NetworkGeneration i)]
      (set_texts [("intent_id", IntentID i); ("endpoint_id", EndpointID i); ("peer_endpoint_id", PeerEndpointID i);
                  ("peer_role", PeerRole i); ("edge_node_id", EdgeNodeID i)] m)
  else if (class == "peer_relay") || (class == "peer_pmtu") then
    let m := set_numbers [("attempt_generation", AttemptGeneration i); ("network_generation", NetworkGeneration i);
                          ("route_generation", RouteGeneration i); ("relay_byte_limit", RelayByteLimit i)]
      (set_texts [("intent_id", IntentID i); ("edge_node_id", EdgeNodeID i); ("route_allocation", RouteAllocation i);
                  ("initiator_endpoint_id", InitiatorEndpointID i);
                  ("responder_endpoint_id", ResponderEndpointID i)] m) in
    if class == "peer_relay" then map_set "relay_carriers" (Texts (RelayCarriers i)) m else m
  else if class == "config_sync" then
    set_numbers [("installation_generation", InstallationGeneration i)]
      (set_texts [("machine_id", MachineID i); ("assignment_id", AssignmentID i);
                  ("warning_revision", WarningRevision i)] m)
  else if class == "terminal_operation" then
    let m := set_texts [("machine_id", MachineID i); ("user_id", UserID i);
                        ("cli_client_session_id", CLIClientSessionID i); ("session_id", SessionID i)] m in
    let m := if shared_terminal (Scopes i)
             then set_numbers [("expected_generation", ExpectedGeneration i)] (set_texts [("account_id", AccountID i)] m)
             else m in
    set_text_if "source_machine_id" (SourceMachineID i) (set_text_if "assignment_id" (AssignmentID i) m)
  else if (class == "exec_operation") || (class == "ssh_operation") then
    set_text_if "assignment_id" (AssignmentID i)
      (set_texts [("machine_id", MachineID i); ("user_id", UserID i);
                  ("cli_client_session_id", CLIClientSessionID i); ("operation_id", OperationID i)] m)
  else if class == "preview_launch" then
    let m := set_texts [("account_id", AccountID i); ("machine_id", MachineID i); ("user_id", UserID i);
                        ("actor_id", ActorID i); ("preview_id", PreviewID i); ("owner_session_id", OwnerSessionID i);
                        ("operation_id", OperationID i); ("target_scheme", TargetScheme i);
                        ("target_address", TargetAddress i); ("access_mode", AccessMode i); ("endpoint", Endpoint i);
                        ("lease_etag", LeaseETag i); ("state", State i); ("allocation_state", AllocationState i);
                        ("edge_state", EdgeState i); ("origin_state", OriginState i); ("request_hash", RequestHash i);
                        ("idempotency_key", IdempotencyKey i); ("request_id", RequestID i);
                        ("correlation_id", CorrelationID i)] m in
    let m := set_numbers [("lease_deadline", Unix (LeaseDeadline i)); ("created_at", Unix (CreatedAt i));
                          ("last_renewed_at", Unix (LastRenewedAt i));
                          ("expected_generation", ExpectedGeneration i)] m in
    match UserDeadline i with Some u => set_numbers [("user_deadline", Unix u)] m | None => m end
  else if class == "private_access" then
    set_numbers [("route_generation", RouteGeneration i); ("process_generation", ProcessGeneration i);
                 ("config_generation", ConfigGeneration i); ("installation_generation", InstallationGeneration i);
                 ("session_generation", SessionGeneration i); ("assignment_generation", AssignmentGeneration i)]
      (set_texts [("account_id", AccountID i); ("user_id", UserID i); ("machine_id", MachineID i);
                  ("session_id", SessionID i); ("resource_kind", ResourceKind i); ("resource_id", ResourceID i);
                  ("route_id", RouteID i); ("protocol", Protocol i); ("operation_id", OperationID i);
                  ("connector_id", ConnectorID i); ("carrier_session_id", CarrierSessionID i);
                  ("edge_node_id", EdgeNodeID i); ("edge_process_epoch", EdgeProcessEpoch i); ("method", Method i);
                  ("host", Host i); ("path", Path i); ("idempotency_key", IdempotencyKey i);
                  ("request_id", RequestID i); ("correlation_id", CorrelationID i); ("access_mode", AccessMode i);
                  ("request_hash", RequestHash i)] m)
  else if class == "native_private" then
    set_numbers [("expected_generation", ExpectedGeneration i); ("route_generation", RouteGeneration i);
                 ("target_generation", TargetGeneration i)]
      (set_texts [("account_id", AccountID i); ("machine_id", MachineID i); ("user_id", UserID i);
                  ("operation_id", OperationID i); ("cli_client_session_id", CLIClientSessionID i);
                  ("assignment_id", AssignmentID i); ("resource_kind", ResourceKind i); ("resource_id", ResourceID i);
                  ("route_id", RouteID i); ("protocol", Protocol i); ("target_scheme", TargetScheme i);
                  ("target_address", TargetAddress i)] m)
  else if class == "file_transfer" then
    let m := if RequestID i != ""
             then set_texts [("request_id", RequestID i); ("idempotency_key", IdempotencyKey i);
                             ("request_hash", RequestHash i)] m
             else m in
    set_text_if "session_id" (SessionID i)
      (set_text_if "assignment_id" (AssignmentID i)
        (set_texts [("machine_id", MachineID i); ("source_machine_id", SourceMachineID i); ("user_id", UserID i);
                    ("cli_client_session_id", CLIClientSessionID i)] m))
  else m.
End Claims.

(** ** What the other proofs are asked for *)
Module ProofInput.
Record ProofInput := mk {
  Issuer : string;
  EnvironmentID : string;
  UserID : string;
  CLIClientSessionID : string;
  JTI : string;
  Nonce : string;
  IssuedAt : time;
  ExpiresAt : time;
}.
End ProofInput.
Abbreviation ProofInput := ProofInput.ProofInput.
Record RevocationInput := mkRevocation {
  ri_ProofInput : ProofInput;
  ri_SessionIDs : list string;
  ri_Reason : string;
}.
Module TerminalControlInput.
Record TerminalControlInput := mk {
  Issuer : string;
  EnvironmentID : string;
  UserID : string;
  JTI : string;
  Nonce : string;
  IssuedAt : time;
  ExpiresAt : time;
  Operation : string;
  ThreadID : string;
  TerminalIDs : list string;
}.
End TerminalControlInput.
Abbreviation TerminalControlInput := TerminalControlInput.TerminalControlInput.

Definition ProofType : string := "t3-cloud-mint+jwt".
Definition RevokeType : string := "t3-cloud-revoke+jwt".
Definition HealthType : string := "t3-cloud-health+jwt".
Definition TerminalControlType : string := "t3-cloud-terminal-control+jwt".

(** ** Signing and verifying *)
Section Provider.
Context (ed25519_Sign : list Z -> string -> list Z).
Context (ed25519_Verify : list Z -> string -> list Z -> bool).
Context (ed25519_Public : list Z -> list Z).
Implicit Types (p : Provider).

Definition credentialType : string := "paperboat-credential+jwt".

(** The active key of a provider that [New] made is published. *)
Definition signClaims p (proofType : string) (claims : claim_map) : string :=
  let id := activeID p in
  let privateKey := default [] (keys p !! id) in
  let header := claims_text (set_texts [("alg", "EdDSA"); ("typ", proofType); ("kid", id)] []) in
  let unsigned := encode header +:+ "." +:+ encode (claims_text claims) in
  unsigned +:+ "." +:+ b64_encode (ed25519_Sign privateKey unsigned).

Definition SignCredential p (i : CredentialInput) : MRes string :=
  let class := CredentialInput.CredentialClass i in
  let issuedAt := CredentialInput.IssuedAt i in
  let expiresAt := CredentialInput.ExpiresAt i in
  match credentialPolicies class with
  | None => Err "credential claims are invalid"
  | Some pol =>
      if (CredentialInput.Issuer i == "") || (CredentialInput.Subject i == "") || (CredentialInput.JTI i == "")
         || (CredentialInput.EnvironmentID i == "")
         || negb (credentialAudienceAllowed class (CredentialInput.Audience i) (audience pol))
         || negb (credentialScopesAllowed class (CredentialInput.Scopes i) (scopes pol))
         || negb (After expiresAt issuedAt) || (maxTTL pol <? Sub expiresAt issuedAt)
      then Err "credential claims are invalid"
      else match input_bindings i with
           | Some e => Err e
           | None => Ok (signClaims p credentialType (class_claims i (base_claims i)))
           end
  end.

(** *** Proofs of the other types

    The proofs for an environment: a claim set of its own under a token type of
    its own. *)
Definition MaxProofTTL : duration := 5 * Minute.
Definition blank (s : string) : bool := TrimSpace s == "".
Definition lifetime_ok (issuedAt expiresAt : time) : bool :=
  After expiresAt issuedAt && (Sub expiresAt issuedAt <=? MaxProofTTL).
Definition proof_complete (i : ProofInput) : bool :=
  negb (blank (ProofInput.Issuer i) || blank (ProofInput.EnvironmentID i) || blank (ProofInput.UserID i)
        || blank (ProofInput.CLIClientSessionID i) || blank (ProofInput.JTI i) || blank (ProofInput.Nonce i)).
Definition proof_claims (i : ProofInput) (scope : string) : claim_map :=
  map_set "scope" (Texts [scope])
    (set_numbers [("iat", Unix (ProofInput.IssuedAt i)); ("exp", Unix (ProofInput.ExpiresAt i))]
      (set_texts [("iss", ProofInput.Issuer i); ("aud", "t3-env:" +:+ ProofInput.EnvironmentID i);
                  ("sub", ProofInput.UserID i); ("jti", ProofInput.JTI i);
                  ("environmentId", ProofInput.EnvironmentID i);
                  ("clientSessionId", ProofInput.CLIClientSessionID i); ("nonce", ProofInput.Nonce i)] [])).

Definition Sign p (i : ProofInput) : MRes string :=
  if negb (proof_complete i) then Err "mint proof claims are incomplete"
  else if negb (lifetime_ok (ProofInput.IssuedAt i) (ProofInput.ExpiresAt i))
  then Err "mint proof lifetime must be positive and at most five minutes"
  else Ok (signClaims p ProofType (proof_claims i "environment:connect")).
Definition SignHealth p (i : ProofInput) : MRes string :=
  if negb (proof_complete i) then Err "health proof claims are incomplete"
  else if negb (lifetime_ok (ProofInput.IssuedAt i) (ProofInput.ExpiresAt i))
  then Err "health proof lifetime must be positive and at most five minutes"
  else Ok (signClaims p HealthType (proof_claims i "environment:health")).
Definition SignRevocation p (r : RevocationInput) : MRes string :=
  let i := ri_ProofInput r in
  if negb (proof_complete i) || blank (ri_Reason r) || (Z.of_nat (length (ri_SessionIDs r)) =? 0)
  then Err "revocation proof claims are incomplete"
  else if negb (lifetime_ok (ProofInput.IssuedAt i) (ProofInput.ExpiresAt i))
  then Err "revocation proof lifetime must be positive and at most five minutes"
  else Ok (signClaims p RevokeType
    (set_texts [("reason", ri_Reason r)]
      (map_set "sessionIds" (Texts (ri_SessionIDs r)) (proof_claims i "environment:revoke")))).
Definition SignTerminalControl p (t : TerminalControlInput) : MRes string :=
  if blank (TerminalControlInput.Issuer t) || blank (TerminalControlInput.EnvironmentID t)
     || blank (TerminalControlInput.UserID t) || blank (TerminalControlInput.JTI t)
     || blank (TerminalControlInput.Nonce t) || blank (TerminalControlInput.ThreadID t)
     || (Z.of_nat (length (TerminalControlInput.TerminalIDs t)) =? 0)
  then Err "terminal control proof claims are incomplete"
  else if negb (bool_decide (TerminalControlInput.Operation t ∈ ["snapshot"; "close"; "delete_history"]))
  then Err "invalid terminal control operation"
  else if negb (lifetime_ok (TerminalControlInput.IssuedAt t) (TerminalControlInput.ExpiresAt t))
  then Err "terminal control proof lifetime must be positive and at most five minutes"
  else Ok (signClaims p TerminalControlType
    (map_set "terminalIds" (Texts (TerminalControlInput.TerminalIDs t))
      (map_set "scope" (Texts ["environment:terminal-control"])
        (set_numbers [("iat", Unix (TerminalControlInput.IssuedAt t));
                      ("exp", Unix (TerminalControlInput.ExpiresAt t))]
          (set_texts [("iss", TerminalControlInput.Issuer t);
                      ("aud", "t3-env:" +:+ TerminalControlInput.EnvironmentID t);
                      ("sub", TerminalControlInput.UserID t); ("jti", TerminalControlInput.JTI t);
                      ("environmentId", TerminalControlInput.EnvironmentID t);
                      ("nonce", TerminalControlInput.Nonce t); ("operation", TerminalControlInput.Operation t);
                      ("threadId", TerminalControlInput.ThreadID t)] []))))).

(** The header of a token. *)
Record Header := mkHeader { Algorithm : string; Type_ : string; KeyID : string }.
#[global] Instance Header_settable : Settable Header := fun h => mkHeader (Algorithm h) (Type_ h) (KeyID h).
Definition Header_fields : list (field Header) :=
  [fld "alg" raw_string Algorithm; fld "typ" raw_string Type_; fld "kid" raw_string KeyID].

(** The claims of a well-signed token of some published key.  Both texts are read
    with [strictCredentialJSON]; no field of the two structs takes a value that
    nests, so the depth at which [decode_struct] stops makes no difference. *)
Definition signed_claims p (token : string) : MRes CredentialClaims :=
  match Split token "." with
  | [a; b; s] =>
      match b64_DecodeString a with
      | None => Err "credential is malformed"
      | Some headerBytes =>
          match decode_struct Header_fields (mkHeader "" "" "") (string_of_codes headerBytes) with
          | None => Err "credential header is invalid"
          | Some h =>
              if (Algorithm h != "EdDSA") || (Type_ h != credentialType) || (KeyID h == "")
              then Err "credential header is invalid"
              else match keys p !! KeyID h with
                   | None => Err "credential key is unknown"
                   | Some privateKey =>
                       match b64_DecodeString s with
                       | None => Err "credential signature is invalid"
                       | Some signature =>
                           if negb (ed25519_Verify (ed25519_Public privateKey) (a +:+ "." +:+ b) signature)
                           then Err "credential signature is invalid"
                           else match b64_DecodeString b with
                                | None => Err "credential is malformed"
                                | Some payload =>
                                    match decode_struct CredentialClaims_fields CredentialClaims.zero
                                            (string_of_codes payload) with
                                    | None => Err "credential claims are invalid"
                                    | Some claims => Ok claims
                                    end
                                end
                       end
                   end
          end
      end
  | _ => Err "credential is malformed"
  end.

(** The checks of [verifyCredential] on the claims; the arithmetic is on int64. *)
Definition check_claims (expectedIssuer expectedClass : string) (now : time) (expiryGrace : duration)
    (c : CredentialClaims) : option string :=
  let current := Unix now in
  let iat := CredentialClaims.IssuedAt c in
  let exp := CredentialClaims.ExpiresAt c in
  match credentialPolicies expectedClass with
  | None => Some "credential policy is invalid"
  | Some pol =>
      if CredentialClaims.CredentialClass c != expectedClass then Some "credential class is invalid"
      else if CredentialClaims.Issuer c != expectedIssuer then Some "credential issuer is invalid"
      else if negb (credentialAudienceAllowed expectedClass (CredentialClaims.Audience c) (audience pol))
      then Some "credential audience is invalid"
      else if negb (credentialScopesAllowed expectedClass (CredentialClaims.Scopes c) (scopes pol))
      then Some "credential scopes are invalid"
      else if (CredentialClaims.Subject c == "") || (CredentialClaims.JTI c == "")
              || (CredentialClaims.EnvironmentID c == "") then Some "credential base bindings are invalid"
      else if exp <=? to_i64 (current - expiryGrace ÷ Second) then Some "credential is expired"
      else if to_i64 (current + 60) <? iat then Some "credential issued-at is invalid"
      else if exp <=? iat then Some "credential time window is invalid"
      else if maxTTL pol <? to_i64 (to_i64 (exp - iat) * Second) then Some "credential ttl is invalid"
      else if negb (claims_bound expectedClass c) then Some "credential claims are invalid"
      else None
  end.

Definition verifyCredential p (token expectedIssuer expectedClass : string) (now : time) (expiryGrace : duration)
    : MRes CredentialClaims :=
  match signed_claims p token with
  | Err e => Err e
  | Ok c => match check_claims expectedIssuer expectedClass now expiryGrace c with Some e => Err e | None => Ok c end
  end.
Definition VerifyCredential p (token expectedIssuer expectedClass : string) (now : time) : MRes CredentialClaims :=
  verifyCredential p token expectedIssuer expectedClass now 0.
Definition VerifyCredentialWithExpiryGrace p (token expectedIssuer expectedClass : string) (now : time)
    (expiryGrace : duration) : MRes CredentialClaims :=
  if expiryGrace <=? 0 then Err "credential expiry grace is invalid"
  else verifyCredential p token expectedIssuer expectedClass now expiryGrace.
End Provider.
