(* ===== verification/MintFacts.v ===== *)
(** * Reading back what was signed

    The claims of a credential are written as JSON, encoded and signed; the
    verifier splits the token, decodes it and reads the claims into a struct.
    What it reads is what was written. *)
From S2P Require Import Prelude GoText GoHash GoUrl GoJson GoNet Errors Canonical TextFacts JsonFacts.
From S2P Require Import Identifiers WireConfig GoTime GoStruct StructFacts MessageFacts FrameFacts TranscriptFacts.
From S2P Require Import MintTypes Mint.

(** ** Numbers *)
Definition is_count (n : Z) : Prop := 0 <= n <= max_int64.
Lemma count_u64 n : is_count n -> is_u64 n.
Proof. unfold is_count, is_u64, max_int64, two64. lia. Qed.
Lemma ParseInt_Itoa n : is_count n -> ParseInt 64 (Itoa n) = Some n.
Proof.
  intros Hn. destruct (Itoa_u64 n (count_u64 _ Hn)) as (_ & Hp & _). unfold ParseUint64 in Hp.
  destruct (is_digits (Itoa n)) eqn:Hd; [|done]. cbn in Hp. destruct (_ <? _); [|done]. injection Hp as Hv.
  unfold ParseInt. destruct (Itoa n) as [|c s] eqn:E; [done|].
  assert (Hc : is_byte 43 c = false /\ is_byte 45 c = false).
  { unfold is_digits in Hd. bool_prop. match goal with H : all_bytes _ _ = true |- _ => simpl in H end. bool_prop.
    unfold is_digit, between, is_byte in *. bool_prop. split; apply Z.eqb_neq; lia. }
  destruct Hc as [-> ->]. cbn [orb]. rewrite Hd. cbv zeta. rewrite Hv. cbn [andb].
  unfold is_count, max_int64 in Hn. by rewrite (proj2 (Z.ltb_lt _ _)) by lia.
Qed.
Lemma raw_i64_Itoa old n : is_count n -> raw_i64 old (Itoa n) = Some n.
Proof.
  intros H. destruct (Itoa_u64 n (count_u64 _ H)) as (H1 & _). unfold raw_i64.
  destruct (reads_document 0 (Itoa n) (JNumber (Itoa n))) as [-> _]; [done|by apply reads_num|]. by apply ParseInt_Itoa.
Qed.

(** ** Texts of claims *)
Record wire_policy (p : FileTransferPolicy) : Prop := {
  wp_text : valid_utf8 (FileTransferPolicy.Revision p);
  wp_numbers : Forall is_count [FileTransferPolicy.MaxFileBytes p; FileTransferPolicy.MaxBatchFiles p;
    FileTransferPolicy.MaxBatchBytes p; FileTransferPolicy.MaxConcurrentTransfers p;
    FileTransferPolicy.RetentionSeconds p; FileTransferPolicy.DeliveryTimeoutSeconds p;
    FileTransferPolicy.MaxPendingSpoolBytes p];
}.
(** What JSON keeps: valid UTF-8, and numbers that an int64 holds. *)
Definition wire_claim (v : claim) : Prop :=
  match v with
  | Text s => valid_utf8 s
  | Number n => is_count n
  | Texts l => Forall valid_utf8 l
  | Policy p => wire_policy p
  end.
Definition claim_raw (kv : string * claim) : string * string := (fst kv, Marshal (claim_json (snd kv))).

(** ** Structs with typed fields

    A typed field takes a claim; a field of the decoder agrees with it on the
    text of every claim that it takes. *)
Section Typed.
Context {A : Type}.
Definition typed_field : Type := string * (A -> claim -> option A).
Definition agrees (f : field A) (tf : typed_field) : Prop :=
  fst f = fst tf /\ forall a v a', wire_claim v -> snd tf a v = Some a' -> snd f a (Marshal (claim_json v)) = Some a'.

Definition apply_claim (tfs : list typed_field) (a : A) (kv : string * claim) : option A :=
  match List.find (fun f => is_field (fst kv) (fst f)) tfs with Some f => snd f a (snd kv) | None => None end.
Fixpoint apply_claims (tfs : list typed_field) (a : A) (m : claim_map) : option A :=
  match m with [] => Some a | kv :: m' => a' ← apply_claim tfs a kv; apply_claims tfs a' m' end.

Lemma set_member_typed fs tfs a kv a' : Forall2 agrees fs tfs -> wire_claim (snd kv) ->
  apply_claim tfs a kv = Some a' -> set_member fs a (claim_raw kv) = Some a'.
Proof.
  intros Hf Hw. unfold apply_claim, set_member, claim_raw. destruct kv as [k v]. cbn [fst snd] in *.
  induction Hf as [|f tf fs tfs [Hn Ha] _ IH]; [done|]. cbn [List.find]. rewrite Hn.
  destruct (is_field k (fst tf)); [by apply Ha|by apply IH].
Qed.
Lemma set_members_typed fs tfs m a a' : Forall2 agrees fs tfs -> Forall (fun kv => wire_claim (snd kv)) m ->
  apply_claims tfs a m = Some a' -> set_members fs a (map claim_raw m) = Some a'.
Proof.
  intros Hf Hm. revert a. induction Hm as [|kv m Hw _ IH]; intros a H; [done|]. cbn [apply_claims] in H.
  destruct (apply_claim tfs a kv) as [a1|] eqn:E; [|done]. cbn [map set_members].
  rewrite (set_member_typed fs tfs a kv a1) by done. by apply IH.
Qed.
End Typed.
Arguments typed_field A : clear implicits.

(** The typed fields of a struct, by the type of the field. *)
Notation "'text_field' name proj" :=
  ((name, fun c v => match v with Text s => Some (c <| proj := s |>) | _ => None end) : typed_field _)
  (at level 10, name at level 9, proj at level 9) : go_scope.
Notation "'number_field' name proj" :=
  ((name, fun c v => match v with Number n => Some (c <| proj := n |>) | _ => None end) : typed_field _)
  (at level 10, name at level 9, proj at level 9) : go_scope.
Notation "'texts_field' name proj" :=
  ((name, fun c v => match v with Texts l => Some (c <| proj := l |>) | _ => None end) : typed_field _)
  (at level 10, name at level 9, proj at level 9) : go_scope.
Notation "'pointer_field' name proj" :=
  ((name, fun c v => match v with Number n => Some (c <| proj := Some n |>) | _ => None end) : typed_field _)
  (at level 10, name at level 9, proj at level 9) : go_scope.
Notation "'policy_field' name proj" :=
  ((name, fun c v => match v with Policy p => Some (c <| proj := Some p |>) | _ => None end) : typed_field _)
  (at level 10, name at level 9, proj at level 9) : go_scope.

(** *** Written objects *)
Definition claim_written (value : claim -> json) (kv : string * claim) : written :=
  mkWritten (fst kv) (Marshal (claim_json (snd kv))) (value (snd kv)).
Lemma claims_text_written value m : claims_text m = w_text_of (map (claim_written value) m).
Proof.
  unfold claims_text, w_text_of, object_text. cbn [Marshal]. do 3 f_equal.
  induction m as [|[k v] m IH]; [done|]. cbn [map fmap list_fmap]. by rewrite IH.
Qed.
Lemma decode_claims {A} h value (fs : list (field A)) tfs m a a' :
  0 <= h -> 1 + h <= MaxJSONDepth -> Forall2 agrees fs tfs ->
  Forall (fun kv => valid_utf8 (fst kv) /\ wire_claim (snd kv)
    /\ reads h (Marshal (claim_json (snd kv))) (value (snd kv))) m ->
  NoDup (fst <$> m) -> apply_claims tfs a m = Some a' -> decode_struct fs a (claims_text m) = Some a'.
Proof.
  intros Hh Hd Hf Hm Hk Ha. rewrite (claims_text_written value), (decode_struct_written h); try done.
  - rewrite map_map. change (map (fun x => w_raw (claim_written value x)) m) with (map claim_raw m).
    eapply set_members_typed; [done| |done]. eapply Forall_impl; [exact Hm|]. by intros kv (_ & ? & _).
  - rewrite Forall_map. eapply Forall_impl; [exact Hm|]. by intros kv (? & _ & ?).
  - change (map (claim_written value) m) with (claim_written value <$> m). by rewrite <- list_fmap_compose.
Qed.

Lemma reads_texts l : Forall valid_utf8 l -> reads 1 (Marshal (JArray (JString <$> l))) (JArray (JString <$> l)).
Proof.
  intros H. apply reads_Marshal. split; [done|]. apply decoded_all. apply Forall_fmap.
  eapply Forall_impl; [exact H|]. intros s Hs. by split.
Qed.
Lemma raw_strings_texts old l : Forall valid_utf8 l -> raw_strings old (Marshal (JArray (JString <$> l))) = Some l.
Proof.
  intros H. unfold raw_strings. destruct (reads_document 1 _ _ ltac:(done) (reads_texts l H)) as [-> _].
  cbn [mbind option_bind]. clear H. revert old. induction l as [|s l IH]; intros old; [done|].
  rewrite fmap_cons. cbn [set_strings set_string mbind option_bind]. by rewrite IH.
Qed.
Lemma raw_i64_ptr_Itoa old n : is_count n -> raw_i64_ptr old (Itoa n) = Some (Some n).
Proof.
  intros H. destruct (Itoa_u64 n (count_u64 _ H)) as (H1 & _). unfold raw_i64_ptr.
  destruct (reads_document 0 (Itoa n) (JNumber (Itoa n))) as [-> _]; [done|by apply reads_num|].
  cbn [mbind option_bind set_i64]. by rewrite ParseInt_Itoa.
Qed.

(** *** The policy of file transfers *)
Section PolicyText.
Import FileTransferPolicy.
Definition policy_claims (p : FileTransferPolicy) : claim_map :=
  [("revision", Text (Revision p)); ("max_file_bytes", Number (MaxFileBytes p));
   ("max_batch_files", Number (MaxBatchFiles p)); ("max_batch_bytes", Number (MaxBatchBytes p));
   ("max_concurrent_transfers", Number (MaxConcurrentTransfers p));
   ("retention_seconds", Number (RetentionSeconds p));
   ("delivery_timeout_seconds", Number (DeliveryTimeoutSeconds p));
   ("max_pending_spool_bytes", Number (MaxPendingSpoolBytes p))].
Definition policy_typed : list (typed_field FileTransferPolicy) :=
  [text_field "revision" Revision; number_field "max_file_bytes" MaxFileBytes;
   number_field "max_batch_files" MaxBatchFiles; number_field "max_batch_bytes" MaxBatchBytes;
   number_field "max_concurrent_transfers" MaxConcurrentTransfers;
   number_field "retention_seconds" RetentionSeconds;
   number_field "delivery_timeout_seconds" DeliveryTimeoutSeconds;
   number_field "max_pending_spool_bytes" MaxPendingSpoolBytes].

Lemma text_agrees {A} name (f : A -> string -> A) get :
  agrees (A := A) (name, fun m raw => x ← raw_string (get m) raw; Some (f m x))
    (name, fun c v => match v with Text s => Some (f c s) | _ => None end).
Proof. split; [done|]. intros a [s|n|l|p] a' Hw; try done. cbn. intros [= <-]. by rewrite raw_string_quote. Qed.
Lemma number_agrees {A} name (f : A -> Z -> A) get :
  agrees (A := A) (name, fun m raw => x ← raw_i64 (get m) raw; Some (f m x))
    (name, fun c v => match v with Number n => Some (f c n) | _ => None end).
Proof. split; [done|]. intros a [s|n|l|p] a' Hw; try done. cbn. intros [= <-]. by rewrite raw_i64_Itoa. Qed.
Lemma policy_agrees : Forall2 agrees FileTransferPolicy_fields policy_typed.
Proof. repeat (apply Forall2_cons; split); try done; first [apply text_agrees|apply number_agrees]. Qed.

Lemma claim_scalar_reads v : wire_claim v -> match v with Text _ | Number _ => True | _ => False end ->
  reads 0 (Marshal (claim_json v)) (claim_json v).
Proof.
  destruct v as [s|n|l|p]; [|intros H _|done..]; [intros H _; by apply reads_quote|].
  apply reads_num, Itoa_u64. by apply count_u64.
Qed.
Lemma policy_wire p : wire_policy p -> Forall (fun kv => valid_utf8 (fst kv) /\ wire_claim (snd kv)
    /\ reads 0 (Marshal (claim_json (snd kv))) (claim_json (snd kv))) (policy_claims p).
Proof.
  intros [Ht Hn]. split_lists. unfold policy_claims.
  repeat (apply Forall_cons; split); try done; (split; [by apply literal_key|]);
    (split; [done|]); by apply claim_scalar_reads.
Qed.
Lemma policy_keys p : NoDup (fst <$> policy_claims p).
Proof. apply (bool_decide_unpack _). by vm_compute. Qed.
Definition policy_value (p : FileTransferPolicy) : json :=
  JObject (w_object [] (map (claim_written claim_json) (policy_claims p))).
Lemma policy_reads p : wire_policy p -> reads 1 (Marshal (FileTransferPolicy_json p)) (policy_value p).
Proof.
  intros H. change (Marshal (FileTransferPolicy_json p)) with (claims_text (policy_claims p)).
  rewrite (claims_text_written claim_json). apply (reads_object_text 0); [done| |].
  - rewrite Forall_map. eapply Forall_impl; [by apply policy_wire|]. by intros kv (? & _ & ?).
  - change (map (claim_written claim_json) (policy_claims p)) with (claim_written claim_json <$> policy_claims p).
    rewrite <- list_fmap_compose. apply policy_keys.
Qed.
Lemma policy_decoded old p : wire_policy p ->
  raw_policy_ptr old (Marshal (FileTransferPolicy_json p)) = Some (Some p).
Proof.
  intros Hw. unfold raw_policy_ptr.
  destruct (reads_document 1 _ _ ltac:(done) (policy_reads p Hw)) as [-> _]. cbn [mbind option_bind policy_value].
  unfold raw_struct. change (Marshal (FileTransferPolicy_json p)) with (claims_text (policy_claims p)).
  rewrite (decode_claims 0 claim_json _ policy_typed _ _ p); try done.
  - apply policy_agrees.
  - by apply policy_wire.
  - apply policy_keys.
  - by destruct p, (default zero old).
Qed.
End PolicyText.

(** *** Claim sets *)
Lemma sorted_keys_NoDup {A} (m : list (string * A)) : sorted_keys m -> NoDup (fst <$> m).
Proof.
  induction m as [|[k v] m IH]; [by constructor|]. intros [Hk Hm]. rewrite fmap_cons. apply NoDup_cons_2; [|by apply IH].
  intros Hin. apply list_elem_of_fmap in Hin as ([k' v'] & E & Hin). cbn in E. subst k'.
  rewrite Forall_forall in Hk. apply Hk in Hin. cbn in Hin. by rewrite str_lt_irrefl in Hin.
Qed.
(** Setting claims keeps the keys sorted and the claims fit for JSON. *)
Definition good_claims (m : claim_map) : Prop :=
  sorted_keys m /\ Forall (fun kv => valid_utf8 (fst kv) /\ wire_claim (snd kv)) m.
Lemma good_empty : good_claims [].
Proof. by split. Qed.
Lemma good_set k v m : all_bytes html_safe k = true -> wire_claim v -> good_claims m -> good_claims (map_set k v m).
Proof.
  intros Hk Hv [Hs Hm]. split; [by apply map_set_sorted|]. apply Forall_and in Hm as [H1 H2]. apply Forall_and. split.
  - apply (map_set_keys valid_utf8); [by apply literal_key|done].
  - by apply (map_set_values wire_claim).
Qed.
Lemma good_set_texts kvs m : forallb (fun kv => all_bytes html_safe (fst kv)) kvs = true ->
  Forall valid_utf8 (snd <$> kvs) -> good_claims m -> good_claims (set_texts kvs m).
Proof.
  revert m. induction kvs as [|[k v] kvs IH]; intros m Hk Hv Hm; [done|]. cbn in Hk. apply andb_true_iff in Hk as [Hk Hks].
  rewrite fmap_cons in Hv. apply Forall_cons in Hv as [Hv Hvs]. apply IH; [done..|]. by apply good_set.
Qed.
Lemma good_set_numbers kvs m : forallb (fun kv => all_bytes html_safe (fst kv)) kvs = true ->
  Forall is_count (snd <$> kvs) -> good_claims m -> good_claims (set_numbers kvs m).
Proof.
  revert m. induction kvs as [|[k v] kvs IH]; intros m Hk Hv Hm; [done|]. cbn in Hk. apply andb_true_iff in Hk as [Hk Hks].
  rewrite fmap_cons in Hv. apply Forall_cons in Hv as [Hv Hvs]. apply IH; [done..|]. by apply good_set.
Qed.
Lemma good_set_if k v m : all_bytes html_safe k = true -> valid_utf8 v -> good_claims m -> good_claims (set_text_if k v m).
Proof. intros. unfold set_text_if. case_match; [done|]. by apply good_set. Qed.

Definition claim_value (v : claim) : json := match v with Policy p => policy_value p | _ => claim_json v end.
Lemma claim_reads v : wire_claim v -> reads 1 (Marshal (claim_json v)) (claim_value v).
Proof.
  destruct v as [s|n|l|p]; intros H; cbn [claim_value].
  - apply (reads_mono 0); [done|]. by apply (claim_scalar_reads (Text s)).
  - apply (reads_mono 0); [done|]. by apply (claim_scalar_reads (Number n)).
  - by apply reads_texts.
  - by apply policy_reads.
Qed.

Section ClaimsText.
Import CredentialClaims.
Definition claims_typed : list (typed_field CredentialClaims) :=
  [text_field "iss" Issuer; text_field "aud" Audience; text_field "sub" Subject; text_field "jti" JTI;
   number_field "iat" IssuedAt; number_field "exp" ExpiresAt; texts_field "scope" Scopes;
   text_field "credential_class" CredentialClass; text_field "environment_id" EnvironmentID;
   text_field "account_id" AccountID; text_field "enrollment_id" EnrollmentID;
   text_field "assignment_id" AssignmentID; text_field "warning_revision" WarningRevision;
   text_field "helper_id" HelperID; text_field "machine_id" MachineID;
   text_field "source_machine_id" SourceMachineID; text_field "user_id" UserID; text_field "actor_id" ActorID;
   text_field "cli_client_session_id" CLIClientSessionID; text_field "session_id" SessionID;
   text_field "operation_id" OperationID; text_field "preview_id" PreviewID;
   text_field "owner_session_id" OwnerSessionID; text_field "idempotency_key" IdempotencyKey;
   text_field "request_id" RequestID; text_field "correlation_id" CorrelationID;
   text_field "target_scheme" TargetScheme; text_field "target_address" TargetAddress;
   text_field "access_mode" AccessMode; text_field "endpoint" Endpoint;
   number_field "lease_deadline" LeaseDeadline; pointer_field "user_deadline" UserDeadline;
   text_field "lease_etag" LeaseETag; text_field "state" State; text_field "allocation_state" AllocationState;
   text_field "edge_state" EdgeState; text_field "origin_state" OriginState;
   number_field "created_at" CreatedAt; number_field "last_renewed_at" LastRenewedAt;
   number_field "expected_generation" ExpectedGeneration; text_field "request_hash" RequestHash;
   text_field "key_thumbprint" KeyThumbprint; number_field "connector_generation" ConnectorGeneration;
   text_field "connector_id" ConnectorID; text_field "resource_kind" ResourceKind;
   text_field "resource_id" ResourceID; text_field "route_id" RouteID; text_field "protocol" Protocol;
   text_field "carrier_session_id" CarrierSessionID; number_field "process_generation" ProcessGeneration;
   number_field "config_generation" ConfigGeneration; number_field "session_generation" SessionGeneration;
   number_field "assignment_generation" AssignmentGeneration; text_field "method" Method;
   text_field "host" Host; text_field "path" Path;
   number_field "installation_generation" InstallationGeneration; text_field "edge_pool" EdgePool;
   text_field "edge_node_id" EdgeNodeID; text_field "edge_process_epoch" EdgeProcessEpoch;
   text_field "route_binding" RouteBinding; text_field "intent_id" IntentID;
   text_field "endpoint_id" EndpointID; text_field "peer_endpoint_id" PeerEndpointID;
   number_field "attempt_generation" AttemptGeneration; number_field "network_generation" NetworkGeneration;
   text_field "peer_role" PeerRole; text_field "route_allocation" RouteAllocation;
   number_field "route_generation" RouteGeneration; number_field "target_generation" TargetGeneration;
   text_field "initiator_endpoint_id" InitiatorEndpointID;
   text_field "responder_endpoint_id" ResponderEndpointID; number_field "relay_byte_limit" RelayByteLimit;
   texts_field "relay_carriers" RelayCarriers; policy_field "file_transfer_policy" FileTransferPolicy].

Lemma texts_agrees {A} name (f : A -> list string -> A) get :
  agrees (A := A) (name, fun m raw => x ← raw_strings (get m) raw; Some (f m x))
    (name, fun c v => match v with Texts l => Some (f c l) | _ => None end).
Proof. split; [done|]. intros a [s|n|l|p] a' Hw; try done. cbn -[Marshal]. intros [= <-]. by rewrite raw_strings_texts. Qed.
Lemma pointer_agrees {A} name (f : A -> option Z -> A) get :
  agrees (A := A) (name, fun m raw => x ← raw_i64_ptr (get m) raw; Some (f m x))
    (name, fun c v => match v with Number n => Some (f c (Some n)) | _ => None end).
Proof. split; [done|]. intros a [s|n|l|p] a' Hw; try done. cbn. intros [= <-]. by rewrite raw_i64_ptr_Itoa. Qed.
Lemma file_policy_agrees {A} name (f : A -> option MintTypes.FileTransferPolicy -> A) get :
  agrees (A := A) (name, fun m raw => x ← raw_policy_ptr (get m) raw; Some (f m x))
    (name, fun c v => match v with Policy p => Some (f c (Some p)) | _ => None end).
Proof.
  split; [done|]. intros a [s|n|l|p] a' Hw; try done. cbn -[Marshal FileTransferPolicy_json]. intros [= <-].
  by rewrite policy_decoded.
Qed.
Lemma claims_agree : Forall2 agrees CredentialClaims_fields claims_typed.
Proof.
  repeat (apply Forall2_cons; split);
    first [apply text_agrees|apply number_agrees|apply texts_agrees|apply pointer_agrees|apply file_policy_agrees|done].
Qed.

(** A claim set with sorted keys is read back. *)
Lemma claims_decoded m c : good_claims m -> apply_claims claims_typed zero m = Some c ->
  decode_struct CredentialClaims_fields zero (claims_text m) = Some c.
Proof.
  intros [Hs Hm] Ha. apply (decode_claims 1 claim_value _ claims_typed); try done.
  - apply claims_agree.
  - eapply Forall_impl; [exact Hm|]. intros kv [? ?]. split_and!; [done..|]. by apply claim_reads.
  - by apply sorted_keys_NoDup.
Qed.
End ClaimsText.

(** ** What a verifier learns *)

(** The claims of an input that is signed for its class. *)
Section Signed.
Import CredentialInput.
Abbreviation C := CredentialClaims.CredentialClaims.

Definition base_of (i : CredentialInput) : C :=
  CredentialClaims.zero
    <| CredentialClaims.Issuer := Issuer i |> <| CredentialClaims.Audience := Audience i |>
    <| CredentialClaims.Subject := Subject i |> <| CredentialClaims.JTI := JTI i |>
    <| CredentialClaims.IssuedAt := Unix (IssuedAt i) |> <| CredentialClaims.ExpiresAt := Unix (ExpiresAt i) |>
    <| CredentialClaims.Scopes := Scopes i |> <| CredentialClaims.CredentialClass := CredentialClass i |>
    <| CredentialClaims.EnvironmentID := EnvironmentID i |>.
Definition claims_for (i : CredentialInput) : C :=
  let class := CredentialClass i in
  let c := base_of i in
  if class == "helper_enrollment" then
    c <| CredentialClaims.EnrollmentID := EnrollmentID i |>
  else if class == "helper_identity" then
    c <| CredentialClaims.HelperID := HelperID i |> <| CredentialClaims.MachineID := MachineID i |>
      <| CredentialClaims.KeyThumbprint := KeyThumbprint i |>
  else if class == "machine_control" then
    c <| CredentialClaims.UserID := UserID i |> <| CredentialClaims.MachineID := MachineID i |>
      <| CredentialClaims.KeyThumbprint := KeyThumbprint i |>
      <| CredentialClaims.InstallationGeneration := InstallationGeneration i |>
      <| CredentialClaims.SessionGeneration := SessionGeneration i |>
  else if class == "connector_admission" then
    c <| CredentialClaims.MachineID := MachineID i |>
      <| CredentialClaims.InstallationGeneration := InstallationGeneration i |>
      <| CredentialClaims.ConnectorID := ConnectorID i |>
      <| CredentialClaims.ConnectorGeneration := ConnectorGeneration i |>
      <| CredentialClaims.EdgePool := EdgePool i |> <| CredentialClaims.EdgeNodeID := EdgeNodeID i |>
      <| CredentialClaims.RouteBinding := RouteBinding i |>
      <| CredentialClaims.FileTransferPolicy := Some (default DefaultFileTransferPolicy (FileTransferPolicy i)) |>
  else if class == "peer_signaling" then
    c <| CredentialClaims.IntentID := IntentID i |> <| CredentialClaims.EndpointID := EndpointID i |>
      <| CredentialClaims.PeerEndpointID := PeerEndpointID i |>
      <| CredentialClaims.AttemptGeneration := AttemptGeneration i |>
      <| CredentialClaims.NetworkGeneration := NetworkGeneration i |>
      <| CredentialClaims.PeerRole := PeerRole i |> <| CredentialClaims.EdgeNodeID := EdgeNodeID i |>
  else if class == "peer_pmtu" then
    c <| CredentialClaims.IntentID := IntentID i |> <| CredentialClaims.EdgeNodeID := EdgeNodeID i |>
      <| CredentialClaims.RouteAllocation := RouteAllocation i |>
      <| CredentialClaims.InitiatorEndpointID := InitiatorEndpointID i |>
      <| CredentialClaims.ResponderEndpointID := ResponderEndpointID i |>
      <| CredentialClaims.AttemptGeneration := AttemptGeneration i |>
      <| CredentialClaims.NetworkGeneration := NetworkGeneration i |>
      <| CredentialClaims.RouteGeneration := RouteGeneration i |>
      <| CredentialClaims.RelayByteLimit := RelayByteLimit i |>
  else if class == "peer_relay" then
    c <| CredentialClaims.IntentID := IntentID i |> <| CredentialClaims.EdgeNodeID := EdgeNodeID i |>
      <| CredentialClaims.RouteAllocation := RouteAllocation i |>
      <| CredentialClaims.InitiatorEndpointID := InitiatorEndpointID i |>
      <| CredentialClaims.ResponderEndpointID := ResponderEndpointID i |>
      <| CredentialClaims.AttemptGeneration := AttemptGeneration i |>
      <| CredentialClaims.NetworkGeneration := NetworkGeneration i |>
      <| CredentialClaims.RouteGeneration := RouteGeneration i |>
      <| CredentialClaims.RelayByteLimit := RelayByteLimit i |>
      <| CredentialClaims.RelayCarriers := RelayCarriers i |>
  else if class == "config_sync" then
    c <| CredentialClaims.MachineID := MachineID i |>
      <| CredentialClaims.InstallationGeneration := InstallationGeneration i |>
      <| CredentialClaims.AssignmentID := AssignmentID i |>
      <| CredentialClaims.WarningRevision := WarningRevision i |>
  else if class == "terminal_operation" then
    let c := if shared_terminal (Scopes i)
             then c <| CredentialClaims.AccountID := AccountID i |>
                    <| CredentialClaims.ExpectedGeneration := ExpectedGeneration i |>
             else c in
    c <| CredentialClaims.MachineID := MachineID i |> <| CredentialClaims.UserID := UserID i |>
      <| CredentialClaims.CLIClientSessionID := CLIClientSessionID i |>
      <| CredentialClaims.SessionID := SessionID i |> <| CredentialClaims.AssignmentID := AssignmentID i |>
      <| CredentialClaims.SourceMachineID := SourceMachineID i |>
  else if class == "exec_operation" then
    c <| CredentialClaims.MachineID := MachineID i |> <| CredentialClaims.UserID := UserID i |>
      <| CredentialClaims.CLIClientSessionID := CLIClientSessionID i |>
      <| CredentialClaims.OperationID := OperationID i |> <| CredentialClaims.AssignmentID := AssignmentID i |>
  else if class == "ssh_operation" then
    c <| CredentialClaims.MachineID := MachineID i |> <| CredentialClaims.UserID := UserID i |>
      <| CredentialClaims.CLIClientSessionID := CLIClientSessionID i |>
      <| CredentialClaims.OperationID := OperationID i |> <| CredentialClaims.AssignmentID := AssignmentID i |>
  else if class == "preview_launch" then
    c <| CredentialClaims.AccountID := AccountID i |> <| CredentialClaims.MachineID := MachineID i |>
      <| CredentialClaims.UserID := UserID i |> <| CredentialClaims.ActorID := ActorID i |>
      <| CredentialClaims.PreviewID := PreviewID i |> <| CredentialClaims.OwnerSessionID := OwnerSessionID i |>
      <| CredentialClaims.OperationID := OperationID i |> <| CredentialClaims.TargetScheme := TargetScheme i |>
      <| CredentialClaims.TargetAddress := TargetAddress i |> <| CredentialClaims.AccessMode := AccessMode i |>
      <| CredentialClaims.Endpoint := Endpoint i |> <| CredentialClaims.LeaseETag := LeaseETag i |>
      <| CredentialClaims.State := State i |> <| CredentialClaims.AllocationState := AllocationState i |>
      <| CredentialClaims.EdgeState := EdgeState i |> <| CredentialClaims.OriginState := OriginState i |>
      <| CredentialClaims.RequestHash := RequestHash i |>
      <| CredentialClaims.IdempotencyKey := IdempotencyKey i |> <| CredentialClaims.RequestID := RequestID i |>
      <| CredentialClaims.CorrelationID := CorrelationID i |>
      <| CredentialClaims.LeaseDeadline := Unix (LeaseDeadline i) |>
      <| CredentialClaims.CreatedAt := Unix (CreatedAt i) |>
      <| CredentialClaims.LastRenewedAt := Unix (LastRenewedAt i) |>
      <| CredentialClaims.ExpectedGeneration := ExpectedGeneration i |>
      <| CredentialClaims.UserDeadline := Unix <$> UserDeadline i |>
  else if class == "private_access" then
    c <| CredentialClaims.AccountID := AccountID i |> <| CredentialClaims.UserID := UserID i |>
      <| CredentialClaims.MachineID := MachineID i |> <| CredentialClaims.SessionID := SessionID i |>
      <| CredentialClaims.ResourceKind := ResourceKind i |> <| CredentialClaims.ResourceID := ResourceID i |>
      <| CredentialClaims.RouteID := RouteID i |> <| CredentialClaims.Protocol := Protocol i |>
      <| CredentialClaims.OperationID := OperationID i |> <| CredentialClaims.ConnectorID := ConnectorID i |>
      <| CredentialClaims.CarrierSessionID := CarrierSessionID i |>
      <| CredentialClaims.EdgeNodeID := EdgeNodeID i |>
      <| CredentialClaims.EdgeProcessEpoch := EdgeProcessEpoch i |> <| CredentialClaims.Method := Method i |>
      <| CredentialClaims.Host := Host i |> <| CredentialClaims.Path := Path i |>
      <| CredentialClaims.IdempotencyKey := IdempotencyKey i |> <| CredentialClaims.RequestID := RequestID i |>
      <| CredentialClaims.CorrelationID := CorrelationID i |> <| CredentialClaims.AccessMode := AccessMode i |>
      <| CredentialClaims.RequestHash := RequestHash i |>
      <| CredentialClaims.RouteGeneration := RouteGeneration i |>
      <| CredentialClaims.ProcessGeneration := ProcessGeneration i |>
      <| CredentialClaims.ConfigGeneration := ConfigGeneration i |>
      <| CredentialClaims.InstallationGeneration := InstallationGeneration i |>
      <| CredentialClaims.SessionGeneration := SessionGeneration i |>
      <| CredentialClaims.AssignmentGeneration := AssignmentGeneration i |>
  else if class == "native_private" then
    c <| CredentialClaims.AccountID := AccountID i |> <| CredentialClaims.MachineID := MachineID i |>
      <| CredentialClaims.UserID := UserID i |> <| CredentialClaims.OperationID := OperationID i |>
      <| CredentialClaims.CLIClientSessionID := CLIClientSessionID i |>
      <| CredentialClaims.AssignmentID := AssignmentID i |>
      <| CredentialClaims.ResourceKind := ResourceKind i |> <| CredentialClaims.ResourceID := ResourceID i |>
      <| CredentialClaims.RouteID := RouteID i |> <| CredentialClaims.Protocol := Protocol i |>
      <| CredentialClaims.TargetScheme := TargetScheme i |>
      <| CredentialClaims.TargetAddress := TargetAddress i |>
      <| CredentialClaims.ExpectedGeneration := ExpectedGeneration i |>
      <| CredentialClaims.RouteGeneration := RouteGeneration i |>
      <| CredentialClaims.TargetGeneration := TargetGeneration i |>
  else if class == "file_transfer" then
    let c := if RequestID i != ""
             then c <| CredentialClaims.RequestID := RequestID i |>
                    <| CredentialClaims.IdempotencyKey := IdempotencyKey i |>
                    <| CredentialClaims.RequestHash := RequestHash i |>
             else c in
    c <| CredentialClaims.MachineID := MachineID i |>
      <| CredentialClaims.SourceMachineID := SourceMachineID i |> <| CredentialClaims.UserID := UserID i |>
      <| CredentialClaims.CLIClientSessionID := CLIClientSessionID i |>
      <| CredentialClaims.AssignmentID := AssignmentID i |> <| CredentialClaims.SessionID := SessionID i |>
  else c.

(** What JSON keeps of an input: texts in UTF-8, numbers and times that an int64
    holds, and times since 1970. *)
Record wire_credential (i : CredentialInput) : Prop := {
  wc_texts : Forall valid_utf8
    [Issuer i; Audience i; Subject i; JTI i; CredentialClass i; EnvironmentID i; AccountID i; EnrollmentID i;
     AssignmentID i; WarningRevision i; HelperID i; MachineID i; SourceMachineID i; UserID i; ActorID i;
     CLIClientSessionID i; SessionID i; OperationID i; PreviewID i; OwnerSessionID i; IdempotencyKey i;
     RequestID i; CorrelationID i; TargetScheme i; TargetAddress i; AccessMode i; Endpoint i; LeaseETag i;
     State i; AllocationState i; EdgeState i; OriginState i; RequestHash i; KeyThumbprint i; ConnectorID i;
     ResourceKind i; ResourceID i; RouteID i; Protocol i; CarrierSessionID i; Method i; Host i; Path i;
     EdgePool i; EdgeNodeID i; EdgeProcessEpoch i; RouteBinding i; IntentID i; EndpointID i; PeerEndpointID i;
     PeerRole i; RouteAllocation i; InitiatorEndpointID i; ResponderEndpointID i];
  wc_scopes : Forall valid_utf8 (Scopes i);
  wc_carriers : Forall valid_utf8 (RelayCarriers i);
  wc_numbers : Forall is_count
    [ExpectedGeneration i; ProcessGeneration i; ConfigGeneration i; SessionGeneration i;
     AssignmentGeneration i; ConnectorGeneration i; InstallationGeneration i; AttemptGeneration i;
     NetworkGeneration i; RouteGeneration i; TargetGeneration i; RelayByteLimit i];
  wc_times : Forall is_count [Unix (IssuedAt i); Unix (ExpiresAt i)];
  wc_launch : CredentialClass i = "preview_launch" ->
    Forall is_count [Unix (LeaseDeadline i); Unix (CreatedAt i); Unix (LastRenewedAt i)];
  wc_deadline : forall u, UserDeadline i = Some u -> is_count (Unix u);
  wc_policy : wire_policy (default DefaultFileTransferPolicy (FileTransferPolicy i));
}.

Ltac wire_list := cbn [fmap list_fmap fst snd]; repeat (apply Forall_cons_2; [by auto|]); by apply Forall_nil_2.
Ltac wire_claims :=
  repeat first
    [ apply good_set_if; [done|done|] | apply good_set; [done|done|]
    | apply good_set_numbers; [done|wire_list|] | apply good_set_texts; [done|wire_list|] | case_match ].
Lemma claims_good i : wire_credential i -> good_claims (class_claims i (base_claims i)).
Proof.
  intros [Ht Hs Hc Hn Htm Hl Hd Hp]. split_lists. assert (Hb : good_claims (base_claims i)).
  { unfold base_claims. wire_claims. apply good_empty. }
  unfold class_claims. cbv zeta. generalize dependent (base_claims i). intros b Hb.
  destruct (CredentialClass i == "preview_launch") eqn:El; [|by wire_claims].
  apply bool_decide_eq_true in El. specialize (Hl El). split_lists. by wire_claims.
Qed.

(** The claims that are written are those of [claims_for]. *)
Lemma claims_applied i :
  apply_claims claims_typed CredentialClaims.zero (class_claims i (base_claims i)) = Some (claims_for i).
Proof.
  unfold class_claims, claims_for, set_text_if, base_claims, base_of. cbv zeta.
  generalize (Unix (IssuedAt i)) (Unix (ExpiresAt i)) (Unix (LeaseDeadline i)) (Unix (CreatedAt i))
    (Unix (LastRenewedAt i)). intros t1 t2 t3 t4 t5.
  repeat match goal with |- context [CredentialClass i == ?s] => destruct (CredentialClass i == s) eqn:?; cbn [orb] end.
  all: try lazymatch goal with |- context [UserDeadline ?j] =>
    destruct (UserDeadline j) as [u|]; [cbn [fmap option_fmap option_map]; generalize (Unix u); intros|] end.
  all: try lazymatch goal with |- context [shared_terminal ?l] => destruct (shared_terminal l) end.
  all: repeat match goal with |- context [?s == ""] => let H := fresh in destruct (s == "") eqn:H;
    [apply bool_decide_eq_true in H; rewrite H|] end.
  all: first [(bool_prop; congruence) | (vm_compute; reflexivity)].
Qed.
End Signed.
