(* ===== verification/MintSafety.v ===== *)
(** * What a verified credential is

    A token that [SignCredential] makes is read back as the claims of its input,
    by any verifier of the provider; a verifier that accepts a token has a
    signature of a published key over claims within the policy of the class. *)
From S2P Require Import Prelude GoText GoHash GoUrl GoJson GoNet Errors Canonical TextFacts JsonFacts.
From S2P Require Import Identifiers WireConfig GoTime GoStruct StructFacts MessageFacts FrameFacts TranscriptFacts.
From S2P Require Import MintTypes Mint MintFacts.

(** ** Encodings *)
Lemma codes_bytes s : is_bytes (Sha256.codes s).
Proof.
  induction s as [|c s IH]; [by constructor|]. constructor; [|done]. unfold code.
  pose proof (N_ascii_bounded c). lia.
Qed.
Lemma string_of_codes_codes s : string_of_codes (Sha256.codes s) = s.
Proof.
  induction s as [|c s IH]; [done|]. unfold string_of_codes in *. cbn [Sha256.codes fmap list_fmap String.string_of_list_ascii].
  by rewrite byte_of_code, IH.
Qed.

Lemma b64_strict_loose s l : b64_decode s = Some l -> b64_loose s = Some l.
Proof.
  revert l. induction s as [s IH] using (induction_ltof1 _ String.length). unfold ltof in IH. intros l.
  destruct s as [|p [|q [|r [|t s]]]]; [done|done| | |]; cbn [b64_decode b64_loose]; intros H;
    repeat (apply bind_Some in H as (? & ? & H)); repeat match goal with E : b64_val _ = _ |- _ => rewrite E; clear E end;
    cbn [mbind option_bind].
  - by case_match.
  - by case_match.
  - match goal with E : b64_decode s = Some ?l' |- _ => rewrite (IH s) with (l := l') by (done || cbn; lia) end. done.
Qed.
Lemma drop_none f s : all_bytes (fun c => negb (f c)) s = true -> drop_bytes f s = s.
Proof.
  induction s as [|c s IH]; [done|]. cbn [all_bytes drop_bytes]. intros H. apply andb_true_iff in H as [H1 H2].
  apply negb_true_iff in H1. by rewrite H1, IH.
Qed.
Lemma b64_decodes l : is_bytes l -> b64_DecodeString (b64_encode l) = Some l.
Proof.
  intros H. unfold b64_DecodeString. rewrite drop_none; [by apply b64_strict_loose, b64_decode_encode|].
  eapply all_bytes_mono; [|by apply b64_encode_bytes]. intros c Hc. unfold b64_byte, is_alnum, is_upper, is_lower, is_digit, between, is_byte in *.
  destruct (code c =? 10) eqn:E1; [bool_prop; rewrite E1 in Hc; done|].
  destruct (code c =? 13) eqn:E2; [bool_prop; rewrite E2 in Hc; done|done].
Qed.

(** ** Tokens *)
Definition dotless (s : string) : bool := all_bytes (fun c => negb (is_byte 46 c)) s.
Lemma dotless_b64 l : is_bytes l -> dotless (b64_encode l) = true.
Proof.
  intros H. eapply all_bytes_mono; [|by apply b64_encode_bytes]. intros c Hc.
  unfold b64_byte, is_alnum, is_upper, is_lower, is_digit, between, is_byte in *.
  destruct (code c =? 46) eqn:E1; [bool_prop; rewrite E1 in Hc; done|done].
Qed.
Lemma Split_dotless s : dotless s = true -> Split s "." = [s].
Proof.
  induction s as [|c s IH]; [done|]. unfold dotless in *. cbn [all_bytes Split]. intros H. bool_prop.
  rewrite IH by done. rewrite bool_decide_eq_false_2; [done|]. intros ->. done.
Qed.
Lemma Split_dot a s : dotless a = true -> Split (a +:+ "." +:+ s) "." = a :: Split s ".".
Proof.
  induction a as [|c a IH]; intros H; [done|]. unfold dotless in *. cbn [all_bytes] in H. rewrite sapp_cons. bool_prop.
  cbn [Split]. rewrite IH by done. rewrite bool_decide_eq_false_2; [done|]. intros ->. done.
Qed.

Lemma Split_token a b s : dotless a = true -> dotless b = true -> dotless s = true ->
  Split ((a +:+ "." +:+ b) +:+ "." +:+ s) "." = [a; b; s].
Proof.
  intros Ha Hb Hs. assert ((a +:+ "." +:+ b) +:+ "." +:+ s = a +:+ "." +:+ b +:+ "." +:+ s) as ->
    by (by rewrite !sapp_assoc). by rewrite !Split_dot, Split_dotless.
Qed.

(** ** Providers *)
Lemma add_keys_ids ks m m' : add_keys ks m = Ok m' -> m !! "" = None -> m' !! "" = None.
Proof.
  revert m. induction ks as [|k ks IH]; intros m; cbn; [by intros [= <-]|]. case_match eqn:E; [done|].
  destruct (m !! TrimSpace (ID k)); [done|]. intros H Hm. eapply IH; [exact H|]. bool_prop.
  by rewrite lookup_insert_ne.
Qed.
Lemma New_active ks active age p : New ks active age = Ok p ->
  activeID p <> "" /\ exists k, keys p !! activeID p = Some k.
Proof.
  unfold New. cbv zeta. destruct (add_keys ks ∅) as [m|] eqn:E; [|done]. case_match; [done|].
  destruct (m !! TrimSpace active) as [k|] eqn:Hk; [|done]. intros [= <-]. cbn. split; [|by exists k].
  intros H0. rewrite H0 in Hk. by rewrite (add_keys_ids _ _ _ E) in Hk.
Qed.

(** ** The bindings of a class *)

(** Decide the tests between literals. *)
Ltac decide_literals :=
  repeat match goal with
  | |- context [@bool_decide ?P ?d] =>
      let v := eval vm_compute in (@bool_decide P d) in
      lazymatch v with
      | true => change (@bool_decide P d) with true
      | false => change (@bool_decide P d) with false
      end
  end; cbv iota; cbn [orb andb negb].

(** The claims of a known class. *)
Ltac known_class i :=
  match goal with E : CredentialInput.CredentialClass i = _ |- _ =>
    let c := fresh "c" in let Hc := fresh "Hc" in
    evar (c : MintTypes.CredentialClaims);
    assert (Hc : claims_for i = c) by (unfold claims_for; cbv zeta; rewrite E; decide_literals; unfold c; reflexivity);
    rewrite Hc; unfold c; clear Hc c
  end.

Section Bound.
Import CredentialInput.

(** A preview launch is verified in whole seconds: its lease deadline and its user
    deadline are in a later second than its issue. *)
Definition fresh_launch (i : CredentialInput) : Prop :=
  CredentialClass i = "preview_launch" ->
  Unix (IssuedAt i) < Unix (LeaseDeadline i) /\ 0 < Unix (CreatedAt i)
  /\ forall u, UserDeadline i = Some u -> Unix (IssuedAt i) < Unix u.

Lemma Unix_mono t u : t <= u -> Unix t <= Unix u.
Proof. intros H. unfold Unix. pose proof (Z.div_le_mono t u Second ltac:(done) H). lia. Qed.

Lemma claims_class i : CredentialClaims.CredentialClass (claims_for i) = CredentialClass i.
Proof.
  unfold claims_for. cbv zeta.
  repeat match goal with |- context [CredentialClass i == ?s] => destruct (CredentialClass i == s) end; by repeat case_match.
Qed.

Lemma launch_bound i : validatePreviewLaunchInput i = None -> CredentialClass i = "preview_launch" -> fresh_launch i ->
  validatePreviewLaunchClaims (claims_for i) = None.
Proof.
  intros H Hc Hf. destruct (Hf Hc) as (H1 & H2 & H3). unfold claims_for. rewrite Hc. cbv zeta. decide_literals.
  unfold validatePreviewLaunchInput, validatePreviewLaunchClaims in *. cbn -[crlf ContainsAny].
  repeat match type of H with (if ?b then _ else _) = None => destruct b eqn:?; [done|] end.
  unfold After, Before, IsZero in *. bool_prop. clear Hf.
  assert (Hr : Unix (CreatedAt i) <= Unix (LastRenewedAt i)) by by apply Unix_mono.
  assert (Hl : Unix (CreatedAt i) <= Unix (LeaseDeadline i)) by by apply Unix_mono.
  cbn [orb]. rewrite (proj2 (Z.leb_gt _ _) H1), (proj2 (Z.leb_gt _ _) H2), (proj2 (Z.ltb_ge _ _) Hr),
    (proj2 (Z.ltb_ge _ _) Hl). cbn [orb].
  destruct (UserDeadline i) as [u|]; cbn [fmap option_fmap option_map]; [|done]. bool_prop.
  rewrite (proj2 (Z.leb_gt _ _) (H3 u eq_refl)), (proj2 (Z.ltb_ge _ _)) by by apply Unix_mono. done.
Qed.

(** The checks of a verifier follow from those of the signer. *)
Lemma signed_bound i : input_bindings i = None -> fresh_launch i -> claims_bound (CredentialClass i) (claims_for i) = true.
Proof.
  intros H Hf. pose proof (launch_bound i) as HL. revert H.
  unfold input_bindings, claims_bound. cbv zeta.
  repeat match goal with
  | |- context [CredentialClass i == ?s] =>
      let E := fresh "E" in destruct (CredentialClass i == s) eqn:E;
      [apply bool_decide_eq_true in E; cbn [orb]; cbv iota|cbn [orb]; cbv iota]
  end; intros H; try congruence; try done;
  repeat match type of H with
  | (if ?b then _ else _) = None => destruct b eqn:?; [done|]
  | match ?o with Some _ => _ | None => _ end = None => destruct o eqn:?; [done|]
  end.
  all: try (known_class i; apply negb_true_iff; assumption).
  all: try (known_class i; match goal with |- context [validatePrivateAccessClaims ?c] =>
    change (validatePrivateAccessClaims c) with (validatePrivateAccessInput i) end; by case_match).
  all: try (known_class i; match goal with |- context [validateNativePrivateClaims ?c] =>
    change (validateNativePrivateClaims c) with (validateNativePrivateInput i) end; by case_match).
  all: try by rewrite HL.
  - pose proof (claims_class i) as Hcl. known_class i. apply negb_true_iff. apply orb_false_iff in Heqb as [Hb Hv].
    apply orb_false_iff. split; [exact Hb|]. cbn. rewrite E5. by vm_compute.
  - known_class i. apply negb_true_iff. apply orb_false_iff in Heqb as [Hb Hv]. apply orb_false_iff.
    split; [destruct (shared_terminal (Scopes i)); exact Hb|]. cbn. destruct (shared_terminal (Scopes i)) eqn:Es; cbn in *; rewrite Es; [|done].
    bool_prop. by apply bool_decide_eq_false.
  - known_class i. apply negb_false_iff in Heqb. apply andb_true_iff.
    split; [|by destruct (RequestID i != ""); apply negb_true_iff].
    destruct (RequestID i == "") eqn:Er; cbn -[validFileTransferApproval]; [done|exact Heqb].
Qed.
End Bound.

Section Provider.
Context (ed25519_Sign : list Z -> string -> list Z).
Context (ed25519_Verify : list Z -> string -> list Z -> bool).
Context (ed25519_Public : list Z -> list Z).
Context (sign_bytes : forall k m, is_bytes (ed25519_Sign k m)).
Context (sign_verifies : forall k m, ed25519_Verify (ed25519_Public k) m (ed25519_Sign k m) = true).
Context (ks : list Key) (active : string) (age : duration) (p : Provider) (Hnew : New ks active age = Ok p).
Context (Hkid : valid_utf8 (activeID p)).

Abbreviation sign := (SignCredential ed25519_Sign p).
Abbreviation read := (signed_claims ed25519_Verify ed25519_Public p).
Abbreviation verify := (verifyCredential ed25519_Verify ed25519_Public p).

Definition header_typed : list (typed_field Header) :=
  [text_field "alg" Algorithm; text_field "typ" Type_; text_field "kid" KeyID].
Lemma header_agrees : Forall2 agrees Header_fields header_typed.
Proof using Type. repeat (apply Forall2_cons; split); try done; apply text_agrees. Qed.
Lemma header_decoded typ kid : valid_utf8 typ -> valid_utf8 kid ->
  decode_struct Header_fields (mkHeader "" "" "")
    (claims_text (set_texts [("alg", "EdDSA"); ("typ", typ); ("kid", kid)] [])) = Some (mkHeader "EdDSA" typ kid).
Proof using Type.
  intros Ht Hk. assert (Hg : good_claims (set_texts [("alg", "EdDSA"); ("typ", typ); ("kid", kid)] [])).
  { apply good_set_texts; [done| |apply good_empty]. repeat (apply Forall_cons_2; [done || by apply literal_key|]).
    by apply Forall_nil_2. }
  destruct Hg as [Hs Hg]. apply (decode_claims 1 claim_value _ header_typed); try done.
  - apply header_agrees.
  - eapply Forall_impl; [exact Hg|]. intros kv [? ?]. split_and!; [done..|]. by apply claim_reads.
  - by apply sorted_keys_NoDup.
Qed.

Lemma encode_decodes s : b64_DecodeString (encode s) = Some (Sha256.codes s).
Proof using Type. apply b64_decodes, codes_bytes. Qed.
Lemma encode_dotless s : dotless (encode s) = true.
Proof using Type. apply dotless_b64, codes_bytes. Qed.

(** A signed claim set is read back from its token. *)
Lemma signed_read m c : good_claims m -> apply_claims claims_typed CredentialClaims.zero m = Some c ->
  read (signClaims ed25519_Sign p credentialType m) = Ok c.
Proof using sign_bytes sign_verifies Hnew Hkid.
  intros Hm Ha. destruct (New_active _ _ _ _ Hnew) as [Hne [k Hk]]. unfold signed_claims, signClaims. cbv zeta. rewrite Hk.
  cbn [default]. rewrite Split_token by (apply encode_dotless || apply dotless_b64, sign_bytes).
  rewrite !encode_decodes, !string_of_codes_codes, header_decoded by (done || by apply literal_key).
  cbn [Algorithm Type_ KeyID]. rewrite (bool_decide_eq_false_2 (activeID p = "")) by done.
  change (("EdDSA" != "EdDSA") || (credentialType != credentialType) || false) with false. cbv iota.
  rewrite Hk, b64_decodes by done.
  rewrite sign_verifies. cbn [negb]. by rewrite (claims_decoded _ c).
Qed.

(** A token of another type is refused at its header, whatever it claims. *)
Lemma foreign_refused typ m issuer class now grace : valid_utf8 typ -> typ <> credentialType ->
  verifyCredential ed25519_Verify ed25519_Public p (signClaims ed25519_Sign p typ m) issuer class now grace
  = Err "credential header is invalid".
Proof using sign_bytes Hkid.
  intros Ht Hne. unfold verifyCredential, signed_claims, signClaims. cbv zeta.
  rewrite Split_token by (apply encode_dotless || apply dotless_b64, sign_bytes).
  rewrite !encode_decodes, !string_of_codes_codes, header_decoded by done. cbn [Algorithm Type_ KeyID].
  by rewrite (bool_decide_eq_false_2 (typ = credentialType)), orb_true_r by done.
Qed.
(** The proofs for an environment are no credentials: none of the four kinds that the
    provider signs with the same keys is accepted by verifyCredential, for any class, issuer,
    time or grace. *)
Theorem proofs_are_no_credentials token issuer class now grace :
  (exists i, Sign ed25519_Sign p i = Ok token \/ SignHealth ed25519_Sign p i = Ok token)
  \/ (exists r, SignRevocation ed25519_Sign p r = Ok token)
  \/ (exists t, SignTerminalControl ed25519_Sign p t = Ok token) ->
  verifyCredential ed25519_Verify ed25519_Public p token issuer class now grace = Err "credential header is invalid".
Proof using sign_bytes Hkid.
  unfold Sign, SignHealth, SignRevocation, SignTerminalControl. cbv zeta.
  intros [[i [H|H]]|[[r H]|[t H]]]; repeat (case_match; [done|]); injection H as <-;
    apply foreign_refused; try done; by apply literal_key.
Qed.

(** ** What is signed is what is verified *)
Record signable (i : CredentialInput) (pol : policy) : Prop := {
  sg_policy : credentialPolicies (CredentialInput.CredentialClass i) = Some pol;
  sg_audience : credentialAudienceAllowed (CredentialInput.CredentialClass i) (CredentialInput.Audience i)
    (audience pol) = true;
  sg_scopes : credentialScopesAllowed (CredentialInput.CredentialClass i) (CredentialInput.Scopes i) (scopes pol) = true;
  sg_base : CredentialInput.Subject i <> "" /\ CredentialInput.JTI i <> "" /\ CredentialInput.EnvironmentID i <> "";
  sg_ttl : CredentialInput.ExpiresAt i - CredentialInput.IssuedAt i <= maxTTL pol;
  sg_bindings : input_bindings i = None;
}.
Lemma policy_ttl class pol : credentialPolicies class = Some pol -> exists n, maxTTL pol = n * Second /\ 0 < n <= 3600.
Proof using Type.
  unfold credentialPolicies. intros H. repeat case_match; try done; injection H as <-; cbn;
    first [by exists 120|by exists 300|by exists 600|by exists 3600].
Qed.
Lemma sign_signable i token : sign i = Ok token -> exists pol, signable i pol
  /\ token = signClaims ed25519_Sign p credentialType (class_claims i (base_claims i)).
Proof using Type.
  unfold SignCredential. cbv zeta. destruct (credentialPolicies _) as [pol|] eqn:Hp; [|done].
  destruct (_ || _) eqn:Hb in |- *; [done|]. destruct (input_bindings i) eqn:Hi; [done|]. intros [= <-]. exists pol.
  destruct (policy_ttl _ _ Hp) as (n & Hn & Hb1). bool_prop.
  match goal with H : (_ <? Sub _ _) = false |- _ => idtac | H : Sub _ _ <= _ |- _ => rename H into Hs end.
  split; [|done]. split; try done. revert Hs. unfold Sub, max_int64, min_int64. rewrite Hn. unfold Second. lia.
Qed.

Definition base_part (c : CredentialClaims) : list string * (Z * Z) * list string :=
  ([CredentialClaims.Issuer c; CredentialClaims.Audience c; CredentialClaims.Subject c; CredentialClaims.JTI c;
    CredentialClaims.CredentialClass c; CredentialClaims.EnvironmentID c],
   (CredentialClaims.IssuedAt c, CredentialClaims.ExpiresAt c), CredentialClaims.Scopes c).
Lemma claims_base i : base_part (claims_for i) = base_part (base_of i).
Proof using Type.
  unfold claims_for, base_of. cbv zeta.
  generalize (Unix (CredentialInput.IssuedAt i)) (Unix (CredentialInput.ExpiresAt i)).
  generalize (Unix (CredentialInput.LeaseDeadline i)) (Unix (CredentialInput.CreatedAt i))
    (Unix (CredentialInput.LastRenewedAt i)) (Unix <$> CredentialInput.UserDeadline i). intros.
  repeat match goal with |- context [CredentialInput.CredentialClass i == ?s] =>
    destruct (CredentialInput.CredentialClass i == s) end.
  all: try lazymatch goal with |- context [shared_terminal ?l] => destruct (shared_terminal l) end.
  all: try lazymatch goal with |- context [?b != ""] => destruct (b != "") end.
  all: vm_compute; reflexivity.
Qed.

Lemma signed_reads_back i token : wire_credential i -> sign i = Ok token -> read token = Ok (claims_for i).
Proof using sign_bytes sign_verifies Hnew Hkid.
  intros Hw Hs. destruct (sign_signable i token Hs) as (pol & _ & ->).
  apply signed_read; [by apply claims_good|apply claims_applied].
Qed.

Lemma signed_checked i pol now : wire_credential i -> signable i pol -> fresh_launch i -> 0 <= Unix now < max_int64 - 60 ->
  Unix (CredentialInput.IssuedAt i) <= Unix now + 60 -> Unix now < Unix (CredentialInput.ExpiresAt i) ->
  Unix (CredentialInput.IssuedAt i) < Unix (CredentialInput.ExpiresAt i) ->
  check_claims (CredentialInput.Issuer i) (CredentialInput.CredentialClass i) now 0 (claims_for i) = None.
Proof using Type.
  intros [_ _ _ _ Htm _ _ _] [Hp Ha Hsc (Hsub & Hjti & Henv) Httl Hb] Hf Hnow H1 H2 H3. split_lists.
  unfold check_claims. cbv zeta. rewrite Hp. pose proof (claims_base i) as E. injection E as -> -> -> -> -> -> -> -> ->.
  destruct (policy_ttl _ _ Hp) as (n & Hn & Hnb).
  assert (Hd : Unix (CredentialInput.ExpiresAt i) - Unix (CredentialInput.IssuedAt i) <= n).
  { unfold Unix. assert (CredentialInput.ExpiresAt i / Second <= (CredentialInput.IssuedAt i + n * Second) / Second)
      by (apply Z.div_le_mono; [done|lia]). rewrite Z.div_add in H by done. lia. }
  rewrite !bool_decide_eq_true_2 by done. rewrite Ha, Hsc, !bool_decide_eq_false_2 by done. cbn [negb orb].
  unfold is_count, max_int64 in *. change (0 ÷ Second) with 0.
  rewrite (to_i64_small (Unix (CredentialInput.ExpiresAt i) - _)) by (unfold is_i64, min_int64, max_int64; lia).
  rewrite !to_i64_small by (unfold is_i64, min_int64, max_int64, Second in *; lia).
  rewrite (proj2 (Z.leb_gt _ _)) by lia. rewrite (proj2 (Z.ltb_ge _ _)) by lia. rewrite (proj2 (Z.leb_gt _ _)) by lia.
  rewrite (proj2 (Z.ltb_ge _ _)) by (rewrite Hn; unfold Second; lia). by rewrite signed_bound.
Qed.

(** C21. For every credential class, what the provider signs it reads back: a verification of
    the token of any input yields exactly the claims of that input, under the issuer and class
    of the input only, and within the window of the token (and, for previews, a lease and
    deadlines that lie after the second of issue) it succeeds. *)
Theorem signed_credential_verifies i token :
  wire_credential i -> SignCredential ed25519_Sign p i = Ok token ->
  (forall issuer class now grace c,
     verifyCredential ed25519_Verify ed25519_Public p token issuer class now grace = Ok c ->
     c = claims_for i /\ issuer = CredentialInput.Issuer i /\ class = CredentialInput.CredentialClass i)
  /\ (forall now, 0 <= Unix now < max_int64 - 60 ->
     Unix (CredentialInput.IssuedAt i) <= Unix now + 60 -> Unix now < Unix (CredentialInput.ExpiresAt i) ->
     Unix (CredentialInput.IssuedAt i) < Unix (CredentialInput.ExpiresAt i) -> fresh_launch i ->
     VerifyCredential ed25519_Verify ed25519_Public p token (CredentialInput.Issuer i)
       (CredentialInput.CredentialClass i) now = Ok (claims_for i)).
Proof using sign_bytes sign_verifies Hnew Hkid.
  intros Hw Hs. destruct (sign_signable i token Hs) as (pol & Hg & _). split.
  - intros issuer class now grace c H. unfold verifyCredential in H. rewrite (signed_reads_back i token Hw Hs) in H.
    destruct (check_claims _ _ _ _ _) eqn:E in H; [done|]. injection H as <-. split; [done|].
    unfold check_claims in E. cbv zeta in E. pose proof (claims_base i) as B. injection B as B1 _ _ _ B2 _ _ _ _.
    destruct (credentialPolicies class); [|done]. destruct (_ != class) eqn:E1 in E; [done|].
    destruct (_ != issuer) eqn:E2 in E; [done|]. bool_prop. split; congruence.
  - intros now Hnow H1 H2 H3 Hf. unfold VerifyCredential, verifyCredential.
    by rewrite (signed_reads_back i token Hw Hs), (signed_checked i pol).
Qed.

(** ** What is verified was signed *)

(** The token is signed by a published key. *)
Definition signed_by (token : string) : Prop :=
  exists a b s kid key signature, token = (a +:+ "." +:+ b) +:+ "." +:+ s /\ keys p !! kid = Some key
    /\ b64_DecodeString s = Some signature
    /\ ed25519_Verify (ed25519_Public key) (a +:+ "." +:+ b) signature = true.

Lemma Split_joined s sep : s = join_with (String sep "") (Split s sep).
Proof using Type.
  induction s as [|c s IH]; [done|]. cbn [Split]. case_bool_decide as E.
  - subst c. destruct (Split s sep) as [|x xs] eqn:Es; [by destruct s; cbn in Es; repeat case_match|].
    cbn [join_with]. rewrite IH. done.
  - destruct (Split s sep) as [|x xs] eqn:Es; [by destruct s; cbn in Es; repeat case_match|].
    rewrite IH. cbn [join_with]. by destruct xs.
Qed.
Lemma read_signed token c : read token = Ok c -> signed_by token.
Proof using Type.
  unfold signed_claims. pose proof (Split_joined token ".") as E.
  destruct (Split token ".") as [|a [|b [|s [|]]]]; try done.
  destruct (b64_DecodeString a); [|done]. destruct (decode_struct _ _ _) as [h|]; [|done]. case_match; [done|].
  destruct (keys p !! KeyID h) as [key|] eqn:Hk; [|done]. destruct (b64_DecodeString s) as [sig|] eqn:Hs; [|done].
  destruct (ed25519_Verify _ _ sig) eqn:Hv; [|done]. intros _. exists a, b, s, (KeyID h), key, sig.
  split; [|done]. rewrite E. cbn [join_with]. by rewrite !sapp_assoc.
Qed.

(** C22. A token that verifies was signed by a published key of the provider, is of the expected
    class and issuer with the audience and scopes of the class policy and its bindings, is
    unexpired up to the grace, and lives no longer than the policy allows (unless the difference
    of its times overflows a duration, which SignCredential never signs). *)
Theorem verified_credential_is_within_policy token issuer class now grace c :
  verifyCredential ed25519_Verify ed25519_Public p token issuer class now grace = Ok c ->
  0 <= grace -> grace / Second <= Unix now < max_int64 - 60 ->
  signed_by token /\ claims_bound class c = true
  /\ exists pol, credentialPolicies class = Some pol
    /\ CredentialClaims.CredentialClass c = class /\ CredentialClaims.Issuer c = issuer
    /\ credentialAudienceAllowed class (CredentialClaims.Audience c) (audience pol) = true
    /\ credentialScopesAllowed class (CredentialClaims.Scopes c) (scopes pol) = true
    /\ CredentialClaims.Subject c <> "" /\ CredentialClaims.JTI c <> "" /\ CredentialClaims.EnvironmentID c <> ""
    /\ Unix now - grace / Second < CredentialClaims.ExpiresAt c
    /\ CredentialClaims.IssuedAt c <= Unix now + 60
    /\ CredentialClaims.IssuedAt c < CredentialClaims.ExpiresAt c
    /\ (CredentialClaims.ExpiresAt c - CredentialClaims.IssuedAt c <= maxTTL pol / Second
        \/ max_int64 / Second < CredentialClaims.ExpiresAt c - CredentialClaims.IssuedAt c).
Proof using Type.
  unfold verifyCredential. intros H Hg Hnow. destruct (read token) as [c'|] eqn:Hr; [|done].
  destruct (check_claims _ _ _ _ _) eqn:E in H; [done|]. injection H as ->. split; [by eapply read_signed|].
  unfold check_claims in E. cbv zeta in E. destruct (credentialPolicies class) as [pol|] eqn:Hp; [|done].
  repeat match type of E with (if ?b then _ else _) = None => destruct b eqn:?; [done|] end.
  rewrite Z.quot_div_nonneg in * by done. assert (0 <= grace / Second) by (by apply Z.div_pos).
  rewrite to_i64_small in Heqb4 by (unfold is_i64, min_int64, max_int64 in *; lia).
  rewrite to_i64_small in Heqb5 by (unfold is_i64, min_int64, max_int64 in *; lia).
  bool_prop. split; [done|]. exists pol. do 5 (split; [done|]). do 3 (split; [done|]). split; [done|]. split; [lia|].
  split; [done|]. destruct (policy_ttl _ _ Hp) as (n & Hn & Hb). rewrite Hn in *. rewrite Z.div_mul by done.
  destruct (Z.le_gt_cases (CredentialClaims.ExpiresAt c - CredentialClaims.IssuedAt c) (max_int64 / Second)) as [Hd|Hd];
    [left|by right]. change (max_int64 / Second) with 9223372036 in Hd.
  rewrite (to_i64_small (_ - _)) in Heqb7 by (unfold is_i64, min_int64, max_int64; lia).
  rewrite to_i64_small in Heqb7 by (unfold is_i64, min_int64, max_int64, Second; lia). unfold Second in *. lia.
Qed.
End Provider.
