(* ===== verification/PrivateGrant.v ===== *)
(** * Route grants

    [MintGrantIssuer] of src/internal/privateaccess/grant.go: a grant is a
    credential of the class [private_access] whose claims are the request, with
    the hash of the request among them.  [clock] is the issuer's clock, read when
    a call names no time. *)
From S2P Require Import Prelude GoText GoHash GoUrl GoJson GoNet Errors Canonical TextFacts JsonFacts Identifiers WireConfig.
From S2P Require Import GoTime GoStruct StructFacts MessageFacts FrameFacts TranscriptFacts.
From S2P Require Import MintTypes Mint MintFacts MintSafety.
From S2P Require Import PrivateContract.

Definition privateAccessCredentialClass : string := "private_access".
Definition privateAccessEnvironment : string := "paperboat-private-access".
Definition privateAccessScope : string := "private:access".
Definition mintPrivateAccessTTL : duration := 2 * Minute.

(** The [CredentialInput] of a grant. *)
Definition grant_credential (issuer : string) (r : Request) (issuedAt : time) (hash : string) : CredentialInput :=
  CredentialInput.zero
    <| CredentialInput.Issuer := issuer |> <| CredentialInput.Audience := Request.Audience r |>
    <| CredentialInput.Subject := Request.AccountID r |> <| CredentialInput.JTI := Request.Nonce r |>
    <| CredentialInput.IssuedAt := issuedAt |> <| CredentialInput.ExpiresAt := Request.ExpiresAt r |>
    <| CredentialInput.CredentialClass := privateAccessCredentialClass |>
    <| CredentialInput.Scopes := [privateAccessScope] |>
    <| CredentialInput.EnvironmentID := privateAccessEnvironment |>
    <| CredentialInput.AccountID := Request.AccountID r |> <| CredentialInput.MachineID := Request.DeviceID r |>
    <| CredentialInput.UserID := Request.AccountID r |> <| CredentialInput.SessionID := Request.SessionID r |>
    <| CredentialInput.OperationID := Request.OperationID r |>
    <| CredentialInput.ConnectorID := Request.ConnectorID r |>
    <| CredentialInput.ResourceKind := Request.ResourceKind r |>
    <| CredentialInput.ResourceID := Request.ResourceID r |> <| CredentialInput.RouteID := Request.RouteID r |>
    <| CredentialInput.Protocol := Request.Protocol r |> <| CredentialInput.AccessMode := "private" |>
    <| CredentialInput.RouteGeneration := to_i64 (Request.RouteGeneration r) |>
    <| CredentialInput.CarrierSessionID := Request.CarrierSessionID r |>
    <| CredentialInput.ProcessGeneration := to_i64 (Request.ProcessGeneration r) |>
    <| CredentialInput.ConfigGeneration := to_i64 (Request.ConfigGeneration r) |>
    <| CredentialInput.InstallationGeneration := to_i64 (Request.InstallationGeneration r) |>
    <| CredentialInput.SessionGeneration := to_i64 (Request.SessionGeneration r) |>
    <| CredentialInput.AssignmentGeneration := to_i64 (Request.AssignmentGeneration r) |>
    <| CredentialInput.EdgeNodeID := Request.EdgeNodeID r |>
    <| CredentialInput.EdgeProcessEpoch := Request.EdgeProcessEpoch r |>
    <| CredentialInput.Method := Request.Method r |> <| CredentialInput.Host := Request.Host r |>
    <| CredentialInput.Path := Request.Path r |> <| CredentialInput.IdempotencyKey := Request.IdempotencyKey r |>
    <| CredentialInput.RequestID := Request.RequestID r |>
    <| CredentialInput.CorrelationID := Request.CorrelationID r |> <| CredentialInput.RequestHash := hash |>.

(** The request of a claim set. *)
Definition to_u64 (n : Z) : Z := n mod two64.
Definition claims_request (c : CredentialClaims) : Request :=
  Request.mk (CredentialClaims.AccountID c) (CredentialClaims.ResourceKind c) (CredentialClaims.ResourceID c)
    (CredentialClaims.RouteID c) (CredentialClaims.Audience c) (CredentialClaims.MachineID c)
    (CredentialClaims.SessionID c) (to_u64 (CredentialClaims.InstallationGeneration c))
    (time_Unix (CredentialClaims.ExpiresAt c)) 0 (CredentialClaims.JTI c) (CredentialClaims.OperationID c)
    (CredentialClaims.ConnectorID c) (CredentialClaims.CarrierSessionID c)
    (to_u64 (CredentialClaims.RouteGeneration c)) (to_u64 (CredentialClaims.ProcessGeneration c))
    (to_u64 (CredentialClaims.ConfigGeneration c)) (to_u64 (CredentialClaims.SessionGeneration c))
    (to_u64 (CredentialClaims.AssignmentGeneration c)) (CredentialClaims.EdgeNodeID c)
    (CredentialClaims.EdgeProcessEpoch c) (CredentialClaims.Protocol c) (CredentialClaims.Method c)
    (CredentialClaims.Host c) (CredentialClaims.Path c) (CredentialClaims.IdempotencyKey c)
    (CredentialClaims.RequestID c) (CredentialClaims.CorrelationID c).

Section Issuer.
Context (ed25519_Sign : list Z -> string -> list Z).
Context (ed25519_Verify : list Z -> string -> list Z -> bool).
Context (ed25519_Public : list Z -> list Z).
Context (p : Provider) (issuer : string) (clock : time).

Definition MintGrant (request : Request) (issuedAt : time) : ARes string :=
  match Request_Validate request with
  | Some e => Err e
  | None =>
      let issuedAt := if IsZero issuedAt then clock else issuedAt in
      if negb (After (Request.ExpiresAt request) issuedAt)
         || (mintPrivateAccessTTL <? Sub (Request.ExpiresAt request) issuedAt) then Err ErrInvalid else
      match Request_Hash request with
      | Err e => Err e
      | Ok hash =>
          match SignCredential ed25519_Sign p (grant_credential issuer request issuedAt hash) with
          | Err _ => Err ErrIdentityUnavailable
          | Ok token => Ok token
          end
      end
  end.

Definition VerifyGrant (token : string) (now : time) : ARes Request :=
  if TrimSpace token == "" then Err ErrIdentityUnavailable else
  let now := if IsZero now then clock else now in
  match VerifyCredential ed25519_Verify ed25519_Public p token issuer privateAccessCredentialClass now with
  | Err _ => Err ErrIdentityUnavailable
  | Ok claims =>
      let request := claims_request claims in
      match Request_Validate request with
      | Some _ => Err ErrIdentityUnavailable
      | None =>
          match Request_Hash request with
          | Err _ => Err ErrIdentityUnavailable
          | Ok hash => if hash != CredentialClaims.RequestHash claims then Err ErrIdentityUnavailable else Ok request
          end
      end
  end.
End Issuer.

(** ** Times in whole seconds *)
Lemma time_Unix_Unix t : time_Unix (Unix t) = t - t mod Second.
Proof. unfold time_Unix, Unix. pose proof (Z.div_mod t Second ltac:(done)). lia. Qed.
Lemma to_u64_to_i64 n : is_u64 n -> to_u64 (to_i64 n) = n.
Proof.
  unfold is_u64, to_u64, to_i64, two64. intros H. rewrite Zminus_mod, Zmod_mod, <- Zminus_mod.
  replace (n + 2 ^ 63 - 2 ^ 63) with n by lia. by apply Z.mod_small.
Qed.

Lemma Unix_bounds t : UnixEpoch <= t -> time_year_ok t = true -> 0 <= Unix t <= 25 * 146097 * 86400.
Proof.
  intros H Hy. unfold time_year_ok, year_of, civil in Hy. set (d := t / Second / 86400) in *.
  destruct (year_day d) as [y doy] eqn:E. destruct (month_day 11 1 y doy) as [m dd]. cbn in Hy. bool_prop.
  unfold year_day in E. cbv zeta in E. injection E as E _.
  assert (Hs : t / Second <= 25 * 146097 * 86400) by (unfold d in *; divmod).
  unfold Unix, unix_epoch. unfold UnixEpoch in H.
  assert (62135596800 <= t / Second) by (apply Z.div_le_lower_bound; [done|lia]). lia.
Qed.
Lemma Unix_bounds_zoned t zone :
  UnixEpoch <= t -> zone_ok t zone = true -> zone mod 60 = 0 -> 0 <= Unix t <= 25 * 146097 * 86400.
Proof.
  intros H [Hy Hh%Z.ltb_lt]%andb_true_iff Hz.
  apply Z.mod_divide in Hz as [k ->]; [|done]. rewrite Z.quot_mul in Hh by done.
  assert (-86400 < k * 60 < 86400) as Hk by divmod. set (z := k * 60) in *. clearbody z. clear Hh.
  unfold time_year_ok, year_of, civil in Hy. set (d := (t + z * Second) / Second / 86400) in *.
  destruct (year_day d) as [y doy] eqn:E. destruct (month_day 11 1 y doy) as [m dd]. cbn in Hy. bool_prop.
  unfold year_day in E. cbv zeta in E. injection E as E _.
  assert (Hs : (t + z * Second) / Second <= 25 * 146097 * 86400) by (unfold d in *; divmod).
  rewrite Z.div_add in Hs by done. unfold Unix, unix_epoch. unfold UnixEpoch in H.
  assert (62135596800 <= t / Second) by (apply Z.div_le_lower_bound; [done|lia]). lia.
Qed.
Lemma Unix_range t : UnixEpoch <= t -> time_year_ok t = true -> is_count (Unix t).
Proof. intros H Hy. pose proof (Unix_bounds t H Hy). unfold is_count, max_int64. lia. Qed.

(** ** What a grant carries *)
(** The request that the claims of its grant stand for: the expiry in whole
    seconds and in UTC. *)
Definition to_second (r : Request) : Request :=
  r <| Request.ExpiresAt := time_Unix (Unix (Request.ExpiresAt r)) |> <| Request.ExpiresZone := 0 |>.

Section Carried.
Import CredentialInput.
Lemma private_claims i : CredentialClass i = "private_access" ->
  claims_request (claims_for i)
  = Request.mk (AccountID i) (ResourceKind i) (ResourceID i) (RouteID i) (Audience i) (MachineID i) (SessionID i)
      (to_u64 (InstallationGeneration i)) (time_Unix (Unix (ExpiresAt i))) 0 (JTI i) (OperationID i) (ConnectorID i)
      (CarrierSessionID i) (to_u64 (RouteGeneration i)) (to_u64 (ProcessGeneration i)) (to_u64 (ConfigGeneration i))
      (to_u64 (SessionGeneration i)) (to_u64 (AssignmentGeneration i)) (EdgeNodeID i) (EdgeProcessEpoch i)
      (Protocol i) (Method i) (Host i) (Path i) (IdempotencyKey i) (RequestID i) (CorrelationID i)
  /\ CredentialClaims.RequestHash (claims_for i) = RequestHash i.
Proof.
  intros E. known_class i. split; reflexivity.
Qed.
End Carried.

Lemma grant_claims issuer r issuedAt hash : wire_request r ->
  claims_request (claims_for (grant_credential issuer r issuedAt hash)) = to_second r
  /\ CredentialClaims.RequestHash (claims_for (grant_credential issuer r issuedAt hash)) = hash.
Proof.
  intros [_ Hn _]. split_lists. destruct (private_claims (grant_credential issuer r issuedAt hash) eq_refl) as [-> ->].
  split; [|reflexivity]. cbn. rewrite !to_u64_to_i64 by done. by destruct r.
Qed.

(** ** What a decoder yields *)

(** A field keeps a property of the struct, whatever text it is set from. *)
Definition keeps {A} (P : A -> Prop) (f : field A) : Prop := forall a raw a', P a -> snd f a raw = Some a' -> P a'.
Lemma decode_keeps {A} (P : A -> Prop) fields a data a' : Forall (keeps P) fields -> P a ->
  decode_struct fields a data = Some a' -> P a'.
Proof.
  intros Hf Ha. unfold decode_struct. destruct (parse_json data) as [[]|]; try done; [by intros [= <-]|].
  destruct (raw_members data) as [l|]; [|done]. cbn [mbind option_bind]. clear data.
  revert a Ha. induction l as [|m l IH]; intros a Ha; [by intros [= <-]|]. cbn [set_members]. unfold set_member.
  destruct (List.find (fun f => is_field (fst m) (fst f)) fields) as [f|] eqn:Ef; [|done]. destruct (snd f a (snd m)) as [a1|] eqn:E1; [|done].
  apply IH. apply find_some in Ef as [Hin _]. rewrite Forall_forall in Hf.
  by apply (Hf f (proj2 (list_elem_of_In _ _) Hin) a (snd m)).
Qed.
Lemma raw_string_valid old raw s : valid_utf8 old -> raw_string old raw = Some s -> valid_utf8 s.
Proof.
  intros Ho. unfold raw_string. destruct (parse_json raw) as [v|] eqn:E; [|done]. cbn.
  pose proof (json_value_decoded raw v E) as Hd. destruct v; cbn in *; try done; intros [= <-]; [done|by destruct Hd].
Qed.

Definition request_texts (c : CredentialClaims) : list string :=
  let r := claims_request c in
  [Request.AccountID r; Request.ResourceKind r; Request.ResourceID r; Request.RouteID r; Request.Audience r;
   Request.DeviceID r; Request.SessionID r; Request.Nonce r; Request.OperationID r; Request.ConnectorID r;
   Request.CarrierSessionID r; Request.EdgeNodeID r; Request.EdgeProcessEpoch r; Request.Protocol r;
   Request.Method r; Request.Host r; Request.Path r; Request.IdempotencyKey r; Request.RequestID r;
   Request.CorrelationID r].
Lemma claims_keep_texts : Forall (keeps (fun c => Forall valid_utf8 (request_texts c))) CredentialClaims_fields.
Proof.
  unfold CredentialClaims_fields. repeat (apply Forall_cons; split); [..|by apply Forall_nil_2];
    intros c raw c' Hc Hx; cbn [snd] in Hx;
    (match type of Hx with mbind _ ?o = _ => destruct o as [x|] eqn:E; [|done] end); injection Hx as <-;
    first [exact Hc|unfold request_texts in *; cbn in *; split_lists; apply raw_string_valid in E; [|done];
      repeat (apply Forall_cons; split); first [done|by apply Forall_nil_2]].
Qed.
Lemma decoded_wire data c : decode_struct CredentialClaims_fields CredentialClaims.zero data = Some c ->
  wire_request (claims_request c).
Proof.
  intros H. split.
  - apply (decode_keeps (fun c => Forall valid_utf8 (request_texts c)) _ _ _ _ claims_keep_texts) in H; [exact H|].
    cbn. repeat (apply Forall_cons; split); first [by apply safe_valid|by apply Forall_nil_2].
  - cbn. repeat (apply Forall_cons; split); try apply Forall_nil_2; apply Z.mod_pos_bound; done.
  - done.
Qed.

(** ** Grants are read back *)
Section Facts.
Context (ed25519_Sign : list Z -> string -> list Z).
Context (ed25519_Verify : list Z -> string -> list Z -> bool).
Context (ed25519_Public : list Z -> list Z).
Context (sign_bytes : forall k m, is_bytes (ed25519_Sign k m)).
Context (sign_verifies : forall k m, ed25519_Verify (ed25519_Public k) m (ed25519_Sign k m) = true).
Context (ks : list Key) (active : string) (age : duration) (p : Provider) (Hnew : New ks active age = Ok p).
Context (Hkid : valid_utf8 (activeID p)) (issuer : string) (Hissuer : valid_utf8 issuer) (clock : time).

Abbreviation mint := (MintGrant ed25519_Sign p issuer clock).
Abbreviation verify := (VerifyGrant ed25519_Verify ed25519_Public p issuer clock).

Definition issued_at (t : time) : time := if IsZero t then clock else t.

Lemma mint_inv r t token : mint r t = Ok token -> exists hash, Request_Validate r = None /\ Request_Hash r = Ok hash
  /\ issued_at t < Request.ExpiresAt r <= issued_at t + mintPrivateAccessTTL
  /\ SignCredential ed25519_Sign p (grant_credential issuer r (issued_at t) hash) = Ok token.
Proof using Type.
  unfold MintGrant. destruct (Request_Validate r); [done|]. cbv zeta. fold (issued_at t).
  destruct (_ || _) eqn:Hb in |- *; [done|]. destruct (Request_Hash r) as [hash|]; [|done].
  destruct (SignCredential _ _ _) as [tok|] eqn:Es; [|done]. intros [= <-]. exists hash.
  split; [done|]. split; [done|]. split; [|done]. unfold After in Hb.
  change mintPrivateAccessTTL with (120 * Second) in *. rewrite Sub_gt in Hb by done. bool_prop. lia.
Qed.


Lemma hash_text_utf8 r hash : Request_Hash r = Ok hash -> valid_utf8 hash /\ exists text, Request_text r = Some text.
Proof using Type.
  unfold Request_Hash. destruct (Request_Validate r); [done|]. destruct (Request_text r) as [text|]; [|done].
  intros [= <-]. split; [|by exists text]. apply safe_valid. eapply all_bytes_mono; [|apply hex_encode_ok, Sum256_is_bytes].
  intros c. unfold is_hex_lower, is_digit, between, html_safe, is_byte.
  rewrite orb_true_iff, !andb_true_iff, negb_true_iff, !orb_false_iff, !Z.leb_le, Z.ltb_lt, !Z.eqb_neq. lia.
Qed.

Lemma validate_expires r : Request_Validate r = None -> UnixEpoch < Request.ExpiresAt r.
Proof using Type. unfold Request_Validate, After. intros H. repeat case_match; try done; by bool_prop. Qed.

Lemma private_numbers i : CredentialInput.CredentialClass i = "private_access" -> input_bindings i = None ->
  1 <= CredentialInput.InstallationGeneration i /\ 1 <= CredentialInput.RouteGeneration i
  /\ 1 <= CredentialInput.SessionGeneration i /\ 1 <= CredentialInput.ProcessGeneration i
  /\ 1 <= CredentialInput.ConfigGeneration i /\ 1 <= CredentialInput.AssignmentGeneration i.
Proof using Type.
  intros E H. unfold input_bindings in H. cbv zeta in H. rewrite E in H. revert H. decide_literals. intros H.
  unfold validatePrivateAccessInput in H. destruct (_ || _) eqn:Hb in H; [done|]. bool_prop. lia.
Qed.

Lemma grant_wire_input r t hash : wire_request r -> UnixEpoch <= t -> time_year_ok t = true ->
  Request_Validate r = None -> Request_Hash r = Ok hash ->
  input_bindings (grant_credential issuer r t hash) = None -> wire_credential (grant_credential issuer r t hash).
Proof using Hissuer.
  intros Hw Ht Hty Hv Hh Hb. destruct (hash_text_utf8 r hash Hh) as [Hu [text Htext]].
  destruct (request_written r text Htext) as [_ Hy]. pose proof (validate_expires r Hv).
  pose proof (private_numbers (grant_credential issuer r t hash) eq_refl Hb) as Hn. cbn in Hn.
  destruct Hw as [Hs _ Hz]. split_lists.
  assert (is_count (Unix (Request.ExpiresAt r))) as Hue.
  { pose proof (Unix_bounds_zoned (Request.ExpiresAt r) (Request.ExpiresZone r) ltac:(lia) Hy Hz). unfold is_count, max_int64. lia. }
  assert (Hr : forall n, 1 <= to_i64 n -> is_count (to_i64 n)).
  { intros n Hn1. pose proof (to_i64_range n) as [_ ?]. unfold is_count. lia. }
  split; cbn; try done.
  - repeat (apply Forall_cons_2; [done || by apply safe_valid|]). by apply Forall_nil_2.
  - apply Forall_singleton. by apply safe_valid.
  - repeat (apply Forall_cons_2; [first [apply Hr; lia|done]|]). by apply Forall_nil_2.
  - repeat (apply Forall_cons_2; [first [exact Hue|apply Unix_range; [lia|done]]|]). by apply Forall_nil_2.
  - split; [by apply safe_valid|]. repeat (apply Forall_cons_2; [done|]). by apply Forall_nil_2.
Qed.

(** A minted grant, as the verifier reads it. *)
Lemma minted_verified r t token now r' : wire_request r -> UnixEpoch <= issued_at t -> time_year_ok (issued_at t) = true ->
  mint r t = Ok token -> verify token now = Ok r' -> r' = to_second r /\ exists hash, Request_Hash r = Ok hash /\ Request_Hash r' = Ok hash.
Proof using sign_bytes sign_verifies Hnew Hkid Hissuer.
  intros Hw Ht Hty Hm Hv. destruct (mint_inv _ _ _ Hm) as (hash & Hval & Hh & _ & Hs).
  destruct (sign_signable ed25519_Sign p _ _ Hs) as (pol & Hg & _).
  assert (Hwi : wire_credential (grant_credential issuer r (issued_at t) hash)) by (apply grant_wire_input; try done; apply Hg).
  unfold VerifyGrant, VerifyCredential, verifyCredential in Hv. destruct (TrimSpace token == ""); [done|]. cbv zeta in Hv.
  rewrite (signed_reads_back ed25519_Sign ed25519_Verify ed25519_Public sign_bytes sign_verifies ks active age p Hnew Hkid _ _ Hwi Hs) in Hv.
  destruct (check_claims _ _ _ _ _); [done|]. destruct (grant_claims issuer r (issued_at t) hash Hw) as [E1 E2].
  rewrite E1, E2 in Hv. destruct (Request_Validate (to_second r)); [done|].
  destruct (Request_Hash (to_second r)) as [h'|] eqn:Hh'; [|done]. destruct (h' != hash) eqn:E; [done|].
  injection Hv as <-. bool_prop. subst h'. split; [done|]. by exists hash.
Qed.

Lemma to_second_wire r : wire_request r -> wire_request (to_second r).
Proof using Type. intros [? ? ?]. by split. Qed.
Lemma to_second_same r :
  to_second r = r <-> Request.ExpiresAt r mod Second = 0 /\ Request.ExpiresZone r = 0.
Proof using Type.
  unfold to_second. rewrite time_Unix_Unix. split.
  - intros E. split; [apply (f_equal Request.ExpiresAt) in E|apply (f_equal Request.ExpiresZone) in E]; cbn in E; lia.
  - intros [E Z]. rewrite E, Z.sub_0_r. destruct r; cbn in *. by subst.
Qed.

Definition token_byte (c : ascii) : bool := b64_byte c || is_byte 46 c.
Lemma token_bytes m : all_bytes token_byte (signClaims ed25519_Sign p credentialType m) = true.
Proof using sign_bytes.
  assert (H : forall l, is_bytes l -> all_bytes token_byte (b64_encode l) = true).
  { intros l Hl. eapply all_bytes_mono; [|by apply b64_encode_bytes]. intros c Hc. unfold token_byte. by rewrite Hc. }
  unfold signClaims. cbv zeta. unfold encode. rewrite !all_bytes_app, !H by (apply codes_bytes || apply sign_bytes). done.
Qed.
Lemma token_trimmed m : TrimSpace (signClaims ed25519_Sign p credentialType m) <> "".
Proof using sign_bytes.
  rewrite (TrimSpace_bytes token_byte) by (done || apply token_bytes). unfold signClaims. cbv zeta. intros E.
  apply (f_equal String.length) in E. rewrite !length_sapp in E. cbn in E. lia.
Qed.

Lemma signed_wire token c : signed_claims ed25519_Verify ed25519_Public p token = Ok c -> wire_request (claims_request c).
Proof using Type.
  unfold signed_claims. intros H. repeat case_match; try done. injection H as <-. by eapply decoded_wire.
Qed.
Lemma verified_wire token now r : verify token now = Ok r -> wire_request r.
Proof using Type.
  unfold VerifyGrant, VerifyCredential, verifyCredential. intros H. cbv zeta in H.
  destruct (TrimSpace token == ""); [done|]. destruct (signed_claims _ _ p token) as [c|] eqn:Es; [|done].
  destruct (check_claims _ _ _ _ _); [done|]. repeat (case_match; try done). injection H as <-. by eapply signed_wire.
Qed.

(** C19. A grant that MintGrant issues for a request whose expiry is in whole seconds and
    written in UTC is verified by VerifyGrant from one minute before its issue until the expiry,
    and yields exactly that request. *)
Theorem whole_second_grant_verifies r t token now :
  wire_request r -> UnixEpoch <= issued_at t -> time_year_ok (issued_at t) = true ->
  Request.ExpiresAt r mod Second = 0 -> Request.ExpiresZone r = 0 ->
  MintGrant ed25519_Sign p issuer clock r t = Ok token ->
  now <> 0 -> Unix (issued_at t) <= Unix now + 60 -> 0 <= Unix now -> now < Request.ExpiresAt r ->
  VerifyGrant ed25519_Verify ed25519_Public p issuer clock token now = Ok r.
Proof using sign_bytes sign_verifies Hnew Hkid Hissuer.
  intros Hw Ht Hty Hf Hutc Hm Hz H1 H2 H3. destruct (mint_inv _ _ _ Hm) as (hash & Hval & Hh & Htime & Hs).
  destruct (sign_signable ed25519_Sign p _ _ Hs) as (pol & Hg & Etok).
  assert (Hwi : wire_credential (grant_credential issuer r (issued_at t) hash)) by (apply grant_wire_input; try done; apply Hg).
  assert (Hexp : 0 <= Unix (Request.ExpiresAt r) <= 25 * 146097 * 86400).
  { destruct (hash_text_utf8 r hash Hh) as [_ [text Htext]]. destruct (request_written r text Htext) as [_ Hy].
    apply (Unix_bounds_zoned _ (Request.ExpiresZone r)); [|done|apply Hw].
    pose proof (validate_expires r Hval). lia. }
  assert (Hlt : forall u, u < Request.ExpiresAt r -> Unix u < Unix (Request.ExpiresAt r)).
  { intros u Hu. unfold Unix. assert (u / Second < Request.ExpiresAt r / Second); [|lia].
    apply Z.div_lt_upper_bound; [done|]. pose proof (Z.div_mod (Request.ExpiresAt r) Second ltac:(done)). lia. }
  unfold VerifyGrant. rewrite bool_decide_eq_false_2 by (rewrite Etok; apply token_trimmed). cbv zeta.
  unfold IsZero. rewrite (proj2 (Z.eqb_neq now 0) Hz). unfold VerifyCredential, verifyCredential.
  rewrite (signed_reads_back ed25519_Sign ed25519_Verify ed25519_Public sign_bytes sign_verifies ks active age p Hnew Hkid _ _ Hwi Hs).
  pose proof (Hlt now H3). pose proof (Hlt (issued_at t) (proj1 Htime)).
  rewrite (signed_checked (grant_credential issuer r (issued_at t) hash) pol); try done; try (cbn; unfold max_int64; lia).
  destruct (grant_claims issuer r (issued_at t) hash Hw) as [-> ->]. rewrite (proj2 (to_second_same r) (conj Hf Hutc)), Hval, Hh.
  by rewrite bool_decide_eq_true_2.
Qed.

(** Whatever VerifyGrant makes of a minted grant is the request it was minted for, or the
    texts of the two requests are a SHA-256 collision. *)
Theorem grant_carries_request r t token now r' :
  wire_request r -> UnixEpoch <= issued_at t -> time_year_ok (issued_at t) = true ->
  MintGrant ed25519_Sign p issuer clock r t = Ok token ->
  VerifyGrant ed25519_Verify ed25519_Public p issuer clock token now = Ok r' ->
  r' = r \/ collide (Request_text r') (Request_text r).
Proof using sign_bytes sign_verifies Hnew Hkid Hissuer.
  intros Hw Ht Hty Hm Hv. destruct (minted_verified _ _ _ _ _ Hw Ht Hty Hm Hv) as (-> & hash & Hh & Hh').
  by eapply Request_Hash_inj; [apply to_second_wire| | |].
Qed.

Lemma verify_errors token now e : verify token now = Err e -> e = ErrIdentityUnavailable.
Proof using Type. unfold VerifyGrant. cbv zeta. repeat (case_match; try congruence). Qed.

(** C20. MintGrant issues grants for requests whose expiry is not in whole seconds or is written
    with an offset from UTC, and no such grant ever verifies (unless two request texts are a
    SHA-256 collision): the claims keep whole seconds and are read back in UTC, while the signed
    hash covers the fraction and the offset, so a caller gets a token that every edge refuses. *)
Theorem fractional_grant_never_verifies r t token now :
  wire_request r -> UnixEpoch <= issued_at t -> time_year_ok (issued_at t) = true ->
  Request.ExpiresAt r mod Second <> 0 \/ Request.ExpiresZone r <> 0 ->
  MintGrant ed25519_Sign p issuer clock r t = Ok token ->
  VerifyGrant ed25519_Verify ed25519_Public p issuer clock token now = Err ErrIdentityUnavailable
  \/ collide (Request_text (to_second r)) (Request_text r).
Proof using sign_bytes sign_verifies Hnew Hkid Hissuer.
  intros Hw Ht Hty Hf Hm. destruct (verify token now) as [r'|e] eqn:Hv; [right|left; by rewrite (verify_errors _ _ _ Hv)].
  destruct (minted_verified _ _ _ _ _ Hw Ht Hty Hm Hv) as (-> & hash & Hh & Hh').
  destruct (Request_Hash_inj (to_second r) r hash) as [E|]; try done; [by apply to_second_wire|].
  apply to_second_same in E as [? ?]. by destruct Hf.
Qed.
End Facts.
