(* ===== verification/PrivateService.v ===== *)
(** * The private access service

    [Service] of src/internal/privateaccess/service.go: it issues route grants and
    answers an edge's question whether a request may use a private route.  What it
    asks for an answer is the record [Backends]: the resolver of bindings, the
    grant verifier and minter, the check of the machine's current state and the
    audit sink, each of which may change the outer state [X]; the last four may be
    absent.

    The cache of decisions is shared: an [AccessCall] holds the clock, what other
    requests do before each call of a backend and before each critical section,
    and which entry the random iteration of a map picks when the cache is full.
    [audited] is the trace of the records that the sink accepted. *)
From S2P Require Import Prelude GoText GoHash GoUrl GoJson GoNet Errors ServerSession PrivateContract.

Record cachedDecision := mkCached {
  fingerprint : string;
  decision : Decision;
  expiresAt : time;
}.

(** ** Configuration *)
Record Config := mkConfig { DecisionTTL : duration; MaximumCached : Z }.
Record Service := mkService { ttl : duration; maxCache : Z }.

Definition NewService (resolver_nil : bool) (cfg : Config) : ARes Service :=
  if resolver_nil then Err ErrInvalid else
  let ttl := if DecisionTTL cfg =? 0 then DefaultDecisionTTL else DecisionTTL cfg in
  if (ttl <=? 0) || (MaximumDecisionTTL <? ttl) then Err ErrInvalid else
  let maxCache := if MaximumCached cfg =? 0 then 1024 else MaximumCached cfg in
  if (maxCache <? 1) || (16384 <? maxCache) then Err ErrInvalid else
  Ok (mkService ttl maxCache).

Record Backends (X : Type) := mkBackends {
  bk_ResolvePrivate : Lookup -> X -> ARes Binding * X;
  (** whether the record was stored *)
  bk_Record : option (AuditRecord -> X -> bool * X);
  bk_VerifyGrant : option (string -> time -> X -> ARes Request * X);
  bk_MintGrant : option (Request -> time -> X -> ARes string * X);
  bk_VerifyCurrentMachine : option (Identity -> time -> X -> option AccessError * X);
}.
Arguments bk_ResolvePrivate {X}.
Arguments bk_Record {X}.
Arguments bk_VerifyGrant {X}.
Arguments bk_MintGrant {X}.
Arguments bk_VerifyCurrentMachine {X}.

(** ** Checks of a request against its binding *)

(** The reason of a resolver's error. *)
Definition resolverReason (err : AccessError) : DenyReason :=
  match err with
  | Denied reason _ => if DenyReason_valid reason then reason else ReasonInternal
  | ErrResourceNotFound => ReasonResourceNotFound
  | ErrRouteUnavailable => ReasonRoutePaused
  | ErrIdentityUnavailable => ReasonIdentityInvalid
  | _ => ReasonInternal
  end.

Definition exactBinding (request : Request) (b : Binding) : option DenyReason :=
  if Binding.AccountID b != Request.AccountID request then Some ReasonAccountMismatch
  else if (Binding.ResourceKind b != Request.ResourceKind request)
          || (Binding.ResourceID b != Request.ResourceID request) || (Binding.RouteID b != Request.RouteID request)
          || (Binding.OperationID b != Request.OperationID request)
          || (Binding.ConnectorID b != Request.ConnectorID request)
          || (Binding.CarrierSessionID b != Request.CarrierSessionID request)
          || negb (Binding.RouteGeneration b =? Request.RouteGeneration request)
          || negb (Binding.SessionGeneration b =? Request.SessionGeneration request)
          || negb (Binding.ProcessGeneration b =? Request.ProcessGeneration request)
          || negb (Binding.ConfigGeneration b =? Request.ConfigGeneration request)
          || negb (Binding.AssignmentGeneration b =? Request.AssignmentGeneration request)
  then Some ReasonWrongRoute
  else if Binding.Protocol b != Request.Protocol request then Some ReasonProtocolDenied
  else None.

Definition pathPrefixMatches (path prefix : string) : bool :=
  if prefix == "/" then HasPrefix path "/" else
  let prefix := TrimSuffix prefix "/" in
  (path == prefix) || HasPrefix path (prefix +:+ "/").

Definition routeRequestAllowed (request : Request) (b : Binding) : option DenyReason :=
  if negb (bool_decide (Binding.State b ∈ ["active"; "ready"; "edge_ready"])) then Some ReasonRoutePaused
  else if Binding.Protocol b == ProtocolHTTP then
    if canonicalHost (Request.Host request) != canonicalHost (Binding.Hostname b) then Some ReasonWrongRoute
    else if (Binding.PathPrefix b != "") && negb (pathPrefixMatches (Request.Path request) (Binding.PathPrefix b))
    then Some ReasonWrongRoute else None
  else None.

(** The binding is for the edge that asks. *)
Definition edge_matches (edge : EdgeIdentity) (b : Binding) : bool :=
  negb ((Binding.EdgeNodeID b == "") || (Binding.EdgeProcessEpoch b == "") || (Binding.EdgeNodeID b != NodeID edge)
        || (Binding.EdgeProcessEpoch b != ProcessEpoch edge)).

Definition minTime (t : time) (ts : list time) : time :=
  fold_left (fun result value => if Before value result then value else result) ts t.

(** ** What is written to the audit stream *)
Definition denial_record (i : Identity) (request : Request) (reason : DenyReason) : AuditRecord :=
  AuditRecord.mk "" false reason (Identity.AccountID i) (Identity.UserID i) (Identity.DeviceID i)
    (Identity.SessionID i) (Request.ResourceKind request) "" "" "" "" "" "" (Request.RequestID request)
    (Request.CorrelationID request) (Request.IdempotencyKey request).
Definition allowed_record (event : string) (i : Identity) (request : Request) (b : Binding) : AuditRecord :=
  AuditRecord.mk event true DecisionAllowed (Identity.AccountID i) (Identity.UserID i) (Identity.DeviceID i)
    (Identity.SessionID i) (Binding.ResourceKind b) (Binding.ResourceID b) (Binding.RouteID b)
    (Binding.OperationID b) (Binding.ConnectorID b) (Binding.CarrierSessionID b) (Binding.Protocol b)
    (Request.RequestID request) (Request.CorrelationID request) (Request.IdempotencyKey request).

(** The record of a denial once a binding was resolved, in [Authorize] and in
    [IssueGrant]. *)
Definition with_binding (record : AuditRecord) (b : Binding) : AuditRecord :=
  if Binding.ResourceID b == "" then record else
  record <| AuditRecord.ResourceKind := Binding.ResourceKind b |> <| AuditRecord.ResourceID := Binding.ResourceID b |>
         <| AuditRecord.RouteID := Binding.RouteID b |> <| AuditRecord.OperationID := Binding.OperationID b |>.
Definition with_carrier (record : AuditRecord) (b : Binding) : AuditRecord :=
  if Binding.ResourceID b == "" then record else
  (with_binding record b) <| AuditRecord.ConnectorID := Binding.ConnectorID b |>
    <| AuditRecord.CarrierSessionID := Binding.CarrierSessionID b |> <| AuditRecord.Protocol := Binding.Protocol b |>.

(** ** The decisions *)
Definition denied_decision (input : AuthorizeInput) (reason : DenyReason) (expires : time) : Decision :=
  let fingerprint := match requestFingerprint input with
                     | Some f => if slen f <? 32 then "00000000000000000000000000000000" else f
                     | None => "00000000000000000000000000000000"
                     end in
  Decision.mk Schema Kind (decisionID fingerprint) false reason expires (Request.RequestID (in_Request input))
    (Request.CorrelationID (in_Request input)) "" "" "" "" "" "" 0 0 0 0 0 "".
Definition allowed_decision (fingerprint : string) (request : Request) (b : Binding) (expires : time) : Decision :=
  Decision.mk Schema Kind (decisionID fingerprint) true DecisionAllowed expires (Request.RequestID request)
    (Request.CorrelationID request) (Binding.ResourceKind b) (Binding.ResourceID b) (Binding.RouteID b)
    (Binding.OperationID b) (Binding.ConnectorID b) (Binding.CarrierSessionID b) (Binding.RouteGeneration b)
    (Binding.SessionGeneration b) (Binding.ProcessGeneration b) (Binding.ConfigGeneration b)
    (Binding.AssignmentGeneration b) (Binding.Protocol b).

(** The identity that a verified grant stands for. *)
Definition grant_identity (signed : Request) : Identity :=
  Identity.mk (Request.AccountID signed) (Request.AccountID signed) (Request.DeviceID signed)
    (Request.SessionID signed) (Request.ExpiresAt signed) false "machine" (Request.InstallationGeneration signed).

Definition cache_key (i : Identity) (request : Request) : string :=
  let nul := String (byte_of 0) "" in
  Identity.AccountID i +:+ nul +:+ Identity.SessionID i +:+ nul +:+ Request.IdempotencyKey request.

Section Service.
Context {X : Type} (s : Service) (bk : Backends X).

Record AccessWorld := mkAccessWorld {
  cache : gmap string cachedDecision;
  ext : X;
  audited : list AuditRecord;
}.
#[global] Instance AccessWorld_settable : Settable AccessWorld := fun w => mkAccessWorld (cache w) (ext w) (audited w).

Record AccessCall := mkAccessCall {
  a_ctx : Context;
  a_now : time;        (** the clock when the call begins *)
  a_storeNow : time;   (** and when it stores its decision *)
  a_evict : nat;       (** the entry that a full cache drops *)
  a_gap : nat -> AccessWorld -> AccessWorld;
}.

(** ** The cache *)
Definition live (now : time) (v : cachedDecision) : bool := After (expiresAt v) now.

Definition replay (key fp : string) (now : time) (w : AccessWorld) : option Decision * AccessWorld :=
  let kept := filter (fun kv => live now (snd kv) = true) (cache w) in
  let w' := w <| cache := kept |> in
  match kept !! key with
  | Some v => if (fingerprint v == fp) && live now v then (Some (decision v), w') else (None, w')
  | None => (None, w')
  end.

Definition cachedConflict (key fp : string) (now : time) (w : AccessWorld) : bool * AccessWorld :=
  match cache w !! key with
  | None => (false, w)
  | Some v => if live now v then (fingerprint v != fp, w) else (false, w <| cache := delete key (cache w) |>)
  end.

(** Dropping one entry, whichever the iteration meets first. *)
Definition evict (n : nat) (m : gmap string cachedDecision) : gmap string cachedDecision :=
  match map_to_list m !! (n mod size m)%nat with
  | Some (k, _) => delete k m
  | None => m
  end.

Definition store (c : AccessCall) (key : string) (value : cachedDecision) (w : AccessWorld)
    : option AccessError * AccessWorld :=
  let conflict := match cache w !! key with
                  | Some existing => live (a_storeNow c) existing && (fingerprint existing != fingerprint value)
                  | None => false
                  end in
  if conflict then (Some ErrIdempotencyConflict, w) else
  let m := if maxCache s <=? Z.of_nat (size (cache w)) then evict (a_evict c) (cache w) else cache w in
  (None, w <| cache := <[key := value]> m |>).

(** ** Calls of the backends *)
Abbreviation AM := (M AccessWorld).

Definition gap {E} (c : AccessCall) (i : nat) : AM E unit := modify (a_gap c i).
Definition ask {E A} (c : AccessCall) (i : nat) (f : X -> A * X) : AM E A :=
  gap c i ;; ((fun w => let (a, x) := f (ext w) in (Ok a, w <| ext := x |>)) : AM E A).
Definition on_cache {E A} (c : AccessCall) (i : nat) (f : AccessWorld -> A * AccessWorld) : AM E A :=
  gap c i ;; ((fun w => let (a, w') := f w in (Ok a, w')) : AM E A).

(** [record]: no error without a sink. *)
Definition record {E} (c : AccessCall) (i : nat) (r : AuditRecord) : AM E (option AccessError) :=
  match bk_Record bk with
  | None => ret None
  | Some Record =>
      stored ← ask c i (Record r);
      if (stored : bool) then modify (fun w => w <| audited := r :: audited w |>) ;; ret None
      else ret (Some ErrAuditUnavailable)
  end.

(** ** [Authorize]

    The Go method returns a decision and an error; with an error the decision is
    the zero value or a denial. *)
Abbreviation AuthM := (M AccessWorld (Decision * AccessError)).
Definition fails {A} (e : AccessError) : AuthM A := throw (Decision.zero, e).
Definition auth_check (o : option AccessError) : AuthM unit :=
  match o with Some e => fails e | None => ret tt end.

Definition denyWithBinding {A} (c : AccessCall) (input : AuthorizeInput) (b : Binding) (reason : DenyReason) : AuthM A :=
  let now := a_now c in
  let request := in_Request input in
  let limit := Add now (ttl s) in
  let expires := if After (Request.ExpiresAt request) now && Before (Request.ExpiresAt request) limit
                 then Request.ExpiresAt request else limit in
  let d := denied_decision input reason expires in
  auth_check (Decision_Validate d now) ;;
  err ← record c 5 (with_binding (denial_record (in_Identity input) request reason) b);
  auth_check err ;;
  throw (d, newDenied reason).
Definition deny {A} (c : AccessCall) (input : AuthorizeInput) (reason : DenyReason) : AuthM A :=
  denyWithBinding c input Binding.zero reason.
Definition deny_if (c : AccessCall) (input : AuthorizeInput) (cond : bool) (reason : DenyReason) : AuthM unit :=
  if cond then deny c input reason else ret tt.
Definition deny_for {A} (c : AccessCall) (input : AuthorizeInput) (b : Binding) (o : option DenyReason) (k : AuthM A) : AuthM A :=
  match o with Some reason => denyWithBinding c input b reason | None => k end.

Definition same_hash (a b : Request) : bool :=
  match Request_Hash a, Request_Hash b with Ok x, Ok y => x == y | _, _ => false end.

(** The grant stands for a request, which must be the submitted one. *)
Definition verified_grant (c : AccessCall) (input : AuthorizeInput) : AuthM Request :=
  match bk_VerifyGrant bk with
  | None => deny c input ReasonUnauthenticated
  | Some VerifyGrant =>
      if TrimSpace (in_Grant input) == "" then deny c input ReasonUnauthenticated else
      verified ← ask c 0 (VerifyGrant (in_Grant input) (a_now c));
      match verified with
      | Err _ => deny c input ReasonUnauthenticated
      | Ok signed =>
          if same_hash (in_Request input) signed then ret signed else deny c input ReasonIdentityInvalid
      end
  end.

Definition current_machine (c : AccessCall) (input : AuthorizeInput) : AuthM unit :=
  match bk_VerifyCurrentMachine bk with
  | None => fails ErrIdentityUnavailable
  | Some VerifyCurrentMachine =>
      err ← ask c 1 (VerifyCurrentMachine (in_Identity input) (a_now c));
      match err with
      | Some (Denied reason _) => deny c input reason
      | Some _ => fails ErrIdentityUnavailable
      | None => ret tt
      end
  end.

Definition valid_identity (c : AccessCall) (input : AuthorizeInput) : AuthM unit :=
  match Identity_Validate (in_Identity input) (a_now c) with
  | Some (Denied reason _) => deny c input reason
  | Some _ => deny c input ReasonUnauthenticated
  | None => ret tt
  end.

(** The current binding of the route, if it is exactly the one requested. *)
Definition authorized_binding (c : AccessCall) (input : AuthorizeInput) : AuthM Binding :=
  let request := in_Request input in
  resolved ← ask c 3 (bk_ResolvePrivate bk
    (mkLookup (Identity.AccountID (in_Identity input)) request (in_Edge input) (a_now c)));
  match resolved with
  | Err err => deny c input (resolverReason err)
  | Ok b =>
      match Binding_Validate b (a_now c) with
      | Some (Denied reason _) => denyWithBinding c input b reason
      | Some _ => denyWithBinding c input b ReasonInternal
      | None =>
          deny_for c input b (exactBinding request b) (
          if negb (edge_matches (in_Edge input) b) then denyWithBinding c input b ReasonWrongRoute else
          deny_for c input b (routeRequestAllowed request b) (ret b))
      end
  end.

Definition Authorize (c : AccessCall) (input : AuthorizeInput) : AuthM Decision :=
  let now := a_now c in
  (if ctx_nil (a_ctx c) then fails ErrInvalid else ret tt) ;;
  deny_if c input (negb (match EdgeIdentity_Validate (in_Edge input) with None => true | Some _ => false end))
    ReasonIdentityInvalid ;;
  signed ← verified_grant c input;
  let input := mkInput (grant_identity signed) signed (in_Edge input) (in_Grant input) in
  let i := in_Identity input in
  auth_check (Request_Validate signed) ;;
  deny_if c input ((Request.EdgeNodeID signed != NodeID (in_Edge input))
                   || (Request.EdgeProcessEpoch signed != ProcessEpoch (in_Edge input))) ReasonWrongRoute ;;
  current_machine c input ;;
  valid_identity c input ;;
  deny_if c input (Request.AccountID signed != Identity.AccountID i) ReasonAccountMismatch ;;
  deny_if c input ((Request.DeviceID signed != Identity.DeviceID i) || (Request.SessionID signed != Identity.SessionID i))
    ReasonIdentityInvalid ;;
  deny_if c input (negb (After (Request.ExpiresAt signed) now)) ReasonSessionExpired ;;
  deny_if c input (MaximumDecisionTTL <? Sub (Request.ExpiresAt signed) now) ReasonIdentityInvalid ;;
  match requestFingerprint input with
  | None => fails ErrInvalid
  | Some fp =>
      let key := cache_key i signed in
      conflict ← on_cache c 2 (cachedConflict key fp now);
      (if (conflict : bool) then fails ErrIdempotencyConflict else ret tt) ;;
      b ← authorized_binding c input;
      cached ← on_cache c 4 (replay key fp now);
      match cached with
      | Some d => ret d
      | None =>
          let expires := minTime (Request.ExpiresAt signed) [Binding.ExpiresAt b; Add now (ttl s)] in
          let d := allowed_decision fp signed b expires in
          auth_check (Decision_Validate d now) ;;
          err ← record c 5 (allowed_record "" i signed b);
          auth_check err ;;
          stored ← on_cache c 6 (store c key (mkCached fp d expires));
          auth_check stored ;;
          ret d
      end
  end.

(** ** [IssueGrant] *)
Abbreviation GrantM := (M AccessWorld AccessError).
Definition issue_deny {A} (c : AccessCall) (i : Identity) (request : Request) (b : option Binding)
    (reason : DenyReason) : GrantM A :=
  let r := denial_record i request reason in
  err ← record c 5 (match b with Some b => with_carrier r b | None => r end);
  check err ;; throw (newDenied reason).
Definition issue_deny_if (c : AccessCall) (i : Identity) (request : Request) (b : option Binding) (cond : bool)
    (reason : DenyReason) : GrantM unit :=
  if cond then issue_deny c i request b reason else ret tt.
Definition issue_deny_for (c : AccessCall) (i : Identity) (request : Request) (b : Binding) (o : option DenyReason)
    : GrantM unit :=
  match o with Some reason => issue_deny c i request (Some b) reason | None => ret tt end.

Definition IssueGrant (c : AccessCall) (i : Identity) (edge : EdgeIdentity) (request : Request) : GrantM string :=
  let now := a_now c in
  match bk_MintGrant bk with
  | None => throw ErrIdentityUnavailable
  | Some MintGrant =>
      fail_if (ctx_nil (a_ctx c)) ErrIdentityUnavailable ;;
      (match Identity_Validate i now with
       | Some (Denied reason _) => issue_deny c i request None reason
       | Some _ => issue_deny c i request None ReasonUnauthenticated
       | None => ret tt
       end) ;;
      issue_deny_if c i request None
        (match EdgeIdentity_Validate edge with Some _ => true | None => false end) ReasonIdentityInvalid ;;
      check (Request_Validate request) ;;
      issue_deny_if c i request None
        ((Request.AccountID request != Identity.AccountID i) || (Request.DeviceID request != Identity.DeviceID i)
         || (Request.SessionID request != Identity.SessionID i)) ReasonIdentityInvalid ;;
      issue_deny_if c i request None
        (negb (Request.InstallationGeneration request =? Identity.InstallationGeneration i)
         || (Request.EdgeNodeID request != NodeID edge) || (Request.EdgeProcessEpoch request != ProcessEpoch edge))
        ReasonIdentityInvalid ;;
      issue_deny_if c i request None
        (negb (After (Request.ExpiresAt request) now) || (MaximumDecisionTTL <? Sub (Request.ExpiresAt request) now))
        ReasonExpired ;;
      resolved ← ask c 3 (bk_ResolvePrivate bk (mkLookup (Identity.AccountID i) request edge now));
      match resolved with
      | Err err => issue_deny c i request None (resolverReason err)
      | Ok b =>
          (match Binding_Validate b now with
           | Some (Denied reason _) => issue_deny c i request (Some b) reason
           | Some _ => issue_deny c i request (Some b) ReasonInternal
           | None => ret tt
           end) ;;
          issue_deny_for c i request b (exactBinding request b) ;;
          issue_deny_if c i request (Some b) (negb (edge_matches edge b)) ReasonWrongRoute ;;
          issue_deny_for c i request b (routeRequestAllowed request b) ;;
          minted ← ask c 1 (MintGrant request now);
          grant ← lift minted;
          err ← record c 5 (allowed_record "private_access.grant_issued" i request b);
          check err ;;
          ret grant
      end
  end.

(** An edge that was not authenticated. *)
Definition recordEdgeIdentityDenial (c : AccessCall) : GrantM (option AccessError) :=
  record c 5 (AuditRecord.mk "private_access.edge_identity_denied" false ReasonIdentityInvalid
                "" "" "" "" "" "" "" "" "" "" "" "" "" "").
End Service.
Arguments AccessWorld X : clear implicits.
Arguments AccessCall X : clear implicits.
