(* ===== verification/PrivateSafety.v ===== *)
(** * When private access is allowed

    The world of the service moves by the steps of [astep]: backends move the
    outer state, entries of the cache are dropped, records are audited, and a
    decision is stored that was checked and audited.  Every call of the service
    is a sequence of such steps with the steps of other calls in between, so in
    every run the cached decisions are justified and the cache is bounded; and an
    answer that allows access rests on what the backends said during the call. *)
From S2P Require Import Prelude GoText GoHash GoUrl GoJson GoNet Errors ServerSession TextFacts PrivateContract.
From S2P Require Import PrivateContract PrivateService.

(** What the service relies on: a backend moves the outer state by [xnext], and
    the requests of verified grants were decoded from JSON. *)
Class SteadyBackends {X} (bk : Backends X) (xnext : relation X) : Prop := {
  steady_order :: PreOrder xnext;
  steady_resolve lk x : xnext x (snd (bk_ResolvePrivate bk lk x));
  steady_record f r x : bk_Record bk = Some f -> xnext x (snd (f r x));
  steady_verify f g t x : bk_VerifyGrant bk = Some f -> xnext x (snd (f g t x));
  steady_wire f g t x r : bk_VerifyGrant bk = Some f -> fst (f g t x) = Ok r -> wire_request r;
  steady_mint f r t x : bk_MintGrant bk = Some f -> xnext x (snd (f r t x));
  steady_machine f i t x : bk_VerifyCurrentMachine bk = Some f -> xnext x (snd (f i t x));
}.

Definition grant_input (r : Request) : AuthorizeInput := mkInput (grant_identity r) r (mkEdge "" "") "".

Lemma fingerprint_grant r edge grant :
  requestFingerprint (mkInput (grant_identity r) r edge grant) = requestFingerprint (grant_input r).
Proof. done. Qed.

Lemma NewService_ok b cfg s : NewService b cfg = Ok s -> 0 < ttl s <= MaximumDecisionTTL /\ 1 <= maxCache s <= 16384.
Proof.
  unfold NewService. destruct b; [done|]. cbv zeta. destruct (_ || _) eqn:E1; [done|].
  destruct (_ || _) eqn:E2 in |- *; [done|]. intros [= <-]. bool_prop. cbn. lia.
Qed.

Lemma minTime_le t ts : minTime t ts <= t /\ Forall (fun u => minTime t ts <= u) ts.
Proof.
  revert t. induction ts as [|u ts IH]; intros t; [by split; [|constructor]|].
  unfold minTime. cbn [fold_left]. fold (minTime (if Before u t then u else t) ts).
  destruct (IH (if Before u t then u else t)) as [H1 H2]. unfold Before in *.
  destruct (Z.ltb_spec u t); (split; [lia|]); constructor; (done || lia).
Qed.
Lemma minTime_gt n t ts : n < t -> Forall (fun u => n < u) ts -> n < minTime t ts.
Proof.
  intros Ht H. revert t Ht. induction H as [|u ts Hu _ IH]; intros t Ht; [done|].
  unfold minTime. cbn [fold_left]. apply IH. by case_match.
Qed.

Section Safety.
Context {X : Type} (s : Service) (bk : Backends X) (xnext : relation X) `{!SteadyBackends bk xnext}.
Implicit Types (w : AccessWorld X).

(** ** Steps *)

(** The decision [v] was made for the request [first] with the binding [b]. *)
Record decided_for (log : list AuditRecord) (v : cachedDecision) (first : Request) (b : Binding) : Prop := {
  df_request : Request_Validate first = None;
  df_wire : wire_request first;
  df_fingerprint : requestFingerprint (grant_input first) = Some (fingerprint v);
  df_binding : exactBinding first b = None;
  df_route : routeRequestAllowed first b = None;
  df_decision : decision v = allowed_decision (fingerprint v) first b (expiresAt v);
  df_expires : expiresAt v <= Request.ExpiresAt first /\ expiresAt v <= Binding.ExpiresAt b;
  df_audited : bk_Record bk = None \/ allowed_record "" (grant_identity first) first b ∈ log;
}.
Definition justified (log : list AuditRecord) (k : string) (v : cachedDecision) : Prop :=
  exists first b, k = cache_key (grant_identity first) first /\ decided_for log v first b.

Inductive astep : AccessWorld X -> AccessWorld X -> Prop :=
| step_ext w x : xnext (ext w) x -> astep w (w <| ext := x |>)
| step_drop w m : m ⊆ cache w -> astep w (w <| cache := m |>)
| step_audit w r : astep w (w <| audited := r :: audited w |>)
| step_store w m k v : m ⊆ cache w -> Z.of_nat (size m) < maxCache s -> justified (audited w) k v ->
    astep w (w <| cache := <[k := v]> m |>).

Abbreviation from := (rtc astep).

Record inv (w : AccessWorld X) : Prop := {
  inv_justified : forall k v, cache w !! k = Some v -> justified (audited w) k v;
  inv_bounded : Z.of_nat (size (cache w)) <= maxCache s;
}.

Lemma justified_mono log log' k v : (forall r, r ∈ log -> r ∈ log') -> justified log k v -> justified log' k v.
Proof.
  intros H (first & b & Hk & [? ? ? ? ? ? ? Ha]). exists first, b. split; [done|]. split; try done.
  destruct Ha; [by left|right; auto].
Qed.
Lemma size_subset (m m' : gmap string cachedDecision) : m ⊆ m' -> (size m <= size m')%nat.
Proof. intros H. rewrite <- !size_dom. apply subseteq_size. by apply subseteq_dom. Qed.

Lemma astep_inv w w' : astep w w' -> inv w -> inv w'.
Proof.
  destruct 1 as [w x _|w m Hm|w r|w m k v Hm Hs Hj]; intros [J B]; split; cbn; try done.
  - intros k v Hk. eapply J, lookup_weaken; done.
  - pose proof (size_subset _ _ Hm). lia.
  - intros k v Hk. eapply justified_mono; [|by apply J]. intros r' Hr. by apply list_elem_of_further.
  - intros k' v' Hk. destruct (decide (k = k')) as [<-|Hne].
    + rewrite lookup_insert_eq in Hk. by simplify_eq.
    + rewrite lookup_insert_ne in Hk by done. eapply J, lookup_weaken; done.
  - rewrite map_size_insert. destruct (m !! k); cbn; lia.
Qed.
Lemma from_inv w w' : from w w' -> inv w -> inv w'.
Proof. induction 1; eauto using astep_inv. Qed.
Lemma astep_audited w w' r : astep w w' -> r ∈ audited w -> r ∈ audited w'.
Proof. destruct 1; cbn; auto. intros. by apply list_elem_of_further. Qed.
Lemma from_audited w w' r : from w w' -> r ∈ audited w -> r ∈ audited w'.
Proof. induction 1; eauto using astep_audited. Qed.

(** ** Calls

    Other calls take steps in the gaps, and the clock is past Go's zero time. *)
Record access_call_ok (c : AccessCall X) : Prop := {
  call_gaps : forall i w, from w (a_gap c i w);
  call_clock : 0 < a_now c;
}.

(** At a moment between [w] and [w'] the backend answered [a]. *)
Definition asked {A} (f : X -> A * X) (w w' : AccessWorld X) (a : A) : Prop :=
  exists w1, from w w1 /\ from w1 w' /\ fst (f (ext w1)) = a.
Lemma asked_widen {A} (f : X -> A * X) w0 w w' w1 a : from w0 w -> from w' w1 -> asked f w w' a -> asked f w0 w1 a.
Proof. intros H0 H1 (w2 & H2 & H3 & E). exists w2. split; [by etrans|]. split; [by etrans|done]. Qed.

(** The other calls that run between two steps of [c] leave the entry [v] of the
    key [k] in the cache. *)
Definition spares (c : AccessCall X) (k : string) (v : cachedDecision) : Prop :=
  forall i w, cache w !! k = Some v -> cache (a_gap c i w) !! k = Some v.

Section Calls.
Context (c : AccessCall X) (Hc : access_call_ok c) (Hs : 0 < ttl s <= MaximumDecisionTTL /\ 1 <= maxCache s <= 16384).

Definition keeps w w' : Prop :=
  forall k v, spares c k v -> cache w !! k = Some v -> cache w' !! k = Some v.
Lemma keeps_refl w : keeps w w.
Proof. by intros k v _. Qed.
Lemma keeps_trans w w1 w2 : keeps w w1 -> keeps w1 w2 -> keeps w w2.
Proof. intros H1 H2 k v Hsp Hk. by apply H2, H1. Qed.

Lemma wp_ask {E A} i (f : X -> A * X) w (R : result E A -> AccessWorld X -> Prop) :
  inv w -> (forall x, xnext x (snd (f x))) ->
  (forall a w', from w w' -> inv w' -> keeps w w' -> asked f w w' a -> R (Ok a) w') ->
  wp (ask c i f) R w.
Proof using Hc.
  intros I Hf HR. unfold ask, gap. apply wp_bind, wp_modify. set (w1 := a_gap c i w).
  assert (H1 : from w w1) by apply Hc.
  assert (K1 : keeps w w1) by (intros k v Hsp; apply Hsp). clearbody w1. unfold wp. specialize (Hf (ext w1)).
  destruct (f (ext w1)) as [a x] eqn:E1. cbn in *.
  assert (H2 : from w1 (w1 <| ext := x |>)) by (apply rtc_once; by constructor).
  assert (H3 : from w (w1 <| ext := x |>)) by (by etrans). apply HR; [done|by eapply from_inv|done|].
  exists w1. by rewrite E1.
Qed.

Lemma wp_on_cache {E A} i (f : AccessWorld X -> A * AccessWorld X) w (R : result E A -> AccessWorld X -> Prop) :
  inv w -> (forall w1, from w w1 -> inv w1 -> from w1 (snd (f w1))) ->
  (forall w1, from w w1 -> inv w1 -> keeps w w1 -> R (Ok (fst (f w1))) (snd (f w1))) ->
  wp (on_cache c i f) R w.
Proof using Hc.
  intros I Hf HR. unfold on_cache, gap. apply wp_bind, wp_modify. set (w1 := a_gap c i w).
  assert (H1 : from w w1) by apply Hc. assert (K1 : keeps w w1) by (intros k v Hsp; apply Hsp).
  clearbody w1. assert (I1 : inv w1) by (by eapply from_inv).
  specialize (Hf w1 H1 I1). specialize (HR w1 H1 I1 K1). unfold wp. by destruct (f w1).
Qed.

Lemma wp_record {E} i r w (R : result E (option AccessError) -> AccessWorld X -> Prop) :
  inv w -> (forall w', from w w' -> inv w' -> R (Ok (Some ErrAuditUnavailable)) w') ->
  (forall w', from w w' -> inv w' -> bk_Record bk = None \/ r ∈ audited w' -> R (Ok None) w') ->
  wp (record bk c i r) R w.
Proof using Hc SteadyBackends0.
  intros I HE HR. unfold record. destruct (bk_Record bk) as [f|] eqn:Ef; [|apply wp_ret, HR; auto using rtc_refl].
  apply wp_bind, wp_ask; [done|intros; by eapply steady_record|]. intros stored w1 H1 I1 _ _. destruct stored.
  - apply wp_bind, wp_modify, wp_ret. assert (H2 : astep w1 (w1 <| audited := r :: audited w1 |>)) by constructor.
    apply HR; [by eapply rtc_r|by eapply astep_inv|]. right. cbn. by apply list_elem_of_here.
  - by apply wp_ret, HE.
Qed.

(** *** Denials *)

(** What a refusal looks like: no decision and no denial, or a denial that names no
    resource, and that was audited with its reason. *)
Definition refusal (d : Decision) (e : AccessError) (w : AccessWorld X) : Prop :=
  (d = Decision.zero /\ forall reason retryable, e <> Denied reason retryable)
  \/ exists input reason expires rec, d = denied_decision input reason expires
       /\ e = newDenied reason /\ reason <> DecisionAllowed /\ a_now c < expires <= a_now c + ttl s
       /\ (bk_Record bk = None \/ rec ∈ audited w /\ AuditRecord.Allowed rec = false /\ AuditRecord.Reason rec = reason).

Lemma with_binding_outcome r b :
  AuditRecord.Allowed (with_binding r b) = AuditRecord.Allowed r
  /\ AuditRecord.Reason (with_binding r b) = AuditRecord.Reason r.
Proof. unfold with_binding. by case_match. Qed.

Lemma Decision_Validate_None d now : Decision_Validate d now = None ->
  DenyReason_valid (Decision.Reason d) = true /\ Decision.Allowed d = (Decision.Reason d == DecisionAllowed).
Proof.
  unfold Decision_Validate. intros H. repeat case_match; try done. bool_prop.
  split; [done|]. by apply eqb_prop.
Qed.
Lemma Decision_Validate_denied d now : forall reason b, Decision_Validate d now <> Some (Denied reason b).
Proof. intros. unfold Decision_Validate. by repeat case_match. Qed.
Lemma Request_Validate_denied r : forall reason b, Request_Validate r <> Some (Denied reason b).
Proof. intros. unfold Request_Validate. by repeat case_match. Qed.

Lemma wp_access_fails {A} e w (R : result (Decision * AccessError) A -> AccessWorld X -> Prop) :
  (forall reason b, e <> Denied reason b) -> (forall d e w', refusal d e w' -> from w w' -> R (Err (d, e)) w') ->
  wp (fails e) R w.
Proof. intros He HR. apply wp_throw, HR; [by left|apply rtc_refl]. Qed.
Lemma wp_auth_check o w (R : result (Decision * AccessError) unit -> AccessWorld X -> Prop) :
  (forall reason b, o <> Some (Denied reason b)) -> (forall d e w', refusal d e w' -> from w w' -> R (Err (d, e)) w') ->
  (o = None -> R (Ok tt) w) -> wp (auth_check o) R w.
Proof. intros He HR HN. destruct o; [|by apply wp_ret, HN]. apply wp_access_fails; [|done]. intros ? ? ->. by eapply He. Qed.

Lemma wp_deny {A} input b reason w (R : result (Decision * AccessError) A -> AccessWorld X -> Prop) :
  inv w -> (forall d e w', refusal d e w' -> from w w' -> R (Err (d, e)) w') ->
  wp (denyWithBinding s bk c input b reason) R w.
Proof using Hc Hs SteadyBackends0.
  intros I HR. unfold denyWithBinding. cbv zeta. set (expires := if _ && _ then _ else _).
  assert (He : a_now c < expires <= a_now c + ttl s).
  { unfold expires. destruct (_ && _) eqn:E; unfold After, Before, Add in *; bool_prop; lia. }
  clearbody expires. apply wp_bind, wp_auth_check; [apply Decision_Validate_denied|by auto|intros Hv].
  apply wp_bind, wp_record; [done|..].
  - intros w1 H1 I1. apply wp_bind, wp_auth_check; [done| |done]. intros d e w2 Hr H2. apply HR; [done|by etrans].
  - intros w1 H1 I1 Ha. apply wp_bind, wp_auth_check; [done| |].
    { intros d e w2 Hr H2. apply HR; [done|by etrans]. }
    intros _. apply wp_throw, HR; [|done]. right. eexists input, reason, expires, _. do 2 (split; [done|]).
    apply Decision_Validate_None in Hv as [_ Hv]. cbn in Hv. split; [by intros ->|]. split; [done|].
    destruct Ha as [Ha|Ha]; [by left|right]. split; [exact Ha|].
    destruct (with_binding_outcome (denial_record (in_Identity input) (in_Request input) reason) b) as [-> ->]. done.
Qed.
Lemma wp_deny_if input cond reason w (R : result (Decision * AccessError) unit -> AccessWorld X -> Prop) :
  inv w -> (forall d e w', refusal d e w' -> from w w' -> R (Err (d, e)) w') -> (cond = false -> R (Ok tt) w) ->
  wp (deny_if s bk c input cond reason) R w.
Proof using Hc Hs SteadyBackends0. intros I HR HF. unfold deny_if. destruct cond; [by apply wp_deny|by apply wp_ret, HF]. Qed.
Abbreviation refusing w R := (forall d e w', refusal d e w' -> from w w' -> R (Err (d, e)) w').

(** *** What is asked *)
Lemma wp_verified_grant input w (R : result (Decision * AccessError) Request -> AccessWorld X -> Prop) :
  inv w -> refusing w R ->
  (forall f signed w', bk_VerifyGrant bk = Some f -> asked (f (in_Grant input) (a_now c)) w w' (Ok signed) ->
     wire_request signed -> same_hash (in_Request input) signed = true -> from w w' -> inv w' -> keeps w w' -> R (Ok signed) w') ->
  wp (verified_grant s bk c input) R w.
Proof using Hc Hs SteadyBackends0.
  intros I HR HG. unfold verified_grant. destruct (bk_VerifyGrant bk) as [f|] eqn:Ef; [|by apply wp_deny].
  case_match; [by apply wp_deny|]. apply wp_bind, wp_ask; [done|intros; by eapply steady_verify|].
  intros [signed|e] w1 H1 I1 K1 Ha; [|apply wp_deny; [done|]; intros; apply HR; [done|by etrans]].
  destruct (same_hash _ _) eqn:Eh; [|apply wp_deny; [done|]; intros; apply HR; [done|by etrans]].
  apply wp_ret. eapply HG; try done. destruct Ha as (w2 & _ & _ & E). by eapply steady_wire.
Qed.

Lemma wp_current_machine input w (R : result (Decision * AccessError) unit -> AccessWorld X -> Prop) :
  inv w -> refusing w R ->
  (forall f w', bk_VerifyCurrentMachine bk = Some f -> asked (f (in_Identity input) (a_now c)) w w' None ->
     from w w' -> inv w' -> keeps w w' -> R (Ok tt) w') ->
  wp (current_machine s bk c input) R w.
Proof using Hc Hs SteadyBackends0.
  intros I HR HG. unfold current_machine. destruct (bk_VerifyCurrentMachine bk) as [f|] eqn:Ef; [|by apply wp_access_fails].
  apply wp_bind, wp_ask; [done|intros; by eapply steady_machine|]. intros [e|] w1 H1 I1 K1 Ha.
  - assert (HR' : refusing w1 R) by (intros; apply HR; [done|by etrans]).
    destruct e; try (by apply wp_access_fails). by apply wp_deny.
  - by apply wp_ret, (HG f).
Qed.

Lemma wp_valid_identity input w (R : result (Decision * AccessError) unit -> AccessWorld X -> Prop) :
  inv w -> refusing w R -> (Identity_Validate (in_Identity input) (a_now c) = None -> R (Ok tt) w) ->
  wp (valid_identity s bk c input) R w.
Proof using Hc Hs SteadyBackends0.
  intros I HR HG. unfold valid_identity.
  destruct (Identity_Validate _ _) as [e|]; [|by apply wp_ret, HG]. destruct e; by apply wp_deny.
Qed.

(** The binding [b] lets [signed] through for [edge] now. *)
Definition lets_through (edge : EdgeIdentity) (signed : Request) (b : Binding) : Prop :=
  Binding_Validate b (a_now c) = None /\ exactBinding signed b = None /\ edge_matches edge b = true
  /\ routeRequestAllowed signed b = None.

Lemma wp_authorized_binding input w (R : result (Decision * AccessError) Binding -> AccessWorld X -> Prop) :
  inv w -> refusing w R ->
  (forall b w', asked (bk_ResolvePrivate bk (mkLookup (Identity.AccountID (in_Identity input)) (in_Request input)
                        (in_Edge input) (a_now c))) w w' (Ok b) ->
     lets_through (in_Edge input) (in_Request input) b -> from w w' -> inv w' -> keeps w w' -> R (Ok b) w') ->
  wp (authorized_binding s bk c input) R w.
Proof using Hc Hs SteadyBackends0.
  intros I HR HG. unfold authorized_binding. cbv zeta. apply wp_bind, wp_ask; [done|intros; by apply steady_resolve|].
  intros [b|e] w1 H1 I1 K1 Ha; (assert (HR' : refusing w1 R) by (intros; apply HR; [done|by etrans])); [|by apply wp_deny].
  destruct (Binding_Validate b (a_now c)) as [e|] eqn:Hv; [destruct e; by apply wp_deny|].
  unfold deny_for. destruct (exactBinding _ b) eqn:Hx; [by apply wp_deny|].
  destruct (edge_matches _ b) eqn:He; cbn [negb]; [|by apply wp_deny].
  destruct (routeRequestAllowed _ b) eqn:Hr; [by apply wp_deny|]. by apply wp_ret, HG.
Qed.

(** *** The cache *)
Lemma conflict_steps key fp now w : from w (snd (cachedConflict key fp now w)).
Proof.
  unfold cachedConflict. destruct (cache w !! key) as [v|]; [|apply rtc_refl].
  case_match; [apply rtc_refl|]. apply rtc_once, step_drop, delete_subseteq.
Qed.
Lemma replay_steps key fp now w : from w (snd (replay key fp now w)).
Proof.
  unfold replay. cbv zeta.
  assert (H : from w (w <| cache := filter (fun kv => live now (snd kv) = true) (cache w) |>))
    by (apply rtc_once, step_drop, map_filter_subseteq).
  destruct (_ !! key); [|done]. by case_match.
Qed.
Lemma replay_Some key fp now w d : fst (replay key fp now w) = Some d ->
  exists v, cache w !! key = Some v /\ decision v = d /\ fingerprint v = fp /\ now < expiresAt v
    /\ cache (snd (replay key fp now w)) !! key = Some v.
Proof.
  unfold replay. cbv zeta. destruct (_ !! key) as [v|] eqn:E; [|done]. destruct (_ && _) eqn:Hv; [|done]. intros [= <-].
  pose proof E as [E' _]%map_lookup_filter_Some. unfold live, After in Hv. bool_prop. by exists v.
Qed.

(** An entry that lives survives the conflict test, and passing it means that the
    entry has the fingerprint; its replay is its decision. *)
Lemma conflict_entry key fp now w v :
  cache w !! key = Some v -> now < expiresAt v ->
  snd (cachedConflict key fp now w) = w
  /\ (fst (cachedConflict key fp now w) = false -> fingerprint v = fp).
Proof.
  intros Hk Hl. unfold cachedConflict. rewrite Hk. unfold live, After. rewrite (proj2 (Z.ltb_lt _ _) Hl).
  split; [done|]. cbn. intros H. by bool_prop.
Qed.
Lemma replay_entry key fp now w v :
  cache w !! key = Some v -> now < expiresAt v -> fingerprint v = fp ->
  fst (replay key fp now w) = Some (decision v).
Proof.
  intros Hk Hl <-. unfold replay. cbv zeta.
  assert (live now v = true) as Hv by (unfold live, After; by apply Z.ltb_lt).
  rewrite (proj2 (map_lookup_filter_Some _ _ _ v)) by done. by rewrite Hv, bool_decide_eq_true_2.
Qed.

Lemma evict_room n (m : gmap string cachedDecision) :
  evict n m ⊆ m /\ (0 < size m -> size (evict n m) < size m)%nat.
Proof.
  unfold evict. destruct (map_to_list m !! _) as [[k v]|] eqn:E.
  - split; [apply delete_subseteq|]. intros Hm. apply list_elem_of_lookup_2, elem_of_map_to_list in E.
    rewrite map_size_delete_Some by eauto. lia.
  - split; [done|]. intros Hm. apply lookup_ge_None in E. rewrite length_map_to_list in E.
    pose proof (Nat.mod_upper_bound n (size m)). lia.
Qed.
Lemma store_steps key v w : inv w -> justified (audited w) key v -> from w (snd (store s c key v w)).
Proof using Hs.
  intros I J. unfold store. cbv zeta. destruct (match cache w !! key with Some _ => _ | None => _ end); [apply rtc_refl|].
  cbn. apply rtc_once. destruct (Z.leb_spec (maxCache s) (Z.of_nat (size (cache w)))) as [Hf|Hf].
  - destruct (evict_room (a_evict c) (cache w)) as [Hm Hr]. apply step_store; [done| |done].
    pose proof (inv_bounded _ I). lia.
  - by apply step_store.
Qed.

Lemma store_entry key v w :
  fst (store s c key v w) = None -> cache (snd (store s c key v w)) !! key = Some v.
Proof.
  unfold store. cbv zeta. destruct (match cache w !! key with Some _ => _ | None => _ end); [done|].
  intros _. cbn. apply lookup_insert_eq.
Qed.

(** *** [Authorize] *)

(** The decision names exactly what the request asks for. *)
Definition decision_for (r : Request) (d : Decision) : Prop :=
  Decision.Allowed d = true /\ Decision.RequestID d = Request.RequestID r
  /\ Decision.CorrelationID d = Request.CorrelationID r /\ Decision.ResourceKind d = Request.ResourceKind r
  /\ Decision.ResourceID d = Request.ResourceID r /\ Decision.RouteID d = Request.RouteID r
  /\ Decision.OperationID d = Request.OperationID r /\ Decision.ConnectorID d = Request.ConnectorID r
  /\ Decision.CarrierSessionID d = Request.CarrierSessionID r
  /\ Decision.RouteGeneration d = Request.RouteGeneration r /\ Decision.SessionGeneration d = Request.SessionGeneration r
  /\ Decision.ProcessGeneration d = Request.ProcessGeneration r /\ Decision.ConfigGeneration d = Request.ConfigGeneration r
  /\ Decision.AssignmentGeneration d = Request.AssignmentGeneration r /\ Decision.Protocol d = Request.Protocol r
  /\ Decision.ExpiresAt d <= Request.ExpiresAt r.

Lemma decided_decision log v first b : decided_for log v first b -> decision_for first (decision v).
Proof.
  intros [_ _ _ Hx _ Hd [He _] _]. rewrite Hd. unfold exactBinding in Hx. repeat case_match; try done. bool_prop.
  unfold decision_for. cbn. by repeat split.
Qed.

(** The decision that answers for [signed] was made for it, or it was cached under
    the key and fingerprint of [signed]; it is in the cache when the call ends. *)
Definition answers (signed : Request) (d : Decision) (w w' : AccessWorld X) : Prop :=
  exists first b v, decided_for (audited w') v first b /\ decision v = d
    /\ requestFingerprint (grant_input signed) = Some (fingerprint v)
    /\ cache w' !! cache_key (grant_identity signed) signed = Some v
    /\ (first = signed \/ exists w1, from w w1 /\ from w1 w'
          /\ cache w1 !! cache_key (grant_identity signed) signed = Some v).

(** An entry of the key of [signed] that lives during the whole call is the
    answer, and it has the fingerprint of [signed]. *)
Definition kept_entry (signed : Request) w (v : cachedDecision) : Prop :=
  let key := cache_key (grant_identity signed) signed in
  spares c key v /\ cache w !! key = Some v /\ a_now c < expiresAt v.
Definition repeats (signed : Request) (d : Decision) w : Prop :=
  forall v, kept_entry signed w v ->
    d = decision v /\ requestFingerprint (grant_input signed) = Some (fingerprint v).

Definition granted (input : AuthorizeInput) (d : Decision) (w w' : AccessWorld X) : Prop :=
  exists verify machine signed b,
    bk_VerifyGrant bk = Some verify /\ asked (verify (in_Grant input) (a_now c)) w w' (Ok signed)
    /\ wire_request signed /\ same_hash (in_Request input) signed = true
    /\ bk_VerifyCurrentMachine bk = Some machine
    /\ asked (machine (grant_identity signed) (a_now c)) w w' None
    /\ asked (bk_ResolvePrivate bk (mkLookup (Request.AccountID signed) signed (in_Edge input) (a_now c))) w w' (Ok b)
    /\ Request.EdgeNodeID signed = NodeID (in_Edge input)
    /\ Request.EdgeProcessEpoch signed = ProcessEpoch (in_Edge input)
    /\ lets_through (in_Edge input) signed b
    /\ a_now c < Decision.ExpiresAt d /\ answers signed d w w' /\ repeats signed d w.

Definition outcome_ok (input : AuthorizeInput) (w : AccessWorld X) (r : result (Decision * AccessError) Decision)
    (w' : AccessWorld X) : Prop :=
  from w w' /\ match r with Ok d => granted input d w w' | Err (d, e) => refusal d e w' end.

Lemma binding_unexpired b : Binding_Validate b (a_now c) = None -> a_now c < Binding.ExpiresAt b.
Proof using Hc.
  destruct Hc as [_ Hn]. unfold Binding_Validate. cbv zeta. unfold After, IsZero. intros H. repeat case_match; try done; bool_prop.
  all: repeat match goal with H : _ && _ = false |- _ => apply andb_false_iff in H; destruct H end; bool_prop; lia.
Qed.

(** What remains once the route is authorized. *)
Lemma wp_decide fp signed b input w0 w :
  inv w -> from w0 w -> Request_Validate signed = None -> wire_request signed ->
  requestFingerprint (grant_input signed) = Some fp -> lets_through (in_Edge input) signed b ->
  a_now c < Request.ExpiresAt signed ->
  (forall v, kept_entry signed w0 v ->
     cache w !! cache_key (grant_identity signed) signed = Some v /\ fingerprint v = fp) ->
  (forall d w', from w w' -> a_now c < Decision.ExpiresAt d -> answers signed d w0 w' -> repeats signed d w0 ->
     outcome_ok input w0 (Ok d) w') ->
  wp (cached ← on_cache c 4 (replay (cache_key (grant_identity signed) signed) fp (a_now c));
      match cached with
      | Some d => ret d
      | None =>
          let expires := minTime (Request.ExpiresAt signed) [Binding.ExpiresAt b; Add (a_now c) (ttl s)] in
          let d := allowed_decision fp signed b expires in
          auth_check (Decision_Validate d (a_now c)) ;;
          err ← record bk c 5 (allowed_record "" (grant_identity signed) signed b);
          auth_check err ;;
          stored ← on_cache c 6 (store s c (cache_key (grant_identity signed) signed) (mkCached fp d expires));
          auth_check stored ;;
          ret d
      end) (outcome_ok input w0) w.
Proof using Hc Hs SteadyBackends0.
  intros I H0 Hv Hw Hf (Hb & Hx & He & Hr) Ht Hkept HG.
  assert (HR : forall w1, from w w1 -> refusing w1 (outcome_ok input w0)).
  { intros w1 H1 d e w2 Hd H2. split; [|done]. etrans; [done|]. by etrans. }
  apply wp_bind, wp_on_cache; [done|intros; apply replay_steps|]. intros w1 H1 I1 K1.
  assert (Hrep : forall v, kept_entry signed w0 v ->
    fst (replay (cache_key (grant_identity signed) signed) fp (a_now c) w1) = Some (decision v) /\ fingerprint v = fp).
  { intros v Hv'. destruct (Hkept v Hv') as [Hk Hfp]. destruct Hv' as (Hsp & _ & Hl).
    split; [|done]. apply replay_entry; [by apply K1|done|done]. }
  set (w2 := snd (replay _ fp (a_now c) w1)). assert (H2 : from w1 w2) by apply replay_steps.
  assert (H2' : from w w2) by (by etrans). assert (I2 : inv w2) by (by eapply from_inv).
  destruct (fst (replay _ fp (a_now c) w1)) as [d|] eqn:E; cbv zeta.
  - apply wp_ret. apply replay_Some in E as (v & Hk & <- & <- & Hl & Hk2).
    destruct (inv_justified _ I1 _ _ Hk) as (first & b' & _ & Hd). apply HG; [done| | |].
    3: { intros v' Hv'. destruct (Hrep v' Hv') as [[= Hdv] Hfv]. by rewrite Hdv, Hfv. }
    + rewrite (df_decision _ _ _ _ Hd). done.
    + exists first, b', v. split; [|split; [done|split; [done|split; [done|right]]]].
      * destruct Hd as [? ? ? ? ? ? ? Ha]. split; try done. destruct Ha; [by left|right].
        by eapply from_audited.
      * exists w1. split; [by etrans|done].
  - clearbody w2. set (expires := minTime _ _). apply wp_bind, wp_auth_check; [apply Decision_Validate_denied|by apply HR|intros _].
    apply wp_bind, wp_record; [done|..].
    { intros w3 H3 I3. apply wp_bind, wp_auth_check; [done| |done]. apply HR. by etrans. }
    intros w3 H3 I3 Ha. assert (H3' : from w w3) by (by etrans).
    apply wp_bind, wp_auth_check; [done|by apply HR|intros _].
    set (v := mkCached fp (allowed_decision fp signed b expires) expires).
    assert (Hd : decided_for (audited w3) v signed b).
    { split; try done. cbn. destruct (minTime_le (Request.ExpiresAt signed) [Binding.ExpiresAt b; Add (a_now c) (ttl s)])
        as [Hm1 Hm2]. apply Forall_cons in Hm2 as [Hm2 _]. done. }
    assert (HJ : forall w4, from w3 w4 -> decided_for (audited w4) v signed b).
    { intros w4 H4. destruct Hd as [? ? ? ? ? ? ? Hd]. split; try done. destruct Hd; [by left|right; by eapply from_audited]. }
    apply wp_bind, wp_on_cache; [done| |].
    { intros w4 H4 I4. apply store_steps; [done|]. exists signed, b. split; [done|by apply HJ]. }
    intros w4 H4 I4 _. set (w5 := snd (store _ _ _ _ w4)).
    assert (H5 : from w4 w5) by (apply store_steps; [done|]; exists signed, b; split; [done|by apply HJ]).
    assert (H5' : from w w5) by (etrans; [done|]; by etrans). assert (H5'' : from w3 w5) by (by etrans).
    apply wp_bind, wp_auth_check; [|by apply HR|intros Hst].
    { intros reason b'. unfold store. cbv zeta. by repeat case_match. }
    apply wp_ret, HG; [done| | |intros v' Hv'; by destruct (Hrep v' Hv')].
    + change (a_now c < expires). unfold expires. apply minTime_gt; [done|]. pose proof (binding_unexpired b Hb). unfold Add.
      repeat constructor; [done|lia].
    + exists signed, b, v. split; [by apply HJ|]. do 2 (split; [done|]). split; [|by left].
      by apply store_entry.
Qed.

Lemma authorize_ok input w : inv w -> wp (Authorize s bk c input) (outcome_ok input w) w.
Proof using Hc Hs SteadyBackends0.
  intros I. assert (HR : forall w1, from w w1 -> refusing w1 (outcome_ok input w)).
  { intros w1 H1 d e w2 Hd H2. split; [by etrans|done]. }
  pose proof (rtc_refl astep w) as H0. unfold Authorize. cbv zeta.
  apply wp_bind, wp_if; intros _; [apply wp_access_fails; [done|by apply HR]|]. apply wp_ret, wp_bind, wp_deny_if; [done|by apply HR|intros _].
  apply wp_bind, wp_verified_grant; [done|by apply HR|]. intros verify signed w1 Ev Av Hw Eh H1 I1 K1.
  apply wp_bind, wp_auth_check; [apply Request_Validate_denied|by apply HR|intros Hv].
  apply wp_bind, wp_deny_if; [done|by apply HR|intros Hedge]. cbn [in_Edge] in Hedge.
  apply orb_false_iff in Hedge as [Hnode Hepoch]. bool_prop.
  apply wp_bind, wp_current_machine; [done|by apply HR|]. intros machine w2 Em Am H2 I2 K2.
  assert (H2' : from w w2) by (by etrans).
  apply wp_bind, wp_valid_identity; [done|by apply HR|intros _].
  do 2 (apply wp_bind, wp_deny_if; [done|by apply HR|intros _]).
  apply wp_bind, wp_deny_if; [done|by apply HR|intros Ht]. unfold After in Ht. bool_prop.
  apply wp_bind, wp_deny_if; [done|by apply HR|intros _].
  change (requestFingerprint _) with (requestFingerprint (grant_input signed)).
  destruct (requestFingerprint (grant_input signed)) as [fp|] eqn:Hf; [|apply wp_access_fails; [done|by apply HR]].
  apply wp_bind, wp_on_cache; [done|intros; apply conflict_steps|]. intros w3 H3 I3 K3.
  assert (Hconf : forall v, kept_entry signed w v ->
    cache (snd (cachedConflict (cache_key (grant_identity signed) signed) fp (a_now c) w3))
      !! cache_key (grant_identity signed) signed = Some v
    /\ (fst (cachedConflict (cache_key (grant_identity signed) signed) fp (a_now c) w3) = false -> fingerprint v = fp)).
  { intros v (Hsp & Hk & Hl). apply K1, K2, K3 in Hk; [|done..].
    destruct (conflict_entry _ fp _ _ _ Hk Hl) as [-> Hfp]. done. }
  cbn [in_Identity]. revert Hconf. set (conflict := fst (cachedConflict _ _ _ _)).
  set (w4 := snd (cachedConflict _ _ _ _)). intros Hconf. assert (H4 : from w3 w4) by apply conflict_steps.
  assert (H4' : from w2 w4) by (by etrans). assert (H4'' : from w w4) by (by etrans).
  assert (I4 : inv w4) by (by eapply from_inv). clearbody w4.
  apply wp_bind, wp_if; intros Hnc; [apply wp_access_fails; [done|by apply HR]|]. apply wp_ret, wp_bind.
  apply wp_authorized_binding; [done|by apply HR|]. intros b w5 Ab Hb H5 I5 K5. cbn [in_Request in_Edge in_Identity] in *.
  assert (H5' : from w w5) by (by etrans).
  eapply wp_decide; try done.
  { intros v Hv'. destruct (Hconf v Hv') as [Hk Hfp]. split; [|by apply Hfp]. apply K5; [by apply Hv'|done]. }
  intros d w6 H6 Hd Ha Hrep. assert (H6' : from w w6) by (by etrans). split; [done|].
  exists verify, machine, signed, b. split; [done|]. split; [|split; [done|split; [done|split; [done|split; [|split]]]]].
  - eapply asked_widen; [exact H0| |exact Av]. etrans; [|exact H6]. etrans; [exact H2|]. by etrans.
  - eapply asked_widen; [exact H1| |exact Am]. etrans; [|exact H6]. by etrans.
  - eapply asked_widen; [exact H4''|exact H6|exact Ab].
  - do 3 (split; [done|]). by split.
Qed.
End Calls.
End Safety.

(** * Runs of the private access service

    Grants are issued only for a request that is authorized now; in every run of
    the service an answer that allows access rests on a verified grant, a current
    machine and a current binding, refusals reveal nothing, and an idempotency key
    answers for one request while its decision lives. *)

Section Runs.
Context {X : Type} (s : Service) (bk : Backends X) (xnext : relation X) `{!SteadyBackends bk xnext}.
Implicit Types (w : AccessWorld X).

Abbreviation from := (rtc (astep s bk xnext)).
Abbreviation call_ok := (access_call_ok s bk xnext).
Abbreviation inv := (inv s bk).
Abbreviation asked := (asked s bk xnext).

(** ** [IssueGrant] *)
Section Issue.
Context (c : AccessCall X) (Hc : call_ok c) (Hs : 0 < ttl s <= MaximumDecisionTTL /\ 1 <= maxCache s <= 16384).

(** A grant is issued to the machine that asks, for its own session and for the
    route as it is now, and the issue is audited. *)
Definition issued (i : Identity) (edge : EdgeIdentity) (request : Request) (grant : string) (w w' : AccessWorld X) : Prop :=
  exists mint b, bk_MintGrant bk = Some mint /\ asked (mint request (a_now c)) w w' (Ok grant)
    /\ asked (bk_ResolvePrivate bk (mkLookup (Identity.AccountID i) request edge (a_now c))) w w' (Ok b)
    /\ Identity_Validate i (a_now c) = None /\ Request_Validate request = None
    /\ Request.AccountID request = Identity.AccountID i /\ Request.DeviceID request = Identity.DeviceID i
    /\ Request.SessionID request = Identity.SessionID i
    /\ Request.InstallationGeneration request = Identity.InstallationGeneration i
    /\ Request.EdgeNodeID request = NodeID edge /\ Request.EdgeProcessEpoch request = ProcessEpoch edge
    /\ a_now c < Request.ExpiresAt request <= a_now c + MaximumDecisionTTL
    /\ lets_through c edge request b
    /\ (bk_Record bk = None \/ allowed_record "private_access.grant_issued" i request b ∈ audited w').

(** A denial of the service was audited with its reason. *)
Definition issue_refusal (request : Request) (e : AccessError) (w : AccessWorld X) : Prop :=
  (forall reason retryable, e <> Denied reason retryable)
  \/ (exists mint x, bk_MintGrant bk = Some mint /\ fst (mint request (a_now c) x) = Err e)
  \/ bk_Record bk = None
  \/ exists reason rec, e = newDenied reason /\ rec ∈ audited w /\ AuditRecord.Allowed rec = false
       /\ AuditRecord.Reason rec = reason.

Definition issue_ok (i : Identity) (edge : EdgeIdentity) (request : Request) w (r : ARes string) w' : Prop :=
  from w w' /\ match r with Ok grant => issued i edge request grant w w' | Err e => issue_refusal request e w' end.

Abbreviation refusing request w R := (forall e w', issue_refusal request e w' -> from w w' -> R (Err e) w').

Lemma with_carrier_outcome r b :
  AuditRecord.Allowed (with_carrier r b) = AuditRecord.Allowed r
  /\ AuditRecord.Reason (with_carrier r b) = AuditRecord.Reason r.
Proof. unfold with_carrier, with_binding. by case_match. Qed.

Lemma wp_issue_deny {A} i request b reason w (R : ARes A -> AccessWorld X -> Prop) :
  inv w -> refusing request w R -> wp (issue_deny bk c i request b reason) R w.
Proof using Hc SteadyBackends0.
  intros I HR. unfold issue_deny. cbv zeta. eapply wp_bind, (wp_record s bk xnext c Hc); [done|..].
  - intros w1 H1 I1. apply wp_bind, wp_check; [|done]. intros e [= <-]. apply HR; [by left|done].
  - intros w1 H1 I1 Ha. apply wp_bind, wp_check; [done|intros _]. apply wp_throw, HR; [do 2 right|done].
    destruct Ha as [Ha|Ha]; [by left|right]. eexists reason, _. split; [done|]. split; [exact Ha|].
    destruct b as [b|]; [|done].
    by destruct (with_carrier_outcome (denial_record i request reason) b) as [-> ->].
Qed.
Lemma wp_issue_deny_if i request b cond reason w (R : ARes unit -> AccessWorld X -> Prop) :
  inv w -> refusing request w R -> (cond = false -> R (Ok tt) w) -> wp (issue_deny_if bk c i request b cond reason) R w.
Proof using Hc SteadyBackends0.
  intros I HR HF. unfold issue_deny_if. destruct cond; [by apply wp_issue_deny|by apply wp_ret, HF].
Qed.
Lemma wp_issue_deny_for i request b o w (R : ARes unit -> AccessWorld X -> Prop) :
  inv w -> refusing request w R -> (o = None -> R (Ok tt) w) -> wp (issue_deny_for bk c i request b o) R w.
Proof using Hc SteadyBackends0.
  intros I HR HF. unfold issue_deny_for. destruct o; [by apply wp_issue_deny|by apply wp_ret, HF].
Qed.

(** The errors of the validators end in a denial. *)
Lemma wp_issue_verdict (o : option AccessError) i request b fallback w (R : ARes unit -> AccessWorld X -> Prop) :
  inv w -> refusing request w R -> (o = None -> R (Ok tt) w) ->
  wp (match o with
      | Some (Denied reason _) => issue_deny bk c i request b reason
      | Some _ => issue_deny bk c i request b fallback
      | None => ret tt
      end) R w.
Proof using Hc SteadyBackends0.
  intros I HR HF. destruct o as [e|]; [destruct e; by apply wp_issue_deny|by apply wp_ret, HF].
Qed.

Lemma issue_grant_ok i edge request w : inv w -> wp (IssueGrant bk c i edge request) (issue_ok i edge request w) w.
Proof using Hc SteadyBackends0.
  intros I. assert (HR : forall w1, from w w1 -> refusing request w1 (issue_ok i edge request w)).
  { intros w1 H1 e w2 He H2. split; [by etrans|done]. }
  pose proof (rtc_refl (astep s bk xnext) w) as H0. unfold IssueGrant. cbv zeta.
  destruct (bk_MintGrant bk) as [mint|] eqn:Em; [|apply wp_throw, (HR w); [done|by left|done]].
  apply wp_bind, wp_fail_if; intros _; [apply (HR w); [done|by left|done]|].
  apply wp_bind, wp_issue_verdict; [done|by apply HR|intros Hi].
  apply wp_bind, wp_issue_deny_if; [done|by apply HR|intros _].
  apply wp_bind, wp_check.
  { intros e He. apply (HR w); [done| |done]. left. intros ? ? ->. by eapply Request_Validate_denied. }
  intros Hv. apply wp_bind, wp_issue_deny_if; [done|by apply HR|intros Hids].
  apply wp_bind, wp_issue_deny_if; [done|by apply HR|intros Hgen].
  apply wp_bind, wp_issue_deny_if; [done|by apply HR|intros Htime].
  apply wp_bind, (wp_ask s bk xnext c Hc); [done|intros; by apply steady_resolve|].
  intros [b|e] w1 H1 I1 _ Ab; [|apply wp_issue_deny; [done|by apply HR]].
  apply wp_bind, wp_issue_verdict; [done|by apply HR|intros Hb].
  apply wp_bind, wp_issue_deny_for; [done|by apply HR|intros Hx].
  apply wp_bind, wp_issue_deny_if; [done|by apply HR|intros He]. apply negb_false_iff in He.
  apply wp_bind, wp_issue_deny_for; [done|by apply HR|intros Hr].
  apply wp_bind, (wp_ask s bk xnext c Hc); [done|intros; by eapply steady_mint|].
  intros minted w2 H2 I2 _ Am. assert (H2' : from w w2) by (by etrans). apply wp_bind, wp_lift.
  destruct minted as [grant|e].
  2:{ apply (HR w2); [done| |apply rtc_refl]. right. left. destruct Am as (w3 & _ & _ & E). by exists mint, (ext w3). }
  apply wp_bind, (wp_record s bk xnext c Hc); [done|..].
  { intros w3 H3 I3. apply wp_bind, wp_check; [|done]. intros e [= <-]. apply (HR w3); [by etrans|by left|apply rtc_refl]. }
  intros w3 H3 I3 Ha. apply wp_bind, wp_check; [done|intros _]. apply wp_ret. split; [by etrans|].
  exists mint, b. split; [done|]. split; [eapply asked_widen; [exact H1|exact H3|exact Am]|].
  split; [eapply asked_widen; [exact H0| |exact Ab]; by etrans|].
  unfold After in Htime. change (MaximumDecisionTTL <? _) with (120 * Second <? Sub (Request.ExpiresAt request) (a_now c)) in Htime.
  rewrite Sub_gt in Htime by done. change MaximumDecisionTTL with (120 * Second). bool_prop.
  do 8 (split; [done|]). split; [lia|]. by repeat split.
Qed.

Lemma edge_denial_ok w : inv w -> wp (recordEdgeIdentityDenial bk c) (fun _ w' => from w w') w.
Proof using Hc SteadyBackends0. intros I. unfold recordEdgeIdentityDenial. by apply (wp_record s bk xnext c Hc). Qed.
End Issue.

(** ** Runs *)
Context (cfg : Config) (Hnew : NewService false cfg = Ok s).

Inductive access_run : AccessWorld X -> AccessWorld X -> Prop :=
| run_authorize c input w : call_ok c -> access_run w (snd (Authorize s bk c input w))
| run_issue c i edge request w : call_ok c -> access_run w (snd (IssueGrant bk c i edge request w))
| run_edge_denial c w : call_ok c -> access_run w (snd (recordEdgeIdentityDenial bk c w))
| run_outside x w : xnext (ext w) x -> access_run w (w <| ext := x |>).

Lemma run_steps w w' : access_run w w' -> inv w -> from w w'.
Proof using Hnew SteadyBackends0.
  pose proof (NewService_ok _ _ _ Hnew) as Hs. destruct 1 as [c input w Hc|c i edge request w Hc|c w Hc|x w Hx]; intros I.
  - by apply (authorize_ok s bk xnext c Hc Hs input).
  - by apply (issue_grant_ok c Hc i edge request).
  - by apply (edge_denial_ok c Hc).
  - by apply rtc_once, step_ext.
Qed.
Lemma runs_inv w w' : rtc access_run w w' -> inv w -> inv w'.
Proof using Hnew SteadyBackends0.
  induction 1 as [|w w1 w' H _ IH]; [done|]. intros I. apply IH. by eapply from_inv, I; apply run_steps.
Qed.
Lemma access_inv w0 w : cache w0 = ∅ -> rtc access_run w0 w -> inv w.
Proof using Hnew SteadyBackends0.
  intros E Hr. apply (runs_inv w0); [done|]. destruct (NewService_ok _ _ _ Hnew) as [_ Hm]. split; rewrite E.
  - intros k v. by rewrite lookup_empty.
  - rewrite map_size_empty. lia.
Qed.

Lemma wire_grant_input r : wire_request r -> wire_input (grant_input r).
Proof. intros W. split; [done|]. destruct W as [Ht _]. cbn. rewrite !Forall_cons in *. tauto. Qed.

(** C14. Over any backends, Authorize allows a request only if during the call the verifier
    accepted the grant, the submitted request is the signed one (unless their texts are a
    SHA-256 collision), the signed edge is the asking edge, the machine was current, and the
    resolver returned a valid binding that equals the signed request and lets it through; the
    decision is unexpired, names the resource of the request it was made for, and was audited
    before it was returned, also when it comes from the cache. *)
Theorem allowed_access_is_authorized w0 w w' c input d :
  cache w0 = ∅ -> rtc access_run w0 w -> call_ok c -> Authorize s bk c input w = (Ok d, w') ->
  exists verify machine signed b,
    bk_VerifyGrant bk = Some verify /\ asked (verify (in_Grant input) (a_now c)) w w' (Ok signed)
    /\ (wire_request (in_Request input) ->
         in_Request input = signed \/ collide (Request_text (in_Request input)) (Request_text signed))
    /\ bk_VerifyCurrentMachine bk = Some machine
    /\ asked (machine (grant_identity signed) (a_now c)) w w' None
    /\ asked (bk_ResolvePrivate bk (mkLookup (Request.AccountID signed) signed (in_Edge input) (a_now c))) w w' (Ok b)
    /\ lets_through c (in_Edge input) signed b
    /\ Request.EdgeNodeID signed = NodeID (in_Edge input)
    /\ Request.EdgeProcessEpoch signed = ProcessEpoch (in_Edge input)
    /\ a_now c < Decision.ExpiresAt d
    /\ exists first, decision_for first d
         /\ (bk_Record bk = None \/ exists b', allowed_record "" (grant_identity first) first b' ∈ audited w')
         /\ (first = signed \/ collide (fingerprint_text (grant_input first)) (fingerprint_text (grant_input signed))).
Proof using Hnew SteadyBackends0.
  intros E Hr Hc Ha. pose proof (access_inv _ _ E Hr) as I.
  pose proof (authorize_ok s bk xnext c Hc (NewService_ok _ _ _ Hnew) input w I) as H. unfold wp in H. rewrite Ha in H.
  destruct H as [_ (verify & machine & signed & b & Hv & Av & W & Hh & Hm & Am & Ab & Hn & He & Hb & Ht & Hans)].
  exists verify, machine, signed, b. do 2 (split; [done|]). split; [|do 7 (split; [done|])].
  - intros Wi. unfold same_hash in Hh. destruct (Request_Hash (in_Request input)) as [h|] eqn:H1; [|done].
    destruct (Request_Hash signed) as [h'|] eqn:H2; [|done]. bool_prop. subst h'. by eapply Request_Hash_inj.
  - destruct Hans as [(first & b' & v & Hd & <- & Hf & _ & _) _]. exists first. split; [by eapply decided_decision|]. split.
    + destruct (df_audited _ _ _ _ _ Hd); [by left|right; by exists b'].
    + by eapply (fingerprint_inj (grant_input first) (grant_input signed));
        [apply wire_grant_input, Hd|apply wire_grant_input|apply Hd|].
Qed.

(** C15. A refusal of Authorize names no resource: the decision is empty, with an error that is
    not a denial, or it is a denial whose every resource, route, connector, session and
    generation field is zero, whose error carries the same reason, which lives at most two
    minutes, and which was audited with its reason. *)
Theorem refused_access_reveals_nothing w0 w w' c input d e :
  cache w0 = ∅ -> rtc access_run w0 w -> call_ok c -> Authorize s bk c input w = (Err (d, e), w') ->
  (d = Decision.zero /\ forall reason retryable, e <> Denied reason retryable)
  \/ exists id reason expires rid cid,
       d = Decision.mk Schema Kind id false reason expires rid cid "" "" "" "" "" "" 0 0 0 0 0 ""
       /\ e = newDenied reason /\ reason <> DecisionAllowed /\ a_now c < expires <= a_now c + MaximumDecisionTTL
       /\ (bk_Record bk = None \/ exists rec, rec ∈ audited w' /\ AuditRecord.Allowed rec = false
            /\ AuditRecord.Reason rec = reason).
Proof using Hnew SteadyBackends0.
  intros E Hr Hc Ha. pose proof (access_inv _ _ E Hr) as I. pose proof (NewService_ok _ _ _ Hnew) as Hs.
  pose proof (authorize_ok s bk xnext c Hc Hs input w I) as H. unfold wp in H. rewrite Ha in H.
  destruct H as [_ [?|(inp & reason & expires & rec & -> & -> & Hn & Ht & Hrec)]]; [by left|right].
  eexists _, reason, expires, _, _. do 3 (split; [done|]). split; [lia|].
  destruct Hrec as [|Hrec]; [by left|right; by exists rec].
Qed.

(** C16. IssueGrant returns a grant only for a request of the authenticated identity's own
    account, device, session and installation, to the asking edge, that expires in at most two
    minutes, for which the resolver returned during the call a valid binding that lets it
    through, and after the issue was audited. *)
Theorem issued_grant_is_authorized w0 w w' c i edge request grant :
  cache w0 = ∅ -> rtc access_run w0 w -> call_ok c -> IssueGrant bk c i edge request w = (Ok grant, w') ->
  issued c i edge request grant w w'.
Proof using Hnew SteadyBackends0.
  intros E Hr Hc Ha. pose proof (access_inv _ _ E Hr) as I.
  pose proof (issue_grant_ok c Hc i edge request w I) as H. unfold wp in H. rewrite Ha in H. apply H.
Qed.

(** C17. In every reachable state of the access service, with any interleaving of requests, the
    cache holds at most the configured number of decisions and never more than 16384, and every
    entry is stored under the account, session and idempotency key of the request it answers,
    with the fingerprint of that request, does not outlive its binding, and was audited. *)
Theorem decision_cache_is_bounded w0 w :
  cache w0 = ∅ -> rtc access_run w0 w ->
  Z.of_nat (size (cache w)) <= maxCache s <= 16384
  /\ forall k v, cache w !! k = Some v -> exists first b, k = cache_key (grant_identity first) first
       /\ requestFingerprint (grant_input first) = Some (fingerprint v) /\ decision_for first (decision v)
       /\ exactBinding first b = None /\ Decision.ExpiresAt (decision v) <= Binding.ExpiresAt b
       /\ (bk_Record bk = None \/ allowed_record "" (grant_identity first) first b ∈ audited w).
Proof using Hnew SteadyBackends0.
  intros E Hr. destruct (access_inv _ _ E Hr) as [J B]. destruct (NewService_ok _ _ _ Hnew) as [_ Hm].
  split; [lia|]. intros k v Hk. destruct (J k v Hk) as (first & b & -> & Hd). exists first, b. split; [done|].
  split; [apply Hd|]. split; [by eapply decided_decision|]. split; [apply Hd|]. split; [|apply Hd].
  rewrite (df_decision _ _ _ _ _ Hd). apply Hd.
Qed.

(** C18. An idempotency key answers for one request: when an allowed call has left its decision
    in the cache, and the entry is still there when a later call starts and is neither dropped
    nor replaced by the other requests that run during it, and the decision has not expired,
    then if that call is allowed and its grant names the same account, session and key, it
    returns the same decision, and the request that was signed for it is the first one, or their
    fingerprints are a SHA-256 collision. *)
Theorem idempotency_key_is_bound w0 w w1 c input d :
  cache w0 = ∅ -> rtc access_run w0 w -> call_ok c -> Authorize s bk c input w = (Ok d, w1) ->
  exists verify signed v,
    let key := cache_key (grant_identity signed) signed in
    bk_VerifyGrant bk = Some verify /\ asked (verify (in_Grant input) (a_now c)) w w1 (Ok signed)
    /\ cache w1 !! key = Some v /\ decision v = d
    /\ forall w2 w3 c' input' d',
         rtc access_run w1 w2 -> call_ok c' -> a_now c' < Decision.ExpiresAt d ->
         cache w2 !! key = Some v -> spares c' key v -> Authorize s bk c' input' w2 = (Ok d', w3) ->
         exists signed', asked (verify (in_Grant input') (a_now c')) w2 w3 (Ok signed')
           /\ (cache_key (grant_identity signed') signed' = key ->
               d' = d /\ (signed' = signed
                 \/ collide (fingerprint_text (grant_input signed')) (fingerprint_text (grant_input signed)))).
Proof using Hnew SteadyBackends0.
  intros E Hr Hc Ha. pose proof (access_inv _ _ E Hr) as I. pose proof (NewService_ok _ _ _ Hnew) as Hs.
  assert (I1 : inv w1).
  { apply (runs_inv w); [|done]. apply rtc_once. pose proof (run_authorize c input w Hc) as H. by rewrite Ha in H. }
  pose proof (authorize_ok s bk xnext c Hc Hs input w I) as H. unfold wp in H. rewrite Ha in H.
  destruct H as [_ (verify & machine & signed & b & Hv & Av & W & _ & _ & _ & _ & _ & _ & _ & _ & Hans & _)].
  destruct Hans as (first & b' & v & Hd & Hdec & Hf & Hk & _). exists verify, signed, v. do 4 (split; [done|]).
  intros w2 w3 c' input' d' Hr2 Hc' Ht Hk2 Hsp Ha'. pose proof (runs_inv _ _ Hr2 I1) as I2.
  pose proof (authorize_ok s bk xnext c' Hc' Hs input' w2 I2) as H. unfold wp in H. rewrite Ha' in H.
  destruct H as [_ (verify' & _ & signed' & _ & Hv' & Av' & W' & _ & _ & _ & _ & _ & _ & _ & _ & _ & Hrep)].
  rewrite Hv in Hv'. simplify_eq. exists signed'. split; [done|]. intros Hkey.
  destruct (Hrep v) as [-> Hf'].
  { split; [by rewrite Hkey|]. split; [by rewrite Hkey|]. by rewrite (df_decision _ _ _ _ _ Hd) in Ht. }
  split; [done|]. by eapply (fingerprint_inj (grant_input signed') (grant_input signed)); [apply wire_grant_input..| |].
Qed.
End Runs.
