(* ===== verification/PrivateResolver.v ===== *)
(** * Where private access finds its bindings

    src/internal/privateaccess/resolver.go, sql_resolver.go and auth_adapter.go:
    the binding of a preview from the repository of attachments, the binding of a
    tunnel from one SQL statement over the tunnel tables, and the check that a
    machine's control session is current.  [production_backends] puts them
    together as production.go does, with the grant issuer; the audit sink is an
    argument.

    A table is a finite map from its primary key, with the columns that the
    statements read; the assignments, which the statement does not look up by
    their key, are a list in the order in which the database returns them.
    [timestamptz] is the precision at which the database keeps a time, and
    [up] whether it answers. *)
From S2P Require Import Prelude GoText GoHash GoUrl GoJson GoNet Errors ServerSession.
From S2P Require PreviewContract PreviewService PreviewSql.
From S2P Require Import Mint PrivateContract PrivateGrant PrivateService.

(** ** Previews *)
Definition preview_state (state : string) : ARes string :=
  if state == PreviewContract.StateEdgeReady then Ok "edge_ready"
  else if state == PreviewContract.StateReady then Ok "ready"
  else if (state == PreviewContract.StateFailed) || (state == PreviewContract.StateReleased)
  then Err (newDenied ReasonExpired)
  else Ok "paused".

Definition preview_binding (a : PreviewContract.Attachment) (state : string) : Binding :=
  let b := PreviewContract.Attachment.Binding a in
  Binding.mk (PreviewContract.Binding.AccountID b) ResourcePreview (PreviewContract.Binding.PreviewID b)
    (PreviewContract.Binding.RouteID b) (PreviewContract.Binding.OperationID b)
    (PreviewContract.Binding.ConnectorID b) (PreviewContract.Binding.SessionID b)
    (PreviewContract.Binding.OwnerDeviceID b) (PreviewContract.Binding.OwnerSessionID b)
    (PreviewContract.Binding.RouteGeneration b) (PreviewContract.Binding.ProcessGeneration b)
    (PreviewContract.Binding.ConfigGeneration b) (PreviewContract.Binding.LeaseGeneration b)
    (PreviewContract.Binding.LeaseGeneration b) ProtocolHTTP (PreviewContract.Attachment.AccessMode a) state
    (PreviewContract.Attachment.ExpiresAt a) (hostFromEndpoint (PreviewContract.Attachment.Endpoint a)) ""
    (PreviewContract.Binding.EdgeNodeID b) (PreviewContract.Binding.EdgeProcessEpoch b).

Section Preview.
Context {Repo : Type} `{!PreviewService.AttachmentRepository Repo}.

(** [clock] is the resolver's own clock, used when the lookup names no time. *)
Definition PreviewAttachmentResolver (clock : time) (lookup : Lookup) (s : Repo) : ARes Binding * Repo :=
  let request := lk_Request lookup in
  if (Request.ResourceKind request != ResourcePreview) || (Request.OperationID request == "")
  then (Err ErrResourceNotFound, s) else
  let (found, s') := PreviewService.Repo_Get (lk_AccountID lookup) (Request.OperationID request) s in
  (match found with
   | Err PreviewContract.ErrNotFound => Err ErrResourceNotFound
   | Err _ => Err ErrRouteUnavailable
   | Ok a =>
       let b := PreviewContract.Attachment.Binding a in
       if (PreviewContract.Binding.AccountID b != lk_AccountID lookup)
          || (PreviewContract.Binding.PreviewID b != Request.ResourceID request)
          || (PreviewContract.Binding.OperationID b != Request.OperationID request)
       then Err ErrResourceNotFound else
       match preview_state (PreviewContract.Attachment.State a) with
       | Err e => Err e
       | Ok state =>
           let now := if IsZero (lk_Now lookup) then clock else lk_Now lookup in
           if negb (After (PreviewContract.Attachment.ExpiresAt a) now) then Err (newDenied ReasonExpired)
           else Ok (preview_binding a state)
       end
   end, s').
End Preview.

(** ** The tunnel tables *)
Record TunnelRow := mkTunnelRow {
  tn_account : string;
  tn_generation : Z;
  tn_accessMode : string;
  tn_state : string;
  tn_expiresAt : option time;
  tn_endpoint : string;
  tn_deletedAt : option time;
}.
Record RouteRow := mkRouteRow {
  rt_tunnel : string;
  rt_generation : Z;
  rt_protocol : string;
  rt_state : string;
  rt_hostname : option string;
  rt_pathPrefix : option string;
  rt_deletedAt : option time;
}.
Record ConnectorRow := mkConnectorRow {
  cn_tunnel : string;
  cn_host : string;
  cn_generation : Z;
  cn_configGeneration : Z;
  cn_state : string;
  cn_drainState : string;
  cn_lastSession : option string;
  cn_lastHeartbeat : option time;
  cn_readyAt : option time;
  cn_revokedAt : option time;
}.
Record SessionRow := mkSessionRow {
  se_connector : string;
  se_processGeneration : Z;
  se_configGeneration : Z;
  se_state : string;
  se_leaseDeadline : time;
  se_lastHeartbeat : time;
  se_readyAt : option time;
}.
Record ConfigRow := mkConfigRow { cf_state : string; cf_contentHash : string }.
Record AssignmentRow := mkAssignmentRow {
  as_generation : Z;
  as_route : string;
  as_account : string;
  as_tunnel : string;
  as_connector : string;
  as_host : string;
  as_connectorGeneration : Z;
  as_session : string;
  as_processGeneration : Z;
  as_configGeneration : Z;
  as_configHash : string;
  as_accessMode : string;
  as_routeGeneration : Z;
  as_routeRevision : Z;
  as_node : string;
  as_epoch : string;
  as_state : string;
  as_observed : string;
}.
Record MachineRow := mkMachineRow {
  mc_user : string;
  mc_installation : Z;
  mc_state : string;
  mc_online : bool;
  mc_deletedAt : option time;
  mc_revokedAt : option time;
}.
Record ControlRow := mkControlRow { ct_installation : Z; ct_jti : string; ct_expiresAt : time }.

Record Tables := mkTables {
  tunnels : gmap string TunnelRow;
  routes : gmap string RouteRow;
  connectors : gmap string ConnectorRow;
  sessions : gmap string SessionRow;
  configs : gmap (string * Z) ConfigRow;
  assignments : list AssignmentRow;
  machines : gmap string MachineRow;
  control : gmap string ControlRow;
}.

(** The stores of the server: the repository of attachments, whose tables hold the
    edge nodes, the tables above, and whether the database answers. *)
Record Stores := mkStores { st_repo : PreviewSql.SQLRepository; st_tables : Tables; up : bool }.
#[export] Instance Stores_settable : Settable Stores := fun x => mkStores (st_repo x) (st_tables x) (up x).

Section Sql.
Context (timestamptz : time -> time).

(** *** [resolvePrivateTunnelSQL] *)

(** [col > $6 - interval '2 minutes'], false for NULL. *)
Definition recent (now : time) (col : option time) : bool :=
  match col with Some t => After t (timestamptz now - 2 * Minute) | None => false end.
Definition is_null {A} (col : option A) : bool := match col with Some _ => false | None => true end.

Definition assigned (account tunnel route connector session : string) (edge : EdgeIdentity)
    (t : TunnelRow) (r : RouteRow) (c : ConnectorRow) (s : SessionRow) (config : ConfigRow) (a : AssignmentRow) : bool :=
  (as_route a == route) && (as_account a == account) && (as_tunnel a == tunnel) && (as_connector a == connector)
  && (as_host a == cn_host c) && (as_connectorGeneration a =? cn_generation c) && (as_session a == session)
  && (as_processGeneration a =? se_processGeneration s) && (as_configGeneration a =? cn_configGeneration c)
  && (as_configHash a == cf_contentHash config) && (as_accessMode a == tn_accessMode t)
  && (as_routeGeneration a =? rt_generation r) && (as_routeRevision a =? rt_generation r)
  && (as_node a == NodeID edge) && (as_epoch a == ProcessEpoch edge) && (as_state a == "active")
  && (as_observed a == "ready").

Definition tunnel_live (now : time) (account tunnel connector session : string)
    (t : TunnelRow) (r : RouteRow) (c : ConnectorRow) (s : SessionRow) : bool :=
  (tn_account t == account) && (rt_tunnel r == tunnel) && (cn_tunnel c == tunnel) && (se_connector s == connector)
  && (tn_accessMode t == "private") && is_null (tn_deletedAt t) && is_null (rt_deletedAt r)
  && is_null (cn_revokedAt c) && (cn_lastSession c == Some session)
  && (cn_configGeneration c =? se_configGeneration s) && negb (is_null (cn_readyAt c)) && negb (is_null (se_readyAt s))
  && After (se_leaseDeadline s) (timestamptz now)
  && (match tn_expiresAt t with Some e => After e (timestamptz now) | None => true end)
  && recent now (cn_lastHeartbeat c) && recent now (Some (se_lastHeartbeat s)).

Definition machine_online (account : string) (m : MachineRow) : bool :=
  (mc_user m == account) && (mc_state m == "online") && mc_online m && is_null (mc_deletedAt m)
  && is_null (mc_revokedAt m).
Definition node_serves (now : time) (epoch : string) (n : PreviewSql.NodeRow) : bool :=
  (PreviewSql.nd_processEpoch n == epoch) && (PreviewSql.nd_state n == "ready") && PreviewSql.nd_ready n
  && recent now (PreviewSql.nd_lastHeartbeat n).

(** The row of the statement: tunnel, route, connector, session and assignment. *)
Abbreviation tunnel_row := (TunnelRow * RouteRow * ConnectorRow * SessionRow * AssignmentRow)%type.
Definition resolvePrivateTunnelSQL (lookup : Lookup) (now : time) (x : Stores) : option tunnel_row :=
  let d := st_tables x in
  let request := lk_Request lookup in
  let account := lk_AccountID lookup in
  let tunnel := Request.ResourceID request in
  let connector := Request.ConnectorID request in
  let session := Request.CarrierSessionID request in
  t ← tunnels d !! tunnel;
  r ← routes d !! Request.RouteID request;
  c ← connectors d !! connector;
  s ← sessions d !! session;
  config ← configs d !! (tunnel, cn_configGeneration c);
  node ← PreviewSql.nodes (PreviewSql.sql_db (st_repo x)) !! NodeID (lk_Edge lookup);
  machine ← machines d !! cn_host c;
  a ← List.find (assigned account tunnel (Request.RouteID request) connector session (lk_Edge lookup) t r c s config)
        (assignments d);
  if (cf_state config == "active") && tunnel_live now account tunnel connector session t r c s
     && node_serves now (ProcessEpoch (lk_Edge lookup)) node && machine_online account machine
  then Some (t, r, c, s, a) else None.

Definition resolveTunnel (lookup : Lookup) (now : time) (x : Stores) : ARes Binding :=
  let request := lk_Request lookup in
  if negb (up x) then Err ErrRouteUnavailable else
  match resolvePrivateTunnelSQL lookup now x with
  | None => Err ErrResourceNotFound
  | Some (t, r, c, s, a) =>
      let expiresAt := Z.min (default (timestamptz (Add now MaximumDecisionTTL)) (tn_expiresAt t)) (se_leaseDeadline s) in
      let hostname := default (tn_endpoint t) (rt_hostname r) in
      if tn_account t != lk_AccountID lookup then Err ErrResourceNotFound
      else if (tn_state t != "active") || (rt_state r != "active") || (cn_state c != "active")
              || (cn_drainState c != "accepting") || (se_state s != "ready")
      then Err ErrRouteUnavailable
      else if tn_accessMode t != "private" then Err (newDenied ReasonProtocolDenied)
      else if (tn_generation t <? 1) || (rt_generation r <? 1) || (as_connectorGeneration a <? 1)
              || (se_processGeneration s <? 1) || (cn_configGeneration c <? 1) || (as_generation a <? 1)
              || negb (After expiresAt now)
      then Err (newDenied ReasonExpired)
      else
        let bind protocol :=
          Ok (Binding.mk (tn_account t) ResourceTunnel (Request.ResourceID request) (Request.RouteID request) ""
            (Request.ConnectorID request) (Request.CarrierSessionID request) "" "" (rt_generation r)
            (se_processGeneration s) (cn_configGeneration c) (as_connectorGeneration a) (as_generation a) protocol
            (tn_accessMode t) "ready" expiresAt
            (if HasPrefix hostname "https://" then hostFromEndpoint hostname else hostname)
            (default "" (rt_pathPrefix r)) (as_node a) (as_epoch a)) in
        if rt_protocol r == "private_tcp" then bind ProtocolTCP
        else if rt_protocol r == "http" then bind ProtocolHTTP
        else Err (newDenied ReasonProtocolDenied)
  end.

(** *** [SQLResolver] *)
#[local] Instance repository : PreviewService.AttachmentRepository PreviewSql.SQLRepository :=
  PreviewSql.sql_repository timestamptz.

Definition SQLResolver (clock : time) (lookup : Lookup) (x : Stores) : ARes Binding * Stores :=
  let request := lk_Request lookup in
  match EdgeIdentity_Validate (lk_Edge lookup), Request_Validate request with
  | Some _, _ => (Err (newDenied ReasonIdentityInvalid), x)
  | None, Some e => (Err e, x)
  | None, None =>
      if (lk_AccountID lookup == "") || (lk_AccountID lookup != Request.AccountID request)
      then (Err (newDenied ReasonAccountMismatch), x)
      else if Request.ResourceKind request == ResourcePreview then
        let (r, s) := PreviewAttachmentResolver clock lookup (st_repo x) in (r, x <| st_repo := s |>)
      else if Request.ResourceKind request != ResourceTunnel then (Err ErrResourceNotFound, x)
      else (resolveTunnel lookup (if IsZero (lk_Now lookup) then clock else lk_Now lookup) x, x)
  end.

(** *** [SQLMachineStateVerifier] *)
Definition machine_current (i : Identity) (now : time) (d : Tables) : bool :=
  match machines d !! Identity.DeviceID i, control d !! Identity.DeviceID i with
  | Some m, Some k =>
      machine_online (Identity.AccountID i) m && (mc_installation m =? to_i64 (Identity.InstallationGeneration i))
      && (ct_installation k =? mc_installation m) && (ct_jti k == Identity.SessionID i)
      && After (ct_expiresAt k) (timestamptz now)
  | _, _ => false
  end.
Definition VerifyCurrentMachine (i : Identity) (now : time) (x : Stores) : option AccessError :=
  if Identity.InstallationGeneration i =? 0 then Some ErrIdentityUnavailable
  else if negb (up x) then Some ErrIdentityUnavailable
  else if negb (machine_current i now (st_tables x)) then Some (newDenied ReasonDeviceRevoked)
  else None.

(** ** [NewProduction]

    The service over these stores, a sink and the grant issuer of [PrivateGrant]
    with its provider; the issuer keeps no state. *)
Context (clock : time) (sink : AuditRecord -> Stores -> bool * Stores).
Context (ed25519_Sign : list Z -> string -> list Z).
Context (ed25519_Verify : list Z -> string -> list Z -> bool).
Context (ed25519_Public : list Z -> list Z).
Context (p : Provider) (issuer : string).

Definition production_backends : Backends Stores :=
  mkBackends Stores (SQLResolver clock) (Some sink)
    (Some (fun grant now x => (VerifyGrant ed25519_Verify ed25519_Public p issuer clock grant now, x)))
    (Some (fun request now x => (MintGrant ed25519_Sign p issuer clock request now, x)))
    (Some (fun i now x => (VerifyCurrentMachine i now x, x))).
Definition production_config : Config := mkConfig 0 0.
End Sql.
