(* ===== verification/PrivateProduction.v ===== *)
(** * Private access in production

    The service of [PrivateService] over the stores of [PrivateResolver].  The
    attachment service of [PreviewProduction] and any other transactions change
    the stores during and between its calls, as steps of their own; reading a
    binding changes nothing in them.  So what private access lets through is
    what the tables said at a moment of the call. *)
From S2P Require Import Prelude GoText GoHash GoUrl GoJson GoNet Errors ServerSession.
From S2P Require PreviewContract PreviewService PreviewManagerSafety PreviewSql PreviewSqlSafety PreviewProduction.
From S2P Require Import Mint PrivateContract PrivateGrant PrivateService PrivateSafety PrivateResolver.

#[local] Existing Instance PreviewProduction.repo_moves_preorder.

(** A call that only reads counts itself and leaves every table as it is. *)
Definition only_reads (x x' : Stores) : Prop :=
  PreviewSql.sql_db (st_repo x') = PreviewSql.sql_db (st_repo x)
  /\ PreviewSql.sql_readings (st_repo x') = PreviewSql.sql_readings (st_repo x)
  /\ st_tables x' = st_tables x /\ up x' = up x.

(** What everything else on the server may do to the stores meanwhile: any
    relation that contains the reads and lets the attachments take steps only.
    What is proved holds for each such relation, so also for the narrowest that
    describes a deployment. *)
Class StoresMove (move : relation Stores) : Prop := {
  move_order :: PreOrder move;
  move_reads x x' : only_reads x x' -> move x x';
  move_repo x x' : move x x' -> PreviewProduction.repo_moves (st_repo x) (st_repo x');
}.

(** Tables without attachments, and transactions that take steps of their own. *)
Record stores_start (x : Stores) : Prop := {
  start_rows : PreviewSql.attachments (PreviewSql.sql_db (st_repo x)) = ∅;
  start_commands : PreviewSql.outbox (PreviewSql.sql_db (st_repo x)) = ∅;
  start_between : forall n, PreviewSqlSafety.between_ok (PreviewSql.sql_readings (st_repo x) n);
}.
Lemma stores_start_ok x : stores_start x -> PreviewProduction.repo_ok (st_repo x).
Proof. intros [Hr Hc Hb]. split; [done|]. split; rewrite ?Hr, ?Hc; intros *; by rewrite ?lookup_empty. Qed.

(** ** The resolver reads *)
Lemma exec_reads {A} t (m : PreviewSql.T A) d : snd (m d) = d -> snd (PreviewSql.exec t m d) = d.
Proof. intros H. unfold PreviewSql.exec. by destruct (PreviewSql.t_outcome t 1). Qed.
Lemma scan_reads account op d : snd (PreviewSql.scanAttachment account op d) = d.
Proof.
  unfold PreviewSql.scanAttachment. rewrite mbind_unfold. cbn [get].
  destruct (PreviewSql.select_attachment account op d) as [a|]; [|done]. unfold fail_if, check.
  destruct (PreviewSql.bad_generations a); [done|]. by destruct (PreviewContract.Attachment_Validate a 0).
Qed.
Lemma Get_reads account op s : PreviewSql.sql_db (snd (PreviewSql.sql_Get account op s)) = PreviewSql.sql_db s.
Proof.
  unfold PreviewSql.sql_Get, PreviewSql.with_reading. destruct (_ || _); [done|].
  set (m := PreviewSql.on_no_rows _ _). set (t := PreviewSql.sql_readings _ _). set (d := PreviewSql.sql_db s).
  assert (H : snd (PreviewSql.exec t m d) = d).
  { apply exec_reads. unfold m, PreviewSql.on_no_rows. pose proof (scan_reads account op d) as Hs.
    destruct (PreviewSql.scanAttachment account op d) as [[?|?] d']; cbn in *; [done|by repeat case_match]. }
  destruct (PreviewSql.exec t m d). by cbn in *.
Qed.
(** An answer is the row joined with its lease. *)
Lemma Get_answer account op s a : fst (PreviewSql.sql_Get account op s) = Ok a ->
  PreviewSql.select_attachment account op (PreviewSql.sql_db s) = Some a.
Proof.
  unfold PreviewSql.sql_Get, PreviewSql.with_reading. destruct (_ || _); [done|].
  unfold PreviewSql.exec. destruct (PreviewSql.t_outcome _ 1); [|done..].
  unfold PreviewSql.on_no_rows, PreviewSql.scanAttachment. rewrite mbind_unfold. cbn [get].
  destruct (PreviewSql.select_attachment account op _) as [a'|]; [|done].
  unfold fail_if, check. destruct (PreviewSql.bad_generations a'); [done|].
  destruct (PreviewContract.Attachment_Validate a' 0) as [[]|]; cbn; try done. by intros [= ->].
Qed.

(** What the checks of a binding say. *)
Lemma edge_matches_true edge b : edge_matches edge b = true ->
  Binding.EdgeNodeID b = NodeID edge /\ Binding.EdgeProcessEpoch b = ProcessEpoch edge.
Proof. unfold edge_matches. intros H. by bool_prop. Qed.
Lemma exactBinding_None r b : exactBinding r b = None ->
  Binding.AccountID b = Request.AccountID r /\ Binding.ResourceKind b = Request.ResourceKind r
  /\ Binding.ResourceID b = Request.ResourceID r /\ Binding.RouteID b = Request.RouteID r
  /\ Binding.OperationID b = Request.OperationID r /\ Binding.ConnectorID b = Request.ConnectorID r
  /\ Binding.CarrierSessionID b = Request.CarrierSessionID r /\ Binding.RouteGeneration b = Request.RouteGeneration r
  /\ Binding.SessionGeneration b = Request.SessionGeneration r
  /\ Binding.ProcessGeneration b = Request.ProcessGeneration r /\ Binding.ConfigGeneration b = Request.ConfigGeneration r
  /\ Binding.AssignmentGeneration b = Request.AssignmentGeneration r /\ Binding.Protocol b = Request.Protocol r.
Proof. unfold exactBinding. intros H. repeat case_match; try done. bool_prop. by repeat split. Qed.
Lemma Binding_Validate_private b now : Binding_Validate b now = None -> Binding.AccessMode b = "private".
Proof. unfold Binding_Validate. intros H. repeat case_match; try done; by bool_prop. Qed.
Lemma routeRequestAllowed_None r b : routeRequestAllowed r b = None ->
  Binding.State b ∈ ["active"; "ready"; "edge_ready"]
  /\ (Binding.Protocol b = ProtocolHTTP -> canonicalHost (Request.Host r) = canonicalHost (Binding.Hostname b)).
Proof.
  unfold routeRequestAllowed. intros H. case_match eqn:E1; [done|]. bool_prop. split; [done|]. intros Hp.
  rewrite Hp in H. rewrite bool_decide_eq_true_2 in H by done. case_match; [done|]. by bool_prop.
Qed.

(** A preview that lets requests through is in use. *)
Lemma preview_state_serves st state : preview_state st = Ok state -> state ∈ ["active"; "ready"; "edge_ready"] ->
  st ∈ [PreviewContract.StateEdgeReady; PreviewContract.StateReady].
Proof.
  unfold preview_state. intros Hs Hin. rewrite !elem_of_cons, elem_of_nil in *.
  repeat case_match; simplify_eq; bool_prop; first [by auto|by destruct Hin as [Hin|[Hin|[Hin|[]]]]].
Qed.
Lemma row_in_use d k row : PreviewSqlSafety.inv d -> PreviewSql.attachments d !! k = Some row ->
  PreviewContract.Attachment.State row ∈ [PreviewContract.StateEdgeReady; PreviewContract.StateReady] ->
  PreviewContract.Attachment.EdgeReady row = true
  /\ PreviewSqlSafety.acked_carrier (PreviewSql.acks d) (PreviewContract.Attachment.Binding row).
Proof.
  intros I Hk Hs. destruct (PreviewSqlSafety.inv_row _ I _ _ Hk) as (_ & _ & (s & R & _) & Ha).
  pose proof (PreviewManagerSafety.rep_state _ _ R) as E. split.
  - rewrite (PreviewManagerSafety.rep_edge _ _ R). rewrite E in Hs.
    rewrite !elem_of_cons, elem_of_nil in Hs. destruct Hs as [Hs|[Hs|[]]]; by destruct (PreviewManagerSafety.Spec.ph s).
  - apply Ha. unfold PreviewManagerSafety.edge_phase. rewrite !elem_of_cons, elem_of_nil in Hs.
    by destruct Hs as [->|[->|[]]].
Qed.

Section Production.
Context (timestamptz : time -> time) (clock : time) (sink : AuditRecord -> Stores -> bool * Stores).
Context (ed25519_Sign : list Z -> string -> list Z).
Context (ed25519_Verify : list Z -> string -> list Z -> bool).
Context (ed25519_Public : list Z -> list Z).
Context (p : Provider) (issuer : string).
Context (move : relation Stores) `{!StoresMove move}.
Context (Hsink : forall r x, move x (snd (sink r x))).
Implicit Types (w : AccessWorld Stores).

Abbreviation backends := (production_backends timestamptz clock sink ed25519_Sign ed25519_Verify ed25519_Public p issuer).

Lemma resolver_reads lookup x : only_reads x (snd (SQLResolver timestamptz clock lookup x)).
Proof using Type.
  unfold SQLResolver. repeat (case_match; try done); simplify_eq; cbn; try done.
  unfold PreviewAttachmentResolver in *. cbn in *. case_match; [by simplify_eq|].
  match goal with H : context [PreviewSql.sql_Get ?a ?o ?s] |- _ => pose proof (Get_reads a o s) as Hr;
    destruct (PreviewSql.sql_Get a o s) as [? s'] eqn:Eg end.
  simplify_eq. unfold only_reads. cbn in *. split; [done|]. split; [|done].
  unfold PreviewSql.sql_Get, PreviewSql.with_reading in Eg. case_match; by simplify_eq.
Qed.

#[export] Instance production_steady : SteadyBackends backends move.
Proof using Hsink StoresMove0.
  split; try apply _; cbn.
  - intros lk x. apply move_reads, resolver_reads.
  - by intros f r x [= <-].
  - intros f g t x [= <-]. reflexivity.
  - intros f g t x r [= <-]. apply verified_wire.
  - intros f r t x [= <-]. reflexivity.
  - intros f i t x [= <-]. reflexivity.
Qed.

(** ** What stands behind an answer *)

(** The preview of [r] is private, served by [edge] in the generations that [r]
    names, unexpired, and its carrier was acknowledged. *)
Definition preview_serves (now : time) (edge : EdgeIdentity) (r : Request) (d : PreviewSql.Database) : Prop :=
  exists row lease,
    PreviewSql.attachments d !! (Request.AccountID r, Request.OperationID r) = Some row
    /\ PreviewSql.leases d !! (Request.AccountID r, Request.ResourceID r) = Some lease
    /\ PreviewSql.lr_accessMode lease = "private"
    /\ canonicalHost (Request.Host r) = canonicalHost (hostFromEndpoint (PreviewSql.lr_endpoint lease))
    /\ PreviewContract.Attachment.State row ∈ [PreviewContract.StateEdgeReady; PreviewContract.StateReady]
    /\ PreviewContract.Attachment.EdgeReady row = true
    /\ now < PreviewContract.Attachment.ExpiresAt row
    /\ let b := PreviewContract.Attachment.Binding row in
       PreviewContract.Binding.PreviewID b = Request.ResourceID r
       /\ PreviewContract.Binding.RouteID b = Request.RouteID r
       /\ PreviewContract.Binding.ConnectorID b = Request.ConnectorID r
       /\ PreviewContract.Binding.SessionID b = Request.CarrierSessionID r
       /\ PreviewContract.Binding.RouteGeneration b = Request.RouteGeneration r
       /\ PreviewContract.Binding.LeaseGeneration b = Request.AssignmentGeneration r
       /\ PreviewContract.Binding.ProcessGeneration b = Request.ProcessGeneration r
       /\ PreviewContract.Binding.ConfigGeneration b = Request.ConfigGeneration r
       /\ PreviewContract.Binding.EdgeNodeID b = NodeID edge
       /\ PreviewContract.Binding.EdgeProcessEpoch b = ProcessEpoch edge
       /\ PreviewSqlSafety.acked_carrier (PreviewSql.acks d) b.

(** The tunnel of [r] is private and active, through a connector and a session
    that are live, on a machine of the account, with an assignment to [edge]. *)
Definition tunnel_serves (now : time) (edge : EdgeIdentity) (r : Request) (x : Stores) : Prop :=
  let d := st_tables x in
  exists t route c s m a,
    tunnels d !! Request.ResourceID r = Some t /\ routes d !! Request.RouteID r = Some route
    /\ connectors d !! Request.ConnectorID r = Some c /\ sessions d !! Request.CarrierSessionID r = Some s
    /\ machines d !! cn_host c = Some m /\ a ∈ assignments d
    /\ tn_account t = Request.AccountID r /\ tn_accessMode t = "private" /\ tn_state t = "active"
    /\ rt_tunnel route = Request.ResourceID r /\ rt_state route = "active"
    /\ rt_generation route = Request.RouteGeneration r
    /\ cn_tunnel c = Request.ResourceID r /\ cn_state c = "active" /\ cn_drainState c = "accepting"
    /\ cn_revokedAt c = None /\ cn_lastSession c = Some (Request.CarrierSessionID r)
    /\ cn_configGeneration c = Request.ConfigGeneration r
    /\ se_connector s = Request.ConnectorID r /\ se_state s = "ready"
    /\ se_processGeneration s = Request.ProcessGeneration r /\ timestamptz now < se_leaseDeadline s
    /\ machine_online (Request.AccountID r) m = true
    /\ as_route a = Request.RouteID r /\ as_state a = "active" /\ as_observed a = "ready"
    /\ as_session a = Request.CarrierSessionID r /\ as_generation a = Request.AssignmentGeneration r
    /\ as_node a = NodeID edge /\ as_epoch a = ProcessEpoch edge.

(** The machine of [r] is online with the installation and the control session
    that [r] names. *)
Definition machine_serves (now : time) (r : Request) (d : Tables) : Prop :=
  exists m k, machines d !! Request.DeviceID r = Some m /\ control d !! Request.DeviceID r = Some k
    /\ machine_online (Request.AccountID r) m = true
    /\ mc_installation m = to_i64 (Request.InstallationGeneration r) /\ ct_installation k = mc_installation m
    /\ ct_jti k = Request.SessionID r /\ timestamptz now < ct_expiresAt k.

Lemma machine_verified r now x : VerifyCurrentMachine timestamptz (grant_identity r) now x = None ->
  machine_serves now r (st_tables x).
Proof using Type.
  unfold VerifyCurrentMachine. destruct (_ =? 0); [done|]. destruct (negb (up x)); [done|].
  destruct (machine_current _ _ _ _) eqn:E; [|done]. intros _. unfold machine_current in E. cbn in E.
  destruct (machines _ !! _) as [m|] eqn:Em; [|done]. destruct (control _ !! _) as [k|] eqn:Ek; [|done].
  unfold After in E. bool_prop. exists m, k. by repeat split.
Qed.

(** The rows that the statement joins. *)
Lemma tunnel_row_found lookup now x t route c s a :
  resolvePrivateTunnelSQL timestamptz lookup now x = Some (t, route, c, s, a) ->
  let d := st_tables x in
  let request := lk_Request lookup in
  exists config m,
    tunnels d !! Request.ResourceID request = Some t /\ routes d !! Request.RouteID request = Some route
    /\ connectors d !! Request.ConnectorID request = Some c
    /\ sessions d !! Request.CarrierSessionID request = Some s /\ machines d !! cn_host c = Some m
    /\ a ∈ assignments d
    /\ assigned (lk_AccountID lookup) (Request.ResourceID request) (Request.RouteID request)
         (Request.ConnectorID request) (Request.CarrierSessionID request) (lk_Edge lookup) t route c s config a = true
    /\ tunnel_live timestamptz now (lk_AccountID lookup) (Request.ResourceID request) (Request.ConnectorID request)
         (Request.CarrierSessionID request) t route c s = true
    /\ machine_online (lk_AccountID lookup) m = true.
Proof using Type.
  unfold resolvePrivateTunnelSQL. intros H. repeat (apply bind_Some in H as (? & ? & H)).
  case_match eqn:Hc; [|done]. injection H as <- <- <- <- <-. bool_prop.
  match goal with Hf : List.find _ _ = Some _ |- _ => apply find_some in Hf as [Hin Ha] end.
  apply list_elem_of_In in Hin. by eauto 20.
Qed.

Section Served.
Context (c : AccessCall Stores) (edge : EdgeIdentity) (r : Request) (Hnow : 0 < a_now c).
Abbreviation lookup := (mkLookup (Request.AccountID r) r edge (a_now c)).

Lemma preview_resolved x b : PreviewProduction.repo_ok (st_repo x) -> Request.ResourceKind r = ResourcePreview ->
  fst (SQLResolver timestamptz clock lookup x) = Ok b -> lets_through c edge r b ->
  preview_serves (a_now c) edge r (PreviewSql.sql_db (st_repo x)).
Proof using Hnow.
  intros [_ I] Hk Hres (Hb & Hx & He & Hr). unfold SQLResolver in Hres. cbn [lk_Edge lk_Request lk_AccountID] in Hres.
  destruct (EdgeIdentity_Validate edge); [done|]. destruct (Request_Validate r); [done|]. case_match; [done|].
  rewrite Hk in Hres. cbn [lk_Now] in Hres. rewrite bool_decide_eq_true_2 in Hres by done.
  destruct (PreviewAttachmentResolver _ _ _) as [res s'] eqn:Er. cbn in Hres. subst res.
  unfold PreviewAttachmentResolver in Er. cbn in Er. case_match; [done|].
  pose proof (Get_answer (Request.AccountID r) (Request.OperationID r) (st_repo x)) as Hg.
  destruct (PreviewSql.sql_Get _ _ _) as [[a|e] s2]; [|by destruct e]. specialize (Hg a eq_refl).
  set (d := PreviewSql.sql_db (st_repo x)) in *. clearbody d. unfold PreviewSql.select_attachment in Hg.
  destruct (PreviewSql.attachments d !! _) as [row|] eqn:Hrow; [|done]. cbn in Hg.
  destruct (PreviewSql.leases d !! _) as [lease|] eqn:Hl; [|done]. cbn in Hg. injection Hg as <-. cbn in Er.
  case_match; [done|]. destruct (preview_state _) as [state|] eqn:Hst; [|done].
  unfold IsZero in Er. rewrite (proj2 (Z.eqb_neq _ 0)) in Er by lia. case_match; [done|]. injection Er as <- <-.
  apply exactBinding_None in Hx. apply edge_matches_true in He. apply Binding_Validate_private in Hb. cbn in Hx, He, Hb.
  apply routeRequestAllowed_None in Hr as [Hs Hh]. cbn in Hs, Hh. apply (preview_state_serves _ _ Hst) in Hs.
  destruct (row_in_use _ _ _ I Hrow Hs) as [Hedge Hack]. unfold After in *. bool_prop. exists row, lease.
  destruct Hx as (_ & _ & Hid & Hx). rewrite Hid in Hl. destruct_and! Hx. destruct_and! He.
  by split_and!; try apply Hh.
Qed.

Lemma tunnel_resolved x b : Request.ResourceKind r = ResourceTunnel ->
  fst (SQLResolver timestamptz clock lookup x) = Ok b -> lets_through c edge r b ->
  tunnel_serves (a_now c) edge r x.
Proof using Hnow.
  intros Hk Hres (_ & Hx & He & _). unfold SQLResolver in Hres. cbn [lk_Edge lk_Request lk_AccountID] in Hres.
  destruct (EdgeIdentity_Validate edge); [done|]. destruct (Request_Validate r); [done|]. case_match; [done|].
  rewrite Hk in Hres. rewrite bool_decide_eq_false_2 in Hres by done. cbn in Hres. unfold resolveTunnel in Hres.
  cbn [lk_Now lk_Request] in Hres. case_match; [done|]. cbn [fst] in Hres. destruct (negb (up x)); [done|].
  unfold IsZero in Hres. rewrite (proj2 (Z.eqb_neq _ 0)) in Hres by lia.
  destruct (resolvePrivateTunnelSQL _ _ _ x) as [[[[[t route] cn] s] a]|] eqn:Eq; [|done].
  destruct (tunnel_row_found _ _ _ _ _ _ _ _ Eq) as (config & m & Ht & Hroute & Hcn & Hs & Hm & Ha & Has & Hl & Hon).
  cbn in Ht, Hroute, Hcn, Hs, Has, Hl, Hon. cbv zeta in Hres. do 4 (case_match; [done|]).
  apply exactBinding_None in Hx. apply edge_matches_true in He.
  assert (Hg : rt_generation route = Request.RouteGeneration r /\ se_processGeneration s = Request.ProcessGeneration r
    /\ cn_configGeneration cn = Request.ConfigGeneration r /\ as_generation a = Request.AssignmentGeneration r).
  { repeat case_match; simplify_eq; cbn in Hx; by destruct_and! Hx. }
  destruct_and! Hg. unfold assigned in Has. unfold tunnel_live, After in Hl. bool_prop.
  destruct (cn_revokedAt cn) eqn:Hrev; [done|].
  exists t, route, cn, s, m, a. by split_and!.
Qed.
End Served.

(** ** Runs *)
Context (s : Service) (cfg : Config) (Hnew : NewService false cfg = Ok s).
Abbreviation from := (rtc (astep s backends move)).
Abbreviation call_ok := (access_call_ok s backends move).
Abbreviation runs := (rtc (access_run s backends move)).

Lemma from_repo_ok w w' : from w w' ->
  PreviewProduction.repo_ok (st_repo (ext w)) -> PreviewProduction.repo_ok (st_repo (ext w')).
Proof using StoresMove0.
  induction 1 as [|w w1 w' H _ IH]; [done|]. intros Hok. apply IH. destruct H; try done. cbn.
  by eapply PreviewProduction.moves_ok; [apply move_repo|].
Qed.
Lemma runs_from w w' : runs w w' -> PrivateSafety.inv s backends w -> from w w'.
Proof using Hnew Hsink StoresMove0.
  induction 1 as [|w w1 w' H _ IH]; [done|]. intros I.
  assert (H1 : from w w1) by (by eapply (run_steps s backends move cfg Hnew)).
  etrans; [exact H1|]. apply IH. by eapply from_inv.
Qed.
Lemma reachable_repo w0 w : stores_start (ext w0) -> cache w0 = ∅ -> runs w0 w ->
  PreviewProduction.repo_ok (st_repo (ext w)).
Proof using Hnew Hsink StoresMove0.
  intros Hs Hc Hr. eapply from_repo_ok; [eapply runs_from|by apply stores_start_ok]; [done|].
  by eapply (access_inv s backends move cfg Hnew w0); [|apply rtc_refl].
Qed.

(** C13. In production private access rests on the tables: for every relation that describes how
    the stores move beside the service (one that contains reading and in which attachments only
    take their own steps), in every run of the access service over the stores, an answer that
    allows access was given for a grant that its issuer verifies, and the stores moved by that
    relation through moments of the call at which the machine of the grant was online with the
    installation and control session that the grant names, and the preview (private, unexpired,
    in use, its carrier acknowledged by the asking edge process) or the tunnel (private, active,
    through a live connector, session and assignment to the asking edge process) was the one
    that the grant names, in the same generations. *)
Theorem private_access_is_served w0 w w' c input d :
  stores_start (ext w0) -> cache w0 = ∅ -> runs w0 w -> call_ok c ->
  Authorize s backends c input w = (Ok d, w') ->
  exists signed, VerifyGrant ed25519_Verify ed25519_Public p issuer clock (in_Grant input) (a_now c) = Ok signed
  /\ (exists w1, from w w1 /\ from w1 w' /\ machine_serves (a_now c) signed (st_tables (ext w1)))
  /\ (Request.ResourceKind signed = ResourcePreview ->
       exists w1, from w w1 /\ from w1 w'
         /\ preview_serves (a_now c) (in_Edge input) signed (PreviewSql.sql_db (st_repo (ext w1))))
  /\ (Request.ResourceKind signed = ResourceTunnel ->
       exists w1, from w w1 /\ from w1 w' /\ tunnel_serves (a_now c) (in_Edge input) signed (ext w1)).
Proof using Hnew Hsink StoresMove0.
  intros Hs Hc Hr Hok Ha. pose proof (reachable_repo _ _ Hs Hc Hr) as Hrepo.
  pose proof (access_inv s backends move cfg Hnew _ _ Hc Hr) as I. pose proof (call_clock _ _ _ _ Hok) as Hnow.
  pose proof (authorize_ok s backends move c Hok (NewService_ok _ _ _ Hnew) input w I) as H. unfold wp in H.
  rewrite Ha in H. destruct H as [_ (verify & machine & signed & b & [= <-] & Av & _ & _ & [= <-] & Am & Ab & H)].
  destruct H as (_ & _ & Hb & _). destruct Av as (wv & _ & _ & Ev). cbn in Ev.
  destruct Am as (wm & Hm & Hm' & Em), Ab as (wb & Hwb & Hwb' & Eb). cbn in Em, Eb.
  pose proof (from_repo_ok _ _ Hwb Hrepo). exists signed. split; [done|].
  split; [exists wm; split; [done|]; split; [done|]; by apply machine_verified|].
  split; intros Hk; exists wb; (split; [done|]); (split; [done|]); by eauto using preview_resolved, tunnel_resolved.
Qed.
End Production.
