(* ===== verification/RelaySelection.v ===== *)
(** * Relay selection

    [Select] of src/internal/relayselection/selector.go: the choice of the
    relay node for a peer attempt from the latency vectors of the two ends, with
    the sustained-improvement rule that keeps the choice from flapping. *)

From Stdlib Require Import Sorting.Sorted.
From S2P Require Import Prelude GoText Errors.

Definition MaximumRegions : Z := 32.
Definition ErrInvalid : goerror := OtherError "invalid relay selection".

Record Sample := mkSample { SampleRegion : string; RTT : duration }.

Record Vector := mkVector {
  VectorGeneration : Z;
  ObservedAt : time;
  Samples : list Sample;
  RelaySuccessRegion : string;
  RelaySuccessAt : time;
}.

Section Selection.
  (** The payload of a node is the caller's. *)
  Context {V : Type}.

Record Node := mkNode { Region : string; Value : V }.
Record scoredNode := mkScored { node : Node; rtt : duration }.

Record State := mkState {
  Current : string;
  ClientGeneration : Z;
  ClientObservedAt : time;
  Candidate : string;
  CandidateFirstObservedAt : time;
  CandidateLastObservedAt : time;
  CandidateSamples : Z;
}.
#[export] Instance State_settable : Settable State := fun s =>
  mkState (Current s) (ClientGeneration s) (ClientObservedAt s) (Candidate s)
    (CandidateFirstObservedAt s) (CandidateLastObservedAt s) (CandidateSamples s).

Definition region_byte (c : ascii) : bool :=
  let b := code c in
  (97 <=? b) && (b <=? 122) || (48 <=? b) && (b <=? 57) || (b =? 45).

(** The bytes of the accepted runes are ASCII, so a loop over the runes of a
    string accepts exactly when every byte is accepted. *)
Definition validRegion (value : string) : bool :=
  negb ((value == "") || (63 <? slen value))
  && forallb region_byte (String.list_ascii_of_string value)
  && match String.list_ascii_of_string value with
     | [] => false
     | c :: _ => negb (code c =? 45)
     end
  && match last (String.list_ascii_of_string value) with
     | None => false
     | Some c => negb (code c =? 45)
     end.

Definition reset (s : State) : State :=
  s <| Candidate := "" |> <| CandidateFirstObservedAt := 0 |> <| CandidateLastObservedAt := 0 |>
    <| CandidateSamples := 0 |>.

Definition qualifies (current candidate : duration) : bool :=
  (candidate <? current) && (10 * Millisecond <=? current - candidate)
  && ((current * 15) mod two64 <=? ((current - candidate) * 100) mod two64).

Fixpoint findScore (scores : list scoredNode) (region : string) : option scoredNode :=
  match scores with
  | [] => None
  | score :: rest => if Region (node score) == region then Some score else findScore rest region
  end.

Definition recentSuccess (region : string) (now : time) (vectors : list Vector) : bool :=
  existsb (fun v => (RelaySuccessRegion v == region) && negb (IsZero (RelaySuccessAt v))
                    && negb (After (RelaySuccessAt v) now)
                    && (Sub now (RelaySuccessAt v) <=? 30 * Second)) vectors.

Definition validState (value : State) : bool :=
  negb ((Current value != "") && negb (validRegion (Current value))
        || (Candidate value != "") && negb (validRegion (Candidate value))
        || (16 <? CandidateSamples value))
  && Bool.eqb (ClientGeneration value =? 0) (IsZero (ClientObservedAt value))
  && Bool.eqb (Candidate value == "") (CandidateSamples value =? 0)
  && Bool.eqb (Candidate value == "") (IsZero (CandidateFirstObservedAt value))
  && Bool.eqb (Candidate value == "") (IsZero (CandidateLastObservedAt value)).

Definition freshVector (now : time) (vector : Vector) : bool :=
  negb ((VectorGeneration vector =? 0) || IsZero (ObservedAt vector)
        || After (ObservedAt vector) (Add now (30 * Second))
        || (5 * Minute <? Sub now (ObservedAt vector)))
  && ((RelaySuccessRegion vector == "") && IsZero (RelaySuccessAt vector)
      || validRegion (RelaySuccessRegion vector) && negb (IsZero (RelaySuccessAt vector))
         && negb (After (RelaySuccessAt vector) (ObservedAt vector))
         && (Sub (ObservedAt vector) (RelaySuccessAt vector) <=? 30 * Second)).

(** The loop of [vectorMap]; reading a missing key of a Go map gives zero. *)
Fixpoint vector_loop (samples : list Sample) (result : gmap string duration)
    : Res (gmap string duration) :=
  match samples with
  | [] => Ok result
  | s :: rest =>
      if negb (validRegion (SampleRegion s)) || (RTT s <=? 0) || (Minute <? RTT s)
         || negb (default 0 (result !! SampleRegion s) =? 0)
      then Err ErrInvalid
      else vector_loop rest (<[SampleRegion s := RTT s]> result)
  end.

Definition vectorMap (vector : Vector) : Res (gmap string duration) :=
  let n := Z.of_nat (length (Samples vector)) in
  if (n =? 0) || (MaximumRegions <? n) then Err ErrInvalid
  else vector_loop (Samples vector) ∅.

(** The scoring loop of [Select]: [seen] is the set of the regions taken. *)
Fixpoint score_loop (clientRTT hostRTT : gmap string duration) (nodes : list Node)
    (seen : gset string) : list scoredNode :=
  match nodes with
  | [] => []
  | n :: rest =>
      match clientRTT !! Region n, hostRTT !! Region n with
      | Some l, Some r =>
          if negb (validRegion (Region n)) || bool_decide (Region n ∈ seen)
             || (max_int64 - r <? l)
          then score_loop clientRTT hostRTT rest seen
          else mkScored n (l + r) :: score_loop clientRTT hostRTT rest ({[Region n]} ∪ seen)
      | _, _ => score_loop clientRTT hostRTT rest seen
      end
  end.

(** The comparison of [sort.Slice]. *)
Definition less (a b : scoredNode) : bool :=
  if rtt a =? rtt b then String.ltb (Region (node a)) (Region (node b)) else rtt a <? rtt b.

(** The regions of the scores are pairwise different, so [less] is a strict
    total order on them and every sorting algorithm puts the same element
    first; only that element is used. *)
Fixpoint sorted_first (best : scoredNode) (rest : list scoredNode) : scoredNode :=
  match rest with
  | [] => best
  | x :: rest => sorted_first (if less x best then x else best) rest
  end.

Definition find_node (nodes : list Node) (region : string) : option Node :=
  List.find (fun n => Region n == region) nodes.

(** The decision once a fresh observation has been scored. *)
Definition decide_switch (next : State) (client host : Vector) (best : scoredNode)
    (scores : list scoredNode) : Node * State :=
  match findScore scores (Current next) with
  | Some currentScore =>
      if Current next == "" then (node best, reset (next <| Current := Region (node best) |>))
      else if (Region (node best) == Current next) || negb (qualifies (rtt currentScore) (rtt best))
      then (node currentScore, reset next)
      else
        let observed := if Before (ObservedAt host) (ObservedAt client)
                        then ObservedAt host else ObservedAt client in
        if Candidate next != Region (node best) then
          (node currentScore,
           next <| Candidate := Region (node best) |> <| CandidateFirstObservedAt := observed |>
                <| CandidateLastObservedAt := observed |> <| CandidateSamples := 1 |>)
        else if Sub observed (CandidateLastObservedAt next) <? 3 * Second then
          (node currentScore, next)
        else
          let next := next <| CandidateLastObservedAt := observed |>
                           <| CandidateSamples := (CandidateSamples next + 1) mod 256 |> in
          if (CandidateSamples next <? 3)
             || (Sub (CandidateLastObservedAt next) (CandidateFirstObservedAt next) <? 10 * Second)
          then (node currentScore, next)
          else (node best, reset (next <| Current := Region (node best) |>))
  | None => (node best, reset (next <| Current := Region (node best) |>))
  end.

Definition stale_client (previous : State) (client : Vector) : bool :=
  negb (IsZero (ClientObservedAt previous))
  && (Before (ObservedAt client) (ClientObservedAt previous)
      || (ObservedAt client =? ClientObservedAt previous)
         && (VectorGeneration client <=? ClientGeneration previous)).

Definition Select (now : time) (previous : State) (client host : Vector) (nodes : list Node)
    : Res (Node * State) :=
  let n := Z.of_nat (length nodes) in
  if IsZero now || (n =? 0) || (MaximumRegions <? n) || negb (freshVector now client)
     || negb (freshVector now host) || negb (validState previous)
  then Err ErrInvalid else
  match vectorMap client, vectorMap host with
  | Err e, _ | Ok _, Err e => Err e
  | Ok clientRTT, Ok hostRTT =>
      let stale := stale_client previous client in
      match (if stale && (Current previous != "") then find_node nodes (Current previous) else None) with
      | Some n => Ok (n, previous)
      | None =>
          let next := if stale then previous
                      else previous <| ClientGeneration := VectorGeneration client |>
                                    <| ClientObservedAt := ObservedAt client |> in
          let scores := score_loop clientRTT hostRTT nodes ∅ in
          let kept := if (Current next != "")
                         && match findScore scores (Current next) with Some _ => false | None => true end
                         && recentSuccess (Current next) now [client; host]
                      then find_node nodes (Current next) else None in
          match kept with
          | Some n => Ok (n, reset next)
          | None =>
              match scores with
              | [] => Err ErrInvalid
              | s :: rest =>
                  let best := sorted_first s rest in
                  if stale then Ok (node best, previous)
                  else Ok (decide_switch next client host best scores)
              end
          end
      end
  end.
End Selection.

(** ** Lemmas on the helpers *)
Section SelectionFacts.
Context {V : Type}.
Implicit Types (nodes : list (@Node V)) (scores : list (@scoredNode V)) (s : State).

Lemma find_node_Some nodes region n :
  find_node nodes region = Some n -> n ∈ nodes /\ Region n = region.
Proof.
  unfold find_node. intros [Hin Hr]%find_some. rewrite bool_decide_eq_true in Hr.
  by rewrite list_elem_of_In.
Qed.

Lemma findScore_Some scores region x :
  findScore scores region = Some x -> x ∈ scores /\ Region (node x) = region.
Proof.
  induction scores as [|y scores IH]; simpl; [done|]. case_bool_decide; intros; simplify_eq.
  - split; [left|done].
  - destruct IH; [done|]. split; [by right|done].
Qed.

Lemma sorted_first_in best scores : sorted_first best scores ∈ best :: scores.
Proof.
  revert best. induction scores as [|x scores IH]; intros best; simpl; [left|].
  specialize (IH (if less x best then x else best)). apply elem_of_cons in IH as [->|IH].
  - case_match; [by right; left|by left].
  - by do 2 right.
Qed.

Lemma less_rtt (a b : @scoredNode V) : less a b = true -> rtt a <= rtt b.
Proof. unfold less. repeat case_match; bool_prop; intros; bool_prop; lia. Qed.
Lemma not_less_rtt (a b : @scoredNode V) : less a b = false -> rtt b <= rtt a.
Proof. unfold less. repeat case_match; bool_prop; intros; bool_prop; lia. Qed.

(** The node that sorts first has the least total round trip. *)
Lemma sorted_first_least best scores x : x ∈ best :: scores -> rtt (sorted_first best scores) <= rtt x.
Proof.
  revert best x. induction scores as [|y scores IH]; intros best x Hin; simpl.
  - apply elem_of_cons in Hin as [->|Hin]; [lia|by apply elem_of_nil in Hin].
  - set (b := if less y best then y else best).
    assert (rtt b <= rtt y /\ rtt b <= rtt best) as [Hy Hb].
    { unfold b. destruct (less y best) eqn:E;
        [apply less_rtt in E|apply not_less_rtt in E]; lia. }
    apply elem_of_cons in Hin as [->|Hin]; [etrans; [apply IH; left|done]|].
    apply elem_of_cons in Hin as [->|Hin]; [etrans; [apply IH; left|done]|].
    apply IH. by right.
Qed.

(** What a score says of its node. *)
Lemma score_loop_sound cm hm nodes seen x :
  x ∈ score_loop cm hm nodes seen ->
  node x ∈ nodes /\ validRegion (Region (node x)) = true
  /\ exists l r, cm !! Region (node x) = Some l /\ hm !! Region (node x) = Some r /\ rtt x = l + r.
Proof.
  revert seen. induction nodes as [|n nodes IH]; intros seen; simpl.
  - intros H. by apply elem_of_nil in H.
  - assert (forall seen, x ∈ score_loop cm hm nodes seen -> node x ∈ n :: nodes
      /\ validRegion (Region (node x)) = true
      /\ exists l r, cm !! Region (node x) = Some l /\ hm !! Region (node x) = Some r /\ rtt x = l + r)
      as IH' by (intros sn Hin; destruct (IH sn Hin) as (? & ? & ?); split_and!; auto; by right).
    destruct (cm !! Region n) as [l|] eqn:Hl; [|by apply IH'].
    destruct (hm !! Region n) as [r|] eqn:Hr; [|by apply IH'].
    case_match eqn:Hg; [by apply IH'|]. bool_prop.
    intros [->|Hin]%elem_of_cons; [|by eapply IH']. cbn. split_and!; [left|done|eauto].
Qed.

(** Accepted samples are positive and at most a minute. *)
Definition bounded_map (m : gmap string duration) : Prop :=
  forall k v, m !! k = Some v -> 0 < v <= Minute.

Lemma vector_loop_bounded samples m m' :
  bounded_map m -> vector_loop samples m = Ok m' -> bounded_map m'.
Proof.
  revert m. induction samples as [|x samples IH]; intros m Hm H; simpl in H; [by simplify_eq|].
  case_match eqn:Hg; [done|]. bool_prop. eapply IH; [|done].
  intros k v [[_ <-]|[_ Hl]]%lookup_insert_Some; [lia|by apply (Hm k)].
Qed.

Lemma vectorMap_bounded v m : vectorMap v = Ok m -> bounded_map m.
Proof.
  unfold vectorMap. case_match; [done|]. apply vector_loop_bounded.
  intros k x Hx. by rewrite lookup_empty in Hx.
Qed.

(** In range, the comparison of [qualifies] is the exact one: better by ten
    milliseconds and by fifteen per cent. *)
Lemma qualifies_exact current cand :
  0 < cand -> current <= 2 * Minute ->
  qualifies current cand = true <->
  10 * Millisecond <= current - cand /\ 15 * current <= 100 * (current - cand).
Proof.
  intros Hc Hm. unfold qualifies, two64, Minute, Second, Millisecond in *.
  rewrite !andb_true_iff, Z.ltb_lt, !Z.leb_le. split.
  - intros [[Hlt Hge] Hq]. rewrite !Z.mod_small in Hq by lia. lia.
  - intros [? ?]. rewrite !Z.mod_small by lia. lia.
Qed.

(** ** [Select] case by case *)

Lemma if_same {A} (b : bool) (x : A) : (if b then x else x) = x.
Proof. by destruct b. Qed.

(** The ways [Select] succeeds. *)
Inductive selected (now : time) (previous : State) (client host : Vector) nodes
    : @Node V -> State -> Prop :=
| selected_stale n :
    stale_client previous client = true -> n ∈ nodes ->
    selected now previous client host nodes n previous
| selected_kept cm hm n :
    stale_client previous client = false ->
    vectorMap client = Ok cm -> vectorMap host = Ok hm ->
    findScore (score_loop cm hm nodes ∅) (Current previous) = None ->
    n ∈ nodes -> Region n = Current previous ->
    selected now previous client host nodes n
      (reset (previous <| ClientGeneration := VectorGeneration client |>
                       <| ClientObservedAt := ObservedAt client |>))
| selected_scored cm hm best n next :
    stale_client previous client = false ->
    vectorMap client = Ok cm -> vectorMap host = Ok hm ->
    best ∈ score_loop cm hm nodes ∅ ->
    (forall x, x ∈ score_loop cm hm nodes ∅ -> rtt best <= rtt x) ->
    (Current previous <> "" -> findScore (score_loop cm hm nodes ∅) (Current previous) = None ->
     recentSuccess (Current previous) now [client; host] = true ->
     find_node nodes (Current previous) = None) ->
    decide_switch (previous <| ClientGeneration := VectorGeneration client |>
                            <| ClientObservedAt := ObservedAt client |>)
      client host best (score_loop cm hm nodes ∅) = (n, next) ->
    selected now previous client host nodes n next.

Lemma Select_ok now previous client host nodes n next :
  Select now previous client host nodes = Ok (n, next) ->
  freshVector now client = true /\ freshVector now host = true /\ validState previous = true
  /\ selected now previous client host nodes n next.
Proof.
  unfold Select. case_match eqn:Hg; [done|]. bool_prop. intros Hsel. split_and!; try done.
  destruct (vectorMap client) as [cm|] eqn:Hcm; [|done].
  destruct (vectorMap host) as [hm|] eqn:Hhm; [|done].
  assert (forall x rest, score_loop cm hm nodes ∅ = x :: rest ->
    sorted_first x rest ∈ score_loop cm hm nodes ∅
    /\ forall y, y ∈ score_loop cm hm nodes ∅ -> rtt (sorted_first x rest) <= rtt y) as Hbest.
  { intros x rest ->. split; [apply sorted_first_in|]. apply sorted_first_least. }
  destruct (stale_client previous client) eqn:Hst; cbn -[findScore find_node recentSuccess] in Hsel.
  - destruct (Current previous != "") eqn:Hcur; cbn -[findScore find_node recentSuccess] in Hsel.
    + destruct (find_node nodes (Current previous)) as [m|] eqn:Hf.
      { simplify_eq. constructor 1; [done|]. by apply find_node_Some in Hf as [? _]. }
      rewrite (if_same _ (@None Node)) in Hsel.
      destruct (score_loop cm hm nodes ∅) as [|x rest] eqn:Hs; [done|]. simplify_eq.
      constructor 1; [done|]. destruct (Hbest x rest eq_refl) as [Hin _]. rewrite <- Hs in Hin.
      by apply score_loop_sound in Hin as [? _].
    + destruct (score_loop cm hm nodes ∅) as [|x rest] eqn:Hs; [done|]. simplify_eq.
      constructor 1; [done|]. destruct (Hbest x rest eq_refl) as [Hin _]. rewrite <- Hs in Hin.
      by apply score_loop_sound in Hin as [? _].
  - destruct (_ && recentSuccess _ _ _)%bool eqn:Hk in Hsel.
    + bool_prop. destruct (findScore _ _) eqn:Hfs in *; [done|].
      destruct (find_node nodes (Current previous)) as [m|] eqn:Hf.
      * simplify_eq. apply find_node_Some in Hf as [? ?]. by econstructor 2.
      * destruct (score_loop cm hm nodes ∅) as [|x rest] eqn:Hs; [done|].
        destruct (Hbest x rest eq_refl). simplify_eq.
        eapply (selected_scored _ _ _ _ _ cm hm (sorted_first x rest)); rewrite ?Hs; done || congruence.
    + destruct (score_loop cm hm nodes ∅) as [|x rest] eqn:Hs; [done|].
      destruct (Hbest x rest eq_refl).
      eapply (selected_scored _ _ _ _ _ cm hm (sorted_first x rest)); rewrite ?Hs; try done; [|congruence].
      intros Hne Hfs Hrec. rewrite Hfs, Hrec, bool_decide_eq_false_2 in Hk by done. done.
Qed.

(** ** The invariant of the selection state *)

(** The states that [Select] itself produces: a candidate was observed one to
    four times, at least three seconds apart, over less than ten seconds once
    it was observed three times. *)
Record state_inv s : Prop := {
  state_valid : validState s = true;
  state_samples : 0 <= CandidateSamples s <= 4;
  state_span : Candidate s <> "" ->
    3 * Second * (CandidateSamples s - 1)
      <= CandidateLastObservedAt s - CandidateFirstObservedAt s
    /\ (3 <= CandidateSamples s ->
        CandidateLastObservedAt s - CandidateFirstObservedAt s < 10 * Second);
}.

Lemma validState_iff s :
  validState s = true <->
  (Current s = "" \/ validRegion (Current s) = true)
  /\ (Candidate s = "" \/ validRegion (Candidate s) = true)
  /\ CandidateSamples s <= 16
  /\ (ClientGeneration s = 0 <-> ClientObservedAt s = 0)
  /\ (Candidate s = "" <-> CandidateSamples s = 0)
  /\ (Candidate s = "" <-> CandidateFirstObservedAt s = 0)
  /\ (Candidate s = "" <-> CandidateLastObservedAt s = 0).
Proof.
  unfold validState, IsZero.
  rewrite !andb_true_iff, negb_true_iff, !orb_false_iff, !andb_false_iff, !negb_false_iff,
    !bool_decide_eq_true, Z.ltb_ge, !Bool.eqb_true_iff.
  assert (forall (b1 b2 : bool) (P1 P2 : Prop), (b1 = true <-> P1) -> (b2 = true <-> P2) ->
    (b1 = b2 <-> (P1 <-> P2))) as Hb.
  { intros [] [] P1 P2; intuition congruence. }
  rewrite (Hb (ClientGeneration s =? 0) _ _ _ (Z.eqb_eq _ _) (Z.eqb_eq _ _)).
  rewrite (Hb _ _ _ _ (bool_decide_eq_true _) (Z.eqb_eq (CandidateSamples s) _)).
  rewrite (Hb _ _ _ _ (bool_decide_eq_true _) (Z.eqb_eq (CandidateFirstObservedAt s) _)).
  rewrite (Hb _ _ _ _ (bool_decide_eq_true _) (Z.eqb_eq (CandidateLastObservedAt s) _)).
  tauto.
Qed.

Lemma state_inv_zero : state_inv (mkState "" 0 0 "" 0 0 0).
Proof. constructor; cbn; [done|lia|done]. Qed.

Lemma validRegion_nonempty r : validRegion r = true -> r <> "".
Proof. by intros H ->. Qed.

Lemma reset_inv s :
  (Current s = "" \/ validRegion (Current s) = true) ->
  (ClientGeneration s = 0 <-> ClientObservedAt s = 0) -> state_inv (reset s).
Proof.
  intros Hc Hg. constructor; [apply validState_iff|cbn; lia|done]. cbn. split_and!; auto; done || lia.
Qed.

Lemma freshVector_nonzero now v :
  freshVector now v = true -> VectorGeneration v <> 0 /\ ObservedAt v <> 0.
Proof. unfold freshVector, IsZero. intros. bool_prop. done. Qed.

(** Recording the accepted client observation. *)
Lemma observe_inv s g t :
  state_inv s -> g <> 0 -> t <> 0 ->
  state_inv (s <| ClientGeneration := g |> <| ClientObservedAt := t |>).
Proof.
  intros [Hv] Hg Ht. apply validState_iff in Hv. destruct_and!.
  constructor; [apply validState_iff|done|done]. cbn. by split_and!.
Qed.

Lemma Sub_lt3 t u d : 0 <= d <= 60 * Second -> (Sub t u <? d) = (t - u <? d).
Proof.
  unfold Sub, Second, min_int64, max_int64. intros.
  destruct (Z.ltb_spec (t - u) d); [apply Z.ltb_lt|apply Z.ltb_ge]; lia.
Qed.

Lemma decide_switch_inv s client host best scores n next :
  state_inv s -> validRegion (Region (node best)) = true ->
  ObservedAt client <> 0 -> ObservedAt host <> 0 ->
  decide_switch s client host best scores = (n, next) -> state_inv next.
Proof.
  intros Hinv Hr Hc Hh. pose proof (validRegion_nonempty _ Hr) as Hne.
  pose proof Hinv as [Hv [Hs1 Hs2] Hspan]. apply validState_iff in Hv.
  destruct Hv as (Hcur & Hcand & _ & Hgen & Hz1 & Hz2 & Hz3).
  unfold decide_switch.
  set (observed := if Before (ObservedAt host) (ObservedAt client) then _ else _).
  assert (observed <> 0) as Hobs by (unfold observed; by case_match).
  rewrite !Sub_lt3 by (unfold Second; lia).
  repeat case_match; intros; simplify_eq; try (apply reset_inv; cbn; auto).
  all: bool_prop.
  - constructor; [apply validState_iff|cbn; lia|]; cbn; [|lia]. split_and!; auto; try lia; done.
  - done.
  - (* one more observation of the candidate *)
    assert (CandidateSamples s <> 0) by (intros E; apply Hz1 in E; congruence).
    rewrite Z.mod_small in * by lia. destruct Hspan as [Hsp1 Hsp2]; [congruence|].
    assert (CandidateSamples s + 1 <= 4) as Hle.
    { destruct (decide (CandidateSamples s + 1 < 3)); [lia|].
      match goal with H : (_ || _)%bool = true |- _ => apply orb_true_iff in H as [H|H]; cbn in H end;
        bool_prop; unfold Second in *; lia. }
    constructor; [apply validState_iff|cbn; lia|]; cbn.
    + rewrite ?Z.mod_small by lia. split_and!; auto; try lia; try done;
        (split; intros E; [congruence|]); try lia; apply Hz2 in E; congruence.
    + intros _. rewrite ?Z.mod_small by lia. split; [unfold Second in *; lia|]. intros Hthree.
      match goal with H : (_ || _)%bool = true |- _ => apply orb_true_iff in H as [H|H]; cbn in H end;
        bool_prop; lia.
Qed.

Lemma decide_switch_node s client host best scores n next :
  decide_switch s client host best scores = (n, next) ->
  n = node best \/ exists x, x ∈ scores /\ n = node x.
Proof.
  unfold decide_switch. intros. destruct (findScore scores (Current s)) as [x|] eqn:Hf.
  - apply findScore_Some in Hf as [? _]. repeat case_match; simplify_eq; eauto.
  - simplify_eq. by left.
Qed.

(** ** Theorems *)

Lemma Select_inv now previous client host nodes n next :
  state_inv previous -> Select now previous client host nodes = Ok (n, next) ->
  n ∈ nodes /\ state_inv next.
Proof.
  intros Hinv Hsel. apply Select_ok in Hsel as (Hc & Hh & _ & Hsel).
  apply freshVector_nonzero in Hc as [Hcg Hct], Hh as [Hhg Hht].
  pose proof (observe_inv previous _ _ Hinv Hcg Hct) as Hnext.
  destruct Hsel as [n Hst Hin|cm hm n Hst Hcm Hhm Hf Hin Hr
    |cm hm best n next Hst Hcm Hhm Hin Hleast Hkept Hd]; [done| |].
  - split; [done|]. destruct Hnext as [Hv _ _]. apply validState_iff in Hv. destruct_and!.
    by apply reset_inv.
  - apply score_loop_sound in Hin as (Hnode & Hr & _). split.
    + apply decide_switch_node in Hd as [->|[x [Hx ->]]]; [done|].
      by apply score_loop_sound in Hx as [? _].
    + exact (decide_switch_inv _ _ _ _ _ _ _ Hnext Hr Hct Hht Hd).
Qed.

(** The earlier of the two observations. *)
Definition observed_at (client host : Vector) : time := Z.min (ObservedAt client) (ObservedAt host).

Lemma score_bounds cm hm client host nodes x :
  vectorMap client = Ok cm -> vectorMap host = Ok hm -> x ∈ score_loop cm hm nodes ∅ ->
  0 < rtt x <= 2 * Minute.
Proof.
  intros Hc Hh Hin. apply score_loop_sound in Hin as (_ & _ & l & r & Hl & Hr & ->).
  apply vectorMap_bounded in Hc, Hh. specialize (Hc _ _ Hl). specialize (Hh _ _ Hr). lia.
Qed.

(** ** The history of the observations *)

(** The arguments of one call. *)
Record Observation := mkObservation {
  o_now : time; o_client : Vector; o_host : Vector; o_nodes : list (@Node V) }.

Definition observed (o : Observation) : time := observed_at (o_client o) (o_host o).

(** The observation [o] measures the region [current], and its best region is
    [region], better by ten milliseconds and by fifteen per cent. *)
Definition improves (current region : string) (o : Observation) : Prop :=
  exists cm hm best cur,
    let scores := score_loop cm hm (o_nodes o) ∅ in
    vectorMap (o_client o) = Ok cm /\ vectorMap (o_host o) = Ok hm
    /\ best ∈ scores /\ (forall x, x ∈ scores -> rtt best <= rtt x)
    /\ Region (node best) = region /\ findScore scores current = Some cur
    /\ 10 * Millisecond <= rtt cur - rtt best
    /\ 15 * rtt cur <= 100 * (rtt cur - rtt best).

(** [later] was observed at least three seconds after [earlier]. *)
Definition apart (later earlier : Observation) : Prop :=
  3 * Second <= observed later - observed earlier.

Definition select (s : State) (o : Observation) : Res (Node * State) :=
  Select (o_now o) s (o_client o) (o_host o) (o_nodes o).

(** The states of a run of calls from the empty state, each call getting the
    state the previous one returned, with the observations the run took, the
    latest first. A stale call takes nothing. *)
Inductive ran : list Observation -> State -> Prop :=
| ran_start : ran [] (mkState "" 0 0 "" 0 0 0)
| ran_stale h s o n s' :
    ran h s -> select s o = Ok (n, s') -> stale_client s (o_client o) = true -> ran h s'
| ran_taken h s o n s' :
    ran h s -> select s o = Ok (n, s') -> stale_client s (o_client o) = false -> ran (o :: h) s'.

(** The candidate of a state stands for the latest observations [recent]: every
    one of them improves on the current region with the candidate, and the
    counted ones, as many as the state says, are three seconds apart and end at
    the two recorded instants. *)
Definition tracked (h : list Observation) (s : State) : Prop :=
  Candidate s = "" \/
  exists recent older counted lastc firstc,
    h = recent ++ older
    /\ Forall (improves (Current s) (Candidate s)) recent
    /\ counted `sublist_of` recent
    /\ Z.of_nat (length counted) = CandidateSamples s
    /\ Sorted apart counted
    /\ head counted = Some lastc /\ observed lastc = CandidateLastObservedAt s
    /\ last counted = Some firstc /\ observed firstc = CandidateFirstObservedAt s.

(** What leaving a measured region takes: the observation [o] and all the
    latest ones before it improve on [current] with [region], and counting [o]
    at least three of them lie three seconds apart and span ten seconds. *)
Definition sustained (h : list Observation) (o : Observation) (current region : string) : Prop :=
  exists recent older counted firstc,
    h = recent ++ older
    /\ Forall (improves current region) (o :: recent)
    /\ counted `sublist_of` recent
    /\ (3 <= length (o :: counted))%nat
    /\ Sorted apart (o :: counted)
    /\ last (o :: counted) = Some firstc /\ 10 * Second <= observed o - observed firstc.

(** What a call that takes its observation does, with the score of the current
    region in view. *)
Lemma observed_min client host :
  (if Before (ObservedAt host) (ObservedAt client) then ObservedAt host else ObservedAt client)
  = observed_at client host.
Proof. unfold observed_at, Before. case_match; bool_prop; lia. Qed.

(** The branches of [decide_switch] on the state. *)
Lemma decide_switch_cases s client host best scores n next :
  0 <= CandidateSamples s <= 4 -> 0 < rtt best -> Region (node best) <> "" ->
  (forall x, x ∈ scores -> rtt x <= 2 * Minute) ->
  decide_switch s client host best scores = (n, next) ->
  Candidate next = "" /\ (Current next = Current s \/ Current s = "" \/ findScore scores (Current s) = None)
    /\ (Current next = Current s \/ Current next = Region (node best) /\ n = node best)
  \/ exists cur, findScore scores (Current s) = Some cur
     /\ 10 * Millisecond <= rtt cur - rtt best /\ 15 * rtt cur <= 100 * (rtt cur - rtt best)
     /\ (Current next = Current s /\ Candidate next = Region (node best)
           /\ CandidateFirstObservedAt next = observed_at client host
           /\ CandidateLastObservedAt next = observed_at client host /\ CandidateSamples next = 1
         \/ Candidate s = Region (node best) /\ next = s
         \/ Candidate s = Region (node best)
            /\ 3 * Second <= observed_at client host - CandidateLastObservedAt s
            /\ next = s <| CandidateLastObservedAt := observed_at client host |>
                        <| CandidateSamples := CandidateSamples s + 1 |>
         \/ Candidate s = Region (node best)
            /\ 3 * Second <= observed_at client host - CandidateLastObservedAt s
            /\ 2 <= CandidateSamples s
            /\ 10 * Second <= observed_at client host - CandidateFirstObservedAt s
            /\ Candidate next = "" /\ Current next = Region (node best) /\ n = node best).
Proof.
  intros Hsm Hpos Hreg Hb. unfold decide_switch. rewrite observed_min.
  destruct (findScore scores (Current s)) as [cur|] eqn:Hf;
    [|intros; simplify_eq; left; cbn; auto].
  pose proof (findScore_Some _ _ _ Hf) as [Hin _]. specialize (Hb _ Hin).
  rewrite !Sub_lt3 by (unfold Second; lia).
  destruct (Current s == "") eqn:Hc; [bool_prop; intros; simplify_eq; left; cbn; auto|].
  destruct ((Region (node best) == Current s) || _)%bool eqn:Hq;
    [intros; simplify_eq; left; cbn; auto|].
  apply orb_false_iff in Hq as [_ Hq]. apply negb_false_iff, qualifies_exact in Hq as [? ?]; [|done|done].
  intros Hd. right. exists cur. do 3 (split; [done|]). revert Hd.
  destruct (Candidate s != Region (node best)) eqn:Hcand; [intros; simplify_eq; left; done|].
  bool_prop. destruct (_ <? 3 * Second) eqn:H3; [intros; simplify_eq; right; left; done|].
  bool_prop. cbn -[Z.mul]. rewrite (Z.mod_small (CandidateSamples s + 1)) by lia.
  destruct (_ || _)%bool eqn:H10; intros; simplify_eq; [right; right; left; done|].
  bool_prop. do 3 right. cbn. split_and!; done || lia.
Qed.

Lemma ran_inv h s : ran h s -> state_inv s.
Proof.
  induction 1 as [|h s o n s' _ IH Hs _|h s o n s' _ IH Hs _];
    [apply state_inv_zero|by eapply Select_inv..].
Qed.

(** One more observation that improves extends the run of the candidate. *)
Lemma tracked_grows h s o :
  tracked h s -> Candidate s <> "" -> improves (Current s) (Candidate s) o -> tracked (o :: h) s.
Proof.
  intros [E|(recent & older & counted & lastc & firstc & -> & Hall & Hsub & Hrest)] Hne Hi; [done|].
  right. exists (o :: recent), older, counted, lastc, firstc.
  split_and!; try done; [by constructor|by apply sublist_cons|apply Hrest..].
Qed.

(** Such an observation three seconds after the last counted one is counted. *)
Lemma tracked_counts h s o :
  tracked h s -> Candidate s <> "" -> improves (Current s) (Candidate s) o ->
  3 * Second <= observed o - CandidateLastObservedAt s ->
  tracked (o :: h) (s <| CandidateLastObservedAt := observed o |>
                      <| CandidateSamples := CandidateSamples s + 1 |>).
Proof.
  intros [E|(recent & older & counted & lastc & firstc & -> & Hall & Hsub & Hlen & Hsort
    & Hhead & Hlast & Hf & Hfirst)] Hne Hi Hap; [done|].
  right. exists (o :: recent), older, (o :: counted), o, firstc.
  destruct counted as [|x counted]; [done|]. injection Hhead as ->.
  split_and!; try done; [by constructor|by apply sublist_skip|cbn [length CandidateSamples] in *; cbn; lia|].
  constructor; [done|]. constructor. unfold apart. by rewrite Hlast.
Qed.

(** What the state tells of the history when a call switches. *)
Lemma tracked_sustained h s o :
  tracked h s -> Candidate s <> "" -> improves (Current s) (Candidate s) o ->
  3 * Second <= observed o - CandidateLastObservedAt s -> 2 <= CandidateSamples s ->
  10 * Second <= observed o - CandidateFirstObservedAt s ->
  sustained h o (Current s) (Candidate s).
Proof.
  intros [E|(recent & older & counted & lastc & firstc & -> & Hall & Hsub & Hlen & Hsort
    & Hhead & Hlast & Hf & Hfirst)] Hne Hi Hap Htwo Hten; [done|].
  exists recent, older, counted, firstc. destruct counted as [|x counted]; [done|].
  injection Hhead as ->. split_and!; try done.
  - by constructor.
  - cbn in Hlen |- *. lia.
  - constructor; [done|]. constructor. unfold apart. by rewrite Hlast.
  - by rewrite Hfirst.
Qed.

(** A call that takes its observation keeps the account of the candidate, and
    leaves a measured region only on a sustained improvement. *)
Lemma taken_tracked h s o n next :
  state_inv s -> tracked h s -> select s o = Ok (n, next) ->
  stale_client s (o_client o) = false ->
  tracked (o :: h) next
  /\ (Current s <> "" -> Current next <> Current s ->
      exists cm hm best,
        let scores := score_loop cm hm (o_nodes o) ∅ in
        vectorMap (o_client o) = Ok cm /\ vectorMap (o_host o) = Ok hm
        /\ best ∈ scores /\ (forall x, x ∈ scores -> rtt best <= rtt x)
        /\ Current next = Region (node best) /\ n = node best
        /\ (findScore scores (Current s) = None \/ sustained h o (Current s) (Region (node best)))).
Proof.
  intros Hinv Htr Hsel Hst. apply Select_ok in Hsel as (_ & _ & _ & Hsel).
  destruct Hsel as [n Hst'|cm hm n _ _ _ _ _ _
    |cm hm best n next _ Hcm Hhm Hin Hleast _ Hd]; [congruence|by split; [left|]|].
  pose proof (score_loop_sound _ _ _ _ _ Hin) as (_ & Hr%validRegion_nonempty & _).
  apply decide_switch_cases in Hd;
    [|exact (state_samples _ Hinv)|exact (proj1 (score_bounds _ _ _ _ _ _ Hcm Hhm Hin))|exact Hr
     |exact (fun x Hx => proj2 (score_bounds _ _ _ _ _ _ Hcm Hhm Hx))].
  destruct Hd
    as [(Hc & Hcur & Hcur')|(cur & Hf & Hms & Hpc & Hcases)].
  { split; [by left|]. cbn in Hcur, Hcur'. intros Hne Hch. exists cm, hm, best. cbn.
    destruct Hcur as [?|[?|?]]; [done..|]. destruct Hcur' as [?|[? ?]]; [done|]. split_and!; auto. }
  assert (improves (Current s) (Region (node best)) o) as Hi by (exists cm, hm, best, cur; done).
  cbn in Hcases. destruct Hcases as [(Hc & Hca & Hfi & Hla & Hn)|[(Hca & ->)|[(Hca & Hap & ->)
    |(Hca & Hap & Htwo & Hten & Hz & Hc & ->)]]].
  - split; [|done]. right. exists [o], h, [o], o, o. rewrite Hc, Hca. cbn. rewrite Hn.
    split_and!; try done; [by repeat constructor|by repeat constructor].
  - split; [|done]. rewrite <- Hca in Hi. by apply (tracked_grows h s o Htr); [congruence|].
  - split; [|done]. rewrite <- Hca in Hi. by apply (tracked_counts h s o Htr); [congruence|..].
  - split; [by left|]. intros _ _. exists cm, hm, best. cbn. do 6 (split; [done|]). right.
    rewrite <- Hca in Hi |- *. by apply (tracked_sustained h s o Htr); [congruence|..].
Qed.

Lemma ran_tracked h s : ran h s -> tracked h s.
Proof.
  induction 1 as [|h s o n s' Hr IH Hs Hst|h s o n s' Hr IH Hs Hst]; [by left| |].
  - apply Select_ok in Hs as (_ & _ & _ & Hs). by destruct Hs; [|congruence..].
  - by apply (taken_tracked h s o n s' (ran_inv _ _ Hr)).
Qed.

(** C40. Over every run of relay selection from the empty state, a call leaves the current
    region only for the region of least combined round-trip time among the measured ones, and
    only when the current region is no longer scored or the improvement was sustained: this
    observation and an unbroken stretch of the latest ones before it each show that region as
    the best, at least ten milliseconds and fifteen percent better than the current one, and
    among them are at least three, this one included, that are three seconds apart or more and
    span at least ten seconds. *)
Theorem switch_needs_sustained_improvement h s o n next :
  ran h s -> select s o = Ok (n, next) -> Current s <> "" -> Current next <> Current s ->
  exists cm hm best,
    let scores := score_loop cm hm (o_nodes o) ∅ in
    vectorMap (o_client o) = Ok cm /\ vectorMap (o_host o) = Ok hm
    /\ best ∈ scores /\ (forall x, x ∈ scores -> rtt best <= rtt x)
    /\ Current next = Region (node best) /\ n = node best
    /\ (findScore scores (Current s) = None \/ sustained h o (Current s) (Region (node best))).
Proof.
  intros Hr Hs Hne Hch. destruct (stale_client s (o_client o)) eqn:Hst.
  - apply Select_ok in Hs as (_ & _ & _ & Hs). by destruct Hs; [|congruence..].
  - by apply (taken_tracked h s o n next (ran_inv _ _ Hr) (ran_tracked _ _ Hr)).
Qed.

Lemma observations_never_go_back now previous client host nodes n next :
  Select now previous client host nodes = Ok (n, next) ->
  (stale_client previous client = true -> next = previous)
  /\ (stale_client previous client = false ->
      ClientObservedAt next = ObservedAt client /\ ClientGeneration next = VectorGeneration client
      /\ (ClientObservedAt previous = 0
          \/ ClientObservedAt previous < ClientObservedAt next
          \/ (ClientObservedAt previous = ClientObservedAt next
              /\ ClientGeneration previous < ClientGeneration next))).
Proof.
  intros Hsel. apply Select_ok in Hsel as (_ & _ & _ & Hsel). split.
  - intros Hst. destruct Hsel; congruence.
  - intros Hst.
    assert (ClientObservedAt next = ObservedAt client /\ ClientGeneration next = VectorGeneration client)
      as [-> ->].
    { destruct Hsel as [| |cm hm best n next ? ? ? ? ? ? Hd]; [congruence|done|].
      revert Hd. unfold decide_switch. repeat case_match; intros; by simplify_eq. }
    split_and!; try done. revert Hst. unfold stale_client, IsZero, Before.
    rewrite andb_false_iff, orb_false_iff, andb_false_iff, negb_false_iff, Z.eqb_eq, Z.ltb_ge,
      Z.eqb_neq, Z.leb_gt. lia.
Qed.

(** Relay selection returns one of the offered nodes and a state that satisfies the
    selection invariant (valid regions, a candidate observed one to four times at least three
    seconds apart), so every later call accepts the stored state. A stale client vector leaves
    the stored state unchanged, any other moves the recorded observation strictly forward. *)
Theorem Select_preserves_state_inv now previous client host nodes n next :
  state_inv previous -> Select now previous client host nodes = Ok (n, next) ->
  n ∈ nodes /\ state_inv next
  /\ (stale_client previous client = true -> next = previous)
  /\ (stale_client previous client = false ->
      ClientObservedAt next = ObservedAt client /\ ClientGeneration next = VectorGeneration client
      /\ (ClientObservedAt previous = 0
          \/ ClientObservedAt previous < ClientObservedAt next
          \/ (ClientObservedAt previous = ClientObservedAt next
              /\ ClientGeneration previous < ClientGeneration next))).
Proof.
  intros Hinv Hsel. destruct (Select_inv _ _ _ _ _ _ _ Hinv Hsel) as [Hn Hi].
  destruct (observations_never_go_back _ _ _ _ _ _ _ Hsel) as [H1 H2]. by split_and!.
Qed.
End SelectionFacts.
