(* ===== verification/Naming.v ===== *)
(** * Public names

    src/internal/machinealias/alias.go: the alias proposed for a machine from
    its display name, and the aliases that are acceptable.
    src/internal/naming/naming.go: the three-word names of sessions and the
    public slugs of previews. *)

From S2P Require Import Prelude GoText GoHash.

(** ** Machine aliases *)

Definition reserved_names : list string :=
  ["api"; "auth"; "bugreport"; "config"; "connect"; "doctor"; "e2ee"; "exec"; "inbox"; "internal";
   "login"; "logout"; "machine"; "pb"; "ping"; "preview"; "serve"; "session"; "sessions"; "ssh";
   "status"; "transfer"; "wait"; "www"].
Definition reserved (value : string) : bool := bool_decide (value ∈ reserved_names).

Definition dash_byte : ascii := byte_of 45.
Definition is_dash (c : ascii) : bool := is_byte 45 c.
Definition alias_byte (c : ascii) : bool := is_dash c || is_lower c || is_digit c.

Fixpoint drop_while (f : ascii -> bool) (l : list ascii) : list ascii :=
  match l with
  | [] => []
  | c :: l' => if f c then drop_while f l' else l
  end.

(** [strings.TrimRight(s, "-")] and [strings.Trim(s, "-")]. *)
Definition trim_right (l : list ascii) : list ascii := rev (drop_while is_dash (rev l)).
Definition trim (l : list ascii) : list ascii := trim_right (drop_while is_dash l).

(** The loop of [normalize]; [result] is the builder. *)
Fixpoint normalize_loop (rs : list Z) (result : list ascii) (dash : bool) : list ascii :=
  match rs with
  | [] => result
  | r :: rs' =>
      let '(result, dash) :=
        if ((97 <=? r) && (r <=? 122)) || ((48 <=? r) && (r <=? 57))
        then (result ++ [byte_of r], false)
        else if (0 <? Z.of_nat (length result)) && negb dash then (result ++ [dash_byte], true)
        else (result, dash) in
      if Z.of_nat (length result) =? 63 then result else normalize_loop rs' result dash
  end.

Definition normalize (value : string) : list ascii :=
  trim (normalize_loop (runes (ToLower (TrimSpace value))) [] false).

(** The loop of [decimal]; the array has room for twenty digits. *)
Fixpoint decimal_loop (index : nat) (value : Z) (digits : list ascii) : list ascii :=
  match index with
  | O => digits
  | S n => if 0 <? value then decimal_loop n (value / 10) (byte_of (48 + value mod 10) :: digits)
           else digits
  end.
Definition decimal (value : Z) : list ascii :=
  if value <=? 0 then [byte_of 48] else decimal_loop 20 value [].

(** The base of a candidate, before it is cut to make room for the suffix. *)
Definition alias_base (displayName : string) : list ascii :=
  let base := match normalize displayName with [] => bytes_of "paperboat-machine" | b => b end in
  if reserved (of_bytes base) then base ++ bytes_of "-machine" else base.

(** [Candidate] of package machinealias. *)
Definition alias_candidate (displayName : string) (ordinal : Z) : string :=
  let base := alias_base displayName in
  let suffix := if 1 <? ordinal then dash_byte :: decimal ordinal else [] in
  let base := if Nat.ltb 63 (length base + length suffix)
              then trim_right (take (63 - length suffix) base) else base in
  of_bytes (base ++ suffix).

(** [Valid] of package machinealias. *)
Definition alias_valid (value : string) : bool :=
  negb ((value == "") || (63 <? slen value) || (value != ToLower value)
        || match bytes_of value with c :: _ => is_dash c | [] => true end
        || match last (bytes_of value) with Some c => is_dash c | None => true end
        || reserved value)
  && forallb (fun r => (r =? 45) || ((97 <=? r) && (r <=? 122)) || ((48 <=? r) && (r <=? 57)))
       (runes value).

(** ** Session names and slugs *)

Definition qualities : list string :=
  ["agile"; "alert"; "bold"; "brisk"; "bright"; "calm"; "certain"; "classic"; "clear"; "clever";
   "cool"; "crisp"; "direct"; "eager"; "easy"; "even"; "fair"; "fine"; "fluent"; "free"; "fresh";
   "gentle"; "graceful"; "grand"; "happy"; "hardy"; "honest"; "keen"; "kind"; "light"; "lively";
   "lucid"; "nimble"; "open"; "patient"; "quiet"; "ready"; "serene"; "simple"; "smooth"; "sound";
   "stable"; "steady"; "subtle"; "swift"; "trusted"; "vivid"; "warm"].
Definition atmospheres : list string :=
  ["alpine"; "amber"; "autumn"; "azure"; "blooming"; "blue"; "cloudless"; "coastal"; "coral";
   "dawn"; "dusky"; "evening"; "forest"; "glacial"; "golden"; "green"; "indigo"; "island";
   "ivory"; "jade"; "lunar"; "marine"; "meadow"; "midnight"; "misty"; "morning"; "northern";
   "ocean"; "pearl"; "polar"; "radiant"; "river"; "rosy"; "shaded"; "silver"; "solar"; "spring";
   "starlit"; "summer"; "sunlit"; "tidal"; "tranquil"; "verdant"; "violet"; "wild"; "windswept";
   "winter"; "woodland"].
Definition waypoints : list string :=
  ["anchor"; "bay"; "beacon"; "bridge"; "cape"; "channel"; "coast"; "compass"; "cove"; "creek";
   "current"; "deck"; "delta"; "dock"; "ferry"; "harbor"; "haven"; "helm"; "horizon"; "inlet";
   "island"; "journey"; "lagoon"; "lantern"; "map"; "marina"; "mast"; "ocean"; "passage"; "pier";
   "port"; "quay"; "reef"; "river"; "route"; "sail"; "shore"; "signal"; "star"; "strait";
   "summit"; "tide"; "trail"; "vessel"; "voyage"; "wake"; "waypoint"; "wharf"].

Definition word (l : list string) (i : Z) : string := nth (Z.to_nat i) l "".

(** [int(ordinal-1) * 7919] fits the 64-bit [int]; the three lists have 48
    words each. *)
Definition Session (ordinal : Z) : string :=
  let ordinal := if ordinal <? 1 then 1 else ordinal in
  let q := Z.of_nat (length qualities) in
  let a := Z.of_nat (length atmospheres) in
  let w := Z.of_nat (length waypoints) in
  let index := ((ordinal - 1) * 7919) mod (q * a * w) in
  word qualities ((index / (a * w)) mod q) +:+ "-" +:+
  word atmospheres ((index / w) mod a) +:+ "-" +:+
  word waypoints (index mod w).

(** [binary.BigEndian.Uint16] of two bytes of the digest. *)
Definition uint16_at (digest : list Z) (i : nat) : Z := nth i digest 0 * 256 + nth (S i) digest 0.

(** [%04d] *)
Definition pad4 (n : Z) : string :=
  let d := Itoa n in
  (if n <? 10 then "000" else if n <? 100 then "00" else if n <? 1000 then "0" else "") +:+ d.

Definition PublicSlug (identity : string) : string :=
  let digest := Sum256 ("paperboat-preview:" +:+ identity) in
  word qualities (uint16_at digest 0 mod Z.of_nat (length qualities)) +:+ "-" +:+
  word atmospheres (uint16_at digest 2 mod Z.of_nat (length atmospheres)) +:+ "-" +:+
  word waypoints (uint16_at digest 4 mod Z.of_nat (length waypoints)) +:+ "-" +:+
  pad4 (uint16_at digest 6 mod 10000).

(** ** Aliases are valid *)

Lemma alias_byte_ascii c : alias_byte c = true -> is_ascii c.
Proof.
  pose proof (code_range c).
  unfold is_ascii, alias_byte, is_dash, is_byte, is_lower, is_digit, between.
  rewrite !orb_true_iff, !andb_true_iff, Z.eqb_eq, !Z.leb_le. lia.
Qed.

Lemma alias_byte_rune c :
  alias_byte c = true ->
  (code c =? 45) || ((97 <=? code c) && (code c <=? 122)) || ((48 <=? code c) && (code c <=? 57)) = true
  /\ lower_rune (code c) = code c.
Proof.
  unfold alias_byte, is_dash, is_byte, is_lower, is_digit, between, lower_rune. intros H.
  split; [done|]. rewrite !orb_true_iff, !andb_true_iff, Z.eqb_eq, !Z.leb_le in H.
  repeat case_match; bool_prop; lia.
Qed.

(** The bytes of an alias: as many as allowed, no dash at either end. *)
Record alias_bytes (l : list ascii) : Prop := {
  alias_chars : Forall (fun c => alias_byte c = true) l;
  alias_length : (0 < length l <= 63)%nat;
  alias_head : forall c l', l = c :: l' -> is_dash c = false;
  alias_last : forall c, last l = Some c -> is_dash c = false;
}.

Lemma alias_bytes_valid l :
  alias_bytes l -> reserved (of_bytes l) = false -> alias_valid (of_bytes l) = true.
Proof.
  intros [Hc Hl Hh Ht] Hr.
  assert (Forall is_ascii l) as Ha by (eapply Forall_impl; [exact Hc|]; apply alias_byte_ascii).
  assert (runes (of_bytes l) = code <$> l) as Hrunes by by apply runes_ascii.
  assert (ToLower (of_bytes l) = of_bytes l) as Hlow.
  { apply ToLower_ascii; [done|]. eapply Forall_impl; [exact Hc|]. intros c Hb. by apply alias_byte_rune. }
  unfold alias_valid. rewrite Hr, Hlow, Hrunes.
  rewrite (bool_decide_eq_true_2 (of_bytes l = of_bytes l)) by done.
  unfold slen. rewrite length_of_bytes, bytes_of_of_bytes, orb_false_r.
  rewrite (bool_decide_eq_false_2 (of_bytes l = "")).
  2: { destruct l; simpl in *; [lia|done]. }
  rewrite (proj2 (Z.ltb_ge _ _)) by lia.
  destruct l as [|c l']; [simpl in *; lia|]. rewrite (Hh c l' eq_refl).
  destruct (last (c :: l')) as [z|] eqn:E; [|by apply last_None in E]. rewrite (Ht z eq_refl).
  cbn [negb orb andb]. apply forallb_forall. intros r Hin.
  apply list_elem_of_In, list_elem_of_fmap in Hin as (x & -> & Hx).
  rewrite Forall_forall in Hc. by apply alias_byte_rune, Hc.
Qed.

(** *** Trimming *)

Lemma drop_while_suffix f l : exists k, l = k ++ drop_while f l /\ Forall (fun c => f c = true) k.
Proof.
  induction l as [|c l (k & Hk & Hf)]; simpl; [by exists []|]. destruct (f c) eqn:E.
  - exists (c :: k). rewrite Hk at 1. split; [done|by constructor].
  - by exists [].
Qed.

Lemma drop_while_head f l c l' : drop_while f l = c :: l' -> f c = false.
Proof.
  induction l as [|x l IH]; simpl; [done|]. destruct (f x) eqn:E; [done|]. intros [= <- _]. done.
Qed.

Lemma trim_right_prefix l : exists k, l = trim_right l ++ k /\ Forall (fun c => is_dash c = true) k.
Proof.
  unfold trim_right. destruct (drop_while_suffix is_dash (rev l)) as (k & Hk & Hf).
  exists (rev k). rewrite <- rev_app_distr, <- Hk, rev_involutive. split; [done|].
  rewrite Forall_forall in *. intros c Hc. apply Hf. by rewrite list_elem_of_In, in_rev, <- list_elem_of_In.
Qed.

Lemma trim_right_last l c : last (trim_right l) = Some c -> is_dash c = false.
Proof.
  unfold trim_right. destruct (drop_while is_dash (rev l)) as [|x r] eqn:E; [done|].
  simpl. rewrite last_snoc. intros [= <-]. by apply drop_while_head in E.
Qed.

(** Dropping dashes from the right of bytes that do not start with one. *)
Lemma trim_right_alias l :
  Forall (fun c => alias_byte c = true) l -> (0 < length l <= 63)%nat ->
  (forall c l', l = c :: l' -> is_dash c = false) -> alias_bytes (trim_right l).
Proof.
  intros Hf Hl Hh. destruct (trim_right_prefix l) as (k & Hk & Hd).
  destruct (trim_right l) as [|c t] eqn:E.
  - destruct l as [|c l']; simpl in *; [lia|]. rewrite <- Hk in Hd.
    inversion Hd; subst. by rewrite (Hh c l' eq_refl) in *.
  - rewrite Hk in Hf, Hl. apply Forall_app in Hf as [Hf _]. rewrite length_app in Hl.
    constructor; [done|simpl in *; lia| |].
    + intros c' l' [= -> ->]. by eapply Hh.
    + rewrite <- E. apply trim_right_last.
Qed.

(** *** [normalize] and [decimal] *)

Lemma normalize_loop_ok rs result dash :
  Forall (fun c => alias_byte c = true) result -> (length result < 63)%nat ->
  Forall (fun c => alias_byte c = true) (normalize_loop rs result dash)
  /\ (length (normalize_loop rs result dash) <= 63)%nat.
Proof.
  revert result dash. induction rs as [|r rs IH]; intros result dash Hf Hl; simpl; [split; [done|lia]|].
  set (p := if _ : bool then (result ++ [byte_of r], false) else _).
  assert (Forall (fun c => alias_byte c = true) (fst p) /\ (length (fst p) <= 63)%nat) as [Hp Hpl].
  { unfold p. repeat case_match; cbn [fst]; rewrite ?length_app; simpl; (split; [|lia]); try done.
    - apply Forall_app. split; [done|]. constructor; [|done].
      match goal with H : (_ || _)%bool = true |- _ => revert H end.
      rewrite orb_true_iff, !andb_true_iff, !Z.leb_le. intros Hr.
      unfold alias_byte, is_dash, is_byte, is_lower, is_digit, between.
      rewrite code_byte_of by lia.
      rewrite !orb_true_iff, !andb_true_iff, Z.eqb_eq, !Z.leb_le. lia.
    - apply Forall_app. split; [done|]. by constructor. }
  destruct p as [result' dash']. simpl in *. case_match; bool_prop; [done|]. apply IH; [done|lia].
Qed.

Lemma normalize_ok value : normalize value = [] \/ alias_bytes (normalize value).
Proof.
  unfold normalize, trim.
  destruct (normalize_loop_ok (runes (ToLower (TrimSpace value))) [] false) as [Hf Hl];
    [done|simpl; lia|].
  set (l := normalize_loop _ _ _) in *.
  destruct (drop_while_suffix is_dash l) as (k & Hk & _).
  rewrite Hk in Hf, Hl. apply Forall_app in Hf as [_ Hf]. rewrite length_app in Hl.
  destruct (drop_while is_dash l) as [|c t] eqn:E; [by left|]. right.
  apply trim_right_alias; [done|simpl in *; lia|]. intros c' l' [= <- <-].
  by apply drop_while_head in E.
Qed.

Lemma digit_alias c : is_digit c = true -> alias_byte c = true /\ is_dash c = false.
Proof.
  unfold alias_byte, is_dash, is_byte, is_digit, between. rewrite andb_true_iff, !Z.leb_le. intros H.
  split; [rewrite !orb_true_iff, !andb_true_iff, !Z.leb_le; lia|apply Z.eqb_neq; lia].
Qed.

Lemma decimal_loop_ok n value digits :
  Forall (fun c => is_digit c = true) digits ->
  Forall (fun c => is_digit c = true) (decimal_loop n value digits)
  /\ (length digits <= length (decimal_loop n value digits) <= n + length digits)%nat.
Proof.
  revert value digits. induction n as [|n IH]; intros value digits Hd; simpl; [split; [done|lia]|].
  case_match; bool_prop; [|split; [done|lia]].
  destruct (IH (value / 10) (byte_of (48 + value mod 10) :: digits)) as [H1 H2].
  { constructor; [|done]. unfold is_digit, between.
    pose proof (Z.mod_pos_bound value 10). rewrite code_byte_of by lia.
    rewrite andb_true_iff, !Z.leb_le. lia. }
  simpl in H2. split; [done|lia].
Qed.

Lemma decimal_loop_pos n value digits :
  0 < value -> Forall (fun c => is_digit c = true) digits ->
  (length digits < length (decimal_loop (S n) value digits))%nat.
Proof.
  intros Hv Hd. cbn [decimal_loop]. rewrite (proj2 (Z.ltb_lt _ _)) by done.
  destruct (decimal_loop_ok n (value / 10) (byte_of (48 + value mod 10) :: digits)) as [_ Hl];
    [|cbn [length] in Hl; lia].
  constructor; [|done]. unfold is_digit, between. pose proof (Z.mod_pos_bound value 10).
  rewrite code_byte_of by lia. rewrite andb_true_iff, !Z.leb_le. lia.
Qed.

Lemma decimal_ok v :
  Forall (fun c => is_digit c = true) (decimal v) /\ (0 < length (decimal v) <= 20)%nat.
Proof.
  unfold decimal. case_match; bool_prop; [repeat constructor|].
  destruct (decimal_loop_ok 20 v []) as [H1 [_ H2]]; [done|].
  pose proof (decimal_loop_pos 19 v []) as H3. rewrite Nat.add_0_r in H2.
  split; [done|]. split; [by apply H3|done].
Qed.

(** *** The reserved names *)

Lemma reserved_bytes l :
  reserved (of_bytes l) = true -> (length l <= 9)%nat /\ dash_byte ∉ l.
Proof.
  unfold reserved. rewrite bool_decide_eq_true. intros Hin.
  assert (Forall (fun s => (length (bytes_of s) <= 9)%nat /\ dash_byte ∉ bytes_of s) reserved_names) as Hall.
  { apply (bool_decide_unpack _). vm_compute. done. }
  rewrite Forall_forall in Hall. specialize (Hall _ Hin). by rewrite bytes_of_of_bytes in Hall.
Qed.

(** *** The candidate is a valid alias *)

Lemma default_alias : alias_bytes (bytes_of "paperboat-machine").
Proof.
  split; [by repeat constructor|simpl; lia| |].
  - intros c l' [= <- _]. done.
  - intros c [= <-]. done.
Qed.

Lemma alias_append l k :
  alias_bytes l -> Forall (fun c => alias_byte c = true) k -> (length l + length k <= 63)%nat ->
  (forall c, last k = Some c -> is_dash c = false) -> alias_bytes (l ++ k).
Proof.
  intros [Hc Hl Hh Ht] Hk Hlen Hlast. constructor.
  - by apply Forall_app.
  - rewrite length_app. lia.
  - destruct l as [|x l]; [simpl in *; lia|]. intros c l' [= <- _]. by eapply Hh.
  - intros c. rewrite last_app. destruct (last k) eqn:E; [|by apply Ht].
    intros [= ->]. by apply Hlast.
Qed.

Lemma alias_base_ok name :
  alias_bytes (alias_base name) /\ reserved (of_bytes (alias_base name)) = false.
Proof.
  unfold alias_base. set (base := match normalize name with [] => _ | b => b end).
  assert (alias_bytes base) as Hb.
  { unfold base. destruct (normalize_ok name) as [->|H]; [apply default_alias|].
    destruct (normalize name); [apply default_alias|done]. }
  destruct (reserved (of_bytes base)) eqn:E; [|done].
  apply reserved_bytes in E as [Hlen Hd]. split.
  - apply alias_append; [done|by repeat constructor|simpl; lia|]. by intros c [= <-].
  - destruct (reserved _) eqn:E'; [|done]. apply reserved_bytes in E' as [_ Hd'].
    exfalso. apply Hd'. apply elem_of_app. right. left.
Qed.

Lemma last_digits v c : last (dash_byte :: decimal v) = Some c -> is_digit c = true.
Proof.
  destruct (decimal_ok v) as [Hd [Hl _]]. destruct (decimal v) as [|d l]; [simpl in *; lia|].
  rewrite last_cons_cons. intros Hc. rewrite Forall_forall in Hd. apply Hd.
  rewrite last_lookup in Hc. by eapply list_elem_of_lookup_2.
Qed.

Lemma alias_candidate_valid displayName ordinal :
  alias_valid (alias_candidate displayName ordinal) = true.
Proof.
  destruct (alias_base_ok displayName) as [Hb Hr]. unfold alias_candidate.
  set (base := alias_base displayName) in *. pose proof (alias_length _ Hb) as Hlen.
  destruct (1 <? ordinal) eqn:Ho.
  2: { cbn [length]. rewrite Nat.add_0_r, (proj2 (Nat.ltb_ge _ _)), app_nil_r by lia. by apply alias_bytes_valid. }
  destruct (decimal_ok ordinal) as [Hd [Hd1 Hd2]].
  assert (alias_bytes (if Nat.ltb 63 (length base + length (dash_byte :: decimal ordinal))
    then trim_right (take (63 - length (dash_byte :: decimal ordinal)) base) else base)
    /\ (length (if Nat.ltb 63 (length base + length (dash_byte :: decimal ordinal))
      then trim_right (take (63 - length (dash_byte :: decimal ordinal)) base) else base)
      + length (dash_byte :: decimal ordinal) <= 63)%nat) as [Ht Htl].
  { cbn [length]. destruct (Nat.ltb_spec 63 (length base + S (length (decimal ordinal)))) as [Hlt|Hle];
      [|split; [done|lia]].
    destruct (trim_right_prefix (take (63 - S (length (decimal ordinal))) base)) as (k & Hk & _).
    apply (f_equal length) in Hk. rewrite length_app, length_take in Hk. split; [|lia].
    apply trim_right_alias.
    - apply Forall_take, Hb.
    - rewrite length_take. lia.
    - intros c l' E. destruct base as [|b base']; [simpl in *; lia|].
      destruct (63 - S (length (decimal ordinal)))%nat eqn:En; [lia|]. simpl in E. simplify_eq.
      by eapply (alias_head _ Hb). }
  set (t := if Nat.ltb _ _ then _ else _) in *. apply alias_bytes_valid.
  - apply alias_append; [exact Ht| |exact Htl|].
    + constructor; [done|]. eapply Forall_impl; [exact Hd|]. intros c Hc. by apply digit_alias.
    + intros c Hc. by apply digit_alias, (last_digits ordinal).
  - apply not_true_is_false. intros [_ Hn]%reserved_bytes. apply Hn, elem_of_app. right. left.
Qed.

(** *** Different ordinals give different aliases *)

(** The value of a list of digits. *)
Definition digits_value (l : list ascii) : Z := fold_left (fun acc c => acc * 10 + (code c - 48)) l 0.

Lemma decimal_loop_value n value digits :
  0 <= value < 10 ^ Z.of_nat n ->
  exists k, decimal_loop n value digits = k ++ digits /\ digits_value k = value.
Proof.
  revert value digits. induction n as [|n IH]; intros value digits Hv.
  - exists []. split; [done|]. unfold digits_value. simpl in *. lia.
  - cbn [decimal_loop]. case_match; bool_prop; [|exists []; split; [done|unfold digits_value; simpl; lia]].
    destruct (IH (value / 10) (byte_of (48 + value mod 10) :: digits)) as (k & -> & Hk).
    { rewrite Nat2Z.inj_succ, Z.pow_succ_r in Hv by lia. split; [divmod|].
      apply Z.div_lt_upper_bound; lia. }
    exists (k ++ [byte_of (48 + value mod 10)]). rewrite <- app_assoc. split; [done|].
    unfold digits_value in *. rewrite fold_left_app, Hk. simpl.
    pose proof (Z.mod_pos_bound value 10). rewrite code_byte_of by lia. divmod.
Qed.

Lemma decimal_value v : 0 < v <= max_int64 -> digits_value (decimal v) = v.
Proof.
  intros Hv. unfold decimal. rewrite (proj2 (Z.leb_gt _ _)) by lia.
  destruct (decimal_loop_value 20 v []) as (k & -> & Hk); [|by rewrite app_nil_r].
  unfold max_int64 in Hv. lia.
Qed.

(** A list is cut at its last dash in one way. *)
Lemma split_last_dash l1 l2 k1 k2 :
  Forall (fun c => is_dash c = false) k1 -> Forall (fun c => is_dash c = false) k2 ->
  l1 ++ dash_byte :: k1 = l2 ++ dash_byte :: k2 -> k1 = k2.
Proof.
  intros H1 H2. revert l2. induction l1 as [|a l1 IH]; intros [|b l2] E; simpl in E; simplify_eq; eauto.
  - apply Forall_app in H1 as [_ H1]. by inversion H1.
  - apply Forall_app in H2 as [_ H2]. by inversion H2.
Qed.

Lemma of_bytes_inj l1 l2 : of_bytes l1 = of_bytes l2 -> l1 = l2.
Proof. intros H. by rewrite <- (bytes_of_of_bytes l1), <- (bytes_of_of_bytes l2), H. Qed.

Lemma alias_ordinals_differ name name' i j :
  1 < i <= max_int64 -> 1 < j <= max_int64 ->
  alias_candidate name i = alias_candidate name' j -> i = j.
Proof.
  intros Hi Hj E. unfold alias_candidate in E.
  rewrite !(proj2 (Z.ltb_lt _ _)) in E by lia. apply of_bytes_inj, split_last_dash in E.
  - rewrite <- (decimal_value i), <- (decimal_value j) by lia. by rewrite E.
  - eapply Forall_impl; [apply decimal_ok|]. intros c Hc. by apply digit_alias.
  - eapply Forall_impl; [apply decimal_ok|]. intros c Hc. by apply digit_alias.
Qed.

(** Every alias candidate is a valid alias, for every display name and ordinal, and
    candidates with different ordinals above one are different, whatever display names they were
    made from, so retrying with the next ordinal always proposes a new alias. *)
Theorem alias_candidates_valid_and_distinct name i :
  alias_valid (alias_candidate name i) = true
  /\ forall name' j, 1 < i <= max_int64 -> 1 < j <= max_int64 ->
       alias_candidate name i = alias_candidate name' j -> i = j.
Proof. split; [apply alias_candidate_valid|]. intros name' j. apply alias_ordinals_differ. Qed.

(** ** Session names *)

Definition no_dash (s : string) : bool := all_bytes (fun c => negb (is_dash c)) s.

(** A string is cut at its first dash in one way. *)
Lemma split_first_dash a b s t :
  no_dash a = true -> no_dash b = true -> a +:+ "-" +:+ s = b +:+ "-" +:+ t -> a = b /\ s = t.
Proof.
  unfold no_dash. revert b. induction a as [|c a IH]; intros [|d b] Ha Hb; autorewrite with sapp; simpl in *; bool_prop;
    intros E; simplify_eq; try done.
  assert (a = b /\ s = t) as [-> ->]; [|done]. by apply IH.
Qed.

(** The vocabulary: 48 different words a list, none with a dash. *)
Definition vocabulary (l : list string) : Prop :=
  length l = 48%nat /\ NoDup l /\ Forall (fun w => no_dash w = true) l.

Lemma qualities_ok : vocabulary qualities.
Proof. split_and!; [done|apply (bool_decide_unpack _); by vm_compute..]. Qed.
Lemma atmospheres_ok : vocabulary atmospheres.
Proof. split_and!; [done|apply (bool_decide_unpack _); by vm_compute..]. Qed.
Lemma waypoints_ok : vocabulary waypoints.
Proof. split_and!; [done|apply (bool_decide_unpack _); by vm_compute..]. Qed.

Lemma word_lookup l i : vocabulary l -> 0 <= i < 48 -> l !! Z.to_nat i = Some (word l i).
Proof.
  intros (Hl & _) Hi. unfold word. rewrite nth_lookup.
  destruct (lookup_lt_is_Some_2 l (Z.to_nat i)) as [w ->]; [lia|done].
Qed.

Lemma word_no_dash l i : vocabulary l -> 0 <= i < 48 -> no_dash (word l i) = true.
Proof.
  intros Hv Hi. pose proof (word_lookup l i Hv Hi) as Hw. destruct Hv as (_ & _ & Hf).
  rewrite Forall_lookup in Hf. by eapply Hf.
Qed.

Lemma word_inj l i j : vocabulary l -> 0 <= i < 48 -> 0 <= j < 48 -> word l i = word l j -> i = j.
Proof.
  intros Hv Hi Hj E. pose proof (word_lookup l i Hv Hi) as H1. pose proof (word_lookup l j Hv Hj) as H2.
  rewrite E in H1. destruct Hv as (_ & Hn & _).
  pose proof (proj1 (NoDup_alt l) Hn _ _ _ H1 H2). lia.
Qed.

(** The name of a vocabulary index determines it. *)
Definition name_of (index : Z) : string :=
  word qualities (index / 2304 mod 48) +:+ "-" +:+ word atmospheres (index / 48 mod 48) +:+ "-" +:+
  word waypoints (index mod 48).

Lemma name_of_inj i j : 0 <= i < 110592 -> 0 <= j < 110592 -> name_of i = name_of j -> i = j.
Proof.
  intros Hi Hj E. unfold name_of in E.
  assert (forall x, 0 <= x mod 48 < 48) as Hm by (intros; apply Z.mod_pos_bound; lia).
  apply split_first_dash in E as [E1 E]; [|apply word_no_dash; [apply qualities_ok|apply Hm]..].
  apply split_first_dash in E as [E2 E3]; [|apply word_no_dash; [apply atmospheres_ok|apply Hm]..].
  apply word_inj in E1; [|apply qualities_ok|apply Hm|apply Hm].
  apply word_inj in E2; [|apply atmospheres_ok|apply Hm|apply Hm].
  apply word_inj in E3; [|apply waypoints_ok|apply Hm|apply Hm].
  divmod.
Qed.

Lemma Session_name ordinal : 1 <= ordinal -> Session ordinal = name_of ((ordinal - 1) * 7919 mod 110592).
Proof. intros H. unfold Session. by rewrite (proj2 (Z.ltb_ge _ _)) by lia. Qed.

(** The generated session names of two ordinals are equal exactly when the ordinals differ
    by a multiple of 110592, the number of word combinations: every combination is used before a
    name repeats. *)
Theorem Session_names_cycle i j :
  1 <= i -> 1 <= j -> Session i = Session j <-> (i - j) mod 110592 = 0.
Proof.
  intros Hi Hj. rewrite !Session_name by done. split.
  - intros E. apply name_of_inj in E; [|apply Z.mod_pos_bound; lia..].
    assert (((i - j) * 7919) mod 110592 = 0) as H.
    { replace ((i - j) * 7919) with ((i - 1) * 7919 - (j - 1) * 7919) by lia.
      rewrite Zminus_mod, E, Z.sub_diag. done. }
    replace (i - j) with (81935 * ((i - j) * 7919) - 110592 * (5867 * (i - j))) by lia.
    rewrite Zminus_mod, Zmult_mod, H. rewrite (Z.mul_comm 110592), Z_mod_mult. done.
  - intros H. f_equal.
    replace ((i - 1) * 7919) with ((j - 1) * 7919 + (i - j) * 7919) by lia.
    rewrite Zplus_mod, (Zmult_mod (i - j)), H, Z.mul_0_l, Z.add_0_r, !Z.mod_mod by lia. done.
Qed.
