(* ===== verification/Scenario.v ===== *)
(** * A concrete session

    One connector, one tunnel and two configuration generations, with the
    messages a session exchanges: the inputs at which the properties of the
    protocol are evaluated. *)
From S2P Require Import Prelude GoText GoHash GoUrl GoJson Errors Canonical Identifiers WireConfig.
From S2P Require Import Messages Registry ServerSession.
Import ServerSession.

(** JSON text is written with apostrophes for its double quotes. *)
Fixpoint json_text (s : string) : string :=
  match s with
  | String c s' => String (if is_byte 39 c then byte_of 34 else c) (json_text s')
  | EmptyString => ""
  end.

Definition config_text (generation : string) : string := json_text
  ("{'schema':'paperboat.preview-tunnel/v1','kind':'tunnel_config_snapshot','tunnel_id':'tun-1',"
   +:+ "'generation':" +:+ generation +:+ ",'name':'demo','desired_state':'active','access_mode':'public',"
   +:+ "'stable_endpoint':'https://demo.paperboat.dev','expires_at':null,'routes':[{'id':'r1',"
   +:+ "'name':'web','protocol':'http','match_type':'catch_all','path_prefix':null,"
   +:+ "'origin_scheme':'http','origin_address':'127.0.0.1:3000','preserve_host':true,"
   +:+ "'host_override':null,'tls_verification':'not_applicable','tls_server_name':null,"
   +:+ "'ca_reference':null,'mtls_credential_reference':null,'connect_timeout_ms':1000,"
   +:+ "'idle_timeout_ms':60000,'max_concurrent_streams':100,'desired_state':'active'}]}").

Definition from_res {A} (d : A) (r : Res A) : A := match r with Ok a => a | Err _ => d end.

(** The canonical snapshots of generations 1 and 2 (computed once). *)
Definition config1 : Snapshot :=
  Eval vm_compute in from_res Snapshot.zero (NewSnapshot "tun-1" 1 (config_text "1")).
Definition config2 : Snapshot :=
  Eval vm_compute in from_res Snapshot.zero (NewSnapshot "tun-1" 2 (config_text "2")).
Definition delta2 : Delta :=
  Eval vm_compute in from_res Delta.zero (NewDelta "tun-1" config1 2 (config_text "2")).

Definition noon : time := 63900000000 * Second.
Definition at_s (n : Z) : time := noon + n * Second.

Definition thumbprint : string := "0123456789abcdefghijklmnopqrstuvwxyzABCDEFG".
Definition request1 : AuthRequest :=
  AuthRequest.mk "acct" "tun-1" "conn-1" "host-1" ("ed25519:" +:+ thumbprint) thumbprint 7 1
    "nonce-0123456789" "c2lnbmF0dXJlLW9mLXRoZS1jb25uZWN0b3I" noon (at_s 300).
Definition hello1 : Hello :=
  Hello.mk ProtocolName "1.0" "1.0" "acct" "tun-1" "conn-1" "host-1" 7 ProductionCapabilities request1.
Definition grant1 : AuthResult :=
  AuthResult.mk "acct" "tun-1" "conn-1" "" "host-1" ("ed25519:" +:+ thumbprint) thumbprint 7 1
    (at_s 3600) (at_s 3600).

Definition background : Context := LiveContext None.
Definition server1 : ServerConfig :=
  Eval vm_compute in
    from_res (mkServerConfig [] 0 0) (NewServer true true (mkServerConfig ProductionCapabilities 0 0)).
Definition accept1 := Accept (fun _ => Ok grant1) (fun _ => Ok config1) (Ok "sess-1") server1 background noon hello1.

(** The session after [Accept], and the registry that holds it. *)
Definition no_session : ServerSession :=
  ServerSession.mk server1 SessionRef.zero AuthResult.zero Lease.zero Welcome.zero None None
    Snapshot.zero false Snapshot.zero false 0 false SessionNew 0 0 None "" "" false "".
Definition session1 : ServerSession :=
  Eval vm_compute in
    match fst (accept1 ∅) with Ok (s, _, _) => s | Err _ => no_session end.
Definition registry1 : SessionRegistry := {["conn-1" := SessionRef.mk "tun-1" "conn-1" "sess-1" 7]}.
Definition start : SrvState := mkSrv registry1 session1.

Definition ack_of (kind : AckKind) (status : AckStatus) (c : Snapshot) : Ack :=
  Ack.mk "acct" "tun-1" "conn-1" "sess-1" 7 kind status (Snapshot.Generation c) (Snapshot.ContentHash c) "".
Definition ready_of (c : Snapshot) : Readiness :=
  Readiness.mk "acct" "sess-1" "tun-1" "conn-1" 7 (Snapshot.Generation c) (Snapshot.ContentHash c)
    true true true.
Definition beat_of (c : Snapshot) (sentAt : time) : Heartbeat :=
  Heartbeat.mk "acct" "sess-1" "tun-1" "conn-1" 7 (Snapshot.Generation c) (Snapshot.ContentHash c) sentAt.

(** The session after the connector applied generation 1, and once it is ready. *)
Definition acked_session : ServerSession :=
  Eval vm_compute in sess (snd (HandleAck background (at_s 1) (ack_of AckSnapshot AckApplied config1) start)).
Definition acked : SrvState := mkSrv registry1 acked_session.
Definition ready_session : ServerSession :=
  Eval vm_compute in sess (snd (HandleReadiness background (at_s 2) (ready_of config1) acked)).
Definition ready : SrvState := mkSrv registry1 ready_session.
(** The drain of that session, and generation 2 offered, applied and staged. *)
Definition draining_session : ServerSession :=
  Eval vm_compute in sess (snd (BeginDrain background (at_s 4) (at_s 4) "drain-1" (at_s 60) false ready)).
Definition draining : SrvState := mkSrv registry1 draining_session.
Definition offered_session : ServerSession :=
  Eval vm_compute in sess (snd (OfferDelta background (at_s 3) delta2 ready)).
Definition offered : SrvState := mkSrv registry1 offered_session.
Definition staged_session : ServerSession :=
  Eval vm_compute in sess (snd (HandleAck background (at_s 4) (ack_of AckDelta AckApplied config2) offered)).
Definition staged : SrvState := mkSrv registry1 staged_session.

Example scenario_runs :
  state (sess start) = SessionAwaitingSnapshot /\ state (sess acked) = SessionAwaitingReady
  /\ state (sess ready) = SessionReady /\ state (sess draining) = SessionDraining
  /\ hasCandidate (sess staged) = true /\ ok (Delta_Validate delta2) = true.
Proof. by vm_compute. Qed.
