(* ===== verification/ClientWitnesses.v ===== *)
(** * The connector properties on a concrete session

    The connector end of the session of [Scenario]: it accepts the welcome,
    stages and activates generation 1, and is asked to drain. *)
From S2P Require Import Prelude GoText GoHash GoUrl GoJson Errors Canonical Identifiers WireConfig.
From S2P Require Import Messages Registry ServerSession ClientSession ClientSafety Scenario.
Import ClientSession.

Definition no_abort_error (h : Handle) : option goerror := None.
Definition cfg1 : ClientSessionConfig := mkClientSessionConfig hello1 0 0.
Definition fresh_client : ClientSession :=
  ClientSession.mk (mkClientSessionConfig hello1 DefaultApplyTimeout DefaultAbortTimeout) Welcome.zero
    SessionNew Lease.zero request1 Snapshot.zero false Snapshot.zero
    false None false 0 0 None "" "" false 0 "".

(** The snapshot as the server binds it. *)
Definition bound1 : Snapshot := bindSnapshot config1 "acct" "conn-1" "sess-1" 7.
Definition handle1 : PrepareReply := mkPrepareReply (Some 1%nat) None None None.

Definition welcomed : CliWorld :=
  mkCliWorld (run_call (CliAcceptWelcome noon noon (ServerSession.welcome session1)) (cw (cli_init fresh_client))) None.
Definition staged1 : CliWorld :=
  mkCliWorld (snd (ApplySnapshotFinish no_abort_error handle1 (at_s 1) bound1 (cw welcomed))) None.
Definition rd1 : Readiness := ready_of config1.
Definition activating : CliWorld := mkCliWorld (cw staged1) (Some (Activating 1%nat bound1 rd1)).
Definition ready1 : CliWorld :=
  mkCliWorld (snd (MarkReadyFinish no_abort_error None None (at_s 3) 1%nat bound1 rd1 (cw activating))) None.

Lemma fresh_client_new : NewClientSession cfg1 noon = Ok fresh_client.
Proof. by vm_compute. Qed.

Lemma welcomed_reachable : cli_reachable no_abort_error welcomed.
Proof.
  exists cfg1, noon, fresh_client. split; [apply fresh_client_new|].
  eapply rtc_l; [apply c_call|apply rtc_refl].
Qed.

Lemma reachable_step w w' :
  cli_reachable no_abort_error w -> cstep no_abort_error w w' -> cli_reachable no_abort_error w'.
Proof. intros (c & n & f & ? & ?) ?. exists c, n, f. eauto using rtc_r. Qed.

Lemma staged1_reachable : cli_reachable no_abort_error staged1.
Proof.
  eapply reachable_step; [eapply reachable_step; [apply welcomed_reachable|]|].
  - apply (c_snapshot_begin no_abort_error welcomed background (at_s 1) bound1 (Ok Proceed) (cw welcomed));
      [done|]. by vm_compute.
  - apply (c_snapshot_finish no_abort_error (mkCliWorld (cw welcomed) (Some (PreparingSnapshot bound1)))
             handle1 (at_s 1) bound1); [done|]. intros h _. apply not_elem_of_nil.
Qed.

Lemma ready1_step : cstep no_abort_error activating ready1.
Proof. by apply (c_ready_finish no_abort_error activating None None (at_s 3) 1%nat bound1 rd1). Qed.

Lemma activating_reachable : cli_reachable no_abort_error activating.
Proof.
  eapply reachable_step; [apply staged1_reachable|].
  apply (c_ready_begin no_abort_error staged1 background (at_s 2) true true true
           (Ok (1%nat, bound1, rd1)) (cw staged1)); [done|]. by vm_compute.
Qed.

Lemma handles_are_accounted_for_witness :
  let st := cw ready1 in
  opened st ≡ₚ aborted st ++ promoted st ++ option_list (prepared (cli st)).
Proof.
  apply (handles_are_accounted_for no_abort_error ready1).
  eapply reachable_step; [apply activating_reachable|apply ready1_step].
Defined.

Lemma close_releases_every_handle_witness :
  let st' := snd (Client_Close no_abort_error ReasonServerShutdown (cw staged1)) in
  prepared (cli (cw staged1)) = Some 1%nat /\ prepared (cli st') = None /\ aborted st' = [1%nat].
Proof.
  destruct (close_releases_every_handle no_abort_error staged1 ReasonServerShutdown) as (_ & _ & H & _);
    [apply staged1_reachable|done|by vm_compute|by vm_compute|].
  split; [by vm_compute|]. split; [exact H|by vm_compute].
Defined.

Lemma client_active_moves_forward_witness :
  active_moves activating ready1 /\ Snapshot.Generation (active (cli (cw ready1))) = 1.
Proof.
  split; [|by vm_compute].
  apply (client_active_moves_forward no_abort_error activating ready1 activating_reachable ready1_step).
Defined.

(** ** The drain that outlives the session *)
Definition drain1 : Drain :=
  Drain.mk "acct" "tun-1" "conn-1" "sess-1" 7 "drain-1" 1 (Snapshot.ContentHash config1) (at_s 60) true false.

(** The drain began, the session was closed while the runtime was stopping
    its streams, and the runtime then refused. *)
Definition closed_in_drain : CliState :=
  snd (Client_Close no_abort_error ReasonServerShutdown
         (run_call (CliHandleDrainBegin background (at_s 4) drain1) (cw ready1))).

Lemma refused_drain_reopens_closed_session_witness :
  state (cli closed_in_drain) = SessionClosed
  /\ state (cli (snd (HandleDrainFinish (Some (OtherError "busy")) 0 None drain1 closed_in_drain)))
     = SessionReady.
Proof.
  split; [by vm_compute|].
  apply (refused_drain_reopens_closed_session (OtherError "busy") 0 None drain1 closed_in_drain drain1);
    by vm_compute.
Defined.
