(* ===== verification/ServerWitnesses.v ===== *)
(** * The server at concrete sessions

    First an older offer that rolls the active configuration back: [OfferSnapshot] compares the offered generation with the active one only.
    The run below offers generation 3, stages it, offers generation 2 while 3 is
    staged, promotes 3 and then follows the acknowledgement and the readiness
    report of generation 2: the active generation goes from 3 to 2.  It is the
    history that the hypothesis of [active_generation_never_regresses] excludes. *)
From S2P Require Import Prelude GoText GoHash GoUrl GoJson Errors Canonical Identifiers WireConfig Messages Registry.
From S2P Require Import ServerSession ServerSafety Scenario.
Import ServerSession.

Definition config3 : Snapshot :=
  Eval vm_compute in from_res Snapshot.zero (NewSnapshot "tun-1" 3 (config_text "3")).

Definition run_calls (calls : list Call) (st : SrvState) : SrvState :=
  fold_left (fun st c => snd (exec c st)) calls st.

Definition promote_newest : list Call :=
  [CallOfferSnapshot background (at_s 3) config3;
   CallHandleAck background (at_s 3) (ack_of AckSnapshot AckApplied config3);
   CallOfferSnapshot background (at_s 4) config2;
   CallHandleReadiness background (at_s 4) (ready_of config3)].
Definition follow_older : list Call :=
  [CallHandleAck background (at_s 5) (ack_of AckSnapshot AckApplied config2);
   CallHandleReadiness background (at_s 5) (ready_of config2)].

(** A concrete session in which a snapshot of generation 2 is offered while generation 3 is
    staged: generation 3 is promoted, and the acknowledgement and readiness report of generation
    2 then take the active configuration back from 3 to 2. *)
Example older_offer_rolls_back :
  let promoted := run_calls promote_newest ready in
  let rolled := run_calls follow_older promoted in
  Snapshot.Generation (active (sess promoted)) = 3 /\ state (sess promoted) = SessionReady
  /\ Snapshot.Generation (active (sess rolled)) = 2 /\ state (sess rolled) = SessionReady.
Proof. by vm_compute. Qed.

(** * The server properties on a concrete session

    Each lemma evaluates one property of the server at the session of
    [Scenario], where its hypotheses hold. *)
From S2P Require Import ServerConfigFlow ServerWorld ClientSession ClientSafety Handshake ClientWitnesses.
Import ServerSession.

Definition ref1 : SessionRef := SessionRef.mk "tun-1" "conn-1" "sess-1" 7.
Definition ref2 : SessionRef := SessionRef.mk "tun-1" "conn-1" "sess-2" 8.

Lemma registry1_wf : registry_wf registry1.
Proof.
  intros c r H. unfold registry1 in H. apply lookup_singleton_Some in H as [<- <-]. by vm_compute.
Qed.

Lemma registry_current_monotone_witness :
  exists y, registry_run registry1 [OpAttach ref2; OpDisconnect (ref1 <| SessionRef.ProcessGeneration := 6 |>)
                                      ReasonServerShutdown] !! "conn-1" = Some y
    /\ SessionRef.TunnelID y = "tun-1" /\ (y = ref1 \/ 7 < SessionRef.ProcessGeneration y).
Proof.
  apply (registry_current_monotone registry1 _ "conn-1" ref1); [apply registry1_wf|by vm_compute|].
  intros y reason Hle. rewrite !elem_of_cons. intros [?|[E|E]]; [done| |by apply elem_of_nil in E].
  injection E as ->. by apply Hle.
Defined.

(** ** Closed and superseded sessions *)
Definition closed : SrvState := snd (Close ReasonServerShutdown ready).

Lemma closed_session_is_final_witness :
  state (sess closed) = SessionClosed /\
  snd (exec (CallHandleHeartbeat background (at_s 5) (beat_of config1 (at_s 5))) closed) = closed.
Proof. split; [by vm_compute|]. apply (closed_session_is_final _ closed). by vm_compute. Defined.

Definition superseded : SrvState := mkSrv (<["conn-1" := ref2]> registry1) (sess ready).

Lemma superseded_session_is_fenced_witness :
  exists e, fst (exec (CallHandleHeartbeat background (at_s 5) (beat_of config1 (at_s 5))) superseded) = Err e.
Proof.
  apply (superseded_session_is_fenced (CallHandleHeartbeat background (at_s 5) (beat_of config1 (at_s 5)))
           superseded) with (now := at_s 5); [by vm_compute|done].
Defined.

(** ** Configuration flow *)
Lemma active_changes_only_by_promotion_witness :
  exists ctx now r,
    CallHandleReadiness background (at_s 5) (ready_of config2) = CallHandleReadiness ctx now r
    /\ active (sess (snd (exec (CallHandleReadiness background (at_s 5) (ready_of config2)) staged)))
       = candidate (sess staged).
Proof.
  destruct (active_changes_only_by_promotion (CallHandleReadiness background (at_s 5) (ready_of config2)) staged)
    as (ctx & now & r & E & _ & _ & _ & _ & _ & _ & Ha & _); [|by exists ctx, now, r].
  intros [H _]. apply (f_equal Snapshot.Generation) in H. by vm_compute in H.
Defined.

Lemma accept1_runs : accept1 ∅ = (Ok (session1, welcome session1, default Snapshot.zero (pendingSnapshot session1)),
                                  registry1).
Proof. by vm_compute. Qed.

Lemma start_inv : server_inv (sess start) /\ gens_ordered (sess start).
Proof.
  pose proof accept1_runs as H. apply Accept_accepted in H. destruct H as [H _].
  split; [exact H|]. constructor; by intros.
Qed.

Lemma acked_run : snd (exec (CallHandleAck background (at_s 1) (ack_of AckSnapshot AckApplied config1)) start) = acked.
Proof. by vm_compute. Qed.
Lemma ready_run : snd (exec (CallHandleReadiness background (at_s 2) (ready_of config1)) acked) = ready.
Proof. by vm_compute. Qed.
Lemma offered_run : snd (exec (CallOfferDelta background (at_s 3) delta2) ready) = offered.
Proof. by vm_compute. Qed.
Lemma staged_run :
  snd (exec (CallHandleAck background (at_s 4) (ack_of AckDelta AckApplied config2)) offered) = staged.
Proof. by vm_compute. Qed.

Lemma ready_inv : server_inv (sess ready) /\ gens_ordered (sess ready).
Proof.
  destruct start_inv as [Hi Hg].
  assert (server_inv (sess acked) /\ gens_ordered (sess acked)) as [Hi' Hg'].
  { rewrite <- acked_run. split; [by apply exec_inv|by apply exec_gens]. }
  rewrite <- ready_run. split; [by apply exec_inv|by apply exec_gens].
Qed.

Lemma staged_history allowed :
  allowed (CallOfferDelta background (at_s 3) delta2) (sess ready) ->
  allowed (CallHandleAck background (at_s 4) (ack_of AckDelta AckApplied config2)) (sess offered) ->
  history allowed ready staged.
Proof.
  intros H1 H2. pose proof (step_call allowed ready _ H1) as S1. pose proof (step_call allowed offered _ H2) as S2.
  rewrite offered_run in S1. rewrite staged_run in S2.
  eapply rtc_l; [exact S1|]. eapply rtc_l; [exact S2|apply rtc_refl].
Qed.

Lemma active_generation_never_regresses_witness :
  hasActive (sess staged) = true
  /\ Snapshot.Generation (active (sess ready)) <= Snapshot.Generation (active (sess staged)).
Proof.
  apply (active_generation_never_regresses ready staged);
    [apply ready_inv|apply ready_inv|by apply staged_history|by vm_compute].
Defined.

Lemma candidate_staged_only_by_confirmation_witness :
  confirms (ack_of AckSnapshot AckApplied config1) (sess start)
  /\ Snapshot.Generation (candidate (sess acked)) = 1.
Proof.
  pose (c := CallHandleAck background (at_s 1) (ack_of AckSnapshot AckApplied config1)).
  destruct (candidate_staged_only_by_confirmation c start) as (ctx & now & ack & E & _ & Hc & _ & _ & Hg & _).
  - by vm_compute.
  - intros [H _]. by vm_compute in H.
  - injection E as <- <- <-. split; [exact Hc|]. unfold c in Hg. by rewrite acked_run in Hg.
Defined.

(** ** Heartbeats and drains *)
Definition beaten : SrvState := snd (HandleHeartbeat background (at_s 3) (beat_of config1 (at_s 3)) ready).

Lemma heartbeat_cannot_be_replayed_witness :
  exists e, fst (HandleHeartbeat background (at_s 4) (beat_of config1 (at_s 3))
                   (mkSrv ∅ (sess beaten))) = Err e.
Proof.
  destruct (HandleHeartbeat background (at_s 3) (beat_of config1 (at_s 3)) ready) as [[ack|] st] eqn:E.
  - apply (heartbeat_cannot_be_replayed background (at_s 3) (beat_of config1 (at_s 3)) background (at_s 4)
             (beat_of config1 (at_s 3)) ready ack st (mkSrv ∅ (sess beaten))); [exact E| |done].
    unfold beaten. rewrite E. eapply rtc_l; [apply step_others|apply rtc_refl].
  - by vm_compute in E.
Defined.

Lemma draining_run :
  exists d, BeginDrain background (at_s 4) (at_s 4) "drain-1" (at_s 60) false ready = (Ok d, draining)
    /\ drain (sess draining) = Some d.
Proof. eexists. split; by vm_compute. Qed.

Definition drain_done : DrainAck :=
  DrainAck.mk "acct" "tun-1" "conn-1" "sess-1" 7 "drain-1" 1 (Snapshot.ContentHash config1)
    DrainCompleted 0 false "".

Lemma drain_is_fixed_once_begun_witness :
  exists d st', drain (sess draining) = Some d
    /\ HandleDrainAck background (at_s 5) drain_done draining = (Ok tt, st')
    /\ DrainAck.DrainID drain_done = "drain-1".
Proof.
  destruct draining_run as (d & E & _). exists d.
  destruct (drain_is_fixed_once_begun background (at_s 4) (at_s 4) "drain-1" (at_s 60) false ready d draining
           draining E) as (Hd & _ & _ & Ha); [apply rtc_refl|].
  destruct (HandleDrainAck background (at_s 5) drain_done draining) as [[[]|] st'] eqn:Er; [|by vm_compute in Er].
  exists st'. destruct (Ha background (at_s 5) drain_done st' Er) as (_ & Hid & _).
  split; [exact Hd|]. split; [reflexivity|exact Hid].
Defined.

(** ** The world *)
Definition world1 : World := mkWorld registry1 {[0%nat := session1]}.

Lemma world1_reachable : reachable world1.
Proof.
  eapply rtc_l; [|apply rtc_refl].
  pose proof (wstep_accept world_init (fun _ => Ok grant1) (fun _ => Ok config1) (Ok "sess-1") server1
                background noon hello1 _ _ _ _ 0%nat accept1_runs) as H.
  apply H; [intros h s|]; cbn; by rewrite lookup_empty.
Qed.

Lemma session1_live : live (at_s 1) (mkSrv registry1 session1).
Proof. by vm_compute. Qed.

(** A newer process of the connector takes over. *)
Definition hello8 : Hello :=
  hello1 <| Hello.ProcessGeneration := 8 |>
         <| Hello.Auth := request1 <| AuthRequest.ProcessGeneration := 8 |> |>.
Definition grant8 : AuthResult := grant1 <| AuthResult.ProcessGeneration := 8 |>.
Definition accept8 (r : SessionRegistry) :=
  Accept (fun _ => Ok grant8) (fun _ => Ok config1) (Ok "sess-2") server1 background (at_s 1) hello8 r.
Definition session8 : ServerSession :=
  Eval vm_compute in match fst (accept8 registry1) with Ok (s, _, _) => s | Err _ => no_session end.
Definition bound8 : Snapshot :=
  Eval vm_compute in match fst (accept8 registry1) with Ok (_, _, b) => b | Err _ => Snapshot.zero end.
Definition registry8 : SessionRegistry := {["conn-1" := ref2]}.
Definition world8 : World := mkWorld registry8 (<[1%nat := session8]> {[0%nat := session1]}).

Lemma accept8_runs : accept8 registry1 = (Ok (session8, welcome session8, bound8), registry8).
Proof. by vm_compute. Qed.

Lemma world8_step : wstep world1 world8.
Proof.
  apply (wstep_accept world1 (fun _ => Ok grant8) (fun _ => Ok config1) (Ok "sess-2") server1
           background (at_s 1) hello8 session8 (welcome session8) bound8 registry8 1%nat accept8_runs).
  - intros h s Hs. cbn [w_sessions world1] in Hs. apply lookup_singleton_Some in Hs as [_ <-].
    discriminate.
  - by apply lookup_singleton_ne.
Qed.

Lemma world8_reachable : reachable world8.
Proof. eapply rtc_r; [apply world1_reachable|apply world8_step]. Qed.

Lemma sessions_are_exclusive_witness :
  powerless registry8 session1 /\ entry_step world1 world8 "conn-1".
Proof.
  split.
  - destruct (sessions_are_exclusive world8 1%nat session8 world8_reachable) as [Hx _];
      [by apply lookup_insert_eq|].
    destruct (Hx (CallCheckLease (at_s 2)) (at_s 2) (mkSrv registry8 session8) eq_refl) as [_ Hp];
      [by vm_compute|].
    apply (Hp 0%nat session1 world8); [done|done|done|apply rtc_refl|done].
  - apply (sessions_are_exclusive world1 0%nat session1 world1_reachable);
      [by apply lookup_singleton_eq|apply world8_step].
Defined.

Lemma server_invariant_holds_witness :
  server_inv session1 /\ exists h s, w_sessions world1 !! h = Some s /\ ref s = ref1.
Proof.
  destruct (server_invariant_holds world1 world1_reachable) as [Hs Hr]. split.
  - apply (Hs 0%nat session1). by apply lookup_singleton_eq.
  - destruct (Hr "conn-1" ref1) as (h & s & ? & ? & _); [by apply lookup_singleton_eq|eauto].
Defined.



Definition tiny_heartbeat : ServerConfig := mkServerConfig ProductionCapabilities Second 1.

Lemma short_heartbeat_refuses_all_witness :
  exists e, Accept (fun _ => Ok grant1) (fun _ => Ok config1) (Ok "sess-1") tiny_heartbeat background noon hello1 ∅
            = (Err e, ∅).
Proof.
  apply (short_heartbeat_refuses_all tiny_heartbeat tiny_heartbeat); by vm_compute.
Defined.
