(* ===== verification/ComponentWitnesses.v ===== *)
(** * The properties of the leaf components on concrete inputs

    Canonical JSON, snapshots and deltas, frames, transcripts, detached proofs,
    negotiation, relay selection and generated names. *)
From S2P Require Import Prelude GoText GoHash GoUrl GoJson Errors Canonical JsonFacts Identifiers.
From S2P Require Import WireConfig Messages MessageFacts Negotiation RelaySelection Naming Registry.
From S2P Require Import ServerSession Scenario RotationMessages GoStruct Transcripts Frames StructFacts FrameFacts.
From S2P Require Import TranscriptFacts.

(** ** Canonical JSON *)
Definition loose_text : string := json_text " { 'b' : [1, true] , 'a':'x/y' }".
Definition tight_text : string := json_text "{'a':'x/y','b':[1,true]}".

Lemma loose_canonical : canonicalJSON loose_text 100 = Ok tight_text.
Proof. by vm_compute. Qed.

Lemma canonicalJSON_idempotent_witness :
  canonicalJSON tight_text 100 = Ok tight_text /\ json_value tight_text = json_value loose_text.
Proof.
  destruct (canonicalJSON_idempotent loose_text 100 tight_text loose_canonical) as (H1 & H2 & _). by split.
Defined.

Lemma json_decoding_terminates_witness :
  walks 0 (NewDecoder tight_text) (walk (json_fuel tight_text) 0 (NewDecoder tight_text))
  /\ decodeValue 200 0 (NewDecoder tight_text) = decodeValue (json_fuel tight_text) 0 (NewDecoder tight_text).
Proof.
  destruct (json_decoding_terminates tight_text) as [(Hw & _) (_ & _ & Hd)].
  split; [exact Hw|]. apply (Hd 200%nat). apply Nat.leb_le. by vm_compute.
Defined.

(** ** Snapshots and deltas *)
Lemma config1_new : NewSnapshot "tun-1" 1 (config_text "1") = Ok config1.
Proof. by vm_compute. Qed.
Lemma delta2_new : NewDelta "tun-1" config1 2 (config_text "2") = Ok delta2.
Proof. by vm_compute. Qed.

Lemma NewSnapshot_valid_witness :
  Snapshot_Validate config1 = None /\ NewSnapshot "tun-1" 1 (Snapshot.Payload config1) = Ok config1.
Proof.
  destruct (NewSnapshot_valid "tun-1" 1 (config_text "1") config1 config1_new) as (H1 & _ & H2). exact (conj H1 H2).
Defined.

Lemma NewDelta_valid_iff_witness : Delta_Validate delta2 = None.
Proof.
  apply (NewDelta_valid_iff "tun-1" config1 2 (config_text "2") delta2 delta2_new). by vm_compute.
Defined.

(** ** Detached proofs *)
Definition sign1 (payload : string) : list Z := repeat 7 64.

Lemma proof_roundtrip_witness :
  exists proof, SignProofPayload "transcript" sign1 = Ok proof /\ DecodeProof proof = Ok (sign1 "transcript").
Proof.
  destruct (SignProofPayload "transcript" sign1) as [proof|] eqn:E; [|by vm_compute in E].
  exists proof. split; [done|].
  apply (proof_roundtrip "transcript" sign1 (fun _ _ => true) proof); [|exact E].
  intros p. unfold is_bytes, sign1. apply (Forall_replicate _ 64 7). lia.
Defined.

(** ** Negotiation *)
Lemma negotiation_is_exact_witness :
  (exists selected, NegotiateCapabilities ProductionCapabilities requiredCapabilities = Ok selected
     /\ ValidateCapabilities selected = None)
  /\ NegotiateVersion "0.9" "1.2" = Ok "1.0".
Proof.
  split.
  - exists requiredCapabilities. split; [by vm_compute|].
    apply (proj1 negotiation_is_exact ProductionCapabilities requiredCapabilities). by vm_compute.
  - apply (proj2 negotiation_is_exact "0.9" "1.2"). split_and!; [done..|]. exists (0, 9), (1, 2).
    unfold version_le. cbn. split_and!; [done|done|lia|lia].
Defined.

(** ** Relay selection *)
Definition vec (g : Z) (t : time) (fra iad : duration) : Vector :=
  mkVector g t [mkSample "fra" fra; mkSample "iad" iad] "" 0.
Definition nodes1 : list (@Node nat) := [mkNode "fra" 1%nat; mkNode "iad" 2%nat].
Definition on_fra : State := mkState "fra" 4 (at_s 17) "iad" (at_s 4) (at_s 14) 2.
Definition vec1 : Vector := vec 5 (at_s 20) (80 * Millisecond) (20 * Millisecond).

Lemma Select_runs :
  Select (at_s 21) on_fra vec1 vec1 nodes1
  = Ok (mkNode "iad" 2%nat, mkState "iad" 5 (at_s 20) "" 0 0 0).
Proof. by vm_compute. Qed.

Lemma on_fra_inv : state_inv on_fra.
Proof. split; by vm_compute. Qed.

Lemma Select_preserves_state_inv_witness :
  mkNode "iad" 2%nat ∈ nodes1 /\ state_inv (mkState "iad" 5 (at_s 20) "" 0 0 0)
  /\ ClientObservedAt (mkState "iad" 5 (at_s 20) "" 0 0 0) = at_s 20.
Proof.
  destruct (Select_preserves_state_inv _ _ _ _ _ _ _ on_fra_inv Select_runs) as (Hn & Hi & _ & H).
  split; [exact Hn|]. split; [exact Hi|]. apply H. by vm_compute.
Defined.

(** Five calls: the first picks "fra", the second to fourth see "iad" improve at
    instants 4, 8 and 10 (the fourth too soon to count), the fifth switches. *)
Definition seen_at (g s : Z) (fra iad : duration) : @Observation nat :=
  mkObservation (at_s (s + 1)) (vec g (at_s s) fra iad) (vec g (at_s s) fra iad) nodes1.
Definition obs1 := seen_at 1 1 (20 * Millisecond) (80 * Millisecond).
Definition obs2 := seen_at 2 4 (80 * Millisecond) (20 * Millisecond).
Definition obs3 := seen_at 3 8 (80 * Millisecond) (20 * Millisecond).
Definition obs4 := seen_at 4 10 (80 * Millisecond) (20 * Millisecond).
Definition obs5 := seen_at 5 14 (80 * Millisecond) (20 * Millisecond).
Definition on_fra4 : State := mkState "fra" 4 (at_s 10) "iad" (at_s 4) (at_s 8) 2.

Lemma ran_on_fra4 : ran [obs4; obs3; obs2; obs1] on_fra4.
Proof.
  apply (ran_taken [obs3; obs2; obs1] (mkState "fra" 3 (at_s 8) "iad" (at_s 4) (at_s 8) 2)
    obs4 (mkNode "fra" 1%nat)); [|by vm_compute..].
  apply (ran_taken [obs2; obs1] (mkState "fra" 2 (at_s 4) "iad" (at_s 4) (at_s 4) 1)
    obs3 (mkNode "fra" 1%nat)); [|by vm_compute..].
  apply (ran_taken [obs1] (mkState "fra" 1 (at_s 1) "" 0 0 0) obs2 (mkNode "fra" 1%nat));
    [|by vm_compute..].
  apply (ran_taken [] (mkState "" 0 0 "" 0 0 0) obs1 (mkNode "fra" 1%nat)); [|by vm_compute..].
  exact ran_start.
Qed.

Lemma switch_needs_sustained_improvement_witness :
  exists r, sustained [obs4; obs3; obs2; obs1] obs5 "fra" r.
Proof.
  destruct (switch_needs_sustained_improvement _ _ obs5 (mkNode "iad" 2%nat)
    (mkState "iad" 5 (at_s 14) "" 0 0 0) ran_on_fra4)
    as (cm & hm & best & Hcm & Hhm & _ & _ & _ & _ & [Hf|Hs]); [by vm_compute|done|done| |eauto].
  exfalso. vm_compute in Hcm, Hhm. by simplify_eq.
Defined.

(** ** Names *)
Lemma alias_candidates_valid_and_distinct_witness :
  alias_valid (alias_candidate "My Box" 2) = true /\ alias_candidate "My Box" 2 <> alias_candidate "Other" 3.
Proof.
  destruct (alias_candidates_valid_and_distinct "My Box" 2) as [Hv Hd]. split; [exact Hv|].
  intros E. assert (2 = 3); [|lia]. apply (Hd "Other" 3); [unfold max_int64; lia|unfold max_int64; lia|exact E].
Defined.

Lemma Session_names_cycle_witness : Session 1 = Session 110593 /\ Session 1 <> Session 2.
Proof.
  split; [apply (Session_names_cycle 1 110593); [lia|lia|by vm_compute]|].
  intros E. apply (Session_names_cycle 1 2) in E; [|lia|lia]. by vm_compute in E.
Defined.

(** ** Frames

    A writer that takes at most seven bytes at a time. *)
#[local] Instance chunk_writer : Writer string :=
  fun out data => (out +:+ stake 7 data, (Z.min 7 (slen data), None)).
Lemma chunk_takes (w data w' : string) n err :
  Write w data = (w', (n, err)) -> n <= slen data /\ w' = w +:+ stake (Z.to_nat n) data.
Proof.
  unfold Write, chunk_writer. intros [= <- <- _]. split; [lia|]. f_equal.
  unfold slen. destruct (decide (7 <= String.length data)%nat) as [Hle|Hle].
  - by replace (Z.to_nat (Z.min 7 (Z.of_nat (String.length data)))) with 7%nat by lia.
  - replace (Z.to_nat (Z.min 7 (Z.of_nat (String.length data)))) with (String.length data) by lia.
    rewrite <- (sapp_nil_r data) at 3. rewrite stake_app. by do 7 (destruct data as [|? data]; [done|]); simpl in Hle; lia.
Qed.
#[local] Instance chunk_honest : HonestWriter string := {| sent := fun w => w; write_takes := chunk_takes |}.
#[local] Instance chunk_reliable : ReliableWriter string.
Proof.
  intros w data w' n err Hd. unfold Write, chunk_writer. intros [= _ <- <-]. split; [done|].
  pose proof (slen_nonneg data). destruct (decide (slen data = 0)) as [E|E]; [by apply slen_zero_iff in E|lia].
Qed.

Definition bound_snapshot : Snapshot :=
  Snapshot.mk "acct" "tun-1" "conn-1" "sess-1" 7 1 (Snapshot.ContentHash config1) (Snapshot.Payload config1).
Definition bound_delta : Delta :=
  Delta.mk "acct" "tun-1" "conn-1" "sess-1" 7 1 2 (Snapshot.ContentHash config1) (Delta.ContentHash delta2)
    (Delta.Payload delta2).

Lemma config_frame_roundtrip_witness :
  (exists f w' bytes, NewFrame MessageSnapshot "req-1" (SnapshotValue bound_snapshot) = Ok f
    /\ WriteFrame (Some "") f = (Some w', None) /\ sent w' = sent "" +:+ bytes
    /\ (forall rest, ReadFrame (Some (bytes +:+ rest)) = (Ok f, Some rest))
    /\ DecodePayload Snapshot_fields Snapshot.zero f = Ok bound_snapshot)
  /\ (exists f w' bytes, NewFrame MessageDelta "req-1" (DeltaValue bound_delta) = Ok f
    /\ WriteFrame (Some "") f = (Some w', None) /\ sent w' = sent "" +:+ bytes
    /\ (forall rest, ReadFrame (Some (bytes +:+ rest)) = (Ok f, Some rest))
    /\ DecodePayload Delta_fields Delta.zero f = Ok bound_delta).
Proof.
  destruct (config_frame_roundtrip "" "req-1" eq_refl) as [Hs Hd].
  split; [by apply Hs; vm_compute|by apply Hd; vm_compute].
Defined.

Lemma interrupted_frame_is_refused_witness :
  exists delivered, sent "out" = sent "out" +:+ delivered
    /\ (Some (codeError ErrUnsupportedMessage ReasonMalformed false None) = None
        \/ is_ok (fst (ReadFrame (Some delivered))) = true ->
        exists body, Frame_text Frame.zero = Some body /\ delivered = PutUint32 (slen body) +:+ body).
Proof. by apply (interrupted_frame_is_refused "out" "out" Frame.zero). Defined.

(** ** Signed transcripts *)
Definition resigned : AuthRequest := request1 <| AuthRequest.SignedProof := "YW5vdGhlci1zaWduYXR1cmUtb2YtaXQtaGVyZQ" |>.
Definition payload1 : string := Eval vm_compute in from_res "" (AuthProofPayload request1).
Lemma payload1_request : AuthProofPayload request1 = Ok payload1.
Proof. by vm_compute. Qed.
Lemma payload1_resigned : AuthProofPayload resigned = Ok payload1.
Proof. by vm_compute. Qed.
Lemma request1_wire : wire_ok (SignedAuth request1) /\ wire_ok (SignedAuth resigned).
Proof. split; (split_and!; [by vm_compute..|]); apply literal_key; by vm_compute. Qed.

Lemma transcript_determines_request_witness :
  unsigned (SignedAuth request1) = unsigned (SignedAuth resigned).
Proof.
  exact (transcript_determines_request (SignedAuth request1) (SignedAuth resigned) payload1
    (proj1 request1_wire) (proj2 request1_wire) payload1_request payload1_resigned).
Defined.

(** A nonce that is not UTF-8 text is changed by the encoding: two requests with
    different nonces have one transcript. *)
Definition with_nonce (c : Z) : AuthRequest :=
  request1 <| AuthRequest.Nonce := "nonce-0123456789" +:+ String (byte_of c) "" |>.
Theorem invalid_nonces_share_transcript :
  with_nonce 254 <> with_nonce 255
  /\ is_ok (AuthProofPayload (with_nonce 254)) = true
  /\ AuthProofPayload (with_nonce 254) = AuthProofPayload (with_nonce 255).
Proof. split_and!; [by intros [=]|by vm_compute..]. Qed.
