(* ===== verification/RotationWitnesses.v ===== *)
(** * A concrete credential rotation

    Two connectors are rotated against the in-memory store: the properties of
    plans, coordinator and recovery at concrete inputs, and the case in which
    the in-memory store loses the phase of a target. *)
From S2P Require Import Prelude GoText GoHash GoUrl GoJson Errors Canonical Identifiers WireConfig Messages.
From S2P Require Import RotationMessages RotationFacts Transcripts TranscriptFacts ServerSession Scenario Rotation RotationMemory.
From S2P Require Import RotationEffects RotationInvariant RotationRefinement RotationSafety.
From stdpp Require sorting.

(** ** Rotation plans *)
Definition target_a : RotationTarget := RotationTarget.mk "conn-a" "host-a" 1 2.
Definition target_b : RotationTarget := RotationTarget.mk "conn-b" "host-b" 4 5.
Definition plan_ab : RotationPlan :=
  Eval vm_compute in from_res RotationPlan.zero (NewRotationPlan "acct" "tun-1" "op-1" [target_b; target_a]).

Lemma NewRotationPlan_canonical_witness :
  RotationPlan_Validate plan_ab = None
  /\ RotationPlan.Targets plan_ab ≡ₚ [target_b; target_a] /\ Sorted.StronglySorted target_lt (RotationPlan.Targets plan_ab)
  /\ (forall t, t ∈ [target_b; target_a] ->
        RotationPlan_Target plan_ab (RotationTarget.ConnectorID t) = Some t)
  /\ (forall targets', targets' ≡ₚ [target_b; target_a] ->
        NewRotationPlan "acct" "tun-1" "op-1" targets' = Ok plan_ab).
Proof. apply (NewRotationPlan_canonical "acct" "tun-1" "op-1" [target_b; target_a] plan_ab). by vm_compute. Defined.

(** ** The messages of the rotation *)
Definition public_key : list Z := Eval vm_compute in map Z.of_nat (seq 1 32).
Definition new_key : string := Eval vm_compute in b64_encode public_key.
Definition new_thumbprint : string := Eval vm_compute in from_res "" (IdentityThumbprint public_key).
Definition new_key_id : string := Eval vm_compute in "ed25519:" +:+ new_thumbprint.

Definition proof_for (t : RotationTarget) (session nonce : string) : CredentialRotationProof :=
  CredentialRotationProof.mk "acct" "tun-1" "op-1" (RotationTarget.ConnectorID t) (RotationTarget.HostID t)
    session 7 (RotationPlan.TargetSetHash plan_ab) (RotationTarget.OldCredentialGeneration t)
    (RotationTarget.NewCredentialGeneration t) ("ed25519:" +:+ thumbprint) thumbprint new_key_id new_thumbprint
    new_key "tpm://paperboat/new" nonce (at_s 5) (at_s 86400)
    "c2lnbmF0dXJlLW9mLXRoZS1jb25uZWN0b3I" "c2lnbmF0dXJlLW9mLXRoZS1jb25uZWN0b3I".
Definition ready_for (t : RotationTarget) (session previous : string) : CredentialRotationReady :=
  CredentialRotationReady.mk "acct" "tun-1" "op-1" (RotationTarget.ConnectorID t) (RotationTarget.HostID t)
    session previous 8 (RotationPlan.TargetSetHash plan_ab) (RotationTarget.OldCredentialGeneration t)
    (RotationTarget.NewCredentialGeneration t) new_key_id new_thumbprint new_key "tpm://paperboat/new"
    (at_s 86400) 3 (Snapshot.ContentHash config1) true true true (at_s 10).
Definition ack_for (t : RotationTarget) (session : string) : CredentialRotationAck :=
  CredentialRotationAck.mk "acct" "tun-1" "op-1" (RotationTarget.ConnectorID t) (RotationTarget.HostID t)
    session 8 (RotationPlan.TargetSetHash plan_ab) (RotationTarget.OldCredentialGeneration t)
    (RotationTarget.NewCredentialGeneration t) RotationAckRevoked "" "".

(** Verifiers that accept every signature. *)
Definition any_signature : list Z -> string -> list Z -> bool := fun _ _ _ => true.
Definition any_old_key : CredentialRotationProof -> string -> list Z -> option goerror := fun _ _ _ => None.

Definition challenge_call (k session nonce : string) : RotCall :=
  CallChallenge background noon k session 7 ("ed25519:" +:+ thumbprint) thumbprint nonce noon (at_s 60)
    (at_s 600) (at_s 86400).
Definition prepare (t : RotationTarget) (session nonce next : string) : list RotCall :=
  [challenge_call (RotationTarget.ConnectorID t) session nonce;
   CallAcceptProof background (at_s 6) (proof_for t session nonce);
   CallMarkReady background (at_s 10) (ready_for t next session)].
Definition revoke_call (t : RotationTarget) : RotCall :=
  CallRevoke background (at_s 20) (Ok (map Z.of_nat (seq 1 18))) (RotationTarget.ConnectorID t).
Definition confirm_call (t : RotationTarget) (session : string) : RotCall :=
  CallHandleAck background (at_s 21) (ack_for t session).

Definition run_calls (calls : list RotCall) (st : RotState) : RotState :=
  foldl (fun st call => snd (rot_call any_signature any_old_key call st)) st calls.
Definition start_ab : RotState :=
  mkRot (from_res (mkCoordinator RotationPlan.zero false 0 ∅) (NewRotationCoordinator plan_ab)) empty_memory.

Definition both_ready : list RotCall :=
  CallStart background :: prepare target_a "sess-a" "nonce-aaaaaaaaaaaaaaaa" "sess-a2"
  ++ prepare target_b "sess-b" "nonce-bbbbbbbbbbbbbbbb" "sess-b2".

Example both_ready_phases :
  abs (coord (run_calls both_ready start_ab)) = mkAbs true {["conn-a" := PhReady; "conn-b" := PhReady]}.
Proof. by vm_compute. Qed.

Lemma run_calls_reachable calls : rot_reachable any_signature any_old_key plan_ab empty_memory (run_calls calls start_ab).
Proof.
  exists (coord start_ab). split; [by vm_compute|]. change (mkRot (coord start_ab) empty_memory) with start_ab.
  generalize start_ab. induction calls as [|call calls IH]; intros st; [apply rtc_refl|].
  eapply rtc_l; [apply step_call|apply IH].
Qed.
Lemma empty_memory_records x : ~ recorded empty_memory x.
Proof. destruct x; cbn; apply not_elem_of_nil. Qed.

Lemma pair_of_fst {A B} (x : A * B) a : fst x = a -> x = (a, snd x).
Proof. by destruct x; cbn; intros ->. Qed.

(** ** The phase machine *)
Definition ready_ab : RotState := run_calls both_ready start_ab.
Definition revoking_ab : RotState := snd (rot_call any_signature any_old_key (revoke_call target_a) ready_ab).
Lemma revoking_ab_ok : fst (rot_call any_signature any_old_key (revoke_call target_a) ready_ab) = true.
Proof. by vm_compute. Qed.

Lemma coordinator_refines_phases_witness :
  abs (coord revoking_ab) = abs (coord ready_ab)
  \/ abs_step (ActRevoke "conn-a") (abs (coord ready_ab)) (abs (coord revoking_ab)).
Proof.
  exact (coordinator_refines_phases any_signature any_old_key plan_ab empty_memory
    ready_ab (revoke_call target_a) true revoking_ab (run_calls_reachable both_ready)
    (pair_of_fst _ true revoking_ab_ok)).
Defined.

(** ** Recovery *)
Lemma load_ab : Memory_Load plan_ab (store ready_ab) = (Ok (snapshot (coord ready_ab)), store ready_ab).
Proof. by vm_compute. Qed.
Lemma started_ab : started (coord ready_ab) = true.
Proof. by vm_compute. Qed.
Lemma new_ab : NewRotationCoordinator plan_ab = Ok (coord start_ab).
Proof. by vm_compute. Qed.
Lemma finished_ab : finished (coord ready_ab) <= at_s 30 + MaxClockSkew.
Proof. apply Z.leb_le. by vm_compute. Qed.

Lemma resume_restores_coordinator_witness :
  Resume background (at_s 30) (mkRot (coord start_ab) (store ready_ab))
  = (Ok tt, mkRot (coord ready_ab) (store ready_ab)).
Proof.
  exact (resume_restores_coordinator any_signature any_old_key plan_ab empty_memory ready_ab Memory_Load
    (store ready_ab) (store ready_ab) (coord start_ab) background (at_s 30) (run_calls_reachable both_ready)
    started_ab new_ab eq_refl load_ab eq_refl finished_ab).
Defined.

(** ** Revocation *)
Definition revoke_a : CredentialRotationRevoke :=
  Eval vm_compute in default CredentialRotationRevoke.zero (head (Revocations (store revoking_ab))).
Lemma revoke_a_recorded : recorded (store (run_calls (both_ready ++ [revoke_call target_a]) start_ab)) (RecRevoke revoke_a).
Proof. vm_compute. left. Qed.

Lemma revoke_needs_every_replacement_witness :
  let s := store (run_calls (both_ready ++ [revoke_call target_a]) start_ab) in
  exists ch prf i r proved_at ready_at,
    recorded s (RecChallenge ch) /\ recorded s (RecInstall i) /\ recorded s (RecReady r)
    /\ VerifyCredentialRotationProofAt any_signature any_old_key prf proved_at = None
    /\ rotationProofMatchesChallenge prf ch target_b = true /\ i = install_of plan_ab ch prf
    /\ CredentialRotationReady_Validate r ready_at = None /\ ready_mismatch plan_ab i r = false
    /\ CredentialRotationReady.ConnectorID r = RotationTarget.ConnectorID target_b.
Proof.
  exact (revoke_needs_every_replacement any_signature any_old_key plan_ab empty_memory
    (run_calls (both_ready ++ [revoke_call target_a]) start_ab) revoke_a target_b
    (fun x Hx => match empty_memory_records x Hx with end) (run_calls_reachable _) revoke_a_recorded eq_refl
    ltac:(right; left)).
Defined.

(** ** The in-memory store after a confirmed revocation

    Once one target is confirmed, the summary recorded for it holds the phase of
    the other target at that time.  The load applies it over the later revoke of
    the other target, which then is in the ready phase with a revoke message, and
    the recovery refuses it. *)
Definition one_confirmed : list RotCall :=
  both_ready ++ [revoke_call target_b; confirm_call target_b "sess-b2"; revoke_call target_a].

Theorem memory_store_forgets_revoking :
  let st := run_calls one_confirmed start_ab in
  abs (coord st) = mkAbs true {["conn-a" := PhRevoking; "conn-b" := PhRevoked]}
  /\ fst (Resume background (at_s 30) (mkRot (coord start_ab) (store st)))
     = Err (tt, recovery_mismatch "rotation recovery target or phase mismatch").
Proof. split; by vm_compute. Qed.
