(* ===== verification/PersistenceWitnesses.v ===== *)
(** * A concrete durable server

    A store that appends to a log until its disk is full, and one session of it
    from hello to ready: the properties of the durable server at concrete
    inputs, and a session that is failed closed when the log is full. *)
From S2P Require Import Prelude GoText GoHash GoJson Errors Canonical Identifiers WireConfig Messages Transcripts.
From S2P Require Import Registry ServerSession ServerSafety ServerWorld Persistence PersistenceSafety.
From S2P Require Import PersistenceWorld PersistenceThreads Scenario.
Import ServerSession.

(** ** A log as store *)
Record LogStore := mkLog { log : list ControlRecord; room : nat }.
Definition disk_full : goerror := OtherError "no space left on device".
Definition append (x : ControlRecord) (s : LogStore) : option goerror * LogStore :=
  match room s with O => (Some disk_full, s) | S n => (None, mkLog (x :: log s) n) end.

#[export] Instance log_store : PersistentControlStore LogStore := {|
  AuthenticateConnector _ s := (Ok grant1, s);
  RenewConnector _ s := (Ok grant1, s);
  LoadSnapshot _ s := (Ok config1, s);
  CreateConnectorSessionV1 r w g := append (Created r w g);
  RecordApplied r a := append (Applied r a);
  RecordReady r d := append (Readied r d);
  RecordHeartbeat r h a := append (Beaten r h a);
  RecordRenewal r a := append (Renewed r a);
  RecordDisconnected r d := append (Disconnected r d);
  RecordDrain r d st n c := append (Drained r d st n c);
|}.

Lemma log_write x s : control_write x s = append x s.
Proof. by destruct x. Qed.

#[export] Instance log_journal : ControlJournal LogStore.
Proof.
  refine {| holds s x := x ∈ log s |}; try (by intros * [= _ <-]).
  - intros x s reply s' y. rewrite log_write. unfold append. destruct (room s); intros [= _ <-]; [done|].
    by right.
  - intros x s s'. rewrite log_write. unfold append. destruct (room s); intros [= <-]. left.
Defined.

(** ** From hello to ready *)
Definition any_auth : AuthRequest -> string -> list Z -> option goerror := fun _ _ _ => None.
Definition any_renewal : RenewalRequest -> string -> list Z -> option goerror := fun _ _ _ => None.
Definition only_server (s s' : LogStore) : Prop := s' = s.

Definition pw_after (w : PWorld) (c : PCall) : PWorld (S := LogStore) :=
  match pw_sessions w !! 0%nat with
  | None => w
  | Some session =>
      let p' := snd (pexec any_renewal c (mkPersistent (mkSrv (pw_registry w) session) (pw_store w))) in
      mkPWorld (registry (mem p')) (<[0%nat := sess (mem p')]> (pw_sessions w)) (durable p')
        (pw_handles w) (pw_issued w)
  end.
Definition accept_run (n : nat) :=
  PersistentServer_Accept any_auth server1 background noon noon (Ok "sess-1") hello1
    (pw_registry (pw_init (mkLog [] n)), pw_store (pw_init (mkLog [] n))).
Definition pw1 (n : nat) : PWorld :=
  mkPWorld registry1 {[0%nat := session1]}
    (mkLog [Created (ref session1) (welcome session1) 1] (pred n)) {[0%nat]} {["sess-1"]}.
Definition call_ack : PCall := PHandleAck background (at_s 1) (ack_of AckSnapshot AckApplied config1).
Definition call_ready : PCall := PHandleReadiness background (at_s 2) (ready_of config1).
Definition pw3 (n : nat) : PWorld := pw_after (pw_after (pw1 n) call_ack) call_ready.

Lemma accept_runs : accept_run 3
  = (Ok (session1, welcome session1, default Snapshot.zero (pendingSnapshot session1)),
     (registry1, mkLog [Created (ref session1) (welcome session1) 1] 2)).
Proof. by vm_compute. Qed.

Abbreviation durable_step := (pwstep any_auth any_renewal only_server).
Lemma pw1_reachable : rtc durable_step (pw_init (mkLog [] 3)) (pw1 3).
Proof.
  apply rtc_once. pose proof accept_runs as E. unfold accept_run in E.
  pose proof (pwstep_accept any_auth any_renewal only_server (pw_init (mkLog [] 3)) server1 background noon
    noon (Ok "sess-1") hello1 _ _ _ 0%nat E) as H. clear E.
  unfold pw_init in *; cbn [pw_issued pw_handles pw_sessions] in H. cbn iota in H.
  change ({[0%nat := session1]} : gmap nat ServerSession) with (<[0%nat := session1]> (∅ : gmap nat ServerSession)).
  unfold pw1. unfold issue in H. rewrite !(right_id_L ∅ (∪)) in H. apply H; set_solver.
Qed.
Lemma pw_after_step w c : (exists s, pw_sessions w !! 0%nat = Some s) -> durable_step w (pw_after w c).
Proof. intros [s Hs]. unfold pw_after. rewrite Hs. by eapply pwstep_call. Qed.
Lemma pw_after_session w c : (exists s, pw_sessions w !! 0%nat = Some s) ->
  exists s, pw_sessions (pw_after w c) !! 0%nat = Some s.
Proof. intros [s Hs]. unfold pw_after. rewrite Hs. cbn. rewrite lookup_insert_eq. eauto. Qed.
Lemma pw3_reachable : rtc durable_step (pw_init (mkLog [] 3)) (pw3 3).
Proof.
  assert (exists s, pw_sessions (pw1 3) !! 0%nat = Some s) as Hs by (eexists; apply lookup_singleton_eq).
  etrans; [apply pw1_reachable|]. eapply rtc_l; [by apply pw_after_step|].
  by apply rtc_once, pw_after_step, pw_after_session.
Qed.
Lemma pw3_session : pw_sessions (pw3 3) !! 0%nat = Some ready_session.
Proof. by vm_compute. Qed.
Lemma pw3_store : map (fun x => match x with Created _ _ _ => 0 | Applied _ _ => 1 | Readied _ _ => 2 | _ => 3 end)
  (log (pw_store (pw3 3))) = [2; 1; 0] /\ room (pw_store (pw3 3)) = 0%nat.
Proof. by vm_compute. Qed.

(** The same calls on the interleaved server: between the readiness in memory and
    its record the session is ready and the record is pending; afterwards it is in
    the log. *)
Abbreviation thread_run := (rtc (twstep any_auth any_renewal only_server) (tw_init (mkLog [] 3))).
Definition readied : ControlRecord := Readied (ref ready_session) (ready_of config1).
Lemma pw2_reachable : rtc durable_step (pw_init (mkLog [] 3)) (pw_after (pw1 3) call_ack).
Proof.
  etrans; [apply pw1_reachable|]. apply rtc_once, pw_after_step. eexists. apply lookup_singleton_eq.
Qed.
Lemma ready_begins :
  exists s, pw_sessions (pw_after (pw1 3) call_ack) !! 0%nat = Some s
    /\ call_begin call_ready
         (mkPersistent (mkSrv (pw_registry (pw_after (pw1 3) call_ack)) s) (pw_store (pw_after (pw1 3) call_ack)))
       = (mkPersistent (mkSrv (pw_registry (pw_after (pw1 3) call_ack)) ready_session)
            (pw_store (pw_after (pw1 3) call_ack)), inl (T_write readied true)).
Proof. eexists. split; [vm_compute; reflexivity|]. by vm_compute. Qed.

Lemma open_session_is_durable_witness :
  (exists w, thread_run w /\ tw_sessions w !! 0%nat = Some ready_session /\ tw_threads w = [(0%nat, T_write readied true)]
     /\ ~ holds (tw_store w) readied
     /\ durable_inv (fun x => holds (tw_store w) x \/ pending w 0 x) ready_session)
  /\ (exists w, thread_run w /\ durable_inv (holds (tw_store w)) ready_session).
Proof.
  assert (forall s s' x, only_server s s' -> holds s x -> holds s' x) as Ho by by intros s s' x ->.
  split.
  - destruct (one_after_the_other any_auth any_renewal only_server _ _ pw2_reachable) as (w & Hr & [A1 A2 A3 A4 A5 A6 A7]).
    destruct ready_begins as (s & Hs & E). pose proof (lookup_weaken _ _ _ _ Hs A3) as Hs'.
    pose proof (tw_call any_auth any_renewal only_server w 0 s call_ready Hs') as Hstep.
    unfold after_step, seen in Hstep. rewrite A1, A2, E, A6 in Hstep. cbn [fst snd rest app mem sess durable registry] in Hstep.
    eexists. assert (thread_run _) as Hr' by (eapply rtc_r; [exact Hr|exact Hstep]).
    split; [exact Hr'|]. split; [apply lookup_insert_eq|]. split; [done|]. split; [cbn [tw_store]; by vm_compute; set_solver|].
    refine (proj1 (open_session_is_durable any_auth any_renewal only_server Ho _ _ 0 ready_session Hr' _ _)); [apply lookup_insert_eq|done].
  - destruct (one_after_the_other any_auth any_renewal only_server _ _ pw3_reachable) as (w & Hr & [A1 A2 A3 A4 A5 A6 A7]).
    exists w. split; [exact Hr|].
    refine (proj2 (open_session_is_durable any_auth any_renewal only_server Ho _ _ 0 ready_session Hr _ _) _).
    + exact (lookup_weaken _ _ _ _ pw3_session A3).
    + done.
    + rewrite A6. intros t []%elem_of_nil.
Defined.

Lemma persistent_accept_is_recorded_witness :
  Created (ref session1) (welcome session1) 1 ∈ log (snd (snd (accept_run 3))).
Proof.
  pose proof (persistent_accept_is_recorded any_auth server1 background noon noon (Ok "sess-1") hello1
    NewSessionRegistry (mkLog [] 3)) as [_ H].
  change (PersistentServer_Accept _ _ _ _ _ _ _ _) with (accept_run 3) in H. rewrite accept_runs in *.
  by destruct H as (_ & _ & _ & H).
Defined.

(** The log is full when the connector reports ready: the session is ready in
    memory for a moment and closed before the call returns. *)
Example full_log_fails_closed :
  exists e session,
    fst (pexec any_renewal call_ready
           (mkPersistent acked (mkLog [] 0))) = Err e
    /\ pw_sessions (pw3 2) !! 0%nat = Some session /\ state session = SessionClosed
    /\ pw_registry (pw3 2) !! "conn-1" = None.
Proof. eexists _, _. split_and!; [vm_compute; reflexivity|vm_compute; reflexivity|done|by vm_compute]. Qed.
(** A session whose row cannot be written is not accepted. *)
Example full_log_refuses : exists e, accept_run 0 = (Err e, (∅, mkLog [] 0)).
Proof. eexists. by vm_compute. Qed.

(** * A concrete control stream

    The bytes of one connector: hello, acknowledgement, readiness, a heartbeat
    and a disconnect.  The properties of the transport at this stream. *)
From S2P Require Import GoUrl GoStruct GoTime Frames Rotation Transport TransportSafety.
Import ServerSession.

(** ** The peer's messages *)
Definition time_text (t : time) : string := default "" (Time_MarshalJSON t).
Definition strings_text (l : list string) : string := "[" +:+ join_with "," (map quote l) +:+ "]".
Definition auth_text (q : AuthRequest) : string := object_text
  [member "account_id" (quote (AuthRequest.AccountID q)); member "tunnel_id" (quote (AuthRequest.TunnelID q));
   member "connector_id" (quote (AuthRequest.ConnectorID q)); member "host_id" (quote (AuthRequest.HostID q));
   member "identity_key_id" (quote (AuthRequest.IdentityKeyID q));
   member "identity_key_thumbprint" (quote (AuthRequest.IdentityKeyThumbprint q));
   member "process_generation" (Itoa (AuthRequest.ProcessGeneration q));
   member "credential_generation" (Itoa (AuthRequest.CredentialGeneration q));
   member "nonce" (quote (AuthRequest.Nonce q)); member "signed_proof" (quote (AuthRequest.SignedProof q));
   member "issued_at" (time_text (AuthRequest.IssuedAt q)); member "expires_at" (time_text (AuthRequest.ExpiresAt q))].
Definition hello_text (h : Hello) : string := object_text
  [member "protocol" (quote (Hello.Protocol h)); member "min_version" (quote (Hello.MinVersion h));
   member "max_version" (quote (Hello.MaxVersion h)); member "account_id" (quote (Hello.AccountID h));
   member "tunnel_id" (quote (Hello.TunnelID h)); member "connector_id" (quote (Hello.ConnectorID h));
   member "host_id" (quote (Hello.HostID h)); member "process_generation" (Itoa (Hello.ProcessGeneration h));
   member "capabilities" (strings_text (Hello.Capabilities h)); member "auth" (auth_text (Hello.Auth h))].
Definition ready_text (r : Readiness) : string := object_text
  [member "account_id" (quote (Readiness.AccountID r)); member "session_id" (quote (Readiness.SessionID r));
   member "tunnel_id" (quote (Readiness.TunnelID r)); member "connector_id" (quote (Readiness.ConnectorID r));
   member "process_generation" (Itoa (Readiness.ProcessGeneration r));
   member "generation" (Itoa (Readiness.Generation r)); member "content_hash" (quote (Readiness.ContentHash r));
   member "edge_ready" "true"; member "route_ready" "true"; member "origin_ready" "true"].
Definition bye_text : string := object_text
  [member "account_id" (quote "acct"); member "tunnel_id" (quote "tun-1"); member "connector_id" (quote "conn-1");
   member "session_id" (quote "sess-1"); member "process_generation" "7";
   member "reason" (quote ReasonServerShutdown); member "retryable" "false"].

(** A frame as bytes. *)
#[export] Instance buffer : Writer string := fun out data => (out +:+ data, (slen data, None)).
Definition frame_bytes (ty req payload : string) : string :=
  match WriteFrame (Some "") (Frame.mk ty ProtocolVersion req payload) with
  | (Some out, None) => out
  | _ => ""
  end.
Definition stream1 : string := Eval vm_compute in
  frame_bytes MessageHello "req-1" (hello_text hello1)
  +:+ frame_bytes MessageAck "req-2" (Ack_text (ack_of AckSnapshot AckApplied config1))
  +:+ frame_bytes MessageReady "req-3" (ready_text (ready_of config1))
  +:+ frame_bytes MessageDisconnect "req-4" bye_text.

Definition moment (n : Z) : Moment (Sto := LogStore) (W := string) :=
  mkMoment background (at_s n) (at_s n) (at_s n) None false id.
Definition env1 (i : nat) : Moment := moment (Z.of_nat i).
Definition idle : Shared (Sto := LogStore) (W := string) := mkShared ∅ (mkLog [] 10) ∅ "".
Abbreviation serve1 tunnelID :=
  (Serve any_auth any_renewal server1 env1 (moment 30) None None tunnelID "conn-1" (Ok "sess-1")
    (Ok (map Z.of_nat (seq 1 18))) stream1 idle).

(** The report of a stream that was served to its end: the reason of the
    disconnect, and the records of the session in the store. *)
Definition served_well (rep : Report (Sto := LogStore) (W := string)) : bool :=
  match rp_session rep with Some s => state s == SessionClosed | None => false end
  && ok (rp_err rep)
  && (ControlTerminationEvent.Kind (rp_event rep) == ControlTerminationPeerDisconnect)
  && (ControlTerminationEvent.ProtocolReason (rp_event rep) == ReasonServerShutdown)
  && bool_decide (map (fun x => match x with Created _ _ _ => 0 | Applied _ _ => 1 | Readied _ _ => 2
                                | Disconnected _ _ => 3 | _ => 4 end) (log (sh_store (rp_shared rep)))
                  = [3; 2; 1; 0]).
Example stream1_served : served_well (serve1 "tun-1") = true.
Proof. by vm_compute. Qed.
Lemma stream1_session : exists s, rp_session (serve1 "tun-1") = Some s.
Proof.
  pose proof stream1_served as H. revert H. generalize (serve1 "tun-1"). intros rep H. unfold served_well in H.
  destruct (rp_session rep); [eauto|done].
Qed.

(** On another path the same stream is refused. *)
Lemma other_path : rp_session (serve1 "tun-2") = None.
Proof. by vm_compute. Qed.
Lemma serve_admits_its_path_witness :
  hello_for any_auth "tun-1" "conn-1" stream1 (at_s 0) (mkLog [] 10)
  /\ sh_out (rp_shared (serve1 "tun-2")) = "".
Proof.
  pose proof (serve_admits_its_path any_auth any_renewal server1 env1 (moment 30) None None "tun-1" "conn-1"
    (Ok "sess-1") (Ok (map Z.of_nat (seq 1 18))) stream1 idle) as H1.
  pose proof (serve_admits_its_path any_auth any_renewal server1 env1 (moment 30) None None "tun-2" "conn-1"
    (Ok "sess-1") (Ok (map Z.of_nat (seq 1 18))) stream1 idle) as H2.
  cbv zeta in H1, H2.
  destruct stream1_session as [s Hs]. rewrite Hs in H1. rewrite other_path in H2.
  split; [exact H1|exact (proj1 H2)].
Defined.

(** ** The directory *)
Definition projection1 (session : string) (generation : Z) : ActiveControlSession :=
  ActiveControlSession.mk "acct" "tun-1" "conn-1" "host-1" session ("ed25519:" +:+ thumbprint) thumbprint
    generation 1 1 (Snapshot.ContentHash config1).
Lemma directory_is_fenced_witness :
  detach (<[key_of (projection1 "sess-1" 7) := projection1 "sess-2" 8]> ∅) (projection1 "sess-1" 7)
    !! key_of (projection1 "sess-1" 7) = Some (projection1 "sess-2" 8).
Proof.
  destruct (directory_is_fenced (<[key_of (projection1 "sess-1" 7) := projection1 "sess-2" 8]> ∅)
    (projection1 "sess-1" 7)) as (_ & _ & _ & H).
  apply H; [apply lookup_insert_eq|by intros [=]].
Defined.
