(* ===== verification/DispatchWitnesses.v ===== *)
(** * A rotation through the dispatcher

    One connector is rotated by the dispatcher against the in-memory store, from
    the challenge to the revocation, with the frames that the connector answers;
    and the properties of the dispatcher at this run. *)
From S2P Require Import Prelude GoText GoHash GoUrl GoJson Errors Canonical Identifiers WireConfig GoStruct Messages.
From S2P Require Import RotationMessages RotationFacts Transcripts TranscriptFacts Frames Registry ServerSession.
From S2P Require Import Scenario Rotation RotationMemory RotationEffects RotationInvariant RotationSafety.
From S2P Require Import RotationWitnesses Persistence Transport RotationDispatch RotationDispatchSafety.
From S2P Require Import RotationDispatchFacts.

(** ** A dispatcher's store

    The in-memory store with the one plan [plan_a]; it records rebindings and
    declines the two other recoveries. *)
Definition plan_a : RotationPlan :=
  Eval vm_compute in from_res RotationPlan.zero (NewRotationPlan "acct" "tun-1" "op-1" [target_a]).
Definition memory_plan (operationID : string) : option RotationPlan :=
  if operationID == "op-1" then Some plan_a else None.
Definition not_supported : option goerror := Some (OtherError "not supported").

#[export] Program Instance MemoryDispatch : RotationDispatcherStore MemoryRotationPersistence := {
  rotation_persistence := MemoryRotation;
  ListCredentialRotationPlans := fun _ m => (Ok [plan_a], m);
  LoadCredentialRotation := Memory_Load;
  LoadCredentialRotationPlan := fun operationID m =>
    (match memory_plan operationID with Some p => Ok p | None => Err ErrRotationNotFound end, m);
  ResetCredentialRotationInstall := fun _ _ _ m => (not_supported, m);
  RebindCredentialRotationRevoke := fun p t ref nonce now deadline m =>
    let v := rebound_revoke p t ref nonce now deadline in
    (Ok v, m <| Revocations := Revocations m ++ [v] |>);
  FailCredentialRotationTarget := fun _ _ _ m => (not_supported, m);
  RotationRecordDisconnected := fun _ _ m => (None, m);
}.
Next Obligation. done. Qed.

#[export] Instance MemoryRebinding : RebindingStore MemoryRotationPersistence.
Proof. by intros p t ref nonce now deadline s v s' [= <- _]. Qed.

(** ** The run *)
Definition config_1 : RotationDispatcherConfig :=
  RotationDispatcherConfig.mk 0 (60 * Second) (600 * Second) (86400 * Second) 0 0.
Definition cfg_1 : RotationDispatcherConfig := Eval vm_compute in from_res config_1 (NewRotationDispatcher config_1).
Lemma cfg_ab_ok : NewRotationDispatcher config_1 = Ok cfg_1.
Proof. by vm_compute. Qed.

(** A carrier takes what it is given. *)
Abbreviation Log := (list (nat * Frame)).
Definition takes (carrier : nat) (frame : Frame) (n : Log) : option goerror := None.
Abbreviation log_frame := (logging takes).

Definition bytes18 : Res (list Z) := Ok (map Z.of_nat (seq 1 18)).
Definition nonce18 : string := Eval vm_compute in from_res "" (newOpaqueID bytes18 "rotation-nonce").
Definition quiet (n : Z) : Reading (Sto := MemoryRotationPersistence) (Net := Log) :=
  mkReading background (at_s n) (at_s n) (at_s n) bytes18 bytes18 bytes18 (fun w => w) (fun w => w) (fun w => w)
    (fun w => w) (fun w => w) (fun w => w).

Definition live_old (t : RotationTarget) (sessionID : string) (carrier : nat) : RotationLiveSession :=
  RotationLiveSession.mk "acct" (RotationTarget.HostID t)
    (SessionRef.mk "tun-1" (RotationTarget.ConnectorID t) sessionID 7)
    (RotationTarget.OldCredentialGeneration t) ("ed25519:" +:+ thumbprint) thumbprint ProductionCapabilities carrier.
Definition live_new (t : RotationTarget) (sessionID : string) (carrier : nat) : RotationLiveSession :=
  RotationLiveSession.mk "acct" (RotationTarget.HostID t)
    (SessionRef.mk "tun-1" (RotationTarget.ConnectorID t) sessionID 8)
    (RotationTarget.NewCredentialGeneration t) new_key_id new_thumbprint ProductionCapabilities carrier.

(** The frames of the connectors. *)
Section Texts.
Definition Proof_text (p : CredentialRotationProof) : option string :=
  issued ← time_member "issued_at" (CredentialRotationProof.IssuedAt p);
  valid ← time_member "new_credential_valid_until" (CredentialRotationProof.NewCredentialValidUntil p);
  Some (object_text
    [member "account_id" (quote (CredentialRotationProof.AccountID p));
     member "tunnel_id" (quote (CredentialRotationProof.TunnelID p));
     member "operation_id" (quote (CredentialRotationProof.OperationID p));
     member "connector_id" (quote (CredentialRotationProof.ConnectorID p));
     member "host_id" (quote (CredentialRotationProof.HostID p));
     member "session_id" (quote (CredentialRotationProof.SessionID p));
     member "process_generation" (Itoa (CredentialRotationProof.ProcessGeneration p));
     member "target_set_hash" (quote (CredentialRotationProof.TargetSetHash p));
     member "old_credential_generation" (Itoa (CredentialRotationProof.OldCredentialGeneration p));
     member "new_credential_generation" (Itoa (CredentialRotationProof.NewCredentialGeneration p));
     member "old_identity_key_id" (quote (CredentialRotationProof.OldIdentityKeyID p));
     member "old_identity_key_thumbprint" (quote (CredentialRotationProof.OldIdentityKeyThumbprint p));
     member "new_identity_key_id" (quote (CredentialRotationProof.NewIdentityKeyID p));
     member "new_identity_key_thumbprint" (quote (CredentialRotationProof.NewIdentityKeyThumbprint p));
     member "new_public_key" (quote (CredentialRotationProof.NewPublicKey p));
     member "new_credential_reference" (quote (CredentialRotationProof.NewCredentialReference p));
     member "challenge_nonce" (quote (CredentialRotationProof.ChallengeNonce p)); issued; valid;
     member "old_signed_proof" (quote (CredentialRotationProof.OldSignedProof p));
     member "new_signed_proof" (quote (CredentialRotationProof.NewSignedProof p))]).
Definition Ready_text (r : CredentialRotationReady) : option string :=
  valid ← time_member "new_credential_valid_until" (CredentialRotationReady.NewCredentialValidUntil r);
  ready ← time_member "ready_at" (CredentialRotationReady.ReadyAt r);
  Some (object_text
    [member "account_id" (quote (CredentialRotationReady.AccountID r));
     member "tunnel_id" (quote (CredentialRotationReady.TunnelID r));
     member "operation_id" (quote (CredentialRotationReady.OperationID r));
     member "connector_id" (quote (CredentialRotationReady.ConnectorID r));
     member "host_id" (quote (CredentialRotationReady.HostID r));
     member "session_id" (quote (CredentialRotationReady.SessionID r));
     member "previous_session_id" (quote (CredentialRotationReady.PreviousSessionID r));
     member "process_generation" (Itoa (CredentialRotationReady.ProcessGeneration r));
     member "target_set_hash" (quote (CredentialRotationReady.TargetSetHash r));
     member "old_credential_generation" (Itoa (CredentialRotationReady.OldCredentialGeneration r));
     member "new_credential_generation" (Itoa (CredentialRotationReady.NewCredentialGeneration r));
     member "new_identity_key_id" (quote (CredentialRotationReady.NewIdentityKeyID r));
     member "new_identity_key_thumbprint" (quote (CredentialRotationReady.NewIdentityKeyThumbprint r));
     member "new_public_key" (quote (CredentialRotationReady.NewPublicKey r));
     member "new_credential_reference" (quote (CredentialRotationReady.NewCredentialReference r)); valid;
     member "config_generation" (Itoa (CredentialRotationReady.ConfigGeneration r));
     member "config_content_hash" (quote (CredentialRotationReady.ConfigContentHash r));
     member "edge_ready" (bool_text (CredentialRotationReady.EdgeReady r));
     member "route_ready" (bool_text (CredentialRotationReady.RouteReady r));
     member "origin_ready" (bool_text (CredentialRotationReady.OriginReady r)); ready]).
End Texts.
Definition proof_a (session nonce : string) : CredentialRotationProof :=
  (proof_for target_a session nonce) <| CredentialRotationProof.TargetSetHash := RotationPlan.TargetSetHash plan_a |>.
Definition ready_a (session previous : string) : CredentialRotationReady :=
  (ready_for target_a session previous) <| CredentialRotationReady.TargetSetHash := RotationPlan.TargetSetHash plan_a |>.
Definition no_frame : Frame := Frame.mk "" "" "" "".
Definition frame_of (ty : MessageType) (text : option string) : Frame :=
  from_res no_frame (NewFrame ty "answer" (OtherValue (marshalled text))).

Abbreviation Call := (DispatchCall (Sto := MemoryRotationPersistence)).
Definition begin_1 : MemoryRotationPersistence := Eval vm_compute in snd (Memory_Begin plan_a empty_memory).
Definition challenges_1 : list Call :=
  [DoRegister background (live_old target_a "sess-a" 1); DoReconcile background (fun _ _ => quiet 0)].
Definition answer_proof : Call :=
  DoHandle (fun _ => quiet 6) (SessionRef.mk "tun-1" "conn-a" "sess-a" 7)
    (frame_of MessageCredentialRotationProof (Proof_text (proof_a "sess-a" nonce18))).
Definition answer_ready : Call :=
  DoHandle (fun _ => quiet 10) (SessionRef.mk "tun-1" "conn-a" "sess-a2" 8)
    (frame_of MessageCredentialRotationReady (Ready_text (ready_a "sess-a2" "sess-a"))).
Definition calls_1 : list Call :=
  challenges_1 ++ [answer_proof; DoRegister background (live_new target_a "sess-a2" 3); answer_ready].

Abbreviation run_1 calls :=
  (dispatch_run any_signature any_old_key cfg_1 takes calls (mkWorld empty_dispatcher begin_1 [])).

(** The messages of the run and the revoke that is recorded. *)
Definition summary_of (w : World (Sto := MemoryRotationPersistence) (Net := Log))
    : list (nat * MessageType) * option CredentialRotationRevoke :=
  (map (fun e => (fst e, Frame.Type_ (snd e))) (net w), head (Revocations (wstore w))).
Definition revoke_1 : CredentialRotationRevoke :=
  Eval vm_compute in default CredentialRotationRevoke.zero (snd (summary_of (run_1 calls_1))).

Definition messages_1 : list (nat * MessageType) :=
  [(1%nat, MessageCredentialRotationChallenge); (1%nat, MessageCredentialRotationInstall);
   (3%nat, MessageCredentialRotationRevoke)].

(** Challenge, install and revoke reach the sessions of the connector. *)
Lemma rotation_run : summary_of (run_1 calls_1) = (messages_1, Some revoke_1).
Proof. vm_cast_no_check (eq_refl (messages_1, Some revoke_1)). Qed.

(** ** The properties at this run *)

(** The two sessions that the streams of the connector register. *)
Definition streams_1 (s : RotationLiveSession) : Prop :=
  s = live_old target_a "sess-a" 1 \/ s = live_new target_a "sess-a2" 3.
Lemma quiet_ok n : reading_ok streams_1 (quiet n).
Proof. split; by intros w. Qed.
Lemma calls_1_ok : Forall (call_ok streams_1) calls_1.
Proof.
  unfold calls_1, challenges_1. cbn [app]. repeat (apply Forall_cons; split); [..|by apply Forall_nil].
  - by left.
  - intros i j. apply quiet_ok.
  - intros j. apply quiet_ok.
  - by right.
  - intros j. apply quiet_ok.
Qed.

Lemma messages_reach_their_session_witness :
  fst (summary_of (run_1 calls_1)) = messages_1 /\ Forall (own_message streams_1) (net (run_1 calls_1)).
Proof.
  split; [exact (f_equal fst rotation_run)|].
  exact (messages_reach_their_session any_signature any_old_key cfg_1 takes streams_1 calls_1 begin_1 calls_1_ok).
Defined.

(** The session of the replaced process cannot take the route back. *)
Definition routed_1 : World (Sto := MemoryRotationPersistence) (Net := Log) :=
  mkWorld (mkDispatcherState {["conn-a" := live_new target_a "sess-a2" 3]} ∅) begin_1 [].
Lemma routes_are_fenced_witness :
  route (routed_1 <| disp := Rotation_DetachSession (SessionRef.mk "tun-1" "conn-a" "sess-a" 7) (disp routed_1) |>)
    "conn-a" = Some (live_new target_a "sess-a2" 3).
Proof.
  destruct (routes_are_fenced log_frame any_signature any_old_key routed_1 "conn-a" (live_new target_a "sess-a2" 3)
    ltac:(apply lookup_singleton_eq)) as (_ & _ & H & _).
  apply H. discriminate.
Defined.

Definition challenge_1 : CredentialRotationChallenge :=
  Eval vm_compute in default CredentialRotationChallenge.zero (head (Challenges (wstore (run_1 challenges_1)))).
Abbreviation send_1 r w := (send log_frame r (live_old target_a "sess-a" 1) MessageCredentialRotationChallenge
  (ChallengePayload challenge_1) w).
Definition before_1 : World (Sto := MemoryRotationPersistence) (Net := Log) :=
  mkWorld (mkDispatcherState {["conn-a" := live_old target_a "sess-a" 1]} ∅) begin_1 [].
Lemma send_ab_ok : fst (send_1 (quiet 0) before_1) = Ok tt.
Proof. by vm_compute. Qed.
Lemma retransmission_is_suppressed_witness :
  send_1 (quiet 5) (snd (send_1 (quiet 0) before_1)) = (Ok tt, snd (send_1 (quiet 0) before_1)).
Proof.
  exact (retransmission_is_suppressed log_frame (quiet 0) (quiet 5) _ (live_old target_a "sess-a" 1)
    MessageCredentialRotationChallenge (ChallengePayload challenge_1) before_1 _ (conj (fun _ => eq_refl) (fun _ => eq_refl))
    (conj (fun _ => eq_refl) (fun _ => eq_refl)) (pair_of_fst _ _ send_ab_ok) eq_refl ltac:(by vm_compute)).
Defined.

(** ** Windows and delays *)
Definition pending_a : RotationResumeTarget :=
  RotationResumeTarget.mk target_a RotationTargetPending "" (at_s 30) (at_s 86400) CredentialRotationChallenge.zero
    CredentialRotationProof.zero CredentialRotationInstall.zero CredentialRotationReady.zero CredentialRotationRevoke.zero.
Lemma policy_a : rotationPolicy cfg_1 (at_s 0) pending_a = Ok (at_s 30 - Millisecond, at_s 30, at_s 86400).
Proof. by vm_compute. Qed.
Lemma rotationPolicy_window_witness : at_s 0 < at_s 30 - Millisecond /\ at_s 30 - Millisecond <= at_s 0 + 15 * Minute.
Proof.
  destruct (rotationPolicy_window config_1 cfg_1 (at_s 0) pending_a _ _ _ cfg_ab_ok policy_a) as (H1 & _ & _ & H2 & _).
  exact (conj H1 H2).
Defined.

Lemma rotationRetryDelay_bounds_witness :
  exists delay, rotationRetryDelay 123456789012 (5 * Second) 9 = Some delay /\ 0 <= delay <= Minute.
Proof. exact (rotationRetryDelay_bounds config_1 cfg_1 123456789012 9 cfg_ab_ok ltac:(by vm_compute)). Defined.

(** * A drain through the dispatcher

    One connector is admitted, applies its configuration and becomes ready; the
    store lists a revoke operation for it, and a round of the dispatcher begins
    the drain and hands the request to the connector's carrier. *)
From S2P Require Import ServerSafety ServerWorld PersistenceSafety PersistenceWorld PersistenceWitnesses.
From S2P Require Import DrainDispatch.
Import ServerSession.

Definition operation1 : DrainOperation :=
  DrainOperation.mk "op-drain" "connector.revoke" "acct" "tun-1" "conn-1" "host-1" "sess-1" 7
    (Snapshot.Generation config1) (Snapshot.ContentHash config1).
Definition list1 (limit : Z) (s : LogStore) : Res (list DrainOperation) * LogStore := (Ok [operation1], s).
Definition drain_config1 : DrainDispatcherConfig := DrainDispatcherConfig.mk 0 0 0 0 0.
Definition drain_cfg1 : DrainDispatcherConfig :=
  Eval vm_compute in from_res drain_config1 (NewDrainDispatcher drain_config1).
Lemma drain_cfg1_ok : NewDrainDispatcher drain_config1 = Ok drain_cfg1.
Proof. by vm_compute. Qed.

Abbreviation Frames := (list (nat * Frame)).
Definition taken (carrier : nat) (frame : Frame) (n : Frames) : option goerror := None.
(** The session of handle [h] is served on carrier [h + 5]. *)
Definition stream_of (h : nat) : nat := (h + 5)%nat.
Abbreviation moves1 := (moves_well list1 any_auth any_renewal only_server stream_of).
Abbreviation DWorld := (DrainWorld (Sto := LogStore) (Net := Frames)).

(** The rest of the server: the connector is admitted, and a call on its session. *)
Definition accept_step (v : PWorld (S := LogStore)) : PWorld :=
  if bool_decide (0%nat ∈ pw_handles v) || bool_decide ("sess-1" ∈ pw_issued v) then v else
  let run := PersistentServer_Accept any_auth server1 background noon noon (Ok "sess-1") hello1 (pw_registry v, pw_store v) in
  mkPWorld (fst (snd run))
    (match fst run with Ok (session, _, _) => <[0%nat := session]> (pw_sessions v) | Err _ => pw_sessions v end)
    (snd (snd run)) ({[0%nat]} ∪ pw_handles v) (issue (Ok "sess-1") (pw_issued v)).
Definition on_server (f : PWorld -> PWorld) (w : DWorld) : DWorld := w <| dw_server := f (dw_server w) |>.

Lemma on_server_moves f : (forall v, f v = v \/ durable_step v (f v)) ->
  moves1 (on_server f).
Proof.
  intros Hf w Hw. unfold on_server. destruct (Hf (dw_server w)) as [E|Hs]; [|by apply moved_server].
  rewrite E. destruct w. by apply moved_refl.
Qed.
Lemma accept_step_moves : moves1 (on_server accept_step).
Proof.
  apply on_server_moves. intros v. unfold accept_step. destruct (_ || _) eqn:E; [by left|right]. bool_prop.
  destruct (PersistentServer_Accept _ _ _ _ _ _ _ _) as [res [r' s']] eqn:Hrun. cbn [fst snd].
  apply (pwstep_accept any_auth any_renewal only_server v server1 background noon noon (Ok "sess-1") hello1 res r' s' 0);
    [exact Hrun|by intros id [= <-]|done].
Qed.
Lemma pw_after_moves c : moves1 (on_server (fun v => pw_after v c)).
Proof.
  apply on_server_moves. intros v. destruct (pw_sessions v !! 0%nat) as [s|] eqn:E.
  - right. apply pw_after_step. by exists s.
  - left. unfold pw_after. by rewrite E.
Qed.

Definition drain_live1 : DrainLiveSession :=
  DrainLiveSession.mk
    (ActiveControlSession.mk "acct" "tun-1" "conn-1" "host-1" "sess-1" ("ed25519:" +:+ thumbprint) thumbprint 7 1
       (Snapshot.Generation config1) (Snapshot.ContentHash config1)) 0 ProductionCapabilities 5.
Definition drain_reading1 : OpReading (Sto := LogStore) (Net := Frames) :=
  mkOpReading background (at_s 3) (at_s 3) (at_s 3) (fun w => w) (fun w => w) (fun w => w).
Definition drain_calls1 : list (DrainCall (Sto := LogStore)) :=
  [DrainOther (on_server accept_step); DrainOther (on_server (fun v => pw_after v call_ack));
   DrainOther (on_server (fun v => pw_after v call_ready)); DrainRegister background drain_live1;
   DrainReconcile background (fun _ => drain_reading1); DrainReconcile background (fun _ => drain_reading1)].
Abbreviation drained1 := (drain_run list1 drain_cfg1 taken drain_calls1 (no_drains (mkLog [] 10))).

(** Both rounds hand the same drain to the connector, which is draining. *)
Example drain1 : map (fun e => (fst e, Frame.Type_ (snd e), Frame.RequestID (snd e))) (carriers drained1)
  = [(5%nat, MessageDrain, "op-drain"); (5%nat, MessageDrain, "op-drain")]
  /\ option_map state (session_at drained1 0) = Some SessionDraining.
Proof. by vm_compute. Qed.

Lemma drain_calls1_ok : Forall (drain_call_ok list1 any_auth any_renewal only_server stream_of) drain_calls1.
Proof.
  assert (Hid : moves1 (fun w => w)) by (intros w; apply moved_refl).
  unfold drain_calls1. repeat (apply Forall_cons; split); [..|by apply Forall_nil].
  - apply accept_step_moves.
  - apply pw_after_moves.
  - apply pw_after_moves.
  - reflexivity.
  - intros j. by split.
  - intros j. by split.
Qed.
Lemma list1_others limit s : only_server s (snd (list1 limit s)).
Proof. done. Qed.

Lemma drains_reach_their_session_witness :
  length (carriers drained1) = 2%nat
  /\ Forall (own_drain list1 stream_of drained1) (carriers drained1).
Proof.
  split; [by vm_compute|].
  exact (proj1 (drains_reach_their_session list1 drain_cfg1 any_auth any_renewal only_server list1_others taken stream_of
    drain_calls1 (mkLog [] 10) drain_calls1_ok)).
Defined.

Lemma drainRetryDelay_bounds_witness :
  exists delay, drainRetryDelay 123456789012 (5 * Second) 9 = Some delay /\ 0 <= delay <= Minute.
Proof. exact (drainRetryDelay_bounds drain_config1 drain_cfg1 123456789012 9 drain_cfg1_ok). Defined.

(** * A control stream with both dispatchers

    The stream of one connector, served beside the rotation and the drain
    dispatcher, whose routes are kept in what the streams share. *)
From S2P Require Import Messages TransportSafety.

Record SharedStore := mkSharedStore {
  control : LogStore;
  rotation_world : RotationDispatch.World (Sto := MemoryRotationPersistence) (Net := Log);
  drain_routes : gmap string DrainLiveSession }.
Definition in_control {A} (f : LogStore -> A * LogStore) (s : SharedStore) : A * SharedStore :=
  let (a, c) := f (control s) in (a, mkSharedStore c (rotation_world s) (drain_routes s)).
#[export] Instance shared_store : PersistentControlStore SharedStore := {|
  AuthenticateConnector q := in_control (AuthenticateConnector q);
  RenewConnector q := in_control (RenewConnector q);
  LoadSnapshot t := in_control (LoadSnapshot t);
  CreateConnectorSessionV1 r w g := in_control (CreateConnectorSessionV1 r w g);
  RecordApplied r a := in_control (RecordApplied r a);
  RecordReady r d := in_control (RecordReady r d);
  RecordHeartbeat r h a := in_control (RecordHeartbeat r h a);
  RecordRenewal r a := in_control (RecordRenewal r a);
  RecordDisconnected r d := in_control (RecordDisconnected r d);
  RecordDrain r d st n c := in_control (RecordDrain r d st n c);
|}.

Definition rotation1 : Dispatcher (Sto := SharedStore) (W := string) :=
  rotation_service rotation_world (fun w s => mkSharedStore (control s) w (drain_routes s)) log_frame
    any_signature any_old_key 5 (fun m _ => quiet 0).
Definition drain_view (x : Served (Sto := SharedStore) (W := string)) : DrainWorld (Sto := SharedStore) (Net := Log) :=
  mkDrainWorld (mkPWorld (sh_registry (sv_shared x)) {[0%nat := sv_session x]} (sh_store (sv_shared x)) {[0%nat]} ∅)
    (drain_routes (sh_store (sv_shared x))) [].
Definition drain_service1 : Dispatcher (Sto := SharedStore) (W := string) :=
  drain_service drain_view (fun routes s => mkSharedStore (control s) (rotation_world s) routes) 0 5 config1.

Definition moment2 (n : Z) : Moment (Sto := SharedStore) (W := string) :=
  mkMoment background (at_s n) (at_s n) (at_s n) None false id.
Definition idle2 : Shared (Sto := SharedStore) (W := string) :=
  mkShared ∅ (mkSharedStore (mkLog [] 10) (RotationDispatch.mkWorld empty_dispatcher begin_1 []) ∅) ∅ "".
Abbreviation serve2 :=
  (Serve any_auth any_renewal server1 (fun i => moment2 (Z.of_nat i)) (moment2 30) (Some rotation1) (Some drain_service1)
    "tun-1" "conn-1" (Ok "sess-1") (Ok (map Z.of_nat (seq 1 18))) stream1 idle2).

(** The stream was served to its end: its disconnect is in the log. *)
Definition served2 (rep : Report (Sto := SharedStore) (W := string)) : bool :=
  bool_decide (is_Some (rp_session rep)) && ok (rp_err rep)
  && bool_decide (length (log (control (sh_store (rp_shared rep)))) = 4%nat)
  && bool_decide (sessions (disp (rotation_world (sh_store (rp_shared rep)))) = ∅)
  && bool_decide (size (drain_routes (sh_store (rp_shared rep))) = 0%nat).
Example stream2_served : served2 serve2 = true.
Proof. by vm_compute. Qed.
Lemma stream2_session : exists s, rp_session serve2 = Some s.
Proof.
  pose proof stream2_served as H. revert H. generalize serve2. intros rep H. unfold served2 in H.
  destruct (rp_session rep); [eauto|done].
Qed.
Lemma nothing_beside n : alongside (m_between (moment2 n)).
Proof. intros x. apply rtc_refl. Qed.
Lemma idle2_fresh id t c g : Ok "sess-1" = Ok id :> Res string -> Lookup (sh_active idle2) t c id g = None.
Proof. intros _. unfold Lookup. by case_match. Qed.

Lemma serve_leaves_nothing_witness :
  exists session, rp_session serve2 = Some session /\ ended_session (mkServed (rp_shared serve2) session).
Proof.
  destruct stream2_session as [s Hs]. exists s. split; [exact Hs|].
  exact (proj1 (serve_leaves_nothing any_auth any_renewal server1 (fun i => moment2 (Z.of_nat i)) (moment2 30)
    (Some rotation1) (Some drain_service1) (fun i => nothing_beside (Z.of_nat i)) (nothing_beside 30)
    (rotation_service_behaves _ _ _ _ _ _ _) (drain_service_behaves _ _ _ _ _) "tun-1" "conn-1" (Ok "sess-1")
    (Ok (map Z.of_nat (seq 1 18))) stream1 idle2 s (registry_wf_empty) idle2_fresh Hs)).
Defined.
