(* ===== verification/PreviewWitnesses.v ===== *)
(** * A preview, its host and its edge

    Concrete values for the attachment manager: the proof, the request and the
    resolution of manager_test.go, an authority that resolves that request, an
    edge that accepts every admission, and the calls that bring the attachment
    from nothing to ready. *)
From S2P Require Import Prelude GoText GoHash GoUrl GoJson GoNet Errors ServerSession PreviewContract PreviewManager.
From S2P Require Import PreviewManagerSafety PreviewWorld.

Definition preview_now : time := 63000000000 * Second.
Definition repeat_text (n : nat) (s : string) : string := Nat.iter n (fun acc => s +:+ acc) "".

Definition proof1 : MachineProof := MachineProof.mk "user-1" "machine-1" "operation-1" 1.
Definition request1 : Request :=
  Request.mk "preview-1" "operation-1" "machine-1" "owner-session-1" "operation-1" "request-1" "correlation-1".

(** The key of 32 zero bytes, and a thumbprint of the same shape. *)
Definition key1 : string := repeat_text 43 "A".
Definition thumb1 : string := "sha256:" +:+ key1.

Definition lease1 : LeaseSnapshot :=
  LeaseSnapshot.mk "user-1" "account-1" "user-1" "preview-1" "operation-1" "machine-1" "owner-session-1"
    "https://preview.example" (Target.mk "http" "127.0.0.1:3000") "public" 1 (preview_now + 10 * Minute) "active"
    key1 thumb1.
Definition carrier1 : CarrierSnapshot :=
  CarrierSnapshot.mk "account-1" "machine-1" true "preview-tunnel-1" "preview-connector-1" "connector-session-1" 1 1
    ("sha256:" +:+ repeat_text 64 "a") (preview_now + 5 * Minute) "edge-node-1" "edge-process-1"
    ("sha256:" +:+ repeat_text 64 "b") "test-public-certificate-chain" key1 thumb1
    ["h3://edge.example:443"; "h2://edge.example:443"].
Definition route1 : RouteSnapshot :=
  RouteSnapshot.mk "account-1" "preview-tunnel-1" "route-1" 1 "https" "https://preview.example".
Definition resolution1 : Resolution := Resolution.mk lease1 carrier1 route1.

(** The world outside is the resolution that the authority holds now. *)
Definition authority1 (ctx : Context) (rr : ResolveRequest) (x : Resolution) : PRes Resolution * Resolution :=
  if Request.PreviewID (rr_Request rr) == LeaseSnapshot.PreviewID (Resolution.Lease x)
  then (Ok x, x) else (Err ErrUnauthorized, x).
#[export] Instance authority1_faithful : FaithfulAuthority authority1.
Proof.
  intros ctx rr x res x'. unfold authority1. case_bool_decide; [|done]. intros [= <- <-]. done.
Qed.
Definition edge1 (ctx : Context) (pub : nat) (adm : AdmissionRequest) (x : Resolution)
    : PRes AdmissionDelivery * Resolution := (Ok (mkDelivery AdmissionAccepted ""), x).

Definition call1 : Call Resolution := mkCall (LiveContext None) preview_now id id id.
Lemma call1_ok : call_ok call1.
Proof. split; intros w; apply rtc_refl. Qed.

(** ** From nothing to ready *)
Definition start1 : World Resolution := mkWorld NewManager [] resolution1.
Definition with_publisher : World Resolution := snd (SetAdmissionPublisher (Some 7%nat) start1).
Definition allocated : World Resolution := snd (Manager_Allocate authority1 call1 proof1 request1 with_publisher).
Definition binding1 : Binding := bindingFromResolution resolution1.
Definition admitted : World Resolution :=
  snd (Manager_Admit authority1 edge1 call1 proof1 request1 binding1 1 allocated).
Definition attached : World Resolution := snd (Manager_ObserveEdge call1 request1 binding1 2 admitted).
Definition serving : World Resolution :=
  snd (Manager_ObserveOrigin authority1 call1 proof1 request1 binding1 3 true attached).

Lemma start1_fresh : fresh start1.
Proof. done. Qed.
Lemma serving_reached : rtc (call authority1 edge1) start1 serving.
Proof.
  apply (rtc_l _ _ with_publisher); [exact (call_publisher _ _ (Some 7%nat) start1)|].
  apply (rtc_l _ _ allocated); [exact (call_allocate _ _ call1 proof1 request1 with_publisher call1_ok)|].
  apply (rtc_l _ _ admitted); [exact (call_admit _ _ call1 proof1 request1 binding1 1 allocated call1_ok)|].
  apply (rtc_l _ _ attached); [exact (call_edge _ _ call1 request1 binding1 2 admitted call1_ok)|].
  apply (rtc_l _ _ serving); [exact (call_origin _ _ call1 proof1 request1 binding1 3 true attached call1_ok)|].
  apply rtc_refl.
Qed.

(** What the manager and the edge have at the end, and what the manager finds
    for the operation. *)
Definition summary (w : World Resolution) : list (string * Z * bool * bool) * nat * option (nat * Z) :=
  ((fun r => (Attachment.State (attachment r), Attachment.AttachmentGeneration (attachment r),
              Attachment.EdgeReady (attachment r), Attachment.OriginReady (attachment r))) <$> records (mgr w),
   length (accepted w),
   prod_map id (fun r => Attachment.AttachmentGeneration (attachment r)) <$>
     record_at (byOperation (expireLocked preview_now (mgr w))) (expireLocked preview_now (mgr w))
       (operationKey "account-1" "operation-1")).
Definition serving_end : list (string * Z * bool * bool) * nat * option (nat * Z) :=
  ([("ready", 4, true, true)], 1%nat, Some (0%nat, 4)).
Lemma serving_summary : summary serving = serving_end.
Proof. vm_cast_no_check (eq_refl serving_end). Qed.

(** The admission, as the second section of [Admit] makes it. *)
Definition admission_run : result PreviewError Attachment * Manager :=
  admitted_section request1 binding1 1 "account-1" preview_now (mgr allocated).
Definition answer_of (out : result PreviewError Attachment * Manager) : option (string * time) :=
  match fst out with Ok a => Some (Attachment.State a, Attachment.ExpiresAt a) | Err _ => None end.
Definition admission_answer : option (string * time) := Some (StateAdmitted, preview_now + 5 * Minute).
Lemma admission_runs : answer_of admission_run = admission_answer.
Proof. vm_cast_no_check (eq_refl admission_answer). Qed.

(** * The properties of the attachment manager at concrete inputs

    The scenario above, and two behaviours that depart from what
    the manager means: a rebind that fails its validation keeps the new binding,
    and an operation identifier that two accounts use can be released by neither. *)
From S2P Require Import PreviewFencing.

Lemma summary_record w st g e o n f : summary w = ([(st, g, e, o)], n, f) ->
  exists r, records (mgr w) !! 0%nat = Some r /\ Attachment.State (attachment r) = st
    /\ Attachment.EdgeReady (attachment r) = e.
Proof.
  unfold summary. intros [= H _ _]. destruct (records (mgr w)) as [|r [|? ?]]; try done.
  injection H as H1 H2 H3 H4. by exists r.
Qed.
Lemma summary_found w l n p g : summary w = (l, n, Some (p, g)) ->
  exists r, record_at (byOperation (expireLocked preview_now (mgr w))) (expireLocked preview_now (mgr w))
      (operationKey "account-1" "operation-1") = Some (p, r)
    /\ Attachment.AttachmentGeneration (attachment r) = g.
Proof.
  unfold summary. intros [= _ _ H]. destruct (record_at _ _ _) as [[q r]|]; [|done].
  injection H as <- <-. by exists r.
Qed.

Lemma serving_record : exists r, records (mgr serving) !! 0%nat = Some r
  /\ Attachment.State (attachment r) = StateReady /\ Attachment.EdgeReady (attachment r) = true.
Proof. exact (summary_record _ _ _ _ _ _ _ serving_summary). Qed.

Lemma edge_ready_only_when_accepted_witness :
  exists r, records (mgr serving) !! 0%nat = Some r /\ Attachment.EdgeReady (attachment r) = true
    /\ exists admission, admission ∈ accepted serving
      /\ dataCarrierBindingEqual (AdmissionRequest.Binding admission) (Attachment.Binding (attachment r)) = true.
Proof.
  destruct serving_record as (r & Hr0 & _ & He).
  exists r. split; [exact Hr0|]. split; [exact He|].
  exact (edge_ready_only_when_accepted authority1 edge1 start1 serving 0 r start1_fresh serving_reached Hr0
    (or_introl He)).
Defined.

Lemma attachments_refine_phases_witness :
  exists r s, records (mgr serving) !! 0%nat = Some r /\ represents (attachment r) s /\ Spec.ph s = Spec.Ready
    /\ rtc spec_step (Spec.mk Spec.Pending 1 (identity (Attachment.Binding (attachment r)))) s.
Proof.
  destruct serving_record as (r & Hr0 & Hs & _).
  destruct (proj1 (attachments_refine_phases authority1 edge1 start1 serving start1_fresh serving_reached) 0%nat r Hr0)
    as (s & R & Hrun).
  exists r, s. split; [exact Hr0|]. split; [exact R|]. split; [|exact Hrun].
  apply phase_name_inj. rewrite <- (rep_state _ _ R). exact Hs.
Defined.

Lemma one_live_attachment_per_preview_witness :
  exists r, records (mgr serving) !! 0%nat = Some r /\ isTerminal (Attachment.State (attachment r)) = false
    /\ 0%nat = 0%nat.
Proof.
  destruct serving_record as (r & Hr0 & Hs & _).
  assert (Hl : isTerminal (Attachment.State (attachment r)) = false) by (by rewrite Hs).
  exists r. split; [exact Hr0|]. split; [exact Hl|].
  exact (proj2 (one_live_attachment_per_preview authority1 edge1 start1 serving 0 0 r r start1_fresh serving_reached
    Hr0 Hr0 eq_refl) eq_refl Hl Hl).
Defined.

(** The handle of the allocation, long after it. *)
Lemma stale_handle_changes_nothing_witness :
  exists r, Attachment.AttachmentGeneration (attachment r) = 4
    /\ wp (origin_section request1 binding1 1 false "account-1" preview_now)
         (refused id (expireLocked preview_now (mgr serving)) (attachment r) binding1 1
            ((Attachment.State (attachment r) == StateEdgeReady) && Attachment.EdgeReady (attachment r)
             && Bool.eqb (Attachment.OriginReady (attachment r)) false)) (mgr serving).
Proof.
  destruct (summary_found serving [("ready", 4, true, true)] 1 0 4 serving_summary) as (r & Hr & Hg).
  exists r. split; [exact Hg|].
  refine (proj1 (proj2 (proj2 (stale_handle_changes_nothing request1 binding1 1 false "account-1" preview_now
    (mgr serving) 0 r Hr _)))).
  left. rewrite Hg. discriminate.
Defined.

Lemma answer_run out st e : answer_of out = Some (st, e) ->
  exists a m', out = (Ok a, m') /\ Attachment.State a = st /\ Attachment.ExpiresAt a = e.
Proof. destruct out as [[a|?] m']; [|done]. intros [= <- <-]. by exists a, m'. Qed.

Lemma retry_returns_the_answer_witness :
  exists a m', admission_run = (Ok a, m')
    /\ wp (admit_section request1 binding1 1 "account-1" (preview_now + Minute))
         (answered (inl a) (expireLocked (preview_now + Minute) m')) m'.
Proof.
  destruct (answer_run _ _ _ admission_runs) as (a & m' & E & Hs & He).
  exists a, m'. split; [exact E|].
  refine (proj1 (retry_returns_the_answer request1 binding1 1 false "account-1" proof1 preview_now
    (preview_now + Minute) (mgr allocated)) a m' E _ _).
  - right. rewrite He. reflexivity.
  - rewrite Hs. reflexivity.
Defined.

(** ** Departures *)

(** The carrier reconnects, but the authority has no certificate chain for its
    edge, which [validateResolution] does not look at. *)
Definition resolution_unchained : Resolution :=
  resolution1 <| Resolution.Carrier :=
    carrier1 <| CarrierSnapshot.SessionID := "connector-session-2" |> <| CarrierSnapshot.ProcessGeneration := 2 |>
             <| CarrierSnapshot.EdgeCarrierServerCertificateChainPEM := "" |> |>.
Definition renewed : result PreviewError Attachment * World Resolution :=
  Manager_Renew authority1 call1 proof1 request1 1 (allocated <| ext := resolution_unchained |>).

Definition renew_summary (out : result PreviewError Attachment * World Resolution)
    : option PreviewError * list (string * Z * option PreviewError) :=
  (match fst out with Err e => Some e | Ok _ => None end,
   (fun r => (Binding.SessionID (Attachment.Binding (attachment r)), Attachment.AttachmentGeneration (attachment r),
              Attachment_Validate (attachment r) preview_now)) <$> records (mgr (snd out))).

(** The renewal is refused, and yet the record has the new session, the next
    generation, and is no longer a valid attachment. *)
Definition refused_renewal : option PreviewError * list (string * Z * option PreviewError) :=
  (Some ErrInvalid, [("connector-session-2", 2, Some ErrInvalid)]).
Lemma failed_renew_keeps_binding : renew_summary renewed = refused_renewal.
Proof. vm_cast_no_check (eq_refl refused_renewal). Qed.

(** The same machine serves a preview of another account under the same operation
    identifier. *)
Definition resolution_teammate : Resolution :=
  Resolution.mk (lease1 <| LeaseSnapshot.AccountID := "account-2" |>)
    (carrier1 <| CarrierSnapshot.AccountID := "account-2" |>)
    (RouteSnapshot.mk "account-2" "preview-tunnel-1" "route-1" 1 "https" "https://preview.example").
Definition both_allocated : result PreviewError Attachment * World Resolution :=
  Manager_Allocate authority1 call1 proof1 request1 (allocated <| ext := resolution_teammate |>).
Definition release_both : nat * bool * option PreviewError :=
  let w := snd both_allocated in
  (length (records (mgr w)), is_ok (fst both_allocated),
   match fst (Manager_Release call1 proof1 request1 binding1 1 w) with Err e => Some e | Ok _ => None end).

(** Both attachments exist, and releasing the first one finds nothing. *)
Definition release_lost : nat * bool * option PreviewError := (2%nat, true, Some ErrNotFound).
Lemma shared_operation_is_not_released : release_both = release_lost.
Proof. vm_cast_no_check (eq_refl release_lost). Qed.
