(* ===== verification/PreviewSqlWitnesses.v ===== *)
(** * The properties of the attachment service at concrete inputs

    The preview of [PreviewWitnesses] through the service, the SQL repository and
    the outbox: allocated, acknowledged by its edge, attached and ready.  Two
    behaviours depart from what the outbox means: a snapshot whose transaction is
    retried lists its rows twice, and after a renewal of the lease alone the
    snapshot names a command that does not exist. *)
From S2P Require Import Prelude GoText GoHash GoUrl GoJson GoNet Errors ServerSession PreviewContract PreviewManager.
From S2P Require Import PreviewManagerSafety PreviewWorld PreviewService PreviewSql PreviewSqlSafety PreviewProduction.
From S2P Require Import PreviewProduction PreviewWitnesses.

Definition microseconds (t : time) : time := t - t mod 1000.
Definition bytewise (a b : string) : comparison := String.compare a b.

(** Every transaction commits at its first attempt, or meets [outcomes]. *)
Definition reading1 (outcomes : nat -> outcome) : Reading := mkReading preview_now preview_now outcomes (fun _ d => d).
Definition commit_all (attempt : nat) : outcome := Commits.
Definition lease_row1 : LeaseRow :=
  mkLeaseRow "https://preview.example" (Target.mk "http" "127.0.0.1:3000") "public" true (preview_now + 10 * Minute).
Definition node_row1 : NodeRow := mkNodeRow "edge-process-1" "ready" true (Some preview_now) None.
Definition database1 : Database :=
  mkDatabase ∅ {[ ("account-1", "preview-1") := lease_row1 ]} ∅ {[ "edge-node-1" := node_row1 ]} [].

Abbreviation SqlWorld := (ServiceWorld (Repo := SQLRepository) (X := Resolution)).
Definition sql_start : SqlWorld :=
  mkServiceWorld (mkSQLRepository database1 (fun _ => reading1 commit_all) 0) resolution1 [].
Definition service_call1 : ServiceCall (Repo := SQLRepository) (X := Resolution) :=
  mkServiceCall (LiveContext None) preview_now (fun _ w => w).
Lemma service_call1_ok : service_call_ok service_call1.
Proof. intros i w. reflexivity. Qed.
Lemma sql_start_empty : empty_start sql_start.
Proof. split; [done|done|]. intros n i d. apply rtc_refl. Qed.

#[local] Hint Extern 0 (AttachmentRepository SQLRepository) => exact (repository microseconds) : typeclass_instances.
Definition sql_allocated : SqlWorld := snd (Service_Allocate authority1 service_call1 proof1 request1 sql_start).
Abbreviation acknowledge1 :=
  (AcknowledgePreviewCarrierOutbox microseconds "edge-node-1" "edge-process-1" "account-1" "operation-1" 1 "admit").
Definition sql_acknowledged : SqlWorld := sql_allocated <| repo := snd (acknowledge1 (repo sql_allocated)) |>.
Definition sql_attached : SqlWorld := snd (Service_ObserveEdge service_call1 request1 binding1 2 sql_acknowledged).
Definition sql_serving : SqlWorld :=
  snd (Service_ObserveOrigin authority1 service_call1 proof1 request1 binding1 3 true sql_attached).

Abbreviation runs := (rtc (production microseconds bytewise authority1)).
Lemma allocated_run : runs sql_start sql_allocated.
Proof. apply rtc_once. exact (run_allocate _ _ _ service_call1 proof1 request1 sql_start service_call1_ok). Qed.
Lemma acknowledged_run : runs sql_start sql_acknowledged.
Proof.
  apply (rtc_r _ sql_allocated); [exact allocated_run|].
  exact (run_acknowledge _ _ _ "edge-node-1" "edge-process-1" "account-1" "operation-1" 1 "admit" sql_allocated).
Qed.
Lemma serving_run : runs sql_acknowledged sql_serving.
Proof.
  apply (rtc_l _ _ sql_attached); [exact (run_edge _ _ _ service_call1 request1 binding1 2 sql_acknowledged service_call1_ok)|].
  apply rtc_once. exact (run_origin _ _ _ service_call1 proof1 request1 binding1 3 true sql_attached service_call1_ok).
Qed.
Lemma sql_serving_reached : runs sql_start sql_serving.
Proof. transitivity sql_acknowledged; [exact acknowledged_run|exact serving_run]. Qed.

Definition row1 (w : SqlWorld) : option (string * Z * bool) :=
  (fun row => (Attachment.State row, Attachment.AttachmentGeneration row, Attachment.EdgeReady row)) <$>
  attachments (sql_db (repo w)) !! ("account-1", "operation-1").
Abbreviation gate1 :=
  (RequirePreviewAttachmentReady service_call1 "account-1" "preview-1" "operation-1" "machine-1" "owner-session-1"
    sql_serving).
Abbreviation pull1 := (PullPreviewCarrierSnapshot microseconds bytewise "edge-node-1" "edge-process-1").
Definition pulled (r : PRes (list PreviewCarrierOutboxItem)) : option (list (string * Z)) :=
  match r with
  | Ok items => Some ((fun i => (PreviewCarrierOutboxItem.OperationID i, PreviewCarrierOutboxItem.AttachmentGeneration i)) <$> items)
  | Err _ => None
  end.
(** The first attempt of the snapshot's transaction meets a serialization failure;
    the second one commits. *)
Definition conflict_once (attempt : nat) : outcome := match attempt with 1%nat => Conflicts | _ => Commits end.
Definition retried_repo : SQLRepository :=
  mkSQLRepository (sql_db (repo sql_serving)) (fun _ => reading1 conflict_once) 0.
(** The lease is renewed and the carrier is the same: the row stays ready, the
    snapshot names generation five, and acknowledging it finds no command. *)
Definition resolution_renewed : Resolution :=
  resolution1 <| Resolution.Lease := lease1 <| LeaseSnapshot.Generation := 2 |> |>.
Definition lease_renewed : SqlWorld :=
  snd (Service_Renew authority1 service_call1 proof1 request1 4 (sql_serving <| sext := resolution_renewed |>)).
Definition renewed_pull : option (string * Z * bool) * option (list (string * Z)) * option PreviewError :=
  (row1 lease_renewed, pulled (fst (pull1 (repo lease_renewed))),
   fst (AcknowledgePreviewCarrierOutbox microseconds "edge-node-1" "edge-process-1" "account-1" "operation-1" 5 "admit"
          (repo lease_renewed))).

(** What these definitions evaluate to, together. *)
Abbreviation registered1 :=
  (is_ok (fst (assertPreviewEdgeProcessEpochTx microseconds "edge-node-1" "edge-process-1"
    (t_clock (sql_readings (repo sql_serving) (sql_calls (repo sql_serving)))) (sql_db (repo sql_serving))))).
Abbreviation acknowledged_first := (bool_decide (fst (acknowledge1 (repo sql_allocated)) = None)).
Record facts := mkFacts {
  f_row : option (string * Z * bool);
  f_gate : bool;
  f_pulled : option (list (string * Z));
  f_retried : option (list (string * Z));
  f_renewed : option (string * Z * bool) * option (list (string * Z)) * option PreviewError;
  f_acknowledged : bool;
  f_registered : bool;
}.
Abbreviation evaluated :=
  (mkFacts (row1 sql_serving) (is_ok (fst gate1)) (pulled (fst (pull1 (repo sql_serving))))
    (pulled (fst (pull1 retried_repo))) renewed_pull acknowledged_first registered1).
Abbreviation expected :=
  (mkFacts (Some ("ready", 4, true)) true (Some [("operation-1", 1)])
    (Some [("operation-1", 1); ("operation-1", 1)])
    (Some ("ready", 5, true), Some [("operation-1", 5)], Some ErrNotFound) true true).
Lemma evaluated_facts : evaluated = expected.
Proof. vm_cast_no_check (eq_refl expected). Qed.

Lemma facts_equal r g p t n a e r' g' p' t' n' a' e' :
  mkFacts r g p t n a e = mkFacts r' g' p' t' n' a' e' ->
  r = r' /\ g = g' /\ p = p' /\ t = t' /\ n = n' /\ a = a' /\ e = e'.
Proof. by intros [= -> -> -> -> -> -> ->]. Qed.

Definition known := facts_equal _ _ _ _ _ _ _ _ _ _ _ _ _ _ evaluated_facts.

Lemma sql_serving_row : row1 sql_serving = Some ("ready", 4, true).
Proof. exact (proj1 known). Qed.

Lemma row1_found w st g e : row1 w = Some (st, g, e) ->
  exists row, attachments (sql_db (repo w)) !! ("account-1", "operation-1") = Some row
    /\ Attachment.State row = st /\ Attachment.EdgeReady row = e.
Proof.
  unfold row1. destruct (_ !! _) as [row|]; [|done]. intros [= <- <- <-]. by exists row.
Qed.
Lemma serving_row1 : exists row, attachments (sql_db (repo sql_serving)) !! ("account-1", "operation-1") = Some row
    /\ Attachment.State row = StateReady /\ Attachment.EdgeReady row = true.
Proof. exact (row1_found sql_serving "ready" 4 true sql_serving_row). Qed.

Lemma rows_in_use_are_acknowledged_witness :
  exists row, attachments (sql_db (repo sql_serving)) !! ("account-1", "operation-1") = Some row
    /\ Attachment.EdgeReady row = true
    /\ exists ack, ack ∈ acks (sql_db (repo sql_serving))
      /\ ack_node ack = Binding.EdgeNodeID (Attachment.Binding row)
      /\ ack_epoch ack = Binding.EdgeProcessEpoch (Attachment.Binding row)
      /\ dataCarrierBindingEqual (ack_binding ack) (Attachment.Binding row) = true.
Proof.
  destruct serving_row1 as (row & Hr & _ & He). exists row. split; [exact Hr|]. split; [exact He|].
  exact (rows_in_use_are_acknowledged microseconds bytewise authority1 sql_start sql_serving
    ("account-1", "operation-1") row sql_start_empty sql_serving_reached Hr (or_introl He)).
Defined.

Lemma rows_refine_phases_witness :
  exists row s, attachments (sql_db (repo sql_serving)) !! ("account-1", "operation-1") = Some row
    /\ represents row s /\ Spec.ph s = Spec.Ready
    /\ rtc spec_step (Spec.mk Spec.Pending 1 (identity (Attachment.Binding row))) s.
Proof.
  destruct serving_row1 as (row & Hr & Hs & _).
  destruct (proj1 (rows_refine_phases microseconds bytewise authority1 sql_start sql_serving sql_start_empty
    sql_serving_reached) _ row Hr) as (s & R & Hrun).
  exists row, s. split; [exact Hr|]. split; [exact R|]. split; [|exact Hrun].
  apply phase_name_inj. rewrite <- (rep_state _ _ R). exact Hs.
Defined.

Lemma stored_rows_are_well_formed_witness :
  exists row, attachments (sql_db (repo sql_serving)) !! ("account-1", "operation-1") = Some row
    /\ Attachment.State row = StateReady /\ state_error row = None.
Proof.
  destruct serving_row1 as (row & Hr & Hs & _). exists row. split; [exact Hr|]. split; [exact Hs|].
  exact (proj1 (proj2 (proj2 (stored_rows_are_well_formed microseconds bytewise authority1 sql_start sql_serving
    ("account-1", "operation-1") row sql_start_empty sql_serving_reached Hr)))).
Defined.

(** The gate of the preview, at the end. *)
Lemma gate1_open : is_ok (fst gate1) = true.
Proof. exact (proj1 (proj2 known)). Qed.
Lemma open_gate (out : PRes unit * SqlWorld) : is_ok (fst out) = true -> exists w', out = (Ok tt, w').
Proof. destruct out as [[[]|e] w']; [|done]. intros _. by exists w'. Qed.
Lemma passed_gate_is_serving_witness :
  exists w', gate1 = (Ok tt, w')
    /\ row_serves "account-1" "preview-1" "operation-1" "machine-1" "owner-session-1" (s_now service_call1) (sql_db (repo w')).
Proof.
  destruct (open_gate gate1 gate1_open) as [w' E]. exists w'. split; [exact E|].
  exact (passed_gate_is_serving microseconds bytewise authority1 sql_start sql_serving w' service_call1 "account-1"
    "preview-1" "operation-1" "machine-1" "owner-session-1" sql_start_empty sql_serving_reached service_call1_ok E).
Defined.

(** The edge's snapshot, at the end. *)
Lemma snapshot1_items : pulled (fst (pull1 (repo sql_serving))) = Some [("operation-1", 1)].
Proof. exact (proj1 (proj2 (proj2 known))). Qed.
Lemma pulled_items (out : PRes (list PreviewCarrierOutboxItem) * SQLRepository) l :
  pulled (fst out) = Some l -> exists items s', out = (Ok items, s').
Proof. destruct out as [[items|e] s']; [|done]. intros _. by exists items, s'. Qed.
Lemma committed_reading : t_outcome (sql_readings (repo sql_serving) (sql_calls (repo sql_serving))) 1 <> Conflicts.
Proof.
  destruct (runs_move microseconds bytewise authority1 _ _ sql_serving_reached (start_ok _ sql_start_empty)) as [-> _].
  discriminate.
Qed.
Lemma snapshot_is_complete_witness :
  exists items s', pull1 (repo sql_serving) = (Ok items, s')
    /\ entry_of_item <$> items ≡ₚ entry_of_row (sql_db (repo sql_serving)) <$>
         live_entries microseconds "edge-node-1" "edge-process-1"
           (t_clock (sql_readings (repo sql_serving) (sql_calls (repo sql_serving)))) (sql_db (repo sql_serving)).
Proof.
  destruct (pulled_items (pull1 (repo sql_serving)) _ snapshot1_items) as (items & s' & E).
  exists items, s'. split; [exact E|].
  exact (proj1 (snapshot_is_complete microseconds bytewise "edge-node-1" "edge-process-1" authority1 sql_start
    sql_serving s' items sql_start_empty sql_serving_reached committed_reading E)).
Defined.

(** The edge acknowledges again after the response was lost. *)
Lemma ok_unit {E} (r : result E unit) : is_ok r = true -> r = Ok tt.
Proof. by destruct r as [[]|]. Qed.
Lemma answered_pair {A B} (out : option A * B) : fst out = None -> out = (None, snd out).
Proof. destruct out as [[a|] b]; done. Qed.
Lemma repeated_acknowledgement_is_a_no_op_witness :
  let (e, s2) := acknowledge1 (repo sql_serving) in e = None /\ sql_db s2 = sql_db (repo sql_serving).
Proof.
  pose proof (proj1 (proj2 (proj2 (proj2 (proj2 (proj2 known)))))) as H1. apply bool_decide_eq_true in H1.
  pose proof (ok_unit _ (proj2 (proj2 (proj2 (proj2 (proj2 (proj2 known))))))) as H2.
  refine (repeated_acknowledgement_is_a_no_op microseconds bytewise "edge-node-1" "edge-process-1" authority1 sql_start
    sql_allocated sql_serving (snd (acknowledge1 (repo sql_allocated))) "account-1" "operation-1" 1 "admit"
    sql_start_empty allocated_run _ serving_run _ H2).
  - exact (answered_pair (acknowledge1 (repo sql_allocated)) H1).
  - destruct (runs_move microseconds bytewise authority1 _ _ sql_serving_reached (start_ok _ sql_start_empty)) as [-> _].
    reflexivity.
Defined.

(** ** Departures *)

(** The retried snapshot lists the row twice. *)
Lemma retried_snapshot_repeats :
  pulled (fst (pull1 retried_repo)) = Some [("operation-1", 1); ("operation-1", 1)].
Proof. exact (proj1 (proj2 (proj2 (proj2 known)))). Qed.

(** After the lease alone is renewed, the command that the snapshot names is not
    found. *)
Lemma renewed_lease_has_no_command :
  renewed_pull = (Some ("ready", 5, true), Some [("operation-1", 5)], Some ErrNotFound).
Proof. exact (proj1 (proj2 (proj2 (proj2 (proj2 known))))). Qed.
