(* ===== verification/MintWitnesses.v ===== *)
(** * The properties of credentials and grants at concrete inputs

    A provider with one key and a signature scheme that adds the key to a checksum
    of the message; the grant of a request for a private preview, and the grant of the
    same request with an expiry between two seconds. *)
From S2P Require Import Prelude GoText GoHash GoUrl GoJson GoNet Errors TextFacts JsonFacts StructFacts MessageFacts.
From S2P Require Import GoTime TranscriptFacts MintTypes Mint MintFacts MintSafety PrivateContract PrivateGrant.
From S2P Require PreviewWitnesses.

(** ** The scheme and the provider *)
Definition toy_Public (key : list Z) : list Z := key.
Definition checksum (m : string) : Z := fold_left (fun h c => (h * 31 + c) mod 256) (Sha256.codes m) 7.
Definition toy_Sign (key : list Z) (m : string) : list Z :=
  let h := checksum m in (fun k => (k + h) mod 256) <$> key.
Definition toy_Verify (key : list Z) (m : string) (signature : list Z) : bool :=
  bool_decide (signature = toy_Sign key m).
Lemma toy_bytes key m : is_bytes (toy_Sign key m).
Proof.
  unfold toy_Sign, is_bytes. cbv zeta. rewrite Forall_fmap. apply Forall_true. intros k. cbn.
  apply (Z.mod_pos_bound _ 256). done.
Qed.
Lemma toy_verifies key m : toy_Verify (toy_Public key) m (toy_Sign key m) = true.
Proof. by apply bool_decide_eq_true_2. Qed.

Definition mint_keys : list Key := [mkKey "key-1" (repeat 7 64)].
Definition provider1 : Provider := mkProvider "key-1" {[ "key-1" := repeat 7 64%nat ]} Minute.
Lemma provider1_new : New mint_keys "key-1" Minute = Ok provider1.
Proof. reflexivity. Qed.
Lemma provider1_kid : valid_utf8 (activeID provider1).
Proof. by apply safe_valid. Qed.
Definition issuer1 : string := "https://paperboat.example".
Lemma issuer1_valid : valid_utf8 issuer1.
Proof. by apply safe_valid. Qed.

(** ** Grants *)
Abbreviation now1 := PreviewWitnesses.preview_now.
Definition access_request : Request :=
  Request.mk "account-1" ResourcePreview "preview-1" "route-1" AudiencePreviewHTTP "machine-2" "control-session-2" 1
    (now1 + Minute) 0 "nonce-1" "operation-1" "preview-connector-1" "connector-session-1" 1 1 1 1 1 "edge-node-1"
    "edge-process-1" ProtocolHTTP "GET" "preview.example" "/" "key-1" "request-1" "correlation-1".
Lemma access_request_wire : wire_request access_request.
Proof. split; repeat (apply Forall_cons; split); try done; by apply safe_valid. Qed.
Definition later_request : Request := access_request <| Request.ExpiresAt := now1 + Minute + 1 |>.
Lemma later_request_wire : wire_request later_request.
Proof. destruct access_request_wire. by split. Qed.

(** The same instant, two hours ahead of UTC. *)
Definition zoned_request : Request := access_request <| Request.ExpiresZone := 7200 |>.
Lemma zoned_request_wire : wire_request zoned_request.
Proof. destruct access_request_wire. by split. Qed.

Abbreviation mint1 := (MintGrant toy_Sign provider1 issuer1 now1).
Abbreviation verify1 := (VerifyGrant toy_Verify toy_Public provider1 issuer1 now1).
Definition ok_text (r : ARes string) : string := match r with Ok s => s | Err _ => "" end.
Lemma okay {E A} (r : result E A) : is_ok r = true -> exists a, r = Ok a.
Proof. destruct r as [a|]; [by exists a|done]. Qed.
Definition token1 : string := Eval vm_compute in ok_text (mint1 access_request now1).
Definition token2 : string := Eval vm_compute in ok_text (mint1 later_request now1).
Definition zoned_token : string := Eval vm_compute in ok_text (mint1 zoned_request now1).
Lemma zoned_minted : mint1 zoned_request now1 = Ok zoned_token.
Proof. vm_cast_no_check (@eq_refl (ARes string) (Ok zoned_token)). Qed.
Lemma minted1 : mint1 access_request now1 = Ok token1.
Proof. vm_cast_no_check (@eq_refl (ARes string) (Ok token1)). Qed.
Lemma minted2 : mint1 later_request now1 = Ok token2.
Proof. vm_cast_no_check (@eq_refl (ARes string) (Ok token2)). Qed.
Lemma verified1 : verify1 token1 now1 = Ok access_request.
Proof. vm_cast_no_check (@eq_refl (ARes Request) (Ok access_request)). Qed.
Lemma now1_range : UnixEpoch <= issued_at now1 now1 /\ time_year_ok (issued_at now1 now1) = true.
Proof. split; [by vm_compute|by vm_compute]. Qed.

Lemma whole_second_grant_verifies_witness :
  mint1 access_request now1 = Ok token1 /\ verify1 token1 (now1 + 30 * Second) = Ok access_request.
Proof.
  split; [exact minted1|].
  apply (whole_second_grant_verifies toy_Sign toy_Verify toy_Public toy_bytes toy_verifies mint_keys "key-1" Minute
    provider1 provider1_new provider1_kid issuer1 issuer1_valid now1 access_request now1 token1 (now1 + 30 * Second)
    access_request_wire (proj1 now1_range) (proj2 now1_range) eq_refl eq_refl minted1); by vm_compute.
Defined.

Lemma grant_carries_request_witness : exists r',
  verify1 token1 now1 = Ok r' /\ (r' = access_request \/ collide (Request_text r') (Request_text access_request)).
Proof.
  exists access_request. split; [exact verified1|].
  apply (grant_carries_request toy_Sign toy_Verify toy_Public toy_bytes toy_verifies mint_keys "key-1" Minute
    provider1 provider1_new provider1_kid issuer1 issuer1_valid now1 access_request now1 token1 now1 access_request
    access_request_wire (proj1 now1_range) (proj2 now1_range) minted1 verified1).
Defined.

Lemma fractional_grant_never_verifies_witness :
  mint1 later_request now1 = Ok token2
  /\ (verify1 token2 now1 = Err ErrIdentityUnavailable
      \/ collide (Request_text (to_second later_request)) (Request_text later_request))
  /\ mint1 zoned_request now1 = Ok zoned_token
  /\ (verify1 zoned_token now1 = Err ErrIdentityUnavailable
      \/ collide (Request_text (to_second zoned_request)) (Request_text zoned_request)).
Proof.
  split; [exact minted2|]. split; [|split; [exact zoned_minted|]].
  2: apply (fractional_grant_never_verifies toy_Sign toy_Verify toy_Public toy_bytes toy_verifies mint_keys "key-1"
    Minute provider1 provider1_new provider1_kid issuer1 issuer1_valid now1 zoned_request now1 zoned_token now1
    zoned_request_wire (proj1 now1_range) (proj2 now1_range)); [by right|exact zoned_minted].
  apply (fractional_grant_never_verifies toy_Sign toy_Verify toy_Public toy_bytes toy_verifies mint_keys "key-1" Minute
    provider1 provider1_new provider1_kid issuer1 issuer1_valid now1 later_request now1 token2 now1
    later_request_wire (proj1 now1_range) (proj2 now1_range)); [by left|exact minted2].
Defined.

(** ** Credentials

    The admission of a connector, whose claims nest the policy of file
    transfers. *)
Definition admission1 : CredentialInput :=
  CredentialInput.zero
    <| CredentialInput.Issuer := issuer1 |> <| CredentialInput.Audience := "paperboat-edge" |>
    <| CredentialInput.Subject := "machine-2" |> <| CredentialInput.JTI := "jti-1" |>
    <| CredentialInput.IssuedAt := now1 |> <| CredentialInput.ExpiresAt := now1 + 5 * Minute |>
    <| CredentialInput.CredentialClass := "connector_admission" |>
    <| CredentialInput.Scopes := ["connector:admit"] |> <| CredentialInput.EnvironmentID := "environment-1" |>
    <| CredentialInput.MachineID := "machine-2" |> <| CredentialInput.InstallationGeneration := 1 |>
    <| CredentialInput.ConnectorID := "connector-1" |> <| CredentialInput.ConnectorGeneration := 2 |>
    <| CredentialInput.EdgePool := "pool-1" |> <| CredentialInput.EdgeNodeID := "edge-node-1" |>
    <| CredentialInput.RouteBinding := PreviewWitnesses.key1 |>.
Lemma admission1_wire : wire_credential admission1.
Proof.
  split; cbn; try done.
  - repeat (apply Forall_cons_2; [by apply safe_valid|]). by apply Forall_nil_2.
  - apply Forall_singleton. by apply safe_valid.
  - repeat (apply Forall_cons_2; [done|]). by apply Forall_nil_2.
  - repeat (apply Forall_cons_2; [done|]). by apply Forall_nil_2.
  - split; [by apply safe_valid|]. repeat (apply Forall_cons_2; [done|]). by apply Forall_nil_2.
Qed.
Definition token3 : string :=
  Eval vm_compute in match SignCredential toy_Sign provider1 admission1 with Ok s => s | Err _ => "" end.
Lemma signed3 : SignCredential toy_Sign provider1 admission1 = Ok token3.
Proof. vm_cast_no_check (@eq_refl (MRes string) (Ok token3)). Qed.

Abbreviation verify3 now grace :=
  (verifyCredential toy_Verify toy_Public provider1 token3 issuer1 "connector_admission" now grace).

Lemma signed_credential_verifies_witness :
  VerifyCredential toy_Verify toy_Public provider1 token3 (CredentialInput.Issuer admission1)
    (CredentialInput.CredentialClass admission1) (now1 + Minute) = Ok (claims_for admission1).
Proof.
  refine (proj2 (signed_credential_verifies toy_Sign toy_Verify toy_Public toy_bytes toy_verifies mint_keys "key-1" Minute
    provider1 provider1_new provider1_kid admission1 token3 admission1_wire signed3) (now1 + Minute) _ _ _ _ _).
  - by split.
  - done.
  - done.
  - done.
  - intros [=].
Defined.

(** Two seconds after its expiry the admission is accepted with ten seconds of
    grace. *)
Lemma verified3 : exists c, verify3 (now1 + 302 * Second) (10 * Second) = Ok c.
Proof.
  apply (okay (verify3 (now1 + 302 * Second) (10 * Second))). by vm_compute.
Qed.
Lemma grace3 : 10 * Second / Second <= Unix (now1 + 302 * Second) < max_int64 - 60.
Proof. by split. Qed.
Lemma verified_credential_is_within_policy_witness : exists c,
  verify3 (now1 + 302 * Second) (10 * Second) = Ok c
  /\ signed_by toy_Verify toy_Public provider1 token3
  /\ Unix (now1 + 302 * Second) - 10 * Second / Second < CredentialClaims.ExpiresAt c.
Proof.
  destruct verified3 as [c Hc]. exists c. split; [exact Hc|].
  pose proof (verified_credential_is_within_policy toy_Verify toy_Public provider1 token3 issuer1 "connector_admission"
    (now1 + 302 * Second) (10 * Second) c Hc ltac:(done) grace3) as (Hs & _ & pol & _ & _ & _ & _ & _ & _ & _ & _ & He & _).
  exact (conj Hs He).
Defined.
