(* ===== verification/PrivateWitnesses.v ===== *)
(** * The properties of private access at concrete inputs

    The preview of [PreviewWitnesses], served by its edge and made private, and a
    second machine of the account that asks for a grant and uses it. *)
From S2P Require Import Prelude GoText GoHash GoUrl GoJson GoNet Errors ServerSession StructFacts.
From S2P Require PreviewContract PreviewService PreviewSql PreviewSqlSafety PreviewProduction PreviewWitnesses.
From S2P Require PreviewSqlWitnesses.
From S2P Require Import PrivateContract PrivateService PrivateSafety PrivateResolver.
From S2P Require Import PrivateProduction PrivateGrant MintWitnesses.
#[local] Existing Instances PreviewSql.SQLRepository_settable PreviewSql.Database_settable
  PreviewProduction.repo_moves_preorder.

Definition edge1 : EdgeIdentity := mkEdge "edge-node-1" "edge-process-1".
Definition accessor : Identity :=
  Identity.mk "account-1" "account-1" "machine-2" "control-session-2" (now1 + Minute) false "machine" 1.

Definition machine2 : MachineRow := mkMachineRow "account-1" 1 "online" true None None.
(** A private tunnel of the account, whose connector runs on that machine too. *)
Definition tunnel1 : TunnelRow := mkTunnelRow "account-1" 3 "private" "active" None "https://tunnel.example" None.
Definition tunnel_route1 : RouteRow := mkRouteRow "tunnel-1" 2 "private_tcp" "active" None None None.
Definition connector1 : ConnectorRow :=
  mkConnectorRow "tunnel-1" "machine-2" 4 5 "active" "accepting" (Some "session-1") (Some now1) (Some now1) None.
Definition session1 : SessionRow := mkSessionRow "connector-1" 6 5 "ready" (now1 + 5 * Minute) now1 (Some now1).
Definition assignment1 : AssignmentRow :=
  mkAssignmentRow 7 "tunnel-route-1" "account-1" "tunnel-1" "connector-1" "machine-2" 4 "session-1" 6 5 "hash"
    "private" 2 2 "edge-node-1" "edge-process-1" "active" "ready".
Definition tunnel_request : Request :=
  access_request <| Request.ResourceKind := ResourceTunnel |> <| Request.ResourceID := "tunnel-1" |>
    <| Request.RouteID := "tunnel-route-1" |> <| Request.Audience := AudienceTunnelTCP |>
    <| Request.OperationID := "" |> <| Request.ConnectorID := "connector-1" |>
    <| Request.CarrierSessionID := "session-1" |> <| Request.RouteGeneration := 2 |>
    <| Request.ProcessGeneration := 6 |> <| Request.ConfigGeneration := 5 |> <| Request.SessionGeneration := 4 |>
    <| Request.AssignmentGeneration := 7 |> <| Request.Protocol := ProtocolTCP |> <| Request.Method := "" |>
    <| Request.Host := "" |> <| Request.Path := "" |> <| Request.IdempotencyKey := "key-2" |>.

Definition tables1 : Tables :=
  mkTables {[ "tunnel-1" := tunnel1 ]} {[ "tunnel-route-1" := tunnel_route1 ]} {[ "connector-1" := connector1 ]}
    {[ "session-1" := session1 ]} {[ ("tunnel-1", 5) := mkConfigRow "active" "hash" ]} [assignment1]
    {[ "machine-2" := machine2 ]}
    {[ "machine-2" := mkControlRow 1 "control-session-2" (now1 + 60 * Minute) ]}.
Definition tunnel_token : string := Eval vm_compute in ok_text (mint1 tunnel_request now1).
Definition sink1 (r : AuditRecord) (x : Stores) : bool * Stores := (true, x).
Definition backends1 : Backends Stores :=
  production_backends PreviewSqlWitnesses.microseconds now1 sink1 toy_Sign toy_Verify toy_Public provider1 issuer1.

Definition private_lease : PreviewSql.LeaseRow :=
  PreviewSql.mkLeaseRow "https://preview.example" (PreviewContract.Target.mk "http" "127.0.0.1:3000") "private" true
    (now1 + 10 * Minute).

Definition made_private (s : PreviewSql.SQLRepository) : PreviewSql.SQLRepository :=
  s <| PreviewSql.sql_db := (PreviewSql.sql_db s)
    <| PreviewSql.leases := {[ ("account-1", "preview-1") := private_lease ]} |>
    <| PreviewSql.nodes := {[ "edge-node-1" := PreviewSqlWitnesses.node_row1 ]} |> |>.
Lemma made_private_moves s : PreviewProduction.repo_moves s (made_private s).
Proof. split; [done|]. apply rtc_once, PreviewSqlSafety.next_tables. Qed.
Definition access_start : AccessWorld Stores :=
  mkAccessWorld ∅ (mkStores (PreviewService.repo PreviewSqlWitnesses.sql_start) tables1 true) [].
Definition access_ready : AccessWorld Stores := access_start <| ext := mkStores (made_private (PreviewService.repo PreviewSqlWitnesses.sql_serving)) tables1 true |>.

Definition service1 : Service := mkService DefaultDecisionTTL 1024.
Lemma service1_new : NewService false production_config = Ok service1.
Proof. reflexivity. Qed.

Definition access_call : AccessCall Stores := mkAccessCall (LiveContext None) now1 now1 0 (fun _ w => w).
(** Meanwhile the attachment service runs, and nothing else writes. *)
Definition fixed_tables (x x' : Stores) : Prop :=
  PreviewProduction.repo_moves (st_repo x) (st_repo x') /\ st_tables x' = st_tables x.
#[local] Existing Instance PreviewProduction.repo_moves_preorder.
#[local] Instance fixed_tables_move : StoresMove fixed_tables.
Proof.
  split.
  - split; [intros x; split; reflexivity|]. intros x y z [H1 E1] [H2 E2]. split; [by transitivity (st_repo y)|congruence].
  - intros x x' (Hd & Hr & Ht & _). split; [|done]. split; [done|]. rewrite Hd. apply rtc_refl.
  - by intros x x' [? _].
Qed.
Lemma access_call_fine : access_call_ok service1 backends1 fixed_tables access_call.
Proof. split; [intros; apply rtc_refl|done]. Qed.
Lemma sink1_moves r x : fixed_tables x (snd (sink1 r x)).
Proof. apply (PreOrder_Reflexive (R := fixed_tables)). Qed.

#[local] Instance backends1_steady : SteadyBackends backends1 fixed_tables :=
  production_steady PreviewSqlWitnesses.microseconds now1 sink1 toy_Sign toy_Verify toy_Public
    provider1 issuer1 fixed_tables sink1_moves.

(** ** The run *)
Abbreviation access_steps := (rtc (access_run service1 backends1 fixed_tables)).
Lemma access_start_ok : stores_start (ext access_start).
Proof. destruct PreviewSqlWitnesses.sql_start_empty as [Hr Hc Hb]. by split. Qed.
Lemma private_repo_moves : fixed_tables (ext access_start) (ext access_ready).
Proof.
  split; [|done]. cbn [st_repo ext access_start access_ready].
  eapply (PreOrder_Transitive (PreviewService.repo PreviewSqlWitnesses.sql_start)).
  - exact (PreviewProduction.runs_move PreviewSqlWitnesses.microseconds PreviewSqlWitnesses.bytewise
      PreviewWitnesses.authority1 _ _ PreviewSqlWitnesses.sql_serving_reached
      (PreviewProduction.start_ok _ PreviewSqlWitnesses.sql_start_empty)).
  - apply made_private_moves.
Qed.
Lemma access_ready_reached : access_steps access_start access_ready.
Proof. apply rtc_once. apply (run_outside _ _ _ (ext access_ready)). exact private_repo_moves. Qed.

Definition access_input (grant : string) : AuthorizeInput := mkInput Identity.zero access_request edge1 grant.
Definition tunnel_input : AuthorizeInput := mkInput Identity.zero tunnel_request edge1 tunnel_token.
Abbreviation authorize1 grant := (Authorize service1 backends1 access_call (access_input grant)).
Abbreviation tunnel1_out := (Authorize service1 backends1 access_call tunnel_input access_ready).
Definition after_allowed : AccessWorld Stores := snd (authorize1 token1 access_ready).
Lemma after_allowed_reached : access_steps access_start after_allowed.
Proof. apply (rtc_r _ access_ready); [exact access_ready_reached|]. exact (run_authorize _ _ _ access_call _ _ access_call_fine). Qed.

Abbreviation issue1 := (IssueGrant backends1 access_call accessor edge1 access_request access_ready).
Record access_facts := mkAccessFacts {
  af_allowed : option (bool * string * string * time);
  af_cached : nat;
  af_again : bool;
  af_refused : bool * string;
  af_issued : option string;
  af_tunnel : option (bool * string * string * time);
}.
Definition decision_facts (r : result (Decision * AccessError) Decision) : option (bool * string * string * time) :=
  match r with
  | Ok d => Some (Decision.Allowed d, Decision.ResourceID d, Decision.OperationID d, Decision.ExpiresAt d)
  | Err _ => None
  end.
Definition refusal_facts (r : result (Decision * AccessError) Decision) : bool * string :=
  match r with Ok _ => (true, "") | Err (d, e) => (Decision.Allowed d, Decision.Reason d) end.
Definition grant_of (r : ARes string) : option string := match r with Ok g => Some g | Err _ => None end.
Abbreviation evaluated :=
  (let out := authorize1 token1 access_ready in
   let w := snd out in
   mkAccessFacts (decision_facts (fst out)) (size (cache w)) (is_ok (fst (authorize1 token1 w)))
     (refusal_facts (fst (authorize1 "" access_ready)))
    (grant_of (fst issue1)) (decision_facts (fst tunnel1_out))).
Abbreviation expected :=
  (mkAccessFacts (Some (true, "preview-1", "operation-1", now1 + 45 * Second)) 1 true (false, ReasonUnauthenticated)
    (Some token1) (Some (true, "tunnel-1", "", now1 + 45 * Second))).
Lemma access_evaluated : evaluated = expected.
Proof. vm_cast_no_check (eq_refl expected). Qed.
Lemma access_facts_equal a n g r i t a' n' g' r' i' t' :
  mkAccessFacts a n g r i t = mkAccessFacts a' n' g' r' i' t' ->
  a = a' /\ n = n' /\ g = g' /\ r = r' /\ i = i' /\ t = t'.
Proof. by intros [= -> -> -> -> -> ->]. Qed.
Definition known := access_facts_equal _ _ _ _ _ _ _ _ _ _ _ _ access_evaluated.

Lemma decided (out : result (Decision * AccessError) Decision * AccessWorld Stores) a :
  decision_facts (fst out) = Some a -> exists d, out = (Ok d, snd out) /\ decision_facts (Ok d) = Some a.
Proof. destruct out as [[d|e] w']; [|done]. intros H. by exists d. Qed.
Lemma answered_again (out : result (Decision * AccessError) Decision * AccessWorld Stores) :
  is_ok (fst out) = true -> exists d, out = (Ok d, snd out).
Proof. destruct out as [[d|e] w']; [|done]. intros _. by exists d. Qed.
Lemma denied_out (out : result (Decision * AccessError) Decision * AccessWorld Stores) reason :
  refusal_facts (fst out) = (false, reason) -> reason <> "" ->
  exists d e, out = (Err (d, e), snd out) /\ Decision.Reason d = reason.
Proof. destruct out as [[d|[d e]] w']; [by intros [=]|]. intros [= Ha Hr] _. by exists d, e. Qed.
Lemma granted_out (out : ARes string * AccessWorld Stores) g :
  grant_of (fst out) = Some g -> out = (Ok g, snd out).
Proof. destruct out as [[g'|e] w']; [|done]. by intros [= ->]. Qed.

Lemma verify_backend verify x : bk_VerifyGrant backends1 = Some verify -> fst (verify token1 now1 x) = Ok access_request.
Proof. intros [= <-]. exact verified1. Qed.

Lemma allowed_access_is_authorized_witness :
  exists d b, authorize1 token1 access_ready = (Ok d, after_allowed)
    /\ asked service1 backends1 fixed_tables
         (bk_ResolvePrivate backends1 (mkLookup "account-1" access_request edge1 now1)) access_ready after_allowed (Ok b)
    /\ lets_through access_call edge1 access_request b /\ now1 < Decision.ExpiresAt d.
Proof.
  destruct (decided _ _ (proj1 known)) as (d & E & _).
  destruct (allowed_access_is_authorized service1 backends1 fixed_tables production_config service1_new access_start
    access_ready after_allowed access_call (access_input token1) d eq_refl access_ready_reached access_call_fine E)
    as (verify & machine & signed & b & Hv & Hg & _ & _ & _ & Hb & Hl & _ & _ & Ht & _).
  destruct Hg as (w1 & _ & _ & Hs). pose proof (eq_trans (eq_sym (verify_backend verify (ext w1) Hv)) Hs) as Hg.
  injection Hg as <-.
  exists d, b. exact (conj E (conj Hb (conj Hl Ht))).
Defined.

Lemma refused_access_reveals_nothing_witness :
  exists d e w', authorize1 "" access_ready = (Err (d, e), w') /\ Decision.Reason d = ReasonUnauthenticated
    /\ Decision.ResourceID d = "" /\ e = newDenied ReasonUnauthenticated.
Proof.
  destruct (denied_out (authorize1 "" access_ready) ReasonUnauthenticated (proj1 (proj2 (proj2 (proj2 known)))) ltac:(done))
    as (d & e & E & Hr).
  exists d, e, (snd (authorize1 "" access_ready)). split; [exact E|]. split; [exact Hr|].
  destruct (refused_access_reveals_nothing service1 backends1 fixed_tables production_config service1_new access_start
    access_ready (snd (authorize1 "" access_ready)) access_call (access_input "") d e eq_refl access_ready_reached access_call_fine E)
    as [[Hd _]|(id & reason & expires & rid & cid & Hd & He & _)].
  - rewrite Hd in Hr. discriminate Hr.
  - rewrite Hd in Hr |- *. cbn in Hr. rewrite He, Hr. exact (conj eq_refl eq_refl).
Defined.

Lemma issued_grant_is_authorized_witness :
  issue1 = (Ok token1, snd issue1)
  /\ issued service1 backends1 fixed_tables access_call accessor edge1 access_request token1 access_ready (snd issue1).
Proof.
  pose proof (granted_out issue1 token1 (proj1 (proj2 (proj2 (proj2 (proj2 known)))))) as E. split; [exact E|].
  exact (issued_grant_is_authorized service1 backends1 fixed_tables production_config service1_new access_start
    access_ready (snd issue1) access_call accessor edge1 access_request token1 eq_refl access_ready_reached
    access_call_fine E).
Defined.

Lemma decision_cache_is_bounded_witness :
  size (cache after_allowed) = 1%nat /\ Z.of_nat (size (cache after_allowed)) <= maxCache service1 <= 16384.
Proof.
  split; [exact (proj1 (proj2 known))|].
  exact (proj1 (decision_cache_is_bounded service1 backends1 fixed_tables production_config service1_new access_start
    after_allowed eq_refl after_allowed_reached)).
Defined.

Lemma idempotency_key_is_bound_witness :
  exists d d' w3, authorize1 token1 access_ready = (Ok d, after_allowed)
    /\ authorize1 token1 after_allowed = (Ok d', w3) /\ d' = d.
Proof.
  destruct (decided _ _ (proj1 known)) as (d & E & Ht). destruct (answered_again _ (proj1 (proj2 (proj2 known)))) as (d' & E').
  exists d, d', (snd (authorize1 token1 after_allowed)). split; [exact E|]. split; [exact E'|].
  destruct (idempotency_key_is_bound service1 backends1 fixed_tables production_config service1_new access_start
    access_ready after_allowed access_call (access_input token1) d eq_refl access_ready_reached access_call_fine E)
    as (verify & signed & v & Hv & (w1 & _ & _ & Hs) & Hk & _ & Hretry).
  destruct (Hretry after_allowed (snd (authorize1 token1 after_allowed)) access_call (access_input token1) d'
    (rtc_refl _ _) access_call_fine) as (signed' & (w1' & _ & _ & Hs') & Hsame).
  - injection Ht as _ _ _ Ht. rewrite Ht. reflexivity.
  - exact Hk.
  - intros i w Hw. exact Hw.
  - exact E'.
  - apply Hsame. pose proof (eq_trans (eq_sym (verify_backend verify (ext w1) Hv)) Hs) as Eq.
    pose proof (eq_trans (eq_sym (verify_backend verify (ext w1') Hv)) Hs') as Eq'.
    injection Eq as <-. injection Eq' as <-. reflexivity.
Defined.

Lemma tables_fixed w w' : rtc (astep service1 backends1 fixed_tables) w w' -> st_tables (ext w') = st_tables (ext w).
Proof. induction 1 as [|w w1 w' H _ ->]; [done|]. destruct H as [w x [_ Hx]| | |]; done. Qed.

Lemma private_access_is_served_witness :
  exists d, authorize1 token1 access_ready = (Ok d, after_allowed)
    /\ machine_serves PreviewSqlWitnesses.microseconds now1 access_request tables1
    /\ exists w1, rtc (astep service1 backends1 fixed_tables) access_ready w1
         /\ preview_serves now1 edge1 access_request (PreviewSql.sql_db (st_repo (ext w1))).
Proof.
  destruct (decided _ _ (proj1 known)) as (d & E & _). exists d. split; [exact E|].
  destruct (private_access_is_served PreviewSqlWitnesses.microseconds now1 sink1 toy_Sign toy_Verify toy_Public provider1
    issuer1 fixed_tables sink1_moves service1 production_config service1_new access_start access_ready after_allowed
    access_call (access_input token1) d access_start_ok eq_refl access_ready_reached access_call_fine E)
    as (signed & Hv & (wm & Hm & _ & Hmach) & Hp & _).
  pose proof (eq_trans (eq_sym Hv) verified1) as Hs. injection Hs as ->.
  split; [rewrite (tables_fixed _ _ Hm) in Hmach; exact Hmach|].
  destruct (Hp eq_refl) as (w1 & H1 & _ & Hw). exists w1. exact (conj H1 Hw).
Defined.

(** The tunnel lets the same machine through. *)
Lemma private_tunnel_is_served :
  exists d, tunnel1_out = (Ok d, snd tunnel1_out) /\ Decision.ResourceID d = "tunnel-1".
Proof.
  destruct (decided _ _ (proj2 (proj2 (proj2 (proj2 (proj2 known)))))) as (d & E & H). exists d. split; [exact E|].
  by injection H.
Qed.
